(* ===== verification/_CoqProject ===== *)
-Q . S2P
Prelude.v
Riscv.v
Monad.v
State.v
Kstring.v
Dlist.v
Bytes.v
Printf.v
Spinlock.v
Kalloc.v
Vm.v
VmInv.v
VmMap.v
Uspace.v
VmFree.v
VmCopy.v
VmProps.v
Mmu.v
Kvm.v
Asm.v
AsmProps.v
Start.v
Proc.v
ProcInv.v
Umem.v
Sleeplock.v
Bio.v
BioInv.v
Virtio.v
BioSpec.v
BioClient.v
Log.v
LogInv.v
LogProps.v
Fs.v
Dir.v
Console.v
Pipe.v
File.v
Fork.v
Exec.v
Sysargs.v
Sysproc.v
Sysfile.v
Syscall.v
Trap.v
DirProps.v
PipeProps.v
ConsoleProps.v
TrapProps.v
ProcProps.v
BioProps.v
FsTx.v
FsProps.v
FsRead.v
FileProps.v
InodeProps.v
Userinit.v
Main.v
VirtioInv.v
VirtioSteps.v
VirtioProps.v
VirtioDisk.v
MainProps.v
Ulib.v
Uprintf.v
Tools.v
Umalloc.v
UmallocProps.v
Usbrk.v
Grep.v
Sh.v
ShProps.v
ShRun.v
ShMain.v
Mkfs.v
MkfsProps.v
MkfsBoot.v
