(* ===== verification/Prelude.v ===== *)
(** * xv6 (6.S081, traps lab): a verification development

    xv6 is a small Unix for RISC-V multiprocessors. The development models the
    kernel ([kernel/], C and assembly), the user library, the shell and some
    commands ([user/]) and the program that builds the disk ([mkfs/mkfs.c]),
    as functions on explicit state, and proves what they do.

    ** The program and its model

    Effects. A C function of the kernel is a value of [M S A] ([Monad]): it
    returns, panics, or gives up the CPU ([Yield], the [swtch] of [sched]) and
    goes on from the state it is scheduled in. The state is the record
    [kernel] ([State]): physical memory byte by byte, the free list, the locks
    that are held, the process table, the file system with every write to the
    disk in order, the console and the disk driver. C integers are [Z], with
    the conversions of each width written out ([u8] to [u64], [s32]); bytes in
    blocks and in memory are read and written at the offsets of the C structs
    ([Bytes], [Kstring]).

    Memory. [Kalloc] is [kalloc.c]: the free list runs through the free pages.
    [Vm] is [vm.c]; [VmInv], [VmMap], [Uspace], [VmFree] and [VmCopy] say what
    a page table in memory means and what mapping, unmapping, freeing and
    copying do to it; [VmProps] has the theorems. [Mmu] is the translation of
    the hardware (Sv39), [Kvm] the kernel's own table. [Kstring] is
    [string.c].

    Harts. [Spinlock] is [spinlock.c], as interleaved steps of any number of
    harts and as the list of locks of one hart that the other files use. [Asm]
    has every instruction of [trampoline.S], [swtch.S], [kernelvec.S] and
    [entry.S], [Start] is [start.c].

    Processes. [Proc] is the table, memory, scheduling, sleep and wakeup of
    [proc.c], [Fork] the life of a process, [Exec] is [exec.c], [Sleeplock] is
    [sleeplock.c], [Trap] is [trap.c], [Syscall] with [Sysargs], [Sysproc] and
    [Sysfile] the system calls. [Main] is [main.c] with the [init] functions
    and [plic.c]; [Userinit] is about the first process.

    Disk and files. [Virtio] is [virtio_disk.c], [Bio] is [bio.c], [Log] is
    [log.c], [Fs] and [Dir] are [fs.c], [File] is [file.c], [Pipe] is
    [pipe.c]. [Console] is [console.c] and [uart.c], [Printf] is [printf.c].

    User space. [Ulib], [Uprintf] and [Umalloc] are the library, [Grep] is
    [grep.c], [Sh] is [sh.c], [Tools] has [cat], [wc], [echo], [rm], [mkdir],
    [ln] and [ls]. [Mkfs] is [mkfs.c].

    Interfaces. What one part promises another is a class: [Layout] and
    [LayoutOk] the addresses of the linker script, [Disk] and [DiskOk] the
    disk driver to the buffer cache, [DiskIntr] its interrupt to [Trap],
    [Frames] the call frames that [backtrace] reads, [Sbrk] and [SbrkOk] the
    system call to [malloc]. The kernel's [sys_sbrk] is an instance of
    [SbrkOk] ([Usbrk]). [DiskOk] is a disk that serves a request before it
    returns; its instance is [ideal_disk], and the driver, whose callers
    sleep, is compared with it request by request: a request through the
    driver, the device and the interrupt leaves the buffers, the blocks and
    the rest of the kernel as [ideal_disk] does, up to processes that were
    woken ([VirtioDisk]). What other processes do while a caller of the buffer
    cache sleeps is not part of the theorems above the driver. The results of
    [exec], [open] and [chdir] are a parameter of the runs of the shell
    ([world] of [ShRun]).

    ** What the theorems show

    Memory: a page is never handed out twice; [mappages], [uvmalloc],
    [uvmcopy] and [uvmfree] do to the address space what their names say, leak
    nothing and fail cleanly when memory runs out; what [copyout] writes
    [copyin] reads; [walkaddr] agrees with the hardware; the kernel's table
    maps the kernel where it runs, with a stack for every process.

    Harts: two harts never hold a lock at once; the trampoline, [swtch] and
    [kernelvec] keep the registers; timer interrupts recur; from the zeroed
    memory [main] reaches the scheduler with the first process ready
    ([MainProps]).

    Disk: the driver moves the data of every request and loses no wakeup, with
    any number of processes and a device that behaves as the virtio
    specification says ([VirtioProps]); the buffer cache refines a store of
    blocks, with every buffer that is not in use released; a transaction of
    the log is atomic under a crash at any write; [balloc], [iget], [bmap] and
    [readi] do what the file system needs; the kernel reads from a new disk
    what [mkfs] put there ([MkfsBoot]).

    Streams and traps: pipes, the UART queue and the console's lines are first
    in, first out, and the console echoes exactly what it takes; [dup] shares
    a file; an alarm fires on time; [sigreturn] restores the interrupted
    registers except [a0]; [backtrace] prints the return addresses.

    User space: blocks of [malloc] are disjoint and free memory coalesces; the
    shell's parser decides its grammar, and the shell runs the commands of the
    lines it reads and exits at their end, whatever commands fail; [grep]
    matches its regular expressions and prints the matching lines; [wc]
    counts.

    Some theorems prove that the code does not do what it should: the second
    owner of a freed [alarm_tf] page, [a0] after [sigreturn], a byte lost by
    [piperead], [malloc] of 2 GB, [grep] on long lines and on NUL bytes, a
    full root directory in [mkfs].

    ** Bounds

    A loop whose end is not structural has a bound, and running out of it is a
    panic ("out of fuel"), a [None] or a value of its own, never a normal
    result; a theorem that a function returns so shows that the bound is
    enough. The bounds come from the code: the pages of a range, the bytes of
    a buffer, the entries of a table, the length of a line or path. A loop
    that waits is bounded by the wakeups the theorem allows ([Wakeups]).

    ** Not modelled

    Memory is sequentially consistent: the fences of [spinlock.c] and
    [virtio_disk.c] have no effect. The CSR accessors of [riscv.h] are single
    instructions; those that matter are in [Asm], [Start] and [Main]. Of
    [plic.c], [plic_claim] is an argument of [devintr] and [plic_complete] is
    left out. [panic] is an outcome; its printing and the frozen console after
    it are not modelled. The UART is ready when [uartputc_sync] waits for it.
    [sched] does not look at the interrupt enable bit, which is off while a
    lock is held; [noff] has no bound. [usertrapret] stores the page table and
    the hart of the trap it returns from: a process that was moved to another
    hart is not modelled there. In the runs of the shell [fork], [pipe],
    [wait] and [malloc] succeed. [ramdisk.c] is not built. The failures of the
    host's files in [mkfs] are not modelled, nor is the [main] of [grep]. Of
    the commands, [init], [kill], [zombie] and [call] are a few system calls
    each and are left out, like the test programs ([usertests], [grind],
    [stressfs], [forktest], [alarmtest], [bttest]), which are inputs to the
    system and promise nothing to it. Headers that only declare ([defs.h],
    [user.h]) have no content to model. *)

From Stdlib Require Export ZArith Lia.
From stdpp Require Export base gmap strings numbers fin_maps fin_sets functions list.

(** ** Fixed-width integers

    C integers are modelled by [Z]; the conversions the C abstract machine
    performs at each width are written out with these functions. *)

Definition u8 (z : Z) : Z := (z mod 2^8)%Z.
Definition u16 (z : Z) : Z := (z mod 2^16)%Z.
Definition u32 (z : Z) : Z := (z mod 2^32)%Z.
Definition u64 (z : Z) : Z := (z mod 2^64)%Z.

(** Conversion to [int]: two's complement on 32 bits. *)
Definition s32 (z : Z) : Z := ((z + 2^31) mod 2^32 - 2^31)%Z.

(** Conversion to [short]: two's complement on 16 bits. *)
Definition s16 (z : Z) : Z := ((z + 2^15) mod 2^16 - 2^15)%Z.

(** C truth values. *)
Definition truthy (z : Z) : bool := negb (z =? 0)%Z.

#[local] Open Scope Z_scope.

Create HintDb xv6.
Create Rewrite HintDb xv6.

(** ** Tactics *)

(** Turn the boolean comparisons the definitions use into propositions. *)
Ltac b2p_in H :=
  first
    [ apply Z.ltb_lt in H | apply Z.ltb_ge in H
    | apply Z.leb_le in H | apply Z.leb_gt in H
    | apply Z.eqb_eq in H | apply Z.eqb_neq in H
    | apply andb_true_iff in H; destruct H
    | apply andb_false_iff in H
    | apply orb_true_iff in H
    | apply orb_false_iff in H; destruct H
    | apply negb_true_iff in H
    | apply negb_false_iff in H ].

Ltac b2p :=
  repeat match goal with
    | H : _ = true |- _ => b2p_in H
    | H : _ = false |- _ => b2p_in H
    | H : true = _ |- _ => symmetry in H
    | H : false = _ |- _ => symmetry in H
    end.

(** Case analysis on the condition of an [if] of the goal. *)
Ltac case_if_goal :=
  match goal with
  | |- context [if ?b then _ else _] =>
      lazymatch type of b with
      | bool => let E := fresh "E" in destruct b eqn:E
      end
  end.

Ltac cases_if := repeat case_if_goal; b2p.

(** [lia] on goals with divisions and remainders by constants. *)
Ltac dlia := Z.to_euclidean_division_equations; lia.

(** ** Strings *)

(** The bytes of a string literal. *)
Fixpoint str (s : string) : list Z :=
  match s with
  | EmptyString => []
  | String c s' => Z.of_N (Ascii.N_of_ascii c) :: str s'
  end.

(** The string that starts a byte sequence: the bytes before the first NUL. *)
Fixpoint cstr_of (bs : list Z) : list Z :=
  match bs with
  | [] => []
  | b :: bs' => if b =? 0 then [] else b :: cstr_of bs'
  end.

Lemma length_cstr_of bs : (length (cstr_of bs) <= length bs)%nat.
Proof. induction bs as [|b bs IH]; simpl; [lia|]. destruct (b =? 0); simpl; lia. Qed.

(** ** Arithmetic shared by the components *)

Lemma u64_small z : 0 <= z < 2^64 -> u64 z = z.
Proof. apply Z.mod_small. Qed.

Lemma u32_small z : 0 <= z < 2^32 -> u32 z = z.
Proof. apply Z.mod_small. Qed.

Lemma u8_small z : 0 <= z < 2^8 -> u8 z = z.
Proof. apply Z.mod_small. Qed.

Lemma u64_bound z : 0 <= u64 z < 2^64.
Proof. apply Z.mod_pos_bound. lia. Qed.

Lemma u32_bound z : 0 <= u32 z < 2^32.
Proof. apply Z.mod_pos_bound. lia. Qed.

Lemma u8_bound z : 0 <= u8 z < 2^8.
Proof. apply Z.mod_pos_bound. lia. Qed.

Lemma s32_small z : - 2^31 <= z < 2^31 -> s32 z = z.
Proof. intros. unfold s32. rewrite Z.mod_small; lia. Qed.

Lemma s32_bound z : - 2^31 <= s32 z < 2^31.
Proof. unfold s32. pose proof (Z.mod_pos_bound (z + 2^31) (2^32)). lia. Qed.

Lemma truthy_true z : truthy z = true <-> z <> 0.
Proof. unfold truthy. rewrite negb_true_iff. apply Z.eqb_neq. Qed.

Lemma truthy_false z : truthy z = false <-> z = 0.
Proof. unfold truthy. rewrite negb_false_iff. apply Z.eqb_eq. Qed.

#[export] Hint Rewrite u64_small u32_small u8_small using lia : xv6.
#[export] Hint Resolve u64_bound u32_bound u8_bound s32_bound : xv6.
