(* ===== verification/Riscv.v ===== *)
(** * Machine constants and page-table arithmetic

    [param.h], [fcntl.h], [memlayout.h] and the macros of [riscv.h]: sizes, the physical
    and virtual memory layout, and the bit manipulation the Sv39 page tables
    are built from, with the arithmetic facts the rest of the development
    uses about them. *)

From S2P Require Import Prelude.
#[local] Open Scope Z_scope.

(** ** param.h *)

Definition NPROC : Z := 64.
Definition NOFILE : Z := 16.
Definition NFILE : Z := 100.
Definition MAXOPBLOCKS : Z := 10.
Definition LOGSIZE : Z := MAXOPBLOCKS * 3.
Definition NBUF : Z := MAXOPBLOCKS * 3.

(** ** fcntl.h *)

Definition O_RDONLY : Z := 0x000.
Definition O_WRONLY : Z := 0x001.
Definition O_RDWR : Z := 0x002.
Definition O_CREATE : Z := 0x200.
Definition O_TRUNC : Z := 0x400.

(** ** riscv.h: pages *)

Definition PGSIZE : Z := 4096.
Definition PGSHIFT : Z := 12.

(** [PGROUNDUP] and [PGROUNDDOWN] at [uint64]. *)
Definition PGROUNDUP (sz : Z) : Z := Z.land (u64 (sz + PGSIZE - 1)) (Z.lnot (PGSIZE - 1)).
Definition PGROUNDDOWN (a : Z) : Z := Z.land a (Z.lnot (PGSIZE - 1)).

(** ** riscv.h: page-table entries *)

Definition PTE_V : Z := Z.shiftl 1 0.
Definition PTE_R : Z := Z.shiftl 1 1.
Definition PTE_W : Z := Z.shiftl 1 2.
Definition PTE_X : Z := Z.shiftl 1 3.
Definition PTE_U : Z := Z.shiftl 1 4.

Definition PA2PTE (pa : Z) : Z := u64 (Z.shiftl (Z.shiftr pa 12) 10).
Definition PTE2PA (pte : Z) : Z := u64 (Z.shiftl (Z.shiftr pte 10) 12).
Definition PTE_FLAGS (pte : Z) : Z := Z.land pte 0x3FF.

Definition PXMASK : Z := 0x1FF.
Definition PXSHIFT (level : Z) : Z := PGSHIFT + 9 * level.
Definition PX (level va : Z) : Z := Z.land (Z.shiftr va (PXSHIFT level)) PXMASK.

Definition MAXVA : Z := Z.shiftl 1 (9 + 9 + 9 + 12 - 1).

Definition SATP_SV39 : Z := Z.shiftl 8 60.
Definition MAKE_SATP (pagetable : Z) : Z := Z.lor SATP_SV39 (Z.shiftr pagetable 12).

(** ** memlayout.h *)

Definition UART0 : Z := 0x10000000.
Definition VIRTIO0 : Z := 0x10001000.
Definition PLIC : Z := 0x0c000000.
Definition KERNBASE : Z := 0x80000000.
Definition PHYSTOP : Z := KERNBASE + 128 * 1024 * 1024.
Definition TRAMPOLINE : Z := MAXVA - PGSIZE.
Definition KSTACK (p : Z) : Z := TRAMPOLINE - (p + 1) * 2 * PGSIZE.
Definition TRAPFRAME : Z := TRAMPOLINE - PGSIZE.

(** The addresses the linker gives: the first address after the kernel, the
    end of its text, the trampoline page ([kernel.ld]), and the entry points
    the code stores in registers. *)
Class Layout := {
  kend : Z;
  etext : Z;
  trampoline : Z;
  a_uservec : Z;
  a_userret : Z;
  a_kernelvec : Z;
  a_usertrap : Z;
  a_forkret : Z
}.

(** What the linker script guarantees of them. *)
Class LayoutOk (L : Layout) : Prop := {
  kend_range : KERNBASE <= kend <= PHYSTOP;
  etext_range : KERNBASE < etext <= kend;
  etext_aligned : etext mod PGSIZE = 0;
  trampoline_range : KERNBASE <= trampoline < etext;
  trampoline_aligned : trampoline mod PGSIZE = 0
}.

(** The addresses of the built kernel ([kernel.sym]). *)
Definition xv6_layout : Layout :=
  {| kend := 0x80026240; etext := 0x80008000; trampoline := 0x80007000;
     a_uservec := 0x80007000; a_userret := 0x80007090; a_kernelvec := 0x80005050;
     a_usertrap := 0x80001c88; a_forkret := 0x80000e80 |}.

#[export] Instance xv6_layout_ok : LayoutOk xv6_layout.
Proof. split; vm_compute; repeat split; congruence. Qed.

(** A page the allocator may hand out: aligned, above the kernel image and
    below the end of RAM. *)
Definition page_ok `{Layout} (pa : Z) : Prop :=
  pa mod PGSIZE = 0 /\ kend <= pa /\ pa < PHYSTOP.

(** ** Arithmetic of the macros *)

Lemma land_lnot_pgmask a : Z.land a (Z.lnot (PGSIZE - 1)) = PGSIZE * (a / PGSIZE).
Proof.
  change (PGSIZE - 1) with (Z.ones 12).
  rewrite <- Z.ldiff_land, Z.ldiff_ones_r by lia.
  rewrite Z.shiftl_mul_pow2, Z.shiftr_div_pow2 by lia.
  unfold PGSIZE. change (2^12) with 4096. lia.
Qed.

Lemma PGROUNDDOWN_eq a : PGROUNDDOWN a = PGSIZE * (a / PGSIZE).
Proof. apply land_lnot_pgmask. Qed.

Lemma PGROUNDUP_eq a : 0 <= a < 2^64 - PGSIZE -> PGROUNDUP a = PGSIZE * ((a + PGSIZE - 1) / PGSIZE).
Proof.
  intros. unfold PGROUNDUP. rewrite land_lnot_pgmask, u64_small; [done|].
  unfold PGSIZE in *. lia.
Qed.

Lemma PGROUNDDOWN_aligned a : PGROUNDDOWN a mod PGSIZE = 0.
Proof. rewrite PGROUNDDOWN_eq, Z.mul_comm. apply Z_mod_mult. Qed.

Lemma PGROUNDUP_aligned a : PGROUNDUP a mod PGSIZE = 0.
Proof. unfold PGROUNDUP. rewrite land_lnot_pgmask, Z.mul_comm. apply Z_mod_mult. Qed.

Lemma PGROUNDDOWN_bounds a : 0 <= a -> PGROUNDDOWN a <= a < PGROUNDDOWN a + PGSIZE.
Proof. intros. rewrite PGROUNDDOWN_eq. unfold PGSIZE. dlia. Qed.

Lemma PGROUNDDOWN_id a : a mod PGSIZE = 0 -> PGROUNDDOWN a = a.
Proof. intros. rewrite PGROUNDDOWN_eq. unfold PGSIZE in *. dlia. Qed.

Lemma PGROUNDUP_id a : 0 <= a < 2^64 - PGSIZE -> a mod PGSIZE = 0 -> PGROUNDUP a = a.
Proof. intros. rewrite PGROUNDUP_eq by done. unfold PGSIZE in *. dlia. Qed.

Lemma testbit_above f n i : 0 <= f < 2^n -> 0 <= n <= i -> Z.testbit f i = false.
Proof.
  intros Hf Hn. destruct (decide (f = 0)) as [->|]; [apply Z.bits_0|].
  apply Z.bits_above_log2; [lia|]. apply Z.log2_lt_pow2; [lia|].
  eapply Z.lt_le_trans; [apply Hf|]. apply Z.pow_le_mono_r; lia.
Qed.

Lemma lor_low_add x f n : 0 <= n -> 0 <= f < 2^n -> Z.lor (x * 2^n) f = x * 2^n + f.
Proof.
  intros Hn Hf.
  assert (Z.land (x * 2^n) f = 0) as Hd.
  { apply Z.bits_inj'; intros i Hi. rewrite Z.land_spec, Z.bits_0.
    destruct (decide (i < n)).
    - rewrite Z.mul_pow2_bits_low by lia. done.
    - rewrite (testbit_above f n) by lia. apply andb_false_r. }
  rewrite <- Z.lxor_lor, <- Z.add_nocarry_lxor by done. done.
Qed.

Lemma lor_bound a b n : 0 <= n -> 0 <= a < 2^n -> 0 <= b < 2^n -> 0 <= Z.lor a b < 2^n.
Proof.
  intros Hn Ha Hb. assert (0 <= Z.lor a b) by (apply Z.lor_nonneg; lia).
  split; [done|]. destruct (decide (Z.lor a b < 2^n)); [done|exfalso].
  assert (0 < 2^n) by (apply Z.pow_pos_nonneg; lia).
  assert (n <= Z.log2 (Z.lor a b)) by (apply Z.log2_le_pow2; lia).
  assert (Z.testbit (Z.lor a b) (Z.log2 (Z.lor a b)) = true) as Hb' by (apply Z.bit_log2; lia).
  rewrite Z.lor_spec, !(testbit_above _ n) in Hb' by lia. done.
Qed.

Lemma PA2PTE_eq pa : 0 <= pa < 2^56 -> PA2PTE pa = (pa / PGSIZE) * 2^10.
Proof.
  intros. unfold PA2PTE. rewrite Z.shiftl_mul_pow2, Z.shiftr_div_pow2 by lia.
  change (2^12) with PGSIZE. rewrite u64_small; [done|]. unfold PGSIZE. dlia.
Qed.

(** A leaf or table entry as [mappages] and [walk] write it. *)
Definition mkpte (pa perm : Z) : Z := Z.lor (Z.lor (PA2PTE pa) perm) PTE_V.

Lemma perm_V_bound perm : 0 <= perm < 2^10 -> 0 <= Z.lor perm PTE_V < 2^10.
Proof. intros. apply lor_bound; [lia|done|]. split; vm_compute; congruence. Qed.

Lemma mkpte_eq pa perm :
  0 <= pa < 2^56 -> 0 <= perm < 2^10 ->
  mkpte pa perm = (pa / PGSIZE) * 2^10 + Z.lor perm PTE_V.
Proof.
  intros. unfold mkpte. rewrite PA2PTE_eq by done.
  rewrite <- Z.lor_assoc. apply lor_low_add; [lia|].
  by apply perm_V_bound.
Qed.

Lemma mkpte_bound pa perm :
  0 <= pa < 2^56 -> 0 <= perm < 2^10 -> 0 <= mkpte pa perm < 2^54.
Proof.
  intros. rewrite mkpte_eq by done.
  pose proof (perm_V_bound perm). unfold PGSIZE in *. dlia.
Qed.

Lemma PTE2PA_mkpte pa perm :
  pa mod PGSIZE = 0 -> 0 <= pa < 2^56 -> 0 <= perm < 2^10 -> PTE2PA (mkpte pa perm) = pa.
Proof.
  intros. unfold PTE2PA. rewrite mkpte_eq by done.
  rewrite Z.shiftl_mul_pow2, Z.shiftr_div_pow2 by lia.
  rewrite Z.div_add_l by lia. rewrite (Z.div_small (Z.lor _ _)).
  - rewrite u64_small; unfold PGSIZE in *; dlia.
  - by apply perm_V_bound.
Qed.

Lemma PTE_FLAGS_mkpte pa perm :
  0 <= pa < 2^56 -> 0 <= perm < 2^10 -> PTE_FLAGS (mkpte pa perm) = Z.lor perm PTE_V.
Proof.
  intros. unfold PTE_FLAGS. rewrite mkpte_eq by done. change 0x3FF with (Z.ones 10).
  rewrite Z.land_ones by lia. rewrite Z.add_comm, Z_mod_plus_full.
  by apply Z.mod_small, perm_V_bound.
Qed.

(** Testing one flag of an entry. *)
Definition pte_has (pte flag : Z) : bool := truthy (Z.land pte flag).

Lemma pte_has_bit pte n : 0 <= n -> pte_has pte (Z.shiftl 1 n) = Z.testbit pte n.
Proof.
  intros. unfold pte_has, truthy. rewrite Z.shiftl_1_l.
  destruct (Z.testbit pte n) eqn:E.
  - apply negb_true_iff, Z.eqb_neq. intros Hz.
    assert (Z.testbit (Z.land pte (2^n)) n = false) by (rewrite Hz; apply Z.bits_0).
    rewrite Z.land_spec, E, Z.pow2_bits_true in H0 by lia. done.
  - apply negb_false_iff, Z.eqb_eq, Z.bits_inj'. intros i Hi.
    rewrite Z.land_spec, Z.bits_0. destruct (decide (i = n)) as [->|]; [rewrite E; done|].
    rewrite Z.pow2_bits_false by lia. apply andb_false_r.
Qed.

Lemma pte_has_mkpte_V pa perm : pte_has (mkpte pa perm) PTE_V = true.
Proof.
  unfold PTE_V. rewrite pte_has_bit by lia. unfold mkpte.
  rewrite Z.lor_spec. apply orb_true_r.
Qed.

Lemma pte_has_mkpte_flag pa perm n :
  0 <= pa < 2^56 -> 0 <= perm < 2^10 -> 1 <= n < 10 ->
  pte_has (mkpte pa perm) (Z.shiftl 1 n) = Z.testbit perm n.
Proof.
  intros. rewrite pte_has_bit by lia. unfold mkpte. rewrite !Z.lor_spec, PA2PTE_eq by done.
  rewrite Z.mul_pow2_bits_low by lia. unfold PTE_V.
  rewrite Z.shiftl_1_l, Z.pow2_bits_false by lia. rewrite orb_false_r. done.
Qed.

Lemma pte_has_0 flag : pte_has 0 flag = false.
Proof. unfold pte_has. rewrite Z.land_0_l. done. Qed.

Lemma PX_eq level va : 0 <= level -> PX level va = (va / 2^(12 + 9 * level)) mod 512.
Proof.
  intros. unfold PX, PXMASK, PXSHIFT, PGSHIFT. change 0x1FF with (Z.ones 9).
  rewrite Z.land_ones, Z.shiftr_div_pow2 by lia. done.
Qed.

Lemma PX_bound level va : 0 <= level -> 0 <= PX level va < 512.
Proof. intros. rewrite PX_eq by done. apply Z.mod_pos_bound. lia. Qed.

Lemma PX0_eq va : PX 0 va = (va / 4096) mod 512.
Proof. apply (PX_eq 0). lia. Qed.
Lemma PX1_eq va : PX 1 va = (va / 2097152) mod 512.
Proof. apply (PX_eq 1). lia. Qed.
Lemma PX2_eq va : PX 2 va = (va / 1073741824) mod 512.
Proof. apply (PX_eq 2). lia. Qed.

Lemma PX2_bound va : 0 <= va < MAXVA -> 0 <= PX 2 va < 256.
Proof. intros Hva. change MAXVA with (2^38) in Hva. rewrite PX2_eq. dlia. Qed.

Lemma MAXVA_eq : MAXVA = 2^38.
Proof. reflexivity. Qed.

(** The three indices determine the virtual page. *)
Lemma PX_inj va va' :
  0 <= va < MAXVA -> 0 <= va' < MAXVA ->
  PX 2 va = PX 2 va' -> PX 1 va = PX 1 va' -> PX 0 va = PX 0 va' ->
  va / PGSIZE = va' / PGSIZE.
Proof.
  rewrite MAXVA_eq, !PX2_eq, !PX1_eq, !PX0_eq. unfold PGSIZE. dlia.
Qed.

Lemma PX_page level va va' :
  0 <= level -> va / PGSIZE = va' / PGSIZE -> PX level va = PX level va'.
Proof.
  intros Hl Hpg. rewrite !PX_eq by done.
  replace (2^(12 + 9 * level)) with (PGSIZE * 2^(9 * level)).
  - rewrite <- !Z.div_div by (unfold PGSIZE; lia). rewrite Hpg. done.
  - unfold PGSIZE. change 4096 with (2^12). rewrite <- Z.pow_add_r by lia. done.
Qed.

Lemma page_ok_pos `{LayoutOk} pa : page_ok pa -> KERNBASE <= pa < PHYSTOP.
Proof. intros (_ & ? & ?). destruct H. lia. Qed.

Lemma page_ok_range `{LayoutOk} pa : page_ok pa -> 0 < pa < 2^56 - PGSIZE.
Proof. intros Hp%page_ok_pos. unfold PHYSTOP, KERNBASE, PGSIZE in *. lia. Qed.

Lemma page_ok_aligned `{Layout} pa : page_ok pa -> pa mod PGSIZE = 0.
Proof. by intros (? & _). Qed.

#[export] Hint Resolve page_ok_aligned PX_bound pte_has_mkpte_V : xv6.
