(* ===== verification/Monad.v ===== *)
(** * The kernel's effects: state, panic and giving up the CPU

    A C function of the kernel that takes no arguments and returns an [A] is
    a value of [M S A] for the state type [S]: it runs from a state to an
    [outcome]. [Panic] is a call of [panic()], which never returns. [Yield] is
    the [swtch] of [sched()]: the thread stores its state and leaves the CPU,
    and continues from whatever state it is scheduled back in.

    [wp] is total correctness without giving up the CPU: the function returns,
    it does not panic and it does not sleep. [wpy] is total correctness of a
    function that may sleep, against an interference relation. *)

From S2P Require Import Prelude.
#[local] Open Scope Z_scope.

Inductive outcome (S A : Type) : Type :=
  | Ret (a : A) (s : S)
  | Panic (msg : string)
  | Yield (s : S) (resume : S -> outcome S A).
Arguments Ret {S A} _ _.
Arguments Panic {S A} _.
Arguments Yield {S A} _ _.

Definition M (S A : Type) : Type := S -> outcome S A.

Fixpoint obind {S A B : Type} (o : outcome S A) (f : A -> M S B) : outcome S B :=
  match o with
  | Ret a s => f a s
  | Panic msg => Panic msg
  | Yield s resume => Yield s (fun s' => obind (resume s') f)
  end.

#[export] Instance M_ret (S : Type) : MRet (M S) := fun A a s => Ret a s.
#[export] Instance M_bind (S : Type) : MBind (M S) := fun A B f m s => obind (m s) f.

Definition panic {S A : Type} (msg : string) : M S A := fun _ => Panic msg.
Definition gets {S A : Type} (f : S -> A) : M S A := fun s => Ret (f s) s.
Definition modify {S : Type} (f : S -> S) : M S unit := fun s => Ret () (f s).

(** The bound of a loop that is translated with an explicit iteration bound
    is exhausted: never a normal return, so a theorem that a loop returns
    also shows that its bound is enough. *)
Definition out_of_fuel {S A : Type} : M S A := panic "out of fuel".

(** [swtch] to the scheduler and back. *)
Definition swtch {S : Type} : M S unit := fun s => Yield s (fun s' => Ret () s').

(** [if(b) m] without an else branch. *)
Definition when {S : Type} (b : bool) (m : M S unit) : M S unit :=
  if b then m else mret ().

(** Run a thread, the environment acting on the state at each yield. *)
Fixpoint orun {S A : Type} (env : list (S -> S)) (o : outcome S A) : option (A * S) :=
  match o, env with
  | Ret a s, _ => Some (a, s)
  | Panic _, _ => None
  | Yield s resume, e :: env' => orun env' (resume (e s))
  | Yield _ _, [] => None
  end.

Definition wp {S A : Type} (m : M S A) (Q : A -> S -> Prop) (s : S) : Prop :=
  match m s with
  | Ret a s' => Q a s'
  | _ => False
  end.

Fixpoint owpy {S A : Type} (G : S -> Prop) (R : S -> S -> Prop) (o : outcome S A)
    (Q : A -> S -> Prop) : Prop :=
  match o with
  | Ret a s => Q a s
  | Panic _ => False
  | Yield s resume => G s /\ forall s', R s s' -> owpy G R (resume s') Q
  end.

Definition wpy {S A : Type} (G : S -> Prop) (R : S -> S -> Prop) (m : M S A)
    (Q : A -> S -> Prop) (s : S) : Prop := owpy G R (m s) Q.

(** ** Rules *)

Section rules.
Context {S : Type}.

Lemma bind_eq {A B} (m : M S A) (f : A -> M S B) s a s' :
  m s = Ret a s' -> (m ≫= f) s = f a s'.
Proof. unfold mbind, M_bind. by intros ->. Qed.

Lemma bind_panic {A B} (m : M S A) (f : A -> M S B) s msg :
  m s = Panic msg -> (m ≫= f) s = Panic msg.
Proof. unfold mbind, M_bind. by intros ->. Qed.

Lemma wp_ret {A} (a : A) (Q : A -> S -> Prop) s : Q a s -> wp (mret a) Q s.
Proof. done. Qed.

Lemma wp_gets {A} (f : S -> A) (Q : A -> S -> Prop) s : Q (f s) s -> wp (gets f) Q s.
Proof. done. Qed.

Lemma wp_modify f (Q : unit -> S -> Prop) s : Q () (f s) -> wp (modify f) Q s.
Proof. done. Qed.

Lemma wp_bind {A B} (m : M S A) (f : A -> M S B) Q s :
  wp m (fun a s' => wp (f a) Q s') s -> wp (m ≫= f) Q s.
Proof. unfold wp, mbind, M_bind. destruct (m s); done. Qed.

Lemma wp_bind_inv {A B} (m : M S A) (f : A -> M S B) Q s :
  wp (m ≫= f) Q s -> wp m (fun a s' => wp (f a) Q s') s.
Proof. unfold wp, mbind, M_bind. destruct (m s); done. Qed.

Lemma wp_mono {A} (m : M S A) (P Q : A -> S -> Prop) s :
  wp m P s -> (forall a s', P a s' -> Q a s') -> wp m Q s.
Proof. unfold wp. destruct (m s); naive_solver. Qed.

Lemma wp_eq {A} (m : M S A) (Q : A -> S -> Prop) s a s' :
  m s = Ret a s' -> Q a s' -> wp m Q s.
Proof. unfold wp. intros ->. done. Qed.

Lemma wp_elim {A} (m : M S A) (Q : A -> S -> Prop) s :
  wp m Q s -> exists a s', m s = Ret a s' /\ Q a s'.
Proof. unfold wp. destruct (m s); naive_solver. Qed.

Lemma wp_and {A} (m : M S A) (P Q : A -> S -> Prop) s :
  wp m P s -> wp m Q s -> wp m (fun a s' => P a s' /\ Q a s') s.
Proof. unfold wp. destruct (m s); naive_solver. Qed.

Lemma wp_when b m (Q : unit -> S -> Prop) s :
  (b = true -> wp m Q s) -> (b = false -> Q () s) -> wp (when b m) Q s.
Proof. destruct b; unfold when; auto using wp_ret. Qed.

Lemma wpy_bind {A B} G R (m : M S A) (f : A -> M S B) Q s :
  wpy G R m (fun a s' => wpy G R (f a) Q s') s -> wpy G R (m ≫= f) Q s.
Proof.
  unfold wpy, mbind, M_bind. induction (m s) as [a s1|msg|s1 c IH]; simpl; auto.
  intros [HG Hc]. split; [done|]. intros s' HR. apply IH. auto.
Qed.

Lemma wpy_wp {A} G R (m : M S A) Q s : wp m Q s -> wpy G R m Q s.
Proof. unfold wp, wpy. destruct (m s); done. Qed.

Lemma wpy_mono {A} G R (m : M S A) (P Q : A -> S -> Prop) s :
  wpy G R m P s -> (forall a s', P a s' -> Q a s') -> wpy G R m Q s.
Proof.
  unfold wpy. intros HP HPQ. induction (m s) as [a s1|msg|s1 c IH]; simpl in *; auto.
  destruct HP as [HG Hc]. split; [done|]. auto.
Qed.

Lemma wpy_swtch G R (Q : unit -> S -> Prop) s :
  G s -> (forall s', R s s' -> Q () s') -> wpy G R swtch Q s.
Proof. done. Qed.

End rules.

(** Run the first statement of a sequence: a pure one, or one with a lemma
    that gives its result. *)
Ltac kpure := erewrite bind_eq by reflexivity; cbv beta.

Tactic Notation "kcall" uconstr(lem) := erewrite bind_eq by (eapply lem; eauto); cbv beta.

(** One step of symbolic execution on a [wp] goal. *)
Ltac wp_pure :=
  lazymatch goal with
  | |- wp (_ ≫= _) _ _ => apply wp_bind
  | |- wp (mret _) _ _ => apply wp_ret
  | |- wp (gets _) _ _ => apply wp_gets
  | |- wp (modify _) _ _ => apply wp_modify
  end.

Ltac wp_steps := repeat (wp_pure; cbn beta).
