(* ===== verification/State.v ===== *)
(** * The kernel's state

    One field per global object of the kernel; the type of a field follows
    the C struct that declares it. The locks a thread holds are a list of
    lock names ([k_held]): [Spinlock] models [spinlock.c] itself and proves
    that a CPU's view of its own locks is exactly this list. *)

From S2P Require Import Prelude Riscv Monad.
#[local] Open Scope Z_scope.

(** ** Names of objects *)

(** The sleep-locks: one per buffer and one per in-memory inode. *)
Inductive sleepid :=
  | BufSL (b : Z)                    (* bcache.buf[b].lock *)
  | InodeSL (i : Z).                 (* itable.inode[i].lock *)

#[export] Instance sleepid_eq_dec : EqDecision sleepid.
Proof. solve_decision. Defined.

(** The kernel's spinlocks, by the object that contains them. *)
Inductive lockid :=
  | KmemLock                         (* kmem.lock, kalloc.c *)
  | PidLock                          (* pid_lock, proc.c *)
  | WaitLock                         (* wait_lock, proc.c *)
  | ProcLock (i : Z)                 (* proc[i].lock, proc.c *)
  | TicksLock                        (* tickslock, trap.c *)
  | BcacheLock                       (* bcache.lock, bio.c *)
  | LogLock                          (* log.lock, log.c *)
  | ItableLock                       (* itable.lock, fs.c *)
  | FtableLock                       (* ftable.lock, file.c *)
  | PipeLock (pi : Z)                (* the lock of the pipe at address pi, pipe.c *)
  | SleepLk (s : sleepid)            (* the spinlock inside a sleep-lock, sleeplock.c *)
  | ConsLock                         (* cons.lock, console.c *)
  | UartLock                         (* uart_tx_lock, uart.c *)
  | DiskLock                         (* disk.vdisk_lock, virtio_disk.c *)
  | PrLock.                          (* pr.lock, printf.c *)

#[export] Instance lockid_eq_dec : EqDecision lockid.
Proof. solve_decision. Defined.

(** The addresses processes sleep on; distinct objects have distinct
    addresses. *)
Inductive chan :=
  | NoChan                           (* the null pointer *)
  | ChanProc (i : Z)                 (* proc[i] *)
  | ChanTicks                        (* ticks, trap.c *)
  | ChanLog                          (* log, log.c *)
  | ChanSleepLock (s : sleepid)      (* a sleep-lock *)
  | ChanNread (pi : Z)               (* pi->nread, pipe.c *)
  | ChanNwrite (pi : Z)              (* pi->nwrite, pipe.c *)
  | ChanConsR                        (* cons.r, console.c *)
  | ChanUartTx                       (* uart_tx_r, uart.c *)
  | ChanBuf (b : Z)                  (* bcache.buf[b], virtio_disk.c *)
  | ChanDiskFree.                    (* disk.free[0], virtio_disk.c *)

#[export] Instance chan_eq_dec : EqDecision chan.
Proof. solve_decision. Defined.

(** ** Processes ([proc.h]) *)

Inductive procstate := UNUSED | USED | SLEEPING | RUNNABLE | RUNNING | ZOMBIE.

#[export] Instance procstate_eq_dec : EqDecision procstate.
Proof. solve_decision. Defined.

(** [struct context]: the return address and stack pointer [swtch] loads. *)
Record context := mkcontext { ctx_ra : Z; ctx_sp : Z }.

(** [struct proc]. A pointer to a process, file or inode is its index in the
    table, [None] the null pointer; a pointer to a page is its address. *)
Record proc := mkproc {
  p_state : procstate;
  p_chan : chan;
  p_killed : Z;
  p_xstate : Z;
  p_pid : Z;
  p_parent : option Z;
  p_kstack : Z;
  p_sz : Z;
  p_pagetable : Z;
  p_trapframe : Z;
  p_context : context;
  p_ofile : list (option Z);
  p_cwd : option Z;
  p_name : list Z;
  p_alarm_interval : Z;
  p_alarm_handler : Z;
  p_ticks_since_alarm : Z;
  p_alarm_tf : Z;
  p_in_alarm_handler : Z
}.

Definition proc0 : proc :=
  mkproc UNUSED NoChan 0 0 0 None 0 0 0 0 (mkcontext 0 0) (replicate 16 None) None (replicate 16 0) 0 0 0 0 0.

(** Assignments to the fields of a process. *)
Definition set_state (x : procstate) (p : proc) : proc :=
  mkproc x (p_chan p) (p_killed p) (p_xstate p) (p_pid p) (p_parent p) (p_kstack p) (p_sz p) (p_pagetable p)
    (p_trapframe p) (p_context p) (p_ofile p) (p_cwd p) (p_name p) (p_alarm_interval p) (p_alarm_handler p)
    (p_ticks_since_alarm p) (p_alarm_tf p) (p_in_alarm_handler p).
Definition set_chan (x : chan) (p : proc) : proc :=
  mkproc (p_state p) x (p_killed p) (p_xstate p) (p_pid p) (p_parent p) (p_kstack p) (p_sz p) (p_pagetable p)
    (p_trapframe p) (p_context p) (p_ofile p) (p_cwd p) (p_name p) (p_alarm_interval p) (p_alarm_handler p)
    (p_ticks_since_alarm p) (p_alarm_tf p) (p_in_alarm_handler p).
Definition set_killed (x : Z) (p : proc) : proc :=
  mkproc (p_state p) (p_chan p) x (p_xstate p) (p_pid p) (p_parent p) (p_kstack p) (p_sz p) (p_pagetable p)
    (p_trapframe p) (p_context p) (p_ofile p) (p_cwd p) (p_name p) (p_alarm_interval p) (p_alarm_handler p)
    (p_ticks_since_alarm p) (p_alarm_tf p) (p_in_alarm_handler p).
Definition set_xstate (x : Z) (p : proc) : proc :=
  mkproc (p_state p) (p_chan p) (p_killed p) x (p_pid p) (p_parent p) (p_kstack p) (p_sz p) (p_pagetable p)
    (p_trapframe p) (p_context p) (p_ofile p) (p_cwd p) (p_name p) (p_alarm_interval p) (p_alarm_handler p)
    (p_ticks_since_alarm p) (p_alarm_tf p) (p_in_alarm_handler p).
Definition set_pid (x : Z) (p : proc) : proc :=
  mkproc (p_state p) (p_chan p) (p_killed p) (p_xstate p) x (p_parent p) (p_kstack p) (p_sz p) (p_pagetable p)
    (p_trapframe p) (p_context p) (p_ofile p) (p_cwd p) (p_name p) (p_alarm_interval p) (p_alarm_handler p)
    (p_ticks_since_alarm p) (p_alarm_tf p) (p_in_alarm_handler p).
Definition set_parent (x : option Z) (p : proc) : proc :=
  mkproc (p_state p) (p_chan p) (p_killed p) (p_xstate p) (p_pid p) x (p_kstack p) (p_sz p) (p_pagetable p)
    (p_trapframe p) (p_context p) (p_ofile p) (p_cwd p) (p_name p) (p_alarm_interval p) (p_alarm_handler p)
    (p_ticks_since_alarm p) (p_alarm_tf p) (p_in_alarm_handler p).
Definition set_kstack (x : Z) (p : proc) : proc :=
  mkproc (p_state p) (p_chan p) (p_killed p) (p_xstate p) (p_pid p) (p_parent p) x (p_sz p) (p_pagetable p)
    (p_trapframe p) (p_context p) (p_ofile p) (p_cwd p) (p_name p) (p_alarm_interval p) (p_alarm_handler p)
    (p_ticks_since_alarm p) (p_alarm_tf p) (p_in_alarm_handler p).
Definition set_sz (x : Z) (p : proc) : proc :=
  mkproc (p_state p) (p_chan p) (p_killed p) (p_xstate p) (p_pid p) (p_parent p) (p_kstack p) x (p_pagetable
    p) (p_trapframe p) (p_context p) (p_ofile p) (p_cwd p) (p_name p) (p_alarm_interval p) (p_alarm_handler p)
    (p_ticks_since_alarm p) (p_alarm_tf p) (p_in_alarm_handler p).
Definition set_pagetable (x : Z) (p : proc) : proc :=
  mkproc (p_state p) (p_chan p) (p_killed p) (p_xstate p) (p_pid p) (p_parent p) (p_kstack p) (p_sz p) x
    (p_trapframe p) (p_context p) (p_ofile p) (p_cwd p) (p_name p) (p_alarm_interval p) (p_alarm_handler p)
    (p_ticks_since_alarm p) (p_alarm_tf p) (p_in_alarm_handler p).
Definition set_trapframe (x : Z) (p : proc) : proc :=
  mkproc (p_state p) (p_chan p) (p_killed p) (p_xstate p) (p_pid p) (p_parent p) (p_kstack p) (p_sz p)
    (p_pagetable p) x (p_context p) (p_ofile p) (p_cwd p) (p_name p) (p_alarm_interval p) (p_alarm_handler p)
    (p_ticks_since_alarm p) (p_alarm_tf p) (p_in_alarm_handler p).
Definition set_context (x : context) (p : proc) : proc :=
  mkproc (p_state p) (p_chan p) (p_killed p) (p_xstate p) (p_pid p) (p_parent p) (p_kstack p) (p_sz p)
    (p_pagetable p) (p_trapframe p) x (p_ofile p) (p_cwd p) (p_name p) (p_alarm_interval p) (p_alarm_handler p)
    (p_ticks_since_alarm p) (p_alarm_tf p) (p_in_alarm_handler p).
Definition set_ofile (x : list (option Z)) (p : proc) : proc :=
  mkproc (p_state p) (p_chan p) (p_killed p) (p_xstate p) (p_pid p) (p_parent p) (p_kstack p) (p_sz p)
    (p_pagetable p) (p_trapframe p) (p_context p) x (p_cwd p) (p_name p) (p_alarm_interval p) (p_alarm_handler
    p) (p_ticks_since_alarm p) (p_alarm_tf p) (p_in_alarm_handler p).
Definition set_cwd (x : option Z) (p : proc) : proc :=
  mkproc (p_state p) (p_chan p) (p_killed p) (p_xstate p) (p_pid p) (p_parent p) (p_kstack p) (p_sz p)
    (p_pagetable p) (p_trapframe p) (p_context p) (p_ofile p) x (p_name p) (p_alarm_interval p) (p_alarm_handler
    p) (p_ticks_since_alarm p) (p_alarm_tf p) (p_in_alarm_handler p).
Definition set_name (x : list Z) (p : proc) : proc :=
  mkproc (p_state p) (p_chan p) (p_killed p) (p_xstate p) (p_pid p) (p_parent p) (p_kstack p) (p_sz p)
    (p_pagetable p) (p_trapframe p) (p_context p) (p_ofile p) (p_cwd p) x (p_alarm_interval p) (p_alarm_handler
    p) (p_ticks_since_alarm p) (p_alarm_tf p) (p_in_alarm_handler p).
Definition set_alarm_interval (x : Z) (p : proc) : proc :=
  mkproc (p_state p) (p_chan p) (p_killed p) (p_xstate p) (p_pid p) (p_parent p) (p_kstack p) (p_sz p)
    (p_pagetable p) (p_trapframe p) (p_context p) (p_ofile p) (p_cwd p) (p_name p) x (p_alarm_handler p)
    (p_ticks_since_alarm p) (p_alarm_tf p) (p_in_alarm_handler p).
Definition set_alarm_handler (x : Z) (p : proc) : proc :=
  mkproc (p_state p) (p_chan p) (p_killed p) (p_xstate p) (p_pid p) (p_parent p) (p_kstack p) (p_sz p)
    (p_pagetable p) (p_trapframe p) (p_context p) (p_ofile p) (p_cwd p) (p_name p) (p_alarm_interval p) x
    (p_ticks_since_alarm p) (p_alarm_tf p) (p_in_alarm_handler p).
Definition set_ticks_since_alarm (x : Z) (p : proc) : proc :=
  mkproc (p_state p) (p_chan p) (p_killed p) (p_xstate p) (p_pid p) (p_parent p) (p_kstack p) (p_sz p)
    (p_pagetable p) (p_trapframe p) (p_context p) (p_ofile p) (p_cwd p) (p_name p) (p_alarm_interval p)
    (p_alarm_handler p) x (p_alarm_tf p) (p_in_alarm_handler p).
Definition set_alarm_tf (x : Z) (p : proc) : proc :=
  mkproc (p_state p) (p_chan p) (p_killed p) (p_xstate p) (p_pid p) (p_parent p) (p_kstack p) (p_sz p)
    (p_pagetable p) (p_trapframe p) (p_context p) (p_ofile p) (p_cwd p) (p_name p) (p_alarm_interval p)
    (p_alarm_handler p) (p_ticks_since_alarm p) x (p_in_alarm_handler p).
Definition set_in_alarm_handler (x : Z) (p : proc) : proc :=
  mkproc (p_state p) (p_chan p) (p_killed p) (p_xstate p) (p_pid p) (p_parent p) (p_kstack p) (p_sz p)
    (p_pagetable p) (p_trapframe p) (p_context p) (p_ofile p) (p_cwd p) (p_name p) (p_alarm_interval p)
    (p_alarm_handler p) (p_ticks_since_alarm p) (p_alarm_tf p) x.

(** The process table and the globals of [proc.c] and [trap.c]. [ps_cur] is
    [mycpu()->proc] of the hart the thread runs on. *)
Record procsys := mkprocsys {
  ps_proc : Z -> proc;
  ps_cur : option Z;
  ps_nextpid : Z;
  ps_initproc : option Z;
  ps_ticks : Z
}.

(** ** The file system ([buf.h], [log.c], [fs.h], [file.h], [pipe.c]) *)

Record sleeplock := mksleeplock { sl_locked : Z; sl_pid : Z }.

(** [struct buf]. [b_prev] and [b_next] are indices into the buffer table;
    index [NBUF] is [bcache.head]. *)
Record buf := mkbuf {
  b_valid : Z;
  b_disk : Z;
  b_dev : Z;
  b_blockno : Z;
  b_lock : sleeplock;
  b_refcnt : Z;
  b_prev : Z;
  b_next : Z;
  b_data : list Z
}.

(** [struct log] with its [struct logheader]. *)
Record log := mklog {
  log_start : Z;
  log_size : Z;
  log_outstanding : Z;
  log_committing : Z;
  log_dev : Z;
  lh_n : Z;
  lh_block : list Z
}.

Record superblock := mksuperblock {
  sb_magic : Z;
  sb_size : Z;
  sb_nblocks : Z;
  sb_ninodes : Z;
  sb_nlog : Z;
  sb_logstart : Z;
  sb_inodestart : Z;
  sb_bmapstart : Z
}.

(** [struct inode], the in-memory copy. *)
Record inode := mkinode {
  i_dev : Z;
  i_inum : Z;
  i_ref : Z;
  i_lock : sleeplock;
  i_valid : Z;
  i_type : Z;
  i_major : Z;
  i_minor : Z;
  i_nlink : Z;
  i_size : Z;
  i_addrs : list Z
}.

Inductive fdtype := FD_NONE | FD_PIPE | FD_INODE | FD_DEVICE.

#[export] Instance fdtype_eq_dec : EqDecision fdtype.
Proof. solve_decision. Defined.

(** [struct file]. *)
Record file := mkfile {
  f_type : fdtype;
  f_ref : Z;
  f_readable : Z;
  f_writable : Z;
  f_pipe : Z;
  f_ip : Z;
  f_off : Z;
  f_major : Z
}.

(** [struct pipe], in the page [kalloc] gave it. *)
Record pipe := mkpipe {
  pi_data : list Z;
  pi_nread : Z;
  pi_nwrite : Z;
  pi_readopen : Z;
  pi_writeopen : Z
}.

(** The disk's blocks and the writes made to it so far, oldest first; then
    the tables of [bio.c], [log.c], [fs.c], [file.c] and [pipe.c]. *)
Record fssys := mkfssys {
  fs_disk : Z -> list Z;
  fs_writes : list (Z * list Z);
  fs_buf : Z -> buf;
  fs_log : log;
  fs_sb : superblock;
  fs_inode : Z -> inode;
  fs_file : Z -> file;
  fs_pipe : Z -> pipe
}.

(** ** The disk driver ([virtio.h], [virtio_disk.c]) *)

(** What the address in a descriptor points to: [disk.ops[i]], the data of a
    buffer, or [disk.info[i].status]. *)
Inductive dma := DmaNull | DmaOp (i : Z) | DmaData (b : Z) | DmaStatus (i : Z).

Record virtq_desc := mkvirtq_desc { d_addr : dma; d_len : Z; d_flags : Z; d_next : Z }.

Record virtio_blk_req := mkvirtio_blk_req { br_type : Z; br_reserved : Z; br_sector : Z }.

(** [struct disk] with the two rings in it, the device's registers, and what
    the device remembers: how far it has read the available ring, and the
    chains it works on. *)
Record vdisk := mkvdisk {
  v_desc : Z -> virtq_desc;
  v_avail_idx : Z;                   (* avail->idx *)
  v_avail_ring : Z -> Z;             (* avail->ring *)
  v_used_head : Z;                   (* used->idx *)
  v_used_ring : Z -> Z;              (* used->ring[].id *)
  v_free : Z -> Z;
  v_used_idx : Z;
  v_info_b : Z -> option Z;          (* info[].b *)
  v_info_status : Z -> Z;            (* info[].status *)
  v_ops : Z -> virtio_blk_req;
  v_isr : Z;                         (* the register INTERRUPT_STATUS *)
  v_regs : list (Z * Z);             (* writes to other registers, oldest first *)
  v_seen : Z;
  v_busy : list Z
}.

(** ** The console ([uart.c], [console.c], [printf.c]) *)

(** The UART's registers as the driver sees them (bytes written to [THR],
    the number of bytes [THR] takes before [LSR_TX_IDLE] clears, bytes
    waiting in [RHR]), the transmit buffer, [cons], [pr.locking], and the
    disk driver. *)
Record iosys := mkiosys {
  u_thr : list Z;
  u_room : nat;
  u_rhr : list Z;
  u_tx_buf : list Z;
  u_tx_w : Z;
  u_tx_r : Z;
  cons_buf : list Z;
  cons_r : Z;
  cons_w : Z;
  cons_e : Z;
  pr_locking : Z;
  io_vd : vdisk
}.

(** ** The kernel *)

Set Primitive Projections.

Record kernel := mkkernel {
  k_mem : gmap Z Z;                  (* physical memory, one byte per address *)
  k_freelist : Z;                    (* kmem.freelist, kalloc.c; 0 is the null pointer *)
  k_held : list lockid;              (* the spinlocks the running thread holds *)
  k_ps : procsys;                    (* processes *)
  k_fs : fssys;                      (* the file system *)
  k_io : iosys                       (* the console *)
}.

Unset Primitive Projections.

Abbreviation K := (M kernel).

(** The state before [main()] runs: the image's variables are zero. *)
Definition sleeplock0 : sleeplock := mksleeplock 0 0.
Definition buf0 : buf := mkbuf 0 0 0 0 sleeplock0 0 0 0 (replicate 1024 0).
Definition log0 : log := mklog 0 0 0 0 0 0 (replicate 30 0).
Definition inode0 : inode := mkinode 0 0 0 sleeplock0 0 0 0 0 0 0 (replicate 13 0).
Definition file0 : file := mkfile FD_NONE 0 0 0 0 0 0 0.
Definition pipe0 : pipe := mkpipe (replicate 512 0) 0 0 0 0.
Definition procsys0 : procsys := mkprocsys (fun _ => proc0) None 1 None 0.
Definition fssys0 : fssys :=
  mkfssys (fun _ => replicate 1024 0) [] (fun _ => buf0) log0 (mksuperblock 0 0 0 0 0 0 0 0)
    (fun _ => inode0) (fun _ => file0) (fun _ => pipe0).
Definition virtq_desc0 : virtq_desc := mkvirtq_desc DmaNull 0 0 0.
Definition vdisk0 : vdisk :=
  mkvdisk (fun _ => virtq_desc0) 0 (fun _ => 0) 0 (fun _ => 0) (fun _ => 0) 0 (fun _ => None) (fun _ => 0)
    (fun _ => mkvirtio_blk_req 0 0 0) 0 [] 0 [].
Definition iosys0 : iosys := mkiosys [] 0 [] (replicate 32 0) 0 0 (replicate 128 0) 0 0 0 0 vdisk0.

Definition boot : kernel := mkkernel ∅ 0 [] procsys0 fssys0 iosys0.

Definition set_mem (m : gmap Z Z) (k : kernel) : kernel :=
  mkkernel m (k_freelist k) (k_held k) (k_ps k) (k_fs k) (k_io k).
Definition set_freelist (p : Z) (k : kernel) : kernel :=
  mkkernel (k_mem k) p (k_held k) (k_ps k) (k_fs k) (k_io k).
Definition set_held (l : list lockid) (k : kernel) : kernel :=
  mkkernel (k_mem k) (k_freelist k) l (k_ps k) (k_fs k) (k_io k).
Definition set_ps (p : procsys) (k : kernel) : kernel :=
  mkkernel (k_mem k) (k_freelist k) (k_held k) p (k_fs k) (k_io k).
Definition set_fs (f : fssys) (k : kernel) : kernel :=
  mkkernel (k_mem k) (k_freelist k) (k_held k) (k_ps k) f (k_io k).
Definition set_io (o : iosys) (k : kernel) : kernel :=
  mkkernel (k_mem k) (k_freelist k) (k_held k) (k_ps k) (k_fs k) o.

Definition modify_mem (f : gmap Z Z -> gmap Z Z) : K unit :=
  modify (fun k => set_mem (f (k_mem k)) k).

(** Two states that differ in memory and the free list only. *)
Definition mem_only (k k' : kernel) : Prop := exists m f, k' = set_freelist f (set_mem m k).

#[export] Instance mem_only_preorder : PreOrder mem_only.
Proof.
  split.
  - intros k. by exists (k_mem k), (k_freelist k).
  - intros k1 k2 k3 (m & f & ->) (m' & f' & ->). by exists m', f'.
Qed.

Lemma mem_only_set m f k : mem_only k (set_freelist f (set_mem m k)).
Proof. by exists m, f. Qed.

Lemma mem_only_set_mem m k : mem_only k (set_mem m k).
Proof. by exists m, (k_freelist k). Qed.

Lemma mem_only_held k k' : mem_only k k' -> k_held k' = k_held k.
Proof. by intros (m & f & ->). Qed.

(** Taking and dropping a spinlock, as the thread that runs sees it. *)
Definition acquire (l : lockid) : K unit := fun k =>
  if decide (l ∈ k_held k) then Panic "acquire" else Ret () (set_held (l :: k_held k) k).

Definition release (l : lockid) : K unit := fun k =>
  if decide (l ∈ k_held k) then Ret () (set_held (filter (fun x => x <> l) (k_held k)) k)
  else Panic "release".

#[global] Arguments acquire : simpl never.
#[global] Arguments release : simpl never.

(** ** Reading and combining updates *)

Create Rewrite HintDb kst.

Lemma k_mem_set_mem x k : k_mem (set_mem x k) = x.
Proof. done. Qed.
Lemma k_mem_set_freelist x k : k_mem (set_freelist x k) = k_mem k.
Proof. done. Qed.
Lemma k_mem_set_held x k : k_mem (set_held x k) = k_mem k.
Proof. done. Qed.
Lemma k_mem_set_ps x k : k_mem (set_ps x k) = k_mem k.
Proof. done. Qed.
Lemma k_mem_set_fs x k : k_mem (set_fs x k) = k_mem k.
Proof. done. Qed.
Lemma k_mem_set_io x k : k_mem (set_io x k) = k_mem k.
Proof. done. Qed.
Lemma k_freelist_set_mem x k : k_freelist (set_mem x k) = k_freelist k.
Proof. done. Qed.
Lemma k_freelist_set_freelist x k : k_freelist (set_freelist x k) = x.
Proof. done. Qed.
Lemma k_freelist_set_held x k : k_freelist (set_held x k) = k_freelist k.
Proof. done. Qed.
Lemma k_freelist_set_ps x k : k_freelist (set_ps x k) = k_freelist k.
Proof. done. Qed.
Lemma k_freelist_set_fs x k : k_freelist (set_fs x k) = k_freelist k.
Proof. done. Qed.
Lemma k_freelist_set_io x k : k_freelist (set_io x k) = k_freelist k.
Proof. done. Qed.
Lemma k_held_set_mem x k : k_held (set_mem x k) = k_held k.
Proof. done. Qed.
Lemma k_held_set_freelist x k : k_held (set_freelist x k) = k_held k.
Proof. done. Qed.
Lemma k_held_set_held x k : k_held (set_held x k) = x.
Proof. done. Qed.
Lemma k_held_set_ps x k : k_held (set_ps x k) = k_held k.
Proof. done. Qed.
Lemma k_held_set_fs x k : k_held (set_fs x k) = k_held k.
Proof. done. Qed.
Lemma k_held_set_io x k : k_held (set_io x k) = k_held k.
Proof. done. Qed.
Lemma k_ps_set_mem x k : k_ps (set_mem x k) = k_ps k.
Proof. done. Qed.
Lemma k_ps_set_freelist x k : k_ps (set_freelist x k) = k_ps k.
Proof. done. Qed.
Lemma k_ps_set_held x k : k_ps (set_held x k) = k_ps k.
Proof. done. Qed.
Lemma k_ps_set_ps x k : k_ps (set_ps x k) = x.
Proof. done. Qed.
Lemma k_ps_set_fs x k : k_ps (set_fs x k) = k_ps k.
Proof. done. Qed.
Lemma k_ps_set_io x k : k_ps (set_io x k) = k_ps k.
Proof. done. Qed.
Lemma k_fs_set_mem x k : k_fs (set_mem x k) = k_fs k.
Proof. done. Qed.
Lemma k_fs_set_freelist x k : k_fs (set_freelist x k) = k_fs k.
Proof. done. Qed.
Lemma k_fs_set_held x k : k_fs (set_held x k) = k_fs k.
Proof. done. Qed.
Lemma k_fs_set_ps x k : k_fs (set_ps x k) = k_fs k.
Proof. done. Qed.
Lemma k_fs_set_fs x k : k_fs (set_fs x k) = x.
Proof. done. Qed.
Lemma k_fs_set_io x k : k_fs (set_io x k) = k_fs k.
Proof. done. Qed.
Lemma k_io_set_mem x k : k_io (set_mem x k) = k_io k.
Proof. done. Qed.
Lemma k_io_set_freelist x k : k_io (set_freelist x k) = k_io k.
Proof. done. Qed.
Lemma k_io_set_held x k : k_io (set_held x k) = k_io k.
Proof. done. Qed.
Lemma k_io_set_ps x k : k_io (set_ps x k) = k_io k.
Proof. done. Qed.
Lemma k_io_set_fs x k : k_io (set_fs x k) = k_io k.
Proof. done. Qed.
Lemma k_io_set_io x k : k_io (set_io x k) = x.
Proof. done. Qed.
Lemma set_mem_mem x y k : set_mem x (set_mem y k) = set_mem x k.
Proof. done. Qed.
Lemma set_mem_freelist x y k : set_mem x (set_freelist y k) = set_freelist y (set_mem x k).
Proof. done. Qed.
Lemma set_mem_held x y k : set_mem x (set_held y k) = set_held y (set_mem x k).
Proof. done. Qed.
Lemma set_mem_ps x y k : set_mem x (set_ps y k) = set_ps y (set_mem x k).
Proof. done. Qed.
Lemma set_mem_fs x y k : set_mem x (set_fs y k) = set_fs y (set_mem x k).
Proof. done. Qed.
Lemma set_mem_io x y k : set_mem x (set_io y k) = set_io y (set_mem x k).
Proof. done. Qed.
Lemma set_freelist_freelist x y k : set_freelist x (set_freelist y k) = set_freelist x k.
Proof. done. Qed.
Lemma set_freelist_held x y k : set_freelist x (set_held y k) = set_held y (set_freelist x k).
Proof. done. Qed.
Lemma set_freelist_ps x y k : set_freelist x (set_ps y k) = set_ps y (set_freelist x k).
Proof. done. Qed.
Lemma set_freelist_fs x y k : set_freelist x (set_fs y k) = set_fs y (set_freelist x k).
Proof. done. Qed.
Lemma set_freelist_io x y k : set_freelist x (set_io y k) = set_io y (set_freelist x k).
Proof. done. Qed.
Lemma set_held_held x y k : set_held x (set_held y k) = set_held x k.
Proof. done. Qed.
Lemma set_held_ps x y k : set_held x (set_ps y k) = set_ps y (set_held x k).
Proof. done. Qed.
Lemma set_held_fs x y k : set_held x (set_fs y k) = set_fs y (set_held x k).
Proof. done. Qed.
Lemma set_held_io x y k : set_held x (set_io y k) = set_io y (set_held x k).
Proof. done. Qed.
Lemma set_ps_ps x y k : set_ps x (set_ps y k) = set_ps x k.
Proof. done. Qed.
Lemma set_ps_fs x y k : set_ps x (set_fs y k) = set_fs y (set_ps x k).
Proof. done. Qed.
Lemma set_ps_io x y k : set_ps x (set_io y k) = set_io y (set_ps x k).
Proof. done. Qed.
Lemma set_fs_fs x y k : set_fs x (set_fs y k) = set_fs x k.
Proof. done. Qed.
Lemma set_fs_io x y k : set_fs x (set_io y k) = set_io y (set_fs x k).
Proof. done. Qed.
Lemma set_io_io x y k : set_io x (set_io y k) = set_io x k.
Proof. done. Qed.
Lemma set_mem_id k : set_mem (k_mem k) k = k.
Proof. done. Qed.
Lemma set_freelist_id k : set_freelist (k_freelist k) k = k.
Proof. done. Qed.
Lemma set_held_id k : set_held (k_held k) k = k.
Proof. done. Qed.
Lemma set_ps_id k : set_ps (k_ps k) k = k.
Proof. done. Qed.
Lemma set_fs_id k : set_fs (k_fs k) k = k.
Proof. done. Qed.
Lemma set_io_id k : set_io (k_io k) k = k.
Proof. done. Qed.

#[export] Hint Rewrite k_mem_set_mem k_mem_set_freelist k_mem_set_held k_mem_set_ps k_mem_set_fs k_mem_set_io
  k_freelist_set_mem k_freelist_set_freelist k_freelist_set_held k_freelist_set_ps k_freelist_set_fs
  k_freelist_set_io k_held_set_mem k_held_set_freelist k_held_set_held k_held_set_ps k_held_set_fs
  k_held_set_io k_ps_set_mem k_ps_set_freelist k_ps_set_held k_ps_set_ps k_ps_set_fs k_ps_set_io
  k_fs_set_mem k_fs_set_freelist k_fs_set_held k_fs_set_ps k_fs_set_fs k_fs_set_io k_io_set_mem
  k_io_set_freelist k_io_set_held k_io_set_ps k_io_set_fs k_io_set_io set_mem_mem
  set_mem_freelist set_mem_held set_mem_ps set_mem_fs set_mem_io set_freelist_freelist
  set_freelist_held set_freelist_ps set_freelist_fs set_freelist_io set_held_held set_held_ps
  set_held_fs set_held_io set_ps_ps set_ps_fs set_ps_io set_fs_fs set_fs_io set_io_io set_mem_id
  set_freelist_id set_held_id set_ps_id set_fs_id set_io_id : kst.

Ltac ksimp := autorewrite with kst.
Tactic Notation "ksimp" "in" hyp(H) := autorewrite with kst in H.

(** ** Rules for the locks *)

Lemma filter_not_in (l : lockid) (ls : list lockid) : l ∉ ls -> filter (fun x => x <> l) ls = ls.
Proof.
  induction ls as [|x ls IH]; [done|]. intros Hl. rewrite filter_cons.
  rewrite decide_True by set_solver. f_equal. apply IH. set_solver.
Qed.

Lemma acquire_eq l k : l ∉ k_held k -> acquire l k = Ret () (set_held (l :: k_held k) k).
Proof. intros Hl. unfold acquire. by rewrite decide_False. Qed.

Lemma release_eq l ls k :
  k_held k = l :: ls -> l ∉ ls -> release l k = Ret () (set_held ls k).
Proof.
  intros Hk Hl. unfold release. rewrite Hk, decide_True by apply list_elem_of_here.
  rewrite filter_cons, decide_False by naive_solver. by rewrite filter_not_in.
Qed.

Lemma wp_acquire l (Q : unit -> kernel -> Prop) k :
  l ∉ k_held k -> Q () (set_held (l :: k_held k) k) -> wp (acquire l) Q k.
Proof. intros. by eapply wp_eq; [apply acquire_eq|]. Qed.

Lemma wp_release l ls (Q : unit -> kernel -> Prop) k :
  k_held k = l :: ls -> l ∉ ls -> Q () (set_held ls k) -> wp (release l) Q k.
Proof. intros. by eapply wp_eq; [apply release_eq|]. Qed.
