(* ===== verification/Kstring.v ===== *)
(** * Memory access and [string.c]

    Physical memory is a finite map from addresses to bytes; absent bytes
    read as zero. On RISC-V [char] is unsigned, so a byte is a value in
    [0, 256). The loops of [string.c] are translated one iteration per
    recursive call; the theorems give their effect on the whole memory. *)

From S2P Require Import Prelude Riscv Monad State.
#[local] Open Scope Z_scope.

Abbreviation mem := (gmap Z Z).

Definition load8 (m : mem) (a : Z) : Z := u8 (default 0 (m !! a)).
Definition store8 (m : mem) (a v : Z) : mem := <[a := u8 v]> m.

(** Little-endian access of [n] bytes. *)
Fixpoint load_le (m : mem) (a : Z) (n : nat) : Z :=
  match n with
  | O => 0
  | S n' => load8 m a + 256 * load_le m (a + 1) n'
  end.

Fixpoint store_le (m : mem) (a : Z) (n : nat) (v : Z) : mem :=
  match n with
  | O => m
  | S n' => store_le (store8 m a v) (a + 1) n' (v / 256)
  end.

Definition load64 (m : mem) (a : Z) : Z := load_le m a 8.
Definition store64 (m : mem) (a v : Z) : mem := store_le m a 8 v.
Definition load32 (m : mem) (a : Z) : Z := load_le m a 4.
Definition store32 (m : mem) (a v : Z) : mem := store_le m a 4 v.

(** The [n] bytes from [a] on, and writing a list of bytes. *)
Fixpoint load_bytes (m : mem) (a : Z) (n : nat) : list Z :=
  match n with
  | O => []
  | S n' => load8 m a :: load_bytes m (a + 1) n'
  end.

Fixpoint store_bytes (m : mem) (a : Z) (bs : list Z) : mem :=
  match bs with
  | [] => m
  | b :: bs' => store_bytes (store8 m a b) (a + 1) bs'
  end.

(** ** string.c *)

Fixpoint memset_loop (m : mem) (cdst c i : Z) (n : nat) : mem :=
  match n with
  | O => m
  | S n' => memset_loop (store8 m (cdst + i) c) cdst c (i + 1) n'
  end.

Definition memset (m : mem) (dst c n : Z) : mem := memset_loop m dst c 0 (Z.to_nat n).

Fixpoint memcmp_loop (m : mem) (s1 s2 : Z) (n : nat) : Z :=
  match n with
  | O => 0
  | S n' =>
      if load8 m s1 =? load8 m s2 then memcmp_loop m (s1 + 1) (s2 + 1) n'
      else load8 m s1 - load8 m s2
  end.

Definition memcmp (m : mem) (v1 v2 n : Z) : Z := memcmp_loop m v1 v2 (Z.to_nat n).

(** [while(n-- > 0) *d++ = *s++;] *)
Fixpoint copy_forward (m : mem) (d s : Z) (n : nat) : mem :=
  match n with
  | O => m
  | S n' => copy_forward (store8 m d (load8 m s)) (d + 1) (s + 1) n'
  end.

(** [while(n-- > 0) *--d = *--s;] *)
Fixpoint copy_backward (m : mem) (d s : Z) (n : nat) : mem :=
  match n with
  | O => m
  | S n' => copy_backward (store8 m (d - 1) (load8 m (s - 1))) (d - 1) (s - 1) n'
  end.

Definition memmove (m : mem) (dst src n : Z) : mem :=
  if n =? 0 then m
  else if (src <? dst) && (dst <? src + n) then
    copy_backward m (dst + n) (src + n) (Z.to_nat n)
  else copy_forward m dst src (Z.to_nat n).

Definition memcpy (m : mem) (dst src n : Z) : mem := memmove m dst src n.

Fixpoint strncmp_loop (m : mem) (p q : Z) (n : nat) : Z :=
  match n with
  | O => 0
  | S n' =>
      if truthy (load8 m p) && (load8 m p =? load8 m q) then
        strncmp_loop m (p + 1) (q + 1) n'
      else load8 m p - load8 m q
  end.

Definition strncmp (m : mem) (p q n : Z) : Z := strncmp_loop m p q (Z.to_nat n).

(** The first loop of [strncpy]: the memory, [s] and the remaining count. *)
Fixpoint strncpy_copy (m : mem) (s t : Z) (n : nat) : mem * Z * nat :=
  match n with
  | O => (m, s, O)
  | S n' =>
      let c := load8 m t in
      let m' := store8 m s c in
      if c =? 0 then (m', s + 1, n') else strncpy_copy m' (s + 1) (t + 1) n'
  end.

(** The second loop. *)
Fixpoint strncpy_pad (m : mem) (s : Z) (n : nat) : mem :=
  match n with
  | O => m
  | S n' => strncpy_pad (store8 m s 0) (s + 1) n'
  end.

Definition strncpy (m : mem) (s t n : Z) : mem :=
  let '(m', s', n') := strncpy_copy m s t (Z.to_nat n) in strncpy_pad m' s' n'.

Fixpoint safestrcpy_copy (m : mem) (s t : Z) (n : nat) : mem * Z :=
  match n with
  | O => (m, s)
  | S n' =>
      let c := load8 m t in
      let m' := store8 m s c in
      if c =? 0 then (m', s + 1) else safestrcpy_copy m' (s + 1) (t + 1) n'
  end.

Definition safestrcpy (m : mem) (s t n : Z) : mem :=
  if n <=? 0 then m
  else let '(m', s') := safestrcpy_copy m s t (Z.to_nat (n - 1)) in store8 m' s' 0.

(** [strlen] with an explicit bound on the iterations. *)
Fixpoint strlen_loop (m : mem) (s n : Z) (fuel : nat) : option Z :=
  match fuel with
  | O => None
  | S fuel' => if load8 m (s + n) =? 0 then Some n else strlen_loop m s (n + 1) fuel'
  end.

Definition strlen (m : mem) (s : Z) (fuel : nat) : option Z := strlen_loop m s 0 fuel.

#[global] Arguments load64 : simpl never.
#[global] Arguments store64 : simpl never.
#[global] Arguments load32 : simpl never.
#[global] Arguments store32 : simpl never.
#[global] Arguments memset : simpl never.
#[global] Arguments memmove : simpl never.

(** ** Bytes and words *)

Lemma load8_bound m a : 0 <= load8 m a < 256.
Proof. apply u8_bound. Qed.
#[export] Hint Resolve load8_bound : xv6.

Lemma u8_load8 m a : u8 (load8 m a) = load8 m a.
Proof. apply u8_small, load8_bound. Qed.

Lemma load8_store8 m a v b : load8 (store8 m a v) b = if decide (a = b) then u8 v else load8 m b.
Proof.
  unfold load8, store8. case_decide as Heq.
  - subst. rewrite lookup_insert_eq. simpl. apply u8_small, u8_bound.
  - by rewrite lookup_insert_ne.
Qed.

Lemma load8_store8_eq m a v : load8 (store8 m a v) a = u8 v.
Proof. by rewrite load8_store8, decide_True. Qed.

Lemma load8_store8_ne m a v b : a <> b -> load8 (store8 m a v) b = load8 m b.
Proof. intros. by rewrite load8_store8, decide_False. Qed.

Lemma load_le_ext m m' a n :
  (forall i, a <= i < a + Z.of_nat n -> load8 m i = load8 m' i) -> load_le m a n = load_le m' a n.
Proof.
  revert a. induction n as [|n IH]; intros a Hext; simpl; [done|].
  rewrite (Hext a), (IH (a + 1)); [done|intros; apply Hext; lia|lia].
Qed.

Lemma load_le_bound m a n : 0 <= load_le m a n < 256 ^ Z.of_nat n.
Proof.
  revert a. induction n as [|n IH]; intros a; [simpl; lia|].
  cbn [load_le]. rewrite Nat2Z.inj_succ, Z.pow_succ_r by lia.
  pose proof (load8_bound m a). specialize (IH (a + 1)). lia.
Qed.

Lemma load8_store_le m a n v b :
  load8 (store_le m a n v) b =
  if decide (a <= b < a + Z.of_nat n) then u8 (v / 256 ^ (b - a)) else load8 m b.
Proof.
  revert m a v. induction n as [|n IH]; intros m a v; cbn [store_le].
  { rewrite decide_False by lia. done. }
  rewrite IH. destruct (decide (a = b)) as [->|Hne].
  - rewrite decide_False, decide_True by lia. rewrite load8_store8_eq, Z.sub_diag, Z.div_1_r. done.
  - destruct (decide (a <= b < a + Z.of_nat (S n))).
    + rewrite decide_True by lia. rewrite Z.div_div by lia.
      replace (b - a) with (Z.succ (b - (a + 1))) by lia. rewrite Z.pow_succ_r by lia. done.
    + rewrite decide_False by lia. by rewrite load8_store8_ne.
Qed.

Lemma load_le_store_le_ne m a n v b n' :
  b + Z.of_nat n' <= a \/ a + Z.of_nat n <= b -> load_le (store_le m a n v) b n' = load_le m b n'.
Proof. intros. apply load_le_ext. intros. rewrite load8_store_le, decide_False; [done|lia]. Qed.

Lemma load_le_store_le_eq m a n v :
  0 <= v < 256 ^ Z.of_nat n -> load_le (store_le m a n v) a n = v.
Proof.
  revert m a v. induction n as [|n IH]; intros m a v Hv; [simpl in *; lia|].
  cbn [load_le store_le]. rewrite Nat2Z.inj_succ, Z.pow_succ_r in Hv by lia.
  rewrite IH by dlia.
  rewrite load8_store_le, decide_False, load8_store8_eq by lia. unfold u8. dlia.
Qed.

Lemma load64_bound m a : 0 <= load64 m a < 2^64.
Proof. apply (load_le_bound m a 8). Qed.

Lemma load64_store64_eq m a v : 0 <= v < 2^64 -> load64 (store64 m a v) a = v.
Proof. apply (load_le_store_le_eq m a 8). Qed.

Lemma load64_store64_ne m a v b : b + 8 <= a \/ a + 8 <= b -> load64 (store64 m a v) b = load64 m b.
Proof. apply (load_le_store_le_ne m a 8 v b 8). Qed.

Lemma load64_ext m m' a :
  (forall i, a <= i < a + 8 -> load8 m i = load8 m' i) -> load64 m a = load64 m' a.
Proof. apply (load_le_ext m m' a 8). Qed.

Lemma load8_store64_ne m a v b : ~ (a <= b < a + 8) -> load8 (store64 m a v) b = load8 m b.
Proof. intros. unfold store64. rewrite load8_store_le, decide_False; [done|]. simpl. lia. Qed.

Lemma length_load_bytes m a n : length (load_bytes m a n) = n.
Proof. revert a. induction n; intros; simpl; auto. Qed.

Lemma load_bytes_ext m m' a n :
  (forall i, a <= i < a + Z.of_nat n -> load8 m i = load8 m' i) ->
  load_bytes m a n = load_bytes m' a n.
Proof.
  revert a. induction n as [|n IH]; intros a Hext; simpl; [done|].
  rewrite (Hext a), (IH (a + 1)); [done|intros; apply Hext; lia|lia].
Qed.

Lemma lookup_load_bytes m a n i :
  (i < n)%nat -> load_bytes m a n !! i = Some (load8 m (a + Z.of_nat i)).
Proof.
  revert a i. induction n as [|n IH]; intros a i Hi; [lia|].
  destruct i as [|i]; simpl; [by rewrite Z.add_0_r|].
  rewrite IH by lia. do 2 f_equal. lia.
Qed.

Lemma load_bytes_app m a n1 n2 :
  load_bytes m a (n1 + n2) = load_bytes m a n1 ++ load_bytes m (a + Z.of_nat n1) n2.
Proof.
  revert a. induction n1 as [|n1 IH]; intros a; simpl; [by rewrite Z.add_0_r|].
  rewrite IH. do 3 f_equal. lia.
Qed.

Lemma load8_store_bytes m a bs b :
  load8 (store_bytes m a bs) b =
  if decide (a <= b < a + Z.of_nat (length bs))
  then u8 (default 0 (bs !! Z.to_nat (b - a))) else load8 m b.
Proof.
  revert m a. induction bs as [|x bs IH]; intros m a; cbn [store_bytes length].
  { rewrite decide_False by (simpl; lia). done. }
  rewrite IH. destruct (decide (a = b)) as [->|Hne].
  - rewrite decide_False, decide_True by lia. rewrite load8_store8_eq, Z.sub_diag. done.
  - destruct (decide (a <= b < a + Z.of_nat (S (length bs)))).
    + rewrite decide_True by lia. replace (Z.to_nat (b - a)) with (S (Z.to_nat (b - (a + 1)))) by lia.
      done.
    + rewrite decide_False by lia. by rewrite load8_store8_ne.
Qed.

(** ** The loops *)

Lemma load8_memset_loop m d c i n b :
  load8 (memset_loop m d c i n) b =
  if decide (d + i <= b < d + i + Z.of_nat n) then u8 c else load8 m b.
Proof.
  revert m i. induction n as [|n IH]; intros m i; cbn [memset_loop].
  { rewrite decide_False by lia. done. }
  rewrite IH, load8_store8. by repeat case_decide; try lia.
Qed.

Lemma load8_memset m d c n b :
  load8 (memset m d c n) b = if decide (d <= b < d + n) then u8 c else load8 m b.
Proof. unfold memset. rewrite load8_memset_loop. by repeat case_decide; try lia. Qed.

Lemma load8_copy_forward m d s n b :
  (d <= s \/ s + Z.of_nat n <= d) ->
  load8 (copy_forward m d s n) b =
  if decide (d <= b < d + Z.of_nat n) then load8 m (s + (b - d)) else load8 m b.
Proof.
  revert m d s. induction n as [|n IH]; intros m d s Hov; cbn [copy_forward].
  { rewrite decide_False by lia. done. }
  rewrite IH by lia. rewrite !load8_store8. repeat case_decide; try lia; subst.
  all: rewrite ?u8_load8; f_equal; lia.
Qed.

Lemma load8_copy_backward m d s n b :
  s <= d ->
  load8 (copy_backward m d s n) b =
  if decide (d - Z.of_nat n <= b < d) then load8 m (s - (d - b)) else load8 m b.
Proof.
  revert m d s. induction n as [|n IH]; intros m d s Hov; cbn [copy_backward].
  { rewrite decide_False by lia. done. }
  rewrite IH by lia. rewrite !load8_store8. repeat case_decide; try lia; subst.
  all: rewrite ?u8_load8; f_equal; lia.
Qed.

Lemma load8_memmove m d s n b :
  0 <= n ->
  load8 (memmove m d s n) b = if decide (d <= b < d + n) then load8 m (s + (b - d)) else load8 m b.
Proof.
  intros Hn. unfold memmove. cases_if.
  - subst. rewrite decide_False by lia. done.
  - rewrite load8_copy_backward by lia. repeat case_decide; try lia; f_equal; lia.
  - rewrite load8_copy_forward by lia. by repeat case_decide; try lia.
Qed.

(** ** C strings *)

Lemma strncmp_loop_zero m p q n :
  strncmp_loop m p q n = 0 <-> cstr_of (load_bytes m p n) = cstr_of (load_bytes m q n).
Proof.
  revert p q. induction n as [|n IH]; intros p q; simpl; [done|].
  destruct (Z.eqb_spec (load8 m p) (load8 m q)) as [Heq|Hne].
  - rewrite Heq. destruct (Z.eqb_spec (load8 m q) 0) as [H0|H0].
    + rewrite andb_true_r, (proj2 (truthy_false _)) by done. rewrite Z.sub_diag. done.
    + rewrite andb_true_r, (proj2 (truthy_true _)) by done. rewrite IH. split; [congruence|].
      by intros [=].
  - rewrite andb_false_r. split; [lia|].
    destruct (Z.eqb_spec (load8 m p) 0), (Z.eqb_spec (load8 m q) 0); intros Hc; try congruence.
Qed.

Lemma strncpy_copy_spec m s t n m' s' n' :
  strncpy_copy m s t n = (m', s', n') ->
  (s + Z.of_nat n <= t \/ t + Z.of_nat n <= s) ->
  let c := cstr_of (load_bytes m t n) in
  (forall b, load8 m' b =
     if decide (s <= b < s + Z.of_nat (length c)) then load8 m (t + (b - s))
     else if decide (s <= b < s') then 0 else load8 m b) /\
  s + Z.of_nat (length c) <= s' /\ s' + Z.of_nat n' = s + Z.of_nat n.
Proof.
  revert m s t. induction n as [|n IH]; intros m s t; cbn [strncpy_copy load_bytes].
  { intros [= <- <- <-] _. simpl. split; [|lia]. intros b. by repeat case_decide; try lia. }
  destruct (Z.eqb_spec (load8 m t) 0) as [H0|H0].
  - intros [= <- <- <-] Hdis. cbn [cstr_of]. rewrite H0. simpl. split; [|lia].
    intros b. rewrite load8_store8. by repeat case_decide; try lia.
  - intros Hrec Hdis. apply IH in Hrec; [|lia]. cbn [cstr_of].
    rewrite (proj2 (Z.eqb_neq _ _)) by done.
    assert (load_bytes (store8 m s (load8 m t)) (t + 1) n = load_bytes m (t + 1) n) as Hlb.
    { apply load_bytes_ext. intros. apply load8_store8_ne. lia. }
    rewrite Hlb in Hrec. destruct Hrec as (Hb & Hle & Hn). cbn [length].
    split; [|lia]. intros b. rewrite Hb, !load8_store8.
    pose proof (length_cstr_of (load_bytes m (t + 1) n)) as Hlen. rewrite length_load_bytes in Hlen.
    repeat case_decide; try lia; subst; rewrite ?u8_load8; try done; f_equal; lia.
Qed.

Lemma load8_strncpy_pad m s n b :
  load8 (strncpy_pad m s n) b = if decide (s <= b < s + Z.of_nat n) then 0 else load8 m b.
Proof.
  revert m s. induction n as [|n IH]; intros m s; cbn [strncpy_pad].
  { rewrite decide_False by lia. done. }
  rewrite IH, load8_store8. by repeat case_decide; try lia.
Qed.

Lemma load8_strncpy m s t n b :
  0 <= n -> (s + n <= t \/ t + n <= s) ->
  let c := cstr_of (load_bytes m t (Z.to_nat n)) in
  load8 (strncpy m s t n) b =
    if decide (s <= b < s + Z.of_nat (length c)) then load8 m (t + (b - s))
    else if decide (s <= b < s + n) then 0 else load8 m b.
Proof.
  intros Hn Hdis c. unfold strncpy.
  destruct (strncpy_copy m s t (Z.to_nat n)) as [[m' s'] n'] eqn:E.
  apply strncpy_copy_spec in E; [|lia]. destruct E as (Hb & Hle & Hsn).
  pose proof (length_cstr_of (load_bytes m t (Z.to_nat n))) as Hlen.
  rewrite length_load_bytes in Hlen. fold c in Hb, Hle, Hlen.
  rewrite load8_strncpy_pad, Hb. by repeat case_decide; try lia.
Qed.

Lemma safestrcpy_copy_spec m s t n m' s' :
  safestrcpy_copy m s t n = (m', s') ->
  (s + Z.of_nat n <= t \/ t + Z.of_nat n <= s) ->
  let c := cstr_of (load_bytes m t n) in
  (forall b, load8 m' b =
     if decide (s <= b < s + Z.of_nat (length c)) then load8 m (t + (b - s))
     else if decide (s <= b < s') then 0 else load8 m b) /\
  s + Z.of_nat (length c) <= s' <= s + Z.of_nat n.
Proof.
  revert m s t. induction n as [|n IH]; intros m s t; cbn [safestrcpy_copy load_bytes].
  { intros [= <- <-] _. simpl. split; [|lia]. intros b. by repeat case_decide; try lia. }
  destruct (Z.eqb_spec (load8 m t) 0) as [H0|H0].
  - intros [= <- <-] Hdis. cbn [cstr_of]. rewrite H0. simpl. split; [|lia].
    intros b. rewrite load8_store8. by repeat case_decide; try lia.
  - intros Hrec Hdis. apply IH in Hrec; [|lia]. cbn [cstr_of].
    rewrite (proj2 (Z.eqb_neq _ _)) by done.
    assert (load_bytes (store8 m s (load8 m t)) (t + 1) n = load_bytes m (t + 1) n) as Hlb.
    { apply load_bytes_ext. intros. apply load8_store8_ne. lia. }
    rewrite Hlb in Hrec. destruct Hrec as (Hb & Hle). cbn [length].
    split; [|lia]. intros b. rewrite Hb, !load8_store8.
    repeat case_decide; try lia; subst; rewrite ?u8_load8; try done; f_equal; lia.
Qed.

Lemma load_bytes_cstr m t n :
  load_bytes m t (length (cstr_of (load_bytes m t n))) = cstr_of (load_bytes m t n).
Proof.
  revert t. induction n as [|n IH]; intros t; simpl; [done|].
  destruct (load8 m t =? 0); simpl; [done|]. by rewrite IH.
Qed.

Lemma strlen_loop_spec m s n fuel :
  (length (cstr_of (load_bytes m (s + n) fuel)) < fuel)%nat ->
  strlen_loop m s n fuel = Some (n + Z.of_nat (length (cstr_of (load_bytes m (s + n) fuel)))).
Proof.
  revert n. induction fuel as [|fuel IH]; intros n; simpl; [lia|].
  destruct (load8 m (s + n) =? 0) eqn:E; simpl; [intros; f_equal; lia|].
  intros Hlt. replace (s + n + 1) with (s + (n + 1)) in * by lia.
  rewrite IH by lia. f_equal. lia.
Qed.

(** ** Properties of string.c *)

(** [memmove] copies the [n] source bytes as they were before the call to the destination, whether or
    not the two ranges overlap, and changes no other byte. *)
Theorem memmove_copies m dst src n :
  0 <= n ->
  load_bytes (memmove m dst src n) dst (Z.to_nat n) = load_bytes m src (Z.to_nat n) /\
  forall a, ~ (dst <= a < dst + n) -> load8 (memmove m dst src n) a = load8 m a.
Proof.
  intros Hn. split.
  - apply list_eq. intros i. destruct (decide (i < Z.to_nat n)%nat).
    + rewrite !lookup_load_bytes by done. f_equal.
      rewrite load8_memmove, decide_True by lia. f_equal. lia.
    + rewrite !lookup_ge_None_2; [done|rewrite length_load_bytes; lia..].
  - intros a Ha. by rewrite load8_memmove, decide_False by lia.
Qed.

Lemma memmove_copies_witness :
  0 <= 3 /\ load_bytes (memmove (store_bytes ∅ 100 [1; 2; 3; 4]) 101 100 3) 101 3 = [1; 2; 3].
Proof.
  split; [lia|]. destruct (memmove_copies (store_bytes ∅ 100 [1; 2; 3; 4]) 101 100 3) as [H _]; [lia|].
  etransitivity; [exact H|vm_compute; reflexivity].
Defined.

(** [safestrcpy] with a positive size leaves the C string of the source, cut to [n - 1] bytes, at the
    destination, always NUL-terminated, and writes nothing outside the [n] destination bytes. *)
Theorem safestrcpy_terminates_string m s t n :
  0 < n -> (s + n <= t \/ t + n <= s) ->
  let c := cstr_of (load_bytes m t (Z.to_nat (n - 1))) in
  let m' := safestrcpy m s t n in
  load_bytes m' s (length c) = c /\
  load8 m' (s + Z.of_nat (length c)) = 0 /\
  Z.of_nat (length c) < n /\
  forall a, ~ (s <= a < s + n) -> load8 m' a = load8 m a.
Proof.
  intros Hn Hdis c m'. unfold m', safestrcpy. rewrite (proj2 (Z.leb_gt _ _)) by lia.
  destruct (safestrcpy_copy m s t (Z.to_nat (n - 1))) as [m1 s1] eqn:E.
  apply safestrcpy_copy_spec in E; [|lia]. fold c in E. destruct E as (Hb & Hs1).
  split_and!.
  - unfold c at 2. rewrite <- load_bytes_cstr. fold c. apply list_eq. intros i.
    destruct (decide (i < length c)%nat).
    + rewrite !lookup_load_bytes by done. f_equal.
      rewrite load8_store8_ne, Hb, decide_True by lia. f_equal. lia.
    + rewrite !lookup_ge_None_2; [done|rewrite length_load_bytes; lia..].
  - rewrite load8_store8, Hb. by repeat case_decide; try lia.
  - lia.
  - intros a Ha. rewrite load8_store8_ne, Hb by lia. by repeat case_decide; try lia.
Qed.

Lemma safestrcpy_terminates_string_witness :
  0 < 4 /\ load_bytes (safestrcpy (store_bytes ∅ 200 [105; 110; 105; 116]) 100 200 4) 100 3 = [105; 110; 105].
Proof.
  split; [lia|].
  destruct (safestrcpy_terminates_string (store_bytes ∅ 200 [105; 110; 105; 116]) 100 200 4) as [H _];
    [lia|lia|].
  vm_compute in H. vm_compute. exact H.
Defined.

(** [strncmp] returns zero exactly when the two C strings agree on their first [n] bytes, which is
    how [namecmp] decides that a directory entry matches. *)
Theorem strncmp_zero_iff m p q n :
  strncmp m p q n = 0 <->
  cstr_of (load_bytes m p (Z.to_nat n)) = cstr_of (load_bytes m q (Z.to_nat n)).
Proof. apply strncmp_loop_zero. Qed.
