(* ===== verification/Dlist.v ===== *)
(** * Circular doubly linked lists

    [dseg nx pv x l y]: following [nx] from [x] gives the nodes [l] and then
    [y], and [pv] leads back. The buffer cache's LRU list is
    [dseg b_next b_prev HEAD l HEAD]. *)

From S2P Require Import Prelude.
#[local] Open Scope Z_scope.

Fixpoint dseg (nx pv : Z -> Z) (x : Z) (l : list Z) (y : Z) : Prop :=
  match l with
  | [] => nx x = y /\ pv y = x
  | z :: l' => nx x = z /\ pv z = x /\ dseg nx pv z l' y
  end.

Lemma dseg_ext nx pv nx' pv' x l y :
  (forall i, i ∈ x :: l -> nx' i = nx i) -> (forall i, i ∈ l ++ [y] -> pv' i = pv i) ->
  dseg nx pv x l y -> dseg nx' pv' x l y.
Proof.
  revert x. induction l as [|z l IH]; intros x Hn Hp; simpl.
  - intros [H1 H2]. rewrite Hn, Hp; [done|set_solver|set_solver].
  - intros (H1 & H2 & Hs). rewrite Hn, Hp by set_solver. split_and!; [done|done|].
    apply IH; [|intros i Hi; apply Hp; set_solver|done]. intros i Hi. apply Hn. set_solver.
Qed.

Lemma dseg_app nx pv x l1 z l2 y :
  dseg nx pv x (l1 ++ z :: l2) y <-> dseg nx pv x l1 z /\ dseg nx pv z l2 y.
Proof.
  revert x. induction l1 as [|w l1 IH]; intros x; simpl; [tauto|]. rewrite IH. tauto.
Qed.

(** The neighbours of a node. *)
Lemma dseg_last nx pv x l y : dseg nx pv x l y -> pv y = default x (last l) /\ nx (default x (last l)) = y.
Proof.
  revert x. induction l as [|z l IH]; intros x; [simpl; tauto|]. intros (_ & _ & Hs).
  destruct (IH z Hs) as [H1 H2]. rewrite last_cons. by destruct (last l).
Qed.

Lemma dseg_head nx pv x l y : dseg nx pv x l y -> nx x = default y (head l) /\ pv (default y (head l)) = x.
Proof. destruct l; simpl; tauto. Qed.

Lemma default_last_in (x : Z) l : default x (last l) ∈ x :: l.
Proof.
  destruct (last l) as [z|] eqn:E; simpl; [|apply list_elem_of_here].
  apply last_Some in E as [l' ->]. set_solver.
Qed.

Lemma default_head_in (y : Z) l : default y (head l) ∈ l ++ [y].
Proof. destruct l; simpl; set_solver. Qed.

(** Joining two segments whose ends have been linked. *)
Lemma dseg_join nx pv x l1 b l2 y p n :
  dseg nx pv x l1 b -> dseg nx pv b l2 y -> NoDup (x :: l1 ++ b :: l2) -> NoDup (l1 ++ b :: l2 ++ [y]) ->
  p = default x (last l1) -> n = default y (head l2) ->
  dseg (<[p := n]> nx) (<[n := p]> pv) x (l1 ++ l2) y.
Proof.
  intros H1 H2 Hn1 Hn2 Hp Hn. destruct l1 as [|z l1 _] using rev_ind.
  - simpl in Hp. subst p. destruct l2 as [|w l2]; simpl in *; subst n.
    + by rewrite !fn_lookup_insert.
    + rewrite !fn_lookup_insert. split_and!; [done|done|]. destruct H2 as (_ & _ & H2).
      eapply dseg_ext; [| |exact H2].
      * intros i Hi. apply fn_lookup_insert_ne. intros ->. rewrite !NoDup_cons in Hn1. set_solver.
      * intros i Hi. apply fn_lookup_insert_ne. intros ->. rewrite !NoDup_cons in Hn2. set_solver.
  - rewrite last_snoc in Hp. simpl in Hp. subst p. rewrite <- app_assoc in *. simpl in *.
    apply dseg_app in H1 as [H1 _]. apply dseg_app. split.
    + eapply dseg_ext; [| |exact H1].
      * intros i Hi. apply fn_lookup_insert_ne. intros ->.
        rewrite app_comm_cons in Hn1. apply NoDup_app in Hn1 as (_ & Hd & _). apply (Hd i Hi). set_solver.
      * intros i Hi. apply fn_lookup_insert_ne. intros <-. subst n.
        pose proof (default_head_in y l2) as Hin.
        replace (l1 ++ z :: b :: l2 ++ [y]) with ((l1 ++ [z]) ++ b :: (l2 ++ [y])) in Hn2 by (by rewrite <- app_assoc).
        apply NoDup_app in Hn2 as (_ & Hd & _). apply (Hd _ Hi). by apply list_elem_of_further.
    + destruct l2 as [|w l2]; simpl in *; subst n.
      * by rewrite !fn_lookup_insert.
      * rewrite !fn_lookup_insert. split_and!; [done|done|]. destruct H2 as (_ & _ & H2).
        eapply dseg_ext; [| |exact H2].
        -- intros i Hi. apply fn_lookup_insert_ne. intros ->.
           rewrite app_comm_cons in Hn1. apply NoDup_app in Hn1 as (_ & _ & Hn1). rewrite NoDup_cons in Hn1. set_solver.
        -- intros i Hi. apply fn_lookup_insert_ne. intros ->.
           apply NoDup_app in Hn2 as (_ & _ & Hn2). rewrite !NoDup_cons in Hn2. set_solver.
Qed.

(** Inserting [b] after [x]. *)
Lemma dseg_insert nx pv x l y b n :
  dseg nx pv x l y -> b ∉ x :: l -> b <> y -> NoDup (x :: l) -> NoDup (l ++ [y]) ->
  n = default y (head l) ->
  dseg (<[x := b]> (<[b := n]> nx)) (<[n := b]> (<[b := x]> pv)) x (b :: l) y.
Proof.
  intros Hs Hb Hby Hn1 Hn2 Hn. pose proof (default_head_in y l) as Hin. rewrite <- Hn in Hin.
  assert (b <> n) by (intros ->; set_solver). assert (b <> x) by set_solver.
  simpl. rewrite fn_lookup_insert, (fn_lookup_insert_ne _ n b) by done. rewrite fn_lookup_insert.
  split_and!; [done|done|]. destruct l as [|z l]; simpl in *; subst n.
  - rewrite (fn_lookup_insert_ne _ x b), !fn_lookup_insert by done. done.
  - rewrite (fn_lookup_insert_ne _ x b), !fn_lookup_insert by done. split_and!; [done|done|].
    destruct Hs as (_ & _ & Hs). eapply dseg_ext; [| |exact Hs].
    + intros i Hi. rewrite !fn_lookup_insert_ne; [done| |]; intros ->; rewrite ?NoDup_cons in *; set_solver.
    + intros i Hi. rewrite !fn_lookup_insert_ne; [done| |]; intros ->; rewrite ?NoDup_cons in *; set_solver.
Qed.
