(* ===== verification/Bytes.v ===== *)
(** * Structures in a block: little-endian fields of a list of bytes

    The file system casts [bp->data] to its on-disk structures; a field of
    [n] bytes at offset [off] is read by [rd] and assigned by [wr]. *)

From S2P Require Import Prelude.
#[local] Open Scope Z_scope.

Definition slice (off n : Z) (d : list Z) : list Z := take (Z.to_nat n) (drop (Z.to_nat off) d).
Definition splice (off : Z) (bs d : list Z) : list Z :=
  take (Z.to_nat off) d ++ bs ++ drop (Z.to_nat off + length bs) d.

Definition rd (n off : Z) (d : list Z) : Z := little_endian_to_Z 8 (slice off n d).
Definition wr (n off v : Z) (d : list Z) : list Z := splice off (Z_to_little_endian n 8 v) d.

Definition rd32s (off : Z) (d : list Z) : Z := s32 (rd 4 off d).
Definition rd16s (off : Z) (d : list Z) : Z := s16 (rd 2 off d).

Lemma length_le n v : 0 <= n -> length (Z_to_little_endian n 8 v) = Z.to_nat n.
Proof. intros H. apply Nat2Z.inj. rewrite length_Z_to_little_endian; lia. Qed.

Lemma length_splice off bs d :
  0 <= off -> off + Z.of_nat (length bs) <= Z.of_nat (length d) -> length (splice off bs d) = length d.
Proof. intros H1 H2. unfold splice. rewrite !length_app, length_take, length_drop. lia. Qed.

Lemma length_slice off n d :
  0 <= off -> 0 <= n -> off + n <= Z.of_nat (length d) -> length (slice off n d) = Z.to_nat n.
Proof. intros. unfold slice. rewrite length_take, length_drop. lia. Qed.

Lemma length_wr n off v d :
  0 <= off -> 0 <= n -> off + n <= Z.of_nat (length d) -> length (wr n off v d) = length d.
Proof. intros. unfold wr. apply length_splice; [done|]. rewrite length_le; lia. Qed.

Lemma slice_splice_eq off bs d :
  0 <= off -> off + Z.of_nat (length bs) <= Z.of_nat (length d) ->
  slice off (Z.of_nat (length bs)) (splice off bs d) = bs.
Proof.
  intros H1 H2. unfold slice, splice. rewrite drop_app_length' by (rewrite length_take; lia).
  rewrite Nat2Z.id. by rewrite take_app_length.
Qed.

Lemma lookup_splice_ne off bs d i :
  (i < Z.to_nat off)%nat \/ (Z.to_nat off + length bs <= i)%nat -> (Z.to_nat off + length bs <= length d)%nat ->
  splice off bs d !! i = d !! i.
Proof.
  intros Hi Hl. unfold splice. destruct Hi as [Hi|Hi].
  - rewrite lookup_app_l by (rewrite length_take; lia). rewrite lookup_take. by rewrite decide_True.
  - rewrite lookup_app_r by (rewrite length_take; lia). rewrite lookup_app_r by (rewrite length_take; lia).
    rewrite lookup_drop, length_take. f_equal. lia.
Qed.

Lemma lookup_slice off n d i :
  (i < Z.to_nat n)%nat -> slice off n d !! i = d !! (Z.to_nat off + i)%nat.
Proof. intros H. unfold slice. rewrite lookup_take. rewrite decide_True by done. by rewrite lookup_drop. Qed.

(** Reading a field that another assignment does not touch. *)
Lemma slice_splice_ne off n off' bs d :
  0 <= off -> 0 <= n -> 0 <= off' -> off + n <= off' \/ off' + Z.of_nat (length bs) <= off ->
  off' + Z.of_nat (length bs) <= Z.of_nat (length d) -> off + n <= Z.of_nat (length d) ->
  slice off n (splice off' bs d) = slice off n d.
Proof.
  intros H1 H2 H3 Hor H4 H5. apply list_eq. intros i. destruct (decide (i < Z.to_nat n)%nat) as [Hi|Hi].
  - rewrite !lookup_slice by done. apply lookup_splice_ne; lia.
  - rewrite !lookup_ge_None_2; [done|rewrite length_slice; lia|rewrite length_slice; try done; [lia|]].
    rewrite length_splice; lia.
Qed.

Lemma rd_wr_eq n off v d :
  0 <= off -> 0 <= n -> off + n <= Z.of_nat (length d) -> 0 <= v < 2^(8 * n) -> rd n off (wr n off v d) = v.
Proof.
  intros H1 H2 H3 Hv. unfold rd, wr.
  replace n with (Z.of_nat (length (Z_to_little_endian n 8 v))) at 1 by (rewrite length_le; lia).
  rewrite slice_splice_eq by (rewrite ?length_le; lia).
  rewrite little_endian_to_Z_to_little_endian by lia. rewrite Z.mul_comm. by apply Z.mod_small.
Qed.

Lemma rd_wr_ne n off n' off' v d :
  0 <= off -> 0 <= n -> 0 <= off' -> 0 <= n' -> off + n <= off' \/ off' + n' <= off ->
  off' + n' <= Z.of_nat (length d) -> off + n <= Z.of_nat (length d) -> rd n off (wr n' off' v d) = rd n off d.
Proof. intros. unfold rd, wr. f_equal. apply slice_splice_ne; rewrite ?length_le; lia. Qed.
