(* ===== verification/Printf.v ===== *)
(** * Formatted console output ([printf.c]) and the polled UART output
    ([uartputc_sync] of [uart.c], [consputc] of [console.c])

    A format string is the list of its bytes before the NUL; the variable
    arguments are a list of tagged values. *)

From S2P Require Import Prelude Riscv Monad State Kstring.
#[local] Open Scope Z_scope.

(** ** Output *)

Definition io_thr_push (c : Z) (o : iosys) : iosys :=
  mkiosys (u_thr o ++ [c]) (u_room o) (u_rhr o) (u_tx_buf o) (u_tx_w o) (u_tx_r o)
    (cons_buf o) (cons_r o) (cons_w o) (cons_e o) (pr_locking o) (io_vd o).

(** The spin on [LSR_TX_IDLE] ends when the device has taken the previous
    byte; then one byte goes to [THR]. *)
Definition uartputc_sync (c : Z) : K unit :=
  modify (fun k => set_io (io_thr_push (u8 c) (k_io k)) k).

Definition BACKSPACE : Z := 0x100.

Definition consputc (c : Z) : K unit :=
  if c =? BACKSPACE then uartputc_sync 8;; uartputc_sync 32;; uartputc_sync 8
  else uartputc_sync c.

(** ** printint, printptr *)

Definition digits : list Z := str "0123456789abcdef".
Definition digit (d : Z) : Z := default 0 (digits !! Z.to_nat d).

(** The [do ... while((x /= base) != 0)] loop, least significant digit
    first; a 32-bit number has at most 32 digits in any base from 2. *)
Fixpoint printint_digits (fuel : nat) (x base : Z) : list Z :=
  match fuel with
  | O => []
  | S fuel' =>
      digit (x mod base) :: (if x / base =? 0 then [] else printint_digits fuel' (x / base) base)
  end.

Definition printint_buf (xx base : Z) (sign : bool) : list Z :=
  let neg := sign && (xx <? 0) in
  let x := if neg then u32 (- xx) else u32 xx in
  printint_digits 32 x base ++ (if neg then [45] else []).

(** [while(--i >= 0) consputc(buf[i])]. *)
Fixpoint consputs (s : list Z) : K unit :=
  match s with
  | [] => mret ()
  | c :: s' => consputc c;; consputs s'
  end.

Definition printint (xx base : Z) (sign : bool) : K unit := consputs (reverse (printint_buf xx base sign)).

(** The loop of [printptr]: [n] hexadecimal digits, most significant first. *)
Fixpoint printptr_loop (n : nat) (x : Z) : K unit :=
  match n with
  | O => mret ()
  | S n' => consputc (digit (Z.shiftr x 60));; printptr_loop n' (u64 (Z.shiftl x 4))
  end.

Definition printptr (x : Z) : K unit := consputc 48;; consputc 120;; printptr_loop 16 x.

(** ** printf *)

Inductive parg :=
  | PInt (x : Z)                     (* int *)
  | PPtr (x : Z)                     (* uint64 *)
  | PStr (s : option (list Z)).      (* char*, None for the null pointer *)

(** The loop over the format. Reading an argument that was not passed, or at
    another type, is undefined behaviour in C. *)
Fixpoint printf_loop (fmt : list Z) (ap : list parg) : K unit :=
  match fmt with
  | [] => mret ()
  | c :: fmt' =>
      if negb (c =? 37) then consputc c;; printf_loop fmt' ap
      else
        match fmt' with
        | [] => mret ()
        | c' :: fmt'' =>
            if c' =? 100 then                                   (* d *)
              match ap with
              | PInt x :: ap' => printint x 10 true;; printf_loop fmt'' ap'
              | _ => panic "undefined va_arg"
              end
            else if c' =? 120 then                              (* x *)
              match ap with
              | PInt x :: ap' => printint x 16 true;; printf_loop fmt'' ap'
              | _ => panic "undefined va_arg"
              end
            else if c' =? 112 then                              (* p *)
              match ap with
              | PPtr x :: ap' => printptr x;; printf_loop fmt'' ap'
              | _ => panic "undefined va_arg"
              end
            else if c' =? 115 then                              (* s *)
              match ap with
              | PStr s :: ap' => consputs (cstr_of (default (str "(null)") s));; printf_loop fmt'' ap'
              | _ => panic "undefined va_arg"
              end
            else if c' =? 37 then consputc 37;; printf_loop fmt'' ap
            else consputc 37;; consputc c';; printf_loop fmt'' ap
        end
  end.

Definition printf (fmt : list Z) (ap : list parg) : K unit :=
  locking ← gets (fun k => pr_locking (k_io k));
  when (truthy locking) (acquire PrLock);;
  printf_loop fmt ap;;
  when (truthy locking) (release PrLock).

(** ** backtrace

    The frames of the kernel stack page: the return address is at [fp - 8],
    the caller's frame pointer at [fp - 16]; the loop ends at the top of the
    page. The memory it reads, [m], is the stack's. *)
Fixpoint backtrace_loop (fuel : nat) (m : mem) (fp top : Z) : K unit :=
  if fp =? top then mret ()
  else
    match fuel with
    | O => out_of_fuel
    | S fuel' =>
        printf (str "%p" ++ [10]) [PPtr (load64 m (u64 (fp - 8)))];;
        backtrace_loop fuel' m (load64 m (u64 (fp - 16))) top
    end.

(** A frame takes at least 16 bytes, so a page has at most 256 of them. *)
Definition backtrace (m : mem) (fp : Z) : K unit :=
  printf (str "backtrace:" ++ [10]) [];;
  backtrace_loop 256 m fp (PGROUNDUP fp).

(** ** Theorems *)

#[global] Arguments uartputc_sync : simpl never.
#[global] Arguments consputc : simpl never.
#[global] Arguments printf : simpl never.

(** The state after the bytes [s] have gone to [THR]. *)
Definition emit (s : list Z) (k : kernel) : kernel :=
  set_io (mkiosys (u_thr (k_io k) ++ s) (u_room (k_io k)) (u_rhr (k_io k)) (u_tx_buf (k_io k)) (u_tx_w (k_io k))
    (u_tx_r (k_io k)) (cons_buf (k_io k)) (cons_r (k_io k)) (cons_w (k_io k)) (cons_e (k_io k)) (pr_locking (k_io k)) (io_vd (k_io k))) k.

Lemma emit_app s1 s2 k : emit s2 (emit s1 k) = emit (s1 ++ s2) k.
Proof. unfold emit. ksimp. simpl. by rewrite app_assoc. Qed.

Lemma emit_nil k : emit [] k = k.
Proof.
  unfold emit. rewrite app_nil_r. transitivity (set_io (k_io k) k); [|done]. f_equal. by destruct (k_io k).
Qed.

Lemma emit_held s k : k_held (emit s k) = k_held k.
Proof. done. Qed.

Lemma emit_set_held s l k : emit s (set_held l k) = set_held l (emit s k).
Proof. done. Qed.

Definition is_byte (c : Z) : Prop := 0 <= c < 256.

Lemma consputc_eq c k : is_byte c -> consputc c k = Ret () (emit [c] k).
Proof.
  intros Hc. unfold is_byte in Hc. unfold consputc, BACKSPACE. rewrite (proj2 (Z.eqb_neq _ _)) by lia.
  unfold uartputc_sync, modify, emit, io_thr_push. by rewrite u8_small by lia.
Qed.

Lemma consputs_eq s k : Forall is_byte s -> consputs s k = Ret () (emit s k).
Proof.
  revert k. induction s as [|c s IH]; intros k Hs.
  - simpl. by rewrite emit_nil.
  - apply Forall_cons in Hs as [Hc Hs]. cbn [consputs]. erewrite bind_eq by (by apply consputc_eq). cbv beta.
    rewrite IH by done. by rewrite emit_app.
Qed.

Lemma str_bytes s : Forall is_byte (str s).
Proof.
  induction s as [|c s IH]; simpl; [constructor|]. constructor; [|done]. unfold is_byte.
  pose proof (Ascii.N_ascii_bounded c). lia.
Qed.

(** ** Numbers *)

(** The value of a list of digits, least significant first. *)
Fixpoint digits_value (base : Z) (ds : list Z) : Z :=
  match ds with
  | [] => 0
  | d :: ds' => d + base * digits_value base ds'
  end.

(** The digit a character stands for. *)
Definition undigit (c : Z) : Z := if c <? 58 then c - 48 else c - 87.

Lemma undigit_digit d : 0 <= d < 16 -> undigit (digit d) = d /\ is_byte (digit d) /\ digit d <> 45.
Proof.
  intros Hd. unfold is_byte.
  assert (d = 0 \/ d = 1 \/ d = 2 \/ d = 3 \/ d = 4 \/ d = 5 \/ d = 6 \/ d = 7 \/ d = 8 \/ d = 9 \/ d = 10 \/ d = 11 \/
    d = 12 \/ d = 13 \/ d = 14 \/ d = 15) as Hc by lia.
  repeat destruct Hc as [->|Hc]; [..|subst d]; vm_compute; repeat split; congruence.
Qed.

Lemma printint_digits_value fuel x base :
  2 <= base <= 16 -> 0 <= x < 2 ^ Z.of_nat fuel ->
  digits_value base (undigit <$> printint_digits fuel x base) = x /\
  Forall (fun c => is_byte c /\ c <> 45) (printint_digits fuel x base).
Proof.
  intros Hb. revert x. induction fuel as [|fuel IH]; intros x Hx.
  { simpl in *. split; [lia|constructor]. }
  cbn [printint_digits]. pose proof (Z.mod_pos_bound x base ltac:(lia)).
  destruct (undigit_digit (x mod base)) as (Hu & Hc & Hm); [lia|].
  pose proof (Z.div_mod x base ltac:(lia)) as Hdm.
  destruct (Z.eqb_spec (x / base) 0) as [Hz|Hz].
  - simpl. rewrite Hu. split; [lia|]. by apply Forall_singleton.
  - destruct (IH (x / base)) as [Hv Hf].
    { split; [apply Z.div_pos; lia|]. rewrite Nat2Z.inj_succ, Z.pow_succ_r in Hx by lia.
      apply Z.div_lt_upper_bound; [lia|]. nia. }
    cbn [fmap list_fmap digits_value]. rewrite Hu, Hv. split; [lia|by constructor].
Qed.

(** The number a printed [int] stands for. *)
Definition print_value (base : Z) (out : list Z) : Z :=
  match out with
  | c :: out' => if c =? 45 then - digits_value base (undigit <$> reverse out')
                 else digits_value base (undigit <$> reverse out)
  | [] => 0
  end.

Lemma printint_digits_cons fuel x base : (0 < fuel)%nat -> exists c s, printint_digits fuel x base = c :: s.
Proof. destruct fuel; [lia|]. simpl. eauto. Qed.

(** [printint] with a sign prints, in base 10 or 16, a text whose value is
    the [int] it was given, [INT_MIN] included. *)
Theorem printint_prints_number xx base k :
  - 2^31 <= xx < 2^31 -> 2 <= base <= 16 ->
  exists out, printint xx base true k = Ret () (emit out k) /\ print_value base out = xx.
Proof.
  intros Hx Hb. unfold printint, printint_buf. cbn [andb].
  assert (0 <= u32 (- xx) < 2 ^ Z.of_nat 32 /\ 0 <= u32 xx < 2 ^ Z.of_nat 32) as [H1 H2]
    by (change (Z.of_nat 32) with 32; split; apply u32_bound).
  destruct (printint_digits_value 32 _ base Hb H1) as [Hv1 Hf1].
  destruct (printint_digits_value 32 _ base Hb H2) as [Hv2 Hf2].
  destruct (Z.ltb_spec xx 0) as [Hn|Hp]; (eexists; split; [apply consputs_eq|]).
  - rewrite Forall_reverse. apply Forall_app. split; [|repeat constructor; unfold is_byte; lia].
    eapply Forall_impl; [exact Hf1|]. by intros ? [? _].
  - rewrite reverse_snoc. cbn [print_value]. rewrite Z.eqb_refl, reverse_involutive, Hv1. rewrite u32_small by lia. lia.
  - rewrite app_nil_r, Forall_reverse. eapply Forall_impl; [exact Hf2|]. by intros ? [? _].
  - rewrite app_nil_r. set (ds := printint_digits 32 (u32 xx) base) in *.
    destruct (reverse ds) as [|c s] eqn:E.
    + destruct (printint_digits_cons 32 (u32 xx) base ltac:(lia)) as (c & s & Hcs). fold ds in Hcs.
      apply (f_equal reverse) in E. rewrite reverse_involutive, Hcs in E. done.
    + cbn [print_value]. assert (c <> 45) as Hc.
      { rewrite Forall_forall in Hf2. apply Hf2. rewrite <- elem_of_reverse, E. apply list_elem_of_here. }
      rewrite (proj2 (Z.eqb_neq _ _)) by done. rewrite <- E, reverse_involutive, Hv2. apply u32_small. lia.
Qed.

Lemma printint_prints_number_witness : exists out, printint (- 2^31) 10 true boot = Ret () (emit out boot) /\
  print_value 10 out = - 2^31 /\ out = str "-2147483648".
Proof.
  destruct (printint_prints_number (- 2^31) 10 boot) as (out & Hrun & Hv); [lia|lia|].
  exists out. split_and!; [exact Hrun|exact Hv|].
  assert (printint (- 2^31) 10 true boot = Ret () (emit (str "-2147483648") boot)) as E by reflexivity.
  rewrite E in Hrun. injection Hrun as Hrun. by rewrite <- Hrun.
Defined.

(** ** Pointers *)

Fixpoint ptr_digits (n : nat) (x : Z) : list Z :=
  match n with
  | O => []
  | S n' => digit (Z.shiftr x 60) :: ptr_digits n' (u64 (Z.shiftl x 4))
  end.

Definition ptr_text (x : Z) : list Z := str "0x" ++ ptr_digits 16 x.

Lemma ptr_step x : 0 <= x < 2^64 -> 0 <= Z.shiftr x 60 < 16 /\ Z.shiftr x 60 = x / 2^60 /\
  0 <= u64 (Z.shiftl x 4) < 2^64 /\ x / 2^60 * 2^64 + u64 (Z.shiftl x 4) = 16 * x.
Proof.
  intros Hx. rewrite Z.shiftr_div_pow2, Z.shiftl_mul_pow2 by lia. unfold u64.
  change (2^4) with 16. change (2^60) with 1152921504606846976. change (2^64) with 18446744073709551616 in *. dlia.
Qed.

(** The value of hexadecimal digits, most significant first. *)
Fixpoint hex_value (acc : Z) (s : list Z) : Z :=
  match s with
  | [] => acc
  | c :: s' => hex_value (16 * acc + undigit c) s'
  end.

Lemma ptr_digits_value n x acc :
  0 <= x < 2^64 -> hex_value acc (ptr_digits n x) = 16 ^ Z.of_nat n * acc + x * 16 ^ Z.of_nat n / 2^64.
Proof.
  revert x acc. induction n as [|n IH]; intros x acc Hx.
  - simpl. rewrite Z.mul_1_r, Z.div_small by lia. lia.
  - cbn [ptr_digits hex_value]. pose proof (ptr_step x Hx) as (Hd & Hq & Hb & Heq).
    destruct (undigit_digit _ Hd) as [-> _]. rewrite IH by done. rewrite Hq.
    rewrite Nat2Z.inj_succ, Z.pow_succ_r by lia.
    replace (x * (16 * 16 ^ Z.of_nat n)) with (16 * x * 16 ^ Z.of_nat n) by lia. rewrite <- Heq.
    rewrite Z.mul_add_distr_r. replace (x / 2^60 * 2^64 * 16 ^ Z.of_nat n) with (x / 2^60 * 16 ^ Z.of_nat n * 2^64) by lia.
    rewrite Z.div_add_l by lia. lia.
Qed.

Lemma ptr_digits_bytes n x : 0 <= x < 2^64 -> Forall is_byte (ptr_digits n x).
Proof.
  revert x. induction n as [|n IH]; intros x Hx; [constructor|]. cbn [ptr_digits].
  pose proof (ptr_step x Hx) as (Hd & _ & Hb & _). constructor; [by apply undigit_digit|by apply IH].
Qed.

Lemma printptr_loop_eq n x k : 0 <= x < 2^64 -> printptr_loop n x k = Ret () (emit (ptr_digits n x) k).
Proof.
  revert x k. induction n as [|n IH]; intros x k Hx; cbn [printptr_loop ptr_digits].
  - by rewrite emit_nil.
  - pose proof (ptr_step x Hx) as (Hd & _ & Hb & _).
    erewrite bind_eq by (by apply consputc_eq, undigit_digit). cbv beta. rewrite IH by done. by rewrite emit_app.
Qed.

Lemma printptr_eq x k : 0 <= x < 2^64 -> printptr x k = Ret () (emit (ptr_text x) k).
Proof.
  intros Hx. unfold printptr, ptr_text. erewrite bind_eq by (apply consputc_eq; unfold is_byte; lia).
  erewrite bind_eq by (apply consputc_eq; unfold is_byte; lia). rewrite printptr_loop_eq by done. by rewrite !emit_app.
Qed.

(** ** backtrace *)

(** A stack: frame pointers that go up by at least 16 bytes inside the page
    that ends at [top], the return addresses being [ras]. *)
Fixpoint frames (m : mem) (fp top : Z) (ras : list Z) : Prop :=
  match ras with
  | [] => fp = top
  | ra :: ras' =>
      top - PGSIZE + 16 <= fp < top /\ load64 m (fp - 8) = ra /\ 0 <= ra < 2^64 /\
      fp + 16 <= load64 m (fp - 16) /\ frames m (load64 m (fp - 16)) top ras'
  end.

Lemma frames_length m fp top ras : frames m fp top ras -> ras <> [] -> 16 * Z.of_nat (length ras) <= top - fp.
Proof.
  revert fp. induction ras as [|ra ras IH]; intros fp; [done|]. cbn [frames length].
  intros (Hb & _ & _ & Hup & Hf) _. destruct ras as [|ra' ras]; [simpl in *; lia|].
  pose proof (IH _ Hf ltac:(done)). simpl in *. lia.
Qed.

Lemma frames_range m fp top ras : frames m fp top ras -> Forall (fun ra => 0 <= ra < 2^64) ras.
Proof.
  revert fp. induction ras as [|ra ras IH]; intros fp; [constructor|]. cbn [frames].
  intros (_ & _ & Hr & _ & Hf). constructor; [done|by eapply IH].
Qed.

Definition ptr_line (x : Z) : list Z := ptr_text x ++ [10].

Lemma printf_plain s fmt ap k :
  Forall (fun c => is_byte c /\ c <> 37) s -> printf_loop (s ++ fmt) ap k = printf_loop fmt ap (emit s k).
Proof.
  revert k. induction s as [|c s IH]; intros k Hs; simpl app; [by rewrite emit_nil|].
  apply Forall_cons in Hs as [[Hc Hp] Hs]. cbn [printf_loop]. rewrite (proj2 (Z.eqb_neq _ _)) by done. cbn [negb].
  erewrite bind_eq by (by apply consputc_eq). cbv beta. rewrite IH by done. by rewrite emit_app.
Qed.

Lemma printf_p x fmt ap k :
  0 <= x < 2^64 -> printf_loop (37 :: 112 :: fmt) (PPtr x :: ap) k = printf_loop fmt ap (emit (ptr_text x) k).
Proof.
  intros Hx. cbn [printf_loop]. change (negb (37 =? 37)) with false. change (112 =? 100) with false.
  change (112 =? 120) with false. change (112 =? 112) with true. cbv iota.
  erewrite bind_eq by (by apply printptr_eq). done.
Qed.

(** [printf] around a loop that prints [s]: the lock is taken and dropped. *)
Lemma printf_eq fmt ap s k :
  (forall k', printf_loop fmt ap k' = Ret () (emit s k')) -> PrLock ∉ k_held k ->
  printf fmt ap k = Ret () (emit s k).
Proof.
  intros Hloop Hlk. unfold printf. kpure. destruct (truthy _); cbn [when].
  - kcall acquire_eq. erewrite bind_eq by apply Hloop. rewrite emit_set_held.
    rewrite (release_eq _ (k_held k)) by done. by rewrite <- emit_set_held; ksimp.
  - kpure. erewrite bind_eq by apply Hloop. done.
Qed.

Lemma printf_ptr_line x k :
  0 <= x < 2^64 -> PrLock ∉ k_held k ->
  printf (str "%p" ++ [10]) [PPtr x] k = Ret () (emit (ptr_line x) k).
Proof.
  intros Hx Hlk. apply printf_eq; [|done]. intros k'. change (str "%p" ++ [10]) with ([37; 112; 10] ++ []).
  change ([37; 112; 10] ++ []) with (37 :: 112 :: ([10] ++ [])). rewrite printf_p by done.
  rewrite printf_plain by (apply Forall_singleton; unfold is_byte; lia). cbn [printf_loop]. by rewrite emit_app.
Qed.

(** Literal text without conversions. *)
Lemma printf_text s k :
  forallb (fun c => negb (c =? 37)) (str s) = true -> PrLock ∉ k_held k ->
  printf (str s ++ [10]) [] k = Ret () (emit (str s ++ [10]) k).
Proof.
  intros Hs Hlk. apply printf_eq; [|done]. intros k'. rewrite <- (app_nil_r (str s ++ [10])) at 1.
  rewrite printf_plain; [done|]. apply Forall_app. split; [|apply Forall_singleton; unfold is_byte; lia].
  apply Forall_forall. intros c Hc. split; [by apply (proj1 (Forall_forall _ _) (str_bytes s))|].
  rewrite forallb_forall in Hs. apply list_elem_of_In, Hs in Hc. b2p. done.
Qed.

Lemma backtrace_loop_eq m top ras fuel fp k :
  frames m fp top ras -> ras = [] \/ PGSIZE <= top < 2^64 -> (length ras <= fuel)%nat -> PrLock ∉ k_held k ->
  backtrace_loop fuel m fp top k = Ret () (emit (concat (ptr_line <$> ras)) k).
Proof.
  revert fuel fp k. induction ras as [|ra ras IH]; intros fuel fp k Hf Htop Hfuel Hlk; cbn [frames] in Hf.
  - subst fp. destruct fuel; cbn [backtrace_loop]; by rewrite Z.eqb_refl, emit_nil.
  - destruct Htop as [?|Htop]; [done|]. destruct Hf as (Hb & Hra & Hrb & Hup & Hf). destruct fuel as [|fuel]; [simpl in Hfuel; lia|].
    cbn [backtrace_loop]. rewrite (proj2 (Z.eqb_neq _ _)) by lia. unfold PGSIZE in *.
    rewrite !u64_small by lia. rewrite Hra.
    erewrite bind_eq by (by apply printf_ptr_line). cbv beta.
    rewrite IH; [|done|by right|simpl in Hfuel; lia|by rewrite emit_held]. by rewrite emit_app.
Qed.

(** C40: [backtrace] on a well-formed kernel stack terminates and prints the
    return addresses of its frames, innermost first, one hexadecimal number
    per line, each of which reads back as the address. *)
Theorem backtrace_prints_frames m fp ras k :
  frames m fp (PGROUNDUP fp) ras -> 0 <= fp < 2^64 - PGSIZE -> PrLock ∉ k_held k ->
  exists out, backtrace m fp k = Ret () (emit (str "backtrace:" ++ [10] ++ concat out) k) /\
    Forall2 (fun ra s => exists ds, s = str "0x" ++ ds ++ [10] /\ length ds = 16%nat /\ hex_value 0 ds = ra) ras out.
Proof.
  intros Hf Hfp Hlk. exists (ptr_line <$> ras). split.
  - unfold backtrace. erewrite bind_eq by (by apply printf_text). cbv beta.
    assert (PGROUNDUP fp < 2^64 /\ PGROUNDUP fp mod PGSIZE = 0 /\ fp <= PGROUNDUP fp < fp + PGSIZE) as (Ht & Hal & Hle).
    { rewrite PGROUNDUP_eq by done. unfold PGSIZE in *. dlia. }
    rewrite (backtrace_loop_eq _ _ ras); [by rewrite emit_app, <- app_assoc|done| | |by rewrite emit_held].
    + destruct ras; [by left|right]. cbn [frames] in Hf. unfold PGSIZE in *. dlia.
    + destruct ras as [|ra ras']; [simpl; lia|]. pose proof (frames_length _ _ _ _ Hf ltac:(done)).
      unfold PGSIZE in *. lia.
  - apply frames_range in Hf. induction Hf as [|ra ras' Hra _ IH]; [constructor|]. constructor; [|exact IH].
    exists (ptr_digits 16 ra). split_and!; [done|done|]. rewrite ptr_digits_value by done.
    change (16 ^ Z.of_nat 16) with (2^64). rewrite Z.div_mul by lia. lia.
Qed.

(** A stack page with two frames below its top. *)
Definition demo_stack : mem :=
  store64 (store64 (store64 (store64 ∅ 0x1fe8 0x80002abc) 0x1fe0 0x2000) 0x1fd8 0x80001234) 0x1fd0 0x1ff0.

Lemma backtrace_prints_frames_witness :
  exists out, backtrace demo_stack 0x1fe0 boot = Ret () (emit (str "backtrace:" ++ [10] ++ concat out) boot) /\
    Forall2 (fun ra s => exists ds, s = str "0x" ++ ds ++ [10] /\ length ds = 16%nat /\ hex_value 0 ds = ra)
      [0x80001234; 0x80002abc] out.
Proof.
  apply (backtrace_prints_frames demo_stack 0x1fe0 [0x80001234; 0x80002abc] boot).
  - vm_compute. repeat split; congruence.
  - vm_compute. split; congruence.
  - apply not_elem_of_nil.
Defined.
