(* ===== verification/Spinlock.v ===== *)
(** * Spinlocks and interrupt disabling ([spinlock.c])

    The machine has harts that run concurrently, each with its per-CPU
    record ([struct cpu]: [noff], [intena]) and its interrupt-enable bit, and
    spinlocks ([struct spinlock]: [locked], [cpu]). [push_off], [pop_off] and
    [holding] are functions of the state of one hart. [acquire] and [release]
    are state machines whose steps are the memory accesses another hart can
    observe: the swap of [lk->locked], the two writes of [lk->cpu] and the
    clearing of [lk->locked]; harts interleave at every step.

    The ghost field [cs] records the critical sections a hart is in: a lock
    enters it when [acquire] returns and leaves it when [release] has passed
    its [holding] check. *)

From S2P Require Import Prelude Monad State.
#[local] Open Scope Z_scope.

Abbreviation hart := nat.

Record cpu := mkcpu {
  noff : Z;                          (* depth of push_off() nesting *)
  intena : bool;                     (* were interrupts enabled before push_off()? *)
  sie : bool                         (* SSTATUS_SIE of the hart *)
}.

Record spinlock := mkspinlock {
  locked : Z;
  lcpu : option hart                 (* the cpu holding the lock, None for 0 *)
}.

Definition initlock : spinlock := mkspinlock 0 None.

Definition intr_get (c : cpu) : bool := sie c.
Definition intr_off (c : cpu) : cpu := mkcpu (noff c) (intena c) false.
Definition intr_on (c : cpu) : cpu := mkcpu (noff c) (intena c) true.

Definition push_off (c : cpu) : cpu :=
  let old := intr_get c in
  let c1 := intr_off c in
  let c2 := if noff c1 =? 0 then mkcpu (noff c1) old (sie c1) else c1 in
  mkcpu (noff c2 + 1) (intena c2) (sie c2).

Definition pop_off (c : cpu) : cpu + string :=
  if intr_get c then inr "pop_off - interruptible"%string
  else if noff c <? 1 then inr "pop_off"%string
  else
    let c1 := mkcpu (noff c - 1) (intena c) (sie c) in
    inl (if (noff c1 =? 0) && intena c1 then intr_on c1 else c1).

Definition holding (h : hart) (lk : spinlock) : bool :=
  truthy (locked lk) && bool_decide (lcpu lk = Some h).

(** Where a hart is in [acquire] or [release]. *)
Inductive lpc :=
  | Run                              (* in neither *)
  | AcqCheck (l : lockid)            (* acquire: after push_off() *)
  | AcqSpin (l : lockid)             (* acquire: in the test-and-set loop *)
  | AcqSet (l : lockid)              (* acquire: before lk->cpu = mycpu() *)
  | RelCpu (l : lockid)              (* release: before lk->cpu = 0 *)
  | RelUnlock (l : lockid)           (* release: before the atomic clear *)
  | RelPop (l : lockid)              (* release: before pop_off() *)
  | Panicked (msg : string).

Record smp := mksmp {
  cpus : hart -> cpu;
  locks : lockid -> spinlock;
  pcs : hart -> lpc;
  cs : hart -> list lockid
}.

Definition set_cpu (h : hart) (c : cpu) (s : smp) : smp :=
  mksmp (<[h := c]> (cpus s)) (locks s) (pcs s) (cs s).
Definition set_lock (l : lockid) (lk : spinlock) (s : smp) : smp :=
  mksmp (cpus s) (<[l := lk]> (locks s)) (pcs s) (cs s).
Definition set_pc (h : hart) (p : lpc) (s : smp) : smp :=
  mksmp (cpus s) (locks s) (<[h := p]> (pcs s)) (cs s).
Definition set_cs (h : hart) (ls : list lockid) (s : smp) : smp :=
  mksmp (cpus s) (locks s) (pcs s) (<[h := ls]> (cs s)).

(** One step of hart [h] inside [acquire] or [release]; [None] in [Run] and
    after a panic. *)
Definition lock_step (h : hart) (s : smp) : option smp :=
  match pcs s h with
  | Run | Panicked _ => None
  | AcqCheck l =>
      if holding h (locks s l) then Some (set_pc h (Panicked "acquire") s)
      else Some (set_pc h (AcqSpin l) s)
  | AcqSpin l =>
      (* __sync_lock_test_and_set(&lk->locked, 1) *)
      let old := locked (locks s l) in
      let s1 := set_lock l (mkspinlock 1 (lcpu (locks s l))) s in
      if truthy old then Some s1 else Some (set_pc h (AcqSet l) s1)
  | AcqSet l =>
      let s1 := set_lock l (mkspinlock (locked (locks s l)) (Some h)) s in
      Some (set_cs h (l :: cs s h) (set_pc h Run s1))
  | RelCpu l =>
      let s1 := set_lock l (mkspinlock (locked (locks s l)) None) s in
      Some (set_pc h (RelUnlock l) s1)
  | RelUnlock l =>
      (* __sync_lock_release(&lk->locked) *)
      let s1 := set_lock l (mkspinlock 0 (lcpu (locks s l))) s in
      Some (set_pc h (RelPop l) s1)
  | RelPop l =>
      match pop_off (cpus s h) with
      | inl c => Some (set_pc h Run (set_cpu h c s))
      | inr msg => Some (set_pc h (Panicked msg) s)
      end
  end.

(** Entering [acquire(l)] and [release(l)] from other code. *)
Definition call_acquire (h : hart) (l : lockid) (s : smp) : smp :=
  set_pc h (AcqCheck l) (set_cpu h (push_off (cpus s h)) s).

Definition call_release (h : hart) (l : lockid) (s : smp) : smp :=
  if holding h (locks s l) then
    set_cs h (filter (fun x => x <> l) (cs s h)) (set_pc h (RelCpu l) s)
  else set_pc h (Panicked "release") s.

(** The interleaving semantics: a hart that is in neither function may call
    one, call [push_off]/[pop_off] directly, or, with no lock held, switch
    its interrupts on or off. *)
Inductive smp_step : smp -> smp -> Prop :=
  | st_lock h s s' : lock_step h s = Some s' -> smp_step s s'
  | st_acquire h l s : pcs s h = Run -> smp_step s (call_acquire h l s)
  | st_release h l s : pcs s h = Run -> smp_step s (call_release h l s)
  | st_push_off h s : pcs s h = Run -> smp_step s (set_cpu h (push_off (cpus s h)) s)
  | st_pop_off h s c :
      pcs s h = Run -> Z.of_nat (length (cs s h)) < noff (cpus s h) ->
      pop_off (cpus s h) = inl c -> smp_step s (set_cpu h c s)
  | st_intr h s (b : bool) :
      pcs s h = Run -> noff (cpus s h) = 0 ->
      smp_step s (set_cpu h (if b then intr_on (cpus s h) else intr_off (cpus s h)) s).

Definition smp_init (ie : hart -> bool) : smp :=
  mksmp (fun h => mkcpu 0 false (ie h)) (fun _ => initlock) (fun _ => Run) (fun _ => []).

Inductive reachable : smp -> Prop :=
  | reach_init ie : reachable (smp_init ie)
  | reach_step s s' : reachable s -> smp_step s s' -> reachable s'.

(** ** Invariant *)

(** The hart is inside [acquire] past the swap or inside [release] before the
    clear, so it owns the lock although [lk->cpu] does not say so. *)
Definition mid (p : lpc) (l : lockid) : Prop := p = AcqSet l \/ p = RelUnlock l.

(** Hart [h] takes no part in the ownership of [l]. *)
Definition bystander (s : smp) (l : lockid) (h : hart) : Prop :=
  ~ mid (pcs s h) l /\ l ∉ cs s h /\ pcs s h <> RelCpu l.

(** The three states of a lock: free; owned by a hart that is between the
    swap and the write of [lk->cpu], or between the clear of [lk->cpu] and
    the unlock; held. *)
Inductive lstat (s : smp) (l : lockid) : Prop :=
  | LFree :
      locked (locks s l) = 0 -> lcpu (locks s l) = None ->
      (forall h, bystander s l h) -> lstat s l
  | LMid h :
      locked (locks s l) = 1 -> lcpu (locks s l) = None ->
      mid (pcs s h) l -> l ∉ cs s h ->
      (forall h', h' <> h -> bystander s l h') -> lstat s l
  | LHeld h :
      locked (locks s l) = 1 -> lcpu (locks s l) = Some h ->
      ~ mid (pcs s h) l -> (l ∈ cs s h <-> pcs s h <> RelCpu l) ->
      (forall h', h' <> h -> bystander s l h') -> lstat s l.

(** How many nested [push_off]s the current call of [acquire] or [release]
    accounts for. *)
Definition pc_depth (p : lpc) : Z :=
  match p with
  | Run => 0
  | Panicked _ => 0
  | _ => 1
  end.

(** Interrupts are off, and [noff] counts at least the locks held, while a
    hart holds a lock or is inside [acquire] or [release]. *)
Definition off_inv (s : smp) (h : hart) : Prop :=
  (forall msg, pcs s h <> Panicked msg) ->
  Z.of_nat (length (cs s h)) + pc_depth (pcs s h) <= noff (cpus s h) /\
  (0 < noff (cpus s h) -> sie (cpus s h) = false).

Record smp_inv (s : smp) : Prop := {
  si_lock l : lstat s l;
  si_nodup h : NoDup (cs s h);
  si_off h : off_inv s h
}.

(** ** The steps preserve the invariant *)

Ltac fn_upd :=
  unfold set_pc, set_lock, set_cpu, set_cs, insert, fn_insert in *;
  cbn [cpus locks pcs cs locked lcpu] in *.

(** A lock's state only depends on the lock and on the harts' relation to it. *)
Lemma lstat_ext s s' l :
  locks s' l = locks s l ->
  (forall h, mid (pcs s' h) l <-> mid (pcs s h) l) ->
  (forall h, pcs s' h = RelCpu l <-> pcs s h = RelCpu l) ->
  (forall h, l ∈ cs s' h <-> l ∈ cs s h) ->
  lstat s l -> lstat s' l.
Proof.
  intros Hl Hm Hr Hc Hs.
  assert (forall h, bystander s l h -> bystander s' l h) as Hb.
  { intros h (? & ? & ?). unfold bystander. rewrite Hm, Hc. naive_solver. }
  destruct Hs as [? ? ?|h ? ? ? ? ?|h ? ? ? ? ?].
  - apply LFree; rewrite ?Hl; auto.
  - apply (LMid _ _ h); rewrite ?Hl, ?Hm, ?Hc; auto.
  - apply (LHeld _ _ h); rewrite ?Hl, ?Hm, ?Hc; auto. naive_solver.
Qed.

(** A pc that takes no part in lock ownership. *)
Definition neutral (p : lpc) : Prop := forall l, ~ mid p l /\ p <> RelCpu l.

Lemma neutral_Run : neutral Run.
Proof. split; [intros [|]|]; done. Qed.
Lemma neutral_AcqCheck l : neutral (AcqCheck l).
Proof. split; [intros [|]|]; done. Qed.
Lemma neutral_AcqSpin l : neutral (AcqSpin l).
Proof. split; [intros [|]|]; done. Qed.
Lemma neutral_RelPop l : neutral (RelPop l).
Proof. split; [intros [|]|]; done. Qed.
Lemma neutral_Panicked msg : neutral (Panicked msg).
Proof. split; [intros [|]|]; done. Qed.
#[local] Hint Resolve neutral_Run neutral_AcqCheck neutral_AcqSpin neutral_RelPop neutral_Panicked : core.

Lemma lstat_neutral s s' h :
  locks s' = locks s -> cs s' = cs s -> (forall h', h' <> h -> pcs s' h' = pcs s h') ->
  neutral (pcs s h) -> neutral (pcs s' h) -> forall l, lstat s l -> lstat s' l.
Proof.
  intros Hl Hc Ho Hn Hn' l. destruct (Hn l), (Hn' l).
  apply lstat_ext; [by rewrite Hl|..]; intros h'; [..|by rewrite Hc];
    (destruct (decide (h' = h)) as [->|]; [tauto|by rewrite Ho]).
Qed.

(** Steps of hart [h] on lock [l] leave the other locks alone. *)
Lemma lstat_other s s' h l0 l :
  l <> l0 -> locks s' l = locks s l ->
  (forall h', h' <> h -> pcs s' h' = pcs s h' /\ cs s' h' = cs s h') ->
  (l ∈ cs s' h <-> l ∈ cs s h) ->
  (forall l', mid (pcs s h) l' \/ pcs s h = RelCpu l' -> l' = l0) ->
  (forall l', mid (pcs s' h) l' \/ pcs s' h = RelCpu l' -> l' = l0) ->
  lstat s l -> lstat s' l.
Proof.
  intros Hne Hl Ho Hc H1 H2. apply lstat_ext; [done|..]; intros h';
    (destruct (decide (h' = h)) as [->|]; [|destruct (Ho h') as [E1 E2]; [done|]; by rewrite ?E1, ?E2]);
    [naive_solver..|done].
Qed.

(** Unfold the updates of one step at the hart and lock they concern. *)
Ltac at_self :=
  fn_upd; rewrite ?decide_True by done; cbn [locked lcpu].

Ltac at_others :=
  intros h' Hh'; unfold bystander; fn_upd; rewrite ?(decide_False (P := _ = h')) by congruence.

Lemma lstat_swap s h l :
  lstat s l -> pcs s h = AcqSpin l -> locked (locks s l) = 0 ->
  lstat (set_pc h (AcqSet l) (set_lock l (mkspinlock 1 (lcpu (locks s l))) s)) l.
Proof.
  intros [Hlk Hc Hb|h0 Hlk Hc Hm Hcs Hb|h0 Hlk Hc Hm Hcs Hb] Hpc Hz; [|lia..].
  apply (LMid _ _ h); at_self; [done|done|by left|apply Hb|].
  at_others. apply Hb.
Qed.

Lemma lstat_acquired s h l :
  lstat s l -> pcs s h = AcqSet l ->
  lstat (set_cs h (l :: cs s h)
    (set_pc h Run (set_lock l (mkspinlock (locked (locks s l)) (Some h)) s))) l.
Proof.
  intros [Hlk Hc Hb|h0 Hlk Hc Hm Hcs Hb|h0 Hlk Hc Hm Hcs Hb] Hpc.
  - destruct (Hb h) as [[] _]. by left.
  - destruct (decide (h0 = h)) as [->|]; [|by destruct (Hb h) as [[] _]; [done|left]].
    apply (LHeld _ _ h); at_self; [done|done|intros [|]; done|set_solver|].
    at_others. by apply Hb.
  - destruct (decide (h0 = h)) as [->|]; [by destruct Hm; left|].
    by destruct (Hb h) as [[] _]; [done|left].
Qed.

Lemma lstat_release s h l :
  lstat s l -> pcs s h = Run -> holding h (locks s l) = true ->
  lstat (set_cs h (filter (fun x => x <> l) (cs s h)) (set_pc h (RelCpu l) s)) l.
Proof.
  unfold holding. intros Hs Hpc [_ Hcpu%bool_decide_eq_true]%andb_true_iff.
  destruct Hs as [Hlk Hc Hb|h0 Hlk Hc Hm Hcs Hb|h0 Hlk Hc Hm Hcs Hb]; [congruence..|].
  assert (h0 = h) as -> by congruence.
  apply (LHeld _ _ h); at_self; [done|done|intros [|]; done| |].
  - rewrite list_elem_of_filter. naive_solver.
  - at_others. by apply Hb.
Qed.

Lemma lstat_relcpu s h l :
  lstat s l -> pcs s h = RelCpu l ->
  lstat (set_pc h (RelUnlock l) (set_lock l (mkspinlock (locked (locks s l)) None) s)) l.
Proof.
  intros [Hlk Hc Hb|h0 Hlk Hc Hm Hcs Hb|h0 Hlk Hc Hm Hcs Hb] Hpc.
  - by destruct (Hb h) as (_ & _ & []).
  - destruct (decide (h0 = h)) as [->|]; [|by destruct (Hb h) as (_ & _ & [])].
    rewrite Hpc in Hm. by destruct Hm.
  - destruct (decide (h0 = h)) as [->|]; [|by destruct (Hb h) as (_ & _ & [])].
    apply (LMid _ _ h); at_self; [done|done|by right|naive_solver|].
    at_others. by apply Hb.
Qed.

Lemma lstat_unlock s h l :
  lstat s l -> pcs s h = RelUnlock l ->
  lstat (set_pc h (RelPop l) (set_lock l (mkspinlock 0 (lcpu (locks s l))) s)) l.
Proof.
  intros [Hlk Hc Hb|h0 Hlk Hc Hm Hcs Hb|h0 Hlk Hc Hm Hcs Hb] Hpc.
  - destruct (Hb h) as [[] _]. by right.
  - destruct (decide (h0 = h)) as [->|]; [|by destruct (Hb h) as [[] _]; [done|right]].
    apply LFree; at_self; [done|done|]. intros h'.
    destruct (decide (h' = h)) as [->|Hne].
    + unfold bystander. at_self. split_and!; [intros [|]|..]; done.
    + unfold bystander. fn_upd. rewrite !(decide_False (P := h = h')) by done. by apply Hb.
  - destruct (decide (h0 = h)) as [->|]; [by destruct Hm; right|].
    by destruct (Hb h) as [[] _]; [done|right].
Qed.

(** ** [push_off] and [pop_off] *)

Lemma push_off_noff c : noff (push_off c) = noff c + 1.
Proof. unfold push_off. simpl. by destruct (noff c =? 0). Qed.

Lemma push_off_sie c : sie (push_off c) = false.
Proof. unfold push_off. simpl. by destruct (noff c =? 0). Qed.

Lemma pop_off_ok c :
  1 <= noff c -> sie c = false ->
  exists c', pop_off c = inl c' /\ noff c' = noff c - 1 /\ (0 < noff c' -> sie c' = false).
Proof.
  intros Hn Hs. unfold pop_off, intr_get. rewrite Hs, (proj2 (Z.ltb_ge _ _)) by lia.
  eexists. split; [done|]. cbn [noff intena sie].
  destruct (Z.eqb_spec (noff c - 1) 0); simpl; [|done].
  destruct (intena c); simpl; split; done || lia.
Qed.

Lemma length_filter_in (l : lockid) (ls : list lockid) :
  l ∈ ls -> (length (filter (fun x => x <> l) ls) < length ls)%nat.
Proof.
  induction ls as [|x ls IH]; intros Hin; [by apply not_elem_of_nil in Hin|].
  rewrite filter_cons. case_decide; simpl.
  - apply -> Nat.succ_lt_mono. apply IH. set_solver.
  - pose proof (length_filter (fun x => x <> l) ls). lia.
Qed.

Lemma off_inv_same s s' h :
  cpus s' h = cpus s h -> pcs s' h = pcs s h -> cs s' h = cs s h -> off_inv s h -> off_inv s' h.
Proof. unfold off_inv. by intros -> -> ->. Qed.

(** ** Preservation *)

Lemma smp_inv_init ie : smp_inv (smp_init ie).
Proof.
  split; simpl.
  - intros l. apply LFree; [done..|]. intros h. unfold bystander; simpl.
    split_and!; [intros [|]; done|apply not_elem_of_nil|done].
  - intros. apply NoDup_nil_2.
  - intros h _. simpl. lia.
Qed.

(** The pc moves inside [acquire] or [release] between neutral points. *)
Lemma smp_inv_set_pc s h p :
  smp_inv s -> neutral (pcs s h) -> neutral p ->
  (pc_depth p <= pc_depth (pcs s h) \/ exists msg, p = Panicked msg) ->
  (forall msg, pcs s h <> Panicked msg) -> smp_inv (set_pc h p s).
Proof.
  intros [Hl Hn Ho] Hp Hp' Hd Hnp. split; [|done|].
  - intros l. apply (lstat_neutral s _ h); auto.
    + intros. fn_upd. by rewrite decide_False.
    + fn_upd. by rewrite decide_True.
  - intros h'. destruct (decide (h' = h)) as [->|].
    + unfold off_inv. fn_upd. rewrite decide_True by done. intros Hnp'.
      destruct Hd as [Hd|[msg ->]]; [|by destruct (Hnp' msg)].
      destruct (Ho h) as [? ?]; [done|]. split; [lia|done].
    + apply (off_inv_same s); auto. fn_upd. by rewrite decide_False.
Qed.

Lemma smp_inv_set_cpu s h c p :
  smp_inv s -> neutral (pcs s h) -> neutral p ->
  (Z.of_nat (length (cs s h)) + pc_depth p <= noff c) -> (0 < noff c -> sie c = false) ->
  smp_inv (set_pc h p (set_cpu h c s)).
Proof.
  intros [Hl Hn Ho] Hp Hp' Hd Hs. split; [|done|].
  - intros l. apply (lstat_neutral s _ h); auto.
    + intros. fn_upd. by rewrite decide_False.
    + fn_upd. by rewrite decide_True.
  - intros h'. destruct (decide (h' = h)) as [->|].
    + unfold off_inv. fn_upd. rewrite !decide_True by done. done.
    + apply (off_inv_same s); auto; fn_upd; by rewrite decide_False.
Qed.

Lemma smp_inv_cpu_only s h c :
  smp_inv s -> pcs s h = Run -> Z.of_nat (length (cs s h)) <= noff c ->
  (0 < noff c -> sie c = false) -> smp_inv (set_cpu h c s).
Proof.
  intros [Hl Hn Ho] Hpc Hd Hs. split; [|done|].
  - intros l. apply (lstat_ext s); done.
  - intros h'. destruct (decide (h' = h)) as [->|].
    + unfold off_inv. fn_upd. rewrite decide_True, Hpc by done. simpl. split; [lia|done].
    + apply (off_inv_same s); auto. fn_upd. by rewrite decide_False.
Qed.

(** A step of [h] on [l0] that keeps [l0] consistent and the balance of
    [noff] keeps the whole invariant. *)
Lemma smp_inv_lock s s' h l0 :
  smp_inv s -> lstat s' l0 ->
  (forall l, l <> l0 -> locks s' l = locks s l) ->
  (forall h', h' <> h -> pcs s' h' = pcs s h' /\ cs s' h' = cs s h') ->
  (forall l, l <> l0 -> l ∈ cs s' h <-> l ∈ cs s h) ->
  (forall l', mid (pcs s h) l' \/ pcs s h = RelCpu l' -> l' = l0) ->
  (forall l', mid (pcs s' h) l' \/ pcs s' h = RelCpu l' -> l' = l0) ->
  cpus s' = cpus s -> NoDup (cs s' h) ->
  (Z.of_nat (length (cs s' h)) + pc_depth (pcs s' h) <=
   Z.of_nat (length (cs s h)) + pc_depth (pcs s h)) ->
  (forall msg, pcs s h <> Panicked msg) -> smp_inv s'.
Proof.
  intros [Hl Hn Ho] Hs Hlk Hoth Hin H1 H2 Hc Hnd Hd Hnp. split.
  - intros l. destruct (decide (l = l0)) as [->|]; [done|].
    apply (lstat_other s s' h l0); auto.
  - intros h'. destruct (decide (h' = h)) as [->|]; [done|].
    destruct (Hoth h') as [_ ->]; done.
  - intros h'. destruct (decide (h' = h)) as [->|].
    + intros _. destruct (Ho h) as [? ?]; [done|]. rewrite Hc. split; [lia|done].
    + destruct (Hoth h') as [? ?]; [done|]. apply (off_inv_same s); auto. by rewrite Hc.
Qed.

Lemma smp_inv_lock_step s h s' : smp_inv s -> lock_step h s = Some s' -> smp_inv s'.
Proof.
  intros Hinv. pose proof Hinv as [Hl Hn Ho]. unfold lock_step.
  destruct (pcs s h) as [|l|l|l|l|l|l|msg] eqn:Hpc; try done.
  - destruct (holding h (locks s l)); intros [= <-];
      (apply smp_inv_set_pc; rewrite ?Hpc; [done|auto|auto|left; simpl; lia|done]).
  - destruct (truthy (locked (locks s l))) eqn:Ht; intros [= <-].
    + assert (locked (locks s l) = 1) as H1.
      { apply truthy_true in Ht. by destruct (Hl l). }
      assert (forall l', locks (set_lock l (mkspinlock 1 (lcpu (locks s l))) s) l' = locks s l') as Hlk.
      { intros l'. fn_upd. case_decide; [subst|done]. rewrite <- H1. by destruct (locks s l'). }
      split; [|done|done]. intros l'. apply (lstat_ext s); done.
    + apply truthy_false in Ht.
      apply (smp_inv_lock s _ h l Hinv (lstat_swap s h l (Hl l) Hpc Ht)); fn_upd.
      all: rewrite ?decide_True, ?Hpc by done; try done.
      * intros. by rewrite decide_False.
      * intros. by rewrite decide_False.
      * unfold mid; naive_solver.
      * unfold mid; naive_solver.
  - intros [= <-]. apply (smp_inv_lock s _ h l Hinv (lstat_acquired s h l (Hl l) Hpc)); fn_upd.
    all: rewrite ?decide_True, ?Hpc by done; try done.
    + intros. by rewrite decide_False.
    + intros. by rewrite !decide_False.
    + set_solver.
    + unfold mid; naive_solver.
    + unfold mid; naive_solver.
    + apply NoDup_cons_2; [|done]. intros Hin.
      destruct (Hl l) as [? ? Hb|h0 ? ? Hm ? Hb|h0 ? ? Hm ? Hb].
      * by destruct (Hb h) as (_ & ? & _).
      * destruct (decide (h = h0)) as [->|]; [done|]. by destruct (Hb h) as (_ & ? & _).
      * destruct (decide (h = h0)) as [->|]; [destruct Hm; by left|]. by destruct (Hb h) as (_ & ? & _).
    + simpl. lia.
  - intros [= <-]. apply (smp_inv_lock s _ h l Hinv (lstat_relcpu s h l (Hl l) Hpc)); fn_upd.
    all: rewrite ?decide_True, ?Hpc by done; try done.
    + intros. by rewrite decide_False.
    + intros. by rewrite decide_False.
    + unfold mid; naive_solver.
    + unfold mid; naive_solver.
  - intros [= <-]. apply (smp_inv_lock s _ h l Hinv (lstat_unlock s h l (Hl l) Hpc)); fn_upd.
    all: rewrite ?decide_True, ?Hpc by done; try done.
    + intros. by rewrite decide_False.
    + intros. by rewrite decide_False.
    + unfold mid; naive_solver.
    + unfold mid; naive_solver.
  - destruct (Ho h) as [Hoff Hsie]; [by rewrite Hpc|]. rewrite Hpc in Hoff. simpl in Hoff.
    destruct (pop_off_ok (cpus s h)) as (c & -> & Hc & Hs); [lia|apply Hsie; lia|].
    intros [= <-]. apply smp_inv_set_cpu; rewrite ?Hpc; auto. simpl. lia.
Qed.

Lemma smp_inv_step s s' : smp_inv s -> smp_step s s' -> smp_inv s'.
Proof.
  intros Hinv Hstep. pose proof Hinv as [Hl Hn Ho].
  destruct Hstep as [h s s' Hs|h l s Hpc|h l s Hpc|h s Hpc|h s c Hpc Hlt Hpop|h s b Hpc Hz].
  - by eapply smp_inv_lock_step.
  - destruct (Ho h) as [Hoff _]; [by rewrite Hpc|]. rewrite Hpc in Hoff. simpl in Hoff.
    apply smp_inv_set_cpu; rewrite ?Hpc; auto; rewrite ?push_off_noff, ?push_off_sie; simpl; auto; lia.
  - unfold call_release. destruct (holding h (locks s l)) eqn:Hh.
    + apply (smp_inv_lock s _ h l Hinv (lstat_release s h l (Hl l) Hpc Hh)); fn_upd.
      all: rewrite ?decide_True, ?Hpc by done; try done.
      * intros. by rewrite !decide_False.
      * intros. rewrite list_elem_of_filter. naive_solver.
      * unfold mid; naive_solver.
      * unfold mid; naive_solver.
      * by apply NoDup_filter.
      * enough (l ∈ cs s h) as Hin by (pose proof (length_filter_in l (cs s h) Hin); simpl; lia).
        unfold holding in Hh. apply andb_true_iff in Hh as [_ Hcpu%bool_decide_eq_true].
        destruct (Hl l) as [? ? Hb|h0 ? ? Hm ? Hb|h0 ? ? Hm Hcs Hb]; [congruence..|].
        assert (h0 = h) as -> by congruence. apply Hcs. by rewrite Hpc.
    + apply smp_inv_set_pc; rewrite ?Hpc; [done|auto|auto|left; simpl; lia|done].
  - destruct (Ho h) as [Hoff _]; [by rewrite Hpc|]. rewrite Hpc in Hoff. simpl in Hoff.
    apply (smp_inv_cpu_only s h); auto; rewrite ?push_off_noff, ?push_off_sie; auto; lia.
  - destruct (Ho h) as [Hoff Hsie]; [by rewrite Hpc|]. rewrite Hpc in Hoff. simpl in Hoff.
    destruct (pop_off_ok (cpus s h)) as (c' & Hp & Hc & Hs); [lia|apply Hsie; lia|].
    rewrite Hpop in Hp. injection Hp as <-.
    apply (smp_inv_cpu_only s h); auto. lia.
  - destruct (Ho h) as [Hoff _]; [by rewrite Hpc|]. rewrite Hpc in Hoff. simpl in Hoff.
    apply (smp_inv_cpu_only s h); auto; destruct b; simpl; lia.
Qed.

Lemma reachable_inv s : reachable s -> smp_inv s.
Proof. induction 1; eauto using smp_inv_init, smp_inv_step. Qed.

(** What [lk->cpu] says of a lock in a critical section. *)
Lemma in_cs_held s h l :
  smp_inv s -> l ∈ cs s h -> locked (locks s l) = 1 /\ lcpu (locks s l) = Some h.
Proof.
  intros [Hl _ _] Hin. destruct (Hl l) as [? ? Hb|h0 ? ? ? ? Hb|h0 ? ? ? ? Hb].
  - by destruct (Hb h) as (_ & ? & _).
  - destruct (decide (h = h0)) as [->|]; [done|]. by destruct (Hb h) as (_ & ? & _).
  - destruct (decide (h = h0)) as [->|]; [done|]. by destruct (Hb h) as (_ & ? & _).
Qed.

(** Between calls, [holding] is exact. *)
Lemma holding_cs s h l :
  smp_inv s -> (forall l', pcs s h <> RelCpu l') -> (holding h (locks s l) = true <-> l ∈ cs s h).
Proof.
  intros Hinv Hpc. split.
  - intros [_ Hcpu%bool_decide_eq_true]%andb_true_iff. destruct Hinv as [Hl _ _].
    destruct (Hl l) as [? ? Hb|h0 ? ? Hm ? Hb|h0 ? ? Hm Hcs Hb]; [congruence..|].
    assert (h0 = h) as -> by congruence. apply Hcs, Hpc.
  - intros Hin. apply in_cs_held in Hin as [H1 H2]; [|done].
    unfold holding. rewrite H1, H2. apply bool_decide_eq_true. done.
Qed.

Lemma not_in_cs_not_held s h l :
  smp_inv s -> pcs s h = Run -> l ∉ cs s h -> holding h (locks s l) = false.
Proof.
  intros Hinv Hpc Hl. apply not_true_is_false. rewrite holding_cs; [done|done|by rewrite Hpc].
Qed.

(** ** Properties of spinlock.c *)

(** C22: Mutual exclusion: in every reachable state of the concurrent machine, at most one hart is in a
    critical section of a given lock, and a hart that spins on a lock another hart is in keeps spinning and
    leaves the lock as it is. *)
Theorem spinlock_mutual_exclusion s h h' l :
  reachable s -> l ∈ cs s h ->
  (l ∈ cs s h' -> h' = h) /\
  (pcs s h' = AcqSpin l -> exists s', lock_step h' s = Some s' /\
     pcs s' h' = AcqSpin l /\ forall l', locks s' l' = locks s l').
Proof.
  intros Hinv%reachable_inv Hin. pose proof (in_cs_held s h l Hinv Hin) as [H1 H2]. split.
  - intros Hin'. apply in_cs_held in Hin' as [_ H3]; [|done]. congruence.
  - intros Hpc. unfold lock_step. rewrite Hpc, H1. simpl. eexists. split; [done|].
    split; [done|]. intros l'. fn_upd. case_decide; [subst|done].
    rewrite <- H1. by destruct (locks s l').
Qed.

(** A concrete run: hart 0 takes the lock, hart 1 waits. *)
Definition demo_acquired : smp :=
  let s0 := call_acquire 0 KmemLock (smp_init (fun _ => true)) in
  let s1 := default s0 (lock_step 0 s0) in
  let s2 := default s1 (lock_step 0 s1) in
  let s3 := default s2 (lock_step 0 s2) in
  let s4 := call_acquire 1 KmemLock s3 in
  default s4 (lock_step 1 s4).

Lemma reach_lock_step h s :
  reachable s -> is_Some (lock_step h s) -> reachable (default s (lock_step h s)).
Proof. intros Hr [s' Hs]. rewrite Hs. eapply reach_step; [done|by eapply st_lock]. Qed.

Lemma demo_acquired_reachable : reachable demo_acquired.
Proof.
  unfold demo_acquired. cbv zeta. apply reach_lock_step; [|vm_compute; eauto].
  eapply reach_step; [|by apply (st_acquire 1)].
  do 3 (apply reach_lock_step; [|vm_compute; eauto]).
  eapply reach_step; [|by apply (st_acquire 0)]. apply reach_init.
Qed.

Lemma spinlock_mutual_exclusion_witness :
  (KmemLock ∈ cs demo_acquired 1 -> 1%nat = 0%nat) /\
  exists s', lock_step 1 demo_acquired = Some s' /\ pcs s' 1 = AcqSpin KmemLock /\
    forall l', locks s' l' = locks demo_acquired l'.
Proof.
  destruct (spinlock_mutual_exclusion demo_acquired 0 1 KmemLock) as [H1 H2].
  - apply demo_acquired_reachable.
  - vm_compute. apply list_elem_of_here.
  - split; [exact H1|]. apply H2. vm_compute. reflexivity.
Defined.

(** A hart that holds a lock and has not panicked runs with interrupts disabled and a positive
    nesting depth, and a hart inside [acquire] or [release] does too; so a [release] never panics in
    [pop_off]. *)
Theorem lock_holder_interrupts_off s h :
  reachable s -> (forall msg, pcs s h <> Panicked msg) ->
  (forall l, l ∈ cs s h -> sie (cpus s h) = false /\ 1 <= noff (cpus s h)) /\
  (pcs s h <> Run -> sie (cpus s h) = false) /\
  (forall l, pcs s h = RelPop l -> exists c, pop_off (cpus s h) = inl c /\
     noff c = noff (cpus s h) - 1).
Proof.
  intros Hinv%reachable_inv Hnp. destruct (si_off _ Hinv h Hnp) as [Hd Hs]. split_and!.
  - intros l Hin. assert (1 <= Z.of_nat (length (cs s h))).
    { destruct (cs s h); [by apply not_elem_of_nil in Hin|simpl; lia]. }
    assert (0 <= pc_depth (pcs s h)) by (destruct (pcs s h); simpl; lia).
    split; [apply Hs|]; lia.
  - intros Hr. apply Hs. destruct (pcs s h); naive_solver lia.
  - intros l Hpc. rewrite Hpc in Hd. simpl in Hd.
    destruct (pop_off_ok (cpus s h)) as (c & ? & ? & _); [lia|apply Hs; lia|eauto].
Qed.

Lemma lock_holder_interrupts_off_witness :
  sie (cpus demo_acquired 0) = false /\ 1 <= noff (cpus demo_acquired 0).
Proof.
  destruct (lock_holder_interrupts_off demo_acquired 0) as [H _].
  - apply demo_acquired_reachable.
  - intros msg. vm_compute. congruence.
  - apply (H KmemLock). vm_compute. apply list_elem_of_here.
Defined.

(** [push_off] and [pop_off] nest: a [pop_off] after a [push_off] on a CPU whose interrupts are off
    whenever [noff] is positive does not panic, and restores the nesting depth and the interrupt-enable
    bit. *)
Theorem push_pop_off_restore c :
  0 <= noff c -> (0 < noff c -> sie c = false) ->
  exists c', pop_off (push_off c) = inl c' /\ noff c' = noff c /\ sie c' = sie c.
Proof.
  intros Hn Hs. unfold pop_off, intr_get.
  rewrite push_off_sie, push_off_noff, (proj2 (Z.ltb_ge _ _)) by lia.
  eexists. split; [done|]. cbn [noff intena sie]. replace (noff c + 1 - 1) with (noff c) by lia.
  destruct (Z.eqb_spec (noff c) 0) as [H0|H0]; simpl.
  - unfold push_off, intr_get. simpl. rewrite H0. simpl. by destruct (sie c).
  - split; [done|]. symmetry. apply Hs. lia.
Qed.

Lemma push_pop_off_restore_witness :
  0 <= 0 /\ exists c', pop_off (push_off (mkcpu 0 false true)) = inl c' /\ noff c' = 0 /\ sie c' = true.
Proof. split; [lia|]. apply (push_pop_off_restore (mkcpu 0 false true)); simpl; lia. Defined.

(** C23: Refinement: the list of locks a thread holds in the rest of the development behaves as
    [spinlock.c] does on the concurrent machine. If [acquire] of the list succeeds and no hart has the
    lock, three steps of the hart return from [acquire] with that list of critical sections; if it panics, so
    does [acquire]. [release] succeeds or panics exactly as [release] of the list, and ends in its list. *)
Theorem held_list_refines_spinlock s h l k :
  reachable s -> pcs s h = Run -> k_held k = cs s h ->
  match acquire l k with
  | Ret _ k' => locked (locks s l) = 0 ->
      exists s1 s2 s3, lock_step h (call_acquire h l s) = Some s1 /\ lock_step h s1 = Some s2 /\
        lock_step h s2 = Some s3 /\ pcs s3 h = Run /\ cs s3 h = k_held k'
  | Panic msg => exists s1, lock_step h (call_acquire h l s) = Some s1 /\ pcs s1 h = Panicked msg
  | Yield _ _ => False
  end /\
  match release l k with
  | Ret _ k' => exists s1 s2 s3, lock_step h (call_release h l s) = Some s1 /\ lock_step h s1 = Some s2 /\
        lock_step h s2 = Some s3 /\ pcs s3 h = Run /\ cs s3 h = k_held k'
  | Panic msg => pcs (call_release h l s) h = Panicked msg
  | Yield _ _ => False
  end.
Proof.
  intros Hinv%reachable_inv Hpc Hk. unfold acquire, release. rewrite Hk.
  destruct (decide (l ∈ cs s h)) as [Hin|Hin]; split; simpl.
  - pose proof (proj2 (holding_cs s h l Hinv ltac:(by rewrite Hpc)) Hin) as Hh.
    unfold lock_step, call_acquire. at_self. rewrite Hh. eexists. split; [done|]. at_self. done.
  - pose proof (proj2 (holding_cs s h l Hinv ltac:(by rewrite Hpc)) Hin) as Hh.
    destruct (si_off _ Hinv h) as [Hd Hs]; [by rewrite Hpc|]. rewrite Hpc in Hd. simpl in Hd.
    assert (1 <= Z.of_nat (length (cs s h))).
    { destruct (cs s h); [by apply not_elem_of_nil in Hin|simpl; lia]. }
    destruct (pop_off_ok (cpus s h)) as (c & Hc & _); [lia|apply Hs; lia|].
    unfold call_release. rewrite Hh. unfold lock_step. at_self.
    do 3 eexists. split; [done|]. at_self. split; [done|]. at_self. rewrite Hc.
    split; [done|]. at_self. done.
  - intros H0. pose proof (not_in_cs_not_held s h l Hinv Hpc Hin) as Hh.
    unfold lock_step, call_acquire. at_self. rewrite Hh. do 3 eexists. split; [done|].
    at_self. rewrite H0. simpl. split; [done|]. at_self. split; [done|]. at_self. done.
  - pose proof (not_in_cs_not_held s h l Hinv Hpc Hin) as Hh.
    unfold call_release. rewrite Hh. at_self. done.
Qed.

Lemma held_list_refines_spinlock_witness :
  exists s1 s2 s3, lock_step 0 (call_acquire 0 KmemLock (smp_init (fun _ => true))) = Some s1 /\
    lock_step 0 s1 = Some s2 /\ lock_step 0 s2 = Some s3 /\ pcs s3 0 = Run /\ cs s3 0 = [KmemLock].
Proof.
  destruct (held_list_refines_spinlock (smp_init (fun _ => true)) 0 KmemLock boot) as [H _].
  - apply reach_init.
  - reflexivity.
  - reflexivity.
  - simpl in H. apply H. reflexivity.
Defined.
