(* ===== verification/Kalloc.v ===== *)
(** * The physical page allocator ([kalloc.c])

    Free pages are linked through their own first word: [kmem.freelist] is the
    address of the first free page and the word at a free page's address is
    the address of the next one. The component's interface to its clients is
    the predicate [free_pages k l]: the free list of [k] is exactly the pages
    [l], in order. *)

From S2P Require Import Prelude Riscv Monad State Kstring.
#[local] Open Scope Z_scope.

Section kalloc.
Context {L : Layout}.

Definition kfree (pa : Z) : K unit :=
  if negb (pa mod PGSIZE =? 0) || (pa <? kend) || (PHYSTOP <=? pa) then panic "kfree"
  else
    (* fill with junk to catch dangling refs *)
    modify_mem (fun m => memset m pa 1 PGSIZE);;
    acquire KmemLock;;
    next ← gets k_freelist;
    modify_mem (fun m => store64 m pa next);;
    modify (set_freelist pa);;
    release KmemLock.

Definition kalloc : K Z :=
  acquire KmemLock;;
  r ← gets k_freelist;
  when (truthy r)
    (next ← gets (fun k => load64 (k_mem k) r);
     modify (set_freelist next));;
  release KmemLock;;
  when (truthy r) (modify_mem (fun m => memset m r 5 PGSIZE));;
  mret r.

Fixpoint freerange_loop (fuel : nat) (p pa_end : Z) : K unit :=
  if p + PGSIZE <=? pa_end then
    match fuel with
    | O => out_of_fuel
    | S fuel' => kfree p;; freerange_loop fuel' (p + PGSIZE) pa_end
    end
  else mret ().

(** The loop runs at most once per page of the range. *)
Definition freerange (pa_start pa_end : Z) : K unit :=
  let p := PGROUNDUP pa_start in
  freerange_loop (Z.to_nat ((pa_end - p) / PGSIZE)) p pa_end.

(** [initlock] leaves the lock free; the list of held locks has nothing to
    record. *)
Definition kinit : K unit := freerange kend PHYSTOP.

(** ** The free list *)

Fixpoint chain (m : mem) (head : Z) (l : list Z) : Prop :=
  match l with
  | [] => head = 0
  | p :: l' => head = p /\ chain m (load64 m p) l'
  end.

Record free_pages (k : kernel) (l : list Z) : Prop := {
  fp_chain : chain (k_mem k) (k_freelist k) l;
  fp_nodup : NoDup l;
  fp_ok : Forall page_ok l
}.

(** The address belongs to the page at [pa]. *)
Definition in_page (pa a : Z) : Prop := pa <= a < pa + PGSIZE.

(** Every page of RAM after the kernel, in the order [freerange] visits
    them. *)
Fixpoint pages_from (p : Z) (n : nat) : list Z :=
  match n with
  | O => []
  | S n' => p :: pages_from (p + PGSIZE) n'
  end.

Definition all_pages : list Z :=
  let p := PGROUNDUP kend in pages_from p (Z.to_nat ((PHYSTOP - p) / PGSIZE)).

(** Histories of the allocator: clients allocate, write to the pages they
    own, and free them. [own] is the list of pages handed out and not freed. *)
Inductive alloc_step : kernel * list Z -> kernel * list Z -> Prop :=
  | as_alloc k k' p own :
      kalloc k = Ret p k' -> p <> 0 -> alloc_step (k, own) (k', p :: own)
  | as_full k k' own :
      kalloc k = Ret 0 k' -> alloc_step (k, own) (k', own)
  | as_free k k' p own own' :
      own ≡ₚ p :: own' -> kfree p k = Ret () k' -> alloc_step (k, own) (k', own')
  | as_write k m own :
      (forall a, (forall p, p ∈ own -> ~ in_page p a) -> load8 m a = load8 (k_mem k) a) ->
      alloc_step (k, own) (set_mem m k, own).

(** The histories that start after [kinit()]. *)
Inductive alloc_reach : kernel -> list Z -> Prop :=
  | ar_init k : kinit boot = Ret () k -> alloc_reach k []
  | ar_step k own k' own' :
      alloc_reach k own -> alloc_step (k, own) (k', own') -> alloc_reach k' own'.

End kalloc.

#[local] Opaque acquire release.

Section proofs.
Context {L : Layout} {LOk : LayoutOk L}.

Lemma pages_disjoint p q a :
  p mod PGSIZE = 0 -> q mod PGSIZE = 0 -> in_page p a -> in_page q a -> p = q.
Proof. unfold in_page, PGSIZE. intros. dlia. Qed.

Lemma page_ok_disjoint p q a : page_ok p -> page_ok q -> in_page p a -> in_page q a -> p = q.
Proof. intros [? _] [? _]. by apply pages_disjoint. Qed.

Lemma chain_ext m m' head l :
  (forall p i, p ∈ l -> p <= i < p + 8 -> load8 m' i = load8 m i) ->
  chain m head l -> chain m' head l.
Proof.
  revert head. induction l as [|p l IH]; intros head Hext; simpl; [done|].
  intros [-> Hc]. split; [done|].
  rewrite (load64_ext m' m) by (intros; apply (Hext p); [apply list_elem_of_here|done]).
  apply IH; [|done]. intros q i Hq. apply Hext. by apply list_elem_of_further.
Qed.

Lemma free_pages_ext k k' l :
  k_freelist k' = k_freelist k ->
  (forall p a, p ∈ l -> in_page p a -> load8 (k_mem k') a = load8 (k_mem k) a) ->
  free_pages k l -> free_pages k' l.
Proof.
  intros Hf Hm [Hc Hn Ho]. split; [|done|done]. rewrite Hf.
  eapply chain_ext; [|done]. intros p i Hp Hi. apply (Hm p); [done|].
  unfold in_page, PGSIZE. lia.
Qed.

Lemma free_pages_nonzero k l p : free_pages k l -> p ∈ l -> page_ok p.
Proof. intros [_ _ Ho] Hp. by eapply Forall_forall. Qed.

Lemma kfree_spec k l pa :
  free_pages k l -> page_ok pa -> pa ∉ l -> KmemLock ∉ k_held k ->
  exists m', kfree pa k = Ret () (set_freelist pa (set_mem m' k)) /\
    free_pages (set_freelist pa (set_mem m' k)) (pa :: l) /\
    (forall a, ~ in_page pa a -> load8 m' a = load8 (k_mem k) a).
Proof.
  intros Hfp Hpa Hnin Hlk. pose proof Hfp as [Hc Hn Ho].
  set (m1 := memset (k_mem k) pa 1 PGSIZE). set (m2 := store64 m1 pa (k_freelist k)).
  assert (forall a, ~ in_page pa a -> load8 m2 a = load8 (k_mem k) a) as Hout.
  { intros a Ha. unfold in_page, PGSIZE in Ha. unfold m2, m1.
    rewrite load8_store64_ne, load8_memset, decide_False; unfold PGSIZE; [done|lia..]. }
  exists m2. split_and!; [|split|done].
  - unfold kfree. destruct Hpa as (Hal & Hlo & Hhi).
    rewrite (proj2 (Z.eqb_eq _ _)), (proj2 (Z.ltb_ge _ _)), (proj2 (Z.leb_gt _ _)) by done. simpl.
    kpure. kcall acquire_eq. do 3 kpure. by rewrite (release_eq _ (k_held k)).
  - simpl. split; [done|]. assert (load64 m2 pa = k_freelist k) as ->.
    { apply load64_store64_eq. destruct l as [|q l]; simpl in Hc; [rewrite Hc; lia|].
      destruct Hc as [-> _].
      pose proof (page_ok_range q (free_pages_nonzero _ _ q Hfp (list_elem_of_here _ _))).
      unfold PGSIZE in *. lia. }
    eapply chain_ext; [|done]. intros p i Hp Hi. apply Hout. intros Hin.
    assert (p = pa) as ->; [|done].
    apply (page_ok_disjoint p pa i); [by eapply free_pages_nonzero|done| |done].
    unfold in_page, PGSIZE. lia.
  - by apply NoDup_cons_2.
  - by constructor.
Qed.

Lemma kalloc_nil_spec k :
  free_pages k [] -> KmemLock ∉ k_held k -> kalloc k = Ret 0 k.
Proof.
  intros [Hc _ _] Hlk. simpl in Hc. unfold kalloc.
  kcall acquire_eq. kpure. cbn [k_freelist set_held]. rewrite Hc. kpure.
  by kcall (release_eq _ (k_held k)).
Qed.

Lemma kalloc_cons_spec k p l :
  free_pages k (p :: l) -> KmemLock ∉ k_held k ->
  exists nx, let m' := memset (k_mem k) p 5 PGSIZE in
    kalloc k = Ret p (set_freelist nx (set_mem m' k)) /\
    free_pages (set_freelist nx (set_mem m' k)) l /\
    (forall a, ~ in_page p a -> load8 m' a = load8 (k_mem k) a).
Proof.
  intros Hfp Hlk. pose proof Hfp as [Hc Hn Ho]. simpl in Hc. destruct Hc as [Hhd Hc].
  assert (page_ok p) as Hp by by apply Forall_inv in Ho.
  pose proof (page_ok_range p Hp) as Hr.
  exists (load64 (k_mem k) p). intros m'.
  assert (forall a, ~ in_page p a -> load8 m' a = load8 (k_mem k) a) as Hout.
  { intros a Ha. unfold m'. by rewrite load8_memset, decide_False. }
  split_and!; [|split|done].
  - unfold kalloc. kcall acquire_eq. kpure. cbn [k_freelist set_held].
    rewrite Hhd, (proj2 (truthy_true p)) by lia. kpure. by kcall (release_eq _ (k_held k)).
  - simpl. eapply chain_ext; [|done]. intros q i Hq Hi. apply Hout. intros Hin.
    apply NoDup_cons in Hn as [Hn _]. assert (p = q) as ->; [|done].
    apply (page_ok_disjoint p q i); [done| |done|unfold in_page, PGSIZE; lia].
    eapply free_pages_nonzero; [done|]. by apply list_elem_of_further.
  - by apply NoDup_cons in Hn as [_ ?].
  - by apply Forall_inv_tail in Ho.
Qed.

Lemma pages_from_spec p n q :
  p mod PGSIZE = 0 ->
  q ∈ pages_from p n <-> q mod PGSIZE = 0 /\ p <= q < p + Z.of_nat n * PGSIZE.
Proof.
  revert p. induction n as [|n IH]; intros p Hp; cbn [pages_from].
  - rewrite elem_of_nil. unfold PGSIZE. lia.
  - rewrite elem_of_cons, IH by (unfold PGSIZE in *; dlia). unfold PGSIZE in *. dlia.
Qed.

Lemma pages_from_nodup p n : p mod PGSIZE = 0 -> NoDup (pages_from p n).
Proof.
  revert p. induction n as [|n IH]; intros p Hp; cbn [pages_from]; [apply NoDup_nil_2|].
  assert ((p + PGSIZE) mod PGSIZE = 0) by (unfold PGSIZE in *; dlia).
  apply NoDup_cons_2; [|by apply IH]. rewrite pages_from_spec by done. unfold PGSIZE. lia.
Qed.

Lemma freerange_loop_spec n p pa_end k l :
  p mod PGSIZE = 0 -> kend <= p -> p + Z.of_nat n * PGSIZE <= pa_end < p + (Z.of_nat n + 1) * PGSIZE ->
  pa_end <= PHYSTOP -> free_pages k l -> (forall q, q ∈ l -> q ∉ pages_from p n) ->
  KmemLock ∉ k_held k ->
  exists m' f', freerange_loop n p pa_end k = Ret () (set_freelist f' (set_mem m' k)) /\
    free_pages (set_freelist f' (set_mem m' k)) (rev (pages_from p n) ++ l).
Proof.
  revert p k l. induction n as [|n IH]; intros p k l Hp Hlo Hn Hhi Hfp Hdis Hlk.
  - exists (k_mem k), (k_freelist k). cbn [freerange_loop pages_from rev app].
    rewrite (proj2 (Z.leb_gt _ _)) by (unfold PGSIZE in *; lia). done.
  - cbn [freerange_loop]. rewrite (proj2 (Z.leb_le _ _)) by (unfold PGSIZE in *; lia).
    assert (page_ok p) as Hok by (split_and!; [done|done|unfold PGSIZE in *; lia]).
    assert (p ∈ pages_from p (S n)) as Hin by apply list_elem_of_here.
    destruct (kfree_spec k l p Hfp Hok) as (m1 & Hrun & Hfp1 & _); [set_solver|done|].
    erewrite bind_eq by exact Hrun. cbv beta.
    assert (p ∉ pages_from (p + PGSIZE) n) as Hnp.
    { rewrite pages_from_spec; unfold PGSIZE in *; [lia|dlia]. }
    destruct (IH (p + PGSIZE) (set_freelist p (set_mem m1 k)) (p :: l)) as (m' & f' & Hr & Hf).
    + unfold PGSIZE in *; dlia.
    + unfold PGSIZE in *; lia.
    + unfold PGSIZE in *; lia.
    + done.
    + done.
    + intros q [->|Hq]%elem_of_cons; [done|]. specialize (Hdis q Hq).
      cbn [pages_from] in Hdis. set_solver.
    + done.
    + exists m', f'. split; [exact Hr|]. cbn [pages_from rev]. rewrite <- (assoc_L (++)). exact Hf.
Qed.

Lemma kend_roundup : kend <= PGROUNDUP kend < kend + PGSIZE.
Proof.
  pose proof kend_range as Hk. unfold KERNBASE, PHYSTOP, KERNBASE in Hk.
  rewrite PGROUNDUP_eq by (unfold PGSIZE; lia). unfold PGSIZE. dlia.
Qed.

Lemma kinit_from k :
  k_freelist k = 0 -> KmemLock ∉ k_held k ->
  exists m f, kinit k = Ret () (set_freelist f (set_mem m k)) /\
    free_pages (set_freelist f (set_mem m k)) (rev all_pages).
Proof.
  intros Hfl Hlk. pose proof kend_roundup as Hk. pose proof (PGROUNDUP_aligned kend) as Ha.
  pose proof kend_range as Hr. assert (PHYSTOP mod PGSIZE = 0) by reflexivity.
  unfold kinit, freerange, all_pages. cbv zeta.
  destruct (freerange_loop_spec (Z.to_nat ((PHYSTOP - PGROUNDUP kend) / PGSIZE)) (PGROUNDUP kend)
    PHYSTOP k []) as (m & f & Hrun & Hf).
  - done.
  - lia.
  - unfold PGSIZE in *. dlia.
  - done.
  - split; simpl; [done|apply NoDup_nil_2|done].
  - set_solver.
  - done.
  - exists m, f. rewrite app_nil_r in Hf. done.
Qed.

Lemma kinit_spec :
  exists m f, kinit boot = Ret () (set_freelist f (set_mem m boot)) /\
    free_pages (set_freelist f (set_mem m boot)) (rev all_pages).
Proof. apply kinit_from; [done|apply not_elem_of_nil]. Qed.

Lemma all_pages_ok : Forall page_ok all_pages.
Proof.
  apply Forall_forall. intros q. unfold all_pages. rewrite pages_from_spec by apply PGROUNDUP_aligned.
  pose proof kend_roundup. unfold page_ok, PGSIZE. dlia.
Qed.

(** Freed and handed-out pages together are all the pages, each once. *)
Lemma alloc_reach_inv k own :
  alloc_reach k own -> exists l, free_pages k l /\ l ++ own ≡ₚ all_pages /\ k_held k = [].
Proof.
  induction 1 as [k Hk|k own k' own' _ (l & Hfp & Hperm & Hh) Hstep].
  { destruct kinit_spec as (m & f & Hrun & Hf). rewrite Hrun in Hk. injection Hk as <-.
    exists (rev all_pages). split_and!; [done| |done]. rewrite app_nil_r. symmetry. apply Permutation_rev. }
  assert (NoDup (l ++ own)) as Hnd.
  { rewrite Hperm. apply pages_from_nodup, PGROUNDUP_aligned. }
  apply NoDup_app in Hnd as (_ & Hdis & _).
  assert (KmemLock ∉ k_held k) as Hlk by (rewrite Hh; apply not_elem_of_nil).
  inversion Hstep as [? ? p ? Hrun Hp|? ? ? Hrun|? ? p ? ? Hown Hrun|? m ? Hw]; subst.
  - destruct l as [|p0 l]; [rewrite kalloc_nil_spec in Hrun by done; congruence|].
    destruct (kalloc_cons_spec k p0 l Hfp Hlk) as (nx & Hr & Hf & _).
    rewrite Hr in Hrun. injection Hrun as <- <-. exists l. split_and!; [done| |done].
    rewrite <- Hperm. by rewrite <- Permutation_middle.
  - destruct l as [|p0 l]; [rewrite kalloc_nil_spec in Hrun by done; injection Hrun as <-; eauto|].
    destruct (kalloc_cons_spec k p0 l Hfp Hlk) as (nx & Hr & Hf & _).
    pose proof (page_ok_range p0 (free_pages_nonzero _ _ p0 Hfp (list_elem_of_here _ _))).
    rewrite Hr in Hrun. injection Hrun as ? ?. lia.
  - assert (p ∈ own) as Hin by (rewrite Hown; apply list_elem_of_here).
    assert (page_ok p) as Hok.
    { eapply Forall_forall; [apply all_pages_ok|]. rewrite <- Hperm. set_solver. }
    destruct (kfree_spec k l p Hfp Hok) as (m' & Hr & Hf & _); [set_solver|done|].
    rewrite Hr in Hrun. injection Hrun as <-. exists (p :: l). split_and!; [done| |done].
    rewrite <- Hperm, Hown. by rewrite <- Permutation_middle.
  - exists l. split_and!; [|done|done]. apply (free_pages_ext k); [done| |done].
    intros p a Hp Ha. simpl. apply Hw. intros q Hq Hqa.
    assert (p = q) as ->; [|by destruct (Hdis q)].
    apply (page_ok_disjoint p q a); [by eapply free_pages_nonzero| |done|done].
    eapply Forall_forall; [apply all_pages_ok|]. rewrite <- Hperm. set_solver.
Qed.

(** ** Properties of kalloc.c *)

(** C2: After [kinit] and any history of allocations, writes to owned pages and frees, no page is handed
    out twice: the pages in use are distinct valid pages, [kalloc] never returns one of them, it returns
    null exactly when every page of RAM is in use, and freeing a page in use never panics. *)
Theorem kalloc_never_hands_out_twice k own :
  alloc_reach k own ->
  NoDup own /\ Forall page_ok own /\
  (exists p k', kalloc k = Ret p k' /\ p ∉ own /\ (p = 0 <-> own ≡ₚ all_pages)) /\
  (forall p, p ∈ own -> exists k', kfree p k = Ret () k').
Proof.
  intros (l & Hfp & Hperm & Hh)%alloc_reach_inv.
  assert (KmemLock ∉ k_held k) as Hlk by (rewrite Hh; apply not_elem_of_nil).
  assert (NoDup (l ++ own)) as Hnd by (rewrite Hperm; apply pages_from_nodup, PGROUNDUP_aligned).
  apply NoDup_app in Hnd as (Hnl & Hdis & Hno).
  assert (Forall page_ok own) as Hok.
  { apply Forall_forall. intros p Hp. eapply Forall_forall; [apply all_pages_ok|].
    rewrite <- Hperm. set_solver. }
  split_and!; [done|done| |].
  - destruct l as [|p l].
    + exists 0, k. rewrite kalloc_nil_spec by done. split_and!; [done| |done].
      intros H0. eapply Forall_forall in H0; [|done]. apply page_ok_range in H0. lia.
    + destruct (kalloc_cons_spec k p l Hfp Hlk) as (nx & Hr & _). eexists p, _.
      split_and!; [exact Hr|apply Hdis; apply list_elem_of_here|].
      pose proof (page_ok_range p (free_pages_nonzero _ _ p Hfp (list_elem_of_here _ _))).
      split; [lia|]. intros Hp. assert (p ∈ own) as Hin; [|by destruct (Hdis p (list_elem_of_here _ _))].
      rewrite Hp, <- Hperm. apply list_elem_of_here.
  - intros p Hp. destruct (kfree_spec k l p Hfp) as (m & Hr & _); [by eapply Forall_forall| |done|eauto].
    intros Hl. by apply (Hdis p).
Qed.

(** Freeing a page and allocating again gives the same page back, filled with the junk pattern, and
    restores the rest of the free list; bytes outside the page never change. *)
Theorem kfree_kalloc_roundtrip k l pa :
  free_pages k l -> page_ok pa -> pa ∉ l -> KmemLock ∉ k_held k ->
  exists k1 k2, kfree pa k = Ret () k1 /\ kalloc k1 = Ret pa k2 /\
    free_pages k1 (pa :: l) /\ free_pages k2 l /\ k_held k2 = k_held k /\
    (forall a, in_page pa a -> load8 (k_mem k2) a = 5) /\
    (forall a, ~ in_page pa a -> load8 (k_mem k2) a = load8 (k_mem k) a).
Proof.
  intros Hfp Hpa Hnin Hlk. destruct (kfree_spec k l pa Hfp Hpa Hnin Hlk) as (m & Hr & Hf & Hm).
  destruct (kalloc_cons_spec (set_freelist pa (set_mem m k)) pa l Hf Hlk) as (nx & Hr2 & Hf2 & Hm2).
  eexists _, _. split_and!; [exact Hr|exact Hr2|done|done|done| |].
  - intros a Ha. simpl. by rewrite load8_memset, decide_True.
  - intros a Ha. simpl. simpl in Hm2. rewrite Hm2 by done. by apply Hm.
Qed.

(** [kfree] panics on every address that is not a page of the allocator's range, before touching
    memory. *)
Theorem kfree_rejects_bad_pages k pa : ~ page_ok pa -> kfree pa k = Panic "kfree".
Proof.
  intros Hbad. unfold kfree.
  destruct (Z.eqb_spec (pa mod PGSIZE) 0), (Z.ltb_spec pa kend), (Z.leb_spec PHYSTOP pa); simpl; try done.
  by destruct Hbad.
Qed.

End proofs.

(** ** Witnesses: a machine with two pages of RAM after the kernel *)

Definition tiny_layout : Layout :=
  {| kend := PHYSTOP - 2 * PGSIZE; etext := 0x80008000; trampoline := 0x80007000;
     a_uservec := 0x80007000; a_userret := 0x80007090; a_kernelvec := 0x80005050;
     a_usertrap := 0x80001c88; a_forkret := 0x80000e80 |}.

#[local] Instance tiny_layout_ok : LayoutOk tiny_layout.
Proof. split; vm_compute; repeat split; congruence. Qed.

Definition tiny_kernel : kernel :=
  match kinit (L := tiny_layout) boot with Ret _ k => k | _ => boot end.

Lemma tiny_reach : alloc_reach (L := tiny_layout) tiny_kernel [].
Proof.
  apply ar_init. unfold tiny_kernel. destruct (kinit_spec (L := tiny_layout)) as (m & f & -> & _). done.
Qed.

Lemma kalloc_never_hands_out_twice_witness :
  exists p k', kalloc tiny_kernel = Ret p k' /\ p ∉ ([] : list Z) /\
    (p = 0 <-> [] ≡ₚ all_pages (L := tiny_layout)).
Proof.
  destruct (kalloc_never_hands_out_twice (L := tiny_layout) tiny_kernel []) as (_ & _ & H & _).
  - apply tiny_reach.
  - exact H.
Defined.

Lemma kfree_kalloc_roundtrip_witness :
  exists k1 k2, kfree (L := tiny_layout) (PHYSTOP - PGSIZE) boot = Ret () k1 /\
    kalloc k1 = Ret (PHYSTOP - PGSIZE) k2.
Proof.
  destruct (kfree_kalloc_roundtrip (L := tiny_layout) boot [] (PHYSTOP - PGSIZE))
    as (k1 & k2 & H1 & H2 & _).
  - split; [reflexivity|apply NoDup_nil_2|constructor].
  - split_and!; vm_compute; congruence.
  - apply not_elem_of_nil.
  - apply not_elem_of_nil.
  - exists k1, k2. split; [exact H1|exact H2].
Defined.

Lemma kfree_rejects_bad_pages_witness : kfree (L := xv6_layout) 0x80001000 boot = Panic "kfree".
Proof.
  apply (kfree_rejects_bad_pages (L := xv6_layout)). intros (_ & H & _). vm_compute in H. congruence.
Defined.
