(* ===== verification/Vm.v ===== *)
(** * Virtual memory ([vm.c]): the operations

    Page tables live in pages of physical memory, 512 64-bit entries each, as
    the Sv39 hardware reads them. A pointer to an entry is its physical
    address (the kernel maps RAM one to one). A kernel buffer that [copyout]
    reads or [copyin] and [copyinstr] write (a local variable or a buffer of
    the kernel image, never a page of the pool) is passed by value, as the
    list of its bytes. Loops carry a bound on their iterations that the
    theorems show to be enough. *)

From S2P Require Import Prelude Riscv Monad State Kstring Kalloc.
#[local] Open Scope Z_scope.

Section vm.
Context {L : Layout}.

Definition load64_k (a : Z) : K Z := gets (fun k => load64 (k_mem k) a).
Definition store64_k (a v : Z) : K unit := modify_mem (fun m => store64 m a v).

(** One iteration of the loop of [walk]: the next table, [None] where [walk]
    returns 0. *)
Definition walk_level (level va : Z) (alloc : bool) (pagetable : Z) : K (option Z) :=
  let pte := pagetable + 8 * PX level va in
  v ← load64_k pte;
  if pte_has v PTE_V then mret (Some (PTE2PA v))
  else if negb alloc then mret None
  else
    pagetable' ← kalloc;
    if pagetable' =? 0 then mret None
    else
      modify_mem (fun m => memset m pagetable' 0 PGSIZE);;
      store64_k pte (Z.lor (PA2PTE pagetable') PTE_V);;
      mret (Some pagetable').

Definition walk (pagetable va : Z) (alloc : bool) : K Z :=
  if MAXVA <=? va then panic "walk"
  else
    o1 ← walk_level 2 va alloc pagetable;
    match o1 with
    | None => mret 0
    | Some pagetable1 =>
        o0 ← walk_level 1 va alloc pagetable1;
        match o0 with
        | None => mret 0
        | Some pagetable0 => mret (pagetable0 + 8 * PX 0 va)
        end
    end.

Definition walkaddr (pagetable va : Z) : K Z :=
  if MAXVA <=? va then mret 0
  else
    pte ← walk pagetable va false;
    if pte =? 0 then mret 0
    else
      v ← load64_k pte;
      if negb (pte_has v PTE_V) then mret 0
      else if negb (pte_has v PTE_U) then mret 0
      else mret (PTE2PA v).

(** The [for(;;)] of [mappages]; [a] and [pa] advance together. *)
Fixpoint mappages_loop (fuel : nat) (pagetable a last pa perm : Z) : K Z :=
  match fuel with
  | O => out_of_fuel
  | S fuel' =>
      pte ← walk pagetable a true;
      if pte =? 0 then mret (-1)
      else
        v ← load64_k pte;
        if pte_has v PTE_V then panic "mappages: remap"
        else
          store64_k pte (mkpte pa perm);;
          if a =? last then mret 0
          else mappages_loop fuel' pagetable (u64 (a + PGSIZE)) last (u64 (pa + PGSIZE)) perm
  end.

Definition mappages (pagetable va size pa perm : Z) : K Z :=
  if size =? 0 then panic "mappages: size"
  else
    let a := PGROUNDDOWN va in
    let last := PGROUNDDOWN (u64 (va + size - 1)) in
    mappages_loop (S (Z.to_nat (u64 (last - a) / PGSIZE))) pagetable a last pa perm.

Definition kvmmap (kpgtbl va pa sz perm : Z) : K unit :=
  r ← mappages kpgtbl va sz pa perm;
  when (truthy r) (panic "kvmmap").

(** The [for] of [uvmunmap]. *)
Fixpoint uvmunmap_loop (fuel : nat) (pagetable a limit : Z) (do_free : bool) : K unit :=
  if a <? limit then
    match fuel with
    | O => out_of_fuel
    | S fuel' =>
        pte ← walk pagetable a false;
        if pte =? 0 then panic "uvmunmap: walk"
        else
          v ← load64_k pte;
          if negb (pte_has v PTE_V) then panic "uvmunmap: not mapped"
          else if PTE_FLAGS v =? PTE_V then panic "uvmunmap: not a leaf"
          else
            when do_free (kfree (PTE2PA v));;
            store64_k pte 0;;
            uvmunmap_loop fuel' pagetable (u64 (a + PGSIZE)) limit do_free
    end
  else mret ().

Definition uvmunmap (pagetable va npages : Z) (do_free : bool) : K unit :=
  if negb (va mod PGSIZE =? 0) then panic "uvmunmap: not aligned"
  else uvmunmap_loop (Z.to_nat npages) pagetable va (u64 (va + u64 (npages * PGSIZE))) do_free.

Definition uvmcreate : K Z :=
  pagetable ← kalloc;
  if pagetable =? 0 then mret 0
  else
    modify_mem (fun m => memset m pagetable 0 PGSIZE);;
    mret pagetable.

Definition uvminit (pagetable : Z) (src : list Z) : K unit :=
  if PGSIZE <=? Z.of_nat (length src) then panic "inituvm: more than a page"
  else
    page ← kalloc;
    modify_mem (fun m => memset m page 0 PGSIZE);;
    mappages pagetable 0 PGSIZE page (Z.lor (Z.lor (Z.lor PTE_W PTE_R) PTE_X) PTE_U);;
    modify_mem (fun m => store_bytes m page src).

Definition uvmdealloc (pagetable oldsz newsz : Z) : K Z :=
  if oldsz <=? newsz then mret oldsz
  else
    when (PGROUNDUP newsz <? PGROUNDUP oldsz)
      (let npages := s32 ((PGROUNDUP oldsz - PGROUNDUP newsz) / PGSIZE) in
       uvmunmap pagetable (PGROUNDUP newsz) (u64 npages) true);;
    mret newsz.

(** The [for] of [uvmalloc]. *)
Fixpoint uvmalloc_loop (fuel : nat) (pagetable a oldsz newsz : Z) : K Z :=
  if a <? newsz then
    match fuel with
    | O => out_of_fuel
    | S fuel' =>
        page ← kalloc;
        if page =? 0 then uvmdealloc pagetable a oldsz;; mret 0
        else
          modify_mem (fun m => memset m page 0 PGSIZE);;
          r ← mappages pagetable a PGSIZE page (Z.lor (Z.lor (Z.lor PTE_W PTE_X) PTE_R) PTE_U);
          if truthy r then
            kfree page;;
            uvmdealloc pagetable a oldsz;;
            mret 0
          else uvmalloc_loop fuel' pagetable (u64 (a + PGSIZE)) oldsz newsz
    end
  else mret newsz.

Definition uvmalloc (pagetable oldsz newsz : Z) : K Z :=
  if newsz <? oldsz then mret oldsz
  else
    let oldsz := PGROUNDUP oldsz in
    uvmalloc_loop (Z.to_nat ((newsz - oldsz) / PGSIZE + 1)) pagetable oldsz oldsz newsz.

(** The [for] of [freewalk]: entries [i], [i + 1], ..., [n] of them; [child]
    is the recursive call. *)
Fixpoint freewalk_loop (child : Z -> K unit) (n : nat) (pagetable i : Z) : K unit :=
  match n with
  | O => mret ()
  | S n' =>
      pte ← load64_k (pagetable + 8 * i);
      (if pte_has pte PTE_V && negb (pte_has pte (Z.lor (Z.lor PTE_R PTE_W) PTE_X)) then
         child (PTE2PA pte);;
         store64_k (pagetable + 8 * i) 0
       else if pte_has pte PTE_V then panic "freewalk: leaf"
       else mret ());;
      freewalk_loop child n' pagetable (i + 1)
  end.

(** The recursion of [freewalk] goes as deep as the table: [fuel] levels. *)
Fixpoint freewalk (fuel : nat) (pagetable : Z) : K unit :=
  match fuel with
  | O => out_of_fuel
  | S fuel' =>
      freewalk_loop (freewalk fuel') 512 pagetable 0;;
      kfree pagetable
  end.

(** Sv39 tables have three levels. *)
Definition uvmfree (pagetable sz : Z) : K unit :=
  when (0 <? sz) (uvmunmap pagetable 0 (PGROUNDUP sz / PGSIZE) true);;
  freewalk 3 pagetable.

(** The [for] of [uvmcopy], and its error path. *)
Definition uvmcopy_err (new i : Z) : K Z :=
  uvmunmap new 0 (i / PGSIZE) true;;
  mret (-1).

Fixpoint uvmcopy_loop (fuel : nat) (old new i sz : Z) : K Z :=
  if i <? sz then
    match fuel with
    | O => out_of_fuel
    | S fuel' =>
        pte ← walk old i false;
        if pte =? 0 then panic "uvmcopy: pte should exist"
        else
          v ← load64_k pte;
          if negb (pte_has v PTE_V) then panic "uvmcopy: page not present"
          else
            let pa := PTE2PA v in
            let flags := PTE_FLAGS v in
            page ← kalloc;
            if page =? 0 then uvmcopy_err new i
            else
              modify_mem (fun m => memmove m page pa PGSIZE);;
              r ← mappages new i PGSIZE page flags;
              if truthy r then kfree page;; uvmcopy_err new i
              else uvmcopy_loop fuel' old new (u64 (i + PGSIZE)) sz
    end
  else mret 0.

Definition uvmcopy (old new sz : Z) : K Z :=
  uvmcopy_loop (Z.to_nat (sz / PGSIZE + 1)) old new 0 sz.

Definition uvmclear (pagetable va : Z) : K unit :=
  pte ← walk pagetable va false;
  if pte =? 0 then panic "uvmclear"
  else
    v ← load64_k pte;
    store64_k pte (Z.land v (Z.lnot PTE_U)).

(** [copyout(pagetable, dstva, src, len)] with [src] the [len] bytes. Every
    iteration copies at least one byte. *)
Fixpoint copyout_loop (fuel : nat) (pagetable dstva : Z) (src : list Z) : K Z :=
  if 0 <? Z.of_nat (length src) then
    match fuel with
    | O => out_of_fuel
    | S fuel' =>
        let va0 := PGROUNDDOWN dstva in
        pa0 ← walkaddr pagetable va0;
        if pa0 =? 0 then mret (-1)
        else
          let n := Z.min (PGSIZE - (dstva - va0)) (Z.of_nat (length src)) in
          modify_mem (fun m => store_bytes m (pa0 + (dstva - va0)) (take (Z.to_nat n) src));;
          copyout_loop fuel' pagetable (u64 (va0 + PGSIZE)) (drop (Z.to_nat n) src)
    end
  else mret 0.

Definition copyout (pagetable dstva : Z) (src : list Z) : K Z :=
  copyout_loop (length src) pagetable dstva src.

(** [copyin] returns its status and the bytes it wrote to [dst]. *)
Fixpoint copyin_loop (fuel : nat) (pagetable srcva len : Z) (dst : list Z) : K (Z * list Z) :=
  if 0 <? len then
    match fuel with
    | O => out_of_fuel
    | S fuel' =>
        let va0 := PGROUNDDOWN srcva in
        pa0 ← walkaddr pagetable va0;
        if pa0 =? 0 then mret (-1, dst)
        else
          let n := Z.min (PGSIZE - (srcva - va0)) len in
          bs ← gets (fun k => load_bytes (k_mem k) (pa0 + (srcva - va0)) (Z.to_nat n));
          copyin_loop fuel' pagetable (u64 (va0 + PGSIZE)) (len - n) (dst ++ bs)
    end
  else mret (0, dst).

Definition copyin (pagetable srcva len : Z) : K (Z * list Z) :=
  copyin_loop (Z.to_nat len) pagetable srcva len [].

(** The inner loop of [copyinstr]: at most [n] bytes from physical address
    [p]; the bytes written, and whether a NUL was among them. *)
Fixpoint copyinstr_inner (m : mem) (p : Z) (n : nat) : list Z * bool :=
  match n with
  | O => ([], false)
  | S n' =>
      if load8 m p =? 0 then ([0], true)
      else let '(bs, got_null) := copyinstr_inner m (p + 1) n' in (load8 m p :: bs, got_null)
  end.

Fixpoint copyinstr_loop (fuel : nat) (pagetable srcva max : Z) (dst : list Z) : K (Z * list Z) :=
  if 0 <? max then
    match fuel with
    | O => out_of_fuel
    | S fuel' =>
        let va0 := PGROUNDDOWN srcva in
        pa0 ← walkaddr pagetable va0;
        if pa0 =? 0 then mret (-1, dst)
        else
          let n := Z.min (PGSIZE - (srcva - va0)) max in
          r ← gets (fun k => copyinstr_inner (k_mem k) (pa0 + (srcva - va0)) (Z.to_nat n));
          let '(bs, got_null) := r in
          if (got_null : bool) then mret (0, dst ++ bs)
          else copyinstr_loop fuel' pagetable (u64 (va0 + PGSIZE)) (max - Z.of_nat (length bs)) (dst ++ bs)
    end
  else mret (-1, dst).

Definition copyinstr (pagetable srcva max : Z) : K (Z * list Z) :=
  copyinstr_loop (Z.to_nat max) pagetable srcva max [].

(** ** The kernel's own page table *)

(** The loop of [proc_mapstacks] ([proc.c]). *)
Fixpoint proc_mapstacks_loop (n : nat) (kpgtbl p : Z) : K unit :=
  match n with
  | O => mret ()
  | S n' =>
      pa ← kalloc;
      if pa =? 0 then panic "kalloc"
      else
        kvmmap kpgtbl (KSTACK p) pa PGSIZE (Z.lor PTE_R PTE_W);;
        proc_mapstacks_loop n' kpgtbl (p + 1)
  end.

Definition proc_mapstacks (kpgtbl : Z) : K unit :=
  proc_mapstacks_loop (Z.to_nat NPROC) kpgtbl 0.

Definition kvmmake : K Z :=
  kpgtbl ← kalloc;
  modify_mem (fun m => memset m kpgtbl 0 PGSIZE);;
  kvmmap kpgtbl UART0 UART0 PGSIZE (Z.lor PTE_R PTE_W);;
  kvmmap kpgtbl VIRTIO0 VIRTIO0 PGSIZE (Z.lor PTE_R PTE_W);;
  kvmmap kpgtbl PLIC PLIC 0x400000 (Z.lor PTE_R PTE_W);;
  kvmmap kpgtbl KERNBASE KERNBASE (etext - KERNBASE) (Z.lor PTE_R PTE_X);;
  kvmmap kpgtbl etext etext (PHYSTOP - etext) (Z.lor PTE_R PTE_W);;
  kvmmap kpgtbl TRAMPOLINE trampoline PGSIZE (Z.lor PTE_R PTE_X);;
  proc_mapstacks kpgtbl;;
  mret kpgtbl.

End vm.
