(* ===== verification/VmInv.v ===== *)
(** * Page tables in memory

    The representation of a three-level Sv39 table: [t1] gives the page of
    each level-1 table by its level-2 index, [t0] the page of each level-0
    table by its level-2 and level-1 indices. [pt_rep m t] states that the
    memory [m] holds exactly these tables. The abstract value of a table is
    the function [pte_of m t] from virtual addresses to leaf entries; the
    lemmas below are the effect of [walk] on that value. *)

From S2P Require Import Prelude Riscv Monad State Kstring Kalloc Vm.
#[local] Open Scope Z_scope.

Record ptree := mkptree {
  root : Z;
  t1 : gmap Z Z;
  t0 : gmap (Z * Z) Z
}.

Definition pt_pages (t : ptree) : list Z :=
  root t :: (map_to_list (t1 t)).*2 ++ (map_to_list (t0 t)).*2.

#[global] Arguments pt_pages : simpl never.

(** The entry at index [i] of the table at [p] leads to the table [c], or is
    invalid. *)
Definition entry_rep (m : mem) (p i : Z) (c : option Z) : Prop :=
  match c with
  | Some q => load64 m (p + 8 * i) = mkpte q 0
  | None => pte_has (load64 m (p + 8 * i)) PTE_V = false
  end.

Record pt_rep (m : mem) (t : ptree) : Prop := {
  pr_root i : 0 <= i < 512 -> entry_rep m (root t) i (t1 t !! i);
  pr_mid i p j : t1 t !! i = Some p -> 0 <= j < 512 -> entry_rep m p j (t0 t !! (i, j));
  pr_dom i j p : t0 t !! (i, j) = Some p -> is_Some (t1 t !! i);
  pr_range1 i p : t1 t !! i = Some p -> 0 <= i < 256;
  pr_range0 i j p : t0 t !! (i, j) = Some p -> 0 <= j < 512
}.

(** The address of the leaf entry of [va], where its level-0 table exists. *)
Definition slot (t : ptree) (va : Z) : option Z :=
  (fun p => p + 8 * PX 0 va) <$> t0 t !! (PX 2 va, PX 1 va).

(** The level-0 tables that [va] lacks. *)
Definition missing (t : ptree) (va : Z) : nat :=
  match slot t va with
  | Some _ => 0
  | None => 1
  end.

(** The leaf entry of [va]. *)
Definition pte_of (m : mem) (t : ptree) (va : Z) : Z :=
  match slot t va with
  | Some s => load64 m s
  | None => 0
  end.

(** A kernel state with a table and the free list, on disjoint pages. *)
Record vm_inv {L : Layout} (k : kernel) (t : ptree) (l : list Z) : Prop := {
  vi_free : free_pages k l;
  vi_rep : pt_rep (k_mem k) t;
  vi_ok : Forall page_ok (pt_pages t);
  vi_nodup : NoDup (pt_pages t ++ l);
  vi_lock : KmemLock ∉ k_held k
}.

#[local] Opaque memset store64 load64 kalloc.

Section proofs.
Context {L : Layout} {LOk : LayoutOk L}.
Implicit Types (m : mem) (t : ptree).

(** ** Pages of a table *)

Lemma pt_pages_root t : root t ∈ pt_pages t.
Proof. apply list_elem_of_here. Qed.

Lemma pt_pages_t1 t i p : t1 t !! i = Some p -> p ∈ pt_pages t.
Proof.
  intros Hi. apply list_elem_of_further, elem_of_app. left.
  apply list_elem_of_fmap. exists (i, p). split; [done|]. by apply elem_of_map_to_list.
Qed.

Lemma pt_pages_t0 t i p : t0 t !! i = Some p -> p ∈ pt_pages t.
Proof.
  intros Hi. apply list_elem_of_further, elem_of_app. right.
  apply list_elem_of_fmap. exists (i, p). split; [done|]. by apply elem_of_map_to_list.
Qed.

Lemma NoDup_map_to_list_inj {Kt : Type} `{Countable Kt} (M : gmap Kt Z) i j p :
  NoDup (map_to_list M).*2 -> M !! i = Some p -> M !! j = Some p -> i = j.
Proof.
  intros Hn Hi Hj. apply elem_of_map_to_list in Hi, Hj.
  apply list_elem_of_lookup in Hi as [a Ha], Hj as [b Hb].
  assert (a = b) as ->; [|congruence].
  eapply NoDup_lookup; [exact Hn| |]; rewrite list_lookup_fmap; [rewrite Ha|rewrite Hb]; done.
Qed.

(** Distinct tables are on distinct pages. *)
Lemma pt_nodup_inv t :
  NoDup (pt_pages t) ->
  (forall i p, t1 t !! i = Some p -> p <> root t) /\
  (forall i p, t0 t !! i = Some p -> p <> root t) /\
  (forall i j p, t1 t !! i = Some p -> t0 t !! j = Some p -> False) /\
  (forall i j p, t1 t !! i = Some p -> t1 t !! j = Some p -> i = j) /\
  (forall i j p, t0 t !! i = Some p -> t0 t !! j = Some p -> i = j).
Proof.
  unfold pt_pages. intros [Hr (H1 & Hd & H0)%NoDup_app]%NoDup_cons.
  assert (forall i p, t1 t !! i = Some p -> p ∈ (map_to_list (t1 t)).*2) as E1.
  { intros i p Hi. apply list_elem_of_fmap. exists (i, p). by rewrite elem_of_map_to_list. }
  assert (forall i p, t0 t !! i = Some p -> p ∈ (map_to_list (t0 t)).*2) as E0.
  { intros i p Hi. apply list_elem_of_fmap. exists (i, p). by rewrite elem_of_map_to_list. }
  split_and!.
  - intros i p Hi ->. apply Hr, elem_of_app. left. eauto.
  - intros i p Hi ->. apply Hr, elem_of_app. right. eauto.
  - intros i j p Hi Hj. by apply (Hd p); eauto.
  - intros i j p. by apply NoDup_map_to_list_inj.
  - intros i j p. by apply NoDup_map_to_list_inj.
Qed.

(** ** Entries of distinct pages and indices do not overlap *)

Lemma entry_in_page p i a : 0 <= i < 512 -> p + 8 * i <= a < p + 8 * i + 8 -> in_page p a.
Proof. unfold in_page, PGSIZE. lia. Qed.

Lemma entries_disjoint p i q j :
  p mod PGSIZE = 0 -> q mod PGSIZE = 0 -> 0 <= i < 512 -> 0 <= j < 512 ->
  p <> q \/ i <> j -> q + 8 * j + 8 <= p + 8 * i \/ p + 8 * i + 8 <= q + 8 * j.
Proof. unfold PGSIZE. intros. dlia. Qed.

Lemma load64_page_ext m m' p i :
  0 <= i < 512 -> (forall a, in_page p a -> load8 m' a = load8 m a) ->
  load64 m' (p + 8 * i) = load64 m (p + 8 * i).
Proof. intros Hi Hm. apply load64_ext. intros a Ha. by apply Hm, (entry_in_page p i). Qed.

Lemma entry_rep_eq m m' p i c :
  load64 m' (p + 8 * i) = load64 m (p + 8 * i) -> entry_rep m p i c -> entry_rep m' p i c.
Proof. unfold entry_rep. by intros ->. Qed.

(** Memory changes outside the table's pages keep the table. *)
Lemma pt_rep_ext m m' t :
  (forall p a, p ∈ pt_pages t -> in_page p a -> load8 m' a = load8 m a) ->
  pt_rep m t -> pt_rep m' t.
Proof.
  intros Hm [Hr Hmid Hd Hr1 Hr0]. split; [| |done..].
  - intros i Hi. apply (entry_rep_eq m); [|by apply Hr].
    apply load64_page_ext; [done|]. intros a. apply Hm, pt_pages_root.
  - intros i p j Hp Hj. apply (entry_rep_eq m); [|by apply (Hmid i)].
    apply load64_page_ext; [done|]. intros a. apply Hm. by eapply pt_pages_t1.
Qed.

Lemma slot_range t va s :
  Forall page_ok (pt_pages t) -> slot t va = Some s -> 0 < s < 2^56.
Proof.
  unfold slot. intros Hok Hs. destruct (t0 t !! _) as [p|] eqn:E; [|done]. simpl in Hs.
  injection Hs as <-. apply pt_pages_t0 in E. eapply Forall_forall in E; [|exact Hok].
  pose proof (page_ok_range p E). pose proof (PX_bound 0 va). unfold PGSIZE in *. lia.
Qed.

Lemma slot_page t va va' : va / PGSIZE = va' / PGSIZE -> slot t va = slot t va'.
Proof. intros Hp. unfold slot. by rewrite !(PX_page _ va va') by done. Qed.

Lemma pte_of_page m t va va' : va / PGSIZE = va' / PGSIZE -> pte_of m t va = pte_of m t va'.
Proof. intros Hp. unfold pte_of. by rewrite (slot_page t va va'). Qed.

(** A slot determines its virtual page. *)
Lemma slot_inj t va va' s :
  NoDup (pt_pages t) -> Forall page_ok (pt_pages t) -> 0 <= va < MAXVA -> 0 <= va' < MAXVA ->
  slot t va = Some s -> slot t va' = Some s -> va / PGSIZE = va' / PGSIZE.
Proof.
  intros Hn Hok Hva Hva'. unfold slot.
  destruct (t0 t !! (PX 2 va, _)) as [p|] eqn:E; [|done].
  destruct (t0 t !! (PX 2 va', _)) as [q|] eqn:E'; [|done]. simpl. intros [= <-] [= Hs].
  pose proof (PX_bound 0 va). pose proof (PX_bound 0 va').
  assert (p mod PGSIZE = 0) as Hp.
  { apply page_ok_aligned. eapply Forall_forall; [exact Hok|by eapply pt_pages_t0]. }
  assert (q mod PGSIZE = 0) as Hq.
  { apply page_ok_aligned. eapply Forall_forall; [exact Hok|by eapply pt_pages_t0]. }
  assert (p = q) as -> by (unfold PGSIZE in *; dlia).
  apply pt_nodup_inv in Hn as (_ & _ & _ & _ & Hinj).
  pose proof (Hinj _ _ _ E E') as [= H2 H1]. apply PX_inj; [done|done|done|done|lia].
Qed.

Lemma pt_rep_root_fresh m p : (forall a, in_page p a -> load8 m a = 0) -> pt_rep m (mkptree p ∅ ∅).
Proof.
  intros Hz. split; simpl; [|done..]. intros i Hi. rewrite lookup_empty. simpl.
  assert (load64 m (p + 8 * i) = 0) as ->; [|apply pte_has_0].
  rewrite (load64_page_ext ∅ m p i); [done|done|]. intros a Ha. by rewrite Hz.
Qed.

(** ** Writing a leaf entry *)

Lemma store_slot_spec m t va s v :
  pt_rep m t -> NoDup (pt_pages t) -> Forall page_ok (pt_pages t) ->
  0 <= va < MAXVA -> slot t va = Some s -> 0 <= v < 2^64 ->
  pt_rep (store64 m s v) t /\
  (forall va', 0 <= va' < MAXVA ->
     pte_of (store64 m s v) t va' = if decide (va' / PGSIZE = va / PGSIZE) then v else pte_of m t va') /\
  (forall a, (forall p, p ∈ pt_pages t -> ~ in_page p a) -> load8 (store64 m s v) a = load8 m a).
Proof.
  intros Hrep Hn Hok Hva Hs Hv. pose proof Hs as Hs'. unfold slot in Hs'.
  destruct (t0 t !! _) as [p0|] eqn:E0; [|done]. simpl in Hs'. injection Hs' as Hs'.
  pose proof (PX_bound 0 va) as Hb.
  assert (forall p, p ∈ pt_pages t -> p mod PGSIZE = 0) as Hal.
  { intros p Hp. apply page_ok_aligned. by eapply Forall_forall. }
  pose proof (pt_nodup_inv t Hn) as (_ & Hr0 & H10 & _ & H00).
  pose proof (pt_pages_t0 t _ _ E0) as Hp0.
  split_and!.
  - destruct Hrep as [Hr Hm Hd Hg1 Hg0]. split; [| |done..].
    + intros i Hi. apply (entry_rep_eq m); [|by apply Hr]. apply load64_store64_ne. rewrite <- Hs'.
      apply entries_disjoint; [by apply Hal|apply Hal, pt_pages_root|lia|done|]. left. by eapply Hr0.
    + intros i p j Hp Hj. apply (entry_rep_eq m); [|by apply (Hm i)].
      apply load64_store64_ne. rewrite <- Hs'.
      apply entries_disjoint; [by apply Hal|by eapply Hal, pt_pages_t1|lia|done|].
      left. intros ->. by eapply H10.
  - intros va' Hva'. unfold pte_of. case_decide as Hpg.
    + rewrite (slot_page t va' va), Hs by done. by apply load64_store64_eq.
    + destruct (slot t va') as [s'|] eqn:Es'; [|done]. apply load64_store64_ne. rewrite <- Hs'.
      unfold slot in Es'. destruct (t0 t !! (PX 2 va', _)) as [q|] eqn:Eq; [|done]. simpl in Es'.
      injection Es' as <-. pose proof (PX_bound 0 va').
      apply entries_disjoint; [by apply Hal|by eapply Hal, pt_pages_t0|lia|lia|].
      destruct (decide (p0 = q)) as [->|]; [right|by left]. intros HPX.
      pose proof (H00 _ _ _ E0 Eq) as [= H2 H1]. apply Hpg. symmetry.
      by apply PX_inj.
  - intros a Ha. apply load8_store64_ne. intros Hin. apply (Ha p0); [done|].
    apply (entry_in_page p0 (PX 0 va)); [lia|]. by rewrite Hs'.
Qed.

(** ** Linking a fresh table into an entry *)

Definition link (m : mem) (p i q : Z) : mem :=
  store64 (memset (memset m q 5 PGSIZE) q 0 PGSIZE) (p + 8 * i) (mkpte q 0).

Lemma mkpte_0 p : Z.lor (PA2PTE p) PTE_V = mkpte p 0.
Proof. unfold mkpte. by rewrite Z.lor_0_r. Qed.

Lemma mkpte_u64 q perm : page_ok q -> 0 <= perm < 2^10 -> 0 <= mkpte q perm < 2^64.
Proof.
  intros Hq Hp. pose proof (page_ok_range q Hq). unfold PGSIZE in *.
  pose proof (mkpte_bound q perm). lia.
Qed.

Lemma PTE2PA_page q perm : page_ok q -> 0 <= perm < 2^10 -> PTE2PA (mkpte q perm) = q.
Proof.
  intros Hq Hp. pose proof (page_ok_range q Hq). unfold PGSIZE in *.
  apply PTE2PA_mkpte; [by apply page_ok_aligned|lia|done].
Qed.

Lemma link_entry m p i q : page_ok q -> load64 (link m p i q) (p + 8 * i) = mkpte q 0.
Proof. intros. apply load64_store64_eq, mkpte_u64; [done|lia]. Qed.

Lemma link_fresh m p i q a :
  page_ok p -> page_ok q -> p <> q -> 0 <= i < 512 -> in_page q a -> load8 (link m p i q) a = 0.
Proof.
  intros Hp Hq Hne Hi Ha. unfold link. rewrite load8_store64_ne.
  - rewrite load8_memset, decide_True; done.
  - intros Hin. apply Hne. apply (page_ok_disjoint p q a); [done|done| |done].
    by apply (entry_in_page p i).
Qed.

Lemma link_other m p i q r j :
  page_ok p -> page_ok q -> page_ok r -> r <> q -> 0 <= i < 512 -> 0 <= j < 512 -> p <> r \/ i <> j ->
  load64 (link m p i q) (r + 8 * j) = load64 m (r + 8 * j).
Proof.
  intros Hp Hq Hr Hne Hi Hj Hor. unfold link. rewrite load64_store64_ne.
  - apply load64_ext. intros a Ha.
    assert (~ in_page q a) as Hnq.
    { intros Hq'. apply Hne. apply (page_ok_disjoint r q a); [done|done| |done].
      by apply (entry_in_page r j). }
    unfold in_page in Hnq. by rewrite !load8_memset, !decide_False.
  - apply entries_disjoint; by eauto using page_ok_aligned.
Qed.

Lemma link_outside m p i q a :
  0 <= i < 512 -> ~ in_page p a -> ~ in_page q a -> load8 (link m p i q) a = load8 m a.
Proof.
  intros Hi Hp Hq. unfold link. rewrite load8_store64_ne.
  - unfold in_page in Hq. by rewrite !load8_memset, !decide_False.
  - intros Hin. apply Hp. by apply (entry_in_page p i).
Qed.

(** ** Growing a table *)

(** From [k] to [k'] the table [t] becomes [t'] with the leaf entries [f],
    taking the pages it needs from the free list; nothing else changes. *)
Record pt_upd (k : kernel) (t : ptree) (l : list Z) (k' : kernel) (t' : ptree) (l' : list Z)
    (f : Z -> Z) : Prop := {
  pg_inv : vm_inv k' t' l';
  pg_root : root t' = root t;
  pg_slot va s : slot t va = Some s -> slot t' va = Some s;
  pg_pte va : 0 <= va < MAXVA -> pte_of (k_mem k') t' va = f va;
  pg_perm : pt_pages t' ++ l' ≡ₚ pt_pages t ++ l;
  pg_suffix : l' `suffix_of` l;
  pg_mem a : (forall p, p ∈ pt_pages t' -> ~ in_page p a) -> load8 (k_mem k') a = load8 (k_mem k) a;
  pg_frame : mem_only k k'
}.

(** The table gets new inner tables, its leaf entries stay. *)
Definition pt_grow (k : kernel) (t : ptree) (l : list Z) (k' : kernel) (t' : ptree) (l' : list Z) : Prop :=
  pt_upd k t l k' t' l' (pte_of (k_mem k) t).

Lemma pt_grow_refl k t l : vm_inv k t l -> pt_grow k t l k t l.
Proof. intros. split; done. Qed.

Lemma pt_upd_pages k t l k' t' l' f p : pt_upd k t l k' t' l' f -> p ∈ pt_pages t -> p ∈ pt_pages t'.
Proof.
  intros Hg Hp. pose proof (pg_perm _ _ _ _ _ _ _ Hg) as Hperm.
  assert (p ∈ pt_pages t' ++ l') as Hin by (rewrite Hperm; apply elem_of_app; by left).
  apply elem_of_app in Hin as [?|Hl]; [done|exfalso].
  assert (NoDup (pt_pages t ++ l)) as Hn by (rewrite <- Hperm; apply (vi_nodup _ _ _ (pg_inv _ _ _ _ _ _ _ Hg))).
  apply NoDup_app in Hn as (_ & Hd & _). apply (Hd p Hp).
  destruct (pg_suffix _ _ _ _ _ _ _ Hg) as [np ->]. apply elem_of_app. by right.
Qed.

Lemma pt_upd_trans k1 u1 l1 k2 u2 l2 k3 u3 l3 f g :
  pt_upd k1 u1 l1 k2 u2 l2 f -> pt_upd k2 u2 l2 k3 u3 l3 g -> pt_upd k1 u1 l1 k3 u3 l3 g.
Proof.
  intros G1 G2. pose proof G1 as [I1 R1 S1 P1 Q1 F1 M1 (ma & fa & E1)].
  pose proof G2 as [I2 R2 S2 P2 Q2 F2 M2 (mb & fb & E2)]. split.
  - done.
  - congruence.
  - auto.
  - done.
  - by rewrite Q2.
  - by transitivity l2.
  - intros a Ha. rewrite M2 by done. apply M1. intros p Hp. apply Ha.
    by eapply (pt_upd_pages _ _ _ _ _ _ _ _ G2).
  - subst. by exists mb, fb.
Qed.

Lemma pt_upd_pte k t l k' t' l' f g :
  pt_upd k t l k' t' l' f -> (forall va, 0 <= va < MAXVA -> f va = g va) -> pt_upd k t l k' t' l' g.
Proof. intros [] Hfg. split; try done. intros va Hva. rewrite <- Hfg by done. auto. Qed.

Lemma pt_grow_trans k1 u1 l1 k2 u2 l2 k3 u3 l3 :
  pt_grow k1 u1 l1 k2 u2 l2 -> pt_grow k2 u2 l2 k3 u3 l3 -> pt_grow k1 u1 l1 k3 u3 l3.
Proof.
  intros G1 G2. eapply pt_upd_pte; [by eapply pt_upd_trans|]. apply (pg_pte _ _ _ _ _ _ _ G1).
Qed.

(** The state after [walk] has allocated [q] for entry [i] of table [p]. *)
Lemma walk_level_alloc k t p level va q l :
  vm_inv k t (q :: l) -> p ∈ pt_pages t -> 0 <= level ->
  pte_has (load64 (k_mem k) (p + 8 * PX level va)) PTE_V = false ->
  exists nx, let k' := set_freelist nx (set_mem (link (k_mem k) p (PX level va) q) k) in
    walk_level level va true p k = Ret (Some q) k' /\ free_pages k' l.
Proof.
  intros [Hf Hr Hok Hn Hlk] Hp Hlev Hpte.
  destruct (kalloc_cons_spec k q l Hf Hlk) as (nx & Hrun & Hf' & _).
  assert (page_ok q) as Hq by (by eapply free_pages_nonzero, list_elem_of_here).
  assert (page_ok p) as Hpok by by eapply Forall_forall.
  pose proof (page_ok_range q Hq) as Hqr.
  pose proof (PX_bound level va Hlev) as Hb.
  exists nx. intros k'. split.
  - unfold walk_level. cbv zeta. kpure. rewrite Hpte. cbn [negb].
    erewrite bind_eq by exact Hrun. cbv beta. rewrite (proj2 (Z.eqb_neq q 0)) by lia.
    rewrite mkpte_0. kpure. kpure. ksimp. reflexivity.
  - apply (free_pages_ext (set_freelist nx (set_mem (memset (k_mem k) q 5 PGSIZE) k))); [by ksimp| |exact Hf'].
    intros r a Hr' Ha. assert (page_ok r) as Hrok by by eapply free_pages_nonzero.
    assert (~ in_page p a) as Hnp.
    { intros Hin. assert (r = p) as -> by by apply (page_ok_disjoint r p a).
      apply NoDup_app in Hn as (_ & Hd & _). apply (Hd p Hp). by apply list_elem_of_further. }
    assert (~ in_page q a) as Hnq.
    { intros Hin. assert (r = q) as -> by by apply (page_ok_disjoint r q a).
      by apply fp_nodup, NoDup_cons in Hf as [? _]. }
    unfold k'. ksimp. rewrite link_outside by done. by rewrite load8_memset, decide_False.
Qed.

#[local] Opaque link.

(** The entry of [t] that the fresh page [q] is linked into. *)
Lemma vm_inv_link k t l q p i nx t' :
  vm_inv k t (q :: l) -> p ∈ pt_pages t -> 0 <= i < 512 ->
  let k' := set_freelist nx (set_mem (link (k_mem k) p i q) k) in
  free_pages k' l -> pt_rep (k_mem k') t' -> root t' = root t -> pt_pages t' ≡ₚ q :: pt_pages t ->
  (forall va, slot t va <> None -> slot t' va = slot t va) ->
  (forall va, slot t va = None -> pte_of (k_mem k') t' va = 0) ->
  (forall j p0, t0 t !! j = Some p0 -> p0 <> p) ->
  pt_grow k t (q :: l) k' t' l.
Proof.
  intros Hinv Hp Hi k' Hf Hrep Hroot Hpg Hslot Hnew Hleaf. pose proof Hinv as [Hf0 Hr0 Hok Hn Hlk].
  assert (page_ok q) as Hq by (by eapply free_pages_nonzero, list_elem_of_here).
  assert (page_ok p) as Hpok by by eapply Forall_forall.
  assert (q ∉ pt_pages t) as Hqt.
  { intros Hin. apply NoDup_app in Hn as (_ & Hd & _). apply (Hd q Hin), list_elem_of_here. }
  assert (pt_pages t' ++ l ≡ₚ pt_pages t ++ q :: l) as Hperm.
  { rewrite Hpg. by rewrite <- Permutation_middle. }
  split.
  - split; [done|done| |by rewrite Hperm|done]. rewrite Hpg. by constructor.
  - done.
  - intros va s Hs. rewrite Hslot; by rewrite Hs.
  - intros va _. destruct (slot t va) as [s|] eqn:Es.
    + unfold pte_of. rewrite Hslot, Es by (by rewrite Es). unfold k'. ksimp.
      unfold slot in Es. destruct (t0 t !! _) as [p0|] eqn:E0; [|done]. simpl in Es. injection Es as <-.
      pose proof (pt_pages_t0 _ _ _ E0) as Hin. pose proof (PX_bound 0 va).
      apply link_other; [done|done|by eapply Forall_forall|by intros ->|done|lia|].
      left. intros ->. by eapply Hleaf.
    + rewrite Hnew by done. unfold pte_of. by rewrite Es.
  - done.
  - by exists [q].
  - intros a Ha. unfold k'. ksimp. apply link_outside; [done| |]; apply Ha; rewrite Hpg.
    + by apply list_elem_of_further.
    + apply list_elem_of_here.
  - by eexists _, _.
Qed.

Lemma map_to_list_insert_snd {Kt : Type} `{Countable Kt} (M : gmap Kt Z) i q :
  M !! i = None -> (map_to_list (<[i:=q]> M)).*2 ≡ₚ q :: (map_to_list M).*2.
Proof. intros Hi. by rewrite map_to_list_insert. Qed.

(** A fresh table holds no valid entry. *)
Lemma entry_rep_zero m q j : 0 <= j < 512 -> (forall a, in_page q a -> load8 m a = 0) -> entry_rep m q j None.
Proof.
  intros Hj Hz. simpl. rewrite (load64_page_ext ∅ m q j); [|done|intros; by rewrite Hz].
  replace (load64 ∅ (q + 8 * j)) with 0; [apply pte_has_0|]. symmetry. done.
Qed.

Lemma pt_grow_mid k t l q i nx :
  vm_inv k t (q :: l) -> 0 <= i < 256 -> t1 t !! i = None ->
  let k' := set_freelist nx (set_mem (link (k_mem k) (root t) i q) k) in
  free_pages k' l -> pt_grow k t (q :: l) k' (mkptree (root t) (<[i:=q]> (t1 t)) (t0 t)) l.
Proof.
  intros Hinv Hi Hnone k' Hf. assert (0 <= i < 512) as Hi' by lia. pose proof Hinv as [Hf0 Hr0 Hok Hn Hlk].
  assert (page_ok q) as Hq by (by eapply free_pages_nonzero, list_elem_of_here).
  assert (forall p, p ∈ pt_pages t -> page_ok p /\ p <> q) as Hpq.
  { intros p Hp. split; [by eapply Forall_forall|]. intros ->.
    apply NoDup_app in Hn as (_ & Hd & _). apply (Hd q Hp), list_elem_of_here. }
  apply NoDup_app in Hn as (Hn & _ & _). pose proof (pt_nodup_inv t Hn) as (H1r & H0r & _).
  destruct (Hpq _ (pt_pages_root t)) as [Hrok Hrq]. pose proof Hr0 as [Hr Hm Hd Hg1 Hg0].
  apply vm_inv_link; simpl; try done; [apply pt_pages_root| | |].
  - split; simpl.
    + intros j Hj. unfold k'. ksimp. destruct (decide (i = j)) as [<-|Hne].
      * rewrite lookup_insert_eq. simpl. by apply link_entry.
      * rewrite lookup_insert_ne by done. apply (entry_rep_eq (k_mem k)); [|by apply Hr].
        apply link_other; auto.
    + intros j p i0 Hp Hi0. unfold k'. ksimp. apply lookup_insert_Some in Hp as [[<- <-]|[Hne Hp]].
      * destruct (t0 t !! (i, i0)) as [p0|] eqn:E0.
        { apply Hd in E0. rewrite Hnone in E0. by destruct E0. }
        apply entry_rep_zero; [done|]. intros a Ha. by apply link_fresh.
      * destruct (Hpq p) as [? ?]; [by eapply pt_pages_t1|].
        apply (entry_rep_eq (k_mem k)); [|by apply (Hm j)].
        apply link_other; auto. left. intros <-. by eapply H1r.
    + intros i0 j p Hp. apply Hd in Hp. destruct (decide (i = i0)) as [<-|].
      * rewrite lookup_insert_eq. eauto.
      * by rewrite lookup_insert_ne.
    + intros j p Hp. apply lookup_insert_Some in Hp as [[<- _]|[_ Hp]]; [done|by eapply Hg1].
    + done.
  - unfold pt_pages. simpl. rewrite map_to_list_insert_snd by done. apply Permutation_swap.
  - intros va Hs. unfold slot in Hs. unfold pte_of, slot. simpl. by destruct (t0 t !! _).
Qed.

Lemma pt_grow_leaf k t l q i p j nx :
  vm_inv k t (q :: l) -> 0 <= j < 512 -> t1 t !! i = Some p -> t0 t !! (i, j) = None ->
  let k' := set_freelist nx (set_mem (link (k_mem k) p j q) k) in
  free_pages k' l -> pt_grow k t (q :: l) k' (mkptree (root t) (t1 t) (<[(i, j):=q]> (t0 t))) l.
Proof.
  intros Hinv Hj Hp Hnone k' Hf. pose proof Hinv as [Hf0 Hr0 Hok Hn Hlk].
  assert (page_ok q) as Hq by (by eapply free_pages_nonzero, list_elem_of_here).
  assert (forall p, p ∈ pt_pages t -> page_ok p /\ p <> q) as Hpq.
  { intros p' Hp'. split; [by eapply Forall_forall|]. intros ->.
    apply NoDup_app in Hn as (_ & Hd & _). apply (Hd q Hp'), list_elem_of_here. }
  apply NoDup_app in Hn as (Hn & _ & _). pose proof (pt_nodup_inv t Hn) as (H1r & H0r & H10 & H11 & _).
  destruct (Hpq _ (pt_pages_root t)) as [Hrok Hrq]. destruct (Hpq _ (pt_pages_t1 _ _ _ Hp)) as [Hpok Hpne].
  pose proof Hr0 as [Hr Hm Hd Hg1 Hg0].
  apply vm_inv_link; simpl; try done; [by eapply pt_pages_t1| | | | |].
  - split; simpl.
    + intros i0 Hi0. unfold k'. ksimp. apply (entry_rep_eq (k_mem k)); [|by apply Hr].
      apply link_other; auto. left. by eapply H1r.
    + intros i0 p' j0 Hp' Hj0. unfold k'. ksimp. destruct (decide ((i, j) = (i0, j0))) as [[= <- <-]|Hne].
      * rewrite lookup_insert_eq. simpl. assert (p' = p) as -> by congruence. by apply link_entry.
      * rewrite lookup_insert_ne by done. destruct (Hpq p') as [? ?]; [by eapply pt_pages_t1|].
        apply (entry_rep_eq (k_mem k)); [|by apply (Hm i0)].
        apply link_other; auto. destruct (decide (p = p')) as [<-|]; [right|by left].
        intros <-. apply Hne. f_equal. by eapply H11.
    + intros i0 j0 p' Hp'. apply lookup_insert_Some in Hp' as [[[= <- <-] <-]|[Hne Hp']]; eauto.
    + done.
    + intros i0 j0 p' Hp'. apply lookup_insert_Some in Hp' as [[[= <- <-] <-]|[Hne Hp']]; eauto.
  - unfold pt_pages. simpl. rewrite map_to_list_insert_snd by done.
    rewrite <- Permutation_middle. apply Permutation_swap.
  - intros va Hs. unfold slot in *. simpl. destruct (decide ((i, j) = (PX 2 va, PX 1 va))) as [E|].
    + by rewrite <- E, Hnone in Hs.
    + by rewrite lookup_insert_ne.
  - intros va Hs. unfold pte_of, slot in *. simpl.
    destruct (decide ((i, j) = (PX 2 va, PX 1 va))) as [E|].
    + rewrite <- E, lookup_insert_eq. simpl. unfold k'. ksimp. pose proof (PX_bound 0 va).
      rewrite (load64_page_ext ∅ _ q (PX 0 va)); [|lia|]; [done|].
      intros a Ha. by rewrite link_fresh.
    + rewrite lookup_insert_ne by done. by rewrite Hs.
  - intros j0 p0 H0 ->. by eapply H10.
Qed.

(** ** [walk] *)

Lemma walk_level_found level va alloc p q k :
  page_ok q -> load64 (k_mem k) (p + 8 * PX level va) = mkpte q 0 ->
  walk_level level va alloc p k = Ret (Some q) k.
Proof.
  intros Hq Hl. unfold walk_level. cbv zeta. kpure. rewrite Hl, pte_has_mkpte_V, PTE2PA_page by (done || lia).
  done.
Qed.

Lemma walk_level_absent level va p k :
  pte_has (load64 (k_mem k) (p + 8 * PX level va)) PTE_V = false ->
  walk_level level va false p k = Ret None k.
Proof. intros Hl. unfold walk_level. cbv zeta. kpure. rewrite Hl. done. Qed.

Lemma walk_level_full level va p k :
  free_pages k [] -> KmemLock ∉ k_held k ->
  pte_has (load64 (k_mem k) (p + 8 * PX level va)) PTE_V = false ->
  walk_level level va true p k = Ret None k.
Proof.
  intros Hf Hlk Hl. unfold walk_level. cbv zeta. kpure. rewrite Hl. cbn [negb].
  kcall kalloc_nil_spec. done.
Qed.

Lemma walk_eq pagetable va alloc k :
  va < MAXVA ->
  walk pagetable va alloc k =
  (o1 ← walk_level 2 va alloc pagetable;
   match o1 with
   | None => mret 0
   | Some p1 =>
       o0 ← walk_level 1 va alloc p1;
       match o0 with None => mret 0 | Some p0 => mret (p0 + 8 * PX 0 va) end
   end) k.
Proof. intros. unfold walk. by rewrite (proj2 (Z.leb_gt _ _)). Qed.

Lemma walk_lookup k t va :
  pt_rep (k_mem k) t -> Forall page_ok (pt_pages t) -> 0 <= va < MAXVA ->
  walk (root t) va false k = Ret (default 0 (slot t va)) k.
Proof.
  intros [Hr Hm Hd _ _] Hok Hva. rewrite walk_eq by lia.
  pose proof (PX_bound 2 va) as H2. pose proof (PX_bound 1 va) as H1.
  specialize (Hr (PX 2 va) ltac:(lia)). unfold slot.
  destruct (t1 t !! PX 2 va) as [p1|] eqn:E1; simpl in Hr.
  - assert (page_ok p1) by (eapply Forall_forall; [exact Hok|by eapply pt_pages_t1]).
    kcall walk_level_found. specialize (Hm _ _ (PX 1 va) E1 ltac:(lia)).
    destruct (t0 t !! (PX 2 va, PX 1 va)) as [p0|] eqn:E0; simpl in Hm.
    + assert (page_ok p0) by (eapply Forall_forall; [exact Hok|by eapply pt_pages_t0]).
      kcall walk_level_found. done.
    + kcall walk_level_absent. done.
  - kcall walk_level_absent. destruct (t0 t !! (PX 2 va, PX 1 va)) as [p0|] eqn:E0; [|done].
    apply Hd in E0. rewrite E1 in E0. by destruct E0.
Qed.

(** The second level of [walk] with [alloc]. *)
Lemma walk_alloc_leaf k t l va p1 :
  vm_inv k t l -> 0 <= va < MAXVA -> t1 t !! PX 2 va = Some p1 ->
  exists r k' t' l',
    (o0 ← walk_level 1 va true p1;
     match o0 with None => mret 0 | Some p0 => mret (p0 + 8 * PX 0 va) end) k = Ret r k' /\
    pt_grow k t l k' t' l' /\
    slot t' va = (if decide (r = 0) then None else Some r) /\ (r = 0 -> l' = []) /\ (length l <= length l' + missing t va)%nat.
Proof.
  intros Hinv Hva E1. pose proof Hinv as [Hf Hr Hok Hn Hlk].
  pose proof (PX_bound 2 va) as H2. pose proof (PX_bound 1 va) as H1. pose proof (PX_bound 0 va) as H0.
  pose proof (pr_mid _ _ Hr _ _ (PX 1 va) E1 ltac:(lia)) as He.
  destruct (t0 t !! (PX 2 va, PX 1 va)) as [p0|] eqn:E0; simpl in He.
  - assert (page_ok p0) as Hp0 by (eapply Forall_forall; [exact Hok|by eapply pt_pages_t0]).
    pose proof (page_ok_range p0 Hp0). exists (p0 + 8 * PX 0 va), k, t, l.
    kcall walk_level_found. split_and!; [done|by apply pt_grow_refl| |lia|lia].
    unfold slot. rewrite E0, decide_False by lia. done.
  - destruct l as [|q l].
    + exists 0, k, t, []. kcall walk_level_full. split_and!; [done|by apply pt_grow_refl| |done|simpl; lia].
      unfold slot. by rewrite E0.
    + destruct (walk_level_alloc k t p1 1 va q l Hinv) as (nx & Hrun & Hf'); [by eapply pt_pages_t1|lia|done|].
      assert (page_ok q) as Hq by (by eapply free_pages_nonzero, list_elem_of_here).
      pose proof (page_ok_range q Hq).
      eexists _, _, _, _. erewrite bind_eq by exact Hrun. split_and!; [reflexivity| | | |].
      * apply (pt_grow_leaf _ _ _ _ (PX 2 va) p1 (PX 1 va) nx); auto with lia.
      * unfold slot. simpl. rewrite lookup_insert_eq, decide_False by lia. done.
      * lia.
      * unfold missing, slot. rewrite E0. simpl. lia.
Qed.

Lemma walk_alloc k t l va :
  vm_inv k t l -> 0 <= va < MAXVA ->
  exists r k' t' l',
    walk (root t) va true k = Ret r k' /\ pt_grow k t l k' t' l' /\
    slot t' va = (if decide (r = 0) then None else Some r) /\ (r = 0 -> l' = []) /\ (length l <= length l' + 2 * missing t va)%nat.
Proof.
  intros Hinv Hva. pose proof Hinv as [Hf Hr Hok Hn Hlk]. rewrite walk_eq by lia.
  pose proof (PX_bound 2 va) as H2. pose proof (pr_root _ _ Hr (PX 2 va) ltac:(lia)) as He.
  destruct (t1 t !! PX 2 va) as [p1|] eqn:E1; simpl in He.
  - assert (page_ok p1) as Hp1 by (eapply Forall_forall; [exact Hok|by eapply pt_pages_t1]).
    kcall walk_level_found. destruct (walk_alloc_leaf k t l va p1) as (r & k2 & u2 & l2 & Hrun & Hg & Hs & Hz & Hlen);
      [done..|]. exists r, k2, u2, l2. split_and!; [done..|lia].
  - assert (slot t va = None) as Hnone.
    { unfold slot. destruct (t0 t !! (PX 2 va, PX 1 va)) eqn:E0; [|done]. apply (pr_dom _ _ Hr) in E0. rewrite E1 in E0. by destruct E0. }
    destruct l as [|q l].
    + exists 0, k, t, []. kcall walk_level_full. split_and!; [done|by apply pt_grow_refl|done|done|simpl; lia].
    + destruct (walk_level_alloc k t (root t) 2 va q l Hinv) as (nx & Hrun & Hf');
        [apply pt_pages_root|lia|done|].
      erewrite bind_eq by exact Hrun. cbv beta.
      pose proof (pt_grow_mid k t l q (PX 2 va) nx Hinv (PX2_bound va Hva) E1 Hf') as Hg.
      destruct (walk_alloc_leaf _ _ l va q (pg_inv _ _ _ _ _ _ _ Hg) Hva) as (r & k2 & t2 & l2 & Hr2 & Hg2 & Hs & Hz & Hlen).
      { apply lookup_insert_eq. }
      exists r, k2, t2, l2. split_and!; [exact Hr2|by eapply pt_grow_trans|done|done|].
      assert (missing t va = 1%nat) as -> by (unfold missing; by rewrite Hnone). unfold missing in Hlen. destruct (slot _ va); simpl; lia.
Qed.

End proofs.
