(* ===== verification/VmMap.v ===== *)
(** * Mapping and unmapping

    The effect of [mappages], [uvmunmap] and [walkaddr] on the leaf entries
    of a table, from the lemmas on [walk] of [VmInv]. *)

From S2P Require Import Prelude Riscv Monad State Kstring Kalloc Vm VmInv.
#[local] Open Scope Z_scope.

#[local] Opaque memset memmove store64 load64 kalloc kfree walk link.

Section proofs.
Context {L : Layout} {LOk : LayoutOk L}.
Implicit Types (m : mem) (t : ptree).

Lemma pt_upd_store k t l va s v :
  vm_inv k t l -> 0 <= va < MAXVA -> slot t va = Some s -> 0 <= v < 2^64 ->
  pt_upd k t l (set_mem (store64 (k_mem k) s v) k) t l
    (fun va' => if decide (va' / PGSIZE = va / PGSIZE) then v else pte_of (k_mem k) t va').
Proof.
  intros [Hf Hr Hok Hn Hlk] Hva Hs Hv. pose proof Hn as (Hnt & Hd & _)%NoDup_app.
  destruct (store_slot_spec (k_mem k) t va s v) as (Hr' & Hpte & Hmem); try done.
  split; ksimp; try done.
  - split; ksimp; try done. apply (free_pages_ext k); ksimp; [done| |done].
    intros q a Hq Ha. apply Hmem. intros p Hp Hpa. apply (Hd p Hp).
    rewrite (page_ok_disjoint p q a); [done| | |done|done].
    + by eapply Forall_forall.
    + by eapply free_pages_nonzero.
  - exists (store64 (k_mem k) s v), (k_freelist k). by ksimp.
Qed.

(** The leaf entries after mapping [n] pages from [a] to [pa]. *)
Definition map_range (f : Z -> Z) (a n pa perm : Z) (va : Z) : Z :=
  if decide (a <= va < a + n * PGSIZE) then mkpte (pa + (PGROUNDDOWN va - a)) perm else f va.

Lemma map_range_0 f a pa perm va : map_range f a 0 pa perm va = f va.
Proof. unfold map_range. rewrite decide_False; [done|lia]. Qed.

(** Mapping one page and then [n] more maps [n + 1] pages. *)
Lemma map_range_S f a n pa perm va :
  0 <= n -> a mod PGSIZE = 0 ->
  map_range (fun va' => if decide (va' / PGSIZE = a / PGSIZE) then mkpte pa perm else f va')
    (a + PGSIZE) n (pa + PGSIZE) perm va = map_range f a (n + 1) pa perm va.
Proof.
  intros Hn Ha. unfold map_range. unfold PGSIZE in *.
  destruct (decide (va / 4096 = a / 4096)) as [E|E].
  - rewrite decide_False by dlia. rewrite decide_True by dlia. f_equal.
    rewrite PGROUNDDOWN_eq. unfold PGSIZE. dlia.
  - destruct (decide (a + 4096 <= va < a + 4096 + n * 4096)).
    + rewrite decide_True by dlia. f_equal. lia.
    + rewrite decide_False by dlia. done.
Qed.

(** The addresses that one level-0 table maps. *)
Definition REGION : Z := 512 * PGSIZE.

Lemma missing_region t va va' : 0 <= va -> 0 <= va' -> va / REGION = va' / REGION -> missing t va = missing t va'.
Proof.
  intros H1 H2 Hr. unfold missing, slot. assert (PX 1 va = PX 1 va' /\ PX 2 va = PX 2 va') as [-> ->].
  { rewrite !PX1_eq, !PX2_eq. unfold REGION, PGSIZE in Hr. change (512 * 4096) with 2097152 in Hr. split; [by rewrite Hr|].
    replace (va / 1073741824) with (va / 2097152 / 512) by dlia. rewrite Hr. f_equal. dlia. }
  by destruct (t0 t !! _).
Qed.

Lemma region_next a : (a + PGSIZE) / REGION = a / REGION \/ (a + PGSIZE) / REGION = a / REGION + 1.
Proof. unfold REGION, PGSIZE. dlia. Qed.

Lemma missing_le t va : (missing t va <= 1)%nat.
Proof. unfold missing. destruct (slot t va); lia. Qed.

(** One iteration of [mappages]. *)
Lemma mappages_step fuel k t l a last pa perm :
  vm_inv k t l -> 0 <= a < MAXVA -> 0 <= perm < 2^10 -> 0 <= pa < 2^56 ->
  pte_has (pte_of (k_mem k) t a) PTE_V = false ->
  (exists k' t',
     mappages_loop (S fuel) (root t) a last pa perm k = Ret (-1) k' /\ pt_grow k t l k' t' [] /\ (length l <= 2 * missing t a)%nat) \/
  (exists k' t' l',
     mappages_loop (S fuel) (root t) a last pa perm k =
       (if a =? last then mret 0
        else mappages_loop fuel (root t') (u64 (a + PGSIZE)) last (u64 (pa + PGSIZE)) perm) k' /\
     pt_upd k t l k' t' l'
       (fun va => if decide (va / PGSIZE = a / PGSIZE) then mkpte pa perm else pte_of (k_mem k) t va) /\
     (length l <= length l' + 2 * missing t a)%nat /\ missing t' a = 0%nat).
Proof.
  intros Hinv Ha Hperm Hpa Hfree. cbn [mappages_loop].
  destruct (walk_alloc k t l a Hinv Ha) as (r & k1 & u1 & l1 & Hrun & Hg & Hslot & Hnil & Hlen).
  erewrite bind_eq by exact Hrun. cbv beta. destruct (Z.eqb_spec r 0) as [->|Hr0].
  { left. exists k1, u1. rewrite (Hnil eq_refl) in *. done. }
  right. rewrite decide_False in Hslot by done.
  assert (load64 (k_mem k1) r = pte_of (k_mem k) t a) as Hload.
  { rewrite <- (pg_pte _ _ _ _ _ _ _ Hg) by done. unfold pte_of. by rewrite Hslot. }
  kpure. rewrite Hload, Hfree. kpure.
  pose proof (mkpte_bound pa perm Hpa Hperm) as Hmk.
  pose proof (pt_upd_store k1 u1 l1 a r (mkpte pa perm) (pg_inv _ _ _ _ _ _ _ Hg) Ha Hslot ltac:(lia)) as Hst.
  rewrite <- (pg_root _ _ _ _ _ _ _ Hg). eexists _, u1, l1. split_and!; [reflexivity| |done|unfold missing; by rewrite Hslot].
  eapply pt_upd_pte; [by eapply pt_upd_trans|]. intros va Hva. simpl.
  case_decide; [done|]. by rewrite (pg_pte _ _ _ _ _ _ _ Hg).
Qed.

Lemma mappages_loop_spec n fuel k t l a last pa perm :
  vm_inv k t l -> a mod PGSIZE = 0 -> 0 <= a -> last = a + Z.of_nat n * PGSIZE -> last < MAXVA -> (n < fuel)%nat ->
  0 <= perm < 2^10 -> 0 <= pa -> pa + Z.of_nat n * PGSIZE < 2^56 ->
  (forall i, 0 <= i <= Z.of_nat n -> pte_has (pte_of (k_mem k) t (a + i * PGSIZE)) PTE_V = false) ->
  exists r k' t' l' j,
    mappages_loop fuel (root t) a last pa perm k = Ret r k' /\
    pt_upd k t l k' t' l' (map_range (pte_of (k_mem k) t) a j pa perm) /\
    (r = 0 /\ j = Z.of_nat n + 1 \/ r = -1 /\ 0 <= j <= Z.of_nat n /\ l' = []) /\
    Z.of_nat (length l) <= Z.of_nat (length l') + 2 * (Z.of_nat (missing t a) + (last / REGION - a / REGION)).
Proof.
  revert fuel k t l a pa.
  induction n as [|n IH]; intros fuel k t l a pa Hinv Ha Ha0 Heq Hlast Hfuel Hperm Hpa Hpa' Hfree;
    (destruct fuel as [|fuel]; [lia|]);
    pose proof (Hfree 0 ltac:(lia)) as Hf0; rewrite Z.mul_0_l, Z.add_0_r in Hf0;
    unfold PGSIZE in Ha, Heq, Hpa'; rewrite MAXVA_eq in Hlast;
    (destruct (mappages_step fuel k t l a last pa perm Hinv
       ltac:(rewrite MAXVA_eq; lia) Hperm ltac:(lia) Hf0)
       as [(k1 & u1 & Hrun & Hg & Hlen)|(k1 & u1 & l1 & Hrun & Hg & Hlen & Hmiss)];
     [exists (-1), k1, u1, [], 0; split_and!; [exact Hrun| |right; split_and!; (done || lia)|pose proof (Z.div_le_mono a last REGION ltac:(done) ltac:(lia)); simpl; lia];
      eapply pt_upd_pte; [exact Hg|]; intros; by rewrite map_range_0|]); rewrite Hrun.
  - rewrite (proj2 (Z.eqb_eq _ _)) by lia.
    exists 0, k1, u1, l1, 1. split_and!; [reflexivity| |left; lia|replace last with a by lia; lia].
    eapply pt_upd_pte; [exact Hg|]. intros va Hva. simpl.
    by rewrite <- (map_range_S _ a 0), map_range_0 by (done || lia).
  - rewrite (proj2 (Z.eqb_neq _ _)) by (unfold PGSIZE; lia).
    rewrite (u64_small (a + _)), (u64_small (pa + _)) by (unfold PGSIZE; lia).
    destruct (IH fuel _ u1 l1 (a + PGSIZE) (pa + PGSIZE) (pg_inv _ _ _ _ _ _ _ Hg))
      as (r2 & k2 & u2 & l2 & j & Hrun2 & Hu2 & Hres & Hlen2); [try (rewrite ?MAXVA_eq; unfold PGSIZE; dlia)..|].
    { intros i Hi. rewrite (pg_pte _ _ _ _ _ _ _ Hg) by (rewrite MAXVA_eq; unfold PGSIZE; dlia).
      rewrite decide_False by (unfold PGSIZE; dlia).
      replace (a + PGSIZE + i * PGSIZE) with (a + (i + 1) * PGSIZE) by (unfold PGSIZE; lia).
      apply Hfree. lia. }
    exists r2, k2, u2, l2, (j + 1).
    split_and!; [exact Hrun2| |destruct Hres as [[??]|(?&?&?)]; [left|right]; split_and!; (done || lia)|].
    2: { pose proof (missing_le u1 (a + PGSIZE)). destruct (region_next a) as [E|E].
      - rewrite (missing_region u1 (a + PGSIZE) a), Hmiss in Hlen2 by (done || unfold PGSIZE; lia). rewrite E in Hlen2. lia.
      - rewrite E in Hlen2. lia. }
    eapply pt_upd_pte; [eapply pt_upd_trans; [exact Hg|exact Hu2]|].
    intros va Hva. rewrite <- map_range_S by (done || lia). unfold map_range.
    case_decide; [done|]. by rewrite (pg_pte _ _ _ _ _ _ _ Hg).
Qed.

Lemma PGROUNDDOWN_region a : PGROUNDDOWN a / REGION = a / REGION.
Proof. rewrite PGROUNDDOWN_eq. unfold REGION. rewrite (Z.mul_comm 512), <- !Z.div_div by done. f_equal. rewrite (Z.mul_comm PGSIZE). by apply Z.div_mul. Qed.

(** A range has at least as many pages as regions. *)
Lemma region_pages va size :
  0 < size -> (va + size - 1) / REGION - va / REGION <= (PGROUNDDOWN (va + size - 1) - PGROUNDDOWN va) / PGSIZE.
Proof.
  intros Hs. rewrite !PGROUNDDOWN_eq. rewrite <- Z.mul_sub_distr_l, (Z.mul_comm PGSIZE), Z.div_mul by done.
  unfold REGION. rewrite (Z.mul_comm 512), <- !Z.div_div by done.
  pose proof (Z.div_le_mono va (va + size - 1) PGSIZE ltac:(done) ltac:(lia)). set (x := (va + size - 1) / PGSIZE) in *. set (y := va / PGSIZE) in *. dlia.
Qed.

Lemma PGROUNDDOWN_mono_pages va size :
  0 <= va -> 0 < size ->
  PGROUNDDOWN (va + size - 1) = PGROUNDDOWN va + Z.of_nat (Z.to_nat ((PGROUNDDOWN (va + size - 1) - PGROUNDDOWN va) / PGSIZE)) * PGSIZE.
Proof. intros. rewrite !PGROUNDDOWN_eq. unfold PGSIZE. dlia. Qed.

(** [mappages] on a range of unmapped pages maps all of them and returns 0,
    or, when the free list runs out, maps a prefix of them and returns -1. *)
Lemma mappages_regions k t l va size pa perm :
  vm_inv k t l -> 0 <= va -> 0 < size -> va + size <= MAXVA ->
  0 <= perm < 2^10 -> 0 <= pa -> pa + size + PGSIZE <= 2^56 ->
  (forall va', va - PGSIZE < va' < va + size -> va' mod PGSIZE = 0 -> pte_has (pte_of (k_mem k) t va') PTE_V = false) ->
  let a := PGROUNDDOWN va in
  let n := (PGROUNDDOWN (va + size - 1) - a) / PGSIZE + 1 in
  exists r k' t' l' j,
    mappages (root t) va size pa perm k = Ret r k' /\
    pt_upd k t l k' t' l' (map_range (pte_of (k_mem k) t) a j pa perm) /\
    (r = 0 /\ j = n \/ r = -1 /\ 0 <= j < n /\ l' = []) /\
    Z.of_nat (length l) <= Z.of_nat (length l') + 2 * ((va + size - 1) / REGION - va / REGION + 1).
Proof.
  intros Hinv Hva Hsz Hmax Hperm Hpa Hpa' Hfree a n. rewrite MAXVA_eq in Hmax.
  pose proof (PGROUNDDOWN_mono_pages va size Hva Hsz) as Hlast.
  set (last := PGROUNDDOWN (va + size - 1)) in *.
  set (i := Z.to_nat ((last - a) / PGSIZE)). fold a i in Hlast.
  pose proof (PGROUNDDOWN_bounds (va + size - 1) ltac:(lia)) as Hb. fold last in Hb.
  pose proof (PGROUNDDOWN_bounds va Hva) as Hb'. fold a in Hb'.
  assert (a mod PGSIZE = 0) as Ha by apply PGROUNDDOWN_aligned.
  assert (n = Z.of_nat i + 1) as -> by (unfold n, i, PGSIZE in *; dlia).
  unfold mappages. rewrite (proj2 (Z.eqb_neq size 0)), (u64_small (va + size - 1)) by lia. fold a last. cbv zeta.
  destruct (mappages_loop_spec i (S (Z.to_nat (u64 (last - a) / PGSIZE))) k t l a last pa perm)
    as (r & k' & t' & l' & j & Hrun & Hu & Hres & Hlen); try done.
  - unfold PGSIZE in *. dlia.
  - rewrite MAXVA_eq. lia.
  - rewrite u64_small; unfold i, PGSIZE in *; dlia.
  - unfold PGSIZE in *. lia.
  - intros x Hx. apply Hfree; unfold PGSIZE in *; dlia.
  - exists r, k', t', l', j. split_and!; try done.
    + destruct Hres as [[??]|(?&?&?)]; [left|right]; split_and!; (done || lia).
    + pose proof (missing_le t (PGROUNDDOWN va)). unfold a, last in Hlen. rewrite !PGROUNDDOWN_region in Hlen. lia.
Qed.

(** The same with the number of pages as the bound. *)
Lemma mappages_spec k t l va size pa perm :
  vm_inv k t l -> 0 <= va -> 0 < size -> va + size <= MAXVA ->
  0 <= perm < 2^10 -> 0 <= pa -> pa + size + PGSIZE <= 2^56 ->
  (forall va', va - PGSIZE < va' < va + size -> va' mod PGSIZE = 0 -> pte_has (pte_of (k_mem k) t va') PTE_V = false) ->
  let a := PGROUNDDOWN va in
  let n := (PGROUNDDOWN (va + size - 1) - a) / PGSIZE + 1 in
  exists r k' t' l' j,
    mappages (root t) va size pa perm k = Ret r k' /\
    pt_upd k t l k' t' l' (map_range (pte_of (k_mem k) t) a j pa perm) /\
    (r = 0 /\ j = n \/ r = -1 /\ 0 <= j < n /\ l' = []) /\
    Z.of_nat (length l) <= Z.of_nat (length l') + 2 * n.
Proof.
  intros Hinv Hva Hsz Hmax Hperm Hpa Hpa' Hfree a n.
  destruct (mappages_regions k t l va size pa perm) as (r & k' & t' & l' & j & Hrun & Hu & Hres & Hlen); try done.
  exists r, k', t', l', j. split_and!; try done. pose proof (region_pages va size Hsz). unfold n, a. lia.
Qed.

(** One page, the case of [uvmalloc], [uvmcopy], [proc_pagetable] and [exec]. *)
Lemma mappages_page k t l va pa perm :
  vm_inv k t l -> 0 <= va < MAXVA -> va mod PGSIZE = 0 -> 0 <= perm < 2^10 -> 0 <= pa < 2^56 - 2 * PGSIZE ->
  pte_has (pte_of (k_mem k) t va) PTE_V = false ->
  (exists k' t', mappages (root t) va PGSIZE pa perm k = Ret (-1) k' /\ pt_grow k t l k' t' [] /\
     (length l <= 2)%nat) \/
  (exists k' t' l', mappages (root t) va PGSIZE pa perm k = Ret 0 k' /\
     pt_upd k t l k' t' l'
       (fun va' => if decide (va' / PGSIZE = va / PGSIZE) then mkpte pa perm else pte_of (k_mem k) t va') /\
     (length l <= length l' + 2)%nat).
Proof.
  intros Hinv Hva Hal Hperm Hpa Hfree. rewrite MAXVA_eq in Hva.
  destruct (mappages_spec k t l va PGSIZE pa perm) as (r & k' & t' & l' & j & Hrun & Hu & Hres & Hlen);
    try (rewrite ?MAXVA_eq; unfold PGSIZE in *; dlia); [done..| |].
  { intros va' ? ?. assert (va' = va) as -> by (unfold PGSIZE in *; dlia). done. }
  cbv zeta in *. rewrite !PGROUNDDOWN_eq in *. unfold PGSIZE in *.
  replace ((4096 * ((va + 4096 - 1) / 4096) - 4096 * (va / 4096)) / 4096 + 1) with 1 in * by dlia.
  destruct Hres as [[-> ->]|(-> & ? & ->)]; [right|left].
  - exists k', t', l'. split_and!; [done| |lia]. eapply pt_upd_pte; [exact Hu|]. intros va' Hva'. simpl.
    unfold map_range. rewrite PGROUNDDOWN_eq. unfold PGSIZE. case_decide.
    + rewrite decide_True by dlia. f_equal. dlia.
    + rewrite decide_False by dlia. done.
  - exists k', t'. split_and!; [done| |simpl in *; lia]. eapply pt_upd_pte; [exact Hu|]. intros va' Hva'.
    assert (j = 0) as -> by lia. by rewrite map_range_0.
Qed.

(** ** Translation *)

(** The address [walkaddr] gives for a leaf entry. *)
Definition user_pa (pte : Z) : Z :=
  if pte_has pte PTE_V && pte_has pte PTE_U then PTE2PA pte else 0.

Lemma load_slot m t va s : slot t va = Some s -> load64 m s = pte_of m t va.
Proof. intros Hs. unfold pte_of. by rewrite Hs. Qed.

Lemma walkaddr_spec k t va :
  pt_rep (k_mem k) t -> Forall page_ok (pt_pages t) -> 0 <= va ->
  walkaddr (root t) va k =
  Ret (if decide (va < MAXVA) then user_pa (pte_of (k_mem k) t va) else 0) k.
Proof.
  intros Hr Hok Hva. unfold walkaddr. destruct (Z.leb_spec MAXVA va).
  { rewrite decide_False by lia. done. }
  rewrite decide_True by lia. erewrite bind_eq by (apply walk_lookup; auto with lia). cbv beta. unfold user_pa.
  destruct (slot t va) as [s|] eqn:Es; simpl.
  - pose proof (slot_range t va s Hok Es). rewrite (proj2 (Z.eqb_neq s 0)) by lia.
    kpure. rewrite (load_slot _ _ _ _ Es).
    destruct (pte_has _ PTE_V), (pte_has _ PTE_U); done.
  - unfold pte_of. rewrite Es, !pte_has_0. done.
Qed.

End proofs.
