(* ===== verification/Uspace.v ===== *)
(** * User address spaces

    [uspace k t u l]: the table [t] maps the pages [u] at addresses 0,
    [PGSIZE], ... (physical address and permissions of each), nothing else
    below [TRAPFRAME], and the pages of the table, the pages mapped and the
    free list [l] are all distinct. [uvmalloc], [uvmdealloc], [uvmcopy] and
    [uvmfree] move pages between these owners and lose none. *)

From S2P Require Import Prelude Riscv Monad State Kstring Kalloc Vm VmInv VmMap.
#[local] Open Scope Z_scope.

#[local] Opaque memset memmove store64 load64 kalloc kfree walk link mappages.

(** A page with its permissions: one that [uvmunmap] accepts. *)
Definition leaf_ok {L : Layout} (e : Z * Z) : Prop :=
  page_ok e.1 /\ 0 <= e.2 < 2^10 /\ Z.lor e.2 PTE_V <> PTE_V.

Record uspace {L : Layout} (k : kernel) (t : ptree) (u : list (Z * Z)) (l : list Z) : Prop := {
  us_inv : vm_inv k t l;
  us_ok : Forall leaf_ok u;
  us_nodup : NoDup (pt_pages t ++ u.*1 ++ l);
  us_map i e : u !! i = Some e -> pte_of (k_mem k) t (Z.of_nat i * PGSIZE) = mkpte e.1 e.2;
  us_top va : Z.of_nat (length u) * PGSIZE <= va < TRAPFRAME -> pte_has (pte_of (k_mem k) t va) PTE_V = false
}.

(** From [k] to [k'] pages move between the table, the address space and the
    free list; the entries at and above [TRAPFRAME], the contents of the pages
    that stay mapped and all memory outside these pages are kept. *)
Record us_step {L : Layout} (k : kernel) (t : ptree) (u : list (Z * Z)) (l : list Z)
    (k' : kernel) (t' : ptree) (u' : list (Z * Z)) (l' : list Z) : Prop := {
  st_inv : uspace k' t' u' l';
  st_root : root t' = root t;
  st_own : pt_pages t' ++ u'.*1 ++ l' ≡ₚ pt_pages t ++ u.*1 ++ l;
  st_only : mem_only k k';
  st_mem a : (forall p, p ∈ pt_pages t ++ u.*1 ++ l -> ~ in_page p a) -> load8 (k_mem k') a = load8 (k_mem k) a;
  st_data i e a : u !! i = Some e -> u' !! i = Some e -> in_page e.1 a -> load8 (k_mem k') a = load8 (k_mem k) a;
  st_hi va : TRAPFRAME <= va < MAXVA -> pte_of (k_mem k') t' va = pte_of (k_mem k) t va
}.

Section proofs.
Context {L : Layout} {LOk : LayoutOk L}.
Implicit Types (m : mem) (t : ptree).

(** ** Writing and moving one page *)

Lemma pte_of_ext m m' t va :
  (forall p a, p ∈ pt_pages t -> in_page p a -> load8 m' a = load8 m a) -> pte_of m' t va = pte_of m t va.
Proof.
  intros Hm. unfold pte_of, slot. destruct (t0 t !! _) as [p|] eqn:E; [|done]. simpl.
  pose proof (PX_bound 0 va). apply load64_page_ext; [lia|].
  intros a. apply Hm. by eapply pt_pages_t0.
Qed.

Lemma vm_inv_ext k k' t l :
  vm_inv k t l -> mem_only k k' -> k_freelist k' = k_freelist k ->
  (forall p a, p ∈ pt_pages t ++ l -> in_page p a -> load8 (k_mem k') a = load8 (k_mem k) a) ->
  vm_inv k' t l /\ forall va, pte_of (k_mem k') t va = pte_of (k_mem k) t va.
Proof.
  intros [Hf Hr Hok Hn Hlk] (m & f & ->) Hfl Hm. split.
  - split; try done.
    + eapply free_pages_ext; [exact Hfl| |exact Hf]. intros p a Hp. apply Hm, elem_of_app. by right.
    + eapply pt_rep_ext; [|exact Hr]. intros p a Hp. apply Hm, elem_of_app. by left.
  - intros va. apply pte_of_ext. intros p a Hp. apply Hm, elem_of_app. by left.
Qed.

(** [k'] is [k] after writing inside the page [q]. *)
Record page_write (q : Z) (k k' : kernel) : Prop := {
  pw_only : mem_only k k';
  pw_mem a : ~ in_page q a -> load8 (k_mem k') a = load8 (k_mem k) a
}.

Lemma page_write_trans q k1 k2 k3 : page_write q k1 k2 -> page_write q k2 k3 -> page_write q k1 k3.
Proof.
  intros [O1 M1] [O2 M2]. split; [by transitivity k2|]. intros a Ha. by rewrite M2, M1.
Qed.

Lemma page_write_keeps q k k' t l :
  page_write q k k' -> k_freelist k' = k_freelist k -> page_ok q -> q ∉ pt_pages t ++ l -> vm_inv k t l ->
  vm_inv k' t l /\ forall va, pte_of (k_mem k') t va = pte_of (k_mem k) t va.
Proof.
  intros [Ho Hm] Hf Hq Hnin Hinv. pose proof Hinv as [Hfp _ Hok _ _]. apply vm_inv_ext; try done.
  intros p a Hp Ha. apply Hm. intros Hqa. apply Hnin.
  rewrite (page_ok_disjoint q p a); try done.
  apply elem_of_app in Hp as [Hp|Hp]; [by eapply Forall_forall|by eapply free_pages_nonzero].
Qed.

Lemma vm_inv_kalloc k t q l :
  vm_inv k t (q :: l) ->
  exists k', kalloc k = Ret q k' /\ vm_inv k' t l /\ page_write q k k' /\
    (forall va, pte_of (k_mem k') t va = pte_of (k_mem k) t va).
Proof.
  intros [Hf Hr Hok Hn Hlk]. pose proof Hn as (Hnt & Hd & Hql)%NoDup_app.
  destruct (kalloc_cons_spec k q l Hf Hlk) as (nx & Hrun & Hf' & Hm).
  assert (page_ok q) as Hq by (by eapply free_pages_nonzero, list_elem_of_here).
  assert (forall p a, p ∈ pt_pages t -> in_page p a -> load8 (memset (k_mem k) q 5 PGSIZE) a = load8 (k_mem k) a) as Ht.
  { intros p a Hp Ha. apply Hm. intros Hqa. apply (Hd p Hp).
    rewrite (page_ok_disjoint p q a); [apply list_elem_of_here|by eapply Forall_forall|done..]. }
  eexists. split; [exact Hrun|]. split_and!.
  - split; ksimp; try done.
    + by eapply pt_rep_ext.
    + eapply NoDup_Permutation_proper in Hn; [|apply Permutation_middle]. by apply NoDup_cons in Hn as [_ ?].
  - split; [by eexists _, _|]. by ksimp.
  - intros va. ksimp. by apply pte_of_ext.
Qed.

Lemma vm_inv_kfree k t q l :
  vm_inv k t l -> page_ok q -> q ∉ pt_pages t ++ l ->
  exists k', kfree q k = Ret () k' /\ vm_inv k' t (q :: l) /\ page_write q k k' /\
    (forall va, pte_of (k_mem k') t va = pte_of (k_mem k) t va).
Proof.
  intros [Hf Hr Hok Hn Hlk] Hq Hnin. apply not_elem_of_app in Hnin as [Hnt Hnl].
  destruct (kfree_spec k l q Hf Hq Hnl Hlk) as (m' & Hrun & Hf' & Hm).
  assert (forall p a, p ∈ pt_pages t -> in_page p a -> load8 m' a = load8 (k_mem k) a) as Ht.
  { intros p a Hp Ha. apply Hm. intros Hqa. apply Hnt.
    rewrite (page_ok_disjoint q p a); [done|done|by eapply Forall_forall|done..]. }
  eexists. split; [exact Hrun|]. split_and!.
  - split; ksimp; try done.
    + by eapply pt_rep_ext.
    + rewrite <- Permutation_middle. apply NoDup_cons. split; [|done]. by apply not_elem_of_app.
  - split; [by eexists _, _|]. by ksimp.
  - intros va. ksimp. by apply pte_of_ext.
Qed.

(** ** [uvmunmap] *)

Lemma mkpte_slot m t va pa perm :
  pte_of m t va = mkpte pa perm -> exists s, slot t va = Some s.
Proof.
  unfold pte_of. destruct (slot t va); [eauto|]. intros H0. exfalso.
  pose proof (pte_has_mkpte_V pa perm) as Hv. by rewrite <- H0, pte_has_0 in Hv.
Qed.

Lemma page_range56 q : page_ok q -> 0 <= q < 2^56.
Proof. intros Hq. pose proof (page_ok_range q Hq). unfold PGSIZE in *. lia. Qed.

(** One iteration, on a mapped page. *)
Lemma uvmunmap_step fuel k t l e a limit :
  vm_inv k t l -> leaf_ok e -> e.1 ∉ pt_pages t ++ l -> 0 <= a < MAXVA -> a < limit ->
  pte_of (k_mem k) t a = mkpte e.1 e.2 ->
  exists k', uvmunmap_loop (S fuel) (root t) a limit true k =
      uvmunmap_loop fuel (root t) (u64 (a + PGSIZE)) limit true k' /\
    vm_inv k' t (e.1 :: l) /\ mem_only k k' /\
    (forall va, 0 <= va < MAXVA ->
       pte_of (k_mem k') t va = if decide (va / PGSIZE = a / PGSIZE) then 0 else pte_of (k_mem k) t va) /\
    (forall b, ~ in_page e.1 b -> (forall p, p ∈ pt_pages t -> ~ in_page p b) -> load8 (k_mem k') b = load8 (k_mem k) b).
Proof.
  intros Hinv (Hpg & Hperm & Hleaf) Hnin Ha Hlim Hpte. cbn [uvmunmap_loop].
  rewrite (proj2 (Z.ltb_lt a limit)) by lia.
  destruct (mkpte_slot _ _ _ _ _ Hpte) as [s Hs].
  erewrite bind_eq by (apply walk_lookup; [apply Hinv|apply Hinv|lia]). cbv beta. rewrite Hs. simpl.
  pose proof (slot_range t a s (vi_ok _ _ _ Hinv) Hs). rewrite (proj2 (Z.eqb_neq s 0)) by lia.
  pose proof (page_range56 _ Hpg) as Hr56.
  kpure. rewrite (load_slot _ _ _ _ Hs), Hpte, pte_has_mkpte_V, PTE_FLAGS_mkpte by done. cbn [negb].
  rewrite (proj2 (Z.eqb_neq _ _)) by done. rewrite PTE2PA_page by done. cbn [when].
  destruct (vm_inv_kfree k t e.1 l Hinv Hpg Hnin) as (k1 & Hrun & Hinv1 & [Ho Hm] & Hp1).
  erewrite bind_eq by exact Hrun. cbv beta. kpure.
  destruct (pt_upd_store k1 t (e.1 :: l) a s 0 Hinv1 Ha Hs ltac:(lia)) as [Hi _ _ Hp _ _ Hm' Ho'].
  eexists. split_and!; [reflexivity|done|by transitivity k1| |].
  - intros va Hva. rewrite Hp by done. by rewrite Hp1.
  - intros b Hb Hb'. by rewrite Hm', Hm.
Qed.

Lemma uvmunmap_loop_spec es fuel k t l a limit :
  vm_inv k t l -> Forall leaf_ok es -> NoDup (pt_pages t ++ es.*1 ++ l) ->
  a mod PGSIZE = 0 -> 0 <= a -> limit = a + Z.of_nat (length es) * PGSIZE -> limit <= MAXVA ->
  (length es <= fuel)%nat ->
  (forall i e, es !! i = Some e -> pte_of (k_mem k) t (a + Z.of_nat i * PGSIZE) = mkpte e.1 e.2) ->
  exists k', uvmunmap_loop fuel (root t) a limit true k = Ret () k' /\
    vm_inv k' t (reverse es.*1 ++ l) /\ mem_only k k' /\
    (forall va, 0 <= va < MAXVA ->
       pte_of (k_mem k') t va = if decide (a <= va < limit) then 0 else pte_of (k_mem k) t va) /\
    (forall b, (forall p, p ∈ pt_pages t ++ es.*1 -> ~ in_page p b) -> load8 (k_mem k') b = load8 (k_mem k) b).
Proof.
  revert fuel k l a. induction es as [|e es IH]; intros fuel k l a Hinv Hok Hn Hal Ha Hlim Hmax Hfuel Hmap.
  { exists k. simpl in Hlim. split_and!; try done.
    - destruct fuel; simpl; by rewrite (proj2 (Z.ltb_ge _ _)) by lia.
    - intros va _. by rewrite decide_False by lia. }
  apply Forall_cons in Hok as [He Hok]. destruct fuel as [|fuel]; [simpl in Hfuel; lia|]. simpl in Hlim, Hfuel.
  rewrite MAXVA_eq in Hmax. unfold PGSIZE in Hal, Hlim.
  assert (NoDup (e.1 :: pt_pages t ++ es.*1 ++ l)) as Hn' by (by rewrite (Permutation_middle (pt_pages t))).
  apply NoDup_cons in Hn' as [Hnin Hn'].
  destruct (uvmunmap_step fuel k t l e a limit Hinv He) as (k1 & Hrun & Hinv1 & Ho1 & Hp1 & Hm1);
    [set_solver|rewrite MAXVA_eq; lia|lia| |].
  { rewrite <- (Hmap 0%nat e eq_refl). f_equal. lia. }
  rewrite Hrun, u64_small by (unfold PGSIZE; lia).
  destruct (IH fuel k1 (e.1 :: l) (a + PGSIZE)) as (k2 & Hrun2 & Hinv2 & Ho2 & Hp2 & Hm2);
    try (rewrite ?MAXVA_eq; unfold PGSIZE; dlia); [done..| | |].
  { rewrite (app_assoc (pt_pages t)), <- Permutation_middle, <- app_assoc. by apply NoDup_cons. }
  { intros i e' Hi. rewrite Hp1.
    - rewrite decide_False by (unfold PGSIZE; dlia). rewrite <- (Hmap (S i) e' Hi). f_equal. unfold PGSIZE. lia.
    - apply lookup_lt_Some in Hi. rewrite MAXVA_eq. unfold PGSIZE. lia. }
  exists k2. split_and!; [done| |by transitivity k1| |].
  - simpl. rewrite reverse_cons, <- app_assoc. done.
  - intros va Hva. rewrite Hp2, Hp1 by done. unfold PGSIZE in *. repeat case_decide; try done; dlia.
  - intros b Hb. rewrite Hm2, Hm1; [done| | |].
    + apply Hb, elem_of_app. right. apply list_elem_of_here.
    + intros p Hp. apply Hb, elem_of_app. by left.
    + intros p Hp. apply Hb. rewrite fmap_cons. rewrite elem_of_app, elem_of_cons. apply elem_of_app in Hp. tauto.
Qed.

(** ** Bounds *)

(** The number of pages of RAM. *)
Definition NPAGE : Z := (PHYSTOP - KERNBASE) / PGSIZE.

Lemma pages_from_length p n : length (pages_from p n) = n.
Proof. revert p. induction n as [|n IH]; intros p; simpl; [done|by rewrite IH]. Qed.

Lemma pages_bound l : NoDup l -> Forall page_ok l -> Z.of_nat (length l) <= NPAGE.
Proof.
  intros Hn Hok. apply (Z.le_trans _ (Z.of_nat (length (pages_from KERNBASE (Z.to_nat NPAGE))))).
  - apply inj_le. apply submseteq_length. apply NoDup_submseteq; [done|]. intros q Hq.
    assert (page_ok q) as Hqok by (by eapply Forall_forall).
    apply pages_from_spec; [done|]. pose proof (page_ok_pos q Hqok). split; [by apply page_ok_aligned|].
    replace (KERNBASE + _) with PHYSTOP by (vm_compute; done). done.
  - rewrite pages_from_length. unfold NPAGE. vm_compute. congruence.
Qed.

Lemma uspace_pages_ok k t u l : uspace k t u l -> Forall page_ok (pt_pages t ++ u.*1 ++ l).
Proof.
  intros [Hinv Hok _ _ _]. apply Forall_app. split; [apply Hinv|]. apply Forall_app. split.
  - apply Forall_fmap. eapply Forall_impl; [exact Hok|]. by intros e [? _].
  - apply Forall_forall. intros q Hq. eapply free_pages_nonzero; [apply Hinv|done].
Qed.

Lemma uspace_length k t u l : uspace k t u l -> Z.of_nat (length u) * PGSIZE <= 2^27.
Proof.
  intros Hu. pose proof (pages_bound _ (us_nodup _ _ _ _ Hu) (uspace_pages_ok _ _ _ _ Hu)) as Hb.
  rewrite !length_app, length_fmap in Hb. unfold NPAGE in Hb.
  change ((PHYSTOP - KERNBASE) / PGSIZE) with 32768 in Hb. unfold PGSIZE. lia.
Qed.

Lemma uspace_page_va k t u l i e :
  uspace k t u l -> u !! i = Some e -> 0 <= Z.of_nat i * PGSIZE /\ Z.of_nat i * PGSIZE + PGSIZE <= 2^27.
Proof.
  intros Hu Hi. pose proof (uspace_length _ _ _ _ Hu). apply lookup_lt_Some in Hi. unfold PGSIZE in *. lia.
Qed.

(** ** Steps *)

Lemma us_step_refl k t u l : uspace k t u l -> us_step k t u l k t u l.
Proof. by split. Qed.

Lemma us_step_trans k1 u1 v1 l1 k2 u2 v2 l2 k3 u3 v3 l3 :
  us_step k1 u1 v1 l1 k2 u2 v2 l2 -> us_step k2 u2 v2 l2 k3 u3 v3 l3 ->
  (forall i e, v1 !! i = Some e -> v3 !! i = Some e -> v2 !! i = Some e) ->
  us_step k1 u1 v1 l1 k3 u3 v3 l3.
Proof.
  intros [I1 R1 P1 O1 M1 D1 H1] [I2 R2 P2 O2 M2 D2 H2] Hsub. split.
  - done.
  - congruence.
  - by rewrite P2.
  - by transitivity k2.
  - intros a Ha. rewrite M2, M1; [done|done|]. intros p Hp. apply Ha. by rewrite <- P1.
  - intros i e a Hi Hi3 Ha. rewrite (D2 i e), (D1 i e); eauto.
  - intros va Hva. by rewrite H2, H1.
Qed.

(** A mapped page overlaps no other page of the address space. *)
Lemma uspace_disjoint k t u l i e p a :
  uspace k t u l -> u !! i = Some e -> in_page e.1 a -> in_page p a ->
  (p ∈ pt_pages t ++ l -> False) /\ (forall j e', u !! j = Some e' -> p = e'.1 -> j = i).
Proof.
  intros Hu Hi Ha Hpa. pose proof (uspace_pages_ok _ _ _ _ Hu) as Hall. rewrite Forall_forall in Hall.
  pose proof (us_nodup _ _ _ _ Hu) as Hn. rewrite (Permutation_app_swap_app (pt_pages t)) in Hn.
  apply NoDup_app in Hn as (Hnu & Hd & _).
  assert (forall j e', u !! j = Some e' -> e'.1 ∈ u.*1) as Hin.
  { intros j e' Hj. apply list_elem_of_fmap. exists e'. split; [done|]. by eapply list_elem_of_lookup_2. }
  assert (p ∈ pt_pages t ++ u.*1 ++ l -> p = e.1) as Heq.
  { intros Hp. apply (page_ok_disjoint p e.1 a); [by apply Hall| |done..]. apply Hall.
    rewrite !elem_of_app. eauto. }
  split.
  - intros Hp. assert (p = e.1) as ->. { apply Heq. rewrite !elem_of_app. apply elem_of_app in Hp. tauto. }
    by apply (Hd e.1); eauto.
  - intros j e' Hj ->. assert (e'.1 = e.1) as He. { apply Heq. rewrite !elem_of_app. eauto. }
    eapply NoDup_lookup; [exact Hnu| |]; rewrite list_lookup_fmap; [by rewrite Hj|rewrite Hi; simpl; by rewrite He].
Qed.

(** Unmapping the last pages. *)
Lemma uspace_unmap k t u l i :
  uspace k t u l -> (i <= length u)%nat ->
  exists k', uvmunmap (root t) (Z.of_nat i * PGSIZE) (Z.of_nat (length u - i)) true k = Ret () k' /\
    us_step k t u l k' t (take i u) (reverse (drop i u).*1 ++ l).
Proof.
  intros Hu Hi. pose proof Hu as [Hinv Hok Hn Hmap Htop]. pose proof (uspace_length _ _ _ _ Hu) as Hlen.
  assert (pt_pages t ++ (take i u).*1 ++ reverse (drop i u).*1 ++ l ≡ₚ pt_pages t ++ u.*1 ++ l) as Hperm.
  { by rewrite reverse_Permutation, (app_assoc (take i u).*1), <- fmap_app, take_drop. }
  unfold PGSIZE in Hlen. assert (TRAPFRAME = 2^38 - 8192) as HT by reflexivity. unfold uvmunmap.
  rewrite (proj2 (Z.eqb_eq _ 0)) by (unfold PGSIZE; dlia). cbn [negb].
  replace (u64 (Z.of_nat i * PGSIZE + u64 (Z.of_nat (length u - i) * PGSIZE))) with (Z.of_nat (length u) * PGSIZE)
    by (rewrite (u64_small (Z.of_nat (length u - i) * _)), u64_small; unfold PGSIZE; lia).
  destruct (uvmunmap_loop_spec (drop i u) (Z.to_nat (Z.of_nat (length u - i))) k t l (Z.of_nat i * PGSIZE)
    (Z.of_nat (length u) * PGSIZE)) as (k' & Hrun & Hinv' & Ho & Hp & Hm);
    rewrite ?length_drop, ?MAXVA_eq; try done; try (unfold PGSIZE; dlia).
  { by apply Forall_drop. }
  { rewrite <- Hperm, (Permutation_app_swap_app (pt_pages t)), reverse_Permutation in Hn.
    by apply NoDup_app in Hn as (_ & _ & ?). }
  { intros j e Hj. rewrite lookup_drop in Hj. rewrite <- (Hmap _ _ Hj). f_equal. unfold PGSIZE. lia. }
  rewrite MAXVA_eq in Hp. exists k'. split; [exact Hrun|]. split; try done.
  - split; try done.
    + by apply Forall_take.
    + by rewrite Hperm.
    + intros j e Hj. apply lookup_take_Some in Hj as [Hj Hji]. rewrite Hp by (unfold PGSIZE; lia).
      rewrite decide_False by (unfold PGSIZE; lia). by apply Hmap.
    + intros va Hva. rewrite length_take in Hva. rewrite Hp by (unfold PGSIZE in *; lia).
      case_decide; [apply pte_has_0|]. apply Htop. unfold PGSIZE in *. lia.
  - intros a Ha. apply Hm. intros p Hp'. apply Ha. rewrite <- (take_drop i u), fmap_app, !elem_of_app.
    apply elem_of_app in Hp'. tauto.
  - intros j e a Hj Hj' Ha. apply Hm. intros p Hp' Hpa. apply lookup_take_Some in Hj' as [_ Hji].
    destruct (uspace_disjoint _ _ _ _ j e p a Hu Hj Ha Hpa) as [H1 H2].
    apply elem_of_app in Hp' as [Hp'|Hp']; [apply H1, elem_of_app; by left|].
    apply list_elem_of_fmap in Hp' as (e' & -> & [n Hn']%list_elem_of_lookup).
    rewrite lookup_drop in Hn'. pose proof (H2 _ _ Hn' eq_refl). lia.
  - intros va Hva. rewrite HT, MAXVA_eq in Hva. rewrite Hp by (unfold PGSIZE in *; lia).
    rewrite decide_False; [done|]. unfold PGSIZE in *. lia.
Qed.

(** ** [uvmdealloc] *)

(** The number of pages of [sz] bytes. *)
Definition npg (sz : Z) : Z := PGROUNDUP sz / PGSIZE.

Lemma npg_eq sz : 0 <= sz < 2^64 - PGSIZE -> npg sz = (sz + PGSIZE - 1) / PGSIZE.
Proof. intros. unfold npg. rewrite PGROUNDUP_eq by done. unfold PGSIZE. dlia. Qed.

Lemma uvmdealloc_spec k t u l oldsz newsz :
  uspace k t u l -> 0 <= oldsz < 2^64 - PGSIZE -> 0 <= newsz < 2^64 - PGSIZE -> Z.of_nat (length u) = npg oldsz ->
  exists k' l', uvmdealloc (root t) oldsz newsz k = Ret (Z.min oldsz newsz) k' /\
    us_step k t u l k' t (take (Z.to_nat (npg newsz)) u) l'.
Proof.
  intros Hu Hold Hnew Hlen. pose proof (uspace_length _ _ _ _ Hu) as Hb. rewrite Hlen in Hb.
  pose proof (npg_eq oldsz Hold) as Ho. pose proof (npg_eq newsz Hnew) as Hn. unfold PGSIZE in Ho, Hn, Hb.
  unfold uvmdealloc. destruct (Z.leb_spec oldsz newsz).
  { exists k, l. rewrite Z.min_l by lia. split; [done|]. rewrite take_ge; [by apply us_step_refl|]. dlia. }
  rewrite Z.min_r by lia. rewrite !PGROUNDUP_eq by done. fold PGSIZE. rewrite <- !npg_eq by done.
  destruct (Z.ltb_spec (PGSIZE * npg newsz) (PGSIZE * npg oldsz)) as [Hlt|Hge]; unfold PGSIZE in *; cbn [when].
  - destruct (uspace_unmap k t u l (Z.to_nat (npg newsz)) Hu) as (k' & Hrun & Hst); [lia|].
    eexists k', _. split; [|exact Hst]. erewrite bind_eq; [done|].
    rewrite <- Hrun. unfold PGSIZE. f_equal; [dlia|]. rewrite s32_small by dlia. rewrite u64_small by dlia. dlia.
  - exists k, l. split; [done|]. rewrite take_ge; [by apply us_step_refl|]. lia.
Qed.

(** ** Adding a page *)

Section add.
Context (k : kernel) (t : ptree) (u : list (Z * Z)) (q : Z) (l : list Z) (k1 : kernel) (perm : Z).
Hypothesis Hu : uspace k t u (q :: l).
Hypothesis Hw : page_write q k k1.
Hypothesis Hinv1 : vm_inv k1 t l.
Hypothesis Hleaf : leaf_ok (q, perm).

Let Hq : page_ok q.
Proof. apply Hleaf. Qed.

Lemma add_fresh : q ∉ pt_pages t ++ u.*1 ++ l.
Proof.
  pose proof (us_nodup _ _ _ _ Hu) as Hn. rewrite app_assoc, <- Permutation_middle, <- app_assoc in Hn.
  by apply NoDup_cons in Hn as [? _].
Qed.

Lemma add_pte va : pte_of (k_mem k1) t va = pte_of (k_mem k) t va.
Proof.
  apply pte_of_ext. intros p a Hp Ha. apply (pw_mem _ _ _ Hw). intros Hqa. apply add_fresh.
  rewrite (page_ok_disjoint q p a); [apply elem_of_app; by left|done| |done..].
  eapply Forall_forall; [apply (vi_ok _ _ _ Hinv1)|done].
Qed.

Lemma add_data i e a : u !! i = Some e -> in_page e.1 a -> ~ in_page q a.
Proof.
  intros Hi Ha Hqa. apply (proj1 (uspace_disjoint _ _ _ _ i e q a Hu Hi Ha Hqa)).
  rewrite <- Permutation_middle. apply list_elem_of_here.
Qed.

(** [mappages] fails and [kfree] takes the page back. *)
Lemma uspace_add_fail k2 t2 :
  pt_grow k1 t l k2 t2 [] ->
  exists k3, kfree q k2 = Ret () k3 /\ us_step k t u (q :: l) k3 t2 u [q].
Proof.
  intros G. pose proof G as [Hinv2 Hroot _ Hpte Hperm _ Hmem Ho]. rewrite app_nil_r in Hperm.
  assert (q ∉ pt_pages t2) as Hq2.
  { rewrite Hperm. intros Hin. apply add_fresh. rewrite !elem_of_app. apply elem_of_app in Hin. tauto. }
  destruct (vm_inv_kfree k2 t2 q [] Hinv2 Hq) as (k3 & Hrun & Hinv3 & [Ho3 Hm3] & Hp3); [by rewrite app_nil_r|].
  assert (pt_pages t2 ++ u.*1 ++ [q] ≡ₚ pt_pages t ++ u.*1 ++ q :: l) as Hown.
  { rewrite Hperm, <- app_assoc. apply Permutation_app_head. rewrite !app_assoc, (Permutation_app_comm l), <- app_assoc.
    apply Permutation_app_head. by rewrite Permutation_app_comm. }
  assert (forall a, (forall p, p ∈ pt_pages t ++ l -> ~ in_page p a) -> ~ in_page q a -> load8 (k_mem k3) a = load8 (k_mem k) a) as Hmm.
  { intros a Ha Hqa. rewrite Hm3, Hmem, (pw_mem _ _ _ Hw); try done. intros p Hp. apply Ha. by rewrite <- Hperm. }
  pose proof (uspace_length _ _ _ _ Hu) as Hlen.
  exists k3. split; [done|]. split; try done.
  - split; [done|apply Hu|by rewrite Hown; apply Hu| |].
    + intros i e Hi. pose proof (uspace_page_va _ _ _ _ _ _ Hu Hi).
      rewrite Hp3, Hpte, add_pte by (rewrite MAXVA_eq; unfold PGSIZE in *; lia). by apply (us_map _ _ _ _ Hu).
    + intros va Hva. rewrite Hp3, Hpte, add_pte by (rewrite MAXVA_eq; change TRAPFRAME with (2^38 - 8192) in Hva; unfold PGSIZE in *; lia).
      by apply (us_top _ _ _ _ Hu).
  - transitivity k2; [|done]. transitivity k1; [apply Hw|done].
  - intros a Ha. apply Hmm; [|apply Ha; rewrite !elem_of_app; right; right; apply list_elem_of_here].
    intros p Hp. apply Ha. rewrite !elem_of_app, elem_of_cons. apply elem_of_app in Hp. tauto.
  - intros i e a Hi _ Ha. apply Hmm; [|by eapply add_data]. intros p Hp Hpa.
    apply (proj1 (uspace_disjoint _ _ _ _ i e p a Hu Hi Ha Hpa)).
    rewrite !elem_of_app, elem_of_cons. apply elem_of_app in Hp. tauto.
  - intros va Hva. rewrite Hp3, Hpte, add_pte; [done|]. change TRAPFRAME with (2^38 - 8192) in Hva. lia.
Qed.

(** [mappages] succeeds. *)
Lemma uspace_add_ok k2 t2 l2 :
  pt_upd k1 t l k2 t2 l2
    (fun va => if decide (va / PGSIZE = Z.of_nat (length u) * PGSIZE / PGSIZE) then mkpte q perm
               else pte_of (k_mem k1) t va) ->
  us_step k t u (q :: l) k2 t2 (u ++ [(q, perm)]) l2 /\
  (forall a, in_page q a -> load8 (k_mem k2) a = load8 (k_mem k1) a).
Proof.
  intros G. pose proof G as [Hinv2 Hroot _ Hpte Hperm _ Hmem Ho].
  assert (pt_pages t2 ++ (u ++ [(q, perm)]).*1 ++ l2 ≡ₚ pt_pages t ++ u.*1 ++ q :: l) as Hown.
  { rewrite fmap_app, <- (app_assoc u.*1), (Permutation_app_swap_app (pt_pages t2)).
    rewrite (Permutation_app_swap_app (pt_pages t)). apply Permutation_app_head.
    change ([(q, perm)].*1 ++ l2) with (q :: l2). rewrite <- !Permutation_middle. by apply Permutation_skip. }
  pose proof (uspace_length _ _ _ _ Hu) as Hlen. unfold PGSIZE in Hlen.
  change TRAPFRAME with (2^38 - 8192) in *.
  assert (forall a p, (forall p, p ∈ pt_pages t ++ l -> ~ in_page p a) -> p ∈ pt_pages t2 -> ~ in_page p a) as Hsub.
  { intros a p Ha Hp. apply Ha. rewrite <- Hperm. apply elem_of_app. by left. }
  split; [split; try done|].
  - split; [done| |by rewrite Hown; apply Hu| |].
    + apply Forall_app. split; [apply Hu|]. by apply Forall_singleton.
    + intros i e Hi. apply lookup_app_Some in Hi as [Hi|[Hi1 Hi2]].
      * pose proof (uspace_page_va _ _ _ _ _ _ Hu Hi). pose proof (lookup_lt_Some _ _ _ Hi).
        rewrite Hpte, decide_False, add_pte by (rewrite ?MAXVA_eq; unfold PGSIZE in *; dlia).
        by apply (us_map _ _ _ _ Hu).
      * apply list_lookup_singleton_Some in Hi2 as [Hi2 <-].
        assert (i = length u) as -> by lia. rewrite Hpte by (rewrite MAXVA_eq; unfold PGSIZE; lia).
        by rewrite decide_True.
    + intros va Hva. rewrite length_app in Hva. simpl in Hva. unfold PGSIZE in Hva.
      change TRAPFRAME with (2^38 - 8192) in Hva.
      rewrite Hpte, decide_False, add_pte by (rewrite ?MAXVA_eq; unfold PGSIZE in *; dlia).
      apply (us_top _ _ _ _ Hu). unfold PGSIZE. change TRAPFRAME with (2^38 - 8192). lia.
  - transitivity k1; [apply Hw|done].
  - intros a Ha. rewrite Hmem, (pw_mem _ _ _ Hw); [done| |].
    + apply Ha. rewrite !elem_of_app. right; right. apply list_elem_of_here.
    + intros p. apply Hsub. intros p' Hp'. apply Ha.
      rewrite !elem_of_app, elem_of_cons. apply elem_of_app in Hp'. tauto.
  - intros i e a Hi _ Ha. rewrite Hmem, (pw_mem _ _ _ Hw); [done|by eapply add_data|].
    intros p. apply Hsub. intros p' Hp' Hpa. apply (proj1 (uspace_disjoint _ _ _ _ i e p' a Hu Hi Ha Hpa)).
    rewrite !elem_of_app, elem_of_cons. apply elem_of_app in Hp'. tauto.
  - intros va Hva. change TRAPFRAME with (2^38 - 8192) in Hva.
    rewrite Hpte, decide_False, add_pte by (unfold PGSIZE in *; dlia). done.
  - intros a Ha. apply Hmem. intros p. apply Hsub. intros p' Hp' Hpa. apply add_fresh.
    rewrite (page_ok_disjoint q p' a); [|done| |done|done].
    + rewrite !elem_of_app. apply elem_of_app in Hp'. tauto.
    + pose proof (uspace_pages_ok _ _ _ _ Hu) as Hall. rewrite Forall_forall in Hall. apply Hall.
      rewrite !elem_of_app, elem_of_cons. apply elem_of_app in Hp'. tauto.
Qed.

End add.

(** [kalloc], fill the page, [mappages]: the loop body of [uvmalloc] and
    [uvmcopy], with the error path [F] and the continuation [G]. *)
Definition alloc_map (pagetable a perm : Z) (fill : Z -> mem -> mem) (F G : K Z) : K Z :=
  page ← kalloc;
  if page =? 0 then F
  else
    modify_mem (fill page);;
    r ← mappages pagetable a PGSIZE page perm;
    if truthy r then kfree page;; F else G.

Lemma alloc_map_spec k t u l a perm fill F G :
  uspace k t u l -> a = Z.of_nat (length u) * PGSIZE -> 0 <= perm < 2^10 -> Z.lor perm PTE_V <> PTE_V ->
  (forall q m b, ~ in_page q b -> load8 (fill q m) b = load8 m b) ->
  (exists k' t' l', alloc_map (root t) a perm fill F G k = F k' /\ us_step k t u l k' t' u l' /\
     (length l <= 3)%nat) \/
  (exists q m1 k' t' l', alloc_map (root t) a perm fill F G k = G k' /\
     us_step k t u l k' t' (u ++ [(q, perm)]) l' /\ (length l <= length l' + 3)%nat /\
     (forall b, ~ in_page q b -> load8 m1 b = load8 (k_mem k) b) /\
     (forall b, in_page q b -> load8 (k_mem k') b = load8 (fill q m1) b)).
Proof.
  intros Hu -> Hperm Hlf Hfill. pose proof Hu as [Hinv Hok Hn Hmap Htop]. unfold alloc_map.
  destruct l as [|q l].
  { left. exists k, t, []. erewrite bind_eq by (apply kalloc_nil_spec; apply Hinv). split_and!; [done|by apply us_step_refl|simpl; lia]. }
  pose proof (uspace_length _ _ _ _ Hu) as Hlen. unfold PGSIZE in Hlen.
  pose proof (uspace_pages_ok _ _ _ _ Hu) as Hall. rewrite Forall_forall in Hall.
  assert (page_ok q) as Hq.
  { apply Hall. rewrite !elem_of_app. right; right. apply list_elem_of_here. }
  pose proof (page_ok_range q Hq) as Hqr.
  destruct (vm_inv_kalloc k t q l Hinv) as (k1 & Hrun & Hinv1 & Hw1 & Hp1).
  erewrite bind_eq by exact Hrun. cbv beta. rewrite (proj2 (Z.eqb_neq q 0)) by lia. kpure.
  set (k2 := set_mem (fill q (k_mem k1)) k1).
  assert (page_write q k1 k2) as Hw2.
  { split; [by exists (fill q (k_mem k1)), (k_freelist k1)|]. intros b Hb. unfold k2. ksimp. by apply Hfill. }
  pose proof (page_write_trans _ _ _ _ Hw1 Hw2) as Hw.
  assert (q ∉ pt_pages t ++ u.*1 ++ l) as Hfresh by (by eapply add_fresh).
  destruct (page_write_keeps q k1 k2 t l Hw2) as [Hinv2 Hp2]; [done|done| |done|].
  { rewrite !elem_of_app in *. tauto. }
  destruct (mappages_page k2 t l (Z.of_nat (length u) * PGSIZE) q perm Hinv2)
    as [(k3 & u3 & Hrun3 & G3 & Hl3)|(k3 & u3 & l3 & Hrun3 & G3 & Hl3)];
    try (rewrite ?MAXVA_eq; unfold PGSIZE in *; dlia).
  { pose proof (page_ok_pos q Hq). unfold PHYSTOP, KERNBASE, PGSIZE in *. lia. }
  { rewrite Hp2, Hp1. apply Htop. change TRAPFRAME with (2^38 - 8192). unfold PGSIZE. lia. }
  all: erewrite bind_eq by exact Hrun3; cbv beta; cbn [truthy negb Z.eqb].
  - left. destruct (uspace_add_fail k t u q l k2 perm Hu Hw Hinv2 ltac:(by split) k3 u3 G3) as (k4 & Hrun4 & Hst).
    erewrite bind_eq by exact Hrun4. exists k4, u3, [q]. split_and!; [done|done|simpl; lia].
  - right. destruct (uspace_add_ok k t u q l k2 perm Hu Hw Hinv2 ltac:(by split) k3 u3 l3 G3) as (Hst & Hd).
    exists q, (k_mem k1), k3, u3, l3. split_and!; [done|done|simpl; lia|apply Hw1|].
    intros b Hb. rewrite Hd by done. unfold k2. by ksimp.
Qed.

(** ** [uvmalloc] *)

Definition PTE_USER : Z := Z.lor (Z.lor (Z.lor PTE_W PTE_X) PTE_R) PTE_U.

Lemma uvmalloc_loop_eq fuel pagetable a oldsz newsz :
  a < newsz ->
  uvmalloc_loop (S fuel) pagetable a oldsz newsz =
  alloc_map pagetable a PTE_USER (fun page m => memset m page 0 PGSIZE)
    (uvmdealloc pagetable a oldsz;; mret 0) (uvmalloc_loop fuel pagetable (u64 (a + PGSIZE)) oldsz newsz).
Proof. intros Ha. cbn [uvmalloc_loop]. by rewrite (proj2 (Z.ltb_lt _ _)). Qed.

Lemma npg_pages n : 0 <= n * PGSIZE < 2^64 - PGSIZE -> npg (n * PGSIZE) = n.
Proof. intros. rewrite npg_eq by done. unfold PGSIZE. dlia. Qed.

(** New pages are zero and have the user permissions. *)
Definition fresh_page (m : mem) (e : Z * Z) : Prop :=
  e.2 = PTE_USER /\ forall b, in_page e.1 b -> load8 m b = 0.

Lemma load8_memset_page m q b v : 0 <= v < 256 -> in_page q b -> load8 (memset m q v PGSIZE) b = v.
Proof. intros Hv Hb. rewrite load8_memset, decide_True by exact Hb. by apply u8_small. Qed.

Lemma PTE_USER_ok : 0 <= PTE_USER < 2^10 /\ Z.lor PTE_USER PTE_V <> PTE_V.
Proof. split; [split|]; vm_compute; congruence. Qed.

Lemma memset_in_page q m b : ~ in_page q b -> load8 (memset m q 0 PGSIZE) b = load8 m b.
Proof. intros Hb. rewrite load8_memset, decide_False; [done|]. exact Hb. Qed.

Lemma uvmalloc_loop_spec fuel k t u l oldsz newsz (n0 : nat) :
  uspace k t u l -> (n0 <= length u)%nat -> oldsz = Z.of_nat n0 * PGSIZE ->
  0 <= newsz < 2^64 - PGSIZE -> npg newsz - Z.of_nat (length u) <= Z.of_nat fuel ->
  exists r k' t' u' l',
    uvmalloc_loop fuel (root t) (Z.of_nat (length u) * PGSIZE) oldsz newsz k = Ret r k' /\
    ((exists v, r = newsz /\ u' = u ++ v /\ us_step k t u l k' t' u' l' /\
        Z.of_nat (length u') = Z.max (Z.of_nat (length u)) (npg newsz) /\ Forall (fresh_page (k_mem k')) v) \/
     (r = 0 /\ u' = take n0 u /\ us_step k t u l k' t' u' l' /\
        Z.of_nat (length l) <= 3 * (npg newsz - Z.of_nat (length u)))).
Proof.
  revert k t u l. induction fuel as [|fuel IH]; intros k t u l Hu Hn0 Hold Hnew Hfuel;
    pose proof (uspace_length _ _ _ _ Hu) as Hlen; unfold PGSIZE in Hlen;
    pose proof (npg_eq newsz Hnew) as Hnpg; unfold PGSIZE in Hnpg, Hnew;
    destruct (decide (Z.of_nat (length u) * PGSIZE < newsz)) as [Hlt|Hge]; unfold PGSIZE in *; try dlia.
  1, 3: exists newsz, k, t, u, l; split; [cbn [uvmalloc_loop]; by rewrite (proj2 (Z.ltb_ge _ _)) by lia|];
    left; exists []; rewrite app_nil_r; split_and!; [done|done|by apply us_step_refl|dlia|done].
  fold PGSIZE. rewrite uvmalloc_loop_eq by (unfold PGSIZE; lia).
  destruct (alloc_map_spec k t u l (Z.of_nat (length u) * PGSIZE) PTE_USER (fun page m => memset m page 0 PGSIZE)
    (uvmdealloc (root t) (Z.of_nat (length u) * PGSIZE) oldsz;; mret 0)
    (uvmalloc_loop fuel (root t) (u64 (Z.of_nat (length u) * PGSIZE + PGSIZE)) oldsz newsz) Hu eq_refl (proj1 PTE_USER_ok) (proj2 PTE_USER_ok)
    memset_in_page) as [(k1 & t1 & l1 & Hrun & Hst & Hl)|(q & m1 & k1 & t1 & l1 & Hrun & Hst & Hl & Hm1 & Hq)].
  - rewrite Hrun. rewrite <- (st_root _ _ _ _ _ _ _ _ Hst).
    destruct (uvmdealloc_spec k1 t1 u l1 (Z.of_nat (length u) * PGSIZE) oldsz (st_inv _ _ _ _ _ _ _ _ Hst))
      as (k2 & l2 & Hrun2 & Hst2); try (unfold PGSIZE in *; lia).
    { rewrite npg_pages; unfold PGSIZE; lia. }
    erewrite bind_eq by exact Hrun2. exists 0, k2, t1, (take n0 u), l2. split; [done|]. right.
    rewrite Hold, npg_pages, Nat2Z.id in Hst2 by (unfold PGSIZE; lia).
    split_and!; [done|done| |dlia]. eapply us_step_trans; [exact Hst|exact Hst2|]. auto.
  - rewrite Hrun. rewrite <- (st_root _ _ _ _ _ _ _ _ Hst).
    destruct (IH k1 t1 (u ++ [(q, PTE_USER)]) l1 (st_inv _ _ _ _ _ _ _ _ Hst))
      as (r & k2 & t2 & u2 & l2 & Hrun2 & Hres); rewrite ?length_app; simpl; try (unfold PGSIZE; lia); try done.
    rewrite length_app in Hrun2. simpl in Hrun2.
    exists r, k2, t2, u2, l2. split.
    { rewrite u64_small by (unfold PGSIZE; lia). rewrite <- Hrun2. f_equal. unfold PGSIZE. lia. }
    rewrite length_app in Hres. simpl in Hres.
    destruct Hres as [(v & -> & -> & Hst2 & Hlen2 & Hv)|(-> & -> & Hst2 & Hl2)].
    + left. exists ((q, PTE_USER) :: v). rewrite <- app_assoc in *. simpl in *. split_and!; [done|done| | |].
      * eapply us_step_trans; [exact Hst|exact Hst2|]. intros i e Hi _. by apply lookup_app_l_Some.
      * rewrite Hlen2. dlia.
      * apply Forall_cons. split; [|exact Hv]. split; [done|]. intros b Hb. simpl in Hb.
        assert ((u ++ (q, PTE_USER) :: v) !! length u = Some (q, PTE_USER)) as Hlk by (by rewrite list_lookup_middle).
        rewrite (st_data _ _ _ _ _ _ _ _ Hst2 (length u) (q, PTE_USER) b); [|by rewrite list_lookup_middle|done|done].
        rewrite Hq by done. by apply load8_memset_page.
    + right. rewrite take_app_le in Hst2 by lia. split_and!; [done|by rewrite take_app_le by lia| |dlia].
      rewrite take_app_le by lia. eapply us_step_trans; [exact Hst|exact Hst2|].
      intros i e Hi _. by apply lookup_app_l_Some.
Qed.

End proofs.
