(* ===== verification/VmFree.v ===== *)
(** * Tearing an address space down: [freewalk] and [uvmfree]

    [subtree n m p pgs]: the page [p] is the root of a table of [n] levels in
    memory [m], without leaf entries, whose pages are [pgs]. [freewalk]
    returns all of them to the free list; [uvmfree] returns the pages of the
    table and the pages it maps, so a process that is freed leaks nothing. *)

From S2P Require Import Prelude Riscv Monad State Kstring Kalloc Vm VmInv VmMap Uspace.
#[local] Open Scope Z_scope.

#[local] Opaque memset memmove store64 load64 kalloc kfree walk link mappages.

Fixpoint subtree (n : nat) (m : mem) (p : Z) (pgs : list Z) : Prop :=
  match n with
  | O => False
  | S n' =>
      exists f : Z -> list Z, pgs = p :: (seqZ 0 512 ≫= f) /\
      forall i, 0 <= i < 512 ->
        (f i = [] /\ pte_has (load64 m (p + 8 * i)) PTE_V = false) \/
        (exists q, load64 m (p + 8 * i) = mkpte q 0 /\ subtree n' m q (f i))
  end.

Section proofs.
Context {L : Layout} {LOk : LayoutOk L}.
Implicit Types (m : mem) (t : ptree).

Lemma subtree_ext n m m' p pgs :
  (forall q a, q ∈ pgs -> in_page q a -> load8 m' a = load8 m a) ->
  subtree n m p pgs -> subtree n m' p pgs.
Proof.
  revert p pgs. induction n as [|n IH]; intros p pgs Hm; cbn [subtree]; [done|].
  intros (f & -> & Hf). exists f. split; [done|]. intros i Hi.
  assert (load64 m' (p + 8 * i) = load64 m (p + 8 * i)) as ->.
  { apply load64_page_ext; [done|]. intros a. apply Hm, list_elem_of_here. }
  destruct (Hf i Hi) as [H0|(q & Hq & Hs)]; [by left|right]. exists q. split; [done|].
  apply IH; [|done]. intros r a Hr. apply Hm, list_elem_of_further, list_elem_of_bind.
  exists i. split; [done|]. apply elem_of_seqZ. lia.
Qed.

Lemma subtree_root n m p pgs : subtree n m p pgs -> p ∈ pgs.
Proof. destruct n; cbn [subtree]; [done|]. intros (f & -> & _). apply list_elem_of_here. Qed.

(** A call that frees exactly the pages [pgs]. *)
Definition frees (c : K unit) (pgs : list Z) (k : kernel) : Prop :=
  forall l, free_pages k l -> NoDup (pgs ++ l) -> KmemLock ∉ k_held k ->
  exists k' l', c k = Ret () k' /\ mem_only k k' /\ free_pages k' l' /\ l' ≡ₚ pgs ++ l /\
    (forall a, (forall p, p ∈ pgs -> ~ in_page p a) -> load8 (k_mem k') a = load8 (k_mem k) a).

(** The flags of a table entry: valid and not a leaf. *)
Lemma table_entry q : page_ok q ->
  pte_has (mkpte q 0) PTE_V = true /\ pte_has (mkpte q 0) (Z.lor (Z.lor PTE_R PTE_W) PTE_X) = false.
Proof.
  intros Hq. pose proof (page_range56 q Hq). split; [apply pte_has_mkpte_V|]. unfold pte_has, truthy.
  replace (Z.land (mkpte q 0) _) with (Z.land (Z.land (mkpte q 0) (Z.ones 10)) (Z.lor (Z.lor PTE_R PTE_W) PTE_X)).
  - change (Z.ones 10) with 0x3FF. fold (PTE_FLAGS (mkpte q 0)). by rewrite PTE_FLAGS_mkpte.
  - rewrite <- Z.land_assoc. done.
Qed.

Lemma elem_of_children (f : Z -> list Z) i n j q :
  i <= j < i + Z.of_nat n -> q ∈ f j -> q ∈ (seqZ i (Z.of_nat n) ≫= f).
Proof. intros Hj Hq. apply list_elem_of_bind. exists j. split; [done|]. apply elem_of_seqZ. lia. Qed.

(** Freeing the child of entry [i] of [p]. *)
Lemma freewalk_entry (child : Z -> K unit) p q pgs i k l :
  page_ok p -> 0 <= i < 512 -> frees (child q) pgs k -> Forall page_ok pgs -> p ∉ pgs ++ l ->
  free_pages k l -> NoDup (pgs ++ l) -> KmemLock ∉ k_held k ->
  exists k' l', (child q;; store64_k (p + 8 * i) 0) k = Ret () k' /\ mem_only k k' /\
    free_pages k' l' /\ l' ≡ₚ pgs ++ l /\
    (forall j, 0 <= j < 512 -> j <> i -> load64 (k_mem k') (p + 8 * j) = load64 (k_mem k) (p + 8 * j)) /\
    (forall a, ~ in_page p a -> (forall r, r ∈ pgs -> ~ in_page r a) -> load8 (k_mem k') a = load8 (k_mem k) a).
Proof.
  intros Hp Hi Hfr Hok Hnin Hf Hnd Hlk.
  destruct (Hfr l Hf Hnd Hlk) as (k1 & l1 & Hrun & Ho1 & Hf1 & Hl1 & Hm1).
  erewrite bind_eq by exact Hrun. eexists _, l1. split_and!; [reflexivity| | |done| |].
  - transitivity k1; [done|]. apply mem_only_set_mem.
  - eapply free_pages_ext; [by ksimp| |exact Hf1]. intros r a Hr Ha. ksimp. apply load8_store64_ne.
    intros Hin. apply Hnin. rewrite <- Hl1. rewrite (page_ok_disjoint p r a); try done.
    + by eapply free_pages_nonzero.
    + by apply (entry_in_page p i).
  - intros j Hj Hne. ksimp. rewrite load64_store64_ne.
    + apply load64_page_ext; [done|]. intros a Ha. apply Hm1. intros r Hr Hra. apply Hnin, elem_of_app. left.
      rewrite (page_ok_disjoint p r a); try done. eapply Forall_forall; [exact Hok|done].
    + apply entries_disjoint; [by apply page_ok_aligned..|lia|lia|right; lia].
  - intros a Hpa Ha. ksimp. rewrite load8_store64_ne; [by apply Hm1|].
    intros Hin. by apply Hpa, (entry_in_page p i).
Qed.

(** The loop of [freewalk] over entries [i], ..., [i + n - 1] of [p]. *)
Lemma freewalk_loop_spec lev child p f n i k :
  page_ok p -> 0 <= i -> i + Z.of_nat n <= 512 ->
  (forall q pgs k', subtree lev (k_mem k') q pgs -> Forall page_ok pgs -> frees (child q) pgs k') ->
  (forall j, i <= j < i + Z.of_nat n ->
     (f j = [] /\ pte_has (load64 (k_mem k) (p + 8 * j)) PTE_V = false) \/
     (exists q, load64 (k_mem k) (p + 8 * j) = mkpte q 0 /\ subtree lev (k_mem k) q (f j))) ->
  Forall page_ok (seqZ i (Z.of_nat n) ≫= f) ->
  forall l, free_pages k l -> NoDup (p :: (seqZ i (Z.of_nat n) ≫= f) ++ l) -> KmemLock ∉ k_held k ->
  exists k' l', freewalk_loop child n p i k = Ret () k' /\ mem_only k k' /\ free_pages k' l' /\
    l' ≡ₚ (seqZ i (Z.of_nat n) ≫= f) ++ l /\
    (forall a, ~ in_page p a -> (forall q, q ∈ (seqZ i (Z.of_nat n) ≫= f) -> ~ in_page q a) ->
       load8 (k_mem k') a = load8 (k_mem k) a).
Proof.
  intros Hp Hi Hn Hchild. revert i k Hi Hn. induction n as [|n IH]; intros i k Hi Hn Hent Hok l Hf Hnd Hlk.
  { exists k, l. by split_and!. }
  rewrite seqZ_cons in * by lia. replace (Z.pred (Z.of_nat (S n))) with (Z.of_nat n) in * by lia.
  rewrite bind_cons in *. apply Forall_app in Hok as [Hok1 Hok2]. cbn [freewalk_loop].
  kpure. destruct (Hent i ltac:(lia)) as [[Hfi Hv]|(q & Hq & Hsub)].
  - rewrite Hfi in *. rewrite Hv. cbn [andb]. kpure. rewrite Z.add_1_r.
    apply (IH (Z.succ i) k); try done; try lia. intros j Hj. apply Hent. lia.
  - assert (page_ok q) as Hqok by (eapply Forall_forall; [exact Hok1|by eapply subtree_root]).
    rewrite Hq. destruct (table_entry q Hqok) as [-> ->]. cbn [andb negb]. rewrite PTE2PA_page by (done || lia).
    apply NoDup_cons in Hnd as [Hpn Hnd]. rewrite <- app_assoc in Hnd, Hpn.
    assert (NoDup (f i ++ l)) as Hnd1.
    { rewrite Permutation_app_swap_app in Hnd. by apply NoDup_app in Hnd as (_ & _ & ?). }
    destruct (freewalk_entry child p q (f i) i k l) as (k1 & l1 & Hrun & Ho1 & Hf1 & Hl1 & He1 & Hm1); auto; [lia| |].
    { rewrite !elem_of_app in *. tauto. }
    erewrite bind_eq by exact Hrun. rewrite Z.add_1_r.
    destruct (IH (Z.succ i) k1) with (l := l1) as (k3 & l3 & Hrun3 & Ho3 & Hf3 & Hl3 & Hm3); try lia; try done.
    { intros j Hj. rewrite He1 by lia. destruct (Hent j) as [?|(r & Hr & Hs)]; [lia|by left|right].
      exists r. split; [done|]. eapply subtree_ext; [|exact Hs]. intros s a Hs' Ha.
      pose proof (elem_of_children f (Z.succ i) n j s Hj Hs') as Hch.
      assert (page_ok s) by (eapply Forall_forall; [exact Hok2|done]). apply Hm1.
      - intros Hpa. apply Hpn. rewrite (page_ok_disjoint p s a), !elem_of_app by done. tauto.
      - intros s' Hs1 Hsa. apply NoDup_app in Hnd as (_ & Hd & _). apply (Hd s' Hs1).
        rewrite (page_ok_disjoint s' s a), !elem_of_app; auto. eapply Forall_forall; [exact Hok1|done]. }
    { rewrite Hl1, Permutation_app_swap_app. by apply NoDup_cons. }
    { by rewrite (mem_only_held k k1). }
    exists k3, l3. split_and!; [done|by transitivity k1|done| |].
    + rewrite Hl3, Hl1, Permutation_app_swap_app. by rewrite app_assoc.
    + intros a Hpa Ha. rewrite Hm3, Hm1; [done|done| |done|]; intros r Hr; apply Ha, elem_of_app; tauto.
Qed.

Lemma freewalk_spec n p pgs k :
  subtree n (k_mem k) p pgs -> Forall page_ok pgs -> frees (freewalk n p) pgs k.
Proof.
  revert p pgs k. induction n as [|n IH]; intros p pgs k; cbn [subtree]; [done|].
  intros (f & -> & Hf) [Hp Hok]%Forall_cons l Hfp Hnd Hlk. cbn [freewalk].
  destruct (freewalk_loop_spec n (freewalk n) p f 512 0 k) with (l := l)
    as (k1 & l1 & Hrun & Ho1 & Hf1 & Hl1 & Hm1); try done; try lia.
  change (Z.of_nat 512) with 512 in *. erewrite bind_eq by exact Hrun.
  destruct (kfree_spec k1 l1 p Hf1 Hp) as (m' & Hrun2 & Hf2 & Hm2).
  { rewrite Hl1. by apply NoDup_cons in Hnd as [? _]. }
  { by rewrite (mem_only_held k k1). }
  eexists _, (p :: l1). split_and!; [exact Hrun2| |done| |].
  - transitivity k1; [done|]. apply mem_only_set.
  - by rewrite Hl1.
  - intros a Ha. ksimp. rewrite Hm2, Hm1; [done| | |].
    + apply Ha, list_elem_of_here.
    + intros q Hq. by apply Ha, list_elem_of_further.
    + apply Ha, list_elem_of_here.
Qed.

(** ** The pages of a table in the order [freewalk] visits them *)

Definition kids0 (t : ptree) (i j : Z) : list Z := option_list (t0 t !! (i, j)).
Definition kids1 (t : ptree) (i : Z) : list Z :=
  match t1 t !! i with Some p => p :: (seqZ 0 512 ≫= kids0 t i) | None => [] end.
Definition walk_pages (t : ptree) : list Z := root t :: (seqZ 0 512 ≫= kids1 t).

Lemma bind_nil_const (l : list Z) : l ≫= (fun _ => [] : list Z) = [].
Proof. induction l; [done|]. by rewrite bind_cons. Qed.

Lemma va_of_indices i j x :
  0 <= i < 256 -> 0 <= j < 512 -> 0 <= x < 512 ->
  exists va, 0 <= va < MAXVA /\ PX 2 va = i /\ PX 1 va = j /\ PX 0 va = x.
Proof.
  intros. exists (i * 1073741824 + j * 2097152 + x * 4096).
  rewrite MAXVA_eq, PX2_eq, PX1_eq, PX0_eq. dlia.
Qed.

Lemma no_leaves m t i j p x :
  pt_rep m t -> (forall va, 0 <= va < MAXVA -> pte_has (pte_of m t va) PTE_V = false) ->
  t0 t !! (i, j) = Some p -> 0 <= x < 512 -> pte_has (load64 m (p + 8 * x)) PTE_V = false.
Proof.
  intros Hr Hno Hp Hx. pose proof (pr_range0 _ _ Hr _ _ _ Hp). destruct (pr_dom _ _ Hr _ _ _ Hp) as [q Hq].
  pose proof (pr_range1 _ _ Hr _ _ Hq). destruct (va_of_indices i j x) as (va & Hva & <- & <- & <-); try done.
  specialize (Hno va Hva). unfold pte_of, slot in Hno. rewrite Hp in Hno. done.
Qed.

Lemma pt_rep_subtree m t :
  pt_rep m t -> (forall va, 0 <= va < MAXVA -> pte_has (pte_of m t va) PTE_V = false) ->
  subtree 3 m (root t) (walk_pages t).
Proof.
  intros Hr Hno. exists (kids1 t). split; [done|]. intros i Hi.
  pose proof (pr_root _ _ Hr i Hi) as He. unfold kids1.
  destruct (t1 t !! i) as [p|] eqn:E1; simpl in He; [right|by left].
  exists p. split; [done|]. exists (kids0 t i). split; [done|]. intros j Hj.
  pose proof (pr_mid _ _ Hr i p j E1 Hj) as He0. unfold kids0.
  destruct (t0 t !! (i, j)) as [q|] eqn:E0; simpl in He0; [right|by left].
  exists q. split; [done|]. exists (fun _ => []). rewrite bind_nil_const. split; [done|].
  intros x Hx. left. split; [done|]. by eapply no_leaves.
Qed.

Lemma elem_of_kids0 t i j q : q ∈ kids0 t i j <-> t0 t !! (i, j) = Some q.
Proof.
  unfold kids0. destruct (t0 t !! (i, j)); simpl; [rewrite list_elem_of_singleton|rewrite elem_of_nil]; naive_solver.
Qed.

Lemma elem_of_walk_pages m t q : pt_rep m t -> q ∈ walk_pages t <-> q ∈ pt_pages t.
Proof.
  intros Hr. unfold walk_pages, pt_pages. rewrite !elem_of_cons, elem_of_app, !list_elem_of_fmap, list_elem_of_bind.
  apply or_iff_compat_l. split.
  - intros (i & Hq & _). unfold kids1 in Hq. destruct (t1 t !! i) as [p|] eqn:E1; [|by apply elem_of_nil in Hq].
    apply elem_of_cons in Hq as [->|Hq].
    + left. exists (i, p). by rewrite elem_of_map_to_list.
    + apply list_elem_of_bind in Hq as (j & Hq%elem_of_kids0 & _). right. exists ((i, j), q). by rewrite elem_of_map_to_list.
  - intros [([i p] & -> & Hi%elem_of_map_to_list)|([[i j] p] & -> & Hi%elem_of_map_to_list)]; simpl.
    + exists i. pose proof (pr_range1 _ _ Hr _ _ Hi). rewrite elem_of_seqZ. split; [|lia].
      unfold kids1. rewrite Hi. apply list_elem_of_here.
    + destruct (pr_dom _ _ Hr _ _ _ Hi) as [p1 H1]. exists i. pose proof (pr_range1 _ _ Hr _ _ H1).
      pose proof (pr_range0 _ _ Hr _ _ _ Hi). rewrite elem_of_seqZ. split; [|lia].
      unfold kids1. rewrite H1. apply list_elem_of_further, list_elem_of_bind. exists j.
      rewrite elem_of_seqZ. split; [by apply elem_of_kids0|lia].
Qed.

Lemma NoDup_seqZ_bind (f : Z -> list Z) :
  (forall i j q, q ∈ f i -> q ∈ f j -> i = j) -> (forall i, NoDup (f i)) -> NoDup (seqZ 0 512 ≫= f).
Proof. intros Hf Hn. apply NoDup_bind; [by eauto|by eauto|apply NoDup_seqZ]. Qed.

Lemma NoDup_walk_pages t : NoDup (pt_pages t) -> NoDup (walk_pages t).
Proof.
  intros Hn. pose proof (pt_nodup_inv t Hn) as (H1r & H0r & H10 & H11 & H00). unfold walk_pages, kids1.
  apply NoDup_cons. split.
  - intros (i & Hq & _)%list_elem_of_bind. destruct (t1 t !! i) as [p|] eqn:E1; [|by apply elem_of_nil in Hq].
    apply elem_of_cons in Hq as [Hq|(j & Hq%elem_of_kids0 & _)%list_elem_of_bind]; [by eapply H1r|by eapply H0r].
  - apply NoDup_seqZ_bind.
    + intros i j q Hi Hj. destruct (t1 t !! i) as [p|] eqn:Ei; [|by apply elem_of_nil in Hi].
      destruct (t1 t !! j) as [p'|] eqn:Ej; [|by apply elem_of_nil in Hj].
      apply elem_of_cons in Hi as [->|(x & Hi%elem_of_kids0 & _)%list_elem_of_bind];
        apply elem_of_cons in Hj as [->|(y & Hj%elem_of_kids0 & _)%list_elem_of_bind].
      * by eapply H11.
      * exfalso. exact (H10 _ _ _ Ei Hj).
      * exfalso. exact (H10 _ _ _ Ej Hi).
      * by pose proof (H00 _ _ _ Hi Hj) as [= ].
    + intros i. destruct (t1 t !! i) as [p|] eqn:Ei; [|apply NoDup_nil_2]. apply NoDup_cons. split.
      * intros (j & Hq%elem_of_kids0 & _)%list_elem_of_bind. by eapply H10.
      * apply NoDup_seqZ_bind.
        -- intros x y q Hx%elem_of_kids0 Hy%elem_of_kids0. by pose proof (H00 _ _ _ Hx Hy) as [= ].
        -- intros x. unfold kids0. destruct (t0 t !! _); [apply NoDup_singleton|apply NoDup_nil_2].
Qed.

Lemma walk_pages_perm m t : pt_rep m t -> NoDup (pt_pages t) -> walk_pages t ≡ₚ pt_pages t.
Proof.
  intros Hr Hn. apply NoDup_Permutation; [by apply NoDup_walk_pages|done|]. intros q. by eapply elem_of_walk_pages.
Qed.

(** [freewalk] on a table whose leaf entries have been removed. *)
Lemma freewalk_table k t l :
  vm_inv k t l -> (forall va, 0 <= va < MAXVA -> pte_has (pte_of (k_mem k) t va) PTE_V = false) ->
  exists k' l', freewalk 3 (root t) k = Ret () k' /\ mem_only k k' /\ free_pages k' l' /\
    l' ≡ₚ pt_pages t ++ l /\
    (forall a, (forall p, p ∈ pt_pages t -> ~ in_page p a) -> load8 (k_mem k') a = load8 (k_mem k) a).
Proof.
  intros [Hf Hr Hok Hn Hlk] Hno. pose proof Hn as (Hnt & _ & _)%NoDup_app.
  pose proof (walk_pages_perm _ _ Hr Hnt) as Hperm.
  destruct (freewalk_spec 3 (root t) (walk_pages t) k (pt_rep_subtree _ _ Hr Hno)) with (l := l)
    as (k' & l' & Hrun & Ho & Hf' & Hl' & Hm); try done.
  - by rewrite Hperm.
  - by rewrite Hperm.
  - exists k', l'. split_and!; try done.
    + by rewrite Hl', Hperm.
    + intros a Ha. apply Hm. intros p Hp. apply Ha. by rewrite <- Hperm.
Qed.

(** ** [uvmfree] *)

(** The [uvmunmap] at the start of [uvmfree]. *)
Lemma uvmfree_unmap k t u l sz :
  uspace k t u l -> 0 <= sz < 2^64 - PGSIZE -> Z.of_nat (length u) = npg sz ->
  exists k1 l1, when (0 <? sz) (uvmunmap (root t) 0 (PGROUNDUP sz / PGSIZE) true) k = Ret () k1 /\
    us_step k t u l k1 t [] l1.
Proof.
  intros Hu Hsz Hlen. destruct (Z.ltb_spec 0 sz); cbn [when].
  - destruct (uspace_unmap k t u l 0 Hu ltac:(lia)) as (k1 & Hrun & Hst).
    rewrite take_0, Nat.sub_0_r, Hlen in *. by eexists _, _.
  - exists k, l. rewrite npg_eq in Hlen by done. unfold PGSIZE in *.
    assert (length u = 0%nat) as ->%nil_length_inv by dlia. split; [done|]. by apply us_step_refl.
Qed.

Lemma uvmfree_spec k t u l sz :
  uspace k t u l -> 0 <= sz < 2^64 - PGSIZE -> Z.of_nat (length u) = npg sz ->
  (forall va, TRAPFRAME <= va < MAXVA -> pte_has (pte_of (k_mem k) t va) PTE_V = false) ->
  exists k' l', uvmfree (root t) sz k = Ret () k' /\ mem_only k k' /\ free_pages k' l' /\
    l' ≡ₚ pt_pages t ++ u.*1 ++ l /\
    (forall a, (forall p, p ∈ pt_pages t ++ u.*1 ++ l -> ~ in_page p a) -> load8 (k_mem k') a = load8 (k_mem k) a).
Proof.
  intros Hu Hsz Hlen Hhi. unfold uvmfree.
  destruct (uvmfree_unmap k t u l sz Hu Hsz Hlen) as (k1 & l1 & Hrun & Hst).
  erewrite bind_eq by exact Hrun. pose proof Hst as [Hu1 _ Hown Ho Hm _ Hhi1]. change ([].*1 ++ l1) with l1 in Hown.
  destruct (freewalk_table k1 t l1 (us_inv _ _ _ _ Hu1)) as (k2 & l2 & Hrun2 & Ho2 & Hf2 & Hl2 & Hm2).
  { intros va Hva. destruct (decide (va < TRAPFRAME)).
    - apply (us_top _ _ _ _ Hu1). simpl. lia.
    - rewrite Hhi1 by lia. apply Hhi. lia. }
  exists k2, l2. split_and!; [done|by transitivity k1|done|by rewrite Hl2|].
  intros a Ha. rewrite Hm2, Hm; [done|done|]. intros p Hp. apply Ha. rewrite <- Hown. apply elem_of_app. by left.
Qed.

(** ** [uvmcopy] *)

(** The parent's address space: what [uvmcopy] reads. *)
Record uview (m : mem) (t : ptree) (u : list (Z * Z)) : Prop := {
  uv_rep : pt_rep m t;
  uv_pages : Forall page_ok (pt_pages t);
  uv_ok : Forall leaf_ok u;
  uv_map i e : u !! i = Some e -> pte_of m t (Z.of_nat i * PGSIZE) = mkpte e.1 e.2
}.

Lemma uview_ext m m' t u :
  (forall p a, p ∈ pt_pages t -> in_page p a -> load8 m' a = load8 m a) -> uview m t u -> uview m' t u.
Proof.
  intros Hm [Hr Hp Hok Hmap]. split; [by eapply pt_rep_ext|done|done|].
  intros i e Hi. rewrite <- (Hmap i e Hi). by apply pte_of_ext.
Qed.

(** The copy of a page: same permissions, same bytes. *)
Definition copied (m m' : mem) (eo en : Z * Z) : Prop :=
  en.2 = Z.lor eo.2 PTE_V /\ forall off, 0 <= off < PGSIZE -> load8 m' (en.1 + off) = load8 m (eo.1 + off).

Lemma uvmcopy_loop_eq fuel old new i sz k t e :
  i < sz -> uview (k_mem k) t [] -> old = root t -> 0 <= i < MAXVA -> leaf_ok e ->
  pte_of (k_mem k) t i = mkpte e.1 e.2 ->
  uvmcopy_loop (S fuel) old new i sz k =
  alloc_map new i (Z.lor e.2 PTE_V) (fun page m => memmove m page e.1 PGSIZE)
    (uvmcopy_err new i) (uvmcopy_loop fuel old new (u64 (i + PGSIZE)) sz) k.
Proof.
  intros Hi [Hr Hok _ _] -> Hva (Hp & Hperm & _) Hpte. cbn [uvmcopy_loop]. rewrite (proj2 (Z.ltb_lt _ _)) by done.
  destruct (mkpte_slot _ _ _ _ _ Hpte) as [s Hs]. erewrite bind_eq by (by apply walk_lookup). cbv beta.
  rewrite Hs. simpl. pose proof (slot_range t i s Hok Hs). rewrite (proj2 (Z.eqb_neq s 0)) by lia.
  pose proof (page_range56 _ Hp). kpure. rewrite (load_slot _ _ _ _ Hs), Hpte, pte_has_mkpte_V. cbn [negb]. cbv zeta.
  rewrite PTE_FLAGS_mkpte, PTE2PA_page by done. done.
Qed.

(** Pages outside an address space keep their contents in its steps. *)
Lemma us_step_frame k t u l k' t' u' l' p a :
  uspace k t u l -> us_step k t u l k' t' u' l' -> page_ok p -> p ∉ pt_pages t ++ u.*1 ++ l ->
  in_page p a -> load8 (k_mem k') a = load8 (k_mem k) a.
Proof.
  intros Hu Hst Hp Hnin Ha. apply (st_mem _ _ _ _ _ _ _ _ Hst). intros q Hq Hqa. apply Hnin.
  rewrite (page_ok_disjoint p q a); try done.
  pose proof (uspace_pages_ok _ _ _ _ Hu) as Hall. rewrite Forall_forall in Hall. by apply Hall.
Qed.

Lemma uvmcopy_err_spec k t u l :
  uspace k t u l ->
  exists k' l', uvmcopy_err (root t) (Z.of_nat (length u) * PGSIZE) k = Ret (-1) k' /\ us_step k t u l k' t [] l'.
Proof.
  intros Hu. destruct (uspace_unmap k t u l 0 Hu ltac:(lia)) as (k' & Hrun & Hst).
  rewrite take_0, Nat.sub_0_r in *. unfold uvmcopy_err. rewrite Z.div_mul by (unfold PGSIZE; lia).
  erewrite bind_eq by exact Hrun. by eexists _, _.
Qed.

Lemma leaf_ok_V e : leaf_ok e -> 0 <= Z.lor e.2 PTE_V < 2^10 /\ Z.lor (Z.lor e.2 PTE_V) PTE_V <> PTE_V.
Proof.
  intros (_ & Hp & Hv). split; [by apply perm_V_bound|]. by rewrite <- Z.lor_assoc, Z.lor_diag.
Qed.

Section copy.
Context (m0 : mem) (to : ptree) (uo : list (Z * Z)).

(** The parent's view and the copies made so far. *)
Record copying (k : kernel) (t : ptree) (u : list (Z * Z)) (l : list Z) : Prop := {
  cp_view : uview (k_mem k) to uo;
  cp_new : uspace k t u l;
  cp_sep p : p ∈ pt_pages to ++ uo.*1 -> p ∉ pt_pages t ++ u.*1 ++ l;
  cp_same e a : e ∈ uo -> in_page e.1 a -> load8 (k_mem k) a = load8 m0 a;
  cp_done i eo en : uo !! i = Some eo -> u !! i = Some en -> copied m0 (k_mem k) eo en
}.

Lemma copying_step k t u l eo q k' t' l' m1 :
  copying k t u l -> uo !! length u = Some eo ->
  us_step k t u l k' t' (u ++ [(q, Z.lor eo.2 PTE_V)]) l' ->
  (forall b, ~ in_page q b -> load8 m1 b = load8 (k_mem k) b) ->
  (forall b, in_page q b -> load8 (k_mem k') b = load8 (memmove m1 q eo.1 PGSIZE) b) ->
  copying k' t' (u ++ [(q, Z.lor eo.2 PTE_V)]) l'.
Proof.
  intros [Hv Hu Hsep Hsame Hdone] Heo Hst Hm1 Hq.
  assert (forall p, p ∈ pt_pages to ++ uo.*1 -> page_ok p) as Hpok.
  { intros p [Hp|Hp]%elem_of_app; [eapply Forall_forall; [apply Hv|done]|].
    apply list_elem_of_fmap in Hp as (e & -> & He). by pose proof (proj1 (Forall_forall _ _) (uv_ok _ _ _ Hv) e He) as [? _]. }
  assert (forall p a, p ∈ pt_pages to ++ uo.*1 -> in_page p a -> load8 (k_mem k') a = load8 (k_mem k) a) as Hfr.
  { intros p a Hp. apply (us_step_frame _ _ _ _ _ _ _ _ p a Hu Hst); auto. }
  assert (forall e, e ∈ uo -> e.1 ∈ pt_pages to ++ uo.*1) as Hin.
  { intros e He. apply elem_of_app. right. apply list_elem_of_fmap. by exists e. }
  pose proof (st_inv _ _ _ _ _ _ _ _ Hst) as Hu'.
  split.
  - eapply uview_ext; [|exact Hv]. intros p a Hp. apply Hfr, elem_of_app. by left.
  - done.
  - intros p Hp. rewrite (st_own _ _ _ _ _ _ _ _ Hst). by apply Hsep.
  - intros e a He Ha. rewrite (Hfr e.1) by auto. by apply (Hsame e).
  - intros i e en Hi Hn. apply lookup_app_Some in Hn as [Hn|[Hle Hn]].
    + destruct (Hdone i e en Hi Hn) as [Hp Hb]. split; [done|]. intros off Hoff. rewrite <- Hb by done.
      apply (st_data _ _ _ _ _ _ _ _ Hst i en); [done|by apply lookup_app_l_Some|]. unfold in_page. lia.
    + apply list_lookup_singleton_Some in Hn as [Hn <-]. assert (i = length u) as -> by lia.
      assert (e = eo) as -> by congruence. split; [done|]. intros off Hoff. simpl.
      rewrite Hq, load8_memmove, decide_True by (unfold in_page, PGSIZE in *; lia).
      replace (eo.1 + (q + off - q)) with (eo.1 + off) by lia.
      assert (in_page eo.1 (eo.1 + off)) as Ha by (unfold in_page; lia).
      assert (eo ∈ uo) as Heo' by (by eapply list_elem_of_lookup_2).
      rewrite Hm1; [by apply (Hsame eo)|]. intros Hqa. apply (Hsep eo.1 (Hin eo Heo')).
      rewrite <- (st_own _ _ _ _ _ _ _ _ Hst), fmap_app, !elem_of_app. right; left; right.
      rewrite (page_ok_disjoint eo.1 q (eo.1 + off)); [apply list_elem_of_here|auto| |done|done].
      pose proof (us_ok _ _ _ _ Hu') as [_ [Hqo _]%Forall_singleton]%Forall_app. apply Hqo.
Qed.

Lemma uvmcopy_loop_spec fuel sz k t u l :
  copying k t u l -> 0 <= sz < 2^64 - PGSIZE -> Z.of_nat (length uo) = npg sz -> Z.of_nat (length uo) * PGSIZE <= 2^27 ->
  (length u <= length uo)%nat -> (length uo - length u <= fuel)%nat ->
  exists r k' t' u' l',
    uvmcopy_loop fuel (root to) (root t) (Z.of_nat (length u) * PGSIZE) sz k = Ret r k' /\
    us_step k t u l k' t' u' l' /\
    (r = 0 /\ length u' = length uo /\ u `prefix_of` u' /\ copying k' t' u' l' \/
     r = -1 /\ u' = [] /\ (length l <= 3 * (length uo - length u))%nat).
Proof.
  revert k t u l. induction fuel as [|fuel IH]; intros k t u l Hc Hsz Hnpg Hlen Hle Hfuel;
    pose proof (npg_eq sz Hsz) as Hn; rewrite Hn in Hnpg; unfold PGSIZE in Hlen, Hnpg;
    destruct (decide (length u = length uo)) as [Heq|Hne]; try lia.
  1, 2: exists 0, k, t, u, l; split; [cbn [uvmcopy_loop]; rewrite (proj2 (Z.ltb_ge _ _)) by (unfold PGSIZE; dlia); done|];
    split; [apply us_step_refl, Hc|left; by split_and!].
  destruct (lookup_lt_is_Some_2 uo (length u) ltac:(lia)) as [eo Heo].
  pose proof Hc as [Hv Hu Hsep Hsame Hdone].
  pose proof (proj1 (Forall_forall _ _) (uv_ok _ _ _ Hv) eo ltac:(by eapply list_elem_of_lookup_2)) as Hleaf.
  destruct (leaf_ok_V eo Hleaf) as [Hpb Hpv].
  rewrite (uvmcopy_loop_eq fuel _ _ _ _ _ to eo); try done;
    [|unfold PGSIZE; dlia|by split; try apply Hv|rewrite MAXVA_eq; unfold PGSIZE; lia|by apply (uv_map _ _ _ Hv)].
  destruct (alloc_map_spec k t u l _ (Z.lor eo.2 PTE_V) (fun page m => memmove m page eo.1 PGSIZE)
    (uvmcopy_err (root t) (Z.of_nat (length u) * PGSIZE))
    (uvmcopy_loop fuel (root to) (root t) (u64 (Z.of_nat (length u) * PGSIZE + PGSIZE)) sz) Hu eq_refl Hpb Hpv)
    as [(k1 & t1 & l1 & Hrun & Hst & Hl)|(q & m1 & k1 & t1 & l1 & Hrun & Hst & Hl & Hm1 & Hq)].
  { intros q m b Hb. rewrite load8_memmove, decide_False; [done|exact Hb|done]. }
  - rewrite Hrun, <- (st_root _ _ _ _ _ _ _ _ Hst).
    destruct (uvmcopy_err_spec k1 t1 u l1 (st_inv _ _ _ _ _ _ _ _ Hst)) as (k2 & l2 & Hrun2 & Hst2).
    exists (-1), k2, t1, [], l2. split; [done|]. split; [|right; split_and!; [done|done|lia]].
    eapply us_step_trans; [exact Hst|exact Hst2|done].
  - rewrite Hrun, <- (st_root _ _ _ _ _ _ _ _ Hst).
    pose proof (copying_step k t u l eo q k1 t1 l1 m1 Hc Heo Hst Hm1 Hq) as Hc1.
    destruct (IH k1 t1 _ l1 Hc1) as (r & k2 & t2 & u2 & l2 & Hrun2 & Hst2 & Hres); rewrite ?length_app; simpl;
      try (unfold PGSIZE; lia); try done; [by rewrite Hn|].
    exists r, k2, t2, u2, l2. rewrite length_app in *. simpl in *. split_and!.
    + rewrite u64_small by (unfold PGSIZE; lia). rewrite <- Hrun2. f_equal. unfold PGSIZE. lia.
    + eapply us_step_trans; [exact Hst|exact Hst2|]. intros i e Hi _. by apply lookup_app_l_Some.
    + destruct Hres as [(-> & ? & Hpre & ?)|(-> & -> & ?)]; [left|right; split_and!; (done || lia)].
      split_and!; try done. transitivity (u ++ [(q, Z.lor eo.2 PTE_V)]); [by eexists|done].
Qed.

End copy.

End proofs.
