(* ===== verification/VmCopy.v ===== *)
(** * Copying between the kernel and user memory

    [copyout], [copyin] and [copyinstr] of [vm.c], against a byte-wise view of
    an address space: [uaddr u va] is the physical address of user address
    [va], where it is mapped with [PTE_U]. *)

From S2P Require Import Prelude Riscv Monad State Kstring Kalloc Vm VmInv VmMap Uspace VmFree.
#[local] Open Scope Z_scope.

#[local] Opaque memset memmove store64 load64 kalloc kfree walk link mappages walkaddr.

Definition uaddr (u : list (Z * Z)) (va : Z) : option Z :=
  if decide (va < 0) then None
  else
    match u !! Z.to_nat (va / PGSIZE) with
    | Some e => if Z.testbit e.2 4 then Some (e.1 + va mod PGSIZE) else None
    | None => None
    end.

(** Writing bytes at consecutive user addresses. *)
Fixpoint uwrite (u : list (Z * Z)) (m : mem) (va : Z) (bs : list Z) : option mem :=
  match bs with
  | [] => Some m
  | b :: bs' =>
      match uaddr u va with
      | Some a => uwrite u (store8 m a b) (va + 1) bs'
      | None => None
      end
  end.

(** Reading [n] bytes. *)
Fixpoint uread (u : list (Z * Z)) (m : mem) (va : Z) (n : nat) : option (list Z) :=
  match n with
  | O => Some []
  | S n' =>
      match uaddr u va with
      | Some a => (fun bs => load8 m a :: bs) <$> uread u m (va + 1) n'
      | None => None
      end
  end.

(** No user access at and above [TRAPFRAME]. *)
Definition hi_closed (k : kernel) (t : ptree) : Prop :=
  forall va, TRAPFRAME <= va < MAXVA -> user_pa (pte_of (k_mem k) t va) = 0.

Section proofs.
Context {L : Layout} {LOk : LayoutOk L}.
Implicit Types (m : mem) (t : ptree).

(** ** Addresses *)

Lemma uaddr_page u va a :
  uaddr u va = Some a ->
  exists i e, u !! i = Some e /\ Z.testbit e.2 4 = true /\ va = Z.of_nat i * PGSIZE + va mod PGSIZE /\
    a = e.1 + va mod PGSIZE /\ in_page e.1 a.
Proof.
  unfold uaddr. case_decide; [done|]. destruct (u !! _) as [e|] eqn:E; [|done].
  destruct (Z.testbit e.2 4) eqn:Eb; [|done]. intros [= <-]. exists (Z.to_nat (va / PGSIZE)), e.
  unfold in_page, PGSIZE in *. split_and!; try done; dlia.
Qed.

(** Within a page, addresses advance together. *)
Lemma uaddr_next u va off :
  0 <= va -> 0 <= off -> va mod PGSIZE + off < PGSIZE -> uaddr u (va + off) = (fun a => a + off) <$> uaddr u va.
Proof.
  intros Hva Hoff Hpg. unfold uaddr. rewrite !decide_False by lia. unfold PGSIZE in *.
  replace ((va + off) / 4096) with (va / 4096) by dlia. destruct (u !! _) as [e|]; [|done].
  destruct (Z.testbit e.2 4); [|done]. simpl. f_equal. dlia.
Qed.

Lemma uaddr_rounddown u va :
  0 <= va -> uaddr u va = (fun a => a + (va - PGROUNDDOWN va)) <$> uaddr u (PGROUNDDOWN va).
Proof.
  intros Hva. rewrite PGROUNDDOWN_eq. unfold PGSIZE.
  rewrite <- uaddr_next by (unfold PGSIZE; dlia). f_equal. lia.
Qed.

Lemma user_pa_mkpte e : leaf_ok e -> user_pa (mkpte e.1 e.2) = if Z.testbit e.2 4 then e.1 else 0.
Proof.
  intros (Hp & Hperm & _). unfold user_pa. rewrite pte_has_mkpte_V. simpl.
  unfold PTE_U. rewrite pte_has_mkpte_flag, PTE2PA_page by (done || lia || by apply page_range56). done.
Qed.

(** [walkaddr] on a page address. *)
Lemma walkaddr_uspace k t u l va :
  uspace k t u l -> hi_closed k t -> 0 <= va -> va mod PGSIZE = 0 ->
  walkaddr (root t) va k = Ret (default 0 (uaddr u va)) k.
Proof.
  intros Hu Hhi Hva Hal. pose proof (us_inv _ _ _ _ Hu) as [_ Hr Hok _ _].
  rewrite walkaddr_spec by done. f_equal. unfold uaddr. rewrite (decide_False (P := va < 0)) by lia.
  pose proof (uspace_length _ _ _ _ Hu) as Hlen. unfold PGSIZE in *.
  destruct (u !! _) as [e|] eqn:E.
  - pose proof (lookup_lt_Some _ _ _ E). rewrite decide_True by (rewrite MAXVA_eq; dlia).
    pose proof (us_map _ _ _ _ Hu _ _ E) as Hp. unfold PGSIZE in Hp.
    replace (Z.of_nat (Z.to_nat (va / 4096)) * 4096) with va in Hp by dlia. rewrite Hp.
    rewrite user_pa_mkpte by (eapply Forall_lookup_1; [apply Hu|done]).
    destruct (Z.testbit e.2 4); simpl; lia.
  - apply lookup_ge_None in E. case_decide; [|done]. destruct (decide (va < TRAPFRAME)).
    + unfold user_pa. rewrite (us_top _ _ _ _ Hu); [done|]. unfold PGSIZE. dlia.
    + apply Hhi. lia.
Qed.

(** A mapped page's address is not null. *)
Lemma uaddr_nonzero k t u l va a : uspace k t u l -> uaddr u va = Some a -> 0 < a /\ va < 2^27.
Proof.
  intros Hu Ha. destruct (uaddr_page u va a Ha) as (i & e & Hi & _ & Hva & -> & _).
  pose proof (proj1 (Forall_lookup_1 _ _ _ _ (us_ok _ _ _ _ Hu) Hi)) as Hp%page_ok_range.
  pose proof (uspace_page_va _ _ _ _ _ _ Hu Hi). unfold PGSIZE in *. dlia.
Qed.

(** ** [copyin] *)

Lemma uread_app u m va n1 n2 :
  uread u m va (n1 + n2) =
  (bs1 ← uread u m va n1; bs2 ← uread u m (va + Z.of_nat n1) n2; Some (bs1 ++ bs2)).
Proof.
  revert va. induction n1 as [|n1 IH]; intros va.
  - simpl. rewrite Z.add_0_r. by destruct (uread u m va n2).
  - cbn [uread Nat.add]. destruct (uaddr u va); [|done]. rewrite IH.
    replace (va + 1 + Z.of_nat n1) with (va + Z.of_nat (S n1)) by lia.
    destruct (uread u m (va + 1) n1); [|done]. simpl. by destruct (uread u m _ n2).
Qed.

Lemma uread_chunk u m va n a :
  0 <= va -> va mod PGSIZE + Z.of_nat n <= PGSIZE -> uaddr u va = Some a ->
  uread u m va n = Some (load_bytes m a n).
Proof.
  revert va a. induction n as [|n IH]; intros va a Hva Hpg Ha; [done|]. cbn [uread load_bytes]. rewrite Ha.
  destruct n as [|n]; [done|]. rewrite (IH (va + 1) (a + 1)); [done|lia|unfold PGSIZE in *; dlia|].
  rewrite uaddr_next, Ha by (unfold PGSIZE in *; dlia). done.
Qed.

Lemma uread_none u m va n : uaddr u va = None -> (0 < n)%nat -> uread u m va n = None.
Proof. intros Ha Hn. destruct n; [lia|]. simpl. by rewrite Ha. Qed.

(** The chunk one iteration copies. *)
Lemma chunk_range va n :
  0 <= va -> 0 < n ->
  let c := Z.min (PGSIZE - (va - PGROUNDDOWN va)) n in
  0 < c <= n /\ va mod PGSIZE + c <= PGSIZE /\ (c < n -> PGROUNDDOWN va + PGSIZE = va + c).
Proof. intros Hva Hn. rewrite PGROUNDDOWN_eq. unfold PGSIZE. cbv zeta. dlia. Qed.

Lemma copyin_loop_spec fuel k t u l srcva len dst :
  uspace k t u l -> hi_closed k t -> 0 <= srcva -> 0 <= len <= Z.of_nat fuel ->
  exists r bs, copyin_loop fuel (root t) srcva len dst k = Ret (r, dst ++ bs) k /\
    (r = 0 /\ uread u (k_mem k) srcva (Z.to_nat len) = Some bs \/
     r = -1 /\ uread u (k_mem k) srcva (Z.to_nat len) = None).
Proof.
  intros Hu Hhi. revert srcva len dst. induction fuel as [|fuel IH]; intros srcva len dst Hva Hlen;
    (destruct (decide (len = 0)) as [->|Hne];
     [exists 0, []; rewrite app_nil_r; split; [done|by left]|]); [lia|].
  cbn [copyin_loop]. rewrite (proj2 (Z.ltb_lt 0 len)) by lia. cbv zeta.
  erewrite bind_eq by (apply (walkaddr_uspace k t u l); try done; [rewrite PGROUNDDOWN_eq; unfold PGSIZE; dlia|apply PGROUNDDOWN_aligned]).
  cbv beta. pose proof (uaddr_rounddown u srcva Hva) as Hrd.
  destruct (uaddr u (PGROUNDDOWN srcva)) as [a|] eqn:Ea; simpl in Hrd; cbn [from_option id].
  - pose proof (uaddr_nonzero _ _ _ _ _ _ Hu Ea) as [Hpos Hb]. rewrite (proj2 (Z.eqb_neq a 0)) by lia.
    pose proof (chunk_range srcva len Hva ltac:(lia)) as (Hc & Hpg & Hnext).
    set (c := Z.min _ len) in *. kpure.
    pose proof (PGROUNDDOWN_bounds srcva Hva) as Hbd. rewrite u64_small by (unfold PGSIZE in *; lia).
    assert (uread u (k_mem k) srcva (Z.to_nat len) =
      (bs2 ← uread u (k_mem k) (srcva + c) (Z.to_nat (len - c));
       Some (load_bytes (k_mem k) (a + (srcva - PGROUNDDOWN srcva)) (Z.to_nat c) ++ bs2))) as Hsplit.
    { replace (Z.to_nat len) with (Z.to_nat c + Z.to_nat (len - c))%nat by lia. rewrite uread_app.
      rewrite (uread_chunk u (k_mem k) srcva (Z.to_nat c) _ Hva) by (done || lia). simpl.
      by replace (Z.of_nat (Z.to_nat c)) with c by lia. }
    destruct (decide (c = len)) as [Heq|Hlt].
    + replace (len - c) with 0 in * by lia. eexists 0, _. split; [by destruct fuel|left; split; [done|]].
      rewrite Hsplit. simpl. by rewrite app_nil_r.
    + rewrite Hnext by lia. destruct (IH (srcva + c) (len - c)
        (dst ++ load_bytes (k_mem k) (a + (srcva - PGROUNDDOWN srcva)) (Z.to_nat c))) as (r & bs & Hrun & Hres); [lia..|].
      eexists r, _. rewrite Hrun, <- app_assoc. split; [done|]. rewrite Hsplit.
      destruct Hres as [[-> ->]|[-> ->]]; [by left|by right].
  - rewrite Z.eqb_refl. exists (-1), []. rewrite app_nil_r. split; [done|right]. split; [done|].
    apply uread_none; [by rewrite Hrd|lia].
Qed.

(** ** [copyout] *)

Lemma uwrite_app u m va bs1 bs2 :
  uwrite u m va (bs1 ++ bs2) = (m1 ← uwrite u m va bs1; uwrite u m1 (va + Z.of_nat (length bs1)) bs2).
Proof.
  revert m va. induction bs1 as [|b bs1 IH]; intros m va; cbn [uwrite app length].
  - simpl. by rewrite Z.add_0_r.
  - destruct (uaddr u va); [|done]. rewrite IH. by replace (va + 1 + _) with (va + Z.of_nat (S (length bs1))) by lia.
Qed.

Lemma uwrite_chunk u m va bs a :
  0 <= va -> va mod PGSIZE + Z.of_nat (length bs) <= PGSIZE -> uaddr u va = Some a ->
  uwrite u m va bs = Some (store_bytes m a bs).
Proof.
  revert m va a. induction bs as [|b bs IH]; intros m va a Hva Hpg Ha; [done|]. cbn [uwrite store_bytes].
  rewrite Ha. destruct bs as [|b' bs]; [done|]. simpl in Hpg.
  rewrite (IH _ (va + 1) (a + 1)); [done|lia|simpl; unfold PGSIZE in *; dlia|].
  rewrite uaddr_next, Ha by (unfold PGSIZE in *; dlia). done.
Qed.

Lemma uwrite_outside u m va bs m' a :
  uwrite u m va bs = Some m' -> (forall e, e ∈ u -> ~ in_page e.1 a) -> load8 m' a = load8 m a.
Proof.
  revert m va. induction bs as [|b bs IH]; intros m va; cbn [uwrite]; [by intros [= <-]|].
  destruct (uaddr u va) as [c|] eqn:Ec; [|done]. intros Hw Ha. rewrite (IH _ _ Hw Ha).
  destruct (uaddr_page _ _ _ Ec) as (i & e & Hi & _ & _ & _ & Hin). unfold load8, store8.
  rewrite lookup_insert_ne; [done|]. intros ->. apply (Ha e); [by eapply list_elem_of_lookup_2|done].
Qed.

(** Only the bytes the range is mapped to change, whatever else is in memory. *)
Lemma uwrite_frame u m va bs m' a :
  uwrite u m va bs = Some m' ->
  (forall va', va <= va' < va + Z.of_nat (length bs) -> uaddr u va' <> Some a) -> load8 m' a = load8 m a.
Proof.
  revert m va. induction bs as [|b bs IH]; intros m va; cbn [uwrite length]; [by intros [= <-]|].
  destruct (uaddr u va) as [c|] eqn:Ec; [|done]. intros Hw Ha. rewrite (IH _ _ Hw).
  - unfold load8, store8. rewrite lookup_insert_ne; [done|]. intros ->. apply (Ha va); [lia|done].
  - intros va' Hva'. apply Ha. lia.
Qed.

Lemma uwrite_keeps k t u l va bs m' :
  uspace k t u l -> uwrite u (k_mem k) va bs = Some m' ->
  uspace (set_mem m' k) t u l /\ forall va', pte_of m' t va' = pte_of (k_mem k) t va'.
Proof.
  intros Hu Hw. pose proof Hu as [Hinv Hok Hn Hmap Htop].
  destruct (vm_inv_ext k (set_mem m' k) t l Hinv (mem_only_set_mem m' k)) as [Hinv' Hp]; [by ksimp| |].
  { intros p a Hp Ha. ksimp. eapply uwrite_outside; [exact Hw|].
    intros e [i Hi]%list_elem_of_lookup He. by apply (proj1 (uspace_disjoint _ _ _ _ i e p a Hu Hi He Ha)). }
  ksimp in Hp. split; [|done]. split; ksimp; try done.
  - intros i e Hi. rewrite Hp. by apply Hmap.
  - intros va' Hva. rewrite Hp. by apply Htop.
Qed.

Lemma hi_closed_keeps k t m' :
  hi_closed k t -> (forall va', pte_of m' t va' = pte_of (k_mem k) t va') -> hi_closed (set_mem m' k) t.
Proof. intros Hhi Hp va Hva. ksimp. rewrite Hp. by apply Hhi. Qed.

Lemma copyout_loop_spec fuel k t u l dstva src :
  uspace k t u l -> hi_closed k t -> 0 <= dstva -> (length src <= fuel)%nat ->
  exists r m' j, copyout_loop fuel (root t) dstva src k = Ret r (set_mem m' k) /\
    uwrite u (k_mem k) dstva (take j src) = Some m' /\
    (r = 0 /\ j = length src \/ r = -1 /\ (j < length src)%nat /\ uaddr u (dstva + Z.of_nat j) = None).
Proof.
  revert k dstva src. induction fuel as [|fuel IH]; intros k dstva src Hu Hhi Hva Hlen;
    (destruct (decide (src = [])) as [->|Hne];
     [exists 0, (k_mem k), 0%nat; split; [by rewrite set_mem_id|split; [done|by left]]|]);
    (assert (0 < length src)%nat by (destruct src; [done|simpl; lia])); [lia|].
  cbn [copyout_loop]. rewrite (proj2 (Z.ltb_lt 0 _)) by lia. cbv zeta.
  erewrite bind_eq by (apply (walkaddr_uspace k t u l); try done; [rewrite PGROUNDDOWN_eq; unfold PGSIZE; dlia|apply PGROUNDDOWN_aligned]).
  cbv beta. pose proof (uaddr_rounddown u dstva Hva) as Hrd.
  destruct (uaddr u (PGROUNDDOWN dstva)) as [a|] eqn:Ea; simpl in Hrd; cbn [from_option id].
  - pose proof (uaddr_nonzero _ _ _ _ _ _ Hu Ea) as [Hpos Hb]. rewrite (proj2 (Z.eqb_neq a 0)) by lia.
    pose proof (chunk_range dstva (Z.of_nat (length src)) Hva ltac:(lia)) as (Hc & Hpg & Hnext).
    set (c := Z.min _ (Z.of_nat (length src))) in *. kpure.
    pose proof (PGROUNDDOWN_bounds dstva Hva) as Hbd. rewrite u64_small by (unfold PGSIZE in *; lia).
    set (m1 := store_bytes (k_mem k) (a + (dstva - PGROUNDDOWN dstva)) (take (Z.to_nat c) src)).
    assert (uwrite u (k_mem k) dstva (take (Z.to_nat c) src) = Some m1) as Hw.
    { apply uwrite_chunk; [done| |done]. rewrite length_take. lia. }
    destruct (uwrite_keeps _ _ _ _ _ _ _ Hu Hw) as [Hu1 Hp1].
    destruct (decide (c = Z.of_nat (length src))) as [Heq|Hlt].
    + exists 0, m1, (length src). split_and!; [|by replace (length src) with (Z.to_nat c) by lia|by left].
      rewrite drop_ge by lia. by destruct fuel.
    + rewrite Hnext by lia.
      destruct (IH (set_mem m1 k) (dstva + c) (drop (Z.to_nat c) src) Hu1 (hi_closed_keeps _ _ _ Hhi Hp1))
        as (r & m2 & j & Hrun & Hw2 & Hres); [lia|rewrite length_drop; lia|].
      rewrite length_drop in Hres. ksimp in Hrun. ksimp in Hw2.
      exists r, m2, (Z.to_nat c + j)%nat. split_and!; [done| |].
      * rewrite <- take_take_drop, uwrite_app, Hw. simpl. rewrite length_take, Nat.min_l by lia.
        by replace (Z.of_nat (Z.to_nat c)) with c by lia.
      * destruct Hres as [[-> ->]|(-> & ? & Hn)]; [left; lia|right; split_and!; [done|lia|]].
        rewrite <- Hn. f_equal. lia.
  - rewrite Z.eqb_refl. exists (-1), (k_mem k), 0%nat. split; [by rewrite set_mem_id|]. split; [done|right].
    split_and!; [done|lia|]. simpl. by rewrite Z.add_0_r.
Qed.

(** ** Reading what was written *)

Lemma uaddr_inj k t u l va va' a :
  uspace k t u l -> uaddr u va = Some a -> uaddr u va' = Some a -> va = va'.
Proof.
  intros Hu H1 H2. destruct (uaddr_page _ _ _ H1) as (i & e & Hi & _ & Hva & Ha & Hin).
  destruct (uaddr_page _ _ _ H2) as (j & e' & Hj & _ & Hva' & Ha' & Hin').
  pose proof (proj2 (uspace_disjoint _ _ _ _ i e e'.1 a Hu Hi Hin Hin') j e' Hj eq_refl) as ->.
  assert (e' = e) as -> by congruence. lia.
Qed.

Lemma uwrite_lookup k t u l m va bs m' va' a' :
  uspace k t u l -> uwrite u m va bs = Some m' -> uaddr u va' = Some a' ->
  load8 m' a' = if decide (va <= va' < va + Z.of_nat (length bs))
                then u8 (default 0 (bs !! Z.to_nat (va' - va))) else load8 m a'.
Proof.
  intros Hu. revert m va. induction bs as [|b bs IH]; intros m va; cbn [uwrite].
  { intros [= <-] _. rewrite decide_False; [done|simpl; lia]. }
  destruct (uaddr u va) as [c|] eqn:Ec; [|done]. intros Hw Ha. rewrite (IH _ _ Hw Ha). cbn [length].
  destruct (decide (va' = va)) as [->|Hne].
  - rewrite decide_False, decide_True by lia. rewrite Z.sub_diag. simpl.
    assert (c = a') as -> by congruence. apply load8_store8_eq.
  - destruct (decide (va + 1 <= va' < _)).
    + rewrite decide_True by lia. by replace (Z.to_nat (va' - va)) with (S (Z.to_nat (va' - (va + 1)))) by lia.
    + rewrite decide_False by lia. apply load8_store8_ne. intros ->. apply Hne. by eapply uaddr_inj.
Qed.

Lemma uwrite_mapped u m va bs m' i :
  uwrite u m va bs = Some m' -> (i < length bs)%nat -> is_Some (uaddr u (va + Z.of_nat i)).
Proof.
  revert m va i. induction bs as [|b bs IH]; intros m va i Hw Hi; [simpl in Hi; lia|]. cbn [uwrite] in Hw.
  destruct (uaddr u va) as [c|] eqn:Ec; [|done]. destruct i as [|i].
  - rewrite Z.add_0_r. eauto.
  - simpl in Hi. destruct (IH _ _ i Hw) as [d Hd]; [lia|]. exists d. rewrite <- Hd. f_equal. lia.
Qed.

Lemma uread_intro u m va n bs :
  length bs = n ->
  (forall i b, bs !! i = Some b -> exists a, uaddr u (va + Z.of_nat i) = Some a /\ load8 m a = b) ->
  uread u m va n = Some bs.
Proof.
  revert va n. induction bs as [|b bs IH]; intros va n <-; [done|]. intros Hb. cbn [uread length].
  destruct (Hb 0%nat b eq_refl) as (a & Ha & <-). rewrite Z.add_0_r in Ha. rewrite Ha, (IH (va + 1)); [done|done|].
  intros i b' Hi. destruct (Hb (S i) b' Hi) as (a' & Ha' & Hl). exists a'. split; [|done]. rewrite <- Ha'. f_equal. lia.
Qed.

Lemma uread_uwrite k t u l m va bs m' :
  uspace k t u l -> uwrite u m va bs = Some m' -> Forall (fun b => 0 <= b < 256) bs ->
  uread u m' va (length bs) = Some bs.
Proof.
  intros Hu Hw Hb. apply uread_intro; [done|]. intros i b Hi. pose proof (lookup_lt_Some _ _ _ Hi).
  destruct (uwrite_mapped _ _ _ _ _ i Hw) as [a Ha]; [done|]. exists a. split; [done|].
  rewrite (uwrite_lookup _ _ _ _ _ _ _ _ _ _ Hu Hw Ha), decide_True by lia.
  replace (Z.to_nat (va + Z.of_nat i - va)) with i by lia. rewrite Hi. apply u8_small.
  by apply (Forall_lookup_1 _ _ _ _ Hb Hi).
Qed.

(** ** [copyinstr] *)

Lemma copyinstr_inner_spec m p n bs got :
  copyinstr_inner m p n = (bs, got) ->
  bs = load_bytes m p (length bs) /\ (length bs <= n)%nat /\
  (if got : bool then exists s, bs = s ++ [0] /\ 0 ∉ s else length bs = n /\ 0 ∉ bs).
Proof.
  revert p bs got. induction n as [|n IH]; intros p bs got; cbn [copyinstr_inner].
  { intros [= <- <-]. split_and!; [done|done|done|apply not_elem_of_nil]. }
  destruct (Z.eqb_spec (load8 m p) 0) as [E|E].
  - intros [= <- <-]. simpl. rewrite E. split_and!; [done|lia|]. exists []. split; [done|apply not_elem_of_nil].
  - destruct (copyinstr_inner m (p + 1) n) as [bs' got'] eqn:Er. intros [= <- <-].
    destruct (IH _ _ _ Er) as (Hl & Hlen & Hg). simpl. split_and!; [by rewrite <- Hl|lia|].
    destruct got'.
    + destruct Hg as (s & -> & Hs). exists (load8 m p :: s). split; [done|]. apply not_elem_of_cons. by split; [lia|].
    + destruct Hg as [-> Hs]. split; [done|]. apply not_elem_of_cons. by split; [lia|].
Qed.

Lemma uread_no_nul u m va n1 n bs1 bs :
  uread u m va n1 = Some bs1 -> 0 ∉ bs1 ->
  (forall n' bs', (n' <= n - n1)%nat -> uread u m (va + Z.of_nat n1) n' = Some bs' -> 0 ∉ bs') ->
  (n1 <= n)%nat -> forall n', (n' <= n)%nat -> uread u m va n' = Some bs -> 0 ∉ bs.
Proof.
  intros H1 Hn1 Hrest Hle n' Hn' Hr. destruct (decide (n' <= n1)%nat) as [Hs|Hs].
  - replace n1 with (n' + (n1 - n'))%nat in H1 by lia. rewrite uread_app, Hr in H1. simpl in H1.
    destruct (uread u m _ (n1 - n')); [|done]. injection H1 as <-. set_solver.
  - replace n' with (n1 + (n' - n1))%nat in Hr by lia. rewrite uread_app, H1 in Hr. simpl in Hr.
    destruct (uread u m _ (n' - n1)) as [bs2|] eqn:E2; [|done]. injection Hr as <-.
    apply not_elem_of_app. split; [done|]. eapply Hrest; [|exact E2]. lia.
Qed.

Lemma load_bytes_length m a n : length (load_bytes m a n) = n.
Proof. revert a. induction n as [|n IH]; intros a; simpl; [done|by rewrite IH]. Qed.

(** What [copyinstr] promises: a NUL-terminated string of at most [max] bytes
    with the NUL, or there is none. *)
Definition ustring (u : list (Z * Z)) (m : mem) (va max r : Z) (bs : list Z) : Prop :=
  (r = 0 /\ exists s, bs = s ++ [0] /\ 0 ∉ s /\ Z.of_nat (length bs) <= max /\ uread u m va (length bs) = Some bs) \/
  (r = -1 /\ forall n bs', (n <= Z.to_nat max)%nat -> uread u m va n = Some bs' -> 0 ∉ bs').

Lemma ustring_chunk u m va c max r bs bs1 :
  uread u m va (Z.to_nat c) = Some bs1 -> 0 ∉ bs1 -> 0 <= c <= max -> Z.of_nat (length bs1) = c ->
  ustring u m (va + c) (max - c) r bs -> ustring u m va max r (bs1 ++ bs).
Proof.
  intros H1 Hn Hc Hl [(-> & s & -> & Hs & Hlen & Hr)|(-> & Hno)].
  - left. split; [done|]. exists (bs1 ++ s). rewrite app_assoc, not_elem_of_app. split_and!; try done.
    + rewrite <- app_assoc, length_app. lia.
    + rewrite <- app_assoc, length_app, uread_app. replace (length bs1) with (Z.to_nat c) by lia.
      rewrite H1. simpl. replace (Z.of_nat (Z.to_nat c)) with c by lia. by rewrite Hr.
  - right. split; [done|]. intros n bs' Hn' Hr. eapply (uread_no_nul u m va (Z.to_nat c) (Z.to_nat max)); try done; [|lia].
    intros n2 bs2 Hn2. replace (Z.of_nat (Z.to_nat c)) with c by lia. apply Hno. lia.
Qed.

Lemma copyinstr_loop_spec fuel k t u l srcva max dst :
  uspace k t u l -> hi_closed k t -> 0 <= srcva -> 0 <= max <= Z.of_nat fuel ->
  exists r bs, copyinstr_loop fuel (root t) srcva max dst k = Ret (r, dst ++ bs) k /\
    ustring u (k_mem k) srcva max r bs.
Proof.
  intros Hu Hhi. revert srcva max dst. induction fuel as [|fuel IH]; intros srcva max dst Hva Hmax;
    (destruct (decide (max = 0)) as [->|Hne];
     [exists (-1), []; rewrite app_nil_r; split; [done|right; split; [done|]];
      intros n bs' Hn; assert (n = 0%nat) as -> by lia; intros [= <-]; apply not_elem_of_nil|]); [lia|].
  cbn [copyinstr_loop]. rewrite (proj2 (Z.ltb_lt 0 max)) by lia. cbv zeta.
  erewrite bind_eq by (apply (walkaddr_uspace k t u l); try done; [rewrite PGROUNDDOWN_eq; unfold PGSIZE; dlia|apply PGROUNDDOWN_aligned]).
  cbv beta. pose proof (uaddr_rounddown u srcva Hva) as Hrd.
  destruct (uaddr u (PGROUNDDOWN srcva)) as [a|] eqn:Ea; simpl in Hrd; cbn [from_option id].
  - pose proof (uaddr_nonzero _ _ _ _ _ _ Hu Ea) as [Hpos Hb]. rewrite (proj2 (Z.eqb_neq a 0)) by lia.
    pose proof (chunk_range srcva max Hva ltac:(lia)) as (Hc & Hpg & Hnext).
    set (c := Z.min _ max) in *. kpure.
    destruct (copyinstr_inner _ _ _) as [bs1 got] eqn:Ei. apply copyinstr_inner_spec in Ei as (Hl & Hle & Hg).
    assert (uread u (k_mem k) srcva (length bs1) = Some bs1) as H1.
    { rewrite (uread_chunk u (k_mem k) srcva (length bs1) _ Hva ltac:(lia) Hrd). by rewrite <- Hl. }
    pose proof (PGROUNDDOWN_bounds srcva Hva) as Hbd. destruct got.
    + exists 0, bs1. split; [done|]. left. split; [done|]. destruct Hg as (s & -> & Hs). exists s. split_and!; try done. lia.
    + destruct Hg as [Hlen Hno]. rewrite u64_small by (unfold PGSIZE in *; lia). rewrite Hlen in *.
      replace (Z.of_nat (Z.to_nat c)) with c by lia.
      destruct (decide (c = max)) as [Heq|Hlt].
      * exists (-1), bs1. split; [rewrite Heq, Z.sub_diag; by destruct fuel|]. right. split; [done|].
        intros n bs' Hn. eapply (uread_no_nul _ _ _ (Z.to_nat c) (Z.to_nat max)); try done; [|lia].
        intros n2 bs2 Hn2. assert (n2 = 0%nat) as -> by lia. intros [= <-]. apply not_elem_of_nil.
      * rewrite Hnext by lia. destruct (IH (srcva + c) (max - c) (dst ++ bs1)) as (r & bs & Hrun & Hres); [lia..|].
        exists r, (bs1 ++ bs). rewrite Hrun, app_assoc. split; [done|]. eapply ustring_chunk; try done; lia.
  - rewrite Z.eqb_refl. exists (-1), []. rewrite app_nil_r. split; [done|right]. split; [done|].
    intros n bs' _ Hr. destruct n; simpl in Hr; [injection Hr as <-; apply not_elem_of_nil|by rewrite Hrd in Hr].
Qed.

End proofs.
