(* ===== verification/VmProps.v ===== *)
(** * Correctness of the virtual memory system

    The contract of each operation of [vm.c] on a user address space, from
    the lemmas of [VmMap], [Uspace], [VmFree] and [VmCopy], and instances on a
    machine with sixteen free pages. *)

From S2P Require Import Prelude Riscv Monad State Kstring Kalloc Vm VmInv VmMap Uspace VmFree VmCopy.
#[local] Open Scope Z_scope.

#[local] Opaque memset memmove store64 load64 kalloc kfree walk link mappages walkaddr kinit.

Section props.
Context {L : Layout} {LOk : LayoutOk L}.

Lemma uvmcreate_spec k q l :
  free_pages k (q :: l) -> KmemLock ∉ k_held k ->
  exists k', uvmcreate k = Ret q k' /\ page_write q k k' /\ uspace k' (mkptree q ∅ ∅) [] l /\
    (forall va, pte_of (k_mem k') (mkptree q ∅ ∅) va = 0).
Proof.
  intros Hf Hlk. destruct (kalloc_cons_spec k q l Hf Hlk) as (nx & Hrun & Hf' & Hm).
  assert (page_ok q) as Hq by (by eapply free_pages_nonzero, list_elem_of_here).
  pose proof (page_ok_range q Hq). unfold uvmcreate. erewrite bind_eq by exact Hrun. cbv beta.
  rewrite (proj2 (Z.eqb_neq q 0)) by lia. kpure. ksimp. eexists. split; [reflexivity|].
  pose proof (fp_nodup _ _ Hf) as Hn.
  assert (forall va, pte_of (k_mem (set_freelist nx (set_mem (memset (memset (k_mem k) q 5 PGSIZE) q 0 PGSIZE) k)))
    (mkptree q ∅ ∅) va = 0) as Hp by (intros va; unfold pte_of, slot; simpl; by rewrite lookup_empty).
  split; [split; [apply mem_only_set|intros a Ha; ksimp; by rewrite memset_in_page, Hm]|]. split; [|done].
  assert (pt_pages (mkptree q ∅ ∅) = [q]) as Hpg.
  { unfold pt_pages. simpl. by rewrite !map_to_list_empty. }
  split; rewrite ?Hpg; [|done|done|done|intros va _; by rewrite Hp, pte_has_0].
  split; rewrite ?Hpg; ksimp; [| |by apply Forall_singleton|exact Hn|exact Hlk].
  - eapply free_pages_ext; [| |exact Hf']; ksimp; [done|]. intros p a Hpl Ha. ksimp. apply memset_in_page.
    intros Hqa. apply NoDup_cons in Hn as [Hn _]. apply Hn. rewrite (page_ok_disjoint q p a); try done.
    by eapply free_pages_nonzero, list_elem_of_further.
  - apply pt_rep_root_fresh. intros a Ha. by apply load8_memset_page.
Qed.

(** An address space while a page is taken from the free list. *)
Lemma uspace_take k k' t u q l :
  uspace k t u (q :: l) -> page_write q k k' -> free_pages k' l ->
  uspace k' t u l /\ (forall va, pte_of (k_mem k') t va = pte_of (k_mem k) t va) /\ q ∉ pt_pages t ++ u.*1 ++ l.
Proof.
  intros Hu [Ho Hm] Hf. pose proof Hu as [[Hf0 Hr Hok _ Hlk] Hl Hn Hmap Htop].
  assert (NoDup (q :: pt_pages t ++ u.*1 ++ l)) as [Hnin Hn']%NoDup_cons.
  { by rewrite app_assoc, Permutation_middle, <- app_assoc. }
  assert (page_ok q) as Hq by (by eapply free_pages_nonzero, list_elem_of_here).
  assert (forall p a, p ∈ pt_pages t -> in_page p a -> load8 (k_mem k') a = load8 (k_mem k) a) as Hm'.
  { intros p a Hp Ha. apply Hm. intros Hqa. apply Hnin. rewrite (page_ok_disjoint q p a); [|done| |done|done].
    - apply elem_of_app. by left.
    - by eapply (proj1 (Forall_forall _ _) Hok). }
  assert (forall va, pte_of (k_mem k') t va = pte_of (k_mem k) t va) as Hp by (intros va; by apply pte_of_ext).
  split_and!; [|done|done]. split; try done.
  - split; try done.
    + by eapply pt_rep_ext.
    + rewrite (Permutation_app_swap_app (pt_pages t)) in Hn'. by apply NoDup_app in Hn' as (_ & _ & ?).
    + by rewrite (mem_only_held k k').
  - intros i e Hi. rewrite Hp. by apply Hmap.
  - intros va Hva. rewrite Hp. by apply Htop.
Qed.

(** A step of one address space leaves another one as it is. *)
Lemma uspace_isolated k t u l k' t' u' l' t2 u2 :
  uspace k t u l -> us_step k t u l k' t' u' l' -> uspace k t2 u2 l ->
  (forall p, p ∈ pt_pages t2 ++ u2.*1 -> p ∉ pt_pages t ++ u.*1) ->
  uspace k' t2 u2 l' /\ (forall va, pte_of (k_mem k') t2 va = pte_of (k_mem k) t2 va) /\
  (forall e a, e ∈ u2 -> in_page e.1 a -> load8 (k_mem k') a = load8 (k_mem k) a).
Proof.
  intros Hu Hst Hu2 Hsep. pose proof Hu2 as [[_ Hr2 Hok2 _ Hlk] Hl2 Hn2 Hmap2 Htop2].
  rewrite app_assoc in Hn2. apply NoDup_app in Hn2 as (Hn2 & Hd2 & _).
  assert (forall p, p ∈ pt_pages t2 ++ u2.*1 -> p ∉ pt_pages t ++ u.*1 ++ l) as Hs.
  { intros p Hp. rewrite app_assoc, not_elem_of_app. auto. }
  pose proof (uspace_pages_ok _ _ _ _ Hu2) as Hall. rewrite app_assoc, Forall_app, Forall_forall in Hall. destruct Hall as [Hall _].
  assert (forall p a, p ∈ pt_pages t2 ++ u2.*1 -> in_page p a -> load8 (k_mem k') a = load8 (k_mem k) a) as Hm.
  { intros p a Hp. apply (us_step_frame _ _ _ _ _ _ _ _ p a Hu Hst); auto. }
  assert (forall va, pte_of (k_mem k') t2 va = pte_of (k_mem k) t2 va) as Hp.
  { intros va. apply pte_of_ext. intros p a Hp. apply Hm, elem_of_app. by left. }
  assert (NoDup (pt_pages t2 ++ u2.*1 ++ l')) as Hn'.
  { rewrite app_assoc. apply NoDup_app. split_and!; [done| |].
    - intros p Hp' Hl'. apply (Hs p Hp'). rewrite <- (st_own _ _ _ _ _ _ _ _ Hst), !elem_of_app. by right; right.
    - pose proof (us_nodup _ _ _ _ (st_inv _ _ _ _ _ _ _ _ Hst)) as Hn'. rewrite app_assoc in Hn'.
      by apply NoDup_app in Hn' as (_ & _ & ?). }
  split_and!; [|done|].
  - pose proof (st_inv _ _ _ _ _ _ _ _ Hst) as [[Hf' _ _ _ _] _ _ _ _]. split; try done.
    + split; try done.
      * eapply pt_rep_ext; [|exact Hr2]. intros p a Hp'. apply Hm, elem_of_app. by left.
      * rewrite (Permutation_app_swap_app (pt_pages t2)) in Hn'. by apply NoDup_app in Hn' as (_ & _ & ?).
      * by rewrite (mem_only_held k k') by apply Hst.
    + intros i e Hi. rewrite Hp. by apply Hmap2.
    + intros va Hva. rewrite Hp. by apply Htop2.
  - intros e a He. apply Hm, elem_of_app. right. apply list_elem_of_fmap. by exists e.
Qed.

(** C4: [mappages] on a range of unmapped pages of a table either maps every
    page of the range to consecutive physical pages with the permissions
    asked for and returns 0, or returns -1 with the free list exhausted and
    only a prefix of the range mapped; every other address translates as
    before, and no page is lost or shared between the table and the free
    list. *)
Theorem mappages_maps_range k t l va size pa perm :
  vm_inv k t l -> 0 <= va -> 0 < size -> va + size <= MAXVA ->
  0 <= perm < 2^10 -> 0 <= pa -> pa + size + PGSIZE <= 2^56 ->
  (forall va', va - PGSIZE < va' < va + size -> va' mod PGSIZE = 0 ->
     pte_has (pte_of (k_mem k) t va') PTE_V = false) ->
  let n := (PGROUNDDOWN (va + size - 1) - PGROUNDDOWN va) / PGSIZE + 1 in
  exists r k' t' l' j,
    mappages (root t) va size pa perm k = Ret r k' /\ vm_inv k' t' l' /\
    (r = 0 /\ j = n \/ r = -1 /\ 0 <= j < n /\ l' = [] /\ Z.of_nat (length l) <= 2 * n) /\
    (forall va', 0 <= va' < MAXVA ->
       pte_of (k_mem k') t' va' =
       if decide (PGROUNDDOWN va <= va' < PGROUNDDOWN va + j * PGSIZE)
       then mkpte (pa + (PGROUNDDOWN va' - PGROUNDDOWN va)) perm else pte_of (k_mem k) t va') /\
    pt_pages t' ++ l' ≡ₚ pt_pages t ++ l.
Proof.
  intros Hinv Hva Hsz Hmax Hperm Hpa Hpa' Hfree n.
  destruct (mappages_spec k t l va size pa perm) as (r & k' & t' & l' & j & Hrun & Hu & Hres & Hlen); try done.
  exists r, k', t', l', j. split_and!; [done|apply Hu| |intros va' Hva'; by rewrite (pg_pte _ _ _ _ _ _ _ Hu)|apply Hu].
  destruct Hres as [?|(? & ? & ->)]; [by left|right]. simpl in Hlen. unfold n. split_and!; (done || lia).
Qed.

Lemma uvmalloc_spec k t u l oldsz newsz :
  uspace k t u l -> 0 <= oldsz <= newsz -> newsz < 2^64 - PGSIZE -> Z.of_nat (length u) = npg oldsz ->
  exists r k' t' u' l',
    uvmalloc (root t) oldsz newsz k = Ret r k' /\ us_step k t u l k' t' u' l' /\
    ((r = newsz /\ exists v, u' = u ++ v /\ Z.of_nat (length u') = npg newsz /\ Forall (fresh_page (k_mem k')) v) \/
     (r = 0 /\ u' = u /\ Z.of_nat (length l) <= 3 * (npg newsz - npg oldsz))).
Proof.
  intros Hu Hold Hnew Hlen. unfold uvmalloc. rewrite (proj2 (Z.ltb_ge newsz oldsz)) by lia.
  pose proof (npg_eq oldsz ltac:(lia)) as Ho. pose proof (npg_eq newsz ltac:(lia)) as Hn. unfold PGSIZE in Ho, Hn, Hnew.
  rewrite PGROUNDUP_eq, <- npg_eq, <- Hlen, Z.mul_comm by (unfold PGSIZE; lia). cbv zeta.
  destruct (uvmalloc_loop_spec (Z.to_nat ((newsz - Z.of_nat (length u) * PGSIZE) / PGSIZE + 1)) k t u l
    (Z.of_nat (length u) * PGSIZE) newsz (length u) Hu) as (r & k' & t' & u' & l' & Hrun & Hres);
    try done; try (unfold PGSIZE; dlia).
  exists r, k', t', u', l'. split; [done|].
  destruct Hres as [(v & -> & -> & Hst & Hl & Hv)|(-> & -> & Hst & Hl)].
  - split; [done|]. left. split; [done|]. exists v. split_and!; [done| |done]. rewrite Hl. dlia.
  - rewrite firstn_all in *. split; [done|]. right. split_and!; [done|done|lia].
Qed.

(** C3: [uvmalloc] grows an address space from [oldsz] to [newsz] bytes, for
    any [newsz] below 2^64 - 4096: it returns [newsz] with the old pages in place and
    untouched and zeroed, writable user pages after them, or returns 0 with
    the address space as it was. It never panics, it loses no page, and it
    succeeds whenever three pages are free for each page to add. *)
Theorem uvmalloc_grows k t u l oldsz newsz :
  uspace k t u l -> 0 <= oldsz <= newsz -> newsz < 2^64 - PGSIZE -> Z.of_nat (length u) = npg oldsz ->
  exists r k' t' u' l',
    uvmalloc (root t) oldsz newsz k = Ret r k' /\ us_step k t u l k' t' u' l' /\
    ((r = newsz /\ exists v, u' = u ++ v /\ Z.of_nat (length u') = npg newsz /\ Forall (fresh_page (k_mem k')) v) \/
     (r = 0 /\ u' = u /\ Z.of_nat (length l) <= 3 * (npg newsz - npg oldsz))).
Proof. apply uvmalloc_spec. Qed.

(** growing one address space leaves every other one alone: its
    translations and the contents of its pages are the same after
    [uvmalloc], whether that succeeds or not. *)
Theorem uvmalloc_isolates k t u l oldsz newsz t2 u2 :
  uspace k t u l -> 0 <= oldsz <= newsz -> newsz < 2^64 - PGSIZE -> Z.of_nat (length u) = npg oldsz ->
  uspace k t2 u2 l -> (forall p, p ∈ pt_pages t2 ++ u2.*1 -> p ∉ pt_pages t ++ u.*1) ->
  exists r k' l', uvmalloc (root t) oldsz newsz k = Ret r k' /\ uspace k' t2 u2 l' /\
    (forall va, pte_of (k_mem k') t2 va = pte_of (k_mem k) t2 va) /\
    (forall e a, e ∈ u2 -> in_page e.1 a -> load8 (k_mem k') a = load8 (k_mem k) a).
Proof.
  intros Hu Hold Hnew Hlen Hu2 Hsep.
  destruct (uvmalloc_spec k t u l oldsz newsz Hu Hold Hnew Hlen) as (r & k' & t' & u' & l' & Hrun & Hst & _).
  destruct (uspace_isolated k t u l k' t' u' l' t2 u2 Hu Hst Hu2 Hsep) as (H1 & H2 & H3).
  by exists r, k', l'.
Qed.

(** C5: [uvmfree] gives back everything: after it the free list is the old one
    together with every page the address space mapped and every page of its
    page table, and memory outside them is unchanged. *)
Theorem uvmfree_leaks_nothing k t u l sz :
  uspace k t u l -> 0 <= sz < 2^64 - PGSIZE -> Z.of_nat (length u) = npg sz ->
  (forall va, TRAPFRAME <= va < MAXVA -> pte_has (pte_of (k_mem k) t va) PTE_V = false) ->
  exists k' l', uvmfree (root t) sz k = Ret () k' /\ mem_only k k' /\ free_pages k' l' /\
    l' ≡ₚ pt_pages t ++ u.*1 ++ l /\
    (forall a, (forall p, p ∈ pt_pages t ++ u.*1 ++ l -> ~ in_page p a) -> load8 (k_mem k') a = load8 (k_mem k) a).
Proof. apply uvmfree_spec. Qed.

(** C6: [uvmcopy] of a parent's address space into an empty one either returns
    0, and each page of the child has the parent's permissions and bytes in a
    page of its own, or returns -1 and the child maps nothing and every page
    taken is back; the parent's pages keep their contents in both cases. *)
Theorem uvmcopy_copies k to uo t l sz :
  uspace k to uo l -> uspace k t [] l -> (forall p, p ∈ pt_pages to ++ uo.*1 -> p ∉ pt_pages t) ->
  0 <= sz < 2^64 - PGSIZE -> Z.of_nat (length uo) = npg sz ->
  exists r k' t' u' l',
    uvmcopy (root to) (root t) sz k = Ret r k' /\ us_step k t [] l k' t' u' l' /\
    (forall e a, e ∈ uo -> in_page e.1 a -> load8 (k_mem k') a = load8 (k_mem k) a) /\
    (r = 0 /\ length u' = length uo /\
       (forall i eo en, uo !! i = Some eo -> u' !! i = Some en -> copied (k_mem k) (k_mem k') eo en) \/
     r = -1 /\ u' = [] /\ (length l <= 3 * length uo)%nat).
Proof.
  intros Huo Hu Hsep Hsz Hlen. pose proof (uspace_length _ _ _ _ Huo) as Hb.
  pose proof (us_nodup _ _ _ _ Huo) as Hn. rewrite app_assoc in Hn. apply NoDup_app in Hn as (_ & Hd & _).
  assert (forall p, p ∈ pt_pages to ++ uo.*1 -> p ∉ pt_pages t ++ ([] : list (Z * Z)).*1 ++ l) as Hs.
  { intros p Hp. rewrite !not_elem_of_app. split_and!; [by apply Hsep|apply not_elem_of_nil|by apply Hd]. }
  assert (copying (k_mem k) to uo k t [] l) as Hc by (split; try done; split; apply Huo).
  destruct (uvmcopy_loop_spec (k_mem k) to uo (Z.to_nat (sz / PGSIZE + 1)) sz k t [] l Hc)
    as (r & k' & t' & u' & l' & Hrun & Hst & Hres); try done; try (simpl; lia).
  { rewrite npg_eq in Hlen by done. unfold PGSIZE in *. simpl. dlia. }
  exists r, k', t', u', l'. split_and!; [done|done| |].
  - intros e a He Ha. assert (e.1 ∈ uo.*1) as Hin by (apply list_elem_of_fmap; by exists e).
    apply (us_step_frame _ _ _ _ _ _ _ _ e.1 a Hu Hst); [|apply Hs, elem_of_app; by right|done].
    by apply (proj1 (Forall_forall _ _) (us_ok _ _ _ _ Huo)).
  - destruct Hres as [(-> & ? & _ & Hc')|(-> & -> & ?)]; [left|right; split_and!; [done|done|simpl in *; lia]].
    split_and!; [done|done|apply Hc'].
Qed.

(** C31: [copyout] followed by [copyin] of the same range gives the bytes back;
    [copyout] returns 0 exactly when every address of the range is mapped for
    the user and -1 otherwise, and whatever it returns no byte of physical
    memory changes but those the range is mapped to: the kernel, the free pages
    and the memory of every other process are as before. *)
Theorem copyout_copyin_roundtrip k t u l va bs :
  uspace k t u l -> hi_closed k t -> 0 <= va -> Forall (fun b => 0 <= b < 256) bs ->
  exists r m', copyout (root t) va bs k = Ret r (set_mem m' k) /\
    (r = 0 <-> forall i, (i < length bs)%nat -> is_Some (uaddr u (va + Z.of_nat i))) /\
    (r = 0 \/ r = -1) /\
    (forall a, (forall va', va <= va' < va + Z.of_nat (length bs) -> uaddr u va' <> Some a) ->
       load8 m' a = load8 (k_mem k) a) /\
    (forall va' a, uaddr u va' = Some a -> ~ va <= va' < va + Z.of_nat (length bs) ->
       load8 m' a = load8 (k_mem k) a) /\
    (r = 0 -> copyin (root t) va (Z.of_nat (length bs)) (set_mem m' k) = Ret (0, bs) (set_mem m' k)).
Proof.
  intros Hu Hhi Hva Hb. unfold copyout.
  destruct (copyout_loop_spec (length bs) k t u l va bs Hu Hhi Hva) as (r & m' & j & Hrun & Hw & Hres); [done|].
  destruct (uwrite_keeps _ _ _ _ _ _ _ Hu Hw) as [Hu' Hp]. exists r, m'. split; [done|]. split_and!.
  - destruct Hres as [[-> ->]|(-> & Hj & Hn)].
    + rewrite firstn_all in Hw. split; [|done]. intros _ i Hi. by eapply uwrite_mapped.
    + split; [done|]. intros Hall. destruct (Hall j Hj) as [a Ha]. congruence.
  - destruct Hres as [[-> _]|[-> _]]; auto.
  - intros a Ha. apply (uwrite_frame _ _ _ _ _ _ Hw). intros va' Hva'. apply Ha.
    rewrite length_take in Hva'. lia.
  - intros va' a Ha Hout. rewrite (uwrite_lookup _ _ _ _ _ _ _ _ _ _ Hu Hw Ha), decide_False; [done|].
    rewrite length_take. lia.
  - intros ->. destruct Hres as [[_ ->]|(? & _)]; [|lia]. rewrite firstn_all in Hw.
    pose proof (uread_uwrite _ _ _ _ _ _ _ _ Hu Hw Hb) as Hr. unfold copyin.
    destruct (copyin_loop_spec (Z.to_nat (Z.of_nat (length bs))) (set_mem m' k) t u l va (Z.of_nat (length bs)) []
      Hu' (hi_closed_keeps _ _ _ Hhi Hp) Hva) as (r & bs' & Hrun' & Hres'); [lia|].
    rewrite Nat2Z.id in *. ksimp in Hres'. rewrite Hr in Hres'.
    destruct Hres' as [[-> [= <-]]|[_ [=]]]. done.
Qed.

(** [copyinstr] never writes more than [max] bytes to the kernel: it
    returns 0 with the NUL-terminated string at [va], or -1 when there is no
    NUL in the first [max] bytes the user can access. *)
Theorem copyinstr_reads_string k t u l va max :
  uspace k t u l -> hi_closed k t -> 0 <= va -> 0 <= max ->
  exists r bs, copyinstr (root t) va max k = Ret (r, bs) k /\ ustring u (k_mem k) va max r bs.
Proof.
  intros Hu Hhi Hva Hmax.
  destruct (copyinstr_loop_spec (Z.to_nat max) k t u l va max [] Hu Hhi Hva) as (r & bs & Hrun & Hres); [lia|].
  by exists r, bs.
Qed.

End props.

(** ** Instances: sixteen free pages *)

Definition demo_layout : Layout :=
  {| kend := PHYSTOP - 16 * PGSIZE; etext := 0x80008000; trampoline := 0x80007000;
     a_uservec := 0x80007000; a_userret := 0x80007090; a_kernelvec := 0x80005050;
     a_usertrap := 0x80001c88; a_forkret := 0x80000e80 |}.

#[local] Instance demo_layout_ok : LayoutOk demo_layout.
Proof. split; vm_compute; repeat split; congruence. Qed.

Definition demo_kernel : kernel :=
  match (kinit (L := demo_layout);; uvmcreate) boot with Ret _ k => k | _ => boot end.

(** [kinit] frees upwards, so the first page handed out is the last one. *)
Definition demo_table : ptree := mkptree (PHYSTOP - PGSIZE) ∅ ∅.
Definition demo_free : list Z := tail (rev (all_pages (L := demo_layout))).

Lemma demo_space :
  uspace (L := demo_layout) demo_kernel demo_table [] demo_free /\
  (forall va, pte_of (k_mem demo_kernel) demo_table va = 0).
Proof.
  destruct (kinit_spec (L := demo_layout)) as (m & f & Hrun & Hf).
  assert (rev (all_pages (L := demo_layout)) = PHYSTOP - PGSIZE :: demo_free) as E by (vm_compute; done).
  rewrite E in Hf. destruct (uvmcreate_spec (L := demo_layout) _ _ _ Hf) as (k' & Hrun' & _ & Hu & Hp).
  { apply not_elem_of_nil. }
  assert (demo_kernel = k') as Heq.
  { unfold demo_kernel. erewrite bind_eq by exact Hrun. rewrite Hrun'. reflexivity. }
  rewrite Heq. exact (conj Hu Hp).
Qed.

#[local] Opaque demo_kernel.

Lemma demo_hi : hi_closed demo_kernel demo_table.
Proof. intros va _. rewrite (proj2 demo_space). done. Qed.

(** The same machine with a second page table. *)
Lemma demo_two :
  exists k t2 l, uspace (L := demo_layout) k demo_table [] l /\ uspace (L := demo_layout) k t2 [] l /\
    (forall va, pte_of (k_mem k) demo_table va = 0) /\ length l = 14%nat /\
    (forall p, p ∈ pt_pages t2 -> p ∉ pt_pages demo_table).
Proof.
  destruct demo_space as [Hu Hp]. set (q := PHYSTOP - 2 * PGSIZE).
  assert (demo_free = q :: tail demo_free) as E by (vm_compute; done). rewrite E in Hu.
  destruct (uvmcreate_spec (L := demo_layout) demo_kernel q (tail demo_free)) as (k & _ & Hw & Hu2 & _).
  { exact (vi_free _ _ _ (us_inv _ _ _ _ Hu)). }
  { exact (vi_lock _ _ _ (us_inv _ _ _ _ Hu)). }
  destruct (uspace_take (L := demo_layout) _ k _ _ _ _ Hu Hw) as (Hu1 & Hp1 & Hq).
  { exact (vi_free _ _ _ (us_inv _ _ _ _ Hu2)). }
  exists k, (mkptree q ∅ ∅), (tail demo_free). split_and!; [done|done| |by vm_compute|].
  - intros va. by rewrite Hp1.
  - intros p. unfold pt_pages at 1. simpl. rewrite !map_to_list_empty. simpl.
    intros ->%list_elem_of_singleton Hin. apply Hq, elem_of_app. by left.
Qed.

(** A parent of two pages and an empty table for its child. *)
Lemma demo_family :
  exists k to uo t l, uspace (L := demo_layout) k to uo l /\ uspace (L := demo_layout) k t [] l /\
    length uo = 2%nat /\ (forall p, p ∈ pt_pages to ++ uo.*1 -> p ∉ pt_pages t).
Proof.
  destruct demo_two as (k & t & l & Hu & Ht & Hp & Hlen & Hsep).
  destruct (uvmalloc_spec (L := demo_layout) k demo_table [] l 0 5000 Hu) as (r & k' & t' & u' & l' & _ & Hst & Hres);
    [lia|vm_compute; done|done|].
  change (npg 5000 - npg 0) with 2 in Hres.
  destruct Hres as [(_ & v & _ & Hl & _)|(_ & _ & Hl)]; [|lia].
  destruct (uspace_isolated (L := demo_layout) _ _ _ _ _ _ _ _ t [] Hu Hst Ht) as (Ht' & _).
  { intros p. rewrite !app_nil_r. apply Hsep. }
  exists k', t', u', t, l'. split_and!; [apply Hst|done|apply Nat2Z.inj, Hl|].
  intros p Hp' Hpt. pose proof (us_nodup _ _ _ _ Ht) as (_ & Hd & _)%NoDup_app.
  assert (p ∈ pt_pages demo_table ++ ([] : list (Z * Z)).*1 ++ l) as Hin.
  { rewrite <- (st_own _ _ _ _ _ _ _ _ Hst), app_assoc. apply elem_of_app. by left. }
  apply elem_of_app in Hin as [Hin|Hin]; [by apply (Hsep p)|by apply (Hd p)].
Qed.

(** The same machine after [uvmalloc(pagetable, 0, 5000)]. *)
Lemma demo_grown :
  exists k t u l, uspace (L := demo_layout) k t u l /\ hi_closed k t /\ length u = 2%nat /\
    Forall (fun e => e.2 = PTE_USER) u /\ (forall va, TRAPFRAME <= va < MAXVA -> pte_has (pte_of (k_mem k) t va) PTE_V = false).
Proof.
  destruct (uvmalloc_loop_spec (L := demo_layout) 2 demo_kernel demo_table [] demo_free 0 5000 0 (proj1 demo_space))
    as (r & k & t & u & l & _ & Hres); [simpl; lia|done|vm_compute; split; congruence|vm_compute; congruence|].
  destruct Hres as [(v & -> & -> & Hst & Hl & Hv)|(_ & _ & _ & Hl)]; [|exfalso; vm_compute in Hl; by apply Hl].
  exists k, t, v, l. split_and!; [apply Hst| |apply Nat2Z.inj, Hl| |].
  - intros va Hva. rewrite (st_hi _ _ _ _ _ _ _ _ Hst) by done. rewrite (proj2 demo_space). done.
  - eapply Forall_impl; [exact Hv|]. by intros e [? _].
  - intros va Hva. rewrite (st_hi _ _ _ _ _ _ _ _ Hst) by done. rewrite (proj2 demo_space). apply pte_has_0.
Qed.

Lemma mappages_maps_range_witness :
  exists r k' t' l',
    mappages (root demo_table) TRAMPOLINE PGSIZE 0x80007000 (Z.lor PTE_R PTE_X) demo_kernel = Ret r k' /\
    r = 0 /\ pte_of (k_mem k') t' TRAMPOLINE = mkpte 0x80007000 (Z.lor PTE_R PTE_X) /\
    vm_inv (L := demo_layout) k' t' l'.
Proof.
  destruct (mappages_maps_range (L := demo_layout) demo_kernel demo_table demo_free TRAMPOLINE PGSIZE 0x80007000
    (Z.lor PTE_R PTE_X)) as (r & k' & t' & l' & j & Hrun & Hinv & Hres & Hp & _).
  - apply (proj1 demo_space).
  - vm_compute. congruence.
  - vm_compute. congruence.
  - vm_compute. congruence.
  - vm_compute. split; congruence.
  - lia.
  - vm_compute. congruence.
  - intros va' _ _. rewrite (proj2 demo_space). apply pte_has_0.
  - destruct Hres as [[-> ->]|(_ & _ & _ & Hl)]; [|exfalso; vm_compute in Hl; by apply Hl].
    exists 0, k', t', l'. split_and!; [exact Hrun|done| |exact Hinv].
    rewrite Hp by (vm_compute; split; congruence). rewrite decide_True by (vm_compute; split; congruence). reflexivity.
Defined.

Lemma uvmalloc_grows_witness :
  exists k' t' u', uvmalloc (L := demo_layout) (root demo_table) 0 5000 demo_kernel = Ret 5000 k' /\
    length u' = 2%nat /\ Forall (fresh_page (k_mem k')) u' /\ root t' = root demo_table.
Proof.
  destruct (uvmalloc_grows (L := demo_layout) demo_kernel demo_table [] demo_free 0 5000)
    as (r & k' & t' & u' & l' & Hrun & Hst & Hres).
  - apply (proj1 demo_space).
  - lia.
  - vm_compute. done.
  - reflexivity.
  - destruct Hres as [(-> & v & -> & Hl & Hv)|(_ & _ & Hl)]; [|exfalso; vm_compute in Hl; by apply Hl].
    exists k', t', v. split_and!; [exact Hrun|apply Nat2Z.inj, Hl|exact Hv|apply Hst].
Defined.

Lemma uvmfree_leaks_nothing_witness :
  exists k t (u : list (Z * Z)) l k' l', length u = 2%nat /\ uvmfree (L := demo_layout) (root t) 5000 k = Ret () k' /\
    free_pages (L := demo_layout) k' l' /\ l' ≡ₚ pt_pages t ++ u.*1 ++ l.
Proof.
  destruct demo_grown as (k & t & u & l & Hu & _ & Hlen & _ & Hhi).
  destruct (uvmfree_leaks_nothing (L := demo_layout) k t u l 5000 Hu) as (k' & l' & Hrun & _ & Hf & Hl & _).
  - vm_compute. split; congruence.
  - rewrite Hlen. reflexivity.
  - exact Hhi.
  - exists k, t, u, l, k', l'. done.
Defined.

Lemma uvmcopy_copies_witness :
  exists k to (uo : list (Z * Z)) t r k', length uo = 2%nat /\
    uvmcopy (L := demo_layout) (root to) (root t) 5000 k = Ret r k' /\
    (forall e a, e ∈ uo -> in_page e.1 a -> load8 (k_mem k') a = load8 (k_mem k) a).
Proof.
  destruct demo_family as (k & to & uo & t & l & Huo & Hu & Hlen & Hsep).
  destruct (uvmcopy_copies (L := demo_layout) k to uo t l 5000 Huo Hu Hsep) as (r & k' & t' & u' & l' & Hrun & _ & Hm & _).
  - vm_compute. split; congruence.
  - rewrite Hlen. reflexivity.
  - exists k, to, uo, t, r, k'. done.
Defined.

Lemma uvmalloc_isolates_witness :
  exists k t2 r k', uvmalloc (L := demo_layout) (root demo_table) 0 5000 k = Ret r k' /\
    (forall va, pte_of (k_mem k') t2 va = pte_of (k_mem k) t2 va).
Proof.
  destruct demo_two as (k & t2 & l & Hu & Hu2 & _ & _ & Hsep).
  destruct (uvmalloc_isolates (L := demo_layout) k demo_table [] l 0 5000 t2 [] Hu) as (r & k' & l' & Hrun & _ & Hp & _).
  - lia.
  - vm_compute. done.
  - reflexivity.
  - exact Hu2.
  - intros p. rewrite !app_nil_r. apply Hsep.
  - exists k, t2, r, k'. done.
Defined.

(** A user address of the grown space. *)
Lemma demo_uaddr (u : list (Z * Z)) va :
  length u = 2%nat -> Forall (fun e => e.2 = PTE_USER) u -> 0 <= va < 8192 -> is_Some (uaddr u va).
Proof.
  intros Hlen Hf Hva. unfold uaddr. rewrite decide_False by lia.
  destruct (lookup_lt_is_Some_2 u (Z.to_nat (va / PGSIZE))) as [e He]; [unfold PGSIZE; dlia|].
  rewrite He, (Forall_lookup_1 _ _ _ _ Hf He). change (Z.testbit PTE_USER 4) with true. eauto.
Qed.

Lemma copyout_copyin_roundtrip_witness :
  exists k t m', copyout (root t) 4090 [1; 2; 3; 4; 5; 6; 7; 8] k = Ret 0 (set_mem m' k) /\
    copyin (root t) 4090 8 (set_mem m' k) = Ret (0, [1; 2; 3; 4; 5; 6; 7; 8]) (set_mem m' k).
Proof.
  destruct demo_grown as (k & t & u & l & Hu & Hhi & Hlen & Hperm & _).
  destruct (copyout_copyin_roundtrip (L := demo_layout) k t u l 4090 [1; 2; 3; 4; 5; 6; 7; 8] Hu Hhi)
    as (r & m' & Hrun & Hr & _ & _ & _ & Hin).
  - lia.
  - repeat constructor; lia.
  - assert (r = 0) as ->.
    { apply Hr. intros i Hi. apply demo_uaddr; [done|done|]. simpl in Hi. lia. }
    exists k, t, m'. split; [exact Hrun|by apply Hin].
Defined.

Lemma copyinstr_reads_string_witness :
  exists k t u r bs, copyinstr (root t) 0 16 k = Ret (r, bs) k /\ ustring u (k_mem k) 0 16 r bs.
Proof.
  destruct demo_grown as (k & t & u & l & Hu & Hhi & Hlen & _).
  destruct (copyinstr_reads_string (L := demo_layout) k t u l 0 16 Hu Hhi) as (r & bs & Hrun & Hs); [lia|lia|].
  by exists k, t, u, r, bs.
Defined.
