(* ===== verification/Mmu.v ===== *)
(** * Address translation by the hardware

    [sv39] is the translation of the RISC-V privileged specification (section
    4.3.2) from the value of [satp], which the tables that [vm.c] builds are
    for; accessed and dirty bits are left to the hardware. The theorem relates
    it to [walkaddr], through which the kernel reaches user memory. *)

From S2P Require Import Prelude Riscv Monad State Kstring Kalloc Vm VmInv VmMap Uspace VmProps.
#[local] Open Scope Z_scope.

Inductive access := Fetch | Load | Store.
Inductive privilege := User | Supervisor.

Definition ppn_addr (pte : Z) : Z := Z.shiftl (Z.land (Z.shiftr pte 10) (Z.ones 44)) 12.

(** May an access be made through the leaf entry [pte]? The supervisor has
    [SUM] off. *)
Definition permitted (p : privilege) (a : access) (pte : Z) : bool :=
  match p with User => pte_has pte PTE_U | Supervisor => negb (pte_has pte PTE_U) end &&
  match a with Fetch => pte_has pte PTE_X | Load => pte_has pte PTE_R | Store => pte_has pte PTE_W end.

(** The walk from the table at [a]; [i] is the level. *)
Fixpoint sv39_walk (i : nat) (m : mem) (a va : Z) : option (Z * Z) :=
  let pte := load64 m (a + 8 * PX (Z.of_nat i) va) in
  if negb (pte_has pte PTE_V) || (negb (pte_has pte PTE_R) && pte_has pte PTE_W) || (2 ^ 54 <=? pte) then None
  else if pte_has pte PTE_R || pte_has pte PTE_X then
    let size := 2 ^ (12 + 9 * Z.of_nat i) in
    if ppn_addr pte mod size =? 0 then Some (pte, ppn_addr pte + va mod size) else None
  else
    match i with
    | O => None
    | S i' => sv39_walk i' m (ppn_addr pte) va
    end.

Definition sv39 (m : mem) (satp : Z) (p : privilege) (a : access) (va : Z) : option Z :=
  if Z.shiftr satp 60 =? 0 then Some va
  else if negb (Z.shiftr satp 60 =? 8) then None
  else if (2 ^ 38 <=? va) && (va <? 2 ^ 64 - 2 ^ 38) then None
  else
    '(pte, pa) ← sv39_walk 2 m (Z.shiftl (Z.land satp (Z.ones 44)) 12) va;
    if permitted p a pte then Some pa else None.

(** A leaf entry as [vm.c] writes it. *)
Record leaf_pte (pte pa perm : Z) : Prop := {
  lp_pte : pte = mkpte pa perm;
  lp_page : pa mod PGSIZE = 0;
  lp_pa : 0 <= pa < 2 ^ 56;
  lp_perm : 0 <= perm < 2 ^ 10;
  lp_leaf : Z.testbit perm 1 = true \/ Z.testbit perm 3 = true;
  lp_write : Z.testbit perm 2 = true -> Z.testbit perm 1 = true
}.

(** ** Entries *)

Lemma ppn_addr_mkpte pa perm : pa mod PGSIZE = 0 -> 0 <= pa < 2 ^ 56 -> 0 <= perm < 2 ^ 10 -> ppn_addr (mkpte pa perm) = pa.
Proof.
  intros Ha Hp Hperm. unfold ppn_addr. rewrite mkpte_eq by done.
  rewrite Z.shiftl_mul_pow2, Z.land_ones, Z.shiftr_div_pow2 by lia.
  rewrite Z.div_add_l by lia. rewrite (Z.div_small (Z.lor _ _)) by (by apply perm_V_bound).
  rewrite Z.add_0_r, Z.mod_small; unfold PGSIZE in *; dlia.
Qed.

Lemma mkpte_small pa perm : 0 <= pa < 2 ^ 56 -> 0 <= perm < 2 ^ 10 -> (2 ^ 54 <=? mkpte pa perm) = false.
Proof. intros. apply Z.leb_gt. by apply mkpte_bound. Qed.

(** A step through an entry that leads to the next table. *)
Lemma sv39_walk_table i m a va q :
  load64 m (a + 8 * PX (Z.of_nat (S i)) va) = mkpte q 0 -> q mod PGSIZE = 0 -> 0 <= q < 2 ^ 56 ->
  sv39_walk (S i) m a va = sv39_walk i m q va.
Proof.
  intros He Hq Hr. cbn [sv39_walk]. rewrite He, mkpte_small, pte_has_mkpte_V by lia.
  unfold PTE_R, PTE_W, PTE_X. rewrite !pte_has_mkpte_flag by lia. rewrite !Z.testbit_0_l. simpl. by rewrite ppn_addr_mkpte by lia.
Qed.

Lemma sv39_walk_invalid i m a va : pte_has (load64 m (a + 8 * PX (Z.of_nat i) va)) PTE_V = false -> sv39_walk i m a va = None.
Proof. intros He. destruct i; cbn [sv39_walk]; by rewrite He. Qed.

Lemma sv39_walk_leaf m a va pa perm :
  leaf_pte (load64 m (a + 8 * PX 0 va)) pa perm -> sv39_walk 0 m a va = Some (mkpte pa perm, pa + va mod PGSIZE).
Proof.
  intros [He Hq Hr Hp Hl Hw]. cbn [sv39_walk]. change (Z.of_nat 0) with 0. rewrite He, mkpte_small, pte_has_mkpte_V by lia.
  unfold PTE_R, PTE_W, PTE_X. rewrite !pte_has_mkpte_flag by lia. rewrite ppn_addr_mkpte by done.
  change (2 ^ (12 + 9 * 0)) with PGSIZE. rewrite Hq. change (0 =? 0) with true.
  destruct (Z.testbit perm 1) eqn:B1, (Z.testbit perm 2) eqn:B2, (Z.testbit perm 3) eqn:B3; naive_solver.
Qed.

Section mmu.
Context {L : Layout} {LOk : LayoutOk L}.

Lemma page_ok_pa p : page_ok p -> p mod PGSIZE = 0 /\ 0 <= p < 2 ^ 56.
Proof. intros Hp. split; [by apply page_ok_aligned|]. pose proof (page_ok_range p Hp). unfold PGSIZE in *. lia. Qed.

(** The walk of the hardware through a table in memory. *)
Lemma sv39_walk_table_rep m t va :
  pt_rep m t -> Forall page_ok (pt_pages t) -> 0 <= va < MAXVA ->
  sv39_walk 2 m (root t) va =
  match slot t va with Some s => sv39_walk 0 m (s - 8 * PX 0 va) va | None => None end.
Proof.
  intros [Hroot Hmid Hdom _ _] Hok Hva. unfold slot. rewrite Forall_forall in Hok.
  pose proof (PX2_bound va Hva). pose proof (PX_bound 1 va ltac:(lia)).
  specialize (Hroot (PX 2 va) ltac:(lia)). destruct (t1 t !! PX 2 va) as [p1|] eqn:E1.
  - destruct (page_ok_pa p1) as [? ?]; [apply Hok; by apply (pt_pages_t1 t (PX 2 va))|].
    rewrite (sv39_walk_table 1 m (root t) va p1) by (try done; exact Hroot).
    specialize (Hmid _ _ (PX 1 va) E1 ltac:(lia)). destruct (t0 t !! (PX 2 va, PX 1 va)) as [p0|] eqn:E0.
    + destruct (page_ok_pa p0) as [? ?]; [apply Hok; by apply (pt_pages_t0 t (PX 2 va, PX 1 va))|].
      rewrite (sv39_walk_table 0 m p1 va p0) by (try done; exact Hmid).
      cbn [fmap option_fmap option_map]. by rewrite Z.add_simpl_r.
    + by apply (sv39_walk_invalid 1).
  - destruct (t0 t !! (PX 2 va, PX 1 va)) as [p0|] eqn:E0; [destruct (Hdom _ _ _ E0); congruence|].
    by apply (sv39_walk_invalid 2).
Qed.

(** What an access to [va] finds, from the leaf entry of [va]. *)
Definition mmu_view (p : privilege) (a : access) (pte va : Z) : option Z :=
  if pte_has pte PTE_V && permitted p a pte then Some (PTE2PA pte + va mod PGSIZE) else None.

Lemma MAKE_SATP_fields r :
  r mod PGSIZE = 0 -> 0 <= r < 2 ^ 56 -> Z.shiftr (MAKE_SATP r) 60 = 8 /\ Z.shiftl (Z.land (MAKE_SATP r) (Z.ones 44)) 12 = r.
Proof.
  intros Hr Hb. assert (MAKE_SATP r = 8 * 2 ^ 60 + r / 2 ^ 12) as ->.
  { unfold MAKE_SATP, SATP_SV39. rewrite Z.shiftr_div_pow2, Z.shiftl_mul_pow2 by lia. apply lor_low_add; [lia|]. dlia. }
  rewrite Z.shiftr_div_pow2, Z.land_ones, Z.shiftl_mul_pow2 by lia. unfold PGSIZE in *. split; dlia.
Qed.

Lemma sv39_table m t p a va :
  pt_rep m t -> Forall page_ok (pt_pages t) -> 0 <= va < MAXVA ->
  (pte_has (pte_of m t va) PTE_V = true -> exists pa perm, leaf_pte (pte_of m t va) pa perm) ->
  sv39 m (MAKE_SATP (root t)) p a va = mmu_view p a (pte_of m t va) va.
Proof.
  intros Hr Hok Hva Hleaf. assert (page_ok (root t)) as Hroot by (rewrite Forall_forall in Hok; apply Hok, pt_pages_root).
  destruct (page_ok_pa _ Hroot) as [? ?]. destruct (MAKE_SATP_fields (root t)) as [E1 E2]; [done|done|].
  unfold sv39, mmu_view. rewrite E1, E2, sv39_walk_table_rep by done. change (8 =? 0) with false. change (negb (8 =? 8)) with false.
  rewrite MAXVA_eq in Hva. rewrite (proj2 (Z.leb_gt _ _)) by lia. cbn [andb].
  unfold pte_of in *. destruct (slot t va) as [s|]; [|by rewrite pte_has_0].
  destruct (pte_has (load64 m s) PTE_V) eqn:EV; cbn [andb].
  - destruct (Hleaf eq_refl) as (pa & perm & Hl). rewrite (sv39_walk_leaf m _ va pa perm) by (by replace (s - 8 * PX 0 va + 8 * PX 0 va) with s by lia).
    destruct Hl as [-> H1 H2 H3 _ _]. cbn [mbind option_bind]. by rewrite PTE2PA_mkpte.
  - rewrite sv39_walk_invalid; [done|]. change (Z.of_nat 0) with 0. by replace (s - 8 * PX 0 va + 8 * PX 0 va) with s by lia.
Qed.

End mmu.

(** C17: The kernel and the hardware agree on user memory. For a table that
    [vm.c] built, the physical address at which the kernel's [walkaddr] finds
    a user page is the one to which the MMU translates the user program's
    accesses, and where [walkaddr] finds none the user program faults; a page
    the MMU hides from the user program by its access bits is the only
    difference. *)
Theorem walkaddr_agrees_with_mmu {L : Layout} {LOk : LayoutOk L} k t a va :
  pt_rep (k_mem k) t -> Forall page_ok (pt_pages t) -> 0 <= va < MAXVA ->
  (pte_has (pte_of (k_mem k) t va) PTE_V = true -> exists pa perm, pa <> 0 /\ leaf_pte (pte_of (k_mem k) t va) pa perm) ->
  exists w, walkaddr (root t) va k = Ret w k /\
    (w = 0 -> sv39 (k_mem k) (MAKE_SATP (root t)) User a va = None) /\
    (w <> 0 -> sv39 (k_mem k) (MAKE_SATP (root t)) User a va =
       if permitted User a (pte_of (k_mem k) t va) then Some (w + va mod PGSIZE) else None).
Proof.
  intros Hr Hok Hva Hleaf. exists (user_pa (pte_of (k_mem k) t va)).
  split; [rewrite walkaddr_spec, decide_True; [done|lia|done|done|lia]|].
  rewrite (sv39_table _ _ _ _ _ Hr Hok Hva) by (intros HV; destruct (Hleaf HV) as (pa & perm & _ & Hl); eauto).
  unfold mmu_view, user_pa. destruct (pte_has (pte_of (k_mem k) t va) PTE_V) eqn:HV; cbn [andb]; [|done].
  destruct (Hleaf eq_refl) as (pa & perm & Hpa & [Hpte H1 H2 H3 _ _]). rewrite Hpte, PTE2PA_mkpte by done.
  destruct (pte_has (mkpte pa perm) PTE_U) eqn:HU; [done|]. split; [|done]. intros _. unfold permitted. by rewrite HU.
Qed.

Lemma walkaddr_agrees_with_mmu_witness :
  exists k t w, walkaddr (root t) 4196 k = Ret w k /\ w <> 0 /\
    sv39 (k_mem k) (MAKE_SATP (root t)) User Store 4196 = Some (w + 100).
Proof.
  destruct demo_grown as (k & t & u & l & [[_ Hrep Hok _ _] Huok _ Hmap _] & _ & Hlen & Hperm & _).
  destruct u as [|e0 [|e u]]; try discriminate Hlen.
  assert (pte_of (k_mem k) t 4196 = mkpte e.1 e.2) as Hpte.
  { rewrite <- (Hmap 1%nat e eq_refl). unfold pte_of, slot. by rewrite !(PX_page _ 4196 (Z.of_nat 1 * PGSIZE)) by (unfold PGSIZE; lia || done). }
  apply Forall_cons in Huok as [_ [[Hpg Hp] _]%Forall_cons]. apply Forall_cons in Hperm as [_ [E2 _]%Forall_cons].
  destruct (page_ok_pa (LOk := demo_layout_ok) _ Hpg) as [Hal Hpa]. pose proof (page_ok_range (H := demo_layout_ok) _ Hpg) as Hnz.
  destruct (walkaddr_agrees_with_mmu (L := demo_layout) (LOk := demo_layout_ok) k t Store 4196 Hrep Hok) as (w & Hw & _ & Hs).
  - rewrite MAXVA_eq. lia.
  - intros _. exists e.1, e.2. split; [lia|]. rewrite Hpte, E2. rewrite E2 in Hp. split; try done. by left.
  - assert (w = e.1) as ->.
    { rewrite (walkaddr_spec (L := demo_layout) (LOk := demo_layout_ok)), decide_True in Hw by (try done; rewrite ?MAXVA_eq; lia). injection Hw as <-. rewrite Hpte, E2. unfold user_pa.
      rewrite pte_has_mkpte_V. unfold PTE_U. rewrite pte_has_mkpte_flag, PTE2PA_mkpte by (try done; lia). done. }
    exists k, t, e.1. split; [done|]. split; [lia|]. rewrite Hs by lia. rewrite Hpte, E2. unfold permitted, PTE_U, PTE_W.
    rewrite !pte_has_mkpte_flag by (try done; lia). done.
Defined.
