(* ===== verification/Kvm.v ===== *)
(** * The kernel's page table

    [kvmmake] on a machine with enough free memory: the table it builds maps
    the devices and the RAM at their own addresses, the trampoline at the top
    of the address space, and a stack with a guard page below it for every
    process. *)

From S2P Require Import Prelude Riscv Monad State Kstring Kalloc Vm VmInv VmMap Uspace VmProps Mmu.
#[local] Open Scope Z_scope.

#[local] Opaque memset memmove store64 load64 kalloc mappages.

Notation PTE_RW := (Z.lor PTE_R PTE_W).
Notation PTE_RX := (Z.lor PTE_R PTE_X).

(** A range of [kvmmake]: its address, pages, physical address, permissions. *)
Record kmap := mkkmap { km_va : Z; km_n : Z; km_pa : Z; km_perm : Z }.

Definition km_end (m : kmap) : Z := km_va m + km_n m * PGSIZE.

Record kmap_ok (m : kmap) : Prop := {
  ko_va : km_va m mod PGSIZE = 0 /\ 0 <= km_va m;
  ko_n : 0 < km_n m;
  ko_end : km_end m <= MAXVA;
  ko_pa : km_pa m mod PGSIZE = 0 /\ 0 <= km_pa m /\ km_pa m + km_n m * PGSIZE + PGSIZE <= 2 ^ 56;
  ko_perm : km_perm m = PTE_RW \/ km_perm m = PTE_RX
}.

(** The tables that a range may need. *)
Definition km_cost (m : kmap) : Z := 2 * ((km_end m - 1) / REGION - km_va m / REGION + 1).

Definition km_pte (f : Z -> Z) (m : kmap) : Z -> Z := map_range f (km_va m) (km_n m) (km_pa m) (km_perm m).

Definition km_out (m : kmap) (va : Z) : Prop := va < km_va m \/ km_end m <= va.

(** Unmapped, or mapped by a leaf without access for the user. *)
Definition kernel_leaf (pte : Z) : Prop :=
  pte_has pte PTE_V = true -> exists pa perm, leaf_pte pte pa perm /\ (perm = PTE_RW \/ perm = PTE_RX).

Section kvm.
Context {L : Layout} {LOk : LayoutOk L}.

Lemma kvmmap_spec k t l m :
  vm_inv k t l -> kmap_ok m -> (forall va, km_va m <= va < km_end m -> pte_has (pte_of (k_mem k) t va) PTE_V = false) ->
  km_cost m < Z.of_nat (length l) ->
  exists k' t' l', kvmmap (root t) (km_va m) (km_pa m) (km_n m * PGSIZE) (km_perm m) k = Ret () k' /\
    pt_upd k t l k' t' l' (km_pte (pte_of (k_mem k) t) m) /\ Z.of_nat (length l) <= Z.of_nat (length l') + km_cost m.
Proof.
  intros Hinv [[Ha H0] Hn Hend (Hpa & Hpa0 & Hpa') Hperm] Hfree Hlen. unfold km_cost, km_end in *.
  destruct (mappages_regions k t l (km_va m) (km_n m * PGSIZE) (km_pa m) (km_perm m)) as (r & k' & t' & l' & j & Hrun & Hu & Hres & Hl).
  - done.
  - done.
  - unfold PGSIZE. lia.
  - done.
  - destruct Hperm as [-> | ->]; vm_compute; split; congruence.
  - done.
  - done.
  - intros va ? ?. apply Hfree. unfold PGSIZE in *. dlia.
  - unfold kvmmap. erewrite bind_eq by exact Hrun. cbv beta. unfold km_pte.
    assert (PGROUNDDOWN (km_va m) = km_va m) as Ea by (rewrite PGROUNDDOWN_eq; unfold PGSIZE in *; dlia). rewrite Ea in *.
    destruct Hres as [[-> ->]|(-> & ? & ->)]; [|simpl in Hl; lia].
    exists k', t', l'. split; [reflexivity|]. split; [|done].
    assert ((PGROUNDDOWN (km_va m + km_n m * PGSIZE - 1) - km_va m) / PGSIZE + 1 = km_n m) as En by (rewrite PGROUNDDOWN_eq; unfold PGSIZE in *; dlia).
    by rewrite En in Hu.
Qed.

Lemma map_range_out f m va : km_out m va -> km_pte f m va = f va.
Proof. unfold km_out, km_end, km_pte, map_range. intros H. rewrite decide_False by lia. done. Qed.

Lemma map_range_in f m va : km_va m <= va < km_end m -> km_pte f m va = mkpte (km_pa m + (PGROUNDDOWN va - km_va m)) (km_perm m).
Proof. unfold km_end, km_pte, map_range. intros H. by rewrite decide_True by lia. Qed.

Lemma map_range_ext f g m va : (forall va, 0 <= va < MAXVA -> f va = g va) -> 0 <= va < MAXVA -> km_pte f m va = km_pte g m va.
Proof. intros Hfg Hva. unfold km_pte, map_range. case_decide; [done|]. by apply Hfg. Qed.

(** A sequence of calls of [kvmmap]. *)
Definition kvmmaps {A} (kpgtbl : Z) (ms : list kmap) (rest : K A) : K A :=
  foldr (fun m rest => kvmmap kpgtbl (km_va m) (km_pa m) (km_n m * PGSIZE) (km_perm m);; rest) rest ms.

Definition km_ptes (f : Z -> Z) (ms : list kmap) : Z -> Z := foldl km_pte f ms.

Definition km_costs (ms : list kmap) : Z := foldr (fun m c => km_cost m + c) 0 ms.

Fixpoint km_disjoint (ms : list kmap) : Prop :=
  match ms with
  | [] => True
  | m :: ms' => Forall (fun m' => km_end m <= km_va m' \/ km_end m' <= km_va m) ms' /\ km_disjoint ms'
  end.

Lemma km_cost_pos m : kmap_ok m -> 0 < km_cost m.
Proof.
  intros [_ Hn _ _ _]. unfold km_cost, km_end. pose proof (Z.div_le_mono (km_va m) (km_va m + km_n m * PGSIZE - 1) REGION ltac:(done)) as H.
  unfold PGSIZE in *. specialize (H ltac:(lia)). lia.
Qed.

Lemma km_costs_pos ms : Forall kmap_ok ms -> 0 <= km_costs ms.
Proof. induction 1 as [|m ms Hm _ IH]; [done|]. apply km_cost_pos in Hm. change (km_costs (m :: ms)) with (km_cost m + km_costs ms). lia. Qed.

Lemma kvmmaps_spec {A} (rest : K A) ms : forall k t l f,
  vm_inv k t l -> (forall va, 0 <= va < MAXVA -> pte_of (k_mem k) t va = f va) -> Forall kmap_ok ms -> km_disjoint ms ->
  (forall m va, m ∈ ms -> km_va m <= va < km_end m -> pte_has (f va) PTE_V = false) -> km_costs ms < Z.of_nat (length l) ->
  exists k' t' l', kvmmaps (root t) ms rest k = rest k' /\ pt_upd k t l k' t' l' (km_ptes f ms) /\
    Z.of_nat (length l) <= Z.of_nat (length l') + km_costs ms.
Proof.
  induction ms as [|m ms IH]; intros k t l f Hinv Hf Hok Hdis Hfree Hlen.
  { exists k, t, l. split; [done|]. split; [|simpl; lia]. eapply pt_upd_pte; [by apply pt_grow_refl|]. exact Hf. }
  apply Forall_cons in Hok as [Hm Hok]. destruct Hdis as [Hd Hdis]. change (km_costs (m :: ms)) with (km_cost m + km_costs ms) in *.
  pose proof (km_costs_pos ms Hok) as Hpos.
  destruct (kvmmap_spec k t l m Hinv Hm) as (k1 & u1 & l1 & Hrun & Hu & Hl).
  { intros va Hva. pose proof Hm as [[_ ?] _ ? _ _]. rewrite Hf by lia. apply (Hfree m); [apply list_elem_of_here|done]. }
  { lia. }
  destruct (IH k1 u1 l1 (km_pte f m)) as (k2 & u2 & l2 & Hrun2 & Hu2 & Hl2); try done.
  - apply Hu.
  - intros va Hva. rewrite (pg_pte _ _ _ _ _ _ _ Hu) by done. by apply map_range_ext.
  - intros m' va Hm' Hva. rewrite map_range_out; [apply (Hfree m'); [by apply list_elem_of_further|done]|].
    destruct (proj1 (Forall_forall _ _) Hd m' Hm'); unfold km_out; lia.
  - lia.
  - exists k2, u2, l2. split; [|split; [by eapply pt_upd_trans|lia]]. cbn [kvmmaps foldr]. erewrite bind_eq by exact Hrun. cbv beta.
    rewrite <- (pg_root _ _ _ _ _ _ _ Hu). exact Hrun2.
Qed.


(** ** The stacks *)

Definition stack_map (p pa : Z) : kmap := mkkmap (KSTACK p) 1 pa PTE_RW.

Fixpoint stack_maps (p : Z) (pas : list Z) : list kmap :=
  match pas with
  | [] => []
  | pa :: pas' => stack_map p pa :: stack_maps (p + 1) pas'
  end.

Lemma stack_map_ok p pa : 0 <= p < NPROC -> page_ok pa -> kmap_ok (stack_map p pa).
Proof.
  intros Hp Hpa. pose proof (page_ok_range pa Hpa). pose proof (page_ok_aligned pa Hpa). assert (pa < 0x88000000) by apply Hpa. change NPROC with 64 in Hp.
  assert (KSTACK p = 2 ^ 38 - 4096 - (p + 1) * 8192) as E by (unfold KSTACK, TRAMPOLINE; rewrite MAXVA_eq; unfold PGSIZE; lia).
  split; unfold km_end; cbn [stack_map km_va km_n km_pa km_perm]; rewrite ?E, ?MAXVA_eq; unfold PGSIZE in *; [dlia|lia|lia| |by left].
  split_and!; [done|lia|lia].
Qed.

Lemma stack_cost p pa : km_cost (stack_map p pa) = 2.
Proof.
  unfold km_cost, km_end, stack_map. cbn [km_va km_n].
  assert (KSTACK p = (2 ^ 25 - 1 - (p + 1)) * 8192 + 4096) as -> by (unfold KSTACK, TRAMPOLINE; rewrite MAXVA_eq; unfold PGSIZE; lia).
  unfold REGION, PGSIZE. dlia.
Qed.

(** [proc_mapstacks] takes a page for every stack and maps it. *)
Lemma proc_mapstacks_spec n : forall p k t l f,
  vm_inv k t l -> (forall va, 0 <= va < MAXVA -> pte_of (k_mem k) t va = f va) -> 0 <= p -> p + Z.of_nat n <= NPROC ->
  (forall i va, p <= i < p + Z.of_nat n -> KSTACK i <= va < KSTACK i + PGSIZE -> pte_has (f va) PTE_V = false) -> 3 * Z.of_nat n < Z.of_nat (length l) ->
  exists k' t' l' pas, proc_mapstacks_loop n (root t) p k = Ret () k' /\ root t' = root t /\ vm_inv k' t' l' /\ length pas = n /\
    (forall va, 0 <= va < MAXVA -> pte_of (k_mem k') t' va = km_ptes f (stack_maps p pas) va) /\
    pt_pages t' ++ pas ++ l' ≡ₚ pt_pages t ++ l /\ mem_only k k' /\ Z.of_nat (length l) <= Z.of_nat (length l') + 3 * Z.of_nat n.
Proof.
  induction n as [|n IH]; intros p k t l f Hinv Hf Hp Hn Hfree Hlen.
  { exists k, t, l, []. split_and!; [done..|lia]. }
  destruct l as [|q l]; [simpl in Hlen; lia|]. destruct (vm_inv_kalloc k t q l Hinv) as (k1 & Hrun & Hinv1 & Hw & Hpte).
  assert (page_ok q) as Hq by (eapply free_pages_nonzero; [apply Hinv|apply list_elem_of_here]). pose proof (page_ok_range q Hq).
  cbn [length] in Hlen. change NPROC with 64 in *.
  destruct (kvmmap_spec k1 t l (stack_map p q) Hinv1 (stack_map_ok p q ltac:(change NPROC with 64; lia) Hq)) as (k2 & u2 & l2 & Hrun2 & Hu2 & Hl2).
  { intros va Hva. pose proof (stack_map_ok p q ltac:(change NPROC with 64; lia) Hq) as [[_ ?] _ ? _ _].
    unfold km_end in *. cbn [stack_map km_va km_n] in *. rewrite Hpte, Hf by lia. apply (Hfree p); [lia|]. unfold PGSIZE in *; lia. }
  { rewrite stack_cost. lia. }
  rewrite stack_cost in Hl2.
  destruct (IH (p + 1) k2 u2 l2 (km_pte f (stack_map p q))) as (k' & t' & l' & pas & Hrun' & Hroot & Hinv' & Hlen' & Hf' & Hperm & Ho' & Hll); try lia.
  - apply Hu2.
  - intros va Hva. rewrite (pg_pte _ _ _ _ _ _ _ Hu2) by done. apply map_range_ext; [|done]. intros x Hx. rewrite Hpte. by apply Hf.
  - intros i va Hi Hva. rewrite map_range_out; [apply (Hfree i); [lia|done]|]. unfold km_out, km_end. cbn [stack_map km_va km_n].
    unfold KSTACK, PGSIZE in *. lia.
  - exists k', t', l', (q :: pas). rewrite (pg_root _ _ _ _ _ _ _ Hu2) in *. split; [|split; [done|split; [done|split; [simpl; lia|split; [done|split; [|split]]]]]].
    + cbn [proc_mapstacks_loop]. erewrite bind_eq by exact Hrun. cbv beta. rewrite (proj2 (Z.eqb_neq q 0)) by lia.
      assert (kvmmap (root t) (KSTACK p) q PGSIZE PTE_RW k1 = Ret () k2) as Hm by (rewrite <- Hrun2; cbn [stack_map km_va km_n km_pa km_perm]; by rewrite Z.mul_1_l).
      erewrite bind_eq by exact Hm. exact Hrun'.
    + pose proof (pg_perm _ _ _ _ _ _ _ Hu2) as Hp2. cbn [app]. rewrite <- Permutation_middle, Hperm, Hp2. by rewrite Permutation_middle.
    + transitivity k1; [apply Hw|]. transitivity k2; [apply Hu2|done].
    + cbn [length]. lia.
Qed.


(** ** All the ranges *)

Definition kernel_maps : list kmap := [
  mkkmap UART0 1 UART0 PTE_RW;
  mkkmap VIRTIO0 1 VIRTIO0 PTE_RW;
  mkkmap PLIC 1024 PLIC PTE_RW;
  mkkmap KERNBASE ((etext - KERNBASE) / PGSIZE) KERNBASE PTE_RX;
  mkkmap etext ((PHYSTOP - etext) / PGSIZE) etext PTE_RW;
  mkkmap TRAMPOLINE 1 trampoline PTE_RX ].

Lemma layout_bounds :
  KERNBASE < etext /\ etext mod PGSIZE = 0 /\ etext <= PHYSTOP /\ KERNBASE <= trampoline < PHYSTOP /\ trampoline mod PGSIZE = 0 /\
  (etext - KERNBASE) / PGSIZE * PGSIZE = etext - KERNBASE /\ (PHYSTOP - etext) / PGSIZE * PGSIZE = PHYSTOP - etext.
Proof.
  pose proof kend_range. pose proof etext_range. pose proof etext_aligned as He. pose proof trampoline_range. pose proof trampoline_aligned.
  split_and!; try done; try lia; unfold KERNBASE, PHYSTOP, KERNBASE, PGSIZE in *; dlia.
Qed.

Lemma kernel_maps_ok : etext < PHYSTOP -> Forall kmap_ok kernel_maps.
Proof.
  intros Hlt. destruct layout_bounds as (H1 & H2 & H3 & H4 & H5 & H6 & H7). unfold kernel_maps.
  assert (0 < (etext - KERNBASE) / PGSIZE /\ 0 < (PHYSTOP - etext) / PGSIZE) as [? ?] by (unfold PGSIZE, KERNBASE, PHYSTOP, KERNBASE in *; dlia).
  assert (TRAMPOLINE = 2 ^ 38 - 4096) as ET by reflexivity.
  repeat apply Forall_cons_2; [..|apply Forall_nil_2]; (split; unfold km_end; cbn [km_va km_n km_pa km_perm];
    rewrite ?H6, ?H7, ?MAXVA_eq; unfold UART0, VIRTIO0, PLIC, KERNBASE, PHYSTOP, KERNBASE, PGSIZE in *;
    [split; (done || lia)|lia|rewrite ?ET; lia|split_and!; (done || lia)|by (left + right)]).
Qed.

Lemma kernel_maps_disjoint : km_disjoint kernel_maps.
Proof.
  destruct layout_bounds as (H1 & H2 & H3 & H4 & H5 & H6 & H7). unfold kernel_maps. cbn [km_disjoint].
  assert (TRAMPOLINE = 2 ^ 38 - 4096) as ET by reflexivity. unfold km_end.
  split_and!; try done; repeat apply Forall_cons_2; try apply Forall_nil_2; cbn [km_va km_n]; rewrite ?H6, ?H7, ?ET;
    unfold UART0, VIRTIO0, PLIC, KERNBASE, PHYSTOP, KERNBASE, PGSIZE in *; lia.
Qed.

Lemma kernel_maps_cost : km_costs kernel_maps <= 140.
Proof.
  destruct layout_bounds as (H1 & H2 & H3 & H4 & H5 & H6 & H7). unfold kernel_maps, km_costs. cbn [foldr]. unfold km_cost, km_end.
  cbn [km_va km_n km_pa]. rewrite ?H6, ?H7. replace (KERNBASE + (etext - KERNBASE) - 1) with (etext - 1) by lia.
  replace (etext + (PHYSTOP - etext) - 1) with (PHYSTOP - 1) by lia.
  pose proof (Z.div_le_mono (etext - 1) etext REGION ltac:(done) ltac:(lia)).
  change ((UART0 + 1 * PGSIZE - 1) / REGION) with 128. change (UART0 / REGION) with 128.
  change ((VIRTIO0 + 1 * PGSIZE - 1) / REGION) with 128. change (VIRTIO0 / REGION) with 128.
  change ((PLIC + 1024 * PGSIZE - 1) / REGION) with 97. change (PLIC / REGION) with 96.
  change (KERNBASE / REGION) with 1024. change ((PHYSTOP - 1) / REGION) with 1087.
  change ((TRAMPOLINE + 1 * PGSIZE - 1) / REGION) with 131071. change (TRAMPOLINE / REGION) with 131071. lia.
Qed.

Lemma stack_maps_elem pas : forall p m, m ∈ stack_maps p pas <-> exists i pa, pas !! i = Some pa /\ m = stack_map (p + Z.of_nat i) pa.
Proof.
  induction pas as [|pa pas IH]; intros p m; cbn [stack_maps].
  - split; [intros H; by apply not_elem_of_nil in H|]. intros (i & x & H & _). by rewrite lookup_nil in H.
  - rewrite elem_of_cons, IH. split.
    + intros [-> |(i & x & Hi & ->)]; [exists O, pa; split; [done|]; f_equal; lia|]. exists (S i), x. split; [done|]. f_equal. lia.
    + intros ([|i] & x & Hi & ->); [left; injection Hi as ->; f_equal; lia|right]. exists i, x. split; [done|]. f_equal. lia.
Qed.

(** Where a stack is. *)
Lemma stack_range m p pas : (length pas <= 64)%nat -> m ∈ stack_maps p pas -> p = 0 ->
  exists i pa, pas !! i = Some pa /\ m = stack_map (Z.of_nat i) pa /\ (i < 64)%nat /\
    km_va m = 2 ^ 38 - 4096 - (Z.of_nat i + 1) * 8192 /\ km_end m = km_va m + 4096.
Proof.
  intros Hl (i & pa & Hi & ->)%stack_maps_elem ->. exists i, pa. pose proof (lookup_lt_Some _ _ _ Hi). split; [done|]. split; [done|]. split; [lia|].
  unfold stack_map, km_end, KSTACK, TRAMPOLINE. cbn [km_va km_n]. rewrite MAXVA_eq. unfold PGSIZE. lia.
Qed.

Lemma stack_maps_disjoint pas : forall p, km_disjoint (stack_maps p pas).
Proof.
  induction pas as [|pa pas IH]; intros p; [done|]. cbn [stack_maps km_disjoint]. split; [|apply IH]. apply Forall_forall.
  intros m (i & x & _ & ->)%stack_maps_elem. unfold stack_map, km_end, KSTACK. cbn [km_va km_n]. unfold PGSIZE. lia.
Qed.

Lemma km_disjoint_app ms ms' :
  km_disjoint ms -> km_disjoint ms' -> (forall m m', m ∈ ms -> m' ∈ ms' -> km_end m <= km_va m' \/ km_end m' <= km_va m) -> km_disjoint (ms ++ ms').
Proof.
  induction ms as [|m ms IH]; [done|]. intros [Hm Hms] Hms' Hx. cbn [app km_disjoint]. split.
  - apply Forall_app. split; [done|]. apply Forall_forall. intros m' Hm'. apply Hx; [apply list_elem_of_here|done].
  - apply IH; [done|done|]. intros x y ? ?. apply Hx; [by apply list_elem_of_further|done].
Qed.

Lemma kernel_maps_range m : m ∈ kernel_maps -> km_end m <= PHYSTOP \/ m = mkkmap TRAMPOLINE 1 trampoline PTE_RX.
Proof.
  destruct layout_bounds as (H1 & H2 & H3 & H4 & H5 & H6 & H7). unfold kernel_maps. rewrite !elem_of_cons. unfold km_end.
  intros [-> |[-> |[-> |[-> |[-> |[-> |Hx]]]]]]; cbn [km_va km_n]; [left..|by right|by apply not_elem_of_nil in Hx]; rewrite ?H6, ?H7; try lia; by vm_compute.
Qed.

Lemma all_maps_disjoint pas : (length pas <= 64)%nat -> km_disjoint (kernel_maps ++ stack_maps 0 pas).
Proof.
  intros Hl. apply km_disjoint_app; [apply kernel_maps_disjoint|apply stack_maps_disjoint|].
  intros m m' Hm Hm'. destruct (stack_range m' 0 pas Hl Hm' eq_refl) as (i & pa & _ & _ & Hi & Hva & Hend).
  destruct (kernel_maps_range m Hm) as [Hx| ->].
  - left. change PHYSTOP with 0x88000000 in Hx. lia.
  - right. cbn [km_va]. change TRAMPOLINE with (2 ^ 38 - 4096). lia.
Qed.

(** ** Entries of the ranges *)

Lemma km_ptes_out ms : forall f va, Forall (fun m => km_out m va) ms -> km_ptes f ms va = f va.
Proof.
  induction ms as [|m ms IH]; intros f va; [done|]. intros [Hm Hms]%Forall_cons. change (km_ptes f (m :: ms)) with (km_ptes (km_pte f m) ms).
  rewrite IH by done. by apply map_range_out.
Qed.

Lemma km_ptes_in ms : forall f va m, km_disjoint ms -> m ∈ ms -> km_va m <= va < km_end m ->
  km_ptes f ms va = mkpte (km_pa m + (PGROUNDDOWN va - km_va m)) (km_perm m).
Proof.
  induction ms as [|m' ms IH]; intros f va m Hd Hm Hva; [by apply not_elem_of_nil in Hm|]. destruct Hd as [Hd Hds].
  change (km_ptes f (m' :: ms)) with (km_ptes (km_pte f m') ms). apply elem_of_cons in Hm as [-> |Hm]; [|by apply IH].
  rewrite km_ptes_out; [by apply map_range_in|]. eapply Forall_impl; [exact Hd|]. intros x Hx. cbv beta in Hx. unfold km_out. lia.
Qed.


Lemma kvmmake_eq k :
  kvmmake k = (kpgtbl ← kalloc; modify_mem (fun m => memset m kpgtbl 0 PGSIZE);;
               kvmmaps kpgtbl kernel_maps (proc_mapstacks kpgtbl;; mret kpgtbl)) k.
Proof.
  destruct layout_bounds as (_ & _ & _ & _ & _ & H6 & H7). unfold kvmmake, kernel_maps, kvmmaps. cbn [foldr km_va km_n km_pa km_perm].
  rewrite H6, H7. reflexivity.
Qed.

(** [kvmmake] succeeds and maps the ranges. *)
Lemma kvmmake_spec k q l :
  free_pages k (q :: l) -> KmemLock ∉ k_held k -> 400 <= Z.of_nat (length l) ->
  exists k' t l' stacks, kvmmake k = Ret q k' /\ root t = q /\ vm_inv k' t l' /\ length stacks = 64%nat /\
    (forall va, 0 <= va < MAXVA -> pte_of (k_mem k') t va = km_ptes (fun _ => 0) (kernel_maps ++ stack_maps 0 stacks) va) /\
    pt_pages t ++ stacks ++ l' ≡ₚ q :: l /\ mem_only k k' /\ Z.of_nat (length l) <= Z.of_nat (length l') + 332.
Proof.
  intros Hf Hlk Hlen. destruct (uvmcreate_spec k q l Hf Hlk) as (k1 & Hrun & Hw1 & [Hinv _ _ _ _] & Hp).
  assert (page_ok q) as Hq by (by eapply free_pages_nonzero, list_elem_of_here). pose proof (page_ok_range q Hq).
  assert (etext < PHYSTOP) as He by (destruct Hq as (_ & ? & ?); pose proof etext_range; lia).
  destruct (kalloc_cons_spec k q l Hf Hlk) as (nx & Hka & _). unfold uvmcreate in Hrun. erewrite bind_eq in Hrun by exact Hka. cbv beta in Hrun.
  rewrite (proj2 (Z.eqb_neq q 0)) in Hrun by lia.
  destruct (kvmmaps_spec (proc_mapstacks q;; mret q) kernel_maps k1 (mkptree q ∅ ∅) l (fun _ => 0)) as (k2 & u2 & l2 & Hrun2 & Hu2 & Hl2).
  - done.
  - intros va _. apply Hp.
  - by apply kernel_maps_ok.
  - apply kernel_maps_disjoint.
  - intros. apply pte_has_0.
  - pose proof kernel_maps_cost. lia.
  - pose proof kernel_maps_cost as Hcost. pose proof (pg_root _ _ _ _ _ _ _ Hu2) as Hroot. cbn [root] in Hroot, Hrun2.
    destruct (proc_mapstacks_spec 64 0 k2 u2 l2 (km_ptes (fun _ => 0) kernel_maps)) as (k3 & u3 & l3 & pas & Hrun3 & Hroot3 & Hinv3 & Hlen3 & Hp3 & Hperm3 & Ho3 & Hl3).
    + apply Hu2.
    + apply Hu2.
    + lia.
    + done.
    + intros i va Hi Hva. rewrite km_ptes_out; [apply pte_has_0|]. apply Forall_forall. intros m Hm. unfold km_out.
      assert (KSTACK i = 2 ^ 38 - 4096 - (i + 1) * 8192) as E by (unfold KSTACK, TRAMPOLINE; rewrite MAXVA_eq; unfold PGSIZE; lia). unfold PGSIZE in Hva.
      destruct (kernel_maps_range m Hm) as [Hx| ->]; [right; change PHYSTOP with 0x88000000 in Hx; lia|left]. cbn [km_va]. change TRAMPOLINE with (2 ^ 38 - 4096). lia.
    + lia.
    + exists k3, u3, l3, pas. rewrite Hroot in Hrun3, Hroot3. split; [|split; [done|split; [done|split; [done|split; [|split; [|split]]]]]].
      * rewrite kvmmake_eq. erewrite bind_eq by exact Hka. cbv beta. revert Hrun. kpure. intros [= <-]. kpure.
        refine (eq_trans Hrun2 _). unfold proc_mapstacks. change (Z.to_nat NPROC) with 64%nat. erewrite bind_eq by exact Hrun3. reflexivity.
      * intros va Hva. rewrite Hp3 by done. unfold km_ptes. by rewrite foldl_app.
      * rewrite Hperm3, (pg_perm _ _ _ _ _ _ _ Hu2). unfold pt_pages. cbn [root t1 t0]. by rewrite !map_to_list_empty.
      * transitivity k1; [apply Hw1|]. transitivity k2; [apply Hu2|done].
      * lia.
Qed.

(** What a leaf of the kernel's table permits. *)
Definition kpermits (perm : Z) (p : privilege) (a : access) : bool :=
  match p with
  | User => false
  | Supervisor => match a with Load => true | Store => perm =? PTE_RW | Fetch => perm =? PTE_RX end
  end.

Lemma permitted_kernel p a pa perm :
  0 <= pa < 2 ^ 56 -> perm = PTE_RW \/ perm = PTE_RX -> permitted p a (mkpte pa perm) = kpermits perm p a.
Proof.
  intros Hpa Hperm. assert (0 <= perm < 2 ^ 10) as Hp by (destruct Hperm as [-> | ->]; vm_compute; split; congruence).
  unfold permitted, PTE_U at 1 2, PTE_X at 1, PTE_R at 1, PTE_W at 1. rewrite !pte_has_mkpte_flag by lia. by destruct Hperm as [-> | ->]; destruct p, a.
Qed.

(** The translation of an address in one of the ranges. *)
Lemma kernel_xlate m t f ms km p a va :
  pt_rep m t -> Forall page_ok (pt_pages t) -> (forall va, 0 <= va < MAXVA -> pte_of m t va = km_ptes f ms va) ->
  km_disjoint ms -> km ∈ ms -> kmap_ok km -> km_va km <= va < km_end km ->
  sv39 m (MAKE_SATP (root t)) p a va =
  if kpermits (km_perm km) p a then Some (km_pa km + (va - km_va km)) else None.
Proof.
  intros Hr Hok Hf Hd Hin [[Ha Ha0] Hn Hend (Hpa & Hpa0 & Hpa') Hperm] Hva.
  set (pa := km_pa km + (PGROUNDDOWN va - km_va km)). unfold km_end in *.
  assert (pa mod PGSIZE = 0 /\ 0 <= pa < 2 ^ 56 /\ pa + va mod PGSIZE = km_pa km + (va - km_va km)) as (H1 & H2 & H3).
  { unfold pa. rewrite PGROUNDDOWN_eq. unfold PGSIZE in *. dlia. }
  assert (0 <= km_perm km < 2 ^ 10) as Hp by (destruct Hperm as [-> | ->]; vm_compute; split; congruence).
  assert (pte_of m t va = mkpte pa (km_perm km)) as Hpte by (rewrite Hf by lia; by apply km_ptes_in).
  rewrite sv39_table; [|done|done|lia|].
  - unfold mmu_view. rewrite Hpte, pte_has_mkpte_V, PTE2PA_mkpte, permitted_kernel by done. cbn [andb]. by rewrite H3.
  - intros _. exists pa, (km_perm km). split; try done; destruct Hperm as [-> | ->]; vm_compute; tauto.
Qed.

(** An address outside the ranges. *)
Lemma kernel_unmapped m t ms p a va :
  pt_rep m t -> Forall page_ok (pt_pages t) -> (forall va, 0 <= va < MAXVA -> pte_of m t va = km_ptes (fun _ => 0) ms va) ->
  0 <= va < MAXVA -> Forall (fun km => km_out km va) ms -> sv39 m (MAKE_SATP (root t)) p a va = None.
Proof.
  intros Hr Hok Hf Hva Hout. assert (pte_of m t va = 0) as Hpte by (rewrite Hf, km_ptes_out by done; done).
  rewrite sv39_table; [|done|done|done|].
  - unfold mmu_view. by rewrite Hpte, pte_has_0.
  - rewrite Hpte, pte_has_0. done.
Qed.

(** The ranges that are mapped at their own addresses, for reading and
    writing. *)
Lemma rw_range va :
  etext <= va < PHYSTOP \/ UART0 <= va < VIRTIO0 + PGSIZE \/ PLIC <= va < PLIC + 0x400000 ->
  exists km, km ∈ kernel_maps /\ km_va km <= va < km_end km /\ km_pa km = km_va km /\ km_perm km = PTE_RW.
Proof.
  destruct layout_bounds as (_ & _ & _ & _ & _ & _ & L7). unfold km_end. intros [Hva|[Hva|Hva]].
  - exists (mkkmap etext ((PHYSTOP - etext) / PGSIZE) etext PTE_RW). split; [by apply (list_elem_of_lookup_2 _ 4)|]. cbn. rewrite L7. split_and!; (done || lia).
  - destruct (decide (va < VIRTIO0)).
    + exists (mkkmap UART0 1 UART0 PTE_RW). split; [by apply (list_elem_of_lookup_2 _ 0)|]. cbn. unfold UART0, VIRTIO0, PGSIZE in *. split_and!; (done || lia).
    + exists (mkkmap VIRTIO0 1 VIRTIO0 PTE_RW). split; [by apply (list_elem_of_lookup_2 _ 1)|]. cbn. unfold UART0, VIRTIO0, PGSIZE in *. split_and!; (done || lia).
  - exists (mkkmap PLIC 1024 PLIC PTE_RW). split; [by apply (list_elem_of_lookup_2 _ 2)|]. cbn. unfold PLIC, PGSIZE in *. split_and!; (done || lia).
Qed.

(** User code reaches nothing through the kernel's table. *)
Lemma kernel_user m t ms a va :
  pt_rep m t -> Forall page_ok (pt_pages t) -> (forall va, 0 <= va < MAXVA -> pte_of m t va = km_ptes (fun _ => 0) ms va) ->
  km_disjoint ms -> Forall kmap_ok ms -> 0 <= va < MAXVA -> sv39 m (MAKE_SATP (root t)) User a va = None.
Proof.
  intros Hr Hok Hf Hd Hmok Hva. destruct (decide (Exists (fun km => km_va km <= va < km_end km) ms)) as [Hex|Hex].
  - apply Exists_exists in Hex as (km & Hin & Hx). by rewrite (kernel_xlate _ _ (fun _ => 0) ms km) by (done || by apply (proj1 (Forall_forall _ _) Hmok)).
  - apply (kernel_unmapped _ _ ms); try done. apply Forall_forall. intros km Hin. unfold km_out.
    destruct (decide (km_va km <= va < km_end km)); [|lia]. destruct Hex. apply Exists_exists. eauto.
Qed.

Lemma all_maps_ok stacks l :
  etext < PHYSTOP -> length stacks = 64%nat -> Forall page_ok (stacks ++ l) -> Forall kmap_ok (kernel_maps ++ stack_maps 0 stacks).
Proof.
  intros He Hlen [Hst _]%Forall_app. apply Forall_app. split; [by apply kernel_maps_ok|]. apply Forall_forall.
  intros m (i & pa & Hi & ->)%stack_maps_elem. pose proof (lookup_lt_Some _ _ _ Hi).
  apply stack_map_ok; [change NPROC with 64; lia|]. by apply (Forall_lookup_1 _ _ _ _ Hst Hi).
Qed.

(** What the hardware makes of a memory with the kernel's table. *)
Lemma kernel_mmu m t stacks l :
  pt_rep m t -> Forall page_ok (pt_pages t) -> length stacks = 64%nat -> Forall page_ok (stacks ++ l) -> etext < PHYSTOP ->
  (forall va, 0 <= va < MAXVA -> pte_of m t va = km_ptes (fun _ => 0) (kernel_maps ++ stack_maps 0 stacks) va) ->
    let mmu := sv39 m (MAKE_SATP (root t)) in
    (forall a va, a <> Fetch -> etext <= va < PHYSTOP \/ UART0 <= va < VIRTIO0 + PGSIZE \/ PLIC <= va < PLIC + 0x400000 ->
       mmu Supervisor a va = Some va) /\
    (forall a va, KERNBASE <= va < etext -> mmu Supervisor a va = match a with Store => None | _ => Some va end) /\
    (forall off, 0 <= off < PGSIZE -> mmu Supervisor Fetch (TRAMPOLINE + off) = Some (trampoline + off)) /\
    (forall i pa a off, stacks !! i = Some pa -> a <> Fetch -> 0 <= off < PGSIZE -> mmu Supervisor a (KSTACK (Z.of_nat i) + off) = Some (pa + off)) /\
    (forall p a va i, 0 <= i < 64 -> KSTACK i - PGSIZE <= va < KSTACK i -> mmu p a va = None) /\
    (forall a va, 0 <= va < MAXVA -> mmu User a va = None).
Proof.
  intros Hrep Hok Hst Hpok He Hp. cbv zeta. pose proof (all_maps_disjoint stacks ltac:(lia)) as Hdis.
  pose proof (all_maps_ok stacks l He Hst Hpok) as Hmok. destruct layout_bounds as (L1 & L2 & L3 & L4 & L5 & L6 & L7).
  assert (forall km p a va, km ∈ kernel_maps -> km_va km <= va < km_end km -> sv39 m (MAKE_SATP (root t)) p a va =
    if kpermits (km_perm km) p a then Some (km_pa km + (va - km_va km)) else None) as Hx.
  { intros km p a va Hin Hva. eapply kernel_xlate; try done; [apply elem_of_app; by left|]. apply (proj1 (Forall_forall _ _) Hmok), elem_of_app. by left. }
  split; [|split; [|split; [|split; [|split; [|intros a va Hva; by apply (kernel_user _ _ (kernel_maps ++ stack_maps 0 stacks))]]]]].
  - intros a va Ha Hva.
    destruct (rw_range va Hva) as (km & Hin & Hr & E1 & E2).
    rewrite (Hx km) by done. rewrite E1, E2. destruct a; [done|cbn; f_equal; lia..].
  - intros a va Hva. rewrite (Hx (mkkmap KERNBASE ((etext - KERNBASE) / PGSIZE) KERNBASE PTE_RX)); [|by apply (list_elem_of_lookup_2 _ 3)|unfold km_end; cbn; rewrite L6; lia].
    cbn [km_perm km_pa km_va]. replace (KERNBASE + (va - KERNBASE)) with va by lia. by destruct a.
  - intros off Ho. rewrite (Hx (mkkmap TRAMPOLINE 1 trampoline PTE_RX)); [|by apply (list_elem_of_lookup_2 _ 5)|unfold km_end; cbn [km_va km_n]; lia].
    cbn [km_perm km_pa km_va]. change (kpermits PTE_RX Supervisor Fetch) with true. cbv iota. f_equal. lia.
  - intros i pa a off Hi Ha Ho. assert (stack_map (Z.of_nat i) pa ∈ stack_maps 0 stacks) as Hin by (apply stack_maps_elem; exists i, pa; by rewrite Z.add_0_l).
    rewrite (kernel_xlate _ _ (fun _ => 0) (kernel_maps ++ stack_maps 0 stacks) (stack_map (Z.of_nat i) pa)); try done.
    + cbn [stack_map km_perm km_pa km_va]. replace (KSTACK (Z.of_nat i) + off - KSTACK (Z.of_nat i)) with off by lia. by destruct a.
    + apply elem_of_app. by right.
    + apply (proj1 (Forall_forall _ _) Hmok), elem_of_app. by right.
    + unfold km_end, stack_map. cbn [km_va km_n]. lia.
  - intros p a va i Hi Hva. assert (KSTACK i = 2 ^ 38 - 4096 - (i + 1) * 8192) as E by (unfold KSTACK, TRAMPOLINE; rewrite MAXVA_eq; unfold PGSIZE; lia).
    rewrite E in Hva. unfold PGSIZE in Hva. apply (kernel_unmapped _ _ (kernel_maps ++ stack_maps 0 stacks)); try done; [rewrite MAXVA_eq; lia|].
    apply Forall_app. split; apply Forall_forall; intros km Hm; unfold km_out.
    + destruct (kernel_maps_range km Hm) as [Hy| ->]; [right; change PHYSTOP with 0x88000000 in Hy; lia|left]. cbn [km_va]. change TRAMPOLINE with (2 ^ 38 - 4096). lia.
    + destruct (stack_range km 0 stacks ltac:(lia) Hm eq_refl) as (j & pa & _ & _ & Hj & Ev & Ee). lia.
Qed.

End kvm.

(** C15: The kernel runs where it is loaded. With 400 free pages [kvmmake]
    builds a table through which the supervisor reads and writes the RAM
    above the kernel's text and the device registers at their physical
    addresses, reads and executes the text but cannot write it, and finds the
    trampoline at the top of the address space; every process has a stack
    page of its own, below which an access faults; and user code can reach
    nothing. No page is in two places. *)
Theorem kvmmake_direct_map {L : Layout} {LOk : LayoutOk L} k q l :
  free_pages k (q :: l) -> KmemLock ∉ k_held k -> 400 <= Z.of_nat (length l) ->
  exists k' t l' stacks, kvmmake k = Ret q k' /\ vm_inv k' t l' /\ length stacks = 64%nat /\ pt_pages t ++ stacks ++ l' ≡ₚ q :: l /\
    let mmu := sv39 (k_mem k') (MAKE_SATP q) in
    (forall a va, a <> Fetch -> etext <= va < PHYSTOP \/ UART0 <= va < VIRTIO0 + PGSIZE \/ PLIC <= va < PLIC + 0x400000 ->
       mmu Supervisor a va = Some va) /\
    (forall a va, KERNBASE <= va < etext -> mmu Supervisor a va = match a with Store => None | _ => Some va end) /\
    (forall off, 0 <= off < PGSIZE -> mmu Supervisor Fetch (TRAMPOLINE + off) = Some (trampoline + off)) /\
    (forall i pa a off, stacks !! i = Some pa -> a <> Fetch -> 0 <= off < PGSIZE -> mmu Supervisor a (KSTACK (Z.of_nat i) + off) = Some (pa + off)) /\
    (forall p a va i, 0 <= i < 64 -> KSTACK i - PGSIZE <= va < KSTACK i -> mmu p a va = None) /\
    (forall a va, 0 <= va < MAXVA -> mmu User a va = None).
Proof.
  intros Hf Hlk Hlen. destruct (kvmmake_spec k q l Hf Hlk Hlen) as (k' & t & l' & stacks & Hrun & <- & Hinv & Hst & Hp & Hperm & _).
  exists k', t, l', stacks. split; [done|]. split; [done|]. split; [done|]. split; [done|].
  pose proof Hinv as [_ Hrep Hok _ _]. apply (kernel_mmu _ t stacks l'); try done.
  - apply Forall_forall. intros p Hp'. eapply free_pages_nonzero; [exact Hf|]. rewrite <- Hperm. apply elem_of_app. by right.
  - assert (page_ok (root t)) as (_ & ? & ?) by (by eapply free_pages_nonzero, list_elem_of_here). pose proof etext_range. lia.
Qed.

(** A machine with 500 free pages. *)
Definition small_layout : Layout :=
  {| kend := PHYSTOP - 500 * PGSIZE; etext := 0x80008000; trampoline := 0x80007000;
     a_uservec := 0x80007000; a_userret := 0x80007090; a_kernelvec := 0x80005050;
     a_usertrap := 0x80001c88; a_forkret := 0x80000e80 |}.

#[local] Instance small_layout_ok : LayoutOk small_layout.
Proof. split; vm_compute; repeat split; congruence. Qed.

Lemma kvmmake_direct_map_witness :
  exists k q k', kvmmake (L := small_layout) k = Ret q k' /\
    sv39 (k_mem k') (MAKE_SATP q) Supervisor Store 0x80100000 = Some 0x80100000 /\
    sv39 (k_mem k') (MAKE_SATP q) Supervisor Store 0x80001000 = None.
Proof.
  destruct (kinit_spec (L := small_layout)) as (m & f & Hrun & Hf).
  destruct (rev (all_pages (L := small_layout))) as [|q l] eqn:E; [by vm_compute in E|].
  assert (length l = 499%nat) as Hlen.
  { assert (length (rev (all_pages (L := small_layout))) = 500%nat) as H by (vm_compute; reflexivity). rewrite E in H. simpl in H. lia. }
  destruct (kvmmake_direct_map (L := small_layout) (LOk := small_layout_ok) _ q l Hf) as (k' & t & l' & st & Hk & _ & _ & _ & Hram & Htext & _).
  - apply not_elem_of_nil.
  - rewrite Hlen. lia.
  - eexists _, q, k'. split; [exact Hk|]. split.
    + apply (Hram Store); [discriminate|]. left. vm_compute. split; congruence.
    + apply (Htext Store). vm_compute. split; congruence.
Defined.
