(* ===== verification/Asm.v ===== *)
(** * The assembly code ([trampoline.S], [swtch.S], [kernelvec.S], [entry.S])

    A hart is its registers, control registers, privilege mode and memory; a
    routine is the list of its instructions, in the order of the source.
    Addresses in supervisor mode go through the MMU ([Mmu.sv39]); machine mode
    uses physical addresses. Instruction fetches are not modelled. *)

From S2P Require Import Prelude Riscv Monad State Kstring Kalloc Vm VmInv VmMap Mmu.
#[local] Open Scope Z_scope.

Inductive reg :=
  | ra | sp | gp | tp | t0 | t1 | t2 | s0 | s1 | a0 | a1 | a2 | a3 | a4 | a5 | a6 | a7
  | s2 | s3 | s4 | s5 | s6 | s7 | s8 | s9 | s10 | s11 | t3 | t4 | t5 | t6.

#[export] Instance reg_eq_dec : EqDecision reg.
Proof. solve_decision. Defined.

Inductive csr :=
  | sscratch | satp | sie | sip
  | mhartid | mstatus | mepc | medeleg | mideleg | mie | mtvec | mscratch | pmpaddr0 | pmpcfg0.

#[export] Instance csr_eq_dec : EqDecision csr.
Proof. solve_decision. Defined.

Inductive mode := Mmode | Smode.

Record hart := mkhart {
  h_reg : reg -> Z;
  h_csr : csr -> Z;
  h_mode : mode;
  h_mem : mem
}.

Definition set_reg (r : reg) (v : Z) (h : hart) : hart := mkhart (<[r := v]> (h_reg h)) (h_csr h) (h_mode h) (h_mem h).
Definition set_csr (c : csr) (v : Z) (h : hart) : hart := mkhart (h_reg h) (<[c := v]> (h_csr h)) (h_mode h) (h_mem h).
Definition set_hmem (m : mem) (h : hart) : hart := mkhart (h_reg h) (h_csr h) (h_mode h) m.

Definition xlate (h : hart) (a : access) (va : Z) : option Z :=
  match h_mode h with
  | Mmode => Some va
  | Smode => sv39 (h_mem h) (h_csr h satp) Supervisor a va
  end.

Inductive instr :=
  | Sd (r : reg) (off : Z) (b : reg)
  | Ld (r : reg) (off : Z) (b : reg)
  | Li (r : reg) (v : Z)
  | Addi (r s : reg) (v : Z)
  | Add (r s s' : reg)
  | Mul (r s s' : reg)
  | Csrr (r : reg) (c : csr)
  | Csrw (c : csr) (r : reg)
  | Csrrw (r : reg) (c : csr) (s : reg)
  | Sfence_vma
  | Call (f : string)
  | Jr (r : reg)
  | Sret
  | Mret
  | Spin.

(** How a routine is left. *)
Inductive leave := ToAddr (pc : Z) | ToSepc | ToMepc | Spinning.

(** [Some h'] is fall through; [call] is the effect of the C functions that
    are called. *)
Definition step (call : string -> hart -> option hart) (i : instr) (h : hart) : option (option leave * hart) :=
  match i with
  | Sd r off b => pa ← xlate h Store (u64 (h_reg h b + off)); Some (None, set_hmem (store64 (h_mem h) pa (h_reg h r)) h)
  | Ld r off b => pa ← xlate h Load (u64 (h_reg h b + off)); Some (None, set_reg r (load64 (h_mem h) pa) h)
  | Li r v => Some (None, set_reg r (u64 v) h)
  | Addi r s v => Some (None, set_reg r (u64 (h_reg h s + v)) h)
  | Add r s s' => Some (None, set_reg r (u64 (h_reg h s + h_reg h s')) h)
  | Mul r s s' => Some (None, set_reg r (u64 (h_reg h s * h_reg h s')) h)
  | Csrr r c => Some (None, set_reg r (h_csr h c) h)
  | Csrw c r => Some (None, set_csr c (h_reg h r) h)
  | Csrrw r c s => Some (None, set_reg r (h_csr h c) (set_csr c (h_reg h s) h))
  | Sfence_vma => Some (None, h)
  | Call f => h' ← call f h; Some (None, h')
  | Jr r => Some (Some (ToAddr (h_reg h r)), h)
  | Sret => Some (Some ToSepc, h)
  | Mret => Some (Some ToMepc, h)
  | Spin => Some (Some Spinning, h)
  end.

(** [ret] is [jr ra]. *)
Definition Ret : instr := Jr ra.

Fixpoint run (call : string -> hart -> option hart) (code : list instr) (h : hart) : option (leave * hart) :=
  match code with
  | [] => None
  | i :: code' =>
      '(l, h') ← step call i h;
      match l with
      | Some l => Some (l, h')
      | None => run call code' h'
      end
  end.

(** ** trampoline.S *)

Definition uservec : list instr := [
  Csrrw a0 sscratch a0;
  Sd ra 40 a0; Sd sp 48 a0; Sd gp 56 a0; Sd tp 64 a0; Sd t0 72 a0; Sd t1 80 a0; Sd t2 88 a0; Sd s0 96 a0; Sd s1 104 a0;
  Sd a1 120 a0; Sd a2 128 a0; Sd a3 136 a0; Sd a4 144 a0; Sd a5 152 a0; Sd a6 160 a0; Sd a7 168 a0;
  Sd s2 176 a0; Sd s3 184 a0; Sd s4 192 a0; Sd s5 200 a0; Sd s6 208 a0; Sd s7 216 a0; Sd s8 224 a0; Sd s9 232 a0;
  Sd s10 240 a0; Sd s11 248 a0; Sd t3 256 a0; Sd t4 264 a0; Sd t5 272 a0; Sd t6 280 a0;
  Csrr t0 sscratch;
  Sd t0 112 a0;
  Ld sp 8 a0;
  Ld tp 32 a0;
  Ld t0 16 a0;
  Ld t1 0 a0;
  Csrw satp t1;
  Sfence_vma;
  Jr t0 ].

Definition userret : list instr := [
  Csrw satp a1;
  Sfence_vma;
  Ld t0 112 a0;
  Csrw sscratch t0;
  Ld ra 40 a0; Ld sp 48 a0; Ld gp 56 a0; Ld tp 64 a0; Ld t0 72 a0; Ld t1 80 a0; Ld t2 88 a0; Ld s0 96 a0; Ld s1 104 a0;
  Ld a1 120 a0; Ld a2 128 a0; Ld a3 136 a0; Ld a4 144 a0; Ld a5 152 a0; Ld a6 160 a0; Ld a7 168 a0;
  Ld s2 176 a0; Ld s3 184 a0; Ld s4 192 a0; Ld s5 200 a0; Ld s6 208 a0; Ld s7 216 a0; Ld s8 224 a0; Ld s9 232 a0;
  Ld s10 240 a0; Ld s11 248 a0; Ld t3 256 a0; Ld t4 264 a0; Ld t5 272 a0; Ld t6 280 a0;
  Csrrw a0 sscratch a0;
  Sret ].

(** ** swtch.S *)

Definition swtch : list instr := [
  Sd ra 0 a0; Sd sp 8 a0; Sd s0 16 a0; Sd s1 24 a0; Sd s2 32 a0; Sd s3 40 a0; Sd s4 48 a0; Sd s5 56 a0; Sd s6 64 a0;
  Sd s7 72 a0; Sd s8 80 a0; Sd s9 88 a0; Sd s10 96 a0; Sd s11 104 a0;
  Ld ra 0 a1; Ld sp 8 a1; Ld s0 16 a1; Ld s1 24 a1; Ld s2 32 a1; Ld s3 40 a1; Ld s4 48 a1; Ld s5 56 a1; Ld s6 64 a1;
  Ld s7 72 a1; Ld s8 80 a1; Ld s9 88 a1; Ld s10 96 a1; Ld s11 104 a1;
  Ret ].

(** ** kernelvec.S *)

Definition kernelvec : list instr := [
  Addi sp sp (-256);
  Sd ra 0 sp; Sd sp 8 sp; Sd gp 16 sp; Sd tp 24 sp; Sd t0 32 sp; Sd t1 40 sp; Sd t2 48 sp; Sd s0 56 sp; Sd s1 64 sp;
  Sd a0 72 sp; Sd a1 80 sp; Sd a2 88 sp; Sd a3 96 sp; Sd a4 104 sp; Sd a5 112 sp; Sd a6 120 sp; Sd a7 128 sp;
  Sd s2 136 sp; Sd s3 144 sp; Sd s4 152 sp; Sd s5 160 sp; Sd s6 168 sp; Sd s7 176 sp; Sd s8 184 sp; Sd s9 192 sp;
  Sd s10 200 sp; Sd s11 208 sp; Sd t3 216 sp; Sd t4 224 sp; Sd t5 232 sp; Sd t6 240 sp;
  Call "kerneltrap";
  Ld ra 0 sp; Ld sp 8 sp; Ld gp 16 sp; Ld t0 32 sp; Ld t1 40 sp; Ld t2 48 sp; Ld s0 56 sp; Ld s1 64 sp;
  Ld a0 72 sp; Ld a1 80 sp; Ld a2 88 sp; Ld a3 96 sp; Ld a4 104 sp; Ld a5 112 sp; Ld a6 120 sp; Ld a7 128 sp;
  Ld s2 136 sp; Ld s3 144 sp; Ld s4 152 sp; Ld s5 160 sp; Ld s6 168 sp; Ld s7 176 sp; Ld s8 184 sp; Ld s9 192 sp;
  Ld s10 200 sp; Ld s11 208 sp; Ld t3 216 sp; Ld t4 224 sp; Ld t5 232 sp; Ld t6 240 sp;
  Addi sp sp 256;
  Sret ].

Definition timervec : list instr := [
  Csrrw a0 mscratch a0;
  Sd a1 0 a0; Sd a2 8 a0; Sd a3 16 a0;
  Ld a1 24 a0; Ld a2 32 a0; Ld a3 0 a1;
  Add a3 a3 a2;
  Sd a3 0 a1;
  Li a1 2;
  Csrw sip a1;
  Ld a3 16 a0; Ld a2 8 a0; Ld a1 0 a0;
  Csrrw a0 mscratch a0;
  Mret ].

Definition NCPU : Z := 8.

(** ** entry.S; [stack0] is the address of the stacks of [start.c] *)

Definition _entry (stack0 : Z) : list instr := [
  Li sp stack0;
  Li a0 (1024 * 4);
  Csrr a1 mhartid;
  Addi a1 a1 1;
  Mul a0 a0 a1;
  Add sp sp a0;
  Call "start";
  Spin ].

(** ** proc.h: where the registers are in [struct trapframe] and [struct context] *)

Definition tf_off (r : reg) : Z :=
  match r with
  | ra => 40 | sp => 48 | gp => 56 | tp => 64 | t0 => 72 | t1 => 80 | t2 => 88 | s0 => 96 | s1 => 104
  | a0 => 112 | a1 => 120 | a2 => 128 | a3 => 136 | a4 => 144 | a5 => 152 | a6 => 160 | a7 => 168
  | s2 => 176 | s3 => 184 | s4 => 192 | s5 => 200 | s6 => 208 | s7 => 216 | s8 => 224 | s9 => 232 | s10 => 240 | s11 => 248
  | t3 => 256 | t4 => 264 | t5 => 272 | t6 => 280
  end.

Definition ctx_off (r : reg) : option Z :=
  match r with
  | ra => Some 0 | sp => Some 8 | s0 => Some 16 | s1 => Some 24 | s2 => Some 32 | s3 => Some 40 | s4 => Some 48 | s5 => Some 56
  | s6 => Some 64 | s7 => Some 72 | s8 => Some 80 | s9 => Some 88 | s10 => Some 96 | s11 => Some 104
  | _ => None
  end.
