(* ===== verification/AsmProps.v ===== *)
(** * The assembly code keeps the registers

    Saving registers is a list of stores to one area of memory, restoring
    them a list of loads; [window] says that the area is mapped. *)

From S2P Require Import Prelude Riscv Monad State Kstring Kalloc Vm VmInv VmMap Uspace VmProps Mmu Asm.
#[local] Open Scope Z_scope.

#[local] Opaque load64 store64.

(** ** Saving and restoring *)

(** The [n] bytes at [va] are at the physical address [pb], also after
    changes to these bytes. *)
Definition window (h : hart) (a : access) (va pb n : Z) : Prop :=
  forall m off, 0 <= off -> off + 8 <= n -> (forall x, ~ (pb <= x < pb + n) -> load8 m x = load8 (h_mem h) x) ->
    xlate (set_hmem m h) a (u64 (va + off)) = Some (pb + off).

Definition saves (l : list (reg * Z)) (b : reg) : list instr := map (fun x => Sd x.1 x.2 b) l.
Definition restores (l : list (reg * Z)) (b : reg) : list instr := map (fun x => Ld x.1 x.2 b) l.

Definition stored (l : list (reg * Z)) (regs : reg -> Z) (pb : Z) (m : mem) : mem :=
  foldl (fun m x => store64 m (pb + x.2) (regs x.1)) m l.

Definition loaded (l : list (reg * Z)) (m : mem) (pb : Z) (regs : reg -> Z) : reg -> Z :=
  foldl (fun f x => <[x.1 := load64 m (pb + x.2)]> f) regs l.

Definition offs_ok (n : Z) (l : list (reg * Z)) : Prop :=
  Forall (fun x => 0 <= x.2 /\ x.2 + 8 <= n /\ x.2 mod 8 = 0) l.

Lemma stored_other l regs pb n m x : offs_ok n l -> ~ (pb <= x < pb + n) -> load8 (stored l regs pb m) x = load8 m x.
Proof.
  intros Hl Hx. revert m. induction Hl as [|y l (? & ? & _) _ IH]; intros m; [done|]. cbn [stored foldl]. fold (stored l).
  change (load8 (stored l regs pb (store64 m (pb + y.2) (regs y.1))) x = load8 m x). rewrite IH. apply load8_store64_ne. lia.
Qed.

Lemma stored_ne l regs pb m o : (forall x, x ∈ l -> x.2 + 8 <= o \/ o + 8 <= x.2) -> load64 (stored l regs pb m) (pb + o) = load64 m (pb + o).
Proof.
  revert m. induction l as [|y l IH]; intros m Hne; [done|].
  change (load64 (stored l regs pb (store64 m (pb + y.2) (regs y.1))) (pb + o) = load64 m (pb + o)).
  rewrite IH by (intros; apply Hne; by apply list_elem_of_further). apply load64_store64_ne.
  specialize (Hne y ltac:(apply list_elem_of_here)). lia.
Qed.

Lemma stored_eq l regs pb n m r o :
  offs_ok n l -> NoDup l.*2 -> (forall r, 0 <= regs r < 2 ^ 64) -> (r, o) ∈ l -> load64 (stored l regs pb m) (pb + o) = regs r.
Proof.
  intros Hl Hn Hr. revert m. induction Hl as [|y l Hy Hl IH]; intros m Hin; [by apply not_elem_of_nil in Hin|].
  apply NoDup_cons in Hn as [Hni Hn]. change (load64 (stored l regs pb (store64 m (pb + y.2) (regs y.1))) (pb + o) = regs r).
  apply elem_of_cons in Hin as [<- |Hin]; [|by apply IH].
  rewrite stored_ne; [by apply load64_store64_eq|]. intros x Hx. unfold offs_ok in Hl. rewrite Forall_forall in Hl.
  destruct (Hl x Hx) as (_ & _ & Hx8). destruct Hy as (_ & _ & Hy8). simpl in *.
  assert (x.2 <> o) by (intros <-; apply Hni; by apply (list_elem_of_fmap_2 snd)). dlia.
Qed.

Section exec.
Context (call : string -> hart -> option hart).

Lemma window_mem h a va pb n m :
  (forall x, ~ (pb <= x < pb + n) -> load8 m x = load8 (h_mem h) x) -> window h a va pb n -> window (set_hmem m h) a va pb n.
Proof.
  intros Hm Hw m' off Ho Hn Hm'. apply (Hw m' off Ho Hn). intros x Hx. rewrite (Hm' x Hx). by apply Hm.
Qed.

Lemma window_at h a va pb n off : window h a va pb n -> 0 <= off -> off + 8 <= n -> xlate h a (u64 (va + off)) = Some (pb + off).
Proof. intros Hw ? ?. rewrite <- (Hw (h_mem h) off) by done. by destruct h. Qed.

Lemma run_saves l b h pb n code :
  window h Store (h_reg h b) pb n -> offs_ok n l ->
  run call (saves l b ++ code) h = run call code (set_hmem (stored l (h_reg h) pb (h_mem h)) h).
Proof.
  intros Hw Hl. revert h Hw. induction Hl as [|[r o] l (? & ? & _) Hl IH]; intros h Hw; [by destruct h|].
  cbn [saves map app run step fst snd] in *. rewrite (window_at _ _ _ _ _ _ Hw) by done. cbn [mbind option_bind].
  fold (saves l b). rewrite IH; [done|]. apply window_mem; [|done].
  intros x Hx. apply load8_store64_ne. lia.
Qed.

Lemma window_reg h a va pb n r v : window h a va pb n -> window (set_reg r v h) a va pb n.
Proof. done. Qed.

Lemma loaded_ne l m pb regs r : r ∉ l.*1 -> loaded l m pb regs r = regs r.
Proof.
  revert regs. induction l as [|[r' o] l IH]; intros regs Hr; [done|].
  change (loaded l m pb (<[r' := load64 m (pb + o)]> regs) r = regs r).
  cbn in Hr. apply not_elem_of_cons in Hr as [? ?]. rewrite IH by done. by apply fn_lookup_insert_ne.
Qed.

Lemma loaded_eq l m pb regs r o : NoDup l.*1 -> (r, o) ∈ l -> loaded l m pb regs r = load64 m (pb + o).
Proof.
  revert regs. induction l as [|[r' o'] l IH]; intros regs Hn Hin; [by apply not_elem_of_nil in Hin|].
  change (loaded l m pb (<[r' := load64 m (pb + o')]> regs) r = load64 m (pb + o)).
  cbn in Hn. apply NoDup_cons in Hn as [Hni Hn]. apply elem_of_cons in Hin as [[= -> ->]|Hin]; [|by apply IH].
  rewrite loaded_ne by done. apply fn_lookup_insert.
Qed.

(** The base register may be restored as well, when the value restored is the
    one it has. *)
Lemma run_restores l b h pb n code :
  window h Load (h_reg h b) pb n -> offs_ok n l -> (forall o, (b, o) ∈ l -> load64 (h_mem h) (pb + o) = h_reg h b) ->
  run call (restores l b ++ code) h = run call code (mkhart (loaded l (h_mem h) pb (h_reg h)) (h_csr h) (h_mode h) (h_mem h)).
Proof.
  intros Hw Hl. revert h Hw. induction Hl as [|[r o] l (? & ? & _) Hl IH]; intros h Hw Hb; [by destruct h|].
  cbn [restores map app run step fst snd] in *. rewrite (window_at _ _ _ _ _ _ Hw) by done. cbn [mbind option_bind].
  fold (restores l b).
  assert (Hb' : (<[r := load64 (h_mem h) (pb + o)]> (h_reg h)) b = h_reg h b).
  { destruct (decide (r = b)) as [-> |]; [|by rewrite fn_lookup_insert_ne]. rewrite fn_lookup_insert. apply Hb. apply list_elem_of_here. }
  rewrite IH; [done| |]; cbn [set_reg h_reg h_mem]; rewrite Hb'; [by apply window_reg|].
  intros o' Ho'. apply Hb. by apply list_elem_of_further.
Qed.

End exec.

(** ** The trap frame of a process in its own page table *)

(** [t] is a table in which [proc_pagetable] has mapped the trap frame [tf]. *)
Record user_table {L : Layout} (m : mem) (t : ptree) (tf : Z) : Prop := {
  ut_rep : pt_rep m t;
  ut_ok : Forall page_ok (pt_pages t);
  ut_pte : pte_of m t TRAPFRAME = mkpte tf (Z.lor PTE_R PTE_W);
  ut_page : tf mod PGSIZE = 0;
  ut_pa : 0 <= tf < 2 ^ 56;
  ut_sep : tf ∉ pt_pages t
}.

Section frame.
Context {L : Layout} {LOk : LayoutOk L}.

Lemma user_table_frame m m' t tf :
  (forall x, ~ (tf <= x < tf + 288) -> load8 m' x = load8 m x) -> user_table m t tf -> user_table m' t tf.
Proof.
  intros Hm [Hr Hok Hpte Hpg Hpa Hsep].
  assert (forall p a, p ∈ pt_pages t -> in_page p a -> load8 m' a = load8 m a) as Hm'.
  { intros p a Hp Ha. apply Hm. intros Hx. apply Hsep. assert (p mod PGSIZE = 0).
    { apply page_ok_aligned. rewrite Forall_forall in Hok. by apply Hok. }
    assert (p = tf) as <-; [|done]. unfold in_page, PGSIZE in *. dlia. }
  split; [by eapply pt_rep_ext|done| |done..]. rewrite <- Hpte. by apply pte_of_ext.
Qed.

Lemma sv39_trapframe m t tf a off :
  user_table m t tf -> a <> Fetch -> 0 <= off < PGSIZE -> sv39 m (MAKE_SATP (root t)) Supervisor a (TRAPFRAME + off) = Some (tf + off).
Proof.
  intros [Hr Hok Hpte Hpg Hpa Hsep] Ha Ho. assert (HT : TRAPFRAME = 2 ^ 38 - 8192) by reflexivity.
  assert (pte_of m t (TRAPFRAME + off) = mkpte tf (Z.lor PTE_R PTE_W)) as Hp.
  { rewrite <- Hpte. apply pte_of_page. rewrite HT. unfold PGSIZE in *. dlia. }
  rewrite sv39_table; [|done|done|rewrite MAXVA_eq, HT; unfold PGSIZE in *; lia|].
  - unfold mmu_view, permitted, PTE_U, PTE_R, PTE_W, PTE_X in *. rewrite Hp, pte_has_mkpte_V, !pte_has_mkpte_flag, PTE2PA_mkpte by (done || lia).
    assert ((TRAPFRAME + off) mod PGSIZE = off) as -> by (rewrite HT; unfold PGSIZE in *; dlia). by destruct a.
  - intros _. exists tf, (Z.lor PTE_R PTE_W). split; try done. by left.
Qed.

Lemma window_trapframe h t tf a :
  h_mode h = Smode -> h_csr h satp = MAKE_SATP (root t) -> user_table (h_mem h) t tf -> a <> Fetch ->
  window h a TRAPFRAME tf 288.
Proof.
  intros Hs Hsatp Hu Ha m off Ho Hn Hm. unfold xlate. cbn [h_mode set_hmem h_csr h_mem]. rewrite Hs, Hsatp.
  assert (HT : TRAPFRAME = 2 ^ 38 - 8192) by reflexivity. rewrite u64_small by (rewrite HT; lia).
  apply sv39_trapframe; [by eapply user_table_frame|done|unfold PGSIZE; lia].
Qed.

End frame.

(** ** trampoline.S *)

(** The registers that are saved through [a0], with their offsets. *)
Definition tf_regs : list (reg * Z) := (fun r => (r, tf_off r)) <$>
  [ra; sp; gp; tp; t0; t1; t2; s0; s1; a1; a2; a3; a4; a5; a6; a7; s2; s3; s4; s5; s6; s7; s8; s9; s10; s11; t3; t4; t5; t6].

Lemma tf_regs_elem r : r <> a0 -> (r, tf_off r) ∈ tf_regs.
Proof. intros Hr. unfold tf_regs. apply (list_elem_of_fmap_2 (fun r => (r, tf_off r))). destruct r; try done; by repeat constructor. Qed.

Lemma tf_regs_offs : offs_ok 288 tf_regs.
Proof. by repeat constructor. Qed.

Lemma tf_regs_range : Forall (fun y => 40 <= y.2 /\ y.2 + 8 <= 288) tf_regs.
Proof. by repeat constructor. Qed.

Lemma tf_regs_nodup : NoDup tf_regs.*1 /\ NoDup tf_regs.*2.
Proof. split; by apply (bool_decide_unpack _); vm_compute. Qed.

Definition words (h : hart) : Prop := forall r, 0 <= h_reg h r < 2 ^ 64.

(** The whole frame: [a0] goes through [sscratch] and [t0]. *)
Definition saved_frame (h : hart) (tf : Z) : mem :=
  store64 (stored tf_regs (h_reg h) tf (h_mem h)) (tf + 112) (h_reg h a0).

Lemma saved_frame_reg h tf r : words h -> load64 (saved_frame h tf) (tf + tf_off r) = h_reg h r.
Proof.
  intros Hh. unfold saved_frame. destruct (decide (r = a0)) as [-> |Hr].
  - by apply load64_store64_eq.
  - rewrite load64_store64_ne by (destruct r; simpl; (done || lia)).
    apply (stored_eq tf_regs (h_reg h) tf 288); [apply tf_regs_offs|apply tf_regs_nodup|done|by apply tf_regs_elem].
Qed.

Lemma saved_frame_kernel h tf o : 0 <= o <= 32 -> load64 (saved_frame h tf) (tf + o) = load64 (h_mem h) (tf + o).
Proof.
  intros Ho. unfold saved_frame. rewrite load64_store64_ne by lia. apply stored_ne.
  intros x Hx. destruct (proj1 (Forall_forall _ _) tf_regs_range x Hx). lia.
Qed.

Lemma saved_frame_other h tf x : ~ (tf + 40 <= x < tf + 288) -> load8 (saved_frame h tf) x = load8 (h_mem h) x.
Proof.
  intros Hx. unfold saved_frame. rewrite load8_store64_ne by lia.
  generalize (h_mem h). induction tf_regs_range as [|y l Hy _ IH]; intros m; [done|].
  change (load8 (stored l (h_reg h) tf (store64 m (tf + y.2) (h_reg h y.1))) x = load8 m x). rewrite IH. apply load8_store64_ne. lia.
Qed.

Section trampoline.
Context {L : Layout} {LOk : LayoutOk L} (call : string -> hart -> option hart).

Lemma run_ld r o b h pb n code :
  window h Load (h_reg h b) pb n -> 0 <= o -> o + 8 <= n ->
  run call (Ld r o b :: code) h = run call code (set_reg r (load64 (h_mem h) (pb + o)) h).
Proof. intros Hw ? ?. cbn [run step]. by rewrite (window_at _ _ _ _ _ _ Hw). Qed.

Lemma run_sd r o b h pb n code :
  window h Store (h_reg h b) pb n -> 0 <= o -> o + 8 <= n ->
  run call (Sd r o b :: code) h = run call code (set_hmem (store64 (h_mem h) (pb + o) (h_reg h r)) h).
Proof. intros Hw ? ?. cbn [run step]. by rewrite (window_at _ _ _ _ _ _ Hw). Qed.

Lemma uservec_run h t tf :
  h_mode h = Smode -> h_csr h satp = MAKE_SATP (root t) -> h_csr h sscratch = TRAPFRAME -> user_table (h_mem h) t tf ->
  exists h1, run call uservec h = Some (ToAddr (load64 (h_mem h) (tf + 16)), h1) /\ h_mem h1 = saved_frame h tf /\
    h_reg h1 sp = load64 (h_mem h) (tf + 8) /\ h_reg h1 tp = load64 (h_mem h) (tf + 32) /\ h_csr h1 satp = load64 (h_mem h) (tf + 0) /\
    h_mode h1 = Smode.
Proof.
  intros Hm Hsatp Hss Hu. set (h0 := set_reg a0 TRAPFRAME (set_csr sscratch (h_reg h a0) h)).
  assert (forall a, a <> Fetch -> window h0 a TRAPFRAME tf 288) as Hw by (intros a Ha; by apply (window_trapframe h0 t)).
  assert (run call uservec h = run call (saves tf_regs a0 ++ drop 31 uservec) h0) as ->.
  { unfold h0. rewrite <- Hss at 1. reflexivity. }
  rewrite (run_saves call _ _ _ tf 288) by ((by apply (Hw Store)) || apply tf_regs_offs).
  assert (stored tf_regs (h_reg h0) tf (h_mem h0) = stored tf_regs (h_reg h) tf (h_mem h)) as -> by reflexivity.
  set (m1 := stored tf_regs (h_reg h) tf (h_mem h)).
  assert (forall a, a <> Fetch -> window (set_hmem m1 h0) a TRAPFRAME tf 288) as Hw1.
  { intros a Ha. apply window_mem; [|by apply Hw]. intros x Hx. apply (stored_other _ _ _ 288); [apply tf_regs_offs|done]. }
  set (h2 := set_reg t0 (h_reg h a0) (set_hmem m1 h0)).
  change (run call (drop 31 uservec) (set_hmem m1 h0)) with (run call (Sd t0 112 a0 :: drop 33 uservec) h2).
  rewrite (run_sd _ _ _ _ tf 288) by (done || by apply (Hw1 Store)).
  set (h3 := set_hmem (saved_frame h tf) h2). change (set_hmem (store64 (h_mem h2) (tf + 112) (h_reg h2 t0)) h2) with h3.
  assert (window h3 Load TRAPFRAME tf 288) as Hw3.
  { apply (window_trapframe h3 t); [done|done| |done]. apply (user_table_frame (h_mem h)); [|done].
    intros x Hx. apply saved_frame_other. lia. }
  change (drop 33 uservec) with (Ld sp 8 a0 :: Ld tp 32 a0 :: Ld t0 16 a0 :: Ld t1 0 a0 :: drop 37 uservec).
  rewrite (run_ld _ _ _ _ tf 288) by (done || by apply Hw3). rewrite (run_ld _ _ _ _ tf 288) by (done || by apply Hw3).
  rewrite (run_ld _ _ _ _ tf 288) by (done || by apply Hw3). rewrite (run_ld _ _ _ _ tf 288) by (done || by apply Hw3).
  cbn [h_mem set_reg]. change (h_mem h3) with (saved_frame h tf). rewrite !saved_frame_kernel by lia.
  eexists. split; [reflexivity|]. done.
Qed.

Lemma userret_run h t tf :
  h_mode h = Smode -> h_reg h a0 = TRAPFRAME -> h_reg h a1 = MAKE_SATP (root t) -> user_table (h_mem h) t tf ->
  exists h3, run call userret h = Some (ToSepc, h3) /\ (forall r, h_reg h3 r = load64 (h_mem h) (tf + tf_off r)) /\
    h_csr h3 satp = MAKE_SATP (root t) /\ h_csr h3 sscratch = TRAPFRAME /\ h_mem h3 = h_mem h /\ h_mode h3 = Smode.
Proof.
  intros Hm Ha0 Ha1 Hu. set (h0 := set_csr satp (h_reg h a1) h).
  assert (window h0 Load (h_reg h0 a0) tf 288) as Hw.
  { change (h_reg h0 a0) with (h_reg h a0). rewrite Ha0. by apply (window_trapframe h0 t). }
  change (run call userret h) with (run call (Ld t0 112 a0 :: drop 3 userret) h0).
  rewrite (run_ld _ _ _ _ tf 288) by done. set (h1 := set_reg t0 _ h0).
  set (h2 := set_csr sscratch (load64 (h_mem h) (tf + 112)) h1).
  change (run call (drop 3 userret) h1) with (run call (restores tf_regs a0 ++ drop 34 userret) h2).
  assert (a0 ∉ tf_regs.*1) as Hna by (apply (bool_decide_unpack _); by vm_compute).
  rewrite (run_restores call _ _ _ tf 288); [| |apply tf_regs_offs|].
  2: { change (h_reg h2 a0) with (h_reg h a0). rewrite Ha0. by apply (window_trapframe h2 t). }
  2: { intros o Ho. destruct Hna. by apply (list_elem_of_fmap_2 fst) in Ho. }
  eexists. split; [reflexivity|]. cbn [h_reg set_reg h_csr set_csr h_mem h_mode]. split_and!; [|done| |done|done].
  - intros r. destruct (decide (r = a0)) as [-> |Hr]; [by rewrite fn_lookup_insert|]. rewrite fn_lookup_insert_ne by done.
    rewrite (loaded_eq _ _ _ _ _ (tf_off r)); [done|apply tf_regs_nodup|by apply tf_regs_elem].
  - rewrite fn_lookup_insert, loaded_ne by done. done.
Qed.

End trampoline.

(** ** swtch.S *)

Definition ctx_regs : list (reg * Z) :=
  [(ra, 0); (sp, 8); (s0, 16); (s1, 24); (s2, 32); (s3, 40); (s4, 48); (s5, 56); (s6, 64); (s7, 72); (s8, 80); (s9, 88); (s10, 96); (s11, 104)].

Lemma ctx_regs_elem r o : ctx_off r = Some o <-> (r, o) ∈ ctx_regs.
Proof.
  split.
  - intros E. destruct r; try done; injection E as <-; by apply (bool_decide_unpack _).
  - intros Hin. assert (Forall (fun x => ctx_off x.1 = Some x.2) ctx_regs) as Hf by (by repeat constructor).
    by apply (proj1 (Forall_forall _ _) Hf (r, o)).
Qed.

Lemma ctx_regs_offs : offs_ok 112 ctx_regs.
Proof. by repeat constructor. Qed.

Lemma ctx_regs_nodup : NoDup ctx_regs.*1 /\ NoDup ctx_regs.*2.
Proof. split; by apply (bool_decide_unpack _); vm_compute. Qed.

Definition same_outside (pb n : Z) (m m' : mem) : Prop := forall x, ~ (pb <= x < pb + n) -> load8 m' x = load8 m x.

(** The contexts that [swtch] is given: [po] and [pn] are where the kernel's
    page table maps them, saving the first does not change the mapping of the
    second. *)
Record contexts (h : hart) (po pn : Z) : Prop := {
  cx_old : window h Store (h_reg h a0) po 112;
  cx_new m : same_outside po 112 (h_mem h) m -> window (set_hmem m h) Load (h_reg h a1) pn 112;
  cx_sep : po + 112 <= pn \/ pn + 112 <= po
}.

Lemma swtch_run call h po pn :
  contexts h po pn -> words h ->
  exists h1, run call swtch h = Some (ToAddr (load64 (h_mem h) (pn + 0)), h1) /\
    (forall r o, ctx_off r = Some o -> load64 (h_mem h1) (po + o) = h_reg h r) /\
    same_outside po 112 (h_mem h) (h_mem h1) /\
    (forall r, h_reg h1 r = match ctx_off r with Some o => load64 (h_mem h) (pn + o) | None => h_reg h r end) /\
    h_csr h1 = h_csr h /\ h_mode h1 = h_mode h.
Proof.
  intros [Hold Hnew Hsep] Hh. set (m1 := stored ctx_regs (h_reg h) po (h_mem h)).
  assert (same_outside po 112 (h_mem h) m1) as Hm1.
  { intros x Hx. apply (stored_other _ _ _ 112); [apply ctx_regs_offs|done]. }
  assert (forall o, (0 <= o) -> (o + 8 <= 112) -> load64 m1 (pn + o) = load64 (h_mem h) (pn + o)) as Hld.
  { intros o ? ?. apply load64_ext. intros x Hx. apply Hm1. lia. }
  change (run call swtch h) with (run call (saves ctx_regs a0 ++ restores ctx_regs a1 ++ [Ret]) h).
  rewrite (run_saves call _ _ _ po 112) by (done || apply ctx_regs_offs). fold m1.
  assert (a1 ∉ ctx_regs.*1) as Hna by (apply (bool_decide_unpack _); by vm_compute).
  rewrite (run_restores call _ _ _ pn 112); [|by apply Hnew|apply ctx_regs_offs|].
  2: { intros o Ho. destruct Hna. by apply (list_elem_of_fmap_2 fst) in Ho. }
  assert (forall r, loaded ctx_regs m1 pn (h_reg h) r = match ctx_off r with Some o => load64 (h_mem h) (pn + o) | None => h_reg h r end) as Hregs.
  { intros r. destruct (ctx_off r) as [o|] eqn:E.
    - apply ctx_regs_elem in E. rewrite (loaded_eq _ _ _ _ _ o); [|apply ctx_regs_nodup|done].
      destruct (proj1 (Forall_forall _ _) ctx_regs_offs _ E) as (? & ? & _). by apply Hld.
    - apply loaded_ne. intros (x & -> & Hx)%list_elem_of_fmap. destruct x as [r o]. apply ctx_regs_elem in Hx. simpl in *. congruence. }
  eexists. split; [cbn [run step Ret h_reg set_hmem h_mem]; by rewrite Hregs|]. split_and!; [|done|done|done|done].
  intros r o Ho. apply (stored_eq ctx_regs (h_reg h) po 112); [apply ctx_regs_offs|apply ctx_regs_nodup|done|by apply ctx_regs_elem].
Qed.

(** ** kernelvec.S *)

Definition kv_off (r : reg) : Z :=
  match r with
  | ra => 0 | sp => 8 | gp => 16 | tp => 24 | t0 => 32 | t1 => 40 | t2 => 48 | s0 => 56 | s1 => 64
  | a0 => 72 | a1 => 80 | a2 => 88 | a3 => 96 | a4 => 104 | a5 => 112 | a6 => 120 | a7 => 128
  | s2 => 136 | s3 => 144 | s4 => 152 | s5 => 160 | s6 => 168 | s7 => 176 | s8 => 184 | s9 => 192 | s10 => 200 | s11 => 208
  | t3 => 216 | t4 => 224 | t5 => 232 | t6 => 240
  end.

Definition kv_saved : list (reg * Z) := (fun r => (r, kv_off r)) <$>
  [ra; sp; gp; tp; t0; t1; t2; s0; s1; a0; a1; a2; a3; a4; a5; a6; a7; s2; s3; s4; s5; s6; s7; s8; s9; s10; s11; t3; t4; t5; t6].

Definition kv_restored : list (reg * Z) := (fun r => (r, kv_off r)) <$>
  [ra; sp; gp; t0; t1; t2; s0; s1; a0; a1; a2; a3; a4; a5; a6; a7; s2; s3; s4; s5; s6; s7; s8; s9; s10; s11; t3; t4; t5; t6].

Lemma kv_saved_elem r : (r, kv_off r) ∈ kv_saved.
Proof. apply (list_elem_of_fmap_2 (fun r => (r, kv_off r))). apply (bool_decide_unpack _). by destruct r; vm_compute. Qed.

Lemma kv_restored_elem r : r <> tp -> (r, kv_off r) ∈ kv_restored.
Proof. intros Hr. apply (list_elem_of_fmap_2 (fun r => (r, kv_off r))). apply (bool_decide_unpack _). by destruct r; vm_compute. Qed.

Lemma kv_offs : offs_ok 256 kv_saved /\ offs_ok 256 kv_restored.
Proof. split; by repeat constructor. Qed.

Lemma kv_nodup : NoDup kv_saved.*2 /\ NoDup kv_restored.*1.
Proof. split; by apply (bool_decide_unpack _); vm_compute. Qed.

(** What the interrupted code relies on of the C function [kerneltrap]: it
    returns on the same stack, with the frame above its stack pointer as it
    was and still mapped. *)
Definition keeps_frame (call : string -> hart -> option hart) (pb : Z) (h : hart) : Prop :=
  exists h', call "kerneltrap"%string h = Some h' /\ h_reg h' sp = h_reg h sp /\
    (forall x, pb <= x < pb + 256 -> load8 (h_mem h') x = load8 (h_mem h) x) /\ window h' Load (h_reg h' sp) pb 256.

Lemma kernelvec_run call h pb :
  words h -> 256 <= h_reg h sp -> window h Store (h_reg h sp - 256) pb 256 ->
  (forall h0, h_csr h0 = h_csr h -> h_mode h0 = h_mode h -> h_reg h0 = <[sp := h_reg h sp - 256]> (h_reg h) ->
     same_outside pb 256 (h_mem h) (h_mem h0) -> keeps_frame call pb h0) ->
  exists h0 h' h1, call "kerneltrap"%string h0 = Some h' /\ h_reg h0 = <[sp := h_reg h sp - 256]> (h_reg h) /\
    run call kernelvec h = Some (ToSepc, h1) /\ (forall r, h_reg h1 r = if decide (r = tp) then h_reg h' tp else h_reg h r) /\
    h_mem h1 = h_mem h' /\ h_csr h1 = h_csr h'.
Proof.
  intros Hh Hsp Hw Hcall. pose proof (Hh sp) as Hspb. set (hs := set_reg sp (h_reg h sp - 256) h).
  set (m1 := stored kv_saved (h_reg hs) pb (h_mem h)).
  assert (words hs) as Hhs.
  { intros r. cbn. destruct (decide (r = sp)) as [-> |]; [rewrite fn_lookup_insert; lia|by rewrite fn_lookup_insert_ne]. }
  destruct (Hcall (set_hmem m1 hs)) as (h' & Hc & Hsp' & Hm' & Hw'); [done|done|done| |].
  { intros x Hx. apply (stored_other _ _ _ 256); [apply kv_offs|done]. }
  assert (forall r, load64 (h_mem h') (pb + kv_off r) = h_reg hs r) as Hld.
  { intros r. rewrite (load64_ext _ m1).
    - apply (stored_eq kv_saved (h_reg hs) pb 256); [apply kv_offs|apply kv_nodup|done|apply kv_saved_elem].
    - intros x Hx. apply Hm'. destruct (proj1 (Forall_forall _ _) (proj1 kv_offs) _ (kv_saved_elem r)) as (? & ? & _). simpl in *. lia. }
  eexists (set_hmem m1 hs), h', _. split; [done|]. split; [done|].
  assert (run call kernelvec h = run call (saves kv_saved sp ++ drop 32 kernelvec) hs) as ->.
  { unfold hs. rewrite <- (u64_small (h_reg h sp - 256)) by lia. reflexivity. }
  rewrite (run_saves call _ _ _ pb 256); [|exact Hw|apply kv_offs]. change (stored kv_saved (h_reg hs) pb (h_mem hs)) with m1.
  assert (run call (drop 32 kernelvec) (set_hmem m1 hs) = run call (restores kv_restored sp ++ drop 63 kernelvec) h') as ->.
  { change (drop 32 kernelvec) with (Call "kerneltrap"%string :: restores kv_restored sp ++ drop 63 kernelvec). cbn [run step]. by rewrite Hc. }
  rewrite (run_restores call _ _ _ pb 256); [|done|apply kv_offs|].
  2: { intros o (x & [= <- ->] & _)%list_elem_of_fmap. by rewrite Hld, Hsp'. }
  split; [reflexivity|]. split; [|done]. intros r. cbn [set_reg h_reg h_mem].
  assert (forall r, r <> tp -> loaded kv_restored (h_mem h') pb (h_reg h') r = h_reg hs r) as Hl.
  { intros r' Hr. rewrite (loaded_eq _ _ _ _ _ (kv_off r')); [apply Hld|apply kv_nodup|by apply kv_restored_elem]. }
  destruct (decide (r = sp)) as [-> |Hr].
  - rewrite fn_lookup_insert, Hl by done. rewrite decide_False by done. change (h_reg hs sp) with (h_reg h sp - 256). rewrite u64_small; lia.
  - rewrite fn_lookup_insert_ne by done. case_decide as E.
    + subst. apply loaded_ne. apply (bool_decide_unpack _). by vm_compute.
    + rewrite Hl by done. unfold hs. cbn. by rewrite fn_lookup_insert_ne.
Qed.

Lemma window_machine h a va n : h_mode h = Mmode -> 0 <= va -> va + n <= 2 ^ 64 -> window h a va va n.
Proof. intros Hm ? ? m off ? ? _. unfold xlate. cbn [set_hmem h_mode]. rewrite Hm. f_equal. apply u64_small. lia. Qed.

(** The scratch area of a hart that [timerinit] set up: [s] is its address,
    [c] that of the timer comparison register. *)
Record timer_area (h : hart) (s c : Z) : Prop := {
  ta_scratch : h_csr h mscratch = s;
  ta_cmp : load64 (h_mem h) (s + 24) = c;
  ta_range : 0 <= s /\ s + 40 <= 2 ^ 64;
  ta_crange : c + 8 <= 2 ^ 64;
  ta_sep : c + 8 <= s \/ s + 40 <= c
}.

Definition tv_regs : list (reg * Z) := [(a1, 0); (a2, 8); (a3, 16)].

(** The memory that [timervec] leaves. *)
Definition tv_mem (h : hart) (s c : Z) : mem :=
  store64 (stored tv_regs (h_reg h) s (h_mem h)) c (u64 (load64 (h_mem h) c + load64 (h_mem h) (s + 32))).

Lemma timervec_mem h s c :
  timer_area h s c -> words h ->
  (forall r o, (r, o) ∈ tv_regs -> load64 (tv_mem h s c) (s + o) = h_reg h r) /\
  load64 (tv_mem h s c) c = u64 (load64 (h_mem h) c + load64 (h_mem h) (s + 32)) /\
  (forall x, ~ (s <= x < s + 24) -> ~ (c <= x < c + 8) -> load8 (tv_mem h s c) x = load8 (h_mem h) x).
Proof.
  intros [_ _ [? ?] ? Hsep] Hh. assert (offs_ok 24 tv_regs) as Hoff by (by repeat constructor). split_and!.
  - intros r o Hin. unfold tv_mem. destruct (proj1 (Forall_forall _ _) Hoff _ Hin) as (? & ? & _). simpl in *.
    rewrite load64_store64_ne by lia. apply (stored_eq tv_regs (h_reg h) s 24); [done| |done|done]. by apply (bool_decide_unpack _); vm_compute.
  - apply load64_store64_eq. apply u64_bound.
  - intros x Hx Hx'. unfold tv_mem. rewrite load8_store64_ne by lia. by apply (stored_other _ _ _ 24).
Qed.

Lemma timervec_run call h s c :
  h_mode h = Mmode -> words h -> timer_area h s c ->
  exists h1, run call timervec h = Some (ToMepc, h1) /\ (forall r, h_reg h1 r = h_reg h r) /\ h_mem h1 = tv_mem h s c /\
    h_csr h1 mscratch = s /\ h_csr h1 sip = 2 /\ h_csr h1 satp = h_csr h satp /\ h_csr h1 sscratch = h_csr h sscratch.
Proof.
  intros Hmode Hh Hta. destruct (timervec_mem h s c Hta Hh) as (Hsv & _ & _). destruct Hta as [Hms Hcmp [Hs Hs'] Hc Hsep].
  pose proof (load64_bound (h_mem h) (s + 24)) as Hcr. rewrite Hcmp in Hcr.
  set (h0 := set_reg a0 s (set_csr mscratch (h_reg h a0) h)).
  assert (forall h a, h_mode h = Mmode -> window h a s s 40) as Hw by (intros; by apply window_machine).
  assert (forall h a, h_mode h = Mmode -> window h a c c 8) as Hwc by (intros; apply window_machine; (done || lia)).
  assert (run call timervec h = run call (saves tv_regs a0 ++ drop 4 timervec) h0) as ->.
  { unfold h0. rewrite <- Hms at 1. reflexivity. }
  rewrite (run_saves call _ _ _ s 40); [|by apply (Hw h0)|by repeat constructor].
  set (m1 := stored tv_regs (h_reg h) s (h_mem h)). change (set_hmem _ h0) with (set_hmem m1 h0).
  assert (forall o, 24 <= o -> load64 m1 (s + o) = load64 (h_mem h) (s + o)) as Hk.
  { intros o Ho. apply stored_ne. apply Forall_forall. repeat (constructor; [left; simpl; lia|]). constructor. }
  assert (load64 m1 c = load64 (h_mem h) c) as Hkc.
  { apply load64_ext. intros x Hx. apply (stored_other _ _ _ 24); [by repeat constructor|lia]. }
  change (drop 4 timervec) with (Ld a1 24 a0 :: Ld a2 32 a0 :: Ld a3 0 a1 :: drop 7 timervec).
  rewrite (run_ld call _ _ _ _ s 40); [|by apply Hw|lia|lia]. change (h_mem (set_hmem m1 h0)) with m1.
  rewrite Hk, Hcmp by lia. rewrite (run_ld call _ _ _ _ s 40); [|by apply Hw|lia|lia].
  change (h_mem (set_reg a1 c (set_hmem m1 h0))) with m1. rewrite Hk by lia.
  rewrite (run_ld call _ _ _ _ c 8); [|by apply Hwc|lia|lia].
  set (h3 := set_reg a3 _ _). assert (h3 = set_reg a3 (load64 (h_mem h) c) (set_reg a2 (load64 (h_mem h) (s + 32)) (set_reg a1 c (set_hmem m1 h0)))) as ->.
  { unfold h3. cbn [h_mem set_reg set_hmem]. by rewrite Z.add_0_r, Hkc. }
  set (h4 := set_reg a3 (u64 (load64 (h_mem h) c + load64 (h_mem h) (s + 32))) (set_reg a3 (load64 (h_mem h) c) (set_reg a2 (load64 (h_mem h) (s + 32)) (set_reg a1 c (set_hmem m1 h0))))).
  change (run call (drop 7 timervec) _) with (run call (Sd a3 0 a1 :: drop 9 timervec) h4).
  rewrite (run_sd call _ _ _ _ c 8); [|by apply Hwc|lia|lia].
  rewrite Z.add_0_r. change (set_hmem _ h4) with (set_hmem (tv_mem h s c) h4).
  set (h5 := set_csr sip 2 (set_reg a1 2 (set_hmem (tv_mem h s c) h4))).
  change (run call (drop 9 timervec) _) with (run call (restores (rev tv_regs) a0 ++ drop 14 timervec) h5).
  rewrite (run_restores call _ _ _ s 40); [|by apply Hw|by repeat constructor|].
  2: { intros o Ho. exfalso. rewrite list_elem_of_In in Ho. simpl in Ho. intuition congruence. }
  eexists. split; [reflexivity|]. cbn [set_reg set_csr h_reg h_csr h_mem]. split_and!; [|done..].
  intros r. destruct (decide (r = a0)) as [-> |]; [done|].
  rewrite fn_lookup_insert_ne by done. destruct (decide (r ∈ (rev tv_regs).*1)) as [Hin|Hin].
  - apply list_elem_of_fmap in Hin as ([r' o] & -> & Hin). assert (NoDup (rev tv_regs).*1) by (by apply (bool_decide_unpack _); vm_compute).
    rewrite (loaded_eq _ _ _ _ _ o) by done. apply Hsv. apply list_elem_of_In. apply in_rev. by apply list_elem_of_In.
  - rewrite loaded_ne by done. destruct r; try done; by destruct Hin; apply (bool_decide_unpack _); vm_compute.
Qed.

(** ** entry.S *)

(** The harts' stacks are consecutive pages of [stack0]. *)
Lemma entry_run call stack0 h :
  0 <= stack0 -> 0 <= h_csr h mhartid < NCPU -> stack0 + 4096 * NCPU < 2 ^ 64 ->
  exists h1, run call (_entry stack0) h = run call [Call "start"; Spin] h1 /\
    h_reg h1 sp = stack0 + 4096 * (h_csr h mhartid + 1) /\ h_mem h1 = h_mem h /\ h_csr h1 = h_csr h.
Proof.
  unfold NCPU. intros Hs Hid Htop. eexists. split; [reflexivity|]. split; [|done].
  change (u64 (u64 stack0 + u64 (u64 4096 * u64 (h_csr h mhartid + 1))) = stack0 + 4096 * (h_csr h mhartid + 1)).
  rewrite !(u64_small stack0), !(u64_small 4096), (u64_small (h_csr h mhartid + 1)), (u64_small (4096 * _)), u64_small; lia.
Qed.

(** ** The properties *)

(** C16: The trampoline keeps the user's registers. On a trap from a process
    whose table maps the trap frame [tf], [uservec] stores every user register
    at its place in [struct trapframe], changes no other memory, and enters
    the kernel at the address, on the stack and with the [tp] and the page
    table that the frame names. Whatever the kernel does then, [userret] with
    the process's table in [a1] resumes user code with every register as the
    frame has it, and with [sscratch] ready for the next trap; so registers
    that the kernel left alone in the frame are those of the trap. *)
Theorem trampoline_roundtrip {L : Layout} {LOk : LayoutOk L} call h t tf h2 t' :
  h_mode h = Smode -> h_csr h satp = MAKE_SATP (root t) -> h_csr h sscratch = TRAPFRAME -> user_table (h_mem h) t tf -> words h ->
  h_mode h2 = Smode -> h_reg h2 a0 = TRAPFRAME -> h_reg h2 a1 = MAKE_SATP (root t') -> user_table (h_mem h2) t' tf ->
  exists h1 h3,
    run call uservec h = Some (ToAddr (load64 (h_mem h) (tf + 16)), h1) /\
    (forall r, load64 (h_mem h1) (tf + tf_off r) = h_reg h r) /\
    (forall x, ~ (tf + 40 <= x < tf + 288) -> load8 (h_mem h1) x = load8 (h_mem h) x) /\
    h_reg h1 sp = load64 (h_mem h) (tf + 8) /\ h_reg h1 tp = load64 (h_mem h) (tf + 32) /\ h_csr h1 satp = load64 (h_mem h) (tf + 0) /\
    run call userret h2 = Some (ToSepc, h3) /\
    (forall r, h_reg h3 r = load64 (h_mem h2) (tf + tf_off r)) /\
    (forall r, load64 (h_mem h2) (tf + tf_off r) = load64 (h_mem h1) (tf + tf_off r) -> h_reg h3 r = h_reg h r) /\
    h_csr h3 satp = MAKE_SATP (root t') /\ h_csr h3 sscratch = TRAPFRAME /\ h_mem h3 = h_mem h2.
Proof.
  intros Hm Hsatp Hss Hu Hh Hm2 H2a0 H2a1 Hu2.
  destruct (uservec_run call h t tf Hm Hsatp Hss Hu) as (h1 & Hrun & Hmem & Hsp & Htp & Hs1 & _).
  destruct (userret_run call h2 t' tf Hm2 H2a0 H2a1 Hu2) as (h3 & Hrun3 & Hregs & Hs3 & Hss3 & Hmem3 & _).
  assert (forall r, load64 (h_mem h1) (tf + tf_off r) = h_reg h r) as Hsv by (intros r; rewrite Hmem; by apply saved_frame_reg).
  exists h1, h3. split; [exact Hrun|]. split; [exact Hsv|].
  split; [intros x Hx; rewrite Hmem; by apply saved_frame_other|].
  do 4 (split; [assumption|]). split; [exact Hregs|]. split; [|auto].
  intros r Hr. by rewrite Hregs, Hr.
Qed.

(** C24: A thread that [swtch] leaves comes back where it left. [swtch] saves
    the callee-saved registers in the old context and continues at the return
    address of the new one, with its registers; a later [swtch] to a context
    that is as the first one saved it returns to the caller of the first one,
    with all the registers that a C function relies on over a call. *)
Theorem swtch_resumes call h po pn h2 po2 :
  contexts h po pn -> words h -> contexts h2 po2 po -> words h2 ->
  exists h1 h3,
    run call swtch h = Some (ToAddr (load64 (h_mem h) (pn + 0)), h1) /\
    (forall r o, ctx_off r = Some o -> h_reg h1 r = load64 (h_mem h) (pn + o)) /\
    (forall r, ctx_off r = None -> h_reg h1 r = h_reg h r) /\
    same_outside po 112 (h_mem h) (h_mem h1) /\
    ((forall x, po <= x < po + 112 -> load8 (h_mem h2) x = load8 (h_mem h1) x) ->
     run call swtch h2 = Some (ToAddr (h_reg h ra), h3) /\
     (forall r o, ctx_off r = Some o -> h_reg h3 r = h_reg h r)).
Proof.
  intros Hc Hh Hc2 Hh2. destruct (swtch_run call h po pn Hc Hh) as (h1 & Hrun & Hsv & Hout & Hregs & _).
  destruct (swtch_run call h2 po2 po Hc2 Hh2) as (h3 & Hrun2 & _ & _ & Hregs2 & _).
  exists h1, h3. split; [exact Hrun|]. split; [intros r o Ho; by rewrite Hregs, Ho|].
  split; [intros r Ho; by rewrite Hregs, Ho|]. split; [exact Hout|]. intros Hsame.
  assert (forall r o, ctx_off r = Some o -> load64 (h_mem h2) (po + o) = h_reg h r) as Hld.
  { intros r o Ho. rewrite <- (Hsv r o Ho). apply load64_ext. intros x Hx. apply Hsame.
    apply ctx_regs_elem in Ho. destruct (proj1 (Forall_forall _ _) ctx_regs_offs _ Ho) as (? & ? & _). simpl in *. lia. }
  split; [by rewrite Hrun2, (Hld ra 0 eq_refl)|]. intros r o Ho. rewrite Hregs2, Ho. by apply Hld.
Qed.

(** C25: An interrupt in the kernel is invisible to the code it interrupts.
    [kernelvec] calls [kerneltrap] on the interrupted stack and returns with
    every register as it was, except [tp], which is that of the CPU on which
    [kerneltrap] returned. *)
Theorem kernelvec_transparent call h pb :
  words h -> 256 <= h_reg h sp -> window h Store (h_reg h sp - 256) pb 256 ->
  (forall h0, h_csr h0 = h_csr h -> h_mode h0 = h_mode h -> h_reg h0 = <[sp := h_reg h sp - 256]> (h_reg h) ->
     same_outside pb 256 (h_mem h) (h_mem h0) -> keeps_frame call pb h0) ->
  exists h0 h' h1, call "kerneltrap"%string h0 = Some h' /\ run call kernelvec h = Some (ToSepc, h1) /\
    (forall r, r <> tp -> h_reg h1 r = h_reg h r) /\ h_reg h1 tp = h_reg h' tp /\ h_mem h1 = h_mem h'.
Proof.
  intros Hh Hsp Hw Hc. destruct (kernelvec_run call h pb Hh Hsp Hw Hc) as (h0 & h' & h1 & Hcall & _ & Hrun & Hregs & Hmem & _).
  exists h0, h', h1. split; [exact Hcall|]. split; [exact Hrun|]. split; [|split; [by rewrite Hregs|exact Hmem]].
  intros r Hr. by rewrite Hregs, decide_False.
Qed.

(** ** Instances *)

(** The table of the instances of [vm.c], with a trap frame. *)
Lemma demo_user_table : exists m t, user_table (L := demo_layout) m t 0x80010000.
Proof.
  destruct demo_space as [[Hinv _ _ _ _] Hp].
  destruct (mappages_page (L := demo_layout) (LOk := demo_layout_ok) demo_kernel demo_table demo_free TRAPFRAME 0x80010000 (Z.lor PTE_R PTE_W) Hinv)
    as [(k' & t' & _ & _ & Hl)|(k' & t' & l' & _ & [Hinv' _ _ Hpte _ _ _ _] & _)].
  - vm_compute. split; congruence.
  - reflexivity.
  - vm_compute. split; congruence.
  - vm_compute. split; congruence.
  - rewrite Hp. apply pte_has_0.
  - exfalso. vm_compute in Hl. lia.
  - exists (k_mem k'), t'. destruct Hinv' as [_ Hrep Hok _ _]. split; [exact Hrep|exact Hok| |reflexivity|lia|].
    + rewrite Hpte by (vm_compute; split; congruence). by rewrite decide_True.
    + intros Hin. rewrite Forall_forall in Hok. destruct (Hok _ Hin) as (_ & Hlo & _). by vm_compute in Hlo.
Qed.

Definition demo_hart (m : mem) (c : csr -> Z) (f : reg -> Z) : hart := mkhart f c Smode m.

Lemma trampoline_roundtrip_witness :
  exists h h1 h2 h3 pc, run (fun _ _ => None) uservec h = Some (ToAddr pc, h1) /\ run (fun _ _ => None) userret h2 = Some (ToSepc, h3) /\
    h_reg h s5 = 1234 /\ load64 (h_mem h1) (0x80010000 + tf_off s5) = 1234 /\ h_reg h3 s5 = load64 (h_mem h2) (0x80010000 + tf_off s5).
Proof.
  destruct demo_user_table as (m & t & Hu).
  set (h := demo_hart m (fun c => if decide (c = satp) then MAKE_SATP (root t) else TRAPFRAME) (fun _ => 1234)).
  set (h2 := demo_hart m (fun _ => 0) (fun r => if decide (r = a1) then MAKE_SATP (root t) else TRAPFRAME)).
  destruct (trampoline_roundtrip (L := demo_layout) (LOk := demo_layout_ok) (fun _ _ => None) h t 0x80010000 h2 t)
    as (h1 & h3 & Hrun & Hsv & _ & _ & _ & _ & Hrun3 & Hregs & _).
  - reflexivity.
  - reflexivity.
  - reflexivity.
  - exact Hu.
  - intros r. cbn. lia.
  - reflexivity.
  - reflexivity.
  - reflexivity.
  - exact Hu.
  - exists h, h1, h2, h3, (load64 (h_mem h) (0x80010000 + 16)).
    split; [exact Hrun|]. split; [exact Hrun3|]. split; [reflexivity|]. split; [apply (Hsv s5)|apply Hregs].
Defined.

(** Before paging is on, an address is a physical address. *)
Lemma window_bare m c f a va n : c satp = 0 -> 0 <= va -> va + n <= 2 ^ 64 -> window (demo_hart m c f) a va va n.
Proof.
  intros Hc ? ? m' off ? ? _. unfold xlate, sv39. cbn [set_hmem demo_hart h_mode h_csr]. rewrite Hc, Z.shiftr_0_l. cbn [Z.eqb].
  f_equal. apply u64_small. lia.
Qed.

Lemma demo_contexts m f po pn :
  f a0 = po -> f a1 = pn -> 0 <= po -> po + 112 <= pn \/ pn + 112 <= po -> 0 <= pn -> po + 112 <= 2 ^ 64 -> pn + 112 <= 2 ^ 64 ->
  contexts (demo_hart m (fun _ => 0) f) po pn.
Proof.
  intros Ho Hn ? ? ? ? ?. split; cbn [demo_hart h_reg]; rewrite ?Ho, ?Hn; [by apply window_bare| |done].
  intros m' _. by apply (window_bare m').
Qed.

Lemma swtch_resumes_witness :
  exists h h1 pc, run (fun _ _ => None) swtch h = Some (ToAddr pc, h1) /\ h_reg h s3 = 77 /\
    (forall r, ctx_off r = None -> h_reg h1 r = h_reg h r).
Proof.
  set (f x y := fun r => match r with a0 => x | a1 => y | _ => 77 end).
  set (h := demo_hart ∅ (fun _ => 0) (f 0x80020000 0x80030000)).
  set (h2 := demo_hart ∅ (fun _ => 0) (f 0x80030000 0x80020000)).
  destruct (swtch_resumes (fun _ _ => None) h 0x80020000 0x80030000 h2 0x80030000) as (h1 & h3 & Hrun & _ & Hk & _).
  - apply demo_contexts; (reflexivity || lia).
  - intros r. destruct r; cbn; lia.
  - apply demo_contexts; (reflexivity || lia).
  - intros r. destruct r; cbn; lia.
  - exists h, h1, (load64 (h_mem h) (0x80030000 + 0)). split; [exact Hrun|]. split; [reflexivity|exact Hk].
Defined.

Lemma kernelvec_transparent_witness :
  exists h h1, run (fun _ h => Some (set_reg tp 3 h)) kernelvec h = Some (ToSepc, h1) /\
    (forall r, r <> tp -> h_reg h1 r = h_reg h r).
Proof.
  set (h := demo_hart ∅ (fun _ => 0) (fun _ => 0x80040000)).
  destruct (kernelvec_transparent (fun _ h => Some (set_reg tp 3 h)) h (0x80040000 - 256)) as (h0 & h' & h1 & _ & Hrun & Hregs & _).
  - intros r. cbn. lia.
  - cbn. lia.
  - apply window_bare; [reflexivity|cbn; lia|cbn; lia].
  - intros h0 Hc Hm Hr _. exists (set_reg tp 3 h0). split; [reflexivity|]. split; [reflexivity|]. split; [reflexivity|].
    destruct h0 as [f c md m]. cbn in Hc, Hm, Hr. subst c md f. apply (window_bare m (fun _ => 0)); [reflexivity|vm_compute; congruence|vm_compute; congruence].
  - exists h, h1. split; [exact Hrun|exact Hregs].
Defined.
