(* ===== verification/Start.v ===== *)
(** * Machine-mode start of a hart ([start.c])

    [start] runs in machine mode on the stack that [_entry] set up and leaves
    to [main] in supervisor mode; [timerinit] prepares what [timervec] finds
    at every timer interrupt. The registers of the timer (CLINT) are words of
    memory. *)

From S2P Require Import Prelude Riscv Monad State Kstring Kalloc Vm VmInv Mmu Asm AsmProps.
#[local] Open Scope Z_scope.

Definition CLINT : Z := 0x2000000.
Definition CLINT_MTIMECMP (hartid : Z) : Z := CLINT + 0x4000 + 8 * hartid.
Definition CLINT_MTIME : Z := CLINT + 0xBFF8.

Definition MSTATUS_MPP_MASK : Z := Z.shiftl 3 11.
Definition MSTATUS_MPP_S : Z := Z.shiftl 1 11.
Definition MSTATUS_MIE : Z := Z.shiftl 1 3.
Definition SIE_SEIE : Z := Z.shiftl 1 9.
Definition SIE_STIE : Z := Z.shiftl 1 5.
Definition SIE_SSIE : Z := Z.shiftl 1 1.
Definition MIE_MTIE : Z := Z.shiftl 1 7.

(** The addresses the linker gives to [timer_scratch], [timervec] and [main]. *)
Record image := mkimage { timer_scratch : Z; a_timervec : Z; a_main : Z }.

Definition scratch_of (im : image) (id : Z) : Z := timer_scratch im + 40 * id.

Definition timerinit (im : image) (h : hart) : hart :=
  let id := s32 (h_csr h mhartid) in
  let interval := 1000000 in
  let h := set_hmem (store64 (h_mem h) (CLINT_MTIMECMP id) (u64 (load64 (h_mem h) CLINT_MTIME + interval))) h in
  let scratch := scratch_of im id in
  let h := set_hmem (store64 (h_mem h) (scratch + 24) (CLINT_MTIMECMP id)) h in
  let h := set_hmem (store64 (h_mem h) (scratch + 32) interval) h in
  let h := set_csr mscratch scratch h in
  let h := set_csr mtvec (a_timervec im) h in
  let h := set_csr mstatus (Z.lor (h_csr h mstatus) MSTATUS_MIE) h in
  set_csr mie (Z.lor (h_csr h mie) MIE_MTIE) h.

(** The [mret] at the end goes to the address in [mepc], in the mode that the
    field [MPP] of [mstatus] has. *)
Definition mret_to (h : hart) : Z * hart :=
  let m := if Z.land (h_csr h mstatus) MSTATUS_MPP_MASK =? MSTATUS_MPP_S then Smode else Mmode in
  (h_csr h mepc, mkhart (h_reg h) (h_csr h) m (h_mem h)).

(** The control registers that [start] sets. *)
Definition start_csrs (im : image) (h : hart) : hart :=
  let x := h_csr h mstatus in
  let x := Z.land x (u64 (Z.lnot MSTATUS_MPP_MASK)) in
  let x := Z.lor x MSTATUS_MPP_S in
  let h := set_csr mstatus x h in
  let h := set_csr mepc (a_main im) h in
  let h := set_csr satp 0 h in
  let h := set_csr medeleg 0xffff h in
  let h := set_csr mideleg 0xffff h in
  let h := set_csr sie (Z.lor (Z.lor (Z.lor (h_csr h sie) SIE_SEIE) SIE_STIE) SIE_SSIE) h in
  let h := set_csr pmpaddr0 0x3fffffffffffff h in
  set_csr pmpcfg0 0xf h.

Definition start (im : image) (h : hart) : Z * hart :=
  let h := start_csrs im h in
  let h := timerinit im h in
  let id := s32 (h_csr h mhartid) in
  let h := set_reg tp (u64 id) h in
  mret_to h.

(** The hart takes a timer interrupt while its registers are [regs]. *)
Definition timer_interrupt (call : string -> hart -> option hart) (regs : reg -> Z) (h : hart) : option hart :=
  match run call timervec (mkhart regs (h_csr h) Mmode (h_mem h)) with
  | Some (ToMepc, h') => Some h'
  | _ => None
  end.

(** ** Proofs *)

#[local] Opaque load64 store64.

(** [timer_scratch] is away from the registers of the timer. *)
Definition image_ok (im : image) : Prop := CLINT + 0x10000 <= timer_scratch im /\ timer_scratch im + 40 * NCPU <= 2 ^ 64.

Lemma mpp_supervisor x :
  Z.land (Z.lor (Z.lor (Z.land x (u64 (Z.lnot MSTATUS_MPP_MASK))) MSTATUS_MPP_S) MSTATUS_MIE) MSTATUS_MPP_MASK = MSTATUS_MPP_S.
Proof. rewrite !Z.land_lor_distr_l, <- Z.land_assoc. change (Z.land (u64 _) _) with 0. by rewrite Z.land_0_r. Qed.

Section start.
Context (im : image) (Him : image_ok im).

Lemma timerinit_area h id :
  h_csr h mhartid = id -> 0 <= id < NCPU ->
  let h' := timerinit im h in
  timer_area h' (scratch_of im id) (CLINT_MTIMECMP id) /\
  load64 (h_mem h') (CLINT_MTIMECMP id) = u64 (load64 (h_mem h) CLINT_MTIME + 1000000) /\
  load64 (h_mem h') (scratch_of im id + 32) = 1000000.
Proof.
  intros Hh Hid h'. destruct Him as [Hlo Hhi]. unfold NCPU in *. unfold h', timerinit. rewrite Hh.
  assert (s32 id = id) as -> by (apply s32_small; lia).
  cbn [set_csr set_hmem h_mem h_csr]. unfold CLINT_MTIMECMP, scratch_of, CLINT in *.
  split; [split; cbn [h_csr h_mem set_csr set_hmem]|split].
  - done.
  - rewrite load64_store64_ne by lia. apply load64_store64_eq. lia.
  - lia.
  - lia.
  - lia.
  - rewrite !load64_store64_ne by lia. apply load64_store64_eq, u64_bound.
  - apply load64_store64_eq. lia.
Qed.

Lemma start_csrs_spec h :
  let h' := start_csrs im h in
  h_csr h' mstatus = Z.lor (Z.land (h_csr h mstatus) (u64 (Z.lnot MSTATUS_MPP_MASK))) MSTATUS_MPP_S /\ h_csr h' mepc = a_main im /\
  h_csr h' satp = 0 /\ h_csr h' mhartid = h_csr h mhartid /\ h_reg h' = h_reg h /\ h_mem h' = h_mem h.
Proof. split_and!; reflexivity. Qed.

Lemma timerinit_csrs h :
  let h' := timerinit im h in
  h_csr h' mstatus = Z.lor (h_csr h mstatus) MSTATUS_MIE /\ h_csr h' mepc = h_csr h mepc /\
  h_csr h' satp = h_csr h satp /\ h_csr h' mhartid = h_csr h mhartid /\ h_reg h' = h_reg h.
Proof. split_and!; reflexivity. Qed.

Lemma start_spec h :
  0 <= h_csr h mhartid < NCPU ->
  exists h0, start im h = (a_main im, h0) /\ h_mode h0 = Smode /\ h_csr h0 satp = 0 /\ h_reg h0 tp = h_csr h mhartid /\
    timer_area h0 (scratch_of im (h_csr h mhartid)) (CLINT_MTIMECMP (h_csr h mhartid)) /\
    load64 (h_mem h0) (CLINT_MTIMECMP (h_csr h mhartid)) = u64 (load64 (h_mem h) CLINT_MTIME + 1000000) /\
    load64 (h_mem h0) (scratch_of im (h_csr h mhartid) + 32) = 1000000.
Proof.
  intros Hid.
  destruct (start_csrs_spec h) as (Hst & Hepc & Hsatp & Hhart & Hregs & Hmem).
  destruct (timerinit_csrs (start_csrs im h)) as (Hst' & Hepc' & Hsatp' & Hhart' & Hregs').
  destruct (timerinit_area (start_csrs im h) _ Hhart Hid) as ([T1 T2 T3 T4 T5] & Hcmp & Hint). rewrite Hmem in Hcmp.
  unfold start, mret_to. revert Hst' Hepc' Hsatp' Hhart' Hregs' T1 T2 Hcmp Hint. generalize (timerinit im (start_csrs im h)). intros h2 Hst' Hepc' Hsatp' Hhart' Hregs' T1 T2 Hcmp Hint.
  cbn [set_reg h_csr]. rewrite Hst', Hst, mpp_supervisor, Z.eqb_refl, Hepc', Hepc, Hhart', Hhart. eexists. split; [reflexivity|]. cbn [h_mode h_csr h_reg h_mem].
  split; [done|]. split; [by rewrite Hsatp'|]. split.
  { cbn [set_reg h_reg]. rewrite fn_lookup_insert. unfold NCPU in Hid. rewrite s32_small, u64_small by lia. reflexivity. }
  split; [by split|]. by split.
Qed.

Lemma timer_interrupt_step call regs h s c :
  (forall r, 0 <= regs r < 2 ^ 64) -> timer_area h s c ->
  exists h', timer_interrupt call regs h = Some h' /\ (forall r, h_reg h' r = regs r) /\ timer_area h' s c /\ h_csr h' sip = 2 /\
    load64 (h_mem h') c = u64 (load64 (h_mem h) c + load64 (h_mem h) (s + 32)) /\
    load64 (h_mem h') (s + 32) = load64 (h_mem h) (s + 32).
Proof.
  intros Hr Hta. set (h0 := mkhart regs (h_csr h) Mmode (h_mem h)).
  assert (timer_area h0 s c) as Hta0 by (destruct Hta; by split).
  destruct (timervec_run call h0 s c eq_refl Hr Hta0) as (h1 & Hrun & Hregs & Hmem & Hms & Hsip & _).
  destruct (timervec_mem h0 s c Hta0 Hr) as (_ & Hcmp & Hoth). rewrite <- Hmem in Hcmp, Hoth. destruct Hta as [H1 H2 [Hs Hs'] Hc Hsep].
  assert (forall o, 24 <= o <= 32 -> load64 (h_mem h1) (s + o) = load64 (h_mem h) (s + o)) as Hk.
  { intros o Ho. apply load64_ext. intros x Hx. apply Hoth; lia. }
  exists h1. unfold timer_interrupt. fold h0. rewrite Hrun. split; [reflexivity|]. split; [exact Hregs|].
  split; [|split; [exact Hsip|split; [exact Hcmp|apply Hk; lia]]].
  split; [exact Hms|rewrite Hk by lia; exact H2|exact (conj Hs Hs')|exact Hc|exact Hsep].
Qed.

Lemma timer_interrupts_run call l h s c :
  Forall (fun regs : reg -> Z => forall r, 0 <= regs r < 2 ^ 64) l -> timer_area h s c ->
  exists h', foldl (fun o regs => o ≫= timer_interrupt call regs) (Some h) l = Some h' /\ timer_area h' s c /\
    u64 (load64 (h_mem h') c) = u64 (load64 (h_mem h) c + Z.of_nat (length l) * load64 (h_mem h) (s + 32)).
Proof.
  intros Hl. revert h. induction Hl as [|regs l Hr _ IH]; intros h Hta.
  - exists h. split; [done|]. split; [done|]. f_equal. simpl. lia.
  - destruct (timer_interrupt_step call regs h s c Hr Hta) as (h1 & Hrun & _ & Hta1 & _ & Hcmp & Hint).
    destruct (IH h1 Hta1) as (h' & Hrun' & Hta' & Hcmp'). exists h'. cbn [foldl mbind option_bind]. rewrite Hrun.
    split; [exact Hrun'|]. split; [exact Hta'|]. rewrite Hcmp', Hcmp, Hint. unfold u64. rewrite Zplus_mod_idemp_l. f_equal.
    cbn [length]. lia.
Qed.

End start.

(** C26: The clock never stops. After [start] on a hart, whatever registers
    the interrupted code has at each of [n] timer interrupts, [timervec]
    returns every time, and its comparison register is [n + 1] intervals of
    1000000 cycles after the time of the start, in 64-bit arithmetic; one
    more interrupt keeps all registers and raises the supervisor's software
    interrupt. [start] leaves to [main] in supervisor mode without paging. *)
Theorem timer_interrupts_recur call im h l regs :
  image_ok im -> 0 <= h_csr h mhartid < NCPU ->
  Forall (fun regs : reg -> Z => forall r, 0 <= regs r < 2 ^ 64) l -> (forall r, 0 <= regs r < 2 ^ 64) ->
  let cmp := CLINT_MTIMECMP (h_csr h mhartid) in
  exists h0 h1 h2, start im h = (a_main im, h0) /\ h_mode h0 = Smode /\ h_csr h0 satp = 0 /\ h_reg h0 tp = h_csr h mhartid /\
    foldl (fun o regs => o ≫= timer_interrupt call regs) (Some h0) l = Some h1 /\
    load64 (h_mem h1) cmp = u64 (load64 (h_mem h) CLINT_MTIME + (Z.of_nat (length l) + 1) * 1000000) /\
    timer_interrupt call regs h1 = Some h2 /\ (forall r, h_reg h2 r = regs r) /\ h_csr h2 sip = 2.
Proof.
  intros Him Hid Hl Hr cmp.
  destruct (start_spec im Him h Hid) as (h0 & Hstart & Hmode & Hsatp & Htp & Hta0 & Hcmp & Hint).
  destruct (timer_interrupts_run call l h0 _ _ Hl Hta0) as (h1 & Hrun & Hta1 & Hc1).
  destruct (timer_interrupt_step call regs h1 _ _ Hr Hta1) as (h2 & Hrun2 & Hregs & _ & Hsip & _).
  exists h0, h1, h2. split; [exact Hstart|]. split; [exact Hmode|]. split; [exact Hsatp|]. split; [exact Htp|].
  split; [exact Hrun|]. split; [|split; [exact Hrun2|split; [exact Hregs|exact Hsip]]].
  unfold cmp. rewrite <- (u64_small (load64 (h_mem h1) _)) by apply load64_bound. rewrite Hc1, Hcmp, Hint.
  unfold u64. rewrite Zplus_mod_idemp_l. f_equal. lia.
Qed.

Lemma timer_interrupts_recur_witness :
  exists im h h1, h_csr h mhartid = 2 /\
    foldl (fun o regs => o ≫= timer_interrupt (fun _ _ => None) regs) (Some (start im h).2) [fun _ => 7; fun _ => 8; fun _ => 9] = Some h1 /\
    load64 (h_mem h1) (CLINT_MTIMECMP 2) = 4000000.
Proof.
  set (im := mkimage 0x8000a000 0x80005000 0x80000e00).
  set (h := mkhart (fun _ => 0) (fun c => if decide (c = mhartid) then 2 else 0) Mmode ∅).
  destruct (timer_interrupts_recur (fun _ _ => None) im h [fun _ => 7; fun _ => 8; fun _ => 9] (fun _ => 5)) as (h0 & h1 & h2 & Hs & _ & _ & _ & Hrun & Hc & _).
  - split; vm_compute; congruence.
  - split; vm_compute; congruence.
  - repeat constructor; lia.
  - lia.
  - exists im, h, h1. split; [reflexivity|]. rewrite Hs. split; [exact Hrun|]. exact Hc.
Defined.
