(* ===== verification/Proc.v ===== *)
(** * Processes ([proc.c]): the table, memory, scheduling, sleep and wakeup

    The operations of [proc.c] that need no file system; [Fork] has the others.
    A process is named by its index in [proc]. Loops over the table visit the
    indices from [p] on, [n] of them. *)

From S2P Require Import Prelude Riscv Monad State Kstring Printf Kalloc Vm.
#[local] Open Scope Z_scope.

(** ** Access to the table *)

Definition ps_upd (i : Z) (f : proc -> proc) (ps : procsys) : procsys :=
  mkprocsys (<[i := f (ps_proc ps i)]> (ps_proc ps)) (ps_cur ps) (ps_nextpid ps) (ps_initproc ps) (ps_ticks ps).
Definition ps_set_cur (c : option Z) (ps : procsys) : procsys :=
  mkprocsys (ps_proc ps) c (ps_nextpid ps) (ps_initproc ps) (ps_ticks ps).
Definition ps_set_nextpid (n : Z) (ps : procsys) : procsys :=
  mkprocsys (ps_proc ps) (ps_cur ps) n (ps_initproc ps) (ps_ticks ps).
Definition ps_set_initproc (i : option Z) (ps : procsys) : procsys :=
  mkprocsys (ps_proc ps) (ps_cur ps) (ps_nextpid ps) i (ps_ticks ps).
Definition ps_set_ticks (t : Z) (ps : procsys) : procsys :=
  mkprocsys (ps_proc ps) (ps_cur ps) (ps_nextpid ps) (ps_initproc ps) t.

Definition modify_ps (f : procsys -> procsys) : K unit := modify (fun k => set_ps (f (k_ps k)) k).

(** [p->field] and [p->field = x]. *)
Definition getp {A : Type} (p : Z) (f : proc -> A) : K A := gets (fun k => f (ps_proc (k_ps k) p)).
Definition setp (p : Z) (f : proc -> proc) : K unit := modify_ps (ps_upd p f).

Definition myproc : K (option Z) := gets (fun k => ps_cur (k_ps k)).

(** A use of [myproc()] that dereferences it: on a null pointer the load
    faults and [kerneltrap] panics. *)
Definition curproc : K Z :=
  o ← myproc;
  match o with
  | Some p => mret p
  | None => panic "kerneltrap"
  end.

Definition same_state (s s' : procstate) : bool := bool_decide (s = s').

Section proc.
Context {L : Layout}.

(** ** Allocation *)

Fixpoint procinit_loop (n : nat) (p : Z) : K unit :=
  match n with
  | O => mret ()
  | S n' => setp p (set_kstack (KSTACK p));; procinit_loop n' (p + 1)
  end.

(** The locks are free in the initial state. *)
Definition procinit : K unit := procinit_loop (Z.to_nat NPROC) 0.

Definition allocpid : K Z :=
  acquire PidLock;;
  pid ← gets (fun k => ps_nextpid (k_ps k));
  modify_ps (ps_set_nextpid (s32 (pid + 1)));;
  release PidLock;;
  mret pid.

Definition proc_pagetable (p : Z) : K Z :=
  pagetable ← uvmcreate;
  if pagetable =? 0 then mret 0
  else
    r ← mappages pagetable TRAMPOLINE PGSIZE trampoline (Z.lor PTE_R PTE_X);
    if r <? 0 then uvmfree pagetable 0;; mret 0
    else
      tf ← getp p p_trapframe;
      r ← mappages pagetable TRAPFRAME PGSIZE tf (Z.lor PTE_R PTE_W);
      if r <? 0 then
        uvmunmap pagetable TRAMPOLINE 1 false;;
        uvmfree pagetable 0;;
        mret 0
      else mret pagetable.

Definition proc_freepagetable (pagetable sz : Z) : K unit :=
  uvmunmap pagetable TRAMPOLINE 1 false;;
  uvmunmap pagetable TRAPFRAME 1 false;;
  uvmfree pagetable sz.

Definition freeproc (p : Z) : K unit :=
  tf ← getp p p_trapframe;
  when (truthy tf) (kfree tf);;
  atf ← getp p p_alarm_tf;
  when (truthy atf) (kfree atf);;
  setp p (set_trapframe 0);;
  pt ← getp p p_pagetable;
  sz ← getp p p_sz;
  when (truthy pt) (proc_freepagetable pt sz);;
  setp p (set_pagetable 0);;
  setp p (set_sz 0);;
  setp p (set_pid 0);;
  setp p (set_parent None);;
  setp p (fun q => set_name (<[0%nat := 0]> (p_name q)) q);;
  setp p (set_chan NoChan);;
  setp p (set_killed 0);;
  setp p (set_xstate 0);;
  setp p (set_state UNUSED);;
  setp p (set_alarm_interval 0);;
  setp p (set_alarm_handler 0);;
  setp p (set_ticks_since_alarm 0);;
  setp p (set_in_alarm_handler 0).

(** [allocproc] from the label [found] on. *)
Definition allocproc_found (p : Z) : K (option Z) :=
  pid ← allocpid;
  setp p (set_pid pid);;
  setp p (set_state USED);;
  tf ← kalloc;
  setp p (set_trapframe tf);;
  if tf =? 0 then freeproc p;; release (ProcLock p);; mret None
  else
    atf ← kalloc;
    setp p (set_alarm_tf atf);;
    if atf =? 0 then freeproc p;; release (ProcLock p);; mret None
    else
      pt ← proc_pagetable p;
      setp p (set_pagetable pt);;
      if pt =? 0 then freeproc p;; release (ProcLock p);; mret None
      else
        ks ← getp p p_kstack;
        setp p (set_context (mkcontext a_forkret (ks + PGSIZE)));;
        setp p (set_alarm_interval 0);;
        setp p (set_alarm_handler 0);;
        setp p (set_ticks_since_alarm 0);;
        setp p (set_in_alarm_handler 0);;
        mret (Some p).

Fixpoint allocproc_loop (n : nat) (p : Z) : K (option Z) :=
  match n with
  | O => mret None
  | S n' =>
      acquire (ProcLock p);;
      st ← getp p p_state;
      if same_state st UNUSED then allocproc_found p
      else release (ProcLock p);; allocproc_loop n' (p + 1)
  end.

Definition allocproc : K (option Z) := allocproc_loop (Z.to_nat NPROC) 0.

(** [uint sz], [int n]. *)
Definition growproc (n : Z) : K Z :=
  p ← curproc;
  sz0 ← getp p p_sz;
  pt ← getp p p_pagetable;
  let sz := u32 sz0 in
  if 0 <? n then
    r ← uvmalloc pt sz (u32 (sz + n));
    let sz' := u32 r in
    if sz' =? 0 then mret (-1)
    else setp p (set_sz sz');; mret 0
  else if n <? 0 then
    r ← uvmdealloc pt sz (u32 (sz + n));
    setp p (set_sz (u32 r));;
    mret 0
  else setp p (set_sz sz);; mret 0.

(** ** Scheduling *)

(** [noff] is the number of locks the hart holds and interrupts are off while
    it is positive ([Spinlock]). *)
Definition sched : K unit :=
  p ← curproc;
  held ← gets k_held;
  if negb (bool_decide (ProcLock p ∈ held)) then panic "sched p->lock"
  else if negb (Z.of_nat (length held) =? 1) then panic "sched locks"
  else
    st ← getp p p_state;
    if same_state st RUNNING then panic "sched running"
    else swtch.

Definition yield : K unit :=
  p ← curproc;
  acquire (ProcLock p);;
  setp p (set_state RUNNABLE);;
  sched;;
  release (ProcLock p).

(** One iteration of the inner loop of [scheduler], on process [p]. *)
Definition scheduler_try (p : Z) : K unit :=
  acquire (ProcLock p);;
  st ← getp p p_state;
  (if same_state st RUNNABLE then
     setp p (set_state RUNNING);;
     modify_ps (ps_set_cur (Some p));;
     swtch;;
     modify_ps (ps_set_cur None)
   else mret ());;
  release (ProcLock p).

(** One round of [scheduler]'s [for(;;)]. *)
Fixpoint scheduler_loop (n : nat) (p : Z) : K unit :=
  match n with
  | O => mret ()
  | S n' => scheduler_try p;; scheduler_loop n' (p + 1)
  end.

Definition scheduler_round : K unit := scheduler_loop (Z.to_nat NPROC) 0.

(** ** Sleep and wakeup *)

Definition sleep (c : chan) (lk : lockid) : K unit :=
  p ← curproc;
  acquire (ProcLock p);;
  release lk;;
  setp p (set_chan c);;
  setp p (set_state SLEEPING);;
  sched;;
  setp p (set_chan NoChan);;
  release (ProcLock p);;
  acquire lk.

Fixpoint wakeup_loop (n : nat) (p : Z) (c : chan) : K unit :=
  match n with
  | O => mret ()
  | S n' =>
      me ← myproc;
      (if bool_decide (me = Some p) then mret ()
       else
         acquire (ProcLock p);;
         st ← getp p p_state;
         ch ← getp p p_chan;
         when (same_state st SLEEPING && bool_decide (ch = c)) (setp p (set_state RUNNABLE));;
         release (ProcLock p));;
      wakeup_loop n' (p + 1) c
  end.

Definition wakeup (c : chan) : K unit := wakeup_loop (Z.to_nat NPROC) 0 c.

Fixpoint kill_loop (n : nat) (p pid : Z) : K Z :=
  match n with
  | O => mret (-1)
  | S n' =>
      acquire (ProcLock p);;
      pid' ← getp p p_pid;
      if pid' =? pid then
        setp p (set_killed 1);;
        st ← getp p p_state;
        when (same_state st SLEEPING) (setp p (set_state RUNNABLE));;
        release (ProcLock p);;
        mret 0
      else release (ProcLock p);; kill_loop n' (p + 1) pid
  end.

Definition kill (pid : Z) : K Z := kill_loop (Z.to_nat NPROC) 0 pid.

(** ** Copying to and from user or kernel addresses *)

Definition either_copyout (user_dst : bool) (dst : Z) (src : list Z) : K Z :=
  if user_dst then
    p ← curproc;
    pt ← getp p p_pagetable;
    copyout pt dst src
  else modify_mem (fun m => store_bytes m dst src);; mret 0.

(** The bytes read are the second component. *)
Definition either_copyin (user_src : bool) (src len : Z) : K (Z * list Z) :=
  if user_src then
    p ← curproc;
    pt ← getp p p_pagetable;
    copyin pt src len
  else
    bs ← gets (fun k => load_bytes (k_mem k) src (Z.to_nat len));
    mret (0, bs).

(** ** Listing *)

Definition state_name (s : procstate) : list Z :=
  match s with
  | UNUSED => str "unused"
  | SLEEPING => str "sleep "
  | RUNNABLE => str "runble"
  | RUNNING => str "run   "
  | ZOMBIE => str "zombie"
  | USED => str "???"
  end.

Fixpoint procdump_loop (n : nat) (p : Z) : K unit :=
  match n with
  | O => mret ()
  | S n' =>
      st ← getp p p_state;
      (if same_state st UNUSED then mret ()
       else
         pid ← getp p p_pid;
         name ← getp p p_name;
         printf (str "%d %s %s") [PInt pid; PStr (Some (state_name st)); PStr (Some name)];;
         printf [10] []);;
      procdump_loop n' (p + 1)
  end.

Definition procdump : K unit := printf [10] [];; procdump_loop (Z.to_nat NPROC) 0.

End proc.
