(* ===== verification/ProcInv.v ===== *)
(** * The process table: what [wakeup], [kill] and [sleep] do to it *)

From S2P Require Import Prelude Riscv Monad State Kstring Printf Kalloc Vm Proc.
#[local] Open Scope Z_scope.

#[local] Opaque acquire release.

(** ** Reading an updated table *)

Lemma ps_proc_upd i f ps j : ps_proc (ps_upd i f ps) j = if decide (j = i) then f (ps_proc ps i) else ps_proc ps j.
Proof.
  unfold ps_upd. simpl. case_decide as E; [subst; by rewrite fn_lookup_insert|]. by rewrite fn_lookup_insert_ne.
Qed.

Lemma ps_proc_upd_eq i f ps : ps_proc (ps_upd i f ps) i = f (ps_proc ps i).
Proof. by rewrite ps_proc_upd, decide_True. Qed.

Lemma ps_proc_upd_ne i f ps j : j <> i -> ps_proc (ps_upd i f ps) j = ps_proc ps j.
Proof. intros. by rewrite ps_proc_upd, decide_False. Qed.

(** Two process systems with the same globals. *)
Definition ps_globals (ps ps' : procsys) : Prop :=
  ps_cur ps' = ps_cur ps /\ ps_nextpid ps' = ps_nextpid ps /\ ps_initproc ps' = ps_initproc ps /\ ps_ticks ps' = ps_ticks ps.

Lemma ps_globals_upd i f ps : ps_globals ps (ps_upd i f ps).
Proof. done. Qed.

(** Only process [p] changes, by [g]. *)
Definition proc_only (p : Z) (g : proc -> proc) (ps ps' : procsys) : Prop :=
  ps_globals ps ps' /\ ps_proc ps' p = g (ps_proc ps p) /\ forall q, q <> p -> ps_proc ps' q = ps_proc ps q.

Lemma proc_only_upd p g ps : proc_only p g ps (ps_upd p g ps).
Proof. split; [done|]. split; [by rewrite ps_proc_upd, decide_True|]. intros q Hq. by rewrite ps_proc_upd, decide_False. Qed.

Lemma proc_only_trans p g1 g2 ps1 ps2 ps3 : proc_only p g1 ps1 ps2 -> proc_only p g2 ps2 ps3 -> proc_only p (fun x => g2 (g1 x)) ps1 ps3.
Proof.
  intros (G1 & E1 & F1) (G2 & E2 & F2). split; [unfold ps_globals in *; intuition congruence|]. split; [by rewrite E2, E1|].
  intros q Hq. by rewrite F2, F1.
Qed.

Lemma proc_only_refl p g ps : g (ps_proc ps p) = ps_proc ps p -> proc_only p g ps ps.
Proof. done. Qed.

Lemma curproc_eq k p : ps_cur (k_ps k) = Some p -> curproc k = Ret p k.
Proof. intros Hc. unfold curproc. kpure. by rewrite Hc. Qed.

(** A statement between taking and dropping a lock that changes only the
    process system. *)
Lemma locked_eq l (m : K unit) ps' k :
  l ∉ k_held k -> m (set_held (l :: k_held k) k) = Ret () (set_held (l :: k_held k) (set_ps ps' k)) ->
  (acquire l;; m;; release l) k = Ret () (set_ps ps' k).
Proof.
  intros Hl Hm. kcall acquire_eq. erewrite bind_eq by exact Hm.
  rewrite (release_eq _ (k_held k)) by done. by ksimp.
Qed.

(** ** [wakeup] *)

(** The process [q] after [wakeup(c)]. *)
Definition woken (c : chan) (ps : procsys) (q : Z) : proc :=
  if bool_decide (ps_cur ps <> Some q /\ p_state (ps_proc ps q) = SLEEPING /\ p_chan (ps_proc ps q) = c)
  then set_state RUNNABLE (ps_proc ps q) else ps_proc ps q.

Definition no_proc_lock (k : kernel) : Prop := forall i, ProcLock i ∉ k_held k.

Lemma wakeup_body_eq p c k :
  ProcLock p ∉ k_held k ->
  exists ps', (if bool_decide (ps_cur (k_ps k) = Some p) then mret ()
     else acquire (ProcLock p);; st ← getp p p_state; ch ← getp p p_chan;
          when (same_state st SLEEPING && bool_decide (ch = c)) (setp p (set_state RUNNABLE));;
          release (ProcLock p)) k = Ret () (set_ps ps' k) /\
    ps_globals (k_ps k) ps' /\
    (forall q, ps_proc ps' q = if decide (q = p) then woken c (k_ps k) p else ps_proc (k_ps k) q).
Proof.
  intros Hlk. unfold woken. destruct (bool_decide_reflect (ps_cur (k_ps k) = Some p)) as [Hc|Hc].
  - exists (k_ps k). split; [by rewrite set_ps_id|]. split; [done|]. intros q. case_decide; subst; [|done].
    rewrite bool_decide_eq_false_2; [done|]. tauto.
  - kcall acquire_eq. kpure. kpure. unfold same_state. ksimp.
    destruct (bool_decide_reflect (p_state (ps_proc (k_ps k) p) = SLEEPING)) as [Hs|Hs];
      destruct (bool_decide_reflect (p_chan (ps_proc (k_ps k) p) = c)) as [Hch|Hch]; cbn [andb when].
    + exists (ps_upd p (set_state RUNNABLE) (k_ps k)). split; [|split; [done|]].
      * kpure. rewrite (release_eq _ (k_held k)) by done. by ksimp.
      * intros q. rewrite ps_proc_upd. case_decide; subst; [|done]. by rewrite bool_decide_eq_true_2.
    + exists (k_ps k). split; [|split; [done|]].
      * kpure. rewrite (release_eq _ (k_held k)) by done. by ksimp.
      * intros q. case_decide; subst; [|done]. rewrite bool_decide_eq_false_2; [done|tauto].
    + exists (k_ps k). split; [|split; [done|]].
      * kpure. rewrite (release_eq _ (k_held k)) by done. by ksimp.
      * intros q. case_decide; subst; [|done]. rewrite bool_decide_eq_false_2; [done|tauto].
    + exists (k_ps k). split; [|split; [done|]].
      * kpure. rewrite (release_eq _ (k_held k)) by done. by ksimp.
      * intros q. case_decide; subst; [|done]. rewrite bool_decide_eq_false_2; [done|tauto].
Qed.

Lemma wakeup_loop_spec n p c k :
  no_proc_lock k ->
  exists ps', wakeup_loop n p c k = Ret () (set_ps ps' k) /\ ps_globals (k_ps k) ps' /\
    (forall q, ps_proc ps' q = if decide (p <= q < p + Z.of_nat n) then woken c (k_ps k) q else ps_proc (k_ps k) q).
Proof.
  revert p k. induction n as [|n IH]; intros p k Hlk.
  { exists (k_ps k). split; [by rewrite set_ps_id|]. split; [done|]. intros q. rewrite decide_False; [done|lia]. }
  cbn [wakeup_loop]. unfold myproc at 1. kpure.
  destruct (wakeup_body_eq p c k (Hlk p)) as (ps1 & Hrun & Hg & Hp). erewrite bind_eq by exact Hrun. cbv beta.
  destruct (IH (p + 1) (set_ps ps1 k)) as (ps2 & Hrun2 & Hg2 & Hp2); [done|].
  exists ps2. rewrite Hrun2. ksimp in Hg2. ksimp in Hp2. split; [by ksimp|]. split.
  - unfold ps_globals in *. intuition congruence.
  - intros q. rewrite Hp2. unfold woken at 1. rewrite Hp. destruct Hg as (Hcur & _). rewrite Hcur.
    destruct (decide (p + 1 <= q < p + 1 + Z.of_nat n)).
    + rewrite !decide_False by lia. rewrite decide_True by lia. done.
    + destruct (decide (q = p)) as [->|].
      * by rewrite decide_True by lia.
      * by rewrite decide_False by lia.
Qed.

(** [wakeup(c)] makes runnable exactly the other processes that sleep on
    [c]. *)
Lemma wakeup_spec c k :
  no_proc_lock k ->
  exists ps', wakeup c k = Ret () (set_ps ps' k) /\ ps_globals (k_ps k) ps' /\
    (forall q, ps_proc ps' q = if decide (0 <= q < NPROC) then woken c (k_ps k) q else ps_proc (k_ps k) q).
Proof.
  intros Hlk. destruct (wakeup_loop_spec (Z.to_nat NPROC) 0 c k Hlk) as (ps' & Hrun & Hg & Hp).
  exists ps'. split_and!; [exact Hrun|done|]. intros q. rewrite Hp.
  replace (0 + Z.of_nat (Z.to_nat NPROC)) with NPROC by done. done.
Qed.

(** Process tables that differ by wakeups only. *)
Record ps_woke (ps ps' : procsys) : Prop := {
  pw_globals : ps_globals ps ps';
  pw_proc q : ps_proc ps' q = ps_proc ps q \/
    (ps_cur ps <> Some q /\ p_state (ps_proc ps q) = SLEEPING /\ ps_proc ps' q = set_state RUNNABLE (ps_proc ps q))
}.

#[export] Instance ps_woke_preorder : PreOrder ps_woke.
Proof.
  split.
  - intros ps. split; [done|]. by left.
  - intros p1 p2 p3 [G1 P1] [G2 P2]. split; [unfold ps_globals in *; intuition congruence|]. intros q.
    destruct (P1 q) as [E1|(C1 & S1 & E1)], (P2 q) as [E2|(C2 & S2 & E2)].
    + left. congruence.
    + right. rewrite E1 in *. destruct G1 as (Hc & _). rewrite Hc in C2. done.
    + right. rewrite E2. done.
    + rewrite E1 in S2. done.
Qed.

Lemma wakeup_woke c k :
  no_proc_lock k -> exists ps', wakeup c k = Ret () (set_ps ps' k) /\ ps_woke (k_ps k) ps'.
Proof.
  intros Hlk. destruct (wakeup_spec c k Hlk) as (ps' & Hrun & Hg & Hp). exists ps'. split; [done|].
  split; [done|]. intros q. rewrite Hp. case_decide; [|by left]. unfold woken.
  case_bool_decide as Hw; [right|by left]. tauto.
Qed.

(** The running process is not affected by wakeups. *)
Lemma ps_woke_cur ps ps' p : ps_woke ps ps' -> ps_cur ps = Some p -> ps_cur ps' = Some p /\ ps_proc ps' p = ps_proc ps p.
Proof. intros [(Hc & _) Hp] Hcur. split; [congruence|]. destruct (Hp p) as [?|(? & _)]; [done|congruence]. Qed.
