(* ===== verification/Umem.v ===== *)
(** * A process's user memory, for the code that sleeps or copies bytes

    [umem k t u]: the user pages [u] are mapped by the page table [t], in a
    state with some free list. The functions that copy single bytes to and
    from user memory, and [sleep], as the clients use them. *)

From S2P Require Import Prelude Riscv Monad State Kstring Printf Kalloc Vm VmInv VmMap Uspace VmFree VmCopy Proc ProcInv.
#[local] Open Scope Z_scope.

(** Dropping a lock taken before the last one. *)
Lemma release_below l l' k : l <> l' -> k_held k = [l'; l] -> release l k = Ret () (set_held [l'] k).
Proof.
  intros Hne Hk. unfold release. rewrite Hk, decide_True by set_solver.
  rewrite filter_cons, decide_True by done. by rewrite filter_cons, decide_False by naive_solver.
Qed.

#[local] Opaque acquire release.

Definition umem {L : Layout} (k : kernel) (t : ptree) (u : list (Z * Z)) : Prop :=
  (exists l, uspace k t u l) /\ hi_closed k t.

(** The same user bytes in two memories. *)
Definition same_user (u : list (Z * Z)) (m m' : mem) : Prop :=
  forall va a, uaddr u va = Some a -> load8 m' a = load8 m a.

Section umem.
Context {L : Layout} {LOk : LayoutOk L}.
Implicit Types (t : ptree) (u : list (Z * Z)).

Lemma umem_ext k k' t u :
  umem k t u -> k_mem k' = k_mem k -> k_freelist k' = k_freelist k -> KmemLock ∉ k_held k' -> umem k' t u.
Proof.
  intros [(l & [[H1 H2 H3 H4 H5] Ho Hn Hm Ht]) Hh] Em Ef Hl. split.
  - exists l. split; try rewrite Em; try done. split; rewrite ?Em; try done.
    eapply free_pages_ext; [exact Ef| |exact H1]. by rewrite Em.
  - intros va Hva. rewrite Em. by apply Hh.
Qed.

Lemma uread_same u m m' va n : same_user u m m' -> uread u m' va n = uread u m va n.
Proof.
  intros Hs. revert va. induction n as [|n IH]; intros va; [done|]. simpl.
  destruct (uaddr u va) as [a|] eqn:E; [|done]. by rewrite IH, (Hs va a E).
Qed.

#[export] Instance same_user_preorder u : PreOrder (same_user u).
Proof. split; [done|]. intros m1 m2 m3 H1 H2 va a E. by rewrite (H2 va a E), (H1 va a E). Qed.

Lemma uread_snoc u m va n bs b a :
  uread u m va n = Some bs -> uaddr u (va + Z.of_nat n) = Some a -> load8 m a = b ->
  uread u m va (S n) = Some (bs ++ [b]).
Proof.
  intros H1 H2 H3. replace (S n) with (n + 1)%nat by lia. rewrite uread_app, H1. simpl. rewrite H2. by rewrite <- H3.
Qed.

Lemma copyin_byte k t u va :
  umem k t u -> 0 <= va ->
  exists r bs, copyin (root t) va 1 k = Ret (r, bs) k /\
    ((exists a, uaddr u va = Some a /\ r = 0 /\ bs = [load8 (k_mem k) a]) \/ uaddr u va = None /\ r = -1).
Proof.
  intros [(l & Hu) Hh] Hva. unfold copyin.
  destruct (copyin_loop_spec (Z.to_nat 1) k t u l va 1 [] Hu Hh Hva) as (r & bs & Hrun & Hr); [lia|].
  exists r, bs. split; [exact Hrun|]. simpl in Hr. destruct (uaddr u va) as [a|]; simpl in Hr.
  - left. exists a. destruct Hr as [[-> [= <-]]|[_ [=]]]. done.
  - right. destruct Hr as [[_ [=]]|[-> _]]. done.
Qed.

Lemma copyout_byte k t u va b :
  umem k t u -> 0 <= va ->
  exists r m', copyout (root t) va [b] k = Ret r (set_mem m' k) /\ umem (set_mem m' k) t u /\
    ((exists a, uaddr u va = Some a /\ r = 0 /\ m' = store8 (k_mem k) a b) \/ uaddr u va = None /\ r = -1 /\ m' = k_mem k).
Proof.
  intros [(l & Hu) Hh] Hva. unfold copyout.
  destruct (copyout_loop_spec 1 k t u l va [b] Hu Hh Hva) as (r & m' & j & Hrun & Hw & Hr); [simpl; lia|].
  exists r, m'. split; [exact Hrun|]. destruct (uwrite_keeps _ _ _ _ _ _ _ Hu Hw) as [Hu' Hp].
  split; [split; [by exists l|by apply (hi_closed_keeps _ _ _ Hh)]|].
  destruct Hr as [[-> ->]|(-> & Hj & Hn)].
  - left. simpl in Hw. destruct (uaddr u va) as [a|]; [|done]. exists a. by injection Hw as <-.
  - right. simpl in Hj. assert (j = 0%nat) as -> by lia. rewrite Z.add_0_r in Hn. simpl in Hw. by injection Hw as <-.
Qed.

End umem.

(** ** [sleep] *)

Definition asleep (p : Z) (c : chan) (k : kernel) : kernel :=
  set_ps (ps_upd p (set_state SLEEPING) (ps_upd p (set_chan c) (k_ps k))) (set_held [ProcLock p] k).
Definition resumed (p : Z) (lk : lockid) (k : kernel) : kernel :=
  set_ps (ps_upd p (set_chan NoChan) (k_ps k)) (set_held [lk] k).

(** [sleep] gives up the CPU as a sleeper on [c], holding its own lock only;
    scheduled back with it, it takes [lk] again. *)
Lemma sleep_yields c lk p k :
  ps_cur (k_ps k) = Some p -> k_held k = [lk] -> lk <> ProcLock p ->
  exists f, sleep c lk k = Yield (asleep p c k) f /\ forall k', k_held k' = [ProcLock p] -> f k' = Ret () (resumed p lk k').
Proof.
  intros Hc Hh Hne. unfold sleep. erewrite bind_eq by (by apply curproc_eq). cbv beta.
  erewrite bind_eq by (apply acquire_eq; rewrite Hh; by intros ?%list_elem_of_singleton). cbv beta.
  erewrite bind_eq by (apply (release_below _ (ProcLock p)); [done|by rewrite Hh]). cbv beta. ksimp. kpure. kpure. ksimp.
  assert (sched (asleep p c k) = Yield (asleep p c k) (fun s' => Ret () s')) as Hs.
  { unfold sched. erewrite bind_eq by (by apply curproc_eq). cbv beta. kpure. unfold asleep. ksimp.
    rewrite bool_decide_true by set_solver. simpl. kpure. ksimp. rewrite ps_proc_upd, decide_True by done. done. }
  unfold mbind at 1, M_bind at 1. unfold asleep in *. rewrite Hs. simpl. eexists. split; [reflexivity|].
  intros k' Hh'. kpure. erewrite bind_eq by (apply (release_eq _ []); [by ksimp|set_solver]). cbv beta.
  erewrite acquire_eq by (ksimp; set_solver). by ksimp.
Qed.

Lemma sleep_wpy G R c lk p k Q :
  ps_cur (k_ps k) = Some p -> k_held k = [lk] -> lk <> ProcLock p -> G (asleep p c k) ->
  (forall k', R (asleep p c k) k' -> ps_cur (k_ps k') = Some p /\ k_held k' = [ProcLock p] /\ Q () (resumed p lk k')) ->
  wpy G R (sleep c lk) Q k.
Proof.
  intros Hc Hh Hne HG HR. unfold wpy. destruct (sleep_yields c lk p k Hc Hh Hne) as (f & -> & Hf). split; [exact HG|].
  intros k' Hk'. destruct (HR _ Hk') as (_ & Hh' & HQ). by rewrite (Hf _ Hh').
Qed.
