(* ===== verification/Sleeplock.v ===== *)
(** * Sleep-locks ([sleeplock.c]) *)

From S2P Require Import Prelude Riscv Monad State Kstring Printf Kalloc Vm Proc ProcInv.
#[local] Open Scope Z_scope.

(** ** Access to the file system's tables *)

Definition modify_fs (f : fssys -> fssys) : K unit := modify (fun k => set_fs (f (k_fs k)) k).

Definition fs_set_disk (d : Z -> list Z) (s : fssys) : fssys :=
  mkfssys d (fs_writes s) (fs_buf s) (fs_log s) (fs_sb s) (fs_inode s) (fs_file s) (fs_pipe s).
Definition fs_set_writes (w : list (Z * list Z)) (s : fssys) : fssys :=
  mkfssys (fs_disk s) w (fs_buf s) (fs_log s) (fs_sb s) (fs_inode s) (fs_file s) (fs_pipe s).
Definition fs_upd_buf (b : Z) (f : buf -> buf) (s : fssys) : fssys :=
  mkfssys (fs_disk s) (fs_writes s) (<[b := f (fs_buf s b)]> (fs_buf s)) (fs_log s) (fs_sb s) (fs_inode s) (fs_file s) (fs_pipe s).
Definition fs_upd_log (f : log -> log) (s : fssys) : fssys :=
  mkfssys (fs_disk s) (fs_writes s) (fs_buf s) (f (fs_log s)) (fs_sb s) (fs_inode s) (fs_file s) (fs_pipe s).
Definition fs_set_sb (b : superblock) (s : fssys) : fssys :=
  mkfssys (fs_disk s) (fs_writes s) (fs_buf s) (fs_log s) b (fs_inode s) (fs_file s) (fs_pipe s).
Definition fs_upd_inode (i : Z) (f : inode -> inode) (s : fssys) : fssys :=
  mkfssys (fs_disk s) (fs_writes s) (fs_buf s) (fs_log s) (fs_sb s) (<[i := f (fs_inode s i)]> (fs_inode s)) (fs_file s) (fs_pipe s).
Definition fs_upd_file (i : Z) (f : file -> file) (s : fssys) : fssys :=
  mkfssys (fs_disk s) (fs_writes s) (fs_buf s) (fs_log s) (fs_sb s) (fs_inode s) (<[i := f (fs_file s i)]> (fs_file s)) (fs_pipe s).
Definition fs_upd_pipe (i : Z) (f : pipe -> pipe) (s : fssys) : fssys :=
  mkfssys (fs_disk s) (fs_writes s) (fs_buf s) (fs_log s) (fs_sb s) (fs_inode s) (fs_file s) (<[i := f (fs_pipe s i)]> (fs_pipe s)).

Definition set_b_valid x (b : buf) := mkbuf x (b_disk b) (b_dev b) (b_blockno b) (b_lock b) (b_refcnt b) (b_prev b) (b_next b) (b_data b).
Definition set_b_disk x (b : buf) := mkbuf (b_valid b) x (b_dev b) (b_blockno b) (b_lock b) (b_refcnt b) (b_prev b) (b_next b) (b_data b).
Definition set_b_dev x (b : buf) := mkbuf (b_valid b) (b_disk b) x (b_blockno b) (b_lock b) (b_refcnt b) (b_prev b) (b_next b) (b_data b).
Definition set_b_blockno x (b : buf) := mkbuf (b_valid b) (b_disk b) (b_dev b) x (b_lock b) (b_refcnt b) (b_prev b) (b_next b) (b_data b).
Definition set_b_lock x (b : buf) := mkbuf (b_valid b) (b_disk b) (b_dev b) (b_blockno b) x (b_refcnt b) (b_prev b) (b_next b) (b_data b).
Definition set_b_refcnt x (b : buf) := mkbuf (b_valid b) (b_disk b) (b_dev b) (b_blockno b) (b_lock b) x (b_prev b) (b_next b) (b_data b).
Definition set_b_prev x (b : buf) := mkbuf (b_valid b) (b_disk b) (b_dev b) (b_blockno b) (b_lock b) (b_refcnt b) x (b_next b) (b_data b).
Definition set_b_next x (b : buf) := mkbuf (b_valid b) (b_disk b) (b_dev b) (b_blockno b) (b_lock b) (b_refcnt b) (b_prev b) x (b_data b).
Definition set_b_data x (b : buf) := mkbuf (b_valid b) (b_disk b) (b_dev b) (b_blockno b) (b_lock b) (b_refcnt b) (b_prev b) (b_next b) x.

Definition set_i_dev x (i : inode) := mkinode x (i_inum i) (i_ref i) (i_lock i) (i_valid i) (i_type i) (i_major i) (i_minor i) (i_nlink i) (i_size i) (i_addrs i).
Definition set_i_inum x (i : inode) := mkinode (i_dev i) x (i_ref i) (i_lock i) (i_valid i) (i_type i) (i_major i) (i_minor i) (i_nlink i) (i_size i) (i_addrs i).
Definition set_i_ref x (i : inode) := mkinode (i_dev i) (i_inum i) x (i_lock i) (i_valid i) (i_type i) (i_major i) (i_minor i) (i_nlink i) (i_size i) (i_addrs i).
Definition set_i_lock x (i : inode) := mkinode (i_dev i) (i_inum i) (i_ref i) x (i_valid i) (i_type i) (i_major i) (i_minor i) (i_nlink i) (i_size i) (i_addrs i).
Definition set_i_valid x (i : inode) := mkinode (i_dev i) (i_inum i) (i_ref i) (i_lock i) x (i_type i) (i_major i) (i_minor i) (i_nlink i) (i_size i) (i_addrs i).
Definition set_i_type x (i : inode) := mkinode (i_dev i) (i_inum i) (i_ref i) (i_lock i) (i_valid i) x (i_major i) (i_minor i) (i_nlink i) (i_size i) (i_addrs i).
Definition set_i_major x (i : inode) := mkinode (i_dev i) (i_inum i) (i_ref i) (i_lock i) (i_valid i) (i_type i) x (i_minor i) (i_nlink i) (i_size i) (i_addrs i).
Definition set_i_minor x (i : inode) := mkinode (i_dev i) (i_inum i) (i_ref i) (i_lock i) (i_valid i) (i_type i) (i_major i) x (i_nlink i) (i_size i) (i_addrs i).
Definition set_i_nlink x (i : inode) := mkinode (i_dev i) (i_inum i) (i_ref i) (i_lock i) (i_valid i) (i_type i) (i_major i) (i_minor i) x (i_size i) (i_addrs i).
Definition set_i_size x (i : inode) := mkinode (i_dev i) (i_inum i) (i_ref i) (i_lock i) (i_valid i) (i_type i) (i_major i) (i_minor i) (i_nlink i) x (i_addrs i).
Definition set_i_addrs x (i : inode) := mkinode (i_dev i) (i_inum i) (i_ref i) (i_lock i) (i_valid i) (i_type i) (i_major i) (i_minor i) (i_nlink i) (i_size i) x.

(** ** Sleep-locks *)

(** How often a loop that sleeps may find its condition still false when it
    wakes up; the loops take the bound as an argument. *)
Class Wakeups := wakeups : nat.

Definition sl_get (s : sleepid) (k : kernel) : sleeplock :=
  match s with
  | BufSL b => b_lock (fs_buf (k_fs k) b)
  | InodeSL i => i_lock (fs_inode (k_fs k) i)
  end.

Definition sl_set (s : sleepid) (lk : sleeplock) : K unit :=
  match s with
  | BufSL b => modify_fs (fs_upd_buf b (set_b_lock lk))
  | InodeSL i => modify_fs (fs_upd_inode i (set_i_lock lk))
  end.

Definition initsleeplock (s : sleepid) : K unit := sl_set s (mksleeplock 0 0).

Section sleeplock.
Context {W : Wakeups}.

(** The [while(lk->locked) sleep(lk, &lk->lk)] of [acquiresleep]. *)
Fixpoint acquiresleep_loop (n : nat) (s : sleepid) : K unit :=
  lk ← gets (sl_get s);
  if truthy (sl_locked lk) then
    match n with
    | O => out_of_fuel
    | S n' => sleep (ChanSleepLock s) (SleepLk s);; acquiresleep_loop n' s
    end
  else mret ().

Definition acquiresleep (s : sleepid) : K unit :=
  acquire (SleepLk s);;
  acquiresleep_loop wakeups s;;
  p ← curproc;
  pid ← getp p p_pid;
  sl_set s (mksleeplock 1 pid);;
  release (SleepLk s).

Definition releasesleep (s : sleepid) : K unit :=
  acquire (SleepLk s);;
  sl_set s (mksleeplock 0 0);;
  wakeup (ChanSleepLock s);;
  release (SleepLk s).

Definition holdingsleep (s : sleepid) : K bool :=
  acquire (SleepLk s);;
  lk ← gets (sl_get s);
  r ← (if truthy (sl_locked lk) then
         p ← curproc;
         pid ← getp p p_pid;
         mret (sl_pid lk =? pid)
       else mret false);
  release (SleepLk s);;
  mret r.

End sleeplock.

(** ** Without contention *)

(** The file system after [lk] is stored in the lock [s]. *)
Definition sl_fs (s : sleepid) (lk : sleeplock) (f : fssys) : fssys :=
  match s with
  | BufSL b => fs_upd_buf b (set_b_lock lk) f
  | InodeSL i => fs_upd_inode i (set_i_lock lk) f
  end.

Lemma sl_set_eq s lk k : sl_set s lk k = Ret () (set_fs (sl_fs s lk (k_fs k)) k).
Proof. by destruct s. Qed.

Lemma sl_get_held s l k : sl_get s (set_held l k) = sl_get s k.
Proof. by destruct s. Qed.

Section uncontended.
Context {W : Wakeups}.
#[local] Opaque acquire release sl_get wakeup sl_set.

(** The current process, with its pid. *)
Definition running (k : kernel) (p pid : Z) : Prop :=
  ps_cur (k_ps k) = Some p /\ p_pid (ps_proc (k_ps k) p) = pid.

Lemma acquiresleep_eq s k p pid :
  SleepLk s ∉ k_held k -> running k p pid -> sl_locked (sl_get s k) = 0 ->
  acquiresleep s k = Ret () (set_fs (sl_fs s (mksleeplock 1 pid) (k_fs k)) k).
Proof.
  intros Hlk [Hc Hp] H0. unfold acquiresleep. kcall acquire_eq.
  assert (acquiresleep_loop wakeups s (set_held (SleepLk s :: k_held k) k) = Ret () (set_held (SleepLk s :: k_held k) k)) as Hloop.
  { destruct wakeups; cbn [acquiresleep_loop]; kpure; by rewrite sl_get_held, H0. }
  erewrite bind_eq by exact Hloop. erewrite bind_eq by (apply curproc_eq; exact Hc). cbv beta. kpure. ksimp.
  rewrite Hp. erewrite bind_eq by apply sl_set_eq. rewrite (release_eq _ (k_held k)) by done. by ksimp.
Qed.

Lemma releasesleep_eq s k :
  SleepLk s ∉ k_held k -> no_proc_lock k ->
  exists ps', releasesleep s k = Ret () (set_ps ps' (set_fs (sl_fs s (mksleeplock 0 0) (k_fs k)) k)) /\
    ps_woke (k_ps k) ps'.
Proof.
  intros Hlk Hnp. unfold releasesleep. kcall acquire_eq. erewrite bind_eq by apply sl_set_eq. cbv beta.
  destruct (wakeup_woke (ChanSleepLock s) (set_fs (sl_fs s (mksleeplock 0 0) (k_fs k)) (set_held (SleepLk s :: k_held k) k)))
    as (ps' & Hrun & Hw).
  { intros i. ksimp. rewrite not_elem_of_cons. by split; [|apply Hnp]. }
  exists ps'. ksimp in Hw. split; [|done]. ksimp. ksimp in Hrun. erewrite bind_eq by exact Hrun.
  rewrite (release_eq _ (k_held k)) by (by ksimp). by ksimp.
Qed.

Lemma holdingsleep_eq s k p pid :
  SleepLk s ∉ k_held k -> running k p pid ->
  holdingsleep s k = Ret (truthy (sl_locked (sl_get s k)) && (sl_pid (sl_get s k) =? pid)) k.
Proof.
  intros Hlk [Hc Hp]. unfold holdingsleep. kcall acquire_eq. kpure. rewrite sl_get_held.
  destruct (truthy _); cbn [andb].
  - erewrite bind_eq; [|erewrite bind_eq by (apply curproc_eq; exact Hc); cbv beta; kpure; reflexivity].
    cbv beta. erewrite bind_eq by (apply (release_eq _ (k_held k)); done). ksimp. by rewrite Hp.
  - kpure. erewrite bind_eq by (apply (release_eq _ (k_held k)); done). by ksimp.
Qed.

End uncontended.
