(* ===== verification/Bio.v ===== *)
(** * The buffer cache ([bio.c])

    The disk driver is an interface: [virtio_disk_rw b write] transfers the
    block of buffer [b] from or to the disk. *)

From S2P Require Import Prelude Riscv Monad State Kstring Printf Kalloc Vm Proc Sleeplock.
#[local] Open Scope Z_scope.

Definition BSIZE : Z := 1024.

(** [virtio_disk.c] as [bio.c] calls it. *)
Class Disk := virtio_disk_rw : Z -> bool -> K unit.

(** The index of [bcache.head]. *)
Definition HEAD : Z := NBUF.

Definition getb {A : Type} (b : Z) (f : buf -> A) : K A := gets (fun k => f (fs_buf (k_fs k) b)).
Definition setb (b : Z) (f : buf -> buf) : K unit := modify_fs (fs_upd_buf b f).

Section bio.
Context {W : Wakeups} {D : Disk}.

(** Insert [b] after the head: the last four assignments of [brelse]. *)
Definition binsert (b : Z) : K unit :=
  hn ← getb HEAD b_next;
  setb b (set_b_next hn);;
  setb b (set_b_prev HEAD);;
  hn ← getb HEAD b_next;
  setb hn (set_b_prev b);;
  setb HEAD (set_b_next b).

Fixpoint binit_loop (n : nat) (b : Z) : K unit :=
  match n with
  | O => mret ()
  | S n' =>
      hn ← getb HEAD b_next;
      setb b (set_b_next hn);;
      setb b (set_b_prev HEAD);;
      initsleeplock (BufSL b);;
      hn ← getb HEAD b_next;
      setb hn (set_b_prev b);;
      setb HEAD (set_b_next b);;
      binit_loop n' (b + 1)
  end.

Definition binit : K unit :=
  setb HEAD (set_b_prev HEAD);;
  setb HEAD (set_b_next HEAD);;
  binit_loop (Z.to_nat NBUF) 0.

(** The first loop of [bget]: the buffer that caches the block. *)
Fixpoint bget_cached (fuel : nat) (b dev blockno : Z) : K (option Z) :=
  if b =? HEAD then mret None
  else
    match fuel with
    | O => out_of_fuel
    | S fuel' =>
        d ← getb b b_dev;
        n ← getb b b_blockno;
        if (d =? dev) && (n =? blockno) then mret (Some b)
        else nx ← getb b b_next; bget_cached fuel' nx dev blockno
    end.

(** The second loop: the least recently used unused buffer. *)
Fixpoint bget_unused (fuel : nat) (b : Z) : K (option Z) :=
  if b =? HEAD then mret None
  else
    match fuel with
    | O => out_of_fuel
    | S fuel' =>
        r ← getb b b_refcnt;
        if r =? 0 then mret (Some b)
        else pv ← getb b b_prev; bget_unused fuel' pv
    end.

Definition bget (dev blockno : Z) : K Z :=
  acquire BcacheLock;;
  first ← getb HEAD b_next;
  o ← bget_cached (Z.to_nat NBUF) first dev blockno;
  match o with
  | Some b =>
      setb b (fun x => set_b_refcnt (u32 (b_refcnt x + 1)) x);;
      release BcacheLock;;
      acquiresleep (BufSL b);;
      mret b
  | None =>
      last ← getb HEAD b_prev;
      o ← bget_unused (Z.to_nat NBUF) last;
      match o with
      | Some b =>
          setb b (set_b_dev dev);;
          setb b (set_b_blockno blockno);;
          setb b (set_b_valid 0);;
          setb b (set_b_refcnt 1);;
          release BcacheLock;;
          acquiresleep (BufSL b);;
          mret b
      | None => panic "bget: no buffers"
      end
  end.

Definition bread (dev blockno : Z) : K Z :=
  b ← bget dev blockno;
  v ← getb b b_valid;
  when (negb (truthy v)) (virtio_disk_rw b false;; setb b (set_b_valid 1));;
  mret b.

Definition bwrite (b : Z) : K unit :=
  h ← holdingsleep (BufSL b);
  if negb h then panic "bwrite" else virtio_disk_rw b true.

Definition brelse (b : Z) : K unit :=
  h ← holdingsleep (BufSL b);
  if negb h then panic "brelse"
  else
    releasesleep (BufSL b);;
    acquire BcacheLock;;
    setb b (fun x => set_b_refcnt (u32 (b_refcnt x - 1)) x);;
    r ← getb b b_refcnt;
    when (r =? 0)
      (nx ← getb b b_next;
       pv ← getb b b_prev;
       setb nx (set_b_prev pv);;
       setb pv (set_b_next nx);;
       binsert b);;
    release BcacheLock.

Definition bpin (b : Z) : K unit :=
  acquire BcacheLock;;
  setb b (fun x => set_b_refcnt (u32 (b_refcnt x + 1)) x);;
  release BcacheLock.

Definition bunpin (b : Z) : K unit :=
  acquire BcacheLock;;
  setb b (fun x => set_b_refcnt (u32 (b_refcnt x - 1)) x);;
  release BcacheLock.

End bio.
