(* ===== verification/BioInv.v ===== *)
(** * The buffer cache: its invariant and the contract of its operations

    [bview s dev n] is the content of block [n] as a reader of the cache sees
    it. [bread] returns a locked buffer with that content, [brelse] and the
    recycling of buffers keep the content of every block, [bwrite] makes the
    disk agree with it. The LRU list always links every buffer exactly once. *)

From S2P Require Import Prelude Riscv Monad State Kstring Printf Kalloc Vm Proc ProcInv Sleeplock Dlist Bio.
#[local] Open Scope Z_scope.

(** ** The disk driver's contract *)

Definition fs_set_bufs (f : Z -> buf) (s : fssys) : fssys :=
  mkfssys (fs_disk s) (fs_writes s) f (fs_log s) (fs_sb s) (fs_inode s) (fs_file s) (fs_pipe s).

Definition fs_write_block (n : Z) (d : list Z) (s : fssys) : fssys :=
  fs_set_writes (fs_writes s ++ [(n, d)]) (fs_set_disk (<[n := d]> (fs_disk s)) s).

Definition inb (b : Z) : Prop := 0 <= b < NBUF.

Class DiskOk (D : Disk) : Prop := {
  disk_read b k : inb b -> k_held k = [] ->
    virtio_disk_rw b false k =
    Ret () (set_fs (fs_upd_buf b (set_b_data (fs_disk (k_fs k) (b_blockno (fs_buf (k_fs k) b)))) (k_fs k)) k);
  disk_write b k : inb b -> k_held k = [] ->
    virtio_disk_rw b true k =
    Ret () (set_fs (fs_write_block (b_blockno (fs_buf (k_fs k) b)) (b_data (fs_buf (k_fs k) b)) (k_fs k)) k)
}.

(** A disk that answers at once. *)
Definition ideal_disk : Disk := fun b write =>
  if (write : bool) then
    modify_fs (fun s => fs_write_block (b_blockno (fs_buf s b)) (b_data (fs_buf s b)) s)
  else modify_fs (fun s => fs_upd_buf b (set_b_data (fs_disk s (b_blockno (fs_buf s b)))) s).

#[export] Instance ideal_disk_ok : DiskOk ideal_disk.
Proof. split; done. Qed.

(** ** Views and the invariant *)

(** Everything of a buffer but its links. *)
Definition bcore (b : buf) : buf := set_b_prev 0 (set_b_next 0 b).

Definition caches (s : fssys) (dev n b : Z) : Prop :=
  inb b /\ b_dev (fs_buf s b) = dev /\ b_blockno (fs_buf s b) = n.

Definition cached_valid (s : fssys) (dev n b : Z) : bool :=
  (b_dev (fs_buf s b) =? dev) && (b_blockno (fs_buf s b) =? n) && truthy (b_valid (fs_buf s b)).

Definition bview (s : fssys) (dev n : Z) : list Z :=
  match list_find (fun b => cached_valid s dev n b = true) (seqZ 0 NBUF) with
  | Some (_, b) => b_data (fs_buf s b)
  | None => fs_disk s n
  end.

Definition lru_list (s : fssys) (lru : list Z) : Prop :=
  dseg (fun b => b_next (fs_buf s b)) (fun b => b_prev (fs_buf s b)) HEAD lru HEAD /\ lru ≡ₚ seqZ 0 NBUF.

(** What the invariant says of the buffers themselves. *)
Record bufs_ok (s : fssys) : Prop := {
  bo_uniq b c : inb b -> inb c -> b_dev (fs_buf s b) <> 0 -> b_dev (fs_buf s b) = b_dev (fs_buf s c) ->
    b_blockno (fs_buf s b) = b_blockno (fs_buf s c) -> b = c;
  bo_ref b : inb b -> 0 <= b_refcnt (fs_buf s b) < 2^31;
  bo_clean b : inb b -> truthy (b_valid (fs_buf s b)) = true -> b_refcnt (fs_buf s b) = 0 ->
    b_data (fs_buf s b) = fs_disk s (b_blockno (fs_buf s b));
  bo_free b : inb b -> b_refcnt (fs_buf s b) = 0 -> sl_locked (b_lock (fs_buf s b)) = 0;
  bo_valid b : inb b -> b_dev (fs_buf s b) <> 0 -> truthy (b_valid (fs_buf s b)) = true
}.

Definition bcache_inv (s : fssys) (lru : list Z) : Prop := lru_list s lru /\ bufs_ok s.

Lemma fs_buf_upd b f s c : fs_buf (fs_upd_buf b f s) c = if decide (c = b) then f (fs_buf s b) else fs_buf s c.
Proof.
  unfold fs_upd_buf. simpl. case_decide as E; [subst; by rewrite fn_lookup_insert|]. by rewrite fn_lookup_insert_ne.
Qed.

Lemma inb_seqZ b : inb b <-> b ∈ seqZ 0 NBUF.
Proof. unfold inb. rewrite elem_of_seqZ. lia. Qed.

Lemma lru_elem s lru b : lru_list s lru -> b ∈ lru <-> inb b.
Proof. intros [_ Hp]. by rewrite Hp, inb_seqZ. Qed.

Lemma lru_nodup s lru : lru_list s lru -> NoDup lru /\ HEAD ∉ lru /\ length lru = Z.to_nat NBUF.
Proof.
  intros [Hd Hp]. split_and!.
  - rewrite Hp. apply NoDup_seqZ.
  - rewrite Hp, elem_of_seqZ. unfold HEAD. lia.
  - rewrite Hp. by rewrite length_seqZ.
Qed.

(** ** Views *)

Lemma cached_valid_true s dev n b :
  cached_valid s dev n b = true <->
  b_dev (fs_buf s b) = dev /\ b_blockno (fs_buf s b) = n /\ truthy (b_valid (fs_buf s b)) = true.
Proof. unfold cached_valid. rewrite !andb_true_iff, !Z.eqb_eq. tauto. Qed.

Lemma bview_cached s dev n b :
  bufs_ok s -> dev <> 0 -> caches s dev n b -> truthy (b_valid (fs_buf s b)) = true -> bview s dev n = b_data (fs_buf s b).
Proof.
  intros Hok Hdev (Hb & Hd & Hn) Hv. unfold bview.
  destruct (list_find _ _) as [[i c]|] eqn:E.
  - apply list_find_Some in E as (Hi & Hc & _). apply cached_valid_true in Hc as (Hd' & Hn' & _).
    assert (inb c) by (apply inb_seqZ; by eapply list_elem_of_lookup_2).
    by rewrite (bo_uniq _ Hok b c) by (done || congruence).
  - apply list_find_None in E. rewrite Forall_forall in E. destruct (E b); [by apply inb_seqZ|].
    by apply cached_valid_true.
Qed.

Lemma bview_uncached s dev n :
  (forall b, caches s dev n b -> truthy (b_valid (fs_buf s b)) = false) -> bview s dev n = fs_disk s n.
Proof.
  intros Hno. unfold bview. destruct (list_find _ _) as [[i c]|] eqn:E; [|done].
  apply list_find_Some in E as (Hi & (Hd & Hn & Hv)%cached_valid_true & _).
  rewrite (Hno c) in Hv; [done|]. split_and!; [|done|done]. apply inb_seqZ. by eapply list_elem_of_lookup_2.
Qed.

(** Every block has a view of one of the two kinds. *)
Lemma bview_cases s dev n :
  (exists b, caches s dev n b /\ truthy (b_valid (fs_buf s b)) = true) \/
  (forall b, caches s dev n b -> truthy (b_valid (fs_buf s b)) = false).
Proof.
  destruct (list_find (fun b => cached_valid s dev n b = true) (seqZ 0 NBUF)) as [[i c]|] eqn:E.
  - apply list_find_Some in E as (Hi & (Hd & Hn & Hv)%cached_valid_true & _). left. exists c.
    split; [|done]. split_and!; [|done|done]. apply inb_seqZ. by eapply list_elem_of_lookup_2.
  - apply list_find_None in E. rewrite Forall_forall in E. right. intros b (Hb & Hd & Hn).
    destruct (truthy _) eqn:Ev; [|done]. destruct (E b); [by apply inb_seqZ|]. by apply cached_valid_true.
Qed.

(** The view depends on the buffers' cores and the disk only. *)
Lemma bview_core s s' dev n :
  bufs_ok s -> bufs_ok s' -> dev <> 0 ->
  (forall b, inb b -> b_dev (fs_buf s' b) = b_dev (fs_buf s b) /\ b_blockno (fs_buf s' b) = b_blockno (fs_buf s b) /\
     b_valid (fs_buf s' b) = b_valid (fs_buf s b) /\ b_data (fs_buf s' b) = b_data (fs_buf s b)) ->
  fs_disk s' n = fs_disk s n -> bview s' dev n = bview s dev n.
Proof.
  intros Hok Hok' Hdev Hc Hd. destruct (bview_cases s dev n) as [(b & (Hb & Hbd & Hbn) & Hv)|Hno].
  - destruct (Hc b Hb) as (H1 & H2 & H3 & H4).
    rewrite (bview_cached s dev n b) by (done || by split_and!).
    rewrite (bview_cached s' dev n b); [done|done|done|split_and!; congruence|congruence].
  - rewrite (bview_uncached s) by done. rewrite (bview_uncached s'); [done|].
    intros b (Hb & Hbd & Hbn). destruct (Hc b Hb) as (H1 & H2 & H3 & H4). rewrite H3.
    apply Hno. split_and!; congruence.
Qed.

(** ** The searches of [bget] *)

#[local] Opaque acquire release acquiresleep releasesleep holdingsleep.

Section specs.
Context {W : Wakeups} {D : Disk} {DOk : DiskOk D}.

Lemma bget_cached_eq fuel nx pv x l dev n k :
  dseg nx pv x l HEAD -> (forall b, b ∈ l -> nx b = b_next (fs_buf (k_fs k) b)) -> HEAD ∉ l -> (length l <= fuel)%nat ->
  bget_cached fuel (default HEAD (head l)) dev n k =
  Ret (snd <$> list_find (fun b => b_dev (fs_buf (k_fs k) b) = dev /\ b_blockno (fs_buf (k_fs k) b) = n) l) k.
Proof.
  revert fuel x. induction l as [|b l IH]; intros fuel x Hs Hnx Hh Hf.
  { destruct fuel; reflexivity. }
  destruct fuel as [|fuel]; [simpl in Hf; lia|]. cbn [head default from_option id bget_cached].
  apply not_elem_of_cons in Hh as [Hb Hh]. rewrite (proj2 (Z.eqb_neq b HEAD)) by done. kpure. kpure.
  cbn [list_find]. destruct (decide _) as [[Hd Hn]|Hne].
  - rewrite Hd, Hn, !Z.eqb_refl. done.
  - replace (_ && _) with false by (destruct (Z.eqb_spec (b_dev (fs_buf (k_fs k) b)) dev),
      (Z.eqb_spec (b_blockno (fs_buf (k_fs k) b)) n); naive_solver).
    kpure. destruct Hs as (_ & _ & Hs). pose proof (dseg_head _ _ _ _ _ Hs) as [Hhd _].
    rewrite <- (Hnx b), Hhd by set_solver.
    rewrite (IH fuel b Hs); [|set_solver|done|simpl in Hf; lia].
    f_equal. by destruct (list_find _ l) as [[? ?]|].
Qed.

Lemma bget_unused_eq fuel nx pv y l k :
  dseg nx pv HEAD l y -> (forall b, b ∈ l -> pv b = b_prev (fs_buf (k_fs k) b)) -> HEAD ∉ l -> (length l <= fuel)%nat ->
  bget_unused fuel (default HEAD (last l)) k =
  Ret (snd <$> list_find (fun b => b_refcnt (fs_buf (k_fs k) b) = 0) (reverse l)) k.
Proof.
  revert fuel y. induction l as [|b l IH] using rev_ind; intros fuel y Hs Hpv Hh Hf.
  { destruct fuel; reflexivity. }
  rewrite length_app in Hf. simpl in Hf. destruct fuel as [|fuel]; [lia|].
  rewrite last_snoc, reverse_snoc. cbn [default from_option id bget_unused].
  rewrite (proj2 (Z.eqb_neq b HEAD)) by set_solver. kpure.
  cbn [list_find]. destruct (decide _) as [Hr|Hr].
  - rewrite Hr, Z.eqb_refl. done.
  - rewrite (proj2 (Z.eqb_neq _ 0)) by done. kpure. apply dseg_app in Hs as [Hs _].
    pose proof (dseg_last _ _ _ _ _ Hs) as [Hl _]. rewrite <- (Hpv b), Hl by set_solver.
    rewrite (IH fuel b Hs); [|set_solver|set_solver|lia].
    f_equal. by destruct (list_find _ (reverse l)) as [[? ?]|].
Qed.

(** What [bget] finds: a buffer that caches the block, or else an unused
    one. *)
Lemma bget_find_cached s lru dev n k :
  lru_list s lru -> k_fs k = s ->
  exists o, bget_cached (Z.to_nat NBUF) (b_next (fs_buf s HEAD)) dev n k = Ret o k /\
    match o with
    | Some b => caches s dev n b
    | None => forall b, ~ caches s dev n b
    end.
Proof.
  intros Hl Hk. pose proof (lru_nodup _ _ Hl) as (_ & Hh & Hlen). pose proof Hl as [Hs Hp].
  pose proof (dseg_head _ _ _ _ _ Hs) as [Hhd _]. simpl in Hhd. rewrite Hhd.
  erewrite bget_cached_eq; [|exact Hs|by rewrite Hk|done|lia].
  eexists. split; [reflexivity|]. rewrite Hk. destruct (list_find _ lru) as [[i b]|] eqn:E; simpl.
  - apply list_find_Some in E as (Hi & [Hd Hn] & _). split_and!; [|done|done].
    apply (lru_elem s lru); [done|]. by eapply list_elem_of_lookup_2.
  - apply list_find_None in E. rewrite Forall_forall in E. intros b (Hb & Hd & Hn).
    apply (E b); [by apply (lru_elem s lru)|done].
Qed.

Lemma bget_find_unused s lru k c :
  lru_list s lru -> k_fs k = s -> inb c -> b_refcnt (fs_buf s c) = 0 ->
  exists b, bget_unused (Z.to_nat NBUF) (b_prev (fs_buf s HEAD)) k = Ret (Some b) k /\ inb b /\ b_refcnt (fs_buf s b) = 0.
Proof.
  intros Hl Hk Hc Hr. pose proof (lru_nodup _ _ Hl) as (_ & Hh & Hlen). pose proof Hl as [Hs Hp].
  pose proof (dseg_last _ _ _ _ _ Hs) as [Hlast _]. simpl in Hlast. rewrite Hlast.
  erewrite bget_unused_eq; [|exact Hs|by rewrite Hk|done|lia]. rewrite Hk.
  destruct (list_find _ (reverse lru)) as [[i b]|] eqn:E; simpl.
  - apply list_find_Some in E as (Hi & Hb & _). exists b. split_and!; [done| |done].
    apply (lru_elem s lru); [done|]. rewrite <- elem_of_reverse. by eapply list_elem_of_lookup_2.
  - apply list_find_None in E. rewrite Forall_forall in E. destruct (E c); [|done].
    rewrite elem_of_reverse. by apply (lru_elem s lru).
Qed.

(** ** [bget] and [bread] *)

(** [s'] is [s] with buffer [b] replaced by [x]. *)
Definition bufs_at (s : fssys) (b : Z) (x : buf) (s' : fssys) : Prop :=
  exists f, s' = fs_set_bufs f s /\ f b = x /\ (forall c, c <> b -> f c = fs_buf s c).

Lemma bufs_at_refl s b : bufs_at s b (fs_buf s b) s.
Proof. exists (fs_buf s). by destruct s. Qed.

Lemma bufs_at_upd s b x s' g : bufs_at s b x s' -> bufs_at s b (g x) (fs_upd_buf b g s').
Proof.
  intros (f & -> & Hb & Hc). exists (<[b := g (f b)]> f). split; [done|]. split.
  - by rewrite fn_lookup_insert, Hb.
  - intros c Hne. by rewrite fn_lookup_insert_ne, Hc.
Qed.

Lemma bufs_at_buf s b x s' c : bufs_at s b x s' -> fs_buf s' c = if decide (c = b) then x else fs_buf s c.
Proof. intros (f & -> & Hb & Hc). simpl. case_decide; subst; auto. Qed.

Lemma bufs_at_disk s b x s' : bufs_at s b x s' -> fs_disk s' = fs_disk s.
Proof. by intros (f & -> & _). Qed.

Lemma setb_eq b g k : setb b g k = Ret () (set_fs (fs_upd_buf b g (k_fs k)) k).
Proof. done. Qed.

#[local] Opaque setb.

(** The end of both branches of [bget]. *)
Lemma bget_end b s1 k p pid :
  k_held k = [] -> running k p pid -> sl_locked (b_lock (fs_buf s1 b)) = 0 ->
  (release BcacheLock;; acquiresleep (BufSL b);; mret b) (set_fs s1 (set_held [BcacheLock] k)) =
  Ret b (set_fs (fs_upd_buf b (set_b_lock (mksleeplock 1 pid)) s1) k).
Proof.
  intros Hh Hrun Hl. erewrite bind_eq by (apply (release_eq _ []); [done|apply not_elem_of_nil]).
  erewrite bind_eq by (apply (acquiresleep_eq _ _ p pid); [apply not_elem_of_nil|done|done]).
  ksimp. rewrite <- Hh. by ksimp.
Qed.

Lemma bget_spec s lru dev n k p pid :
  bcache_inv s lru -> k_fs k = s -> k_held k = [] -> running k p pid ->
  (forall b, caches s dev n b -> sl_locked (b_lock (fs_buf s b)) = 0 /\ b_refcnt (fs_buf s b) + 1 < 2^31) ->
  (exists b, caches s dev n b) \/ (exists c, inb c /\ b_refcnt (fs_buf s c) = 0) ->
  exists b x s', bget dev n k = Ret b (set_fs s' k) /\ inb b /\ bufs_at s b x s' /\
    ((caches s dev n b /\ x = set_b_lock (mksleeplock 1 pid) (set_b_refcnt (b_refcnt (fs_buf s b) + 1) (fs_buf s b))) \/
     ((forall c, ~ caches s dev n c) /\ b_refcnt (fs_buf s b) = 0 /\
      x = set_b_lock (mksleeplock 1 pid) (set_b_refcnt 1 (set_b_valid 0 (set_b_blockno n (set_b_dev dev (fs_buf s b))))))).
Proof.
  intros [Hl Hok] Hk Hh Hrun Hunl Hor. unfold bget.
  assert (BcacheLock ∉ k_held k) by (rewrite Hh; apply not_elem_of_nil). kcall acquire_eq.
  kpure. ksimp. rewrite Hk, Hh.
  assert (k_fs (set_held [BcacheLock] k) = s) as Hk1 by done.
  destruct (bget_find_cached s lru dev n _ Hl Hk1) as (o & Hcrun & Ho).
  erewrite bind_eq by exact Hcrun. cbv beta. destruct o as [b|].
  - pose proof Ho as (Hb & _). destruct (Hunl b Ho) as [Hun Hr]. pose proof (bo_ref _ Hok b Hb).
    erewrite bind_eq by apply setb_eq. ksimp. rewrite Hk.
    erewrite (bget_end b _ k p pid); [|done|done|by rewrite fs_buf_upd, decide_True].
    eexists b, _, _. split_and!; [reflexivity|done|apply bufs_at_upd, bufs_at_upd, bufs_at_refl|].
    left. split; [done|]. simpl. rewrite u32_small by lia. done.
  - destruct Hor as [[b Hb]|(c & Hc & Hr)]; [by destruct (Ho b)|]. kpure. ksimp. rewrite Hk.
    destruct (bget_find_unused s lru _ c Hl Hk1 Hc Hr) as (b & Hurun & Hb & Hbr).
    erewrite bind_eq by exact Hurun. cbv beta iota.
    do 4 (erewrite bind_eq by apply setb_eq; ksimp). rewrite Hk.
    erewrite (bget_end b _ k p pid);
      [|done|done|erewrite bufs_at_buf by (do 4 apply bufs_at_upd; apply bufs_at_refl); rewrite decide_True by done; by apply (bo_free _ Hok)].
    eexists b, _, _. split_and!; [reflexivity|done|do 5 apply bufs_at_upd; apply bufs_at_refl|].
    right. by split_and!.
Qed.

Lemma bufs_ok_at s b x s' :
  bufs_ok s -> inb b -> bufs_at s b x s' ->
  (forall c, inb c -> c <> b -> b_dev x <> 0 -> b_dev (fs_buf s c) = b_dev x -> b_blockno (fs_buf s c) = b_blockno x -> False) ->
  0 <= b_refcnt x < 2^31 ->
  (truthy (b_valid x) = true -> b_refcnt x = 0 -> b_data x = fs_disk s (b_blockno x)) ->
  (b_refcnt x = 0 -> sl_locked (b_lock x) = 0) -> truthy (b_valid x) = true -> bufs_ok s'.
Proof.
  intros [Hu Hr Hc Hf Hv] Hb Hat Hux Hrx Hcx Hfx Hvx. pose proof (fun c => bufs_at_buf s b x s' c Hat) as E. split.
  - intros c1 c2 H1 H2. rewrite !E. repeat case_decide; subst; try done.
    + intros Hd Hd' Hn. by destruct (Hux c2).
    + intros Hd Hd' Hn. destruct (Hux c1); congruence.
    + by apply Hu.
  - intros c H1. rewrite E. case_decide; [done|by apply Hr].
  - intros c H1. rewrite E, (bufs_at_disk _ _ _ _ Hat). case_decide; [done|by apply Hc].
  - intros c H1. rewrite E. case_decide; [done|by apply Hf].
  - intros c H1. rewrite E. case_decide; [done|by apply Hv].
Qed.

Lemma lru_list_at s b x s' lru :
  lru_list s lru -> bufs_at s b x s' -> b_prev x = b_prev (fs_buf s b) -> b_next x = b_next (fs_buf s b) -> lru_list s' lru.
Proof.
  intros [Hs Hp] Hat Hpv Hnx. split; [|done]. eapply dseg_ext; [| |exact Hs].
  - intros i _. simpl. rewrite (bufs_at_buf _ _ _ _ i Hat). case_decide; subst; done.
  - intros i _. simpl. rewrite (bufs_at_buf _ _ _ _ i Hat). case_decide; subst; done.
Qed.

(** Replacing an unused buffer by one for another block keeps every view. *)
Lemma bview_recycle s b x s' dev n n' :
  bufs_ok s -> bufs_ok s' -> inb b -> bufs_at s b x s' -> dev <> 0 ->
  b_refcnt (fs_buf s b) = 0 -> (forall c, ~ caches s dev n c) -> b_dev x = dev -> b_blockno x = n ->
  truthy (b_valid x) = true -> b_data x = fs_disk s n -> bview s' dev n' = bview s dev n'.
Proof.
  intros Hok Hok' Hb Hat Hdev Hr Hno Hxd Hxn Hxv Hxdata.
  pose proof (fun c => bufs_at_buf s b x s' c Hat) as E. pose proof (bufs_at_disk _ _ _ _ Hat) as Hd.
  destruct (decide (n' = n)) as [->|Hne].
  - rewrite (bview_uncached s) by (intros c Hc; by destruct (Hno c)).
    rewrite (bview_cached s' dev n b); rewrite ?E, ?decide_True by done; try done.
    split_and!; [done| |]; rewrite E, decide_True by done; congruence.
  - destruct (bview_cases s dev n') as [(c & Hc & Hv)|Hnc].
    + rewrite (bview_cached s dev n' c) by done. destruct Hc as (Hc & Hcd & Hcn). destruct (decide (c = b)) as [->|Hcb].
      * rewrite (bo_clean _ Hok b) by done. rewrite (bview_uncached s'); [rewrite Hd; congruence|].
        intros c (Hc' & Hc'd & Hc'n). rewrite E in *. case_decide; [congruence|].
        destruct (truthy (b_valid (fs_buf s c))) eqn:Ev; [|done]. exfalso. apply H, (bo_uniq _ Hok); congruence.
      * rewrite (bview_cached s' dev n' c); rewrite ?E, ?decide_False by done; try done.
        split_and!; [done| |]; rewrite E, decide_False by done; done.
    + rewrite (bview_uncached s) by done. rewrite (bview_uncached s'); [congruence|].
      intros c (Hc' & Hc'd & Hc'n). rewrite E in *. case_decide; [congruence|]. by apply Hnc.
Qed.

(** The buffer [bread] returns. *)
Record read_buf (s : fssys) (dev n pid b : Z) (x : buf) : Prop := {
  rb_dev : b_dev x = dev;
  rb_blockno : b_blockno x = n;
  rb_valid : truthy (b_valid x) = true;
  rb_lock : b_lock x = mksleeplock 1 pid;
  rb_data : b_data x = bview s dev n;
  rb_refcnt : b_refcnt x = b_refcnt (fs_buf s b) + 1;
  rb_links : b_prev x = b_prev (fs_buf s b) /\ b_next x = b_next (fs_buf s b);
  rb_from : caches s dev n b \/ (b_refcnt (fs_buf s b) = 0 /\ forall c, ~ caches s dev n c)
}.

Lemma bread_spec s lru dev n k p pid :
  bcache_inv s lru -> k_fs k = s -> k_held k = [] -> running k p pid -> dev <> 0 ->
  (forall b, caches s dev n b -> sl_locked (b_lock (fs_buf s b)) = 0 /\ b_refcnt (fs_buf s b) + 1 < 2^31) ->
  (exists b, caches s dev n b) \/ (exists c, inb c /\ b_refcnt (fs_buf s c) = 0) ->
  exists b x s', bread dev n k = Ret b (set_fs s' k) /\ inb b /\ bufs_at s b x s' /\ bcache_inv s' lru /\
    read_buf s dev n pid b x /\ (forall n', bview s' dev n' = bview s dev n').
Proof.
  intros Hinv Hk Hh Hrun Hdev Hunl Hor. pose proof Hinv as [Hl Hok].
  destruct (bget_spec s lru dev n k p pid Hinv Hk Hh Hrun Hunl Hor) as (b & x & s1 & Hget & Hb & Hat & Hx).
  unfold bread. erewrite bind_eq by exact Hget. cbv beta. kpure. ksimp.
  pose proof (bufs_at_buf s b x s1 b Hat) as Eb. rewrite decide_True in Eb by done. rewrite Eb.
  pose proof (bo_ref _ Hok b Hb) as Href.
  destruct Hx as [[Hc ->]|(Hno & Hr0 & ->)].
  - pose proof Hc as (_ & Hcd & Hcn). assert (truthy (b_valid (fs_buf s b)) = true) as Hv.
    { apply (bo_valid _ Hok); [done|congruence]. }
    destruct (Hunl b Hc) as [_ Hr1]. simpl. rewrite Hv. cbn [negb when].
    assert (bufs_ok s1) as Hok1.
    { eapply bufs_ok_at; [exact Hok|exact Hb|exact Hat|..]; simpl; try done; try lia.
      intros c Hcb Hne Hd Ed En. apply Hne, (bo_uniq _ Hok); congruence. }
    eexists b, _, s1. split_and!; [by kpure|done|exact Hat|split; [by eapply lru_list_at|done]| |].
    + split; simpl; try done; [|by left]. symmetry. by apply bview_cached.
    + intros n'. apply bview_core; try done; [|by rewrite (bufs_at_disk _ _ _ _ Hat)].
      intros c _. rewrite (bufs_at_buf _ _ _ _ c Hat). case_decide; subst; done.
  - simpl. cbn [negb when].
    erewrite bind_eq; [|erewrite bind_eq by (by apply disk_read); apply setb_eq]. cbv beta. ksimp.
    rewrite Eb. simpl b_blockno. set (d := fs_disk s1 n).
    assert (d = fs_disk s n) as Hd by (unfold d; by rewrite (bufs_at_disk _ _ _ _ Hat)).
    pose proof (bufs_at_upd _ _ _ _ (set_b_valid 1) (bufs_at_upd _ _ _ _ (set_b_data d) Hat)) as Hat2. simpl in Hat2.
    assert (bufs_ok (fs_upd_buf b (set_b_valid 1) (fs_upd_buf b (set_b_data d) s1))) as Hok2.
    { eapply bufs_ok_at; [exact Hok|exact Hb|exact Hat2|..]; simpl; try done; try lia.
      intros c Hcb Hne _ Ed En. by apply (Hno c). }
    eexists b, _, _. split_and!; [reflexivity|done|exact Hat2|split; [by eapply lru_list_at|done]| |].
    + split; simpl; try done; [|lia|by right]. rewrite bview_uncached; [done|]. intros c Hc. by destruct (Hno c).
    + intros n'. eapply bview_recycle; [exact Hok|exact Hok2|exact Hb|exact Hat2|..]; done.
Qed.

(** ** [bwrite] *)

Lemma bwrite_spec s b x k p pid :
  k_fs k = s -> k_held k = [] -> running k p pid -> inb b -> fs_buf s b = x -> b_lock x = mksleeplock 1 pid ->
  bwrite b k = Ret () (set_fs (fs_write_block (b_blockno x) (b_data x) s) k).
Proof.
  intros Hk Hh Hrun Hb Hx Hlk. unfold bwrite.
  erewrite bind_eq by (apply (holdingsleep_eq _ _ p pid); [rewrite Hh; apply not_elem_of_nil|done]).
  cbv beta. unfold sl_get. rewrite Hk, Hx, Hlk. simpl. rewrite Z.eqb_refl. cbn [negb].
  rewrite disk_write by done. by rewrite Hk, Hx.
Qed.

(** ** [brelse] *)

Definition nxf (s : fssys) (i : Z) : Z := b_next (fs_buf s i).
Definition pvf (s : fssys) (i : Z) : Z := b_prev (fs_buf s i).

Lemma nxf_set_next j x s i : nxf (fs_upd_buf j (set_b_next x) s) i = if decide (i = j) then x else nxf s i.
Proof. unfold nxf. rewrite fs_buf_upd. case_decide; by subst. Qed.
Lemma nxf_set_prev j x s i : nxf (fs_upd_buf j (set_b_prev x) s) i = nxf s i.
Proof. unfold nxf. rewrite fs_buf_upd. case_decide; by subst. Qed.
Lemma pvf_set_prev j x s i : pvf (fs_upd_buf j (set_b_prev x) s) i = if decide (i = j) then x else pvf s i.
Proof. unfold pvf. rewrite fs_buf_upd. case_decide; by subst. Qed.
Lemma pvf_set_next j x s i : pvf (fs_upd_buf j (set_b_next x) s) i = pvf s i.
Proof. unfold pvf. rewrite fs_buf_upd. case_decide; by subst. Qed.

Lemma bcore_set_next j x s i : bcore (fs_buf (fs_upd_buf j (set_b_next x) s) i) = bcore (fs_buf s i).
Proof. rewrite fs_buf_upd. case_decide; by subst. Qed.
Lemma bcore_set_prev j x s i : bcore (fs_buf (fs_upd_buf j (set_b_prev x) s) i) = bcore (fs_buf s i).
Proof. rewrite fs_buf_upd. case_decide; by subst. Qed.

Lemma fn_insert_case {B} (f : Z -> B) (a : Z) (x : B) i : (<[a := x]> f) i = if decide (i = a) then x else f i.
Proof. case_decide; [subst; by rewrite fn_lookup_insert|by rewrite fn_lookup_insert_ne]. Qed.

(** [s'] has the buffers of [s] up to their links. *)
Definition relinked (s s' : fssys) : Prop :=
  exists f, s' = fs_set_bufs f s /\ forall i, bcore (f i) = bcore (fs_buf s i).

Lemma relinked_refl s : relinked s s.
Proof. exists (fs_buf s). by destruct s. Qed.

Lemma relinked_next j x s s' : relinked s s' -> relinked s (fs_upd_buf j (set_b_next x) s').
Proof. intros (f & -> & Hf). eexists. split; [done|]. intros i. etransitivity; [apply (bcore_set_next j x (fs_set_bufs f s))|done]. Qed.

Lemma relinked_prev j x s s' : relinked s s' -> relinked s (fs_upd_buf j (set_b_prev x) s').
Proof. intros (f & -> & Hf). eexists. split; [done|]. intros i. etransitivity; [apply (bcore_set_prev j x (fs_set_bufs f s))|done]. Qed.

(** The pointer assignments of [brelse]. *)
Definition bmove (b : Z) : K unit :=
  nx ← getb b b_next;
  pv ← getb b b_prev;
  setb nx (set_b_prev pv);;
  setb pv (set_b_next nx);;
  binsert b.

Lemma bmove_eq b k :
  exists s', bmove b k = Ret () (set_fs s' k) /\ relinked (k_fs k) s' /\
    let s := k_fs k in
    let nx1 := <[pvf s b := nxf s b]> (nxf s) in
    (forall i, nxf s' i = (<[HEAD := b]> (<[b := nx1 HEAD]> nx1)) i) /\
    (b <> HEAD -> forall i, pvf s' i = (<[nx1 HEAD := b]> (<[b := HEAD]> (<[nxf s b := pvf s b]> (pvf s)))) i).
Proof.
  unfold bmove, binsert. set (s := k_fs k). kpure. kpure. fold s. fold (nxf s b) (pvf s b).
  erewrite bind_eq by apply setb_eq. erewrite bind_eq by apply setb_eq. ksimp. fold s.
  set (s2 := fs_upd_buf (pvf s b) _ _). kpure. ksimp. fold (nxf s2 HEAD).
  erewrite bind_eq by apply setb_eq. erewrite bind_eq by apply setb_eq. ksimp.
  set (s4 := fs_upd_buf b _ (fs_upd_buf b _ s2)). kpure. ksimp. fold (nxf s4 HEAD).
  erewrite bind_eq by apply setb_eq. rewrite setb_eq. ksimp.
  assert (forall i, nxf s2 i = (<[pvf s b := nxf s b]> (nxf s)) i) as Hn2.
  { intros i. unfold s2. by rewrite nxf_set_next, nxf_set_prev, fn_insert_case. }
  assert (forall i, pvf s2 i = (<[nxf s b := pvf s b]> (pvf s)) i) as Hp2.
  { intros i. unfold s2. by rewrite pvf_set_next, pvf_set_prev, fn_insert_case. }
  assert (forall i, nxf s4 i = if decide (i = b) then nxf s2 HEAD else nxf s2 i) as Hn4.
  { intros i. unfold s4. by rewrite nxf_set_prev, nxf_set_next. }
  assert (forall i, pvf s4 i = if decide (i = b) then HEAD else pvf s2 i) as Hp4.
  { intros i. unfold s4. by rewrite pvf_set_prev, pvf_set_next. }
  eexists. split; [reflexivity|]. split.
  { apply relinked_next, relinked_prev. unfold s4. apply relinked_prev, relinked_next. unfold s2.
    apply relinked_next, relinked_prev, relinked_refl. }
  cbv zeta. fold s. split.
  - intros i. rewrite nxf_set_next, nxf_set_prev, (fn_insert_case _ HEAD), (fn_insert_case _ b), Hn4, <- !Hn2. done.
  - intros Hb i. rewrite pvf_set_next, pvf_set_prev, <- !Hn2, fn_insert_case, (fn_insert_case _ b), <- Hp2.
    rewrite Hp4, Hn4. rewrite (decide_False (P := HEAD = b)) by done. done.
Qed.

Lemma relinked_buf s s' i : relinked s s' -> bcore (fs_buf s' i) = bcore (fs_buf s i).
Proof. intros (f & -> & Hf). apply Hf. Qed.

Lemma NoDup_snoc_intro {A} (l : list A) x : NoDup l -> x ∉ l -> NoDup (l ++ [x]).
Proof. intros Hl Hx. rewrite <- Permutation_cons_append. by apply NoDup_cons. Qed.

(** Moving a buffer to the front of the LRU list. *)
Lemma bmove_spec b lru k :
  lru_list (k_fs k) lru -> inb b ->
  exists s' lru', bmove b k = Ret () (set_fs s' k) /\ relinked (k_fs k) s' /\ lru_list s' (b :: lru').
Proof.
  intros Hl Hb. destruct (bmove_eq b k) as (s' & Hrun & Hre & Hn & Hp). exists s'.
  pose proof (lru_nodup _ _ Hl) as (Hnd & Hh & _). pose proof (proj2 (lru_elem _ _ b Hl) Hb) as Hin.
  destruct Hl as [Hs Hperm]. apply list_elem_of_split in Hin as (l1 & l2 & ->). exists (l1 ++ l2).
  assert (b <> HEAD) as Hbh by (intros ->; set_solver). specialize (Hp Hbh). set (s := k_fs k) in *.
  pose proof Hs as [H1 H2]%dseg_app. split; [done|]. split; [done|].
  assert (pvf s b = default HEAD (last l1)) as Ep by apply (dseg_last _ _ _ _ _ H1).
  assert (nxf s b = default HEAD (head l2)) as En by apply (dseg_head _ _ _ _ _ H2).
  assert (NoDup (l1 ++ l2) /\ b ∉ l1 ++ l2) as [Hnd' Hb'].
  { rewrite <- Permutation_middle in Hnd. apply NoDup_cons in Hnd. tauto. }
  assert (dseg (<[pvf s b := nxf s b]> (nxf s)) (<[nxf s b := pvf s b]> (pvf s)) HEAD (l1 ++ l2) HEAD) as Hj.
  { eapply dseg_join; [exact H1|exact H2|by apply NoDup_cons| |done|done].
    change (NoDup (l1 ++ (b :: l2) ++ [HEAD])). rewrite app_assoc. by apply NoDup_snoc_intro. }
  split.
  - eapply dseg_ext; [intros i _; apply Hn|intros i _; apply Hp|].
    eapply dseg_insert; [exact Hj|..]; [set_solver|done|apply NoDup_cons; set_solver|by apply NoDup_snoc_intro; [|set_solver]|].
    by apply (dseg_head _ _ _ _ _ Hj).
  - by rewrite Permutation_middle.
Qed.

(** [s'] is [s] with buffer [b] replaced by [x], up to the links. *)
Definition cores_at (s : fssys) (b : Z) (x : buf) (s' : fssys) : Prop :=
  exists f, s' = fs_set_bufs f s /\ bcore (f b) = bcore x /\ (forall c, c <> b -> bcore (f c) = bcore (fs_buf s c)).

Lemma bufs_cores_at s b x s' : bufs_at s b x s' -> cores_at s b x s'.
Proof. intros (f & -> & Hb & Hc). exists f. split_and!; [done|congruence|]. intros c Hne. by rewrite Hc. Qed.

Lemma cores_at_relinked s b x s1 s2 : cores_at s b x s1 -> relinked s1 s2 -> cores_at s b x s2.
Proof.
  intros (f & -> & Hb & Hc) (g & -> & Hg). exists g. split; [done|]. split; [by rewrite Hg|].
  intros c Hne. rewrite Hg. by apply Hc.
Qed.

Lemma bcore_fields b c :
  bcore b = bcore c -> b_valid b = b_valid c /\ b_disk b = b_disk c /\ b_dev b = b_dev c /\ b_blockno b = b_blockno c /\
    b_lock b = b_lock c /\ b_refcnt b = b_refcnt c /\ b_data b = b_data c.
Proof. destruct b, c. unfold bcore, set_b_prev, set_b_next. simpl. intros [=]. by subst. Qed.

Lemma bufs_ok_core s s' : bufs_ok s -> relinked s s' -> bufs_ok s'.
Proof.
  intros [Hu Hr Hc Hf Hv] (f & -> & Hcore).
  assert (forall i, b_valid (f i) = b_valid (fs_buf s i) /\ b_dev (f i) = b_dev (fs_buf s i) /\
    b_blockno (f i) = b_blockno (fs_buf s i) /\ b_lock (f i) = b_lock (fs_buf s i) /\
    b_refcnt (f i) = b_refcnt (fs_buf s i) /\ b_data (f i) = b_data (fs_buf s i)) as E.
  { intros i. pose proof (bcore_fields _ _ (Hcore i)). tauto. }
  split; simpl.
  - intros b c. destruct (E b) as (_ & -> & -> & _), (E c) as (_ & -> & -> & _). apply Hu.
  - intros b. destruct (E b) as (_ & _ & _ & _ & -> & _). apply Hr.
  - intros b. destruct (E b) as (-> & _ & -> & _ & -> & ->). apply Hc.
  - intros b. destruct (E b) as (_ & _ & _ & -> & -> & _). apply Hf.
  - intros b. destruct (E b) as (-> & -> & _). apply Hv.
Qed.

(** The buffer [brelse] leaves. *)
Definition released (x : buf) : buf := set_b_refcnt (b_refcnt x - 1) (set_b_lock (mksleeplock 0 0) x).

Lemma brelse_spec s lru b x k p pid :
  bcache_inv s lru -> k_fs k = s -> k_held k = [] -> running k p pid -> inb b -> fs_buf s b = x ->
  b_lock x = mksleeplock 1 pid -> 1 <= b_refcnt x -> truthy (b_valid x) = true ->
  (b_refcnt x = 1 -> b_data x = fs_disk s (b_blockno x)) ->
  exists ps' s' lru', brelse b k = Ret () (set_fs s' (set_ps ps' k)) /\ ps_woke (k_ps k) ps' /\
    bcache_inv s' lru' /\ cores_at s b (released x) s'.
Proof.
  intros [Hl Hok] Hk Hh Hrun Hb Hx Hlk Hr Hv Hclean. pose proof (bo_ref _ Hok b Hb) as Href. rewrite Hx in Href.
  unfold brelse. erewrite bind_eq by (apply (holdingsleep_eq _ _ p pid); [rewrite Hh; apply not_elem_of_nil|done]).
  cbv beta. unfold sl_get. rewrite Hk, Hx, Hlk. simpl. rewrite Z.eqb_refl. cbn [negb].
  destruct (releasesleep_eq (BufSL b) k) as (ps' & Hrel & Hw);
    [rewrite Hh; apply not_elem_of_nil|intros i; rewrite Hh; apply not_elem_of_nil|].
  erewrite bind_eq by exact Hrel. rewrite Hk. cbn [sl_fs].
  erewrite bind_eq by (apply acquire_eq; ksimp; rewrite Hh; apply not_elem_of_nil). ksimp.
  erewrite bind_eq by apply setb_eq. ksimp.
  set (s2 := fs_upd_buf b _ (fs_upd_buf b _ s)).
  assert (bufs_at s b (released x) s2) as Hat.
  { pose proof (bufs_at_refl s b) as H0. rewrite Hx in H0.
    pose proof (bufs_at_upd _ _ _ _ (fun x => set_b_refcnt (u32 (b_refcnt x - 1)) x)
      (bufs_at_upd _ _ _ _ (set_b_lock (mksleeplock 0 0)) H0)) as H2.
    simpl in H2. rewrite u32_small in H2 by lia. exact H2. }
  assert (bufs_ok s2) as Hok2.
  { eapply bufs_ok_at; [exact Hok|exact Hb|exact Hat|..]; unfold released; simpl; try done; try lia.
    - intros c Hc Hne Hd Hd' Hn. apply Hne. apply (bo_uniq _ Hok); rewrite ?Hx; congruence.
    - intros _ ?. apply Hclean. lia. }
  assert (lru_list s2 lru) as Hl2 by (eapply lru_list_at; [exact Hl|exact Hat|by rewrite Hx|by rewrite Hx]).
  kpure. ksimp. rewrite (bufs_at_buf _ _ _ _ b Hat), decide_True by done. simpl b_refcnt.
  fold (bmove b). destruct (Z.eqb_spec (b_refcnt x - 1) 0) as [E|E]; cbn [when].
  - set (k2 := set_fs s2 _). destruct (bmove_spec b lru k2 Hl2 Hb) as (s3 & lru' & Hmv & Hre & Hl3).
    erewrite bind_eq by exact Hmv. unfold k2 in *. ksimp.
    rewrite (release_eq _ []) by (rewrite ?Hh; done || apply not_elem_of_nil). ksimp.
    eexists ps', s3, _. split_and!; [rewrite <- Hh; by ksimp|done|split; [exact Hl3|by eapply bufs_ok_core]|].
    eapply cores_at_relinked; [by apply bufs_cores_at|done].
  - kpure. rewrite (release_eq _ []) by (rewrite ?Hh; done || apply not_elem_of_nil). ksimp.
    eexists ps', s2, lru. split_and!; [rewrite <- Hh; by ksimp|done|by split|by apply bufs_cores_at].
Qed.

End specs.
