(* ===== verification/Virtio.v ===== *)
(** * The disk driver ([virtio_disk.c])

    The driver shares the descriptors, the two rings and the request headers
    with the device; the state is [vdisk]. An address in a descriptor is kept
    as what it points to ([dma]). The registers the device offers read-only
    are an argument of [virtio_disk_init]; the writes to registers are
    recorded in order. *)

From S2P Require Import Prelude Riscv Monad State Kstring Printf Kalloc Vm Proc Sleeplock Bio.
#[local] Open Scope Z_scope.

(** ** Constants ([virtio.h]) *)

Definition VIRTIO_MMIO_MAGIC_VALUE : Z := 0x000.
Definition VIRTIO_MMIO_VERSION : Z := 0x004.
Definition VIRTIO_MMIO_DEVICE_ID : Z := 0x008.
Definition VIRTIO_MMIO_VENDOR_ID : Z := 0x00c.
Definition VIRTIO_MMIO_DEVICE_FEATURES : Z := 0x010.
Definition VIRTIO_MMIO_DRIVER_FEATURES : Z := 0x020.
Definition VIRTIO_MMIO_GUEST_PAGE_SIZE : Z := 0x028.
Definition VIRTIO_MMIO_QUEUE_SEL : Z := 0x030.
Definition VIRTIO_MMIO_QUEUE_NUM_MAX : Z := 0x034.
Definition VIRTIO_MMIO_QUEUE_NUM : Z := 0x038.
Definition VIRTIO_MMIO_QUEUE_PFN : Z := 0x040.
Definition VIRTIO_MMIO_QUEUE_NOTIFY : Z := 0x050.
Definition VIRTIO_MMIO_STATUS : Z := 0x070.

Definition VIRTIO_CONFIG_S_ACKNOWLEDGE : Z := 1.
Definition VIRTIO_CONFIG_S_DRIVER : Z := 2.
Definition VIRTIO_CONFIG_S_DRIVER_OK : Z := 4.
Definition VIRTIO_CONFIG_S_FEATURES_OK : Z := 8.

Definition VIRTIO_BLK_F_RO : Z := 5.
Definition VIRTIO_BLK_F_SCSI : Z := 7.
Definition VIRTIO_BLK_F_CONFIG_WCE : Z := 11.
Definition VIRTIO_BLK_F_MQ : Z := 12.
Definition VIRTIO_F_ANY_LAYOUT : Z := 27.
Definition VIRTIO_RING_F_INDIRECT_DESC : Z := 28.
Definition VIRTIO_RING_F_EVENT_IDX : Z := 29.

Definition NUM : Z := 8.
Definition VRING_DESC_F_NEXT : Z := 1.
Definition VRING_DESC_F_WRITE : Z := 2.
Definition VIRTIO_BLK_T_IN : Z := 0.
Definition VIRTIO_BLK_T_OUT : Z := 1.
Definition sizeof_virtio_blk_req : Z := 16.

(** ** The state *)

Definition vd (k : kernel) : vdisk := io_vd (k_io k).

Definition io_set_vd (v : vdisk) (o : iosys) : iosys :=
  mkiosys (u_thr o) (u_room o) (u_rhr o) (u_tx_buf o) (u_tx_w o) (u_tx_r o) (cons_buf o) (cons_r o) (cons_w o) (cons_e o)
    (pr_locking o) v.
Definition set_vd (v : vdisk) (k : kernel) : kernel := set_io (io_set_vd v (k_io k)) k.

Definition getvd {A : Type} (f : vdisk -> A) : K A := gets (fun k => f (vd k)).
Definition modvd (f : vdisk -> vdisk) : K unit := modify (fun k => set_vd (f (vd k)) k).

Definition set_v_desc i x (v : vdisk) := mkvdisk (<[i := x]> (v_desc v)) (v_avail_idx v) (v_avail_ring v) (v_used_head v) (v_used_ring v) (v_free v) (v_used_idx v) (v_info_b v) (v_info_status v) (v_ops v) (v_isr v) (v_regs v) (v_seen v) (v_busy v).
Definition set_v_avail_idx x (v : vdisk) := mkvdisk (v_desc v) x (v_avail_ring v) (v_used_head v) (v_used_ring v) (v_free v) (v_used_idx v) (v_info_b v) (v_info_status v) (v_ops v) (v_isr v) (v_regs v) (v_seen v) (v_busy v).
Definition set_v_avail_ring i x (v : vdisk) := mkvdisk (v_desc v) (v_avail_idx v) (<[i := x]> (v_avail_ring v)) (v_used_head v) (v_used_ring v) (v_free v) (v_used_idx v) (v_info_b v) (v_info_status v) (v_ops v) (v_isr v) (v_regs v) (v_seen v) (v_busy v).
Definition set_v_used_head x (v : vdisk) := mkvdisk (v_desc v) (v_avail_idx v) (v_avail_ring v) x (v_used_ring v) (v_free v) (v_used_idx v) (v_info_b v) (v_info_status v) (v_ops v) (v_isr v) (v_regs v) (v_seen v) (v_busy v).
Definition set_v_used_ring i x (v : vdisk) := mkvdisk (v_desc v) (v_avail_idx v) (v_avail_ring v) (v_used_head v) (<[i := x]> (v_used_ring v)) (v_free v) (v_used_idx v) (v_info_b v) (v_info_status v) (v_ops v) (v_isr v) (v_regs v) (v_seen v) (v_busy v).
Definition set_v_free i x (v : vdisk) := mkvdisk (v_desc v) (v_avail_idx v) (v_avail_ring v) (v_used_head v) (v_used_ring v) (<[i := x]> (v_free v)) (v_used_idx v) (v_info_b v) (v_info_status v) (v_ops v) (v_isr v) (v_regs v) (v_seen v) (v_busy v).
Definition set_v_used_idx x (v : vdisk) := mkvdisk (v_desc v) (v_avail_idx v) (v_avail_ring v) (v_used_head v) (v_used_ring v) (v_free v) x (v_info_b v) (v_info_status v) (v_ops v) (v_isr v) (v_regs v) (v_seen v) (v_busy v).
Definition set_v_info_b i x (v : vdisk) := mkvdisk (v_desc v) (v_avail_idx v) (v_avail_ring v) (v_used_head v) (v_used_ring v) (v_free v) (v_used_idx v) (<[i := x]> (v_info_b v)) (v_info_status v) (v_ops v) (v_isr v) (v_regs v) (v_seen v) (v_busy v).
Definition set_v_info_status i x (v : vdisk) := mkvdisk (v_desc v) (v_avail_idx v) (v_avail_ring v) (v_used_head v) (v_used_ring v) (v_free v) (v_used_idx v) (v_info_b v) (<[i := x]> (v_info_status v)) (v_ops v) (v_isr v) (v_regs v) (v_seen v) (v_busy v).
Definition set_v_ops i x (v : vdisk) := mkvdisk (v_desc v) (v_avail_idx v) (v_avail_ring v) (v_used_head v) (v_used_ring v) (v_free v) (v_used_idx v) (v_info_b v) (v_info_status v) (<[i := x]> (v_ops v)) (v_isr v) (v_regs v) (v_seen v) (v_busy v).
Definition set_v_isr x (v : vdisk) := mkvdisk (v_desc v) (v_avail_idx v) (v_avail_ring v) (v_used_head v) (v_used_ring v) (v_free v) (v_used_idx v) (v_info_b v) (v_info_status v) (v_ops v) x (v_regs v) (v_seen v) (v_busy v).
Definition set_v_regs x (v : vdisk) := mkvdisk (v_desc v) (v_avail_idx v) (v_avail_ring v) (v_used_head v) (v_used_ring v) (v_free v) (v_used_idx v) (v_info_b v) (v_info_status v) (v_ops v) (v_isr v) x (v_seen v) (v_busy v).
Definition set_v_seen x (v : vdisk) := mkvdisk (v_desc v) (v_avail_idx v) (v_avail_ring v) (v_used_head v) (v_used_ring v) (v_free v) (v_used_idx v) (v_info_b v) (v_info_status v) (v_ops v) (v_isr v) (v_regs v) x (v_busy v).
Definition set_v_busy x (v : vdisk) := mkvdisk (v_desc v) (v_avail_idx v) (v_avail_ring v) (v_used_head v) (v_used_ring v) (v_free v) (v_used_idx v) (v_info_b v) (v_info_status v) (v_ops v) (v_isr v) (v_regs v) (v_seen v) x.

(** [*R(r) = x]. *)
Definition write_reg (r x : Z) : K unit := modvd (fun v => set_v_regs (v_regs v ++ [(r, u32 x)]) v).

(** ** [virtio_disk_init] *)

(** [memset(disk.pages, 0, sizeof(disk.pages))]: descriptors and rings. *)
Definition clear_pages (v : vdisk) : vdisk :=
  mkvdisk (fun _ => virtq_desc0) 0 (fun _ => 0) 0 (fun _ => 0) (v_free v) (v_used_idx v) (v_info_b v) (v_info_status v)
    (v_ops v) (v_isr v) (v_regs v) (v_seen v) (v_busy v).

(** [features &= ~(1 << bit)]. *)
Definition drop_feature (features bit : Z) : Z := Z.land features (Z.lnot (Z.shiftl 1 bit)).

Fixpoint free_all_loop (n : nat) (i : Z) : K unit :=
  match n with
  | O => mret ()
  | S n' => modvd (set_v_free i 1);; free_all_loop n' (i + 1)
  end.

(** [mmio r] is what a read of register [r] gives, [pages] the address of
    [disk.pages]. *)
Definition virtio_disk_init (mmio : Z -> Z) (pages : Z) : K unit :=
  if negb (mmio VIRTIO_MMIO_MAGIC_VALUE =? 0x74726976) || negb (mmio VIRTIO_MMIO_VERSION =? 1) ||
     negb (mmio VIRTIO_MMIO_DEVICE_ID =? 2) || negb (mmio VIRTIO_MMIO_VENDOR_ID =? 0x554d4551)
  then panic "could not find virtio disk"
  else
    let status := Z.lor 0 VIRTIO_CONFIG_S_ACKNOWLEDGE in
    write_reg VIRTIO_MMIO_STATUS status;;
    let status := Z.lor status VIRTIO_CONFIG_S_DRIVER in
    write_reg VIRTIO_MMIO_STATUS status;;
    let features := mmio VIRTIO_MMIO_DEVICE_FEATURES in
    let features := drop_feature features VIRTIO_BLK_F_RO in
    let features := drop_feature features VIRTIO_BLK_F_SCSI in
    let features := drop_feature features VIRTIO_BLK_F_CONFIG_WCE in
    let features := drop_feature features VIRTIO_BLK_F_MQ in
    let features := drop_feature features VIRTIO_F_ANY_LAYOUT in
    let features := drop_feature features VIRTIO_RING_F_EVENT_IDX in
    let features := drop_feature features VIRTIO_RING_F_INDIRECT_DESC in
    write_reg VIRTIO_MMIO_DRIVER_FEATURES features;;
    let status := Z.lor status VIRTIO_CONFIG_S_FEATURES_OK in
    write_reg VIRTIO_MMIO_STATUS status;;
    let status := Z.lor status VIRTIO_CONFIG_S_DRIVER_OK in
    write_reg VIRTIO_MMIO_STATUS status;;
    write_reg VIRTIO_MMIO_GUEST_PAGE_SIZE PGSIZE;;
    write_reg VIRTIO_MMIO_QUEUE_SEL 0;;
    let max := mmio VIRTIO_MMIO_QUEUE_NUM_MAX in
    if max =? 0 then panic "virtio disk has no queue 0"
    else if max <? NUM then panic "virtio disk max queue too short"
    else
      write_reg VIRTIO_MMIO_QUEUE_NUM NUM;;
      modvd clear_pages;;
      write_reg VIRTIO_MMIO_QUEUE_PFN (Z.shiftr pages PGSHIFT);;
      free_all_loop (Z.to_nat NUM) 0.

(** ** Descriptors *)

Fixpoint alloc_desc_loop (n : nat) (i : Z) : K Z :=
  match n with
  | O => mret (-1)
  | S n' =>
      fr ← getvd (fun v => v_free v i);
      if truthy fr then modvd (set_v_free i 0);; mret i
      else alloc_desc_loop n' (i + 1)
  end.

Definition alloc_desc : K Z := alloc_desc_loop (Z.to_nat NUM) 0.

Definition free_desc (i : Z) : K unit :=
  if NUM <=? i then panic "free_desc 1"
  else
    fr ← getvd (fun v => v_free v i);
    if truthy fr then panic "free_desc 2"
    else
      modvd (set_v_desc i (mkvirtq_desc DmaNull 0 0 0));;
      modvd (set_v_free i 1);;
      wakeup ChanDiskFree.

(** The [while(1)] of [free_chain]: every round frees a descriptor, so the
    ninth would find one that is free. *)
Fixpoint free_chain_loop (n : nat) (i : Z) : K unit :=
  match n with
  | O => out_of_fuel
  | S n' =>
      flag ← getvd (fun v => d_flags (v_desc v i));
      nxt ← getvd (fun v => d_next (v_desc v i));
      free_desc i;;
      if truthy (Z.land flag VRING_DESC_F_NEXT) then free_chain_loop n' nxt else mret ()
  end.

Definition free_chain (i : Z) : K unit := free_chain_loop (S (Z.to_nat NUM)) i.

Fixpoint free_each (idx : list Z) : K unit :=
  match idx with
  | [] => mret ()
  | i :: idx' => free_desc i;; free_each idx'
  end.

(** The loop of [alloc3_desc], with the part of the array [idx] that is
    filled in; the result is the return value and [idx]. *)
Fixpoint alloc3_loop (n : nat) (idx : list Z) : K (Z * list Z) :=
  match n with
  | O => mret (0, idx)
  | S n' =>
      i ← alloc_desc;
      if i <? 0 then free_each idx;; mret (-1, idx ++ [i])
      else alloc3_loop n' (idx ++ [i])
  end.

Definition alloc3_desc : K (Z * list Z) := alloc3_loop 3 [].

(** ** Requests *)

Section requests.
Context {W : Wakeups}.

(** The loop that allocates the three descriptors. *)
Fixpoint rw_alloc (n : nat) : K (list Z) :=
  ri ← alloc3_desc;
  if fst ri =? 0 then mret (snd ri)
  else
    match n with
    | O => out_of_fuel
    | S n' => sleep ChanDiskFree DiskLock;; rw_alloc n'
    end.

(** Format the descriptors and hand the chain to the device. *)
Definition rw_submit (b : Z) (write : bool) (sector : Z) (idx : list Z) : K unit :=
  let i0 := nth 0 idx 0 in
  let i1 := nth 1 idx 0 in
  let i2 := nth 2 idx 0 in
  modvd (set_v_ops i0 (mkvirtio_blk_req (if write then VIRTIO_BLK_T_OUT else VIRTIO_BLK_T_IN) 0 sector));;
  modvd (set_v_desc i0 (mkvirtq_desc (DmaOp i0) sizeof_virtio_blk_req VRING_DESC_F_NEXT i1));;
  modvd (set_v_desc i1 (mkvirtq_desc (DmaData b) BSIZE
    (Z.lor (if write then 0 else VRING_DESC_F_WRITE) VRING_DESC_F_NEXT) i2));;
  modvd (set_v_info_status i0 0xff);;
  modvd (set_v_desc i2 (mkvirtq_desc (DmaStatus i0) 1 VRING_DESC_F_WRITE 0));;
  setb b (set_b_disk 1);;
  modvd (set_v_info_b i0 (Some b));;
  modvd (fun v => set_v_avail_ring (v_avail_idx v mod NUM) i0 v);;
  modvd (fun v => set_v_avail_idx (u16 (v_avail_idx v + 1)) v);;
  write_reg VIRTIO_MMIO_QUEUE_NOTIFY 0.

(** [while(b->disk == 1) sleep(b, &disk.vdisk_lock)]. *)
Fixpoint rw_wait (n : nat) (b : Z) : K unit :=
  d ← getb b b_disk;
  if d =? 1 then
    match n with
    | O => out_of_fuel
    | S n' => sleep (ChanBuf b) DiskLock;; rw_wait n' b
    end
  else mret ().

Definition rw_finish (idx : list Z) : K unit :=
  modvd (set_v_info_b (nth 0 idx 0) None);;
  free_chain (nth 0 idx 0);;
  release DiskLock.

Definition virtio_disk_rw (b : Z) (write : bool) : K unit :=
  blockno ← getb b b_blockno;
  let sector := u32 (blockno * (BSIZE / 512)) in
  acquire DiskLock;;
  idx ← rw_alloc wakeups;
  rw_submit b write sector idx;;
  rw_wait wakeups b;;
  rw_finish idx.

End requests.

(** ** The interrupt *)

(** The loop of [virtio_disk_intr]; [used_idx] counts modulo 2^16, so it
    meets [used->idx] within 2^16 rounds. *)
Fixpoint intr_loop (n : nat) : K unit :=
  used_idx ← getvd v_used_idx;
  used_head ← getvd v_used_head;
  if used_idx =? used_head then mret ()
  else
    match n with
    | O => out_of_fuel
    | S n' =>
        id ← getvd (fun v => v_used_ring v (used_idx mod NUM));
        status ← getvd (fun v => v_info_status v id);
        if negb (status =? 0) then panic "virtio_disk_intr status"
        else
          ob ← getvd (fun v => v_info_b v id);
          match ob with
          | None => panic "kerneltrap"
          | Some b =>
              setb b (set_b_disk 0);;
              wakeup (ChanBuf b);;
              modvd (fun v => set_v_used_idx (u16 (v_used_idx v + 1)) v);;
              intr_loop n'
          end
    end.

(** Writing a bit to [INTERRUPT_ACK] clears it in [INTERRUPT_STATUS]. *)
Definition virtio_disk_intr : K unit :=
  acquire DiskLock;;
  modvd (fun v => set_v_isr (Z.land (v_isr v) (Z.lnot (Z.land (v_isr v) 0x3))) v);;
  intr_loop (Z.to_nat (2 ^ 16));;
  release DiskLock.
