(* ===== verification/BioSpec.v ===== *)
(** * The buffer cache as a store of blocks

    [bstore] is what [bio.c] promises its clients: for every block its
    content, its number of users and its lock, the content of the disk, and
    how many buffers are left for blocks nobody uses. [bs_rel s A] says that
    the cache and the disk of [s] implement the store [A]; [bread], [bwrite],
    [brelse], [bpin] and [bunpin] each do one step of the store. The log and
    the file system are verified against this interface. *)

From S2P Require Import Prelude Riscv Monad State Kstring Printf Kalloc Vm Proc ProcInv Sleeplock Dlist Bio BioInv.
#[local] Open Scope Z_scope.

Record bstore := mkbstore {
  bs_view : Z -> list Z;
  bs_ref : Z -> Z;
  bs_lock : Z -> sleeplock;
  bs_disk : Z -> list Z;
  bs_free : Z
}.

Definition unlocked : sleeplock := mksleeplock 0 0.

Definition bs_set_view n d (A : bstore) := mkbstore (<[n := d]> (bs_view A)) (bs_ref A) (bs_lock A) (bs_disk A) (bs_free A).
Definition bs_set_lock n l (A : bstore) := mkbstore (bs_view A) (bs_ref A) (<[n := l]> (bs_lock A)) (bs_disk A) (bs_free A).
Definition bs_set_disk n d (A : bstore) := mkbstore (bs_view A) (bs_ref A) (bs_lock A) (<[n := d]> (bs_disk A)) (bs_free A).

Definition is0 (z : Z) : Z := if z =? 0 then 1 else 0.

(** A change of the number of users of a block frees a buffer or takes one. *)
Definition bs_set_ref n r (A : bstore) :=
  mkbstore (bs_view A) (<[n := r]> (bs_ref A)) (bs_lock A) (bs_disk A) (bs_free A + is0 r - is0 (bs_ref A n)).

Definition nfree (s : fssys) : Z :=
  Z.of_nat (length (filter (fun b => b_refcnt (fs_buf s b) = 0) (seqZ 0 NBUF))).

Lemma filter_length_at {P P' : Z -> Prop} `{forall z, Decision (P z), forall z, Decision (P' z)} (l : list Z) (b : Z) :
  NoDup l -> b ∈ l -> (forall c, c <> b -> P' c <-> P c) ->
  (length (filter P' l) + (if decide (P b) then 1 else 0) = length (filter P l) + (if decide (P' b) then 1 else 0))%nat.
Proof.
  intros Hnd Hb Hc. apply list_elem_of_split in Hb as (l1 & l2 & ->).
  apply NoDup_app in Hnd as (_ & H1 & [H2 _]%NoDup_cons).
  assert (forall l : list Z, b ∉ l -> filter P' l = filter P l) as Heq.
  { intros l Hl. induction l as [|c l IH]; [done|]. apply not_elem_of_cons in Hl as [Hcb Hl].
    rewrite !filter_cons, IH by done. destruct (decide (P' c)), (decide (P c)); naive_solver. }
  rewrite !filter_app, !filter_cons, !(Heq l1), !(Heq l2); [|done|intros Hin; apply (H1 b Hin); set_solver].
  rewrite !length_app. repeat case_decide; simpl; lia.
Qed.

Lemma filter_all {P : Z -> Prop} `{forall z, Decision (P z)} (l : list Z) : Forall P l -> filter P l = l.
Proof. induction 1 as [|z l Hz _ IH]; [done|]. by rewrite filter_cons, decide_True, IH. Qed.

Section spec.
Context {W : Wakeups} {D : Disk} {DOk : DiskOk D} (dev : Z) (Hdev : dev <> 0).

(** [b] holds block [n], for one user at least. *)
Definition bhandle (s : fssys) (n b : Z) : Prop :=
  caches s dev n b /\ truthy (b_valid (fs_buf s b)) = true /\ 1 <= b_refcnt (fs_buf s b).

Record bs_rel (s : fssys) (A : bstore) : Prop := {
  br_view n : bview s dev n = bs_view A n;
  br_cached n b : caches s dev n b -> b_refcnt (fs_buf s b) = bs_ref A n /\ b_lock (fs_buf s b) = bs_lock A n;
  br_uncached n : (forall b, ~ caches s dev n b) -> bs_ref A n = 0 /\ bs_lock A n = unlocked;
  br_quiet b : inb b -> b_refcnt (fs_buf s b) = 0 -> b_lock (fs_buf s b) = unlocked;
  br_disk n : fs_disk s n = bs_disk A n;
  br_free : nfree s = bs_free A;
  br_only b : inb b -> truthy (b_valid (fs_buf s b)) = true -> b_dev (fs_buf s b) = dev
}.

(** The state of the cache that the clients see. *)
Definition bcache (s : fssys) (A : bstore) : Prop := (exists lru, bcache_inv s lru) /\ bs_rel s A.

Lemma cores_at_buf s b x s' c :
  cores_at s b x s' -> bcore (fs_buf s' c) = bcore (if decide (c = b) then x else fs_buf s c).
Proof. intros (f & -> & Hb & Hc). simpl. case_decide; subst; auto. Qed.

Lemma cores_at_disk s b x s' : cores_at s b x s' -> fs_disk s' = fs_disk s.
Proof. by intros (f & -> & _). Qed.

Lemma nfree_at s b x s' :
  inb b -> cores_at s b x s' -> nfree s' = nfree s + is0 (b_refcnt x) - is0 (b_refcnt (fs_buf s b)).
Proof.
  intros Hb Hat. unfold nfree, is0.
  pose proof (filter_length_at (P := fun b => b_refcnt (fs_buf s b) = 0) (P' := fun b => b_refcnt (fs_buf s' b) = 0)
    (seqZ 0 NBUF) b (NoDup_seqZ _ _)) as Hlen.
  assert (forall c, b_refcnt (fs_buf s' c) = b_refcnt (if decide (c = b) then x else fs_buf s c)) as E.
  { intros c. pose proof (bcore_fields _ _ (cores_at_buf _ _ _ _ c Hat)). tauto. }
  specialize (Hlen (proj1 (inb_seqZ b) Hb)). cbv beta in Hlen. rewrite (E b), (decide_True (P := b = b)) in Hlen by done.
  assert (forall c, c <> b -> b_refcnt (fs_buf s' c) = 0 <-> b_refcnt (fs_buf s c) = 0) as Hc.
  { intros c Hne. by rewrite E, decide_False. }
  specialize (Hlen Hc). destruct (Z.eqb_spec (b_refcnt x) 0), (Z.eqb_spec (b_refcnt (fs_buf s b)) 0);
    repeat case_decide; try done; lia.
Qed.

Lemma nfree_exists s : 0 < nfree s -> exists c, inb c /\ b_refcnt (fs_buf s c) = 0.
Proof.
  unfold nfree. intros Hn. destruct (filter _ _) as [|c l] eqn:E; [simpl in Hn; lia|]. exists c.
  rewrite inb_seqZ. assert (c ∈ filter (fun b => b_refcnt (fs_buf s b) = 0) (seqZ 0 NBUF)) as Hc by (rewrite E; set_solver).
  apply list_elem_of_filter in Hc. tauto.
Qed.

Lemma caches_dec s n : (exists b, caches s dev n b) \/ (forall b, ~ caches s dev n b).
Proof.
  destruct (list_find (fun b => b_dev (fs_buf s b) = dev /\ b_blockno (fs_buf s b) = n) (seqZ 0 NBUF)) as [[i c]|] eqn:E.
  - apply list_find_Some in E as (Hi & Hc & _). left. exists c. split; [|done]. apply inb_seqZ. by eapply list_elem_of_lookup_2.
  - apply list_find_None in E. rewrite Forall_forall in E. right. intros b (Hb & Hd). apply (E b); [by apply inb_seqZ|done].
Qed.

Lemma cores_at_fields s b x s' c :
  cores_at s b x s' -> let y := if decide (c = b) then x else fs_buf s c in
  b_valid (fs_buf s' c) = b_valid y /\ b_dev (fs_buf s' c) = b_dev y /\ b_blockno (fs_buf s' c) = b_blockno y /\
  b_lock (fs_buf s' c) = b_lock y /\ b_refcnt (fs_buf s' c) = b_refcnt y /\ b_data (fs_buf s' c) = b_data y.
Proof. intros Hat y. pose proof (bcore_fields _ _ (cores_at_buf _ _ _ _ c Hat)) as H. fold y in H. tauto. Qed.

(** Stores that agree everywhere are the same. *)
Definition bs_eq (A B : bstore) : Prop :=
  (forall n, bs_view A n = bs_view B n) /\ (forall n, bs_ref A n = bs_ref B n) /\ (forall n, bs_lock A n = bs_lock B n) /\
  (forall n, bs_disk A n = bs_disk B n) /\ bs_free A = bs_free B.

Lemma bs_rel_ext s A B : bs_eq A B -> bs_rel s A -> bs_rel s B.
Proof.
  intros (H1 & H2 & H3 & H4 & H5) [Ha Hb Hc Hd He Hf Hg]. split.
  - intros n. by rewrite Ha.
  - intros n b. rewrite <- H2, <- H3. apply Hb.
  - intros n. rewrite <- H2, <- H3. apply Hc.
  - done.
  - intros n. by rewrite He.
  - by rewrite Hf.
  - done.
Qed.

(** A buffer changes its content, users or lock, not its block. *)
Lemma bs_rel_same s s' A b x n :
  bs_rel s A -> bufs_ok s -> bufs_ok s' -> cores_at s b x s' -> caches s dev n b ->
  truthy (b_valid x) = true -> b_dev x = dev -> b_blockno x = n -> (b_refcnt x = 0 -> b_lock x = unlocked) ->
  bs_rel s' (bs_set_ref n (b_refcnt x) (bs_set_lock n (b_lock x) (bs_set_view n (b_data x) A))).
Proof.
  intros [Ha Hb Hc Hd He Hf Hg] Hok Hok' Hat Hca Hv Hxd Hxn Hq. pose proof Hca as (Hin & Hbd & Hbn).
  pose proof (fun c => cores_at_fields s b x s' c Hat) as E. cbv zeta in E.
  assert (forall m c, caches s' dev m c <-> if decide (c = b) then m = n /\ c = b else caches s dev m c) as Hcs.
  { intros m c. unfold caches. destruct (E c) as (_ & -> & -> & _). case_decide; [subst c|done]. rewrite Hxd, Hxn. naive_solver. }
  assert (forall m c, caches s dev m c -> m <> n -> c <> b) as Hother.
  { intros m c (_ & _ & Hm) Hne ->. congruence. }
  split.
  - intros m. simpl. destruct (decide (m = n)) as [->|Hne].
    + rewrite fn_lookup_insert. rewrite (bview_cached s' dev n b Hok' Hdev);
        [destruct (E b) as (_ & _ & _ & _ & _ & ->); by rewrite decide_True|apply Hcs; by rewrite decide_True|].
      destruct (E b) as (-> & _). by rewrite decide_True.
    + rewrite fn_lookup_insert_ne, <- Ha by done. destruct (bview_cases s dev m) as [(c & Hcc & Hcv)|Hno].
      * pose proof (Hother m c Hcc Hne) as Hcb. rewrite (bview_cached s dev m c) by done.
        rewrite (bview_cached s' dev m c Hok' Hdev);
          [destruct (E c) as (_ & _ & _ & _ & _ & ->); by rewrite decide_False|apply Hcs; by rewrite decide_False|].
        destruct (E c) as (-> & _). by rewrite decide_False.
      * rewrite (bview_uncached s) by done. rewrite (bview_uncached s'); [by rewrite (cores_at_disk _ _ _ _ Hat)|].
        intros c Hcc. apply Hcs in Hcc. case_decide; [naive_solver|]. destruct (E c) as (-> & _). rewrite decide_False by done. by apply Hno.
  - intros m c Hcc. apply Hcs in Hcc. destruct (E c) as (_ & _ & _ & -> & -> & _). case_decide as Hcb; simpl.
    + destruct Hcc as [-> _]. by rewrite !fn_lookup_insert.
    + rewrite !fn_lookup_insert_ne; [by apply Hb| |]; intros <-; apply Hcb, (bo_uniq _ Hok);
        destruct Hcc as (? & ? & ?); congruence.
  - intros m Hno. simpl. assert (m <> n) by (intros ->; apply (Hno b), Hcs; by rewrite decide_True).
    rewrite !fn_lookup_insert_ne by done. apply Hc. intros c Hcc. apply (Hno c), Hcs.
    rewrite decide_False by (by eapply Hother). done.
  - intros c Hcin. destruct (E c) as (_ & _ & _ & -> & -> & _). case_decide; [done|by apply Hd].
  - intros m. by rewrite (cores_at_disk _ _ _ _ Hat).
  - rewrite (nfree_at s b x s' Hin Hat). simpl. rewrite Hf. f_equal. f_equal. by apply Hb.
  - intros c Hcin. destruct (E c) as (-> & -> & _). case_decide; [done|by apply Hg].
Qed.

(** A buffer nobody uses is taken for a block that is not in the cache. *)
Lemma bs_rel_take s s' A b x n :
  bs_rel s A -> cores_at s b x s' -> inb b -> b_refcnt (fs_buf s b) = 0 -> (forall c, ~ caches s dev n c) ->
  b_dev x = dev -> b_blockno x = n -> b_refcnt x = 1 -> (forall m, bview s' dev m = bview s dev m) ->
  bs_rel s' (bs_set_ref n 1 (bs_set_lock n (b_lock x) A)).
Proof.
  intros [Ha Hb Hc Hd He Hf Hg] Hat Hin Hr Hno Hxd Hxn Hxr Hview.
  pose proof (fun c => cores_at_fields s b x s' c Hat) as E. cbv zeta in E.
  assert (forall m c, caches s' dev m c <-> if decide (c = b) then m = n /\ c = b else caches s dev m c) as Hcs.
  { intros m c. unfold caches. destruct (E c) as (_ & -> & -> & _). case_decide; [subst c|done]. rewrite Hxd, Hxn. naive_solver. }
  split.
  - intros m. by rewrite Hview.
  - intros m c Hcc. apply Hcs in Hcc. destruct (E c) as (_ & _ & _ & -> & -> & _). case_decide; simpl.
    + destruct Hcc as [-> _]. by rewrite !fn_lookup_insert.
    + rewrite !fn_lookup_insert_ne; [by apply Hb| |]; intros <-; by apply (Hno c).
  - intros m Hm. simpl. assert (m <> n) by (intros ->; apply (Hm b), Hcs; by rewrite decide_True).
    rewrite !fn_lookup_insert_ne by done.
    destruct (decide (b_dev (fs_buf s b) = dev /\ b_blockno (fs_buf s b) = m)) as [[H1 H2]|Hnb].
    + destruct (Hb m b) as [<- <-]; [done|]. split; [done|by apply Hd].
    + apply Hc. intros c Hcc. destruct (decide (c = b)) as [->|Hcb]; [destruct Hcc; naive_solver|].
      apply (Hm c), Hcs. by rewrite decide_False.
  - intros c Hcin. destruct (E c) as (_ & _ & _ & -> & -> & _). case_decide; [lia|by apply Hd].
  - intros m. by rewrite (cores_at_disk _ _ _ _ Hat).
  - rewrite (nfree_at s b x s' Hin Hat), Hr, Hxr. simpl. rewrite Hf. destruct (Hc n Hno) as [-> _]. done.
  - intros c Hcin. destruct (E c) as (-> & -> & _). case_decide; [done|by apply Hg].
Qed.

(** Handles survive what happens to other blocks. *)
Definition handles_kept (s s' : fssys) (n : Z) : Prop :=
  forall m c, m <> n -> bhandle s m c -> bhandle s' m c.

Lemma handles_kept_at s b x s' n :
  cores_at s b x s' -> (caches s dev n b \/ b_refcnt (fs_buf s b) = 0) -> handles_kept s s' n.
Proof.
  intros Hat Hor m c Hm ((Hc & Hd & Hn) & Hv & Hr).
  assert (c <> b) as Hcb.
  { intros ->. destruct Hor as [(_ & _ & Hn')|Hr0]; [congruence|lia]. }
  pose proof (cores_at_fields s b x s' c Hat) as E. cbv zeta in E. rewrite decide_False in E by done.
  destruct E as (E1 & E2 & E3 & _ & E4 & _). unfold bhandle, caches. by rewrite E1, E2, E3, E4.
Qed.

Lemma bhandle_at s b x s' n :
  cores_at s b x s' -> inb b -> b_dev x = dev -> b_blockno x = n -> truthy (b_valid x) = true -> 1 <= b_refcnt x -> bhandle s' n b.
Proof.
  intros Hat Hb Hd Hn Hv Hr. pose proof (cores_at_fields s b x s' b Hat) as E. cbv zeta in E. rewrite decide_True in E by done.
  destruct E as (E1 & E2 & E3 & _ & E4 & _). unfold bhandle, caches. by rewrite E1, E2, E3, E4.
Qed.

(** Nothing but the buffers changes. *)
Definition only_bufs (s s' : fssys) : Prop := exists f, s' = fs_set_bufs f s.

#[export] Instance only_bufs_preorder : PreOrder only_bufs.
Proof.
  split; [intros s; exists (fs_buf s); by destruct s|]. intros s1 s2 s3 [f ->] [g ->]. by exists g.
Qed.

Lemma cores_only_bufs s b x s' : cores_at s b x s' -> only_bufs s s'.
Proof. intros (f & -> & _). by exists f. Qed.

Lemma bstore_bread s A n k p pid :
  bcache s A -> k_fs k = s -> k_held k = [] -> running k p pid ->
  bs_lock A n = unlocked -> bs_ref A n + 1 < 2^31 -> 0 < bs_ref A n \/ 0 < bs_free A ->
  exists b s', bread dev n k = Ret b (set_fs s' k) /\
    bcache s' (bs_set_ref n (bs_ref A n + 1) (bs_set_lock n (mksleeplock 1 pid) A)) /\
    bhandle s' n b /\ handles_kept s s' n /\ only_bufs s s'.
Proof.
  intros [[lru Hinv] Hrel] Hk Hh Hrun Hlk Hmax Hor. pose proof Hinv as [_ Hok].
  destruct (bread_spec s lru dev n k p pid) as (b & x & s' & Hrd & Hb & Hat & Hinv' & Hx & Hview); try done.
  { intros c Hc. destruct (br_cached _ _ Hrel n c Hc) as [-> ->]. by rewrite Hlk. }
  { destruct (decide (0 < bs_ref A n)) as [Hp|Hp].
    - left. destruct (caches_dec s n) as [Hc|Hc]; [done|]. apply (br_uncached _ _ Hrel) in Hc. lia.
    - right. apply nfree_exists. rewrite (br_free _ _ Hrel). lia. }
  exists b, s'. split; [done|]. destruct Hx as [Hxd Hxn Hxv Hxl Hxdata Hxr _ Hfrom]. pose proof (bo_ref _ Hok b Hb) as Href.
  apply bufs_cores_at in Hat. split_and!.
  - split; [by exists lru|]. destruct Hinv' as [_ Hok']. destruct Hfrom as [Hc|[Hr0 Hno]].
    + eapply bs_rel_ext; [|eapply (bs_rel_same s s' A b x n); try done; lia].
      destruct (br_cached _ _ Hrel n b Hc) as [Hrn Hln]. unfold bs_eq. simpl. rewrite Hxl, Hxr, Hrn. split_and!; try done.
      intros m. destruct (decide (m = n)) as [->|]; [|by rewrite fn_lookup_insert_ne].
      rewrite fn_lookup_insert, Hxdata. apply (br_view _ _ Hrel).
    + destruct (br_uncached _ _ Hrel n Hno) as [-> _]. rewrite <- Hxl.
      eapply (bs_rel_take s s' A b x n); try done. lia.
  - eapply bhandle_at; [exact Hat|..]; try done. lia.
  - eapply handles_kept_at; [exact Hat|]. naive_solver.
  - by eapply cores_only_bufs.
Qed.

Lemma bhandle_data s A n b : bcache s A -> bhandle s n b -> b_data (fs_buf s b) = bs_view A n.
Proof.
  intros [[lru [_ Hok]] Hrel] (Hc & Hv & _). rewrite <- (br_view _ _ Hrel). symmetry. by apply bview_cached.
Qed.

Lemma bhandle_lock s A n b : bcache s A -> bhandle s n b -> b_lock (fs_buf s b) = bs_lock A n /\ b_refcnt (fs_buf s b) = bs_ref A n.
Proof. intros [_ Hrel] (Hc & _ & _). by destruct (br_cached _ _ Hrel n b Hc). Qed.

(** A change of a used buffer that keeps its block. *)
Lemma bstore_upd s A n b x g :
  bcache s A -> bhandle s n b -> x = g (fs_buf s b) -> b_valid x = b_valid (fs_buf s b) -> b_dev x = b_dev (fs_buf s b) ->
  b_blockno x = b_blockno (fs_buf s b) -> b_lock x = b_lock (fs_buf s b) -> b_prev x = b_prev (fs_buf s b) ->
  b_next x = b_next (fs_buf s b) -> 1 <= b_refcnt x < 2^31 ->
  bcache (fs_upd_buf b g s) (bs_set_ref n (b_refcnt x) (bs_set_view n (b_data x) A)) /\
  bhandle (fs_upd_buf b g s) n b /\ handles_kept s (fs_upd_buf b g s) n /\ only_bufs s (fs_upd_buf b g s).
Proof.
  intros Hbc Hhd Hxg Hxv Hxd Hxn Hxl Hxp Hxnx Hxr. pose proof Hbc as [[lru [Hl Hok]] Hrel]. pose proof Hhd as ((Hb & Hd & Hn) & Hv & Hr).
  assert (bufs_at s b x (fs_upd_buf b g s)) as Hat by (rewrite Hxg; apply bufs_at_upd, bufs_at_refl).
  assert (bufs_ok (fs_upd_buf b g s)) as Hok'.
  { eapply bufs_ok_at; [exact Hok|exact Hb|exact Hat|..]; try lia; [|congruence].
    intros c Hc Hne Hx Hd' Hn'. apply Hne, (bo_uniq _ Hok); congruence. }
  pose proof (bufs_cores_at _ _ _ _ Hat) as Hcat. split_and!.
  - split; [exists lru; split; [by eapply lru_list_at|done]|].
    eapply bs_rel_ext; [|eapply (bs_rel_same s _ A b x n); try done; try congruence; lia].
    destruct (bhandle_lock s A n b Hbc Hhd) as [Hlk _]. unfold bs_eq. simpl. split_and!; try done.
    intros m. rewrite Hxl, Hlk. destruct (decide (m = n)) as [->|]; [by rewrite fn_lookup_insert|by rewrite fn_lookup_insert_ne].
  - eapply bhandle_at; [exact Hcat|..]; congruence || lia.
  - eapply handles_kept_at; [exact Hcat|by left].
  - by eapply cores_only_bufs.
Qed.

Lemma bs_free_same A n : bs_free (bs_set_ref n (bs_ref A n) A) = bs_free A.
Proof. simpl. lia. Qed.

Lemma bs_set_ref_same A n r : r = bs_ref A n -> bs_eq (bs_set_ref n r A) A.
Proof.
  intros ->. unfold bs_eq. simpl. split_and!; try done; [|lia].
  intros m. destruct (decide (m = n)) as [->|]; [by rewrite fn_lookup_insert|by rewrite fn_lookup_insert_ne].
Qed.

(** Storing into a locked buffer. *)
Lemma bstore_setdata s A n b d k :
  bcache s A -> k_fs k = s -> bhandle s n b ->
  exists s', setb b (set_b_data d) k = Ret () (set_fs s' k) /\ bcache s' (bs_set_view n d A) /\
    bhandle s' n b /\ handles_kept s s' n /\ only_bufs s s'.
Proof.
  intros Hbc Hk Hhd. exists (fs_upd_buf b (set_b_data d) s). split; [by rewrite setb_eq, Hk|].
  destruct (bhandle_lock _ _ _ _ Hbc Hhd) as [_ Hrf]. pose proof Hhd as ((Hb & _) & _ & Hr).
  pose proof Hbc as [[lru [_ Hok]] _]. pose proof (bo_ref _ Hok b Hb).
  destruct (bstore_upd s A n b (set_b_data d (fs_buf s b)) (set_b_data d)) as ([Hi Hrel] & H1 & H2); try done.
  { simpl. lia. }
  split; [|by split]. split; [done|]. eapply bs_rel_ext; [|exact Hrel]. simpl. rewrite Hrf. by apply bs_set_ref_same.
Qed.

(** The states [bwrite] and [log.c] change besides the buffers. *)
Definition same_bufs (s s' : fssys) : Prop := forall b, fs_buf s' b = fs_buf s b.

Lemma bhandle_same_bufs s s' n b : same_bufs s s' -> bhandle s n b -> bhandle s' n b.
Proof. intros E. unfold bhandle, caches. by rewrite E. Qed.

Lemma bstore_bwrite s A n b k p pid :
  bcache s A -> k_fs k = s -> k_held k = [] -> running k p pid -> bhandle s n b -> bs_lock A n = mksleeplock 1 pid ->
  bwrite b k = Ret () (set_fs (fs_write_block n (bs_view A n) s) k) /\
  bcache (fs_write_block n (bs_view A n) s) (bs_set_disk n (bs_view A n) A).
Proof.
  intros Hbc Hk Hh Hrun Hhd Hlk. pose proof Hbc as [[lru [Hl Hok]] Hrel]. pose proof Hhd as ((Hb & Hd & Hn) & Hv & Hr).
  destruct (bhandle_lock _ _ _ _ Hbc Hhd) as [Hblk _]. pose proof (bhandle_data _ _ _ _ Hbc Hhd) as Hdata. split.
  { erewrite (bwrite_spec s b _ k p pid); [|done..|by rewrite Hblk]. by rewrite Hn, Hdata. }
  set (s' := fs_write_block n (bs_view A n) s).
  assert (bufs_ok s') as Hok'.
  { destruct Hok as [Hu Hrf Hc Hf Hval]. split; try done. intros c Hcb Hcv Hcr. simpl.
    change (fs_buf s' c) with (fs_buf s c) in *. destruct (decide (b_blockno (fs_buf s c) = n)) as [E|E].
    - rewrite E, fn_lookup_insert. rewrite (Hu b c) in Hr; [lia|done|done|congruence| |congruence].
      rewrite (br_only _ _ Hrel c) by done. done.
    - rewrite fn_lookup_insert_ne by done. by apply Hc. }
  split; [exists lru; split; [exact Hl|done]|]. destruct Hrel as [Ha Hb' Hc Hd' He Hf Hg]. split; try done.
  - intros m. simpl. rewrite <- Ha. destruct (bview_cases s dev m) as [(c & Hcc & Hcv)|Hno].
    + rewrite (bview_cached s dev m c) by done. by rewrite (bview_cached s' dev m c).
    + rewrite (bview_uncached s), (bview_uncached s') by done. simpl. apply fn_lookup_insert_ne.
      intros <-. rewrite (Hno b) in Hv; done.
  - intros m. simpl. destruct (decide (m = n)) as [->|]; [by rewrite !fn_lookup_insert|by rewrite !fn_lookup_insert_ne].
Qed.

Lemma bstore_brelse s A n b k p pid :
  bcache s A -> k_fs k = s -> k_held k = [] -> running k p pid -> bhandle s n b -> bs_lock A n = mksleeplock 1 pid ->
  (bs_ref A n = 1 -> bs_view A n = bs_disk A n) ->
  exists ps' s', brelse b k = Ret () (set_fs s' (set_ps ps' k)) /\ ps_woke (k_ps k) ps' /\
    bcache s' (bs_set_ref n (bs_ref A n - 1) (bs_set_lock n unlocked A)) /\
    (1 < bs_ref A n -> bhandle s' n b) /\ handles_kept s s' n /\ only_bufs s s'.
Proof.
  intros Hbc Hk Hh Hrun Hhd Hlk Hclean. pose proof Hbc as [[lru Hinv] Hrel]. pose proof Hhd as (Hca & Hv & Hr).
  pose proof Hca as (Hb & Hd & Hn). pose proof (bhandle_data _ _ _ _ Hbc Hhd) as Hdata.
  destruct (bhandle_lock _ _ _ _ Hbc Hhd) as [Hblk Href].
  destruct (brelse_spec s lru b (fs_buf s b) k p pid) as (ps' & s' & lru' & Hrun' & Hw & Hinv' & Hat); try done.
  { by rewrite Hblk. }
  { intros H1. rewrite Hdata, Hn, (br_disk _ _ Hrel). apply Hclean. lia. }
  exists ps', s'. split_and!; [done|done| | | |].
  - split; [by exists lru'|]. destruct Hinv as [_ Hok], Hinv' as [_ Hok'].
    eapply bs_rel_ext; [|eapply (bs_rel_same s s' A b _ n Hrel Hok Hok' Hat); try done].
    unfold bs_eq. simpl. rewrite Href. split_and!; try done.
    intros m. destruct (decide (m = n)) as [->|]; [|by rewrite fn_lookup_insert_ne]. by rewrite fn_lookup_insert, Hdata.
  - intros H1. eapply bhandle_at; [exact Hat|..]; simpl; try done. lia.
  - eapply handles_kept_at; [exact Hat|by left].
  - by eapply cores_only_bufs.
Qed.

Lemma bstore_setref s A n b r k :
  bcache s A -> k_fs k = s -> bhandle s n b -> 1 <= r < 2^31 ->
  bcache (fs_upd_buf b (fun x => set_b_refcnt r x) s) (bs_set_ref n r A) /\
  bhandle (fs_upd_buf b (fun x => set_b_refcnt r x) s) n b /\
  handles_kept s (fs_upd_buf b (fun x => set_b_refcnt r x) s) n.
Proof.
  intros Hbc Hk Hhd Hr.
  destruct (bstore_upd s A n b (set_b_refcnt r (fs_buf s b)) (fun x => set_b_refcnt r x)) as ([Hi Hrel] & H1 & H2 & _); try done.
  split; [|done]. split; [done|]. eapply bs_rel_ext; [|exact Hrel]. simpl. rewrite (bhandle_data _ _ _ _ Hbc Hhd).
  unfold bs_eq. simpl. split_and!; try done.
  intros m. destruct (decide (m = n)) as [->|]; [by rewrite fn_lookup_insert|by rewrite fn_lookup_insert_ne].
Qed.

Lemma fs_upd_buf_ext b f g s : f (fs_buf s b) = g (fs_buf s b) -> fs_upd_buf b f s = fs_upd_buf b g s.
Proof. unfold fs_upd_buf. by intros ->. Qed.

Lemma bstore_bpin s A n b k :
  bcache s A -> k_fs k = s -> BcacheLock ∉ k_held k -> bhandle s n b -> bs_ref A n + 1 < 2^31 ->
  exists s', bpin b k = Ret () (set_fs s' k) /\ bcache s' (bs_set_ref n (bs_ref A n + 1) A) /\
    bhandle s' n b /\ handles_kept s s' n /\ only_bufs s s'.
Proof.
  intros Hbc Hk Hlk Hhd Hr. destruct (bhandle_lock _ _ _ _ Hbc Hhd) as [_ Href]. pose proof Hhd as (_ & _ & H1).
  eexists. split.
  - unfold bpin. kcall acquire_eq. erewrite bind_eq by apply setb_eq. ksimp.
    rewrite (release_eq _ (k_held k)) by done. ksimp. rewrite Hk.
    rewrite (fs_upd_buf_ext _ _ (fun x => set_b_refcnt (bs_ref A n + 1) x)) by (cbv beta; rewrite Href, u32_small by lia; done).
    reflexivity.
  - destruct (bstore_setref s A n b (bs_ref A n + 1) k) as (Hbc' & Hh' & Hkp); try done; [lia|].
    split_and!; [done..|]. by eexists.
Qed.

Lemma bstore_bunpin s A n b k :
  bcache s A -> k_fs k = s -> BcacheLock ∉ k_held k -> bhandle s n b -> 1 < bs_ref A n ->
  exists s', bunpin b k = Ret () (set_fs s' k) /\ bcache s' (bs_set_ref n (bs_ref A n - 1) A) /\
    bhandle s' n b /\ handles_kept s s' n /\ only_bufs s s'.
Proof.
  intros Hbc Hk Hlk Hhd Hr. destruct (bhandle_lock _ _ _ _ Hbc Hhd) as [_ Href]. pose proof Hhd as ((Hb & _) & _ & H1).
  pose proof Hbc as [[lru [_ Hok]] _]. pose proof (bo_ref _ Hok b Hb) as Hmax.
  eexists. split.
  - unfold bunpin. kcall acquire_eq. erewrite bind_eq by apply setb_eq. ksimp.
    rewrite (release_eq _ (k_held k)) by done. ksimp. rewrite Hk.
    rewrite (fs_upd_buf_ext _ _ (fun x => set_b_refcnt (bs_ref A n - 1) x)) by (cbv beta; rewrite Href, u32_small by lia; done).
    reflexivity.
  - destruct (bstore_setref s A n b (bs_ref A n - 1) k) as (Hbc' & Hh' & Hkp); try done; [lia|].
    split_and!; [done..|]. by eexists.
Qed.

End spec.

(** ** Boot *)

#[local] Opaque setb.

Lemma initsleeplock_buf b k : initsleeplock (BufSL b) k = Ret () (set_fs (fs_upd_buf b (set_b_lock unlocked) (k_fs k)) k).
Proof. done. Qed.

Lemma nxf_set_lock j x s i : nxf (fs_upd_buf j (set_b_lock x) s) i = nxf s i.
Proof. unfold nxf. rewrite fs_buf_upd. case_decide; by subst. Qed.
Lemma pvf_set_lock j x s i : pvf (fs_upd_buf j (set_b_lock x) s) i = pvf s i.
Proof. unfold pvf. rewrite fs_buf_upd. case_decide; by subst. Qed.

Lemma bcore_set_lock j x s i :
  bcore (fs_buf (fs_upd_buf j (set_b_lock x) s) i) = if decide (i = j) then bcore (set_b_lock x (fs_buf s i)) else bcore (fs_buf s i).
Proof. rewrite fs_buf_upd. case_decide; by subst. Qed.

(** One iteration of [binit]'s loop. *)
Lemma binit_step b l n k :
  let s := k_fs k in
  dseg (nxf s) (pvf s) HEAD l HEAD -> b ∉ HEAD :: l -> NoDup (HEAD :: l) ->
  exists s', binit_loop (S n) b k = binit_loop n (b + 1) (set_fs s' k) /\ only_bufs s s' /\
    dseg (nxf s') (pvf s') HEAD (b :: l) HEAD /\
    (forall i, bcore (fs_buf s' i) = if decide (i = b) then bcore (set_b_lock unlocked (fs_buf s i)) else bcore (fs_buf s i)).
Proof.
  intros s Hs Hb Hnd. apply not_elem_of_cons in Hb as [Hbh Hbl]. apply NoDup_cons in Hnd as [Hhl Hnd].
  cbn [binit_loop]. kpure. fold s. fold (nxf s HEAD).
  erewrite bind_eq by apply setb_eq. erewrite bind_eq by apply setb_eq. erewrite bind_eq by apply initsleeplock_buf. ksimp. fold s.
  set (s3 := fs_upd_buf b (set_b_lock unlocked) _). kpure. ksimp. fold (nxf s3 HEAD).
  assert (nxf s3 HEAD = nxf s HEAD) as ->.
  { unfold s3. rewrite nxf_set_lock, nxf_set_prev, nxf_set_next. by rewrite decide_False. }
  erewrite bind_eq by apply setb_eq. erewrite bind_eq by apply setb_eq. ksimp.
  eexists. split; [reflexivity|]. split; [unfold s3; by eexists|]. split.
  - eapply dseg_ext; [| |eapply (dseg_insert _ _ HEAD l HEAD b (nxf s HEAD) Hs)].
    + intros i _. rewrite nxf_set_next, nxf_set_prev, !fn_insert_case. unfold s3.
      by rewrite nxf_set_lock, nxf_set_prev, nxf_set_next.
    + intros i _. rewrite pvf_set_next, pvf_set_prev, !fn_insert_case. unfold s3.
      by rewrite pvf_set_lock, pvf_set_prev, pvf_set_next.
    + by apply not_elem_of_cons.
    + done.
    + by apply NoDup_cons.
    + by apply NoDup_snoc_intro.
    + by apply (dseg_head _ _ _ _ _ Hs).
  - intros i. rewrite bcore_set_next, bcore_set_prev. unfold s3. rewrite bcore_set_lock.
    case_decide; [subst i|by rewrite bcore_set_prev, bcore_set_next].
    rewrite !fs_buf_upd, !decide_True by done. done.
Qed.

Lemma binit_loop_spec n b l k :
  let s := k_fs k in
  0 <= b -> b + Z.of_nat n <= NBUF -> dseg (nxf s) (pvf s) HEAD l HEAD -> l ≡ₚ seqZ 0 b ->
  exists s' l', binit_loop n b k = Ret () (set_fs s' k) /\ only_bufs s s' /\
    dseg (nxf s') (pvf s') HEAD l' HEAD /\ l' ≡ₚ seqZ 0 (b + Z.of_nat n) /\
    (forall i, bcore (fs_buf s' i) = if decide (b <= i < b + Z.of_nat n) then bcore (set_b_lock unlocked (fs_buf s i)) else bcore (fs_buf s i)).
Proof.
  revert b l k. induction n as [|n IH]; intros b l k s Hb Hn Hs Hl.
  { exists s, l. split_and!; [by destruct k|done|done|by rewrite Z.add_0_r|]. intros i. by rewrite decide_False by lia. }
  destruct (binit_step b l n k) as (s1 & Hrun & Hob & Hs1 & Hc1); [done|..].
  { unfold HEAD in *. apply not_elem_of_cons. split; [lia|]. rewrite Hl, elem_of_seqZ. lia. }
  { apply NoDup_cons. split; [rewrite Hl, elem_of_seqZ; unfold HEAD; lia|]. rewrite Hl. apply NoDup_seqZ. }
  destruct (IH (b + 1) (b :: l) (set_fs s1 k)) as (s2 & l2 & Hrun2 & Hob2 & Hs2 & Hl2 & Hc2); ksimp; [lia|lia|exact Hs1| |].
  { rewrite Hl, seqZ_app, Permutation_cons_append by lia. by rewrite Z.add_0_l. }
  exists s2, l2. rewrite Hrun, Hrun2. ksimp. split_and!; [done|by etransitivity|done|rewrite Hl2; f_equiv; lia|].
  intros i. rewrite Hc2. ksimp.
  destruct (decide (i = b)) as [->|Hne]; [rewrite decide_False by lia; rewrite Hc1, !decide_True by lia; done|].
  assert (bcore (fs_buf s1 i) = bcore (fs_buf s i)) as Hc by (by rewrite Hc1, decide_False).
  assert (bcore (set_b_lock unlocked (fs_buf s1 i)) = bcore (set_b_lock unlocked (fs_buf s i))) as Hc'.
  { apply bcore_fields in Hc as (E1 & E2 & E3 & E4 & E5 & E6 & E7). unfold bcore, set_b_lock, set_b_prev, set_b_next. simpl. congruence. }
  repeat case_decide; try lia; done.
Qed.

(** The cache after [binit]: nothing is cached. *)
Definition cold (s : fssys) : Prop :=
  (exists lru, bcache_inv s lru) /\
  (forall b, inb b -> b_valid (fs_buf s b) = 0 /\ b_dev (fs_buf s b) = 0 /\ b_refcnt (fs_buf s b) = 0 /\ b_lock (fs_buf s b) = unlocked).

Definition cold_store (d : Z -> list Z) : bstore := mkbstore d (fun _ => 0) (fun _ => unlocked) d NBUF.

Lemma cold_bcache dev s : dev <> 0 -> cold s -> bcache dev s (cold_store (fs_disk s)).
Proof.
  intros Hdev [Hinv Hc]. split; [done|].
  assert (forall n b, ~ caches s dev n b) as Hno.
  { intros n b (Hb & Hd & _). destruct (Hc b Hb) as (_ & Hd' & _). congruence. }
  split; simpl.
  - intros n. apply bview_uncached. intros b Hb. by destruct (Hno n b).
  - intros n b Hb. by destruct (Hno n b).
  - done.
  - intros b Hb _. by destruct (Hc b Hb) as (_ & _ & _ & ?).
  - done.
  - unfold nfree. rewrite filter_all; [by rewrite length_seqZ|].
    apply Forall_forall. intros b Hb%inb_seqZ. by destruct (Hc b Hb) as (_ & _ & ? & _).
  - intros b Hb. destruct (Hc b Hb) as (-> & _). done.
Qed.

(** [binit], from the zeroed memory the kernel starts with, links every buffer
    into the list once and leaves a cache in which nothing is cached. *)
Lemma binit_cold k :
  (forall b, inb b -> b_valid (fs_buf (k_fs k) b) = 0 /\ b_dev (fs_buf (k_fs k) b) = 0 /\ b_refcnt (fs_buf (k_fs k) b) = 0) ->
  exists s', binit k = Ret () (set_fs s' k) /\ cold s' /\ only_bufs (k_fs k) s'.
Proof.
  intros Hz. unfold binit. erewrite bind_eq by apply setb_eq. erewrite bind_eq by apply setb_eq. ksimp.
  set (s1 := fs_upd_buf HEAD _ _).
  destruct (binit_loop_spec (Z.to_nat NBUF) 0 [] (set_fs s1 k)) as (s2 & l & Hrun & [f Hf] & Hs & Hl & Hc); ksimp; [done|done| |done|].
  { unfold s1. split; [by rewrite nxf_set_next, decide_True|by rewrite pvf_set_next, pvf_set_prev, decide_True]. }
  exists s2. split; [exact Hrun|]. split; [|by exists f].
  assert (forall b, inb b -> b_valid (fs_buf s2 b) = 0 /\ b_dev (fs_buf s2 b) = 0 /\ b_refcnt (fs_buf s2 b) = 0 /\ b_lock (fs_buf s2 b) = unlocked) as Hz2.
  { intros b Hb. specialize (Hc b). unfold inb in Hb. rewrite decide_True in Hc by lia.
    apply bcore_fields in Hc as (-> & _ & -> & _ & -> & -> & _). unfold s1. ksimp. rewrite !fs_buf_upd.
    rewrite !decide_False by (unfold HEAD; lia). simpl. split_and!; by destruct (Hz b Hb) as (? & ? & ?). }
  split; [|done]. exists l. split; [split; [exact Hs|exact Hl]|]. split.
  - intros b c Hb Hc' Hd. destruct Hd. apply (Hz2 b Hb).
  - intros b Hb. destruct (Hz2 b Hb) as (_ & _ & -> & _). lia.
  - intros b Hb Hv. destruct (Hz2 b Hb) as (E & _). rewrite E in Hv. discriminate Hv.
  - intros b Hb _. destruct (Hz2 b Hb) as (_ & _ & _ & ->). reflexivity.
  - intros b Hb Hd. destruct Hd. apply (Hz2 b Hb).
Qed.
