(* ===== verification/BioClient.v ===== *)
(** * Running against the block store

    [at_k] collects what a client of the buffer cache knows while it runs: the
    store the cache implements, the handles of the buffers the client holds,
    the disk writes made so far and the in-memory log. The lemmas give the
    effect of every operation of [bio.c] on it, as a triple. *)

From S2P Require Import Prelude Riscv Monad State Kstring Printf Kalloc Vm Proc ProcInv Sleeplock Dlist Bio BioInv BioSpec.
#[local] Open Scope Z_scope.

#[local] Opaque acquire release bread bwrite brelse bpin bunpin setb.

(** Only the buffers, the disk, the log and the process table's sleepers
    change. *)
Definition blk_frame (k0 k : kernel) : Prop :=
  exists s ps, k = set_fs s (set_ps ps k0) /\ ps_woke (k_ps k0) ps /\
    fs_sb s = fs_sb (k_fs k0) /\ fs_inode s = fs_inode (k_fs k0) /\ fs_file s = fs_file (k_fs k0) /\ fs_pipe s = fs_pipe (k_fs k0).

#[export] Instance blk_frame_preorder : PreOrder blk_frame.
Proof.
  split.
  - intros k. exists (k_fs k), (k_ps k). by destruct k.
  - intros k1 k2 k3 (s1 & ps1 & -> & Hw1 & H1) (s2 & ps2 & -> & Hw2 & H2). exists s2, ps2. ksimp.
    split; [done|].
    split; [by etransitivity|]. destruct H2 as (-> & -> & -> & ->). exact H1.
Qed.

Lemma blk_frame_fs k s :
  fs_sb s = fs_sb (k_fs k) -> fs_inode s = fs_inode (k_fs k) -> fs_file s = fs_file (k_fs k) -> fs_pipe s = fs_pipe (k_fs k) ->
  blk_frame k (set_fs s k).
Proof. intros. exists s, (k_ps k). by destruct k. Qed.

Section client.
Context {W : Wakeups} {D : Disk} {DOk : DiskOk D} (dev : Z) (Hdev : dev <> 0) (p pid : Z) (k0 : kernel).

Record at_k (lg : log) (w : list (Z * list Z)) (A : bstore) (H : list (Z * Z)) (k : kernel) : Prop := {
  ak_cache : bcache dev (k_fs k) A;
  ak_log : fs_log (k_fs k) = lg;
  ak_writes : fs_writes (k_fs k) = w;
  ak_held : k_held k = [];
  ak_run : running k p pid;
  ak_hd n b : (n, b) ∈ H -> bhandle dev (k_fs k) n b;
  ak_frame : blk_frame k0 k
}.

Lemma at_k_ext lg w A B H k : bs_eq A B -> at_k lg w A H k -> at_k lg w B H k.
Proof. intros E [[Hi Hr] H2 H3 H4 H5 H6 H7]. split; try done. split; [done|]. by eapply bs_rel_ext. Qed.

Lemma at_k_handles lg w A H H' k : (forall x, x ∈ H' -> x ∈ H) -> at_k lg w A H k -> at_k lg w A H' k.
Proof. intros E [H1 H2 H3 H4 H5 H6 H7]. split; try done. intros n b Hin. by apply H6, E. Qed.

Lemma only_bufs_frame k s' : only_bufs (k_fs k) s' ->
  fs_log s' = fs_log (k_fs k) /\ fs_writes s' = fs_writes (k_fs k) /\ blk_frame k (set_fs s' k).
Proof. intros [f ->]. split_and!; [done|done|]. by apply blk_frame_fs. Qed.

(** A step that changes the buffers only. *)
Lemma at_k_bufs lg w A B H H' k s' n :
  at_k lg w A H k -> bcache dev s' B -> only_bufs (k_fs k) s' -> handles_kept dev (k_fs k) s' n ->
  (forall m b, (m, b) ∈ H' -> ((m, b) ∈ H /\ m <> n) \/ bhandle dev s' m b) ->
  at_k lg w B H' (set_fs s' k).
Proof.
  intros [H1 H2 H3 H4 H5 H6 H7] Hbc Hob Hkp HH. destruct (only_bufs_frame _ _ Hob) as (El & Ew & Hf). split; ksimp.
  - done.
  - congruence.
  - congruence.
  - done.
  - exact H5.
  - intros m b [[Hin Hm]|Hb]%HH; [|done]. apply Hkp; auto.
  - by etransitivity.
Qed.

Lemma at_k_bread lg w A H k n :
  at_k lg w A H k -> n ∉ H.*1 -> bs_lock A n = unlocked -> bs_ref A n + 1 < 2^31 -> 0 < bs_ref A n \/ 0 < bs_free A ->
  wp (bread dev n) (fun b => at_k lg w (bs_set_ref n (bs_ref A n + 1) (bs_set_lock n (mksleeplock 1 pid) A)) ((n, b) :: H)) k.
Proof.
  intros Hat Hn Hlk Hmax Hor. pose proof Hat as [H1 H2 H3 H4 H5 H6 H7].
  destruct (bstore_bread dev Hdev (k_fs k) A n k p pid) as (b & s' & Hrun & Hbc & Hhd & Hkp & Hob); try done.
  eapply wp_eq; [exact Hrun|]. eapply at_k_bufs; [exact Hat|done|done|done|].
  intros m c [E|Hin]%elem_of_cons; [simplify_eq; by right|]. left. split; [done|].
  intros ->. apply Hn, list_elem_of_fmap. by exists (n, c).
Qed.

Lemma at_k_data lg w A H k n b : at_k lg w A H k -> (n, b) ∈ H -> getb b b_data k = Ret (bs_view A n) k.
Proof.
  intros Hat Hin. unfold getb, gets. f_equal.
  eapply bhandle_data; [done|apply (ak_cache _ _ _ _ _ Hat)|by apply (ak_hd _ _ _ _ _ Hat)].
Qed.

Lemma at_k_setdata lg w A H k n b g :
  at_k lg w A H k -> (n, b) ∈ H ->
  wp (setb b (fun x => set_b_data (g (b_data x)) x)) (fun _ => at_k lg w (bs_set_view n (g (bs_view A n)) A) H) k.
Proof.
  intros Hat Hin. pose proof Hat as [H1 H2 H3 H4 H5 H6 H7].
  destruct (bstore_setdata dev Hdev (k_fs k) A n b (g (bs_view A n)) k) as (s' & Hrun & Hbc & Hhd & Hkp & Hob); auto.
  assert (setb b (fun x => set_b_data (g (b_data x)) x) k = Ret () (set_fs s' k)) as Hrun'.
  { rewrite <- Hrun, !setb_eq. by rewrite (fs_upd_buf_ext _ _ (set_b_data (g (bs_view A n))))
      by (cbv beta; erewrite <- bhandle_data by eauto; done). }
  eapply wp_eq; [exact Hrun'|]. eapply at_k_bufs; [exact Hat|done|done|done|].
  intros m c Hin'. destruct (decide (m = n)) as [->|]; [|by left]. right.
  destruct (H6 _ _ Hin) as ((Hb1 & Hb2 & Hb3) & _), (H6 _ _ Hin') as ((Hc1 & Hc2 & Hc3) & _).
  pose proof H1 as [[lru [_ Hok]] _]. by rewrite (bo_uniq _ Hok c b) by congruence.
Qed.

Lemma at_k_bwrite lg w A H k n b :
  at_k lg w A H k -> (n, b) ∈ H -> bs_lock A n = mksleeplock 1 pid ->
  wp (bwrite b) (fun _ => at_k lg (w ++ [(n, bs_view A n)]) (bs_set_disk n (bs_view A n) A) H) k.
Proof.
  intros Hat Hin Hlk. pose proof Hat as [H1 H2 H3 H4 H5 H6 H7].
  destruct (bstore_bwrite dev Hdev (k_fs k) A n b k p pid) as (Hrun & Hbc); auto.
  eapply wp_eq; [exact Hrun|]. split; ksimp; try done.
  - by rewrite <- H3.
  - etransitivity; [done|]. by apply blk_frame_fs.
Qed.

Lemma running_woke k k' ps : running k p pid -> ps_woke (k_ps k) ps -> k_ps k' = ps -> running k' p pid.
Proof. intros [Hc Hp] Hw <-. destruct (ps_woke_cur _ _ _ Hw Hc) as [H1 H2]. split; congruence. Qed.

Lemma at_k_brelse lg w A H H' k n b :
  at_k lg w A H k -> (n, b) ∈ H -> bs_lock A n = mksleeplock 1 pid -> (bs_ref A n = 1 -> bs_view A n = bs_disk A n) ->
  (forall x, x ∈ H' -> x ∈ H /\ x.1 <> n) ->
  wp (brelse b) (fun _ => at_k lg w (bs_set_ref n (bs_ref A n - 1) (bs_set_lock n unlocked A)) H') k.
Proof.
  intros Hat Hin Hlk Hcl HH. pose proof Hat as [H1 H2 H3 H4 H5 H6 H7].
  destruct (bstore_brelse dev Hdev (k_fs k) A n b k p pid) as (ps' & s' & Hrun & Hw & Hbc & _ & Hkp & Hob); auto.
  eapply wp_eq; [exact Hrun|]. destruct Hob as [f ->]. split; ksimp; try done.
  - by eapply (running_woke k).
  - intros m c Hin'. destruct (HH _ Hin') as [Hin1 Hm]. apply Hkp; auto.
  - etransitivity; [done|]. by exists (fs_set_bufs f (k_fs k)), ps'.
Qed.

Lemma at_k_bunpin lg w A H k n b :
  at_k lg w A H k -> (n, b) ∈ H -> 1 < bs_ref A n ->
  wp (bunpin b) (fun _ => at_k lg w (bs_set_ref n (bs_ref A n - 1) A) H) k.
Proof.
  intros Hat Hin Hr. pose proof Hat as [H1 H2 H3 H4 H5 H6 H7].
  destruct (bstore_bunpin dev Hdev (k_fs k) A n b k) as (s' & Hrun & Hbc & Hhd & Hkp & Hob); auto.
  { rewrite H4. apply not_elem_of_nil. }
  eapply wp_eq; [exact Hrun|]. eapply at_k_bufs; [exact Hat|done|done|done|].
  intros m c Hin'. destruct (decide (m = n)) as [->|]; [|by left]. right.
  destruct (H6 _ _ Hin) as ((Hb1 & Hb2 & Hb3) & _), (H6 _ _ Hin') as ((Hc1 & Hc2 & Hc3) & _).
  pose proof H1 as [[lru [_ Hok]] _]. by rewrite (bo_uniq _ Hok c b) by congruence.
Qed.

(** A block nobody uses is the same in the cache and on the disk. *)
Lemma at_k_clean lg w A H k n : at_k lg w A H k -> bs_ref A n = 0 -> bs_view A n = bs_disk A n.
Proof.
  intros [[[lru [_ Hok]] Hrel] _ _ _ _ _ _] Hr. rewrite <- (br_view _ _ _ Hrel), <- (br_disk _ _ _ Hrel).
  destruct (bview_cases (k_fs k) dev n) as [(b & Hc & Hv)|Hno]; [|by apply bview_uncached].
  rewrite (bview_cached _ _ _ b) by done. destruct (br_cached _ _ _ Hrel n b Hc) as [Hrb _].
  destruct Hc as (Hb & _ & Hn). rewrite (bo_clean _ Hok b) by (done || congruence). by rewrite Hn.
Qed.

End client.
