(* ===== verification/Log.v ===== *)
(** * The write-ahead log ([log.c]) *)

From S2P Require Import Prelude Riscv Monad State Kstring Bytes Printf Kalloc Vm Proc Sleeplock Bio.
#[local] Open Scope Z_scope.

Definition set_log_start x (l : log) := mklog x (log_size l) (log_outstanding l) (log_committing l) (log_dev l) (lh_n l) (lh_block l).
Definition set_log_size x (l : log) := mklog (log_start l) x (log_outstanding l) (log_committing l) (log_dev l) (lh_n l) (lh_block l).
Definition set_log_outstanding x (l : log) := mklog (log_start l) (log_size l) x (log_committing l) (log_dev l) (lh_n l) (lh_block l).
Definition set_log_committing x (l : log) := mklog (log_start l) (log_size l) (log_outstanding l) x (log_dev l) (lh_n l) (lh_block l).
Definition set_log_dev x (l : log) := mklog (log_start l) (log_size l) (log_outstanding l) (log_committing l) x (lh_n l) (lh_block l).
Definition set_lh_n x (l : log) := mklog (log_start l) (log_size l) (log_outstanding l) (log_committing l) (log_dev l) x (lh_block l).
Definition set_lh_block x (l : log) := mklog (log_start l) (log_size l) (log_outstanding l) (log_committing l) (log_dev l) (lh_n l) x.

Definition getlog {A : Type} (f : log -> A) : K A := gets (fun k => f (fs_log (k_fs k))).
Definition setlog (f : log -> log) : K unit := modify_fs (fs_upd_log f).

(** [log.lh.block[i]], an array of [LOGSIZE] ints: an access outside of it
    is an error, not a value. *)
Definition lh_get (i : Z) : K Z :=
  l ← getlog lh_block;
  match l !! Z.to_nat i with Some v => mret v | None => panic "log.lh.block" end.
Definition lh_set (i v : Z) : K unit :=
  l ← getlog lh_block;
  if (Z.to_nat i <? length l)%nat then setlog (set_lh_block (<[Z.to_nat i := v]> l)) else panic "log.lh.block".

(** [struct logheader] in a block: [n], then [block[LOGSIZE]]. *)
Definition sizeof_logheader : Z := 4 + 4 * LOGSIZE.
Definition hd_n (d : list Z) : Z := rd32s 0 d.
Definition hd_block (i : Z) (d : list Z) : Z := rd32s (4 + 4 * i) d.

Section log.
Context {W : Wakeups} {D : Disk}.

(** [memmove(to->data, from->data, BSIZE)]. *)
Definition bcopy (to from : Z) : K unit :=
  d ← getb from b_data;
  setb to (fun x => set_b_data (splice 0 (slice 0 BSIZE d) (b_data x)) x).

Fixpoint install_trans_loop (n : nat) (tail : Z) (recovering : bool) : K unit :=
  match n with
  | O => mret ()
  | S n' =>
      dev ← getlog log_dev;
      start ← getlog log_start;
      lbuf ← bread dev (u32 (start + tail + 1));
      dev ← getlog log_dev;
      blk ← lh_get tail;
      dbuf ← bread dev (u32 blk);
      bcopy dbuf lbuf;;
      bwrite dbuf;;
      when (negb recovering) (bunpin dbuf);;
      brelse lbuf;;
      brelse dbuf;;
      install_trans_loop n' (tail + 1) recovering
  end.

Definition install_trans (recovering : bool) : K unit :=
  n ← getlog lh_n;
  install_trans_loop (Z.to_nat n) 0 recovering.

Fixpoint read_head_loop (n : nat) (i buf : Z) : K unit :=
  match n with
  | O => mret ()
  | S n' =>
      d ← getb buf b_data;
      lh_set i (hd_block i d);;
      read_head_loop n' (i + 1) buf
  end.

Definition read_head : K unit :=
  dev ← getlog log_dev;
  start ← getlog log_start;
  buf ← bread dev (u32 start);
  d ← getb buf b_data;
  setlog (set_lh_n (hd_n d));;
  n ← getlog lh_n;
  read_head_loop (Z.to_nat n) 0 buf;;
  brelse buf.

Fixpoint write_head_loop (n : nat) (i buf : Z) : K unit :=
  match n with
  | O => mret ()
  | S n' =>
      blk ← lh_get i;
      setb buf (fun x => set_b_data (wr 4 (4 + 4 * i) blk (b_data x)) x);;
      write_head_loop n' (i + 1) buf
  end.

Definition write_head : K unit :=
  dev ← getlog log_dev;
  start ← getlog log_start;
  buf ← bread dev (u32 start);
  n ← getlog lh_n;
  setb buf (fun x => set_b_data (wr 4 0 n (b_data x)) x);;
  write_head_loop (Z.to_nat n) 0 buf;;
  bwrite buf;;
  brelse buf.

Definition recover_from_log : K unit :=
  read_head;;
  install_trans true;;
  setlog (set_lh_n 0);;
  write_head.

Definition initlog (dev : Z) (sb : superblock) : K unit :=
  if sizeof_logheader >=? BSIZE then panic "initlog: too big logheader"
  else
    setlog (set_log_start (s32 (sb_logstart sb)));;
    setlog (set_log_size (s32 (sb_nlog sb)));;
    setlog (set_log_dev dev);;
    recover_from_log.

Fixpoint begin_op_loop (fuel : nat) : K unit :=
  committing ← getlog log_committing;
  n ← getlog lh_n;
  outstanding ← getlog log_outstanding;
  if truthy committing || (n + (outstanding + 1) * MAXOPBLOCKS >? LOGSIZE) then
    match fuel with
    | O => out_of_fuel
    | S fuel' => sleep ChanLog LogLock;; begin_op_loop fuel'
    end
  else
    setlog (set_log_outstanding (outstanding + 1));;
    release LogLock.

Definition begin_op : K unit :=
  acquire LogLock;;
  begin_op_loop wakeups.

Fixpoint write_log_loop (n : nat) (tail : Z) : K unit :=
  match n with
  | O => mret ()
  | S n' =>
      dev ← getlog log_dev;
      start ← getlog log_start;
      to ← bread dev (u32 (start + tail + 1));
      dev ← getlog log_dev;
      blk ← lh_get tail;
      from ← bread dev (u32 blk);
      bcopy to from;;
      bwrite to;;
      brelse from;;
      brelse to;;
      write_log_loop n' (tail + 1)
  end.

Definition write_log : K unit :=
  n ← getlog lh_n;
  write_log_loop (Z.to_nat n) 0.

Definition commit : K unit :=
  n ← getlog lh_n;
  when (n >? 0)
    (write_log;;
     write_head;;
     install_trans false;;
     setlog (set_lh_n 0);;
     write_head).

Definition end_op : K unit :=
  acquire LogLock;;
  o ← getlog log_outstanding;
  setlog (set_log_outstanding (o - 1));;
  committing ← getlog log_committing;
  if truthy committing then panic "log.committing"
  else
    o ← getlog log_outstanding;
    do_commit ← (if o =? 0 then setlog (set_log_committing 1);; mret true
                 else wakeup ChanLog;; mret false);
    release LogLock;;
    when do_commit
      (commit;;
       acquire LogLock;;
       setlog (set_log_committing 0);;
       wakeup ChanLog;;
       release LogLock).

(** The index of the block in the log header, or [n]. *)
Fixpoint log_find (n : nat) (i blockno : Z) : K Z :=
  match n with
  | O => mret i
  | S n' => blk ← lh_get i; if u32 blk =? blockno then mret i else log_find n' (i + 1) blockno
  end.

Definition log_write (b : Z) : K unit :=
  acquire LogLock;;
  n ← getlog lh_n;
  size ← getlog log_size;
  outstanding ← getlog log_outstanding;
  if (n >=? LOGSIZE) || (n >=? size - 1) then panic "too big a transaction"
  else if outstanding <? 1 then panic "log_write outside of trans"
  else
    blockno ← getb b b_blockno;
    i ← log_find (Z.to_nat n) 0 blockno;
    lh_set i (s32 blockno);;
    when (i =? n) (bpin b;; setlog (set_lh_n (n + 1)));;
    release LogLock.

End log.
