(* ===== verification/LogInv.v ===== *)
(** * The log: what a commit writes, and recovery after a crash

    The disk writes of [commit] are computed exactly; a crash keeps a prefix
    of them, and [initlog] on any such disk leaves either all of the
    transaction's blocks or none of them. *)

From S2P Require Import Prelude Riscv Monad State Kstring Bytes Printf Kalloc Vm Proc ProcInv Sleeplock Dlist Bio BioInv BioSpec BioClient Log.
#[local] Open Scope Z_scope.

#[local] Opaque acquire release bread bwrite brelse bpin bunpin setb wakeup.

(** ** Abstract effects *)

Definition bs_put (n : Z) (d : list Z) (A : bstore) : bstore := bs_set_disk n d (bs_set_view n d A).
Definition bs_puts (ws : list (Z * list Z)) (A : bstore) : bstore := foldl (fun A w => bs_put w.1 w.2 A) A ws.

Ltac bs_solve :=
  unfold bs_eq, bs_put; simpl; split_and!; intros; rewrite ?fn_insert_case;
  repeat case_decide; subst; try done; rewrite ?Z.add_simpl_r, ?Z.sub_add; try lia; try congruence.

Record quiet (A : bstore) : Prop := {
  qt_lock n : bs_lock A n = unlocked;
  qt_ref n : 0 <= bs_ref A n < 2^31 - 2;
  qt_size n : length (bs_view A n) = Z.to_nat BSIZE
}.

Lemma quiet_put n d A : quiet A -> length d = Z.to_nat BSIZE -> quiet (bs_put n d A).
Proof.
  intros [H1 H2 H3] Hd. split; [done|done|]. intros m. simpl. rewrite fn_insert_case. by case_decide.
Qed.

Lemma splice_all d e : length d = Z.to_nat BSIZE -> length e = Z.to_nat BSIZE -> splice 0 (slice 0 BSIZE d) e = d.
Proof.
  intros Hd He. unfold splice, slice. change (Z.to_nat 0) with 0%nat. rewrite drop_0, (take_ge d) by lia. simpl.
  rewrite drop_ge by lia. by rewrite app_nil_r.
Qed.

(** Side conditions on stores and handles. *)
Ltac bs_in := first [apply list_elem_of_here | apply list_elem_of_further; bs_in].
Ltac bs_notin := first [apply not_elem_of_nil | apply not_elem_of_cons; split; [cbn [fst]; congruence|bs_notin]].
Ltac bs_sub :=
  let Hx := fresh "Hx" in
  intros ? Hx;
  repeat (apply elem_of_cons in Hx as [->|Hx]; [split; [bs_in|cbn [fst]; congruence]|]);
  by apply elem_of_nil in Hx.
Ltac bs_num :=
  cbn [bs_view bs_ref bs_lock bs_disk bs_free bs_set_view bs_set_ref bs_set_lock bs_set_disk];
  unfold is0; rewrite ?fn_insert_case;
  repeat first [rewrite decide_True by done | rewrite decide_False by congruence];
  repeat match goal with |- context [?x =? ?y] => destruct (Z.eqb_spec x y) end;
  intros; first [lia | congruence | solve [auto] | match goal with H : _ -> ?g |- ?g => apply H; lia end].
Ltac bs_side :=
  lazymatch goal with
  | |- _ ∉ _ => cbn [fmap list_fmap fst]; bs_notin
  | |- _ ∈ _ => bs_in
  | |- forall x, x ∈ _ -> _ => bs_sub
  | |- _ => bs_num
  end.

(** Run the first call of a sequence by its triple. *)
Tactic Notation "wcall" open_constr(lem) ident(a) ident(k) ident(H) :=
  apply wp_bind; eapply wp_mono; [eapply lem; [eassumption|..]; bs_side|cbv beta; intros a k H].

(** ** Sequences of disk writes *)

Definition apply_writes (ws : list (Z * list Z)) (d : Z -> list Z) : Z -> list Z :=
  foldl (fun d w => <[w.1 := w.2]> d) d ws.

Lemma apply_writes_app ws1 ws2 d : apply_writes (ws1 ++ ws2) d = apply_writes ws2 (apply_writes ws1 d).
Proof. apply foldl_app. Qed.

Lemma apply_writes_notin ws d n : n ∉ ws.*1 -> apply_writes ws d n = d n.
Proof.
  revert d. induction ws as [|[m x] ws IH]; intros d Hn; [done|]. cbn [fmap list_fmap fst] in Hn.
  apply not_elem_of_cons in Hn as [Hm Hn]. cbn [apply_writes foldl fst snd]. fold (apply_writes ws (<[m := x]> d)).
  rewrite IH by done. by rewrite fn_insert_case, decide_False.
Qed.

Lemma apply_writes_in ws d n x : NoDup ws.*1 -> (n, x) ∈ ws -> apply_writes ws d n = x.
Proof.
  revert d. induction ws as [|[m y] ws IH]; intros d Hnd Hin; [by apply elem_of_nil in Hin|].
  cbn [fmap list_fmap fst] in Hnd. apply NoDup_cons in Hnd as [Hm Hnd].
  cbn [apply_writes foldl fst snd]. fold (apply_writes ws (<[m := y]> d)).
  apply elem_of_cons in Hin as [E|Hin]; [|by apply IH]. simplify_eq. rewrite apply_writes_notin by done.
  by rewrite fn_insert_case, decide_True.
Qed.

Lemma apply_writes_pointwise ws d d' n : (forall m, d m = d' m) -> apply_writes ws d n = apply_writes ws d' n.
Proof.
  revert d d'. induction ws as [|w ws IH]; intros d d' H; [apply H|]. apply (IH (<[w.1 := w.2]> d) (<[w.1 := w.2]> d')).
  intros m. rewrite !fn_insert_case. by case_decide.
Qed.

Lemma bs_puts_disk ws A : bs_disk (bs_puts ws A) = apply_writes ws (bs_disk A).
Proof. revert A. induction ws as [|w ws IH]; intros A; [done|]. cbn [bs_puts foldl]. fold (bs_puts ws (bs_put w.1 w.2 A)). by rewrite IH. Qed.

Lemma bs_puts_view ws A : bs_view (bs_puts ws A) = apply_writes ws (bs_view A).
Proof. revert A. induction ws as [|w ws IH]; intros A; [done|]. cbn [bs_puts foldl]. fold (bs_puts ws (bs_put w.1 w.2 A)). by rewrite IH. Qed.

Lemma bs_puts_ref ws A : bs_ref (bs_puts ws A) = bs_ref A /\ bs_free (bs_puts ws A) = bs_free A.
Proof. revert A. induction ws as [|w ws IH]; intros A; [done|]. cbn [bs_puts foldl]. fold (bs_puts ws (bs_put w.1 w.2 A)). by destruct (IH (bs_put w.1 w.2 A)) as [-> ->]. Qed.

Lemma quiet_puts ws A : quiet A -> Forall (fun w => length w.2 = Z.to_nat BSIZE) ws -> quiet (bs_puts ws A).
Proof.
  revert A. induction ws as [|w ws IH]; intros A HA Hw; [done|]. apply Forall_cons in Hw as [H1 H2].
  cbn [bs_puts foldl]. apply IH; [by apply quiet_put|done].
Qed.

Section log.
Context {W : Wakeups} {D : Disk} {DOk : DiskOk D} (dev : Z) (Hdev : dev <> 0) (p pid : Z) (k0 : kernel).
Notation at_ := (at_k dev p pid k0).

Lemma at_k_getlog {A} (f : log -> A) lg w B H k : at_ lg w B H k -> getlog f k = Ret (f lg) k.
Proof. intros Hat. unfold getlog, gets. by rewrite (ak_log _ _ _ _ _ _ _ _ _ Hat). Qed.

Lemma at_k_lh_get lg w B H k i v : at_ lg w B H k -> lh_block lg !! Z.to_nat i = Some v -> lh_get i k = Ret v k.
Proof. intros Hat Hi. unfold lh_get. erewrite bind_eq by (by eapply at_k_getlog). cbv beta. by rewrite Hi. Qed.

Lemma at_k_setlog f lg w B H k : at_ lg w B H k -> wp (setlog f) (fun _ => at_ (f lg) w B H) k.
Proof.
  intros [[[lru [[Hl Hp] Hok]] [R1 R2 R3 R4 R5 R6 R7]] H2 H3 H4 H5 H6 H7]. eapply wp_eq; [reflexivity|].
  split; ksimp; try done.
  - split; [|by split]. exists lru. split; [by split|]. by destruct Hok.
  - simpl. by rewrite H2.
  - etransitivity; [done|]. by apply blk_frame_fs.
Qed.

Lemma at_k_bcopy lg w A H k to bt from bf :
  at_ lg w A H k -> (to, bt) ∈ H -> (from, bf) ∈ H ->
  length (bs_view A to) = Z.to_nat BSIZE -> length (bs_view A from) = Z.to_nat BSIZE ->
  wp (bcopy bt bf) (fun _ => at_ lg w (bs_set_view to (bs_view A from) A) H) k.
Proof.
  intros Hat Ht Hf H1 H2. unfold bcopy. apply wp_bind. eapply wp_eq; [by eapply at_k_data|].
  eapply wp_mono; [eapply (at_k_setdata _ Hdev); done|]. cbv beta. intros _ k'. by rewrite splice_all.
Qed.

Ltac wget := apply wp_bind; eapply wp_eq; [first [by eapply at_k_getlog | by eapply at_k_lh_get]|].

(** One iteration of [write_log]. *)
Lemma write_log_step lg w A k n tail h Q :
  at_ lg w A [] k -> quiet A -> log_dev lg = dev -> 0 <= tail -> 0 <= log_start lg -> log_start lg + tail + 1 < 2^31 ->
  lh_block lg !! Z.to_nat tail = Some h -> 0 <= h < 2^31 -> h <> log_start lg + tail + 1 ->
  0 < bs_ref A h -> 0 < bs_free A ->
  (forall k', at_ lg (w ++ [(log_start lg + tail + 1, bs_view A h)]) (bs_put (log_start lg + tail + 1) (bs_view A h) A) [] k' ->
    wp (write_log_loop n (tail + 1)) Q k') ->
  wp (write_log_loop (S n) tail) Q k.
Proof.
  intros Hat HA Hd Ht Hs Hmax Hh Hhr Hne Hpin Hfree HQ. set (l := log_start lg + tail + 1) in *. cbn [write_log_loop].
  pose proof (qt_ref _ HA l) as Hrl. pose proof (qt_ref _ HA h) as Hrh. pose proof (qt_size _ HA) as Hsz.
  pose proof (qt_lock _ HA) as Hlk.
  wget. wget. fold l. rewrite Hd, u32_small by lia. clearbody l. wcall (at_k_bread _ Hdev) to k1 H1.
  wget. wget. rewrite Hd, u32_small by lia. wcall (at_k_bread _ Hdev) from k2 H2.
  wcall (at_k_bcopy _ _ _ _ k2 l to h from) u3 k3 H3.
  wcall (at_k_bwrite _ Hdev _ _ _ _ _ _ _ k3 l to) u4 k4 H4.
  wcall (at_k_brelse _ Hdev _ _ _ _ _ _ _ [(l, to)] k4 h from) u5 k5 H5.
  wcall (at_k_brelse _ Hdev _ _ _ _ _ _ _ [] k5 l to) u6 k6 H6.
  apply HQ. cbn [bs_view bs_set_ref bs_set_lock bs_set_view] in H6. rewrite fn_insert_case, decide_True in H6 by done.
  eapply at_k_ext; [|exact H6]. bs_solve.
Qed.
(** One iteration of [install_trans]. *)
Lemma install_trans_step lg w A k n tail h rec Q :
  let l := log_start lg + tail + 1 in
  let A' := bs_put h (bs_view A l) A in
  at_ lg w A [] k -> quiet A -> log_dev lg = dev -> 0 <= tail -> 0 <= log_start lg -> l < 2^31 ->
  lh_block lg !! Z.to_nat tail = Some h -> 0 <= h < 2^31 -> h <> l ->
  0 < bs_free A -> (rec = false -> 0 < bs_ref A h) -> (0 < bs_ref A h \/ 1 < bs_free A) ->
  (forall k', at_ lg (w ++ [(h, bs_view A l)]) (if rec then A' else bs_set_ref h (bs_ref A h - 1) A') [] k' ->
    wp (install_trans_loop n (tail + 1) rec) Q k') ->
  wp (install_trans_loop (S n) tail rec) Q k.
Proof.
  intros l A' Hat HA Hd Ht Hs Hmax Hh Hhr Hne Hfree Hpin Hfree2 HQ. cbn [install_trans_loop].
  pose proof (qt_ref _ HA l) as Hrl. pose proof (qt_ref _ HA h) as Hrh. pose proof (qt_size _ HA) as Hsz.
  pose proof (qt_lock _ HA) as Hlk. pose proof (at_k_clean dev Hdev p pid k0 _ _ _ _ _ l Hat) as Hcl.
  wget. wget. fold l. rewrite Hd, u32_small by lia. unfold A' in HQ. clear A'. clearbody l. wcall (at_k_bread _ Hdev) lb k1 H1.
  wget. wget. rewrite Hd, u32_small by lia. wcall (at_k_bread _ Hdev) db k2 H2.
  wcall (at_k_bcopy _ _ _ _ k2 h db l lb) u3 k3 H3.
  wcall (at_k_bwrite _ Hdev _ _ _ _ _ _ _ k3 h db) u4 k4 H4.
  cbn [bs_view bs_set_ref bs_set_lock bs_set_view] in H4. rewrite fn_insert_case, decide_True in H4 by done.
  destruct rec; cbn [negb when].
  - apply wp_bind, wp_ret. wcall (at_k_brelse _ Hdev _ _ _ _ _ _ _ [(h, db)] k4 l lb) u5 k5 H5.
    wcall (at_k_brelse _ Hdev _ _ _ _ _ _ _ [] k5 h db) u6 k6 H6.
    apply HQ. eapply at_k_ext; [|exact H6]. bs_solve.
  - specialize (Hpin eq_refl). wcall (at_k_bunpin _ Hdev _ _ _ _ _ _ _ k4 h db) u5 k5 H5.
    wcall (at_k_brelse _ Hdev _ _ _ _ _ _ _ [(h, db)] k5 l lb) u6 k6 H6.
    wcall (at_k_brelse _ Hdev _ _ _ _ _ _ _ [] k6 h db) u7 k7 H7.
    apply HQ. eapply at_k_ext; [|exact H7]. bs_solve.
Qed.

(** ** The loops *)

(** The writes of [write_log] and of [install_trans], for the views [V]. *)
Fixpoint logw (l : Z) (V : Z -> list Z) (hs : list Z) : list (Z * list Z) :=
  match hs with
  | [] => []
  | h :: hs' => (l, V h) :: logw (l + 1) V hs'
  end.

Fixpoint homew (l : Z) (V : Z -> list Z) (hs : list Z) : list (Z * list Z) :=
  match hs with
  | [] => []
  | h :: hs' => (h, V l) :: homew (l + 1) V hs'
  end.

Lemma logw_ext l V V' hs : (forall h, h ∈ hs -> V h = V' h) -> logw l V hs = logw l V' hs.
Proof.
  revert l. induction hs as [|h hs IH]; intros l H; [done|]. simpl. rewrite H by apply list_elem_of_here. f_equal.
  apply IH. intros x Hx. by apply H, list_elem_of_further.
Qed.

Lemma homew_ext l V V' hs : (forall m, l <= m < l + Z.of_nat (length hs) -> V m = V' m) -> homew l V hs = homew l V' hs.
Proof.
  revert l. induction hs as [|h hs IH]; intros l H; [done|]. simpl in *. rewrite H by lia. f_equal. apply IH. intros m Hm. apply H. lia.
Qed.

(** The blocks of a transaction: outside of the log. *)
Definition homes (start : Z) (hs : list Z) : Prop := Forall (fun h => 0 <= h < 2^31 /\ ~ (start <= h <= start + LOGSIZE)) hs.

(** The entries of the header from [tail] on. *)
Definition entries (lg : log) (tail : Z) (hs : list Z) : Prop :=
  forall i h, hs !! i = Some h -> lh_block lg !! (Z.to_nat tail + i)%nat = Some h.

Lemma entries_cons lg tail h hs : 0 <= tail -> entries lg tail (h :: hs) -> lh_block lg !! Z.to_nat tail = Some h /\ entries lg (tail + 1) hs.
Proof.
  intros Ht H. split; [rewrite <- (Nat.add_0_r (Z.to_nat tail)); by apply H|]. intros i x Hi.
  replace (Z.to_nat (tail + 1) + i)%nat with (Z.to_nat tail + S i)%nat by lia. by apply H.
Qed.

Lemma write_log_loop_spec hs lg w A k tail :
  at_ lg w A [] k -> quiet A -> log_dev lg = dev -> 0 <= tail -> 0 <= log_start lg -> log_start lg + LOGSIZE < 2^31 ->
  tail + Z.of_nat (length hs) <= LOGSIZE -> entries lg tail hs -> homes (log_start lg) hs ->
  Forall (fun h => 0 < bs_ref A h) hs -> 0 < bs_free A ->
  let ws := logw (log_start lg + tail + 1) (bs_view A) hs in
  wp (write_log_loop (length hs) tail) (fun _ => at_ lg (w ++ ws) (bs_puts ws A) []) k.
Proof.
  revert w A k tail. induction hs as [|h hs IH]; intros w A k tail Hat HA Hd Ht Hs Hmax Hlen He Hh Hpin Hfree.
  { simpl. apply wp_ret. by rewrite app_nil_r. }
  apply entries_cons in He as [Hh0 He]; [|done]. apply Forall_cons in Hh as [[Hr Hout] Hh]. apply Forall_cons in Hpin as [Hp Hpin].
  simpl in Hlen. cbn [length]. eapply write_log_step; [exact Hat|done..|lia|exact Hh0|done|lia|done|done|].
  intros k' Hat'. pose proof (quiet_put (log_start lg + tail + 1) (bs_view A h) A HA (qt_size _ HA h)) as HA'.
  eapply wp_mono; [apply (IH _ _ k' (tail + 1) Hat' HA'); try done; lia|]. cbv beta. intros _ k2. cbn [logw].
  replace (log_start lg + (tail + 1) + 1) with (log_start lg + tail + 1 + 1) by lia.
  rewrite <- app_assoc. cbn [app]. erewrite (logw_ext _ (bs_view (bs_put _ _ A))); [done|].
  intros x Hx. simpl. rewrite fn_insert_case, decide_False; [done|]. unfold homes in Hh. rewrite Forall_forall in Hh.
  destruct (Hh x Hx). lia.
Qed.

(** The store after [install_trans]: every installed block is unpinned. *)
Definition bs_install1 (rec : bool) (A : bstore) (w : Z * list Z) : bstore :=
  let A' := bs_put w.1 w.2 A in if rec then A' else bs_set_ref w.1 (bs_ref A w.1 - 1) A'.
Definition bs_install (rec : bool) (ws : list (Z * list Z)) (A : bstore) : bstore := foldl (bs_install1 rec) A ws.

Lemma install_trans_loop_spec hs lg w A k tail (rec : bool) :
  at_ lg w A [] k -> quiet A -> log_dev lg = dev -> 0 <= tail -> 0 <= log_start lg -> log_start lg + LOGSIZE < 2^31 ->
  tail + Z.of_nat (length hs) <= LOGSIZE -> entries lg tail hs -> homes (log_start lg) hs -> NoDup hs ->
  0 < bs_free A -> (if rec then 1 < bs_free A else Forall (fun h => 0 < bs_ref A h) hs) ->
  let ws := homew (log_start lg + tail + 1) (bs_view A) hs in
  wp (install_trans_loop (length hs) tail rec) (fun _ => at_ lg (w ++ ws) (bs_install rec ws A) []) k.
Proof.
  revert w A k tail. induction hs as [|h hs IH]; intros w A k tail Hat HA Hd Ht Hs Hmax Hlen He Hh Hnd Hfree Hrec.
  { simpl. apply wp_ret. by rewrite app_nil_r. }
  apply entries_cons in He as [Hh0 He]; [|done]. apply Forall_cons in Hh as [[Hr Hout] Hh]. apply NoDup_cons in Hnd as [Hn Hnd].
  simpl in Hlen. cbn [length]. set (l := log_start lg + tail + 1).
  assert (rec = false -> 0 < bs_ref A h) as Hp by (intros ->; by apply Forall_cons in Hrec as [? _]).
  eapply install_trans_step; [exact Hat|done..|lia|exact Hh0|done|lia|done|done| |].
  { destruct rec; [right; done|left; auto]. }
  fold l. intros k' Hat'. change (if rec then _ else _) with (bs_install1 rec A (h, bs_view A l)) in Hat'.
  set (A' := bs_install1 rec A (h, bs_view A l)) in *.
  assert (quiet A') as HA'.
  { pose proof (quiet_put h (bs_view A l) A HA (qt_size _ HA l)) as Hq. unfold A', bs_install1. destruct rec; [done|].
    destruct Hq as [Q1 Q2 Q3]. split; [done| |done]. intros m. simpl. rewrite fn_insert_case.
    specialize (Hp eq_refl). pose proof (qt_ref _ HA h). case_decide; [lia|apply Q2]. }
  assert (forall m, m <> h -> bs_view A' m = bs_view A m /\ bs_ref A' m = bs_ref A m) as Hoth.
  { intros m Hm. unfold A', bs_install1. destruct rec; simpl; rewrite !fn_insert_case, ?decide_False by done; done. }
  assert (bs_free A <= bs_free A') as Hfr.
  { unfold A', bs_install1. destruct rec; [done|]. simpl. specialize (Hp eq_refl). unfold is0.
    destruct (Z.eqb_spec (bs_ref A h) 0); [lia|]. destruct (_ =? 0); lia. }
  eapply wp_mono; [apply (IH _ _ k' (tail + 1) Hat' HA'); try done; try lia|].
  - destruct rec; [lia|]. apply Forall_cons in Hrec as [_ Hrec]. rewrite Forall_forall in *. intros x Hx.
    destruct (Hoth x) as [_ ->]; [by intros ->|]. by apply Hrec.
  - cbv beta. intros _ k2. cbn [homew]. fold l. replace (log_start lg + (tail + 1) + 1) with (l + 1) by lia.
    rewrite <- app_assoc. cbn [app]. rewrite (homew_ext _ (bs_view A') (bs_view A)); [done|].
    intros m Hm. apply Hoth. lia.
Qed.

(** ** The header block *)

Fixpoint put_blocks (i : Z) (hs : list Z) (d : list Z) : list Z :=
  match hs with
  | [] => d
  | h :: hs' => put_blocks (i + 1) hs' (wr 4 (4 + 4 * i) h d)
  end.

Definition hdr (hs : list Z) (d : list Z) : list Z := put_blocks 0 hs (wr 4 0 (Z.of_nat (length hs)) d).

Lemma length_put_blocks i hs d :
  0 <= i -> i + Z.of_nat (length hs) <= LOGSIZE -> length d = Z.to_nat BSIZE -> length (put_blocks i hs d) = Z.to_nat BSIZE.
Proof.
  revert i d. induction hs as [|h hs IH]; intros i d Hi Hl Hd; [done|]. cbn [put_blocks length] in *.
  apply IH; [lia|lia|]. rewrite length_wr; [done|lia|lia|]. rewrite Hd. unfold LOGSIZE, MAXOPBLOCKS, BSIZE in *. lia.
Qed.

Lemma length_hdr hs d : Z.of_nat (length hs) <= LOGSIZE -> length d = Z.to_nat BSIZE -> length (hdr hs d) = Z.to_nat BSIZE.
Proof.
  intros Hl Hd. apply length_put_blocks; [done|lia|]. rewrite length_wr; [done|lia|lia|]. rewrite Hd. unfold BSIZE. lia.
Qed.

(** Fields before the entries written. *)
Lemma rd_put_blocks off i hs d :
  0 <= i -> 0 <= off -> off + 4 <= 4 + 4 * i -> i + Z.of_nat (length hs) <= LOGSIZE -> length d = Z.to_nat BSIZE ->
  rd 4 off (put_blocks i hs d) = rd 4 off d.
Proof.
  revert i d. induction hs as [|h hs IH]; intros i d Hi Ho Hoi Hl Hd; [done|]. cbn [put_blocks length] in *.
  assert (4 + 4 * i + 4 <= Z.of_nat (length d)) as Hb by (rewrite Hd; unfold LOGSIZE, MAXOPBLOCKS, BSIZE in *; lia).
  rewrite IH; [|lia|lia|lia|lia|]; [|rewrite length_wr; [done|lia|lia|lia]].
  apply rd_wr_ne; lia.
Qed.

Lemma hd_block_put_blocks i hs d j h :
  0 <= i -> i + Z.of_nat (length hs) <= LOGSIZE -> length d = Z.to_nat BSIZE ->
  hs !! j = Some h -> 0 <= h < 2^31 -> hd_block (i + Z.of_nat j) (put_blocks i hs d) = h.
Proof.
  revert i d j. induction hs as [|h0 hs IH]; intros i d j Hi Hl Hd Hj Hh; [done|]. cbn [put_blocks length] in *.
  assert (4 + 4 * i + 4 <= Z.of_nat (length d)) as Hb by (rewrite Hd; unfold LOGSIZE, MAXOPBLOCKS, BSIZE in *; lia).
  assert (length (wr 4 (4 + 4 * i) h0 d) = Z.to_nat BSIZE) as Hlen by (rewrite length_wr; [done|lia|lia|lia]).
  destruct j as [|j]; simpl in Hj.
  - simplify_eq. rewrite Z.add_0_r. unfold hd_block, rd32s. rewrite rd_put_blocks; [|lia|lia|lia|lia|done].
    rewrite rd_wr_eq by lia. apply s32_small. lia.
  - replace (i + Z.of_nat (S j)) with ((i + 1) + Z.of_nat j) by lia. apply IH; try done; lia.
Qed.

Lemma hd_n_hdr hs d : Z.of_nat (length hs) <= LOGSIZE -> length d = Z.to_nat BSIZE -> hd_n (hdr hs d) = Z.of_nat (length hs).
Proof.
  intros Hl Hd. unfold hd_n, rd32s, hdr. assert (4 <= Z.of_nat (length d)) by (rewrite Hd; unfold BSIZE; lia).
  rewrite rd_put_blocks; [|lia|lia|lia|lia|rewrite length_wr; [done|lia|lia|lia]].
  unfold LOGSIZE, MAXOPBLOCKS in Hl. rewrite rd_wr_eq by lia. apply s32_small. lia.
Qed.

Lemma hd_block_hdr hs d j h :
  Z.of_nat (length hs) <= LOGSIZE -> length d = Z.to_nat BSIZE -> hs !! j = Some h -> 0 <= h < 2^31 ->
  hd_block (Z.of_nat j) (hdr hs d) = h.
Proof.
  intros Hl Hd Hj Hh. unfold hdr. rewrite <- (Z.add_0_l (Z.of_nat j)). apply hd_block_put_blocks; try done.
  rewrite length_wr; [done|lia|lia|]. rewrite Hd. unfold BSIZE. lia.
Qed.

Lemma write_head_loop_spec hs lg w A k i b :
  at_ lg w A [(log_start lg, b)] k -> 0 <= i -> entries lg i hs ->
  wp (write_head_loop (length hs) i b)
    (fun _ => at_ lg w (bs_set_view (log_start lg) (put_blocks i hs (bs_view A (log_start lg))) A) [(log_start lg, b)]) k.
Proof.
  revert A k i. induction hs as [|h hs IH]; intros A k i Hat Hi He.
  { apply wp_ret. eapply at_k_ext; [|exact Hat]. bs_solve. }
  apply entries_cons in He as [Hh He]; [|done]. cbn [length write_head_loop]. wget.
  wcall (at_k_setdata _ Hdev _ _ _ _ _ _ _ k (log_start lg) b (wr 4 (4 + 4 * i) h)) u1 k1 H1.
  eapply wp_mono; [eapply (IH _ k1 (i + 1)); [exact H1|lia|done]|]. cbv beta. intros _ k2 H2.
  eapply at_k_ext; [|exact H2]. cbn [put_blocks]. bs_solve.
Qed.

Lemma write_head_spec hs lg w A k :
  at_ lg w A [] k -> quiet A -> log_dev lg = dev -> 0 <= log_start lg < 2^31 ->
  lh_n lg = Z.of_nat (length hs) -> entries lg 0 hs -> 0 < bs_free A ->
  let d := hdr hs (bs_view A (log_start lg)) in
  wp write_head (fun _ => at_ lg (w ++ [(log_start lg, d)]) (bs_put (log_start lg) d A) []) k.
Proof.
  intros Hat HA Hd Hs Hn He Hfree. set (l := log_start lg) in *. cbv zeta. unfold write_head.
  pose proof (qt_lock _ HA) as Hlk. pose proof (qt_ref _ HA l) as Hr.
  wget. wget. fold l. rewrite Hd, u32_small by lia. wcall (at_k_bread _ Hdev) b k1 H1.
  wget. wcall (at_k_setdata _ Hdev _ _ _ _ _ _ _ k1 l b (wr 4 0 (lh_n lg))) u2 k2 H2.
  rewrite Hn, Nat2Z.id. apply wp_bind. eapply wp_mono; [apply write_head_loop_spec; [exact H2|lia|done]|].
  cbv beta. intros _ k3 H3. fold l in H3. cbn [bs_view bs_set_view bs_set_ref bs_set_lock] in H3.
  rewrite fn_insert_case, decide_True, Hn in H3 by done. fold (hdr hs (bs_view A l)) in H3.
  wcall (at_k_bwrite _ Hdev _ _ _ _ _ _ _ k3 l b) u4 k4 H4.
  cbn [bs_view bs_set_view] in H4. rewrite fn_insert_case, decide_True in H4 by done.
  eapply wp_mono; [eapply (at_k_brelse _ Hdev _ _ _ _ _ _ _ [] k4 l b); [exact H4|..]; bs_side|]. cbv beta. intros _ k5 H5.
  eapply at_k_ext; [|exact H5]. bs_solve.
Qed.

Lemma at_k_lh_set lg w B H k i v :
  at_ lg w B H k -> (Z.to_nat i < length (lh_block lg))%nat ->
  wp (lh_set i v) (fun _ => at_ (set_lh_block (<[Z.to_nat i := v]> (lh_block lg)) lg) w B H) k.
Proof.
  intros Hat Hi. unfold lh_set. wget. rewrite (proj2 (Nat.ltb_lt _ _)) by done. by apply at_k_setlog.
Qed.

(** What the header block on the disk says. *)
Definition hd_says (d : list Z) (hs : list Z) : Prop :=
  hd_n d = Z.of_nat (length hs) /\ forall j h, hs !! j = Some h -> hd_block (Z.of_nat j) d = h.

Lemma read_head_loop_spec hs lg w A k i b l :
  at_ lg w A [(l, b)] k -> 0 <= i -> (Z.to_nat i + length hs <= length (lh_block lg))%nat ->
  (forall j h, hs !! j = Some h -> hd_block (i + Z.of_nat j) (bs_view A l) = h) ->
  wp (read_head_loop (length hs) i b)
    (fun _ k' => exists bl, at_ (set_lh_block bl lg) w A [(l, b)] k' /\ length bl = length (lh_block lg) /\
       (forall j, (j < Z.to_nat i)%nat -> bl !! j = lh_block lg !! j) /\ entries (set_lh_block bl lg) i hs) k.
Proof.
  revert lg k i. induction hs as [|h hs IH]; intros lg k i Hat Hi Hl Hd.
  { apply wp_ret. exists (lh_block lg). split_and!; try done. by destruct lg. }
  cbn [length read_head_loop] in *. apply wp_bind. eapply wp_eq; [eapply at_k_data; [done|exact Hat|apply list_elem_of_here]|].
  assert (hd_block i (bs_view A l) = h) as -> by (rewrite <- (Z.add_0_r i); by apply (Hd 0%nat)).
  wcall (at_k_lh_set _ _ _ _ k i h) u1 k1 H1.
  eapply wp_mono; [eapply (IH _ k1 (i + 1) H1); [lia|simpl; rewrite length_insert; lia|]|].
  - intros j x Hj. replace (i + 1 + Z.of_nat j) with (i + Z.of_nat (S j)) by lia. by apply Hd.
  - cbv beta. intros _ k2 (bl & H2 & Hlb & Hpre & He). simpl in *. rewrite length_insert in Hlb. exists bl. split_and!; [done|done| |].
    + intros j Hj. rewrite Hpre by lia. rewrite list_lookup_insert_ne by lia. done.
    + intros [|j] x Hj; simpl in Hj |- *.
      * simplify_eq. rewrite Nat.add_0_r, Hpre by lia. rewrite list_lookup_insert_eq by lia. done.
      * replace (Z.to_nat i + S j)%nat with (Z.to_nat (i + 1) + j)%nat by lia. by apply He.
Qed.

Lemma read_head_spec hs lg w A k :
  at_ lg w A [] k -> quiet A -> log_dev lg = dev -> 0 <= log_start lg < 2^31 -> 0 < bs_free A ->
  hd_says (bs_view A (log_start lg)) hs -> (length hs <= length (lh_block lg))%nat ->
  wp read_head (fun _ k' => exists bl, let lg' := set_lh_block bl (set_lh_n (Z.of_nat (length hs)) lg) in
    at_ lg' w A [] k' /\ entries lg' 0 hs) k.
Proof.
  intros Hat HA Hd Hs Hfree [Hn Hb] Hl. set (l := log_start lg) in *. unfold read_head.
  pose proof (qt_lock _ HA) as Hlk. pose proof (qt_ref _ HA l) as Hr.
  pose proof (at_k_clean dev Hdev p pid k0 _ _ _ _ _ l Hat) as Hcl.
  wget. wget. fold l. rewrite Hd, u32_small by lia. wcall (at_k_bread _ Hdev) b k1 H1.
  apply wp_bind. eapply wp_eq; [eapply at_k_data; [done|exact H1|apply list_elem_of_here]|].
  cbn [bs_view bs_set_ref bs_set_lock]. rewrite Hn. wcall (at_k_setlog (set_lh_n (Z.of_nat (length hs))) _ _ _ _ k1) u2 k2 H2.
  wget. cbn [lh_n set_lh_n]. rewrite Nat2Z.id. apply wp_bind.
  eapply wp_mono; [eapply read_head_loop_spec; [exact H2|lia|done|exact Hb]|].
  cbv beta. intros _ k3 (bl & H3 & _ & _ & He).
  eapply wp_mono; [eapply (at_k_brelse _ Hdev _ _ _ _ _ _ _ [] k3 l b); [exact H3|..]; bs_side|]. cbv beta.
  intros _ k4 H4. exists bl. split; [|done]. eapply at_k_ext; [|exact H4]. bs_solve.
Qed.

(** ** Commit and recovery *)

(** The disk writes of a commit of the blocks [hs], from the store [A]. *)
Definition commit_writes (start : Z) (A : bstore) (hs : list Z) : list (Z * list Z) :=
  let h1 := hdr hs (bs_view A start) in
  logw (start + 1) (bs_view A) hs ++ [(start, h1)] ++
  ((fun h => (h, bs_view A h)) <$> hs) ++ [(start, hdr [] h1)].

(** The store is ready for the commit of the blocks [hs]: they are pinned in
    the cache, nothing is locked, a buffer is free. *)
Record ready (start : Z) (hs : list Z) (A : bstore) : Prop := {
  rd_quiet : quiet A;
  rd_pin : Forall (fun h => 0 < bs_ref A h) hs;
  rd_free : 0 < bs_free A;
  rd_homes : homes start hs;
  rd_nodup : NoDup hs;
  rd_start : 0 <= start /\ start + LOGSIZE < 2^31;
  rd_len : Z.of_nat (length hs) <= LOGSIZE
}.

Lemma logw_keys l V hs : (logw l V hs).*1 = seqZ l (Z.of_nat (length hs)).
Proof.
  revert l. induction hs as [|h hs IH]; intros l; [done|]. cbn [logw fmap list_fmap fst length].
  rewrite seqZ_cons by lia. f_equal. change ((logw (l + 1) V hs).*1 = seqZ (Z.succ l) (Z.pred (Z.of_nat (S (length hs))))).
  rewrite IH. f_equal; lia.
Qed.

Lemma homew_keys l V hs : (homew l V hs).*1 = hs.
Proof. revert l. induction hs as [|h hs IH]; intros l; [done|]. cbn [homew fmap list_fmap fst]. f_equal. apply IH. Qed.

Lemma logw_in l V hs i h : hs !! i = Some h -> (l + Z.of_nat i, V h) ∈ logw l V hs.
Proof.
  revert l i. induction hs as [|h0 hs IH]; intros l i Hi; [done|]. destruct i as [|i]; simpl in *.
  - simplify_eq. rewrite Z.add_0_r. apply list_elem_of_here.
  - apply list_elem_of_further. replace (l + Z.of_nat (S i)) with (l + 1 + Z.of_nat i) by lia. by apply IH.
Qed.

(** Installing from the log what [write_log] put there. *)
Lemma homew_logw l U V hs :
  (forall i h, hs !! i = Some h -> U (l + Z.of_nat i) = V h) -> homew l U hs = (fun h => (h, V h)) <$> hs.
Proof.
  revert l. induction hs as [|h hs IH]; intros l H; [done|]. cbn [homew fmap list_fmap]. f_equal.
  - f_equal. rewrite <- (Z.add_0_r l). by apply (H 0%nat).
  - apply IH. intros i x Hi. replace (l + 1 + Z.of_nat i) with (l + Z.of_nat (S i)) by lia. by apply H.
Qed.

Lemma logw_view l V hs d i h : hs !! i = Some h -> apply_writes (logw l V hs) d (l + Z.of_nat i) = V h.
Proof.
  intros Hi. apply apply_writes_in; [rewrite logw_keys; apply NoDup_seqZ|]. by apply logw_in.
Qed.

Lemma logw_other l V hs d m : ~ (l <= m < l + Z.of_nat (length hs)) -> apply_writes (logw l V hs) d m = d m.
Proof. intros Hm. apply apply_writes_notin. rewrite logw_keys, elem_of_seqZ. lia. Qed.

Lemma logw_sizes l V hs : (forall n, length (V n) = Z.to_nat BSIZE) -> Forall (fun w => length w.2 = Z.to_nat BSIZE) (logw l V hs).
Proof. intros H. revert l. induction hs as [|h hs IH]; intros l; constructor; [apply H|apply IH]. Qed.

Lemma bs_install_disk rec ws A : bs_disk (bs_install rec ws A) = apply_writes ws (bs_disk A).
Proof.
  revert A. induction ws as [|w ws IH]; intros A; [done|]. cbn [bs_install foldl]. fold (bs_install rec ws (bs_install1 rec A w)).
  rewrite IH. by destruct rec.
Qed.

Lemma bs_install_view rec ws A : bs_view (bs_install rec ws A) = apply_writes ws (bs_view A).
Proof.
  revert A. induction ws as [|w ws IH]; intros A; [done|]. cbn [bs_install foldl]. fold (bs_install rec ws (bs_install1 rec A w)).
  rewrite IH. by destruct rec.
Qed.

Lemma bs_install_quiet (rec : bool) ws A :
  quiet A -> Forall (fun w => length w.2 = Z.to_nat BSIZE) ws -> NoDup ws.*1 ->
  (rec = false -> Forall (fun h => 0 < bs_ref A h) ws.*1) ->
  quiet (bs_install rec ws A) /\ bs_free A <= bs_free (bs_install rec ws A).
Proof.
  revert A. induction ws as [|[h d] ws IH]; intros A HA Hsz Hnd Hp; [done|]. cbn [fmap list_fmap fst] in *.
  apply Forall_cons in Hsz as [Hd Hsz]. apply NoDup_cons in Hnd as [Hh Hnd]. pose proof (qt_ref _ HA h) as Hrh.
  cbn [bs_install foldl]. fold (bs_install rec ws (bs_install1 rec A (h, d))).
  pose proof (quiet_put h d A HA Hd) as HA1. destruct rec.
  { destruct (IH (bs_install1 true A (h, d))) as [Q F]; done. }
  specialize (Hp eq_refl). apply Forall_cons in Hp as [Hp0 Hp].
  destruct (IH (bs_install1 false A (h, d))) as [Q F]; [|done|done| |].
  - destruct HA1 as [Q1 Q2 Q3]. split; [done| |done]. intros m. simpl. rewrite fn_insert_case. case_decide; [lia|apply Q2].
  - intros _. rewrite Forall_forall in *. intros x Hx. simpl. rewrite fn_insert_case, decide_False by (by intros ->). by apply Hp.
  - split; [done|]. etransitivity; [|exact F]. simpl. unfold is0.
    destruct (Z.eqb_spec (bs_ref A h) 0); [lia|]. destruct (_ =? 0); lia.
Qed.

Lemma entries_set lg f tail hs : lh_block (f lg) = lh_block lg -> entries lg tail hs -> entries (f lg) tail hs.
Proof. intros E H i h Hi. rewrite E. by apply H. Qed.

Lemma fmap_view_sizes (V : Z -> list Z) hs :
  (forall n, length (V n) = Z.to_nat BSIZE) -> Forall (fun w : Z * list Z => length w.2 = Z.to_nat BSIZE) ((fun h => (h, V h)) <$> hs).
Proof. intros H. induction hs as [|h hs IH]; constructor; [apply H|apply IH]. Qed.

Lemma fmap_view_keys (V : Z -> list Z) hs : ((fun h => (h, V h)) <$> hs).*1 = hs.
Proof. rewrite <- list_fmap_compose. by apply list_fmap_id. Qed.

Lemma homes_in start hs h : homes start hs -> h ∈ hs -> 0 <= h < 2^31 /\ ~ (start <= h <= start + LOGSIZE).
Proof. intros H Hh. unfold homes in H. rewrite Forall_forall in H. by apply H. Qed.

(** [commit] makes exactly these writes, and empties the in-memory log. *)
Lemma commit_spec hs lg w A k :
  at_ lg w A [] k -> log_dev lg = dev -> ready (log_start lg) hs A -> hs <> [] ->
  lh_n lg = Z.of_nat (length hs) -> entries lg 0 hs ->
  wp commit (fun _ k' => exists A', at_ (set_lh_n 0 lg) (w ++ commit_writes (log_start lg) A hs) A' [] k' /\
    quiet A' /\ 0 < bs_free A' /\ (forall n, bs_disk A' n = apply_writes (commit_writes (log_start lg) A hs) (bs_disk A) n)) k.
Proof.
  intros Hat Hd [HA Hpin Hfree Hh Hnd [Hs0 Hs] Hl] Hne Hn He. set (l := log_start lg) in *. unfold commit. wget.
  assert (0 <= LOGSIZE) as HLS by done.
  rewrite Hn. replace (Z.of_nat (length hs) >? 0) with true by (destruct hs; done). cbn [when].
  set (ws1 := logw (l + 1) (bs_view A) hs). set (A1 := bs_puts ws1 A).
  assert (quiet A1) as HA1 by (apply quiet_puts; [done|apply logw_sizes, (qt_size _ HA)]).
  destruct (bs_puts_ref ws1 A) as [Er1 Ef1]. fold A1 in Er1, Ef1.
  apply wp_bind. eapply wp_mono.
  { unfold write_log. wget. rewrite Hn, Nat2Z.id. eapply (write_log_loop_spec hs); [exact Hat|done..]. }
  cbv beta. intros _ k1 H1. replace (log_start lg + 0 + 1) with (l + 1) in H1 by (unfold l; lia). fold ws1 A1 in H1.
  assert (bs_view A1 l = bs_view A l) as El.
  { unfold A1. rewrite bs_puts_view. apply logw_other. lia. }
  set (h1 := hdr hs (bs_view A l)). assert (length h1 = Z.to_nat BSIZE) as Hh1 by (apply length_hdr; [done|apply HA]).
  apply wp_bind. eapply wp_mono; [eapply (write_head_spec hs); [exact H1|done|done|fold l; lia|done|done|lia]|].
  cbv beta zeta. intros _ k2 H2. fold l in H2. rewrite El in H2. fold h1 in H2. set (A2 := bs_put l h1 A1) in *.
  assert (quiet A2) as HA2 by by apply quiet_put.
  set (ws2 := (fun h => (h, bs_view A h)) <$> hs).
  assert (homew (l + 1) (bs_view A2) hs = ws2) as Ews.
  { apply homew_logw. intros i h Hi. simpl. rewrite fn_insert_case, decide_False by lia.
    unfold A1. rewrite bs_puts_view. by apply logw_view. }
  apply wp_bind. eapply wp_mono.
  { unfold install_trans. wget. rewrite Hn, Nat2Z.id.
    eapply (install_trans_loop_spec hs); [exact H2|done..| |]; cbn [bs_ref bs_free A2 bs_put bs_set_disk bs_set_view];
      [by rewrite Ef1|by rewrite Er1]. }
  cbv beta zeta. intros _ k3 H3. fold l in H3. rewrite Z.add_0_r, Ews in H3.
  destruct (bs_install_quiet false ws2 A2) as [HA3 Hf3]; [done|apply fmap_view_sizes, HA|unfold ws2; by rewrite fmap_view_keys| |].
  { intros _. unfold ws2. rewrite fmap_view_keys. cbn [bs_ref A2 bs_put bs_set_disk bs_set_view]. by rewrite Er1. }
  set (A3 := bs_install false ws2 A2) in *.
  wcall (at_k_setlog (set_lh_n 0) _ _ _ _ k3) u4 k4 H4.
  assert (0 < bs_free A3) as Hf3'. { cbn [bs_free A2 bs_put bs_set_disk bs_set_view] in Hf3. lia. }
  eapply wp_mono; [eapply (write_head_spec []); [exact H4|done|done|cbn [log_start set_lh_n]; fold l; lia|done|done|done]|].
  cbv beta zeta. intros _ k5 H5. cbn [log_start set_lh_n] in H5. fold l in H5.
  assert (bs_view A3 l = h1) as El3.
  { unfold A3. rewrite bs_install_view, apply_writes_notin; [simpl; by rewrite fn_insert_case, decide_True|].
    unfold ws2. rewrite fmap_view_keys. intros Hin. destruct (homes_in _ _ _ Hh Hin). lia. }
  rewrite El3 in H5. exists (bs_put l (hdr [] h1) A3). split_and!.
  - unfold commit_writes. fold ws1 h1 ws2. by rewrite !app_assoc in *.
  - apply quiet_put; [done|by apply length_hdr].
  - done.
  - intros n. unfold commit_writes. fold ws1 h1 ws2. rewrite !apply_writes_app. simpl.
    unfold A3. rewrite bs_install_disk. unfold A2. simpl. unfold A1. by rewrite bs_puts_disk.
Qed.

(** The disk writes of [recover_from_log], when the header lists [hs]. *)
Definition recover_writes (start : Z) (V : Z -> list Z) (hs : list Z) : list (Z * list Z) :=
  homew (start + 1) V hs ++ [(start, hdr [] (V start))].

Lemma homew_sizes l V hs : (forall n, length (V n) = Z.to_nat BSIZE) -> Forall (fun w => length w.2 = Z.to_nat BSIZE) (homew l V hs).
Proof. intros H. revert l. induction hs as [|h hs IH]; intros l; constructor; [apply H|apply IH]. Qed.

Lemma recover_spec hs lg w A k :
  at_ lg w A [] k -> log_dev lg = dev -> quiet A -> 1 < bs_free A ->
  0 <= log_start lg -> log_start lg + LOGSIZE < 2^31 -> (Z.to_nat LOGSIZE <= length (lh_block lg))%nat ->
  hd_says (bs_view A (log_start lg)) hs -> homes (log_start lg) hs -> NoDup hs -> Z.of_nat (length hs) <= LOGSIZE ->
  wp recover_from_log (fun _ k' => exists lg' A', let ws := recover_writes (log_start lg) (bs_view A) hs in
    at_ lg' (w ++ ws) A' [] k' /\ lh_n lg' = 0 /\ (forall n, bs_disk A' n = apply_writes ws (bs_disk A) n)) k.
Proof.
  intros Hat Hd HA Hfree Hs0 Hs Hll Hsay Hh Hnd Hl. set (l := log_start lg) in *. unfold recover_from_log.
  assert (0 <= LOGSIZE) as HLS by done.
  apply wp_bind. eapply wp_mono; [eapply (read_head_spec hs); [exact Hat|done|done|fold l; lia|lia|done|lia]|].
  cbv beta zeta. intros _ k1 (bl & H1 & He). set (lg1 := set_lh_block bl _) in *.
  set (ws := homew (l + 1) (bs_view A) hs).
  apply wp_bind. eapply wp_mono.
  { unfold install_trans. wget. cbn [lg1 lh_n set_lh_block set_lh_n]. rewrite Nat2Z.id.
    eapply (install_trans_loop_spec hs _ _ _ _ _ true); [exact H1|done..|lia|done]. }
  cbv beta zeta. intros _ k2 H2. cbn [lg1 log_start set_lh_block set_lh_n] in H2. fold l in H2. rewrite Z.add_0_r in H2. fold ws in H2.
  destruct (bs_install_quiet true ws A) as [HA2 Hf2]; [done|apply homew_sizes, HA|unfold ws; by rewrite homew_keys|done|].
  set (A2 := bs_install true ws A) in *.
  wcall (at_k_setlog (set_lh_n 0) _ _ _ _ k2) u3 k3 H3.
  eapply wp_mono; [eapply (write_head_spec []); [exact H3|done|done| |done|done|lia]|].
  { cbn [log_start set_lh_n lg1 set_lh_block]. fold l. lia. }
  cbv beta zeta. intros _ k4 H4. cbn [log_start set_lh_n lg1 set_lh_block] in H4. fold l in H4.
  assert (bs_view A2 l = bs_view A l) as El.
  { unfold A2. rewrite bs_install_view. apply apply_writes_notin. unfold ws. rewrite homew_keys.
    intros Hin. destruct (homes_in _ _ _ Hh Hin). lia. }
  rewrite El in H4. eexists _, _. split_and!; [unfold recover_writes; fold ws; rewrite app_assoc; exact H4|done|].
  intros n. unfold recover_writes. fold ws. rewrite apply_writes_app. simpl. unfold A2. by rewrite bs_install_disk.
Qed.

Lemma initlog_spec hs lg w A k sb :
  at_ lg w A [] k -> quiet A -> 1 < bs_free A -> 0 <= sb_logstart sb -> sb_logstart sb + LOGSIZE < 2^31 ->
  (Z.to_nat LOGSIZE <= length (lh_block lg))%nat ->
  hd_says (bs_view A (sb_logstart sb)) hs -> homes (sb_logstart sb) hs -> NoDup hs -> Z.of_nat (length hs) <= LOGSIZE ->
  wp (initlog dev sb) (fun _ k' => exists lg' A', let ws := recover_writes (sb_logstart sb) (bs_view A) hs in
    at_ lg' (w ++ ws) A' [] k' /\ lh_n lg' = 0 /\ (forall n, bs_disk A' n = apply_writes ws (bs_disk A) n)) k.
Proof.
  intros Hat HA Hfree Hs0 Hs Hll Hsay Hh Hnd Hl. unfold initlog. cbn [sizeof_logheader].
  assert (0 <= LOGSIZE) as HLS by done.
  replace (sizeof_logheader >=? BSIZE) with false by done. rewrite (s32_small (sb_logstart sb)) by lia.
  wcall (at_k_setlog (set_log_start (sb_logstart sb)) _ _ _ _ k) u1 k1 H1.
  wcall (at_k_setlog (set_log_size (s32 (sb_nlog sb))) _ _ _ _ k1) u2 k2 H2.
  wcall (at_k_setlog (set_log_dev dev) _ _ _ _ k2) u3 k3 H3.
  eapply wp_mono; [eapply (recover_spec hs); [exact H3|done..]|]. done.
Qed.

End log.

(** ** Crashes *)

(** What recovery makes of a disk that a crash left in the middle of the
    commit of the blocks [hs]. *)
Definition recovered (start : Z) (d : Z -> list Z) (hs : list Z) : Z -> list Z := apply_writes (recover_writes start d hs) d.

Lemma recovered_home start d hs n :
  homes start hs -> NoDup hs -> ~ (start <= n <= start + LOGSIZE) ->
  recovered start d hs n = match list_find (fun h => h = n) hs with Some (i, _) => d (start + 1 + Z.of_nat i) | None => d n end.
Proof.
  intros Hh Hnd Hn. unfold recovered, recover_writes. assert (0 <= LOGSIZE) by done.
  rewrite apply_writes_app. simpl. rewrite fn_insert_case, decide_False by lia.
  destruct (list_find _ hs) as [[i h]|] eqn:E.
  - apply list_find_Some in E as (Hi & -> & _). apply apply_writes_in; [by rewrite homew_keys|].
    clear -Hi. revert Hi. generalize (start + 1). revert i. induction hs as [|h hs IH]; intros i l Hi; [done|].
    destruct i as [|i]; simpl in *.
    + simplify_eq. rewrite Z.add_0_r. apply list_elem_of_here.
    + apply list_elem_of_further. replace (l + Z.of_nat (S i)) with (l + 1 + Z.of_nat i) by lia. by apply IH.
  - apply list_find_None in E. apply apply_writes_notin. rewrite homew_keys. intros Hin.
    rewrite Forall_forall in E. by apply (E n Hin).
Qed.

Lemma prefix_app_cases {A} (ws a b : list A) :
  ws `prefix_of` a ++ b -> ws `prefix_of` a \/ exists r, ws = a ++ r /\ r `prefix_of` b.
Proof.
  intros H. destruct (prefix_weak_total ws a (a ++ b)) as [H1|[r ->]]; [done|by apply prefix_app_r|by left|].
  right. exists r. split; [done|]. by apply prefix_app_inv in H.
Qed.

Lemma prefix_keys {A B} (ws a : list (A * B)) n : ws `prefix_of` a -> n ∈ ws.*1 -> n ∈ a.*1.
Proof. intros [r ->] H. rewrite fmap_app. apply elem_of_app. by left. Qed.

Lemma apply_writes_sizes ws d :
  (forall n, length (d n) = Z.to_nat BSIZE) -> Forall (fun w => length w.2 = Z.to_nat BSIZE) ws ->
  forall n, length (apply_writes ws d n) = Z.to_nat BSIZE.
Proof.
  revert d. induction ws as [|w ws IH]; intros d Hd Hw n; [done|]. apply Forall_cons in Hw as [H1 H2].
  apply (IH (<[w.1 := w.2]> d)); [|done]. intros m. rewrite fn_insert_case. by case_decide.
Qed.

Section crash.
Context (A : bstore) (hs : list Z) (l : Z) (d0 : Z -> list Z).
Hypothesis HA : quiet A.
Hypothesis Hh : homes l hs.
Hypothesis Hnd : NoDup hs.
Hypothesis Hlen : Z.of_nat (length hs) <= LOGSIZE.
Hypothesis Hd0 : forall n, length (d0 n) = Z.to_nat BSIZE.
Hypothesis Hempty : hd_n (d0 l) = 0.

Definition outside_log (n : Z) : Prop := ~ (l <= n <= l + LOGSIZE).
Definition all_old (d : Z -> list Z) : Prop := forall n, outside_log n -> d n = d0 n.
Definition all_new (d : Z -> list Z) : Prop :=
  forall n, outside_log n -> d n = if decide (n ∈ hs) then bs_view A n else d0 n.

(** A disk from which recovery finds one of the two states. *)
Definition recoverable (d : Z -> list Z) : Prop :=
  (forall n, length (d n) = Z.to_nat BSIZE) /\
  exists hs', (hs' = [] \/ hs' = hs) /\ hd_says (d l) hs' /\ (all_old (recovered l d hs') \/ all_new (recovered l d hs')).

Lemma recovered_nil d n : outside_log n -> recovered l d [] n = d n.
Proof. intros Hn. rewrite recovered_home; [done|constructor|constructor|done]. Qed.

Notation V := (bs_view A).
Notation ws1 := (logw (l + 1) V hs).
Notation h1 := (hdr hs (V l)).
Notation ws2 := ((fun h => (h, V h)) <$> hs).

Lemma crash_before_header ws : ws `prefix_of` ws1 -> recoverable (apply_writes ws d0).
Proof.
  intros Hp. assert (forall n, outside_log n \/ n = l -> apply_writes ws d0 n = d0 n) as Hk.
  { intros n Hn. apply apply_writes_notin. intros Hin. apply (prefix_keys _ _ _ Hp) in Hin.
    rewrite logw_keys, elem_of_seqZ in Hin. unfold outside_log in Hn. lia. }
  split.
  { apply apply_writes_sizes; [done|]. destruct Hp as [r E].
    pose proof (logw_sizes (l + 1) V hs (qt_size _ HA)) as Hsz. rewrite E in Hsz. by apply Forall_app in Hsz as [? _]. }
  exists []. split; [by left|]. split; [split; [rewrite Hk by (by right); done|done]|].
  left. intros n Hn. rewrite recovered_nil by done. auto.
Qed.

Lemma crash_sizes : Forall (fun w : Z * list Z => length w.2 = Z.to_nat BSIZE) (ws1 ++ [(l, h1)] ++ ws2 ++ [(l, hdr [] h1)]).
Proof.
  assert (length h1 = Z.to_nat BSIZE) as Hh1 by (apply length_hdr; [done|apply HA]).
  rewrite !Forall_app. split_and!; [apply logw_sizes, HA|by repeat constructor|apply fmap_view_sizes, HA|].
  repeat constructor. by apply length_hdr.
Qed.

(** The disk after the header is written and some blocks are installed. *)
Lemma crash_installing ws r :
  ws = ws1 ++ [(l, h1)] ++ r -> r `prefix_of` ws2 -> recoverable (apply_writes ws d0).
Proof.
  intros -> Hp. assert (0 <= LOGSIZE) as HLS by done.
  assert (forall n, n ∈ r.*1 -> n ∈ hs) as Hr.
  { intros n Hn. apply (prefix_keys _ _ _ Hp) in Hn. by rewrite fmap_view_keys in Hn. }
  rewrite !apply_writes_app. set (d1 := apply_writes ws1 d0). simpl. split.
  { apply apply_writes_sizes; [|destruct Hp as [r' E]; pose proof (fmap_view_sizes V hs (qt_size _ HA)) as Hs; rewrite E in Hs; by apply Forall_app in Hs as [? _]].
    intros n. rewrite fn_insert_case. case_decide; [apply length_hdr; [done|apply HA]|].
    apply apply_writes_sizes; [done|apply logw_sizes, HA]. }
  assert (forall n, n ∉ hs -> apply_writes r (<[l := h1]> d1) n = if decide (n = l) then h1 else d1 n) as Hk.
  { intros n Hn. rewrite apply_writes_notin by auto. apply fn_insert_case. }
  assert (forall n, l <= n <= l + LOGSIZE -> n ∉ hs) as Hlog.
  { intros n Hn Hin. destruct (homes_in _ _ _ Hh Hin). lia. }
  exists hs. split; [by right|]. split.
  - rewrite Hk, decide_True by (done || apply Hlog; lia). split; [apply hd_n_hdr; [done|apply HA]|].
    intros j h Hj. apply hd_block_hdr; [done|apply HA|done|]. apply list_elem_of_lookup_2 in Hj. by apply (homes_in _ _ _ Hh Hj).
  - right. intros n Hn. rewrite recovered_home by done. destruct (list_find _ hs) as [[i x]|] eqn:E.
    + apply list_find_Some in E as (Hi & -> & _). pose proof (lookup_lt_Some _ _ _ Hi) as Hlt.
      rewrite decide_True by (by eapply list_elem_of_lookup_2). rewrite Hk, decide_False by (lia || apply Hlog; lia).
      unfold d1. by apply logw_view.
    + apply list_find_None in E. rewrite Forall_forall in E.
      rewrite decide_False by (intros Hin; by apply (E n Hin)). rewrite Hk by (intros Hin; by apply (E n Hin)).
      unfold outside_log in Hn. rewrite decide_False by lia. unfold d1. apply logw_other. lia.
Qed.

Lemma commit_writes_new : all_new (apply_writes (commit_writes l A hs) d0).
Proof.
  intros n Hn. unfold outside_log in Hn. assert (0 <= LOGSIZE) as HLS by done.
  unfold commit_writes. rewrite !apply_writes_app. set (d1 := apply_writes ws1 d0). simpl. rewrite fn_insert_case, decide_False by lia.
  case_decide as Hin.
  - apply apply_writes_in; [by rewrite fmap_view_keys|]. apply list_elem_of_fmap. by exists n.
  - rewrite apply_writes_notin by (by rewrite fmap_view_keys). rewrite fn_insert_case, decide_False by lia.
    unfold d1. apply logw_other. lia.
Qed.

Lemma crash_committed : recoverable (apply_writes (ws1 ++ [(l, h1)] ++ ws2 ++ [(l, hdr [] h1)]) d0).
Proof.
  assert (length h1 = Z.to_nat BSIZE) as Hh1 by (apply length_hdr; [done|apply HA]).
  split; [apply apply_writes_sizes; [done|apply crash_sizes]|]. exists []. split; [by left|]. split.
  - rewrite !apply_writes_app. simpl. rewrite fn_insert_case, decide_True by done. split; [by apply hd_n_hdr|done].
  - right. intros n Hn. rewrite recovered_nil by done. by apply commit_writes_new.
Qed.

Lemma crash_cases ws : ws `prefix_of` commit_writes l A hs -> recoverable (apply_writes ws d0).
Proof.
  unfold commit_writes. intros [H|(r & -> & H)]%prefix_app_cases; [by apply crash_before_header|].
  apply prefix_app_cases in H as [H|(r1 & -> & H)].
  { destruct H as [r2 E]. destruct r as [|x r]; [rewrite app_nil_r; by apply crash_before_header|].
    assert (x :: r = [(l, h1)]) as -> by (destruct r; by simplify_eq/=).
    eapply (crash_installing _ []); [by rewrite app_nil_r|apply prefix_nil]. }
  apply prefix_app_cases in H as [H|(r2 & -> & H)]; [by eapply crash_installing|].
  destruct r2 as [|x r2]; [eapply (crash_installing _ ws2); [by rewrite app_nil_r|done]|].
  destruct H as [r3 E]. assert (x :: r2 = [(l, hdr [] h1)]) as -> by (destruct r2; by simplify_eq/=). apply crash_committed.
Qed.

End crash.
