(* ===== verification/LogProps.v ===== *)
(** * Transactions: [log_write], [begin_op], [end_op] and crashes *)

From S2P Require Import Prelude Riscv Monad State Kstring Bytes Printf Kalloc Vm Proc ProcInv Sleeplock Dlist Bio BioInv BioSpec BioClient Log LogInv.
#[local] Open Scope Z_scope.

#[local] Opaque acquire release bread bwrite brelse bpin bunpin setb wakeup commit.

Lemma fs_upd_log_id s : fs_upd_log (set_lh_block (lh_block (fs_log s))) s = s.
Proof. unfold fs_upd_log, set_lh_block. destruct s as [? ? ? [] ? ? ? ?]. done. Qed.

Section ops.
Context {W : Wakeups} {D : Disk} {DOk : DiskOk D} (dev : Z) (Hdev : dev <> 0) (p pid : Z) (k0 : kernel).
Notation at_ := (at_k dev p pid k0).

Lemma at_k_log_eq f lg w B H k : at_ lg w B H k -> at_ (f lg) w B H (set_fs (fs_upd_log f (k_fs k)) k).
Proof. intros Hat. pose proof (at_k_setlog dev p pid k0 f lg w B H k Hat) as Hw. exact Hw. Qed.

Lemma at_k_woke lg w B H k ps : at_ lg w B H k -> ps_woke (k_ps k) ps -> at_ lg w B H (set_ps ps k).
Proof.
  intros [H1 H2 H3 H4 H5 H6 H7] Hw. split; ksimp; try done; [by eapply (running_woke _ _ k)|].
  etransitivity; [done|]. exists (k_fs k), ps. split; [by destruct k|]. done.
Qed.

Lemma log_find_spec hs i0 k lg blockno :
  fs_log (k_fs k) = lg -> entries lg i0 hs -> 0 <= i0 -> Forall (fun h => 0 <= h < 2^31) hs ->
  log_find (length hs) i0 blockno k =
  Ret (match list_find (fun h => h = blockno) hs with Some (i, _) => i0 + Z.of_nat i | None => i0 + Z.of_nat (length hs) end) k.
Proof.
  intros Hlg. revert i0. induction hs as [|h hs IH]; intros i0 He Hi Hr.
  { simpl. by rewrite Z.add_0_r. }
  apply entries_cons in He as [Hh He]; [|done]. apply Forall_cons in Hr as [Hr0 Hr]. cbn [length log_find].
  assert (lh_get i0 k = Ret h k) as Hg. { unfold lh_get, getlog. kpure. by rewrite Hlg, Hh. }
  erewrite bind_eq by exact Hg. cbv beta. rewrite u32_small by lia. cbn [list_find].
  destruct (Z.eqb_spec h blockno) as [->|Hne].
  - rewrite decide_True by done. by rewrite Z.add_0_r.
  - rewrite decide_False by done. rewrite IH by (done || lia). f_equal.
    destruct (list_find _ hs) as [[i x]|]; simpl; lia.
Qed.

(** The log header after [log_write] of block [n]. *)
Definition logged (n : Z) (hs : list Z) (lg : log) : log :=
  if decide (n ∈ hs) then lg
  else set_lh_n (Z.of_nat (length hs) + 1) (set_lh_block (<[length hs := n]> (lh_block lg)) lg).

Lemma log_write_run hs lg w A H k n b :
  at_ lg w A H k -> (n, b) ∈ H -> lh_n lg = Z.of_nat (length hs) -> entries lg 0 hs ->
  Forall (fun h => 0 <= h < 2^31) hs -> 0 <= n < 2^31 ->
  Z.of_nat (length hs) < LOGSIZE -> Z.of_nat (length hs) < log_size lg - 1 -> 1 <= log_outstanding lg ->
  length (lh_block lg) = Z.to_nat LOGSIZE -> bs_ref A n + 1 < 2^31 ->
  wp (log_write b) (fun _ => at_ (logged n hs lg) w (if decide (n ∈ hs) then A else bs_set_ref n (bs_ref A n + 1) A) H) k.
Proof.
  intros Hat Hin Hn He Hr Hnr Hl Hsz Hout Hlen Hmax. pose proof Hat as [H1 H2 H3 H4 H5 H6 H7]. unfold log_write.
  apply wp_bind. eapply wp_eq; [apply acquire_eq; rewrite H4; apply not_elem_of_nil|]. rewrite H4.
  set (kl := set_held [LogLock] k). assert (fs_log (k_fs kl) = lg) as Hlg by done.
  unfold getlog. do 3 (apply wp_bind, wp_gets; cbv beta). rewrite Hlg, Hn.
  replace ((_ >=? LOGSIZE) || _) with false by (symmetry; apply orb_false_iff; split; rewrite Z.geb_leb; apply Z.leb_gt; lia).
  rewrite (proj2 (Z.ltb_ge _ _)) by lia. apply wp_bind, wp_gets. cbv beta.
  destruct (H6 _ _ Hin) as ((Hb & _ & Hbn) & _). change (fs_buf (k_fs kl) b) with (fs_buf (k_fs k) b). rewrite Hbn, Nat2Z.id.
  apply wp_bind. eapply wp_eq; [by apply (log_find_spec hs 0 kl lg)|]. rewrite !Z.add_0_l, s32_small by lia.
  unfold logged. destruct (list_find _ hs) as [[i x]|] eqn:E.
  - apply list_find_Some in E as (Hi & -> & _). pose proof (lookup_lt_Some _ _ _ Hi) as Hlt.
    rewrite !(decide_True (P := n ∈ hs)) by (by eapply list_elem_of_lookup_2).
    assert (lh_set (Z.of_nat i) n kl = Ret () kl) as Hset.
    { unfold lh_set, getlog. kpure. rewrite Nat2Z.id. rewrite Hlg, (proj2 (Nat.ltb_lt _ _)) by lia.
      unfold setlog, modify_fs, modify. f_equal. rewrite list_insert_id by (apply (He i); done).
      rewrite <- Hlg, fs_upd_log_id. done. }
    apply wp_bind. eapply wp_eq; [exact Hset|]. rewrite (proj2 (Z.eqb_neq _ _)) by lia. cbn [when].
    apply wp_bind, wp_ret. eapply wp_eq; [apply (release_eq _ []); [done|apply not_elem_of_nil]|].
    unfold kl. ksimp. rewrite <- H4. by ksimp.
  - apply list_find_None in E. rewrite Forall_forall in E.
    assert (n ∉ hs) as Hnin by (intros Hx; by apply (E n Hx)). rewrite !(decide_False (P := n ∈ hs)) by done.
    rewrite Z.eqb_refl. cbn [when]. apply wp_bind. set (bl := <[length hs := n]> (lh_block lg)).
    eapply wp_eq. { unfold lh_set, getlog. kpure. rewrite Nat2Z.id, Hlg, (proj2 (Nat.ltb_lt _ _)) by lia. fold bl. reflexivity. }
    pose proof (at_k_log_eq (set_lh_block bl) _ _ _ _ _ Hat) as Hat1. set (k1 := set_fs _ k) in Hat1.
    destruct (bstore_bpin dev Hdev (k_fs k1) A n b (set_held [LogLock] k1)) as (s' & Hrun & Hbc & Hhd & Hkp & Hob);
      [apply Hat1|done|simpl; set_solver|by apply Hat1|done|].
    assert (at_ (set_lh_block bl lg) w (bs_set_ref n (bs_ref A n + 1) A) H (set_fs s' k1)) as Hat2.
    { eapply (at_k_bufs _ _ _ _ _ _ _ _ H); [exact Hat1|done|done|done|]. intros m c Hmc.
      destruct (decide (m = n)) as [->|]; [|by left]. right.
      destruct (H6 _ _ Hin) as ((Hb1 & Hb2 & Hb3) & _), (H6 _ _ Hmc) as ((Hc1 & Hc2 & Hc3) & _).
      pose proof H1 as [[lru [_ Hok]] _]. by rewrite (bo_uniq _ Hok c b) by congruence. }
    apply (at_k_log_eq (set_lh_n (Z.of_nat (length hs) + 1))) in Hat2.
    unfold kl, modify_fs. apply wp_bind, wp_bind. eapply wp_eq; [unfold k1 in Hrun; ksimp; exact Hrun|].
    eapply wp_eq; [unfold setlog, modify_fs, modify; reflexivity|].
    eapply wp_eq; [apply (release_eq _ []); [done|apply not_elem_of_nil]|].
    unfold k1 in Hat2. ksimp. rewrite <- H4. ksimp. exact Hat2.
Qed.

(** [begin_op] when the log has room. *)
Lemma begin_op_run lg w A H k :
  at_ lg w A H k -> log_committing lg = 0 -> lh_n lg + (log_outstanding lg + 1) * MAXOPBLOCKS <= LOGSIZE ->
  wp begin_op (fun _ => at_ (set_log_outstanding (log_outstanding lg + 1) lg) w A H) k.
Proof.
  intros Hat Hc Hroom. pose proof (ak_held _ _ _ _ _ _ _ _ _ Hat) as Hh. pose proof (ak_log _ _ _ _ _ _ _ _ _ Hat) as Hlg.
  unfold begin_op. apply wp_bind. eapply wp_eq; [apply acquire_eq; rewrite Hh; apply not_elem_of_nil|]. rewrite Hh.
  assert (forall n, begin_op_loop n (set_held [LogLock] k) =
    (setlog (set_log_outstanding (log_outstanding lg + 1));; release LogLock) (set_held [LogLock] k)) as Hloop.
  { intros n. destruct n; cbn [begin_op_loop]; unfold getlog; kpure; kpure; kpure; ksimp; rewrite Hlg, Hc;
      by rewrite Z.gtb_ltb, (proj2 (Z.ltb_ge _ _)) by lia. }
  unfold wp. rewrite Hloop. fold (wp (setlog (set_log_outstanding (log_outstanding lg + 1));; release LogLock)
    (fun _ => at_ (set_log_outstanding (log_outstanding lg + 1) lg) w A H) (set_held [LogLock] k)).
  apply wp_bind. eapply wp_eq; [unfold setlog, modify_fs, modify; reflexivity|].
  eapply wp_eq; [apply (release_eq _ []); [done|apply not_elem_of_nil]|]. ksimp. rewrite <- Hh. ksimp.
  by apply (at_k_log_eq (set_log_outstanding (log_outstanding lg + 1))).
Qed.

(** [end_op] of the last operation commits. *)
Lemma end_op_run hs lg w A k :
  at_ lg w A [] k -> log_dev lg = dev -> log_outstanding lg = 1 -> log_committing lg = 0 ->
  ready (log_start lg) hs A -> hs <> [] -> lh_n lg = Z.of_nat (length hs) -> entries lg 0 hs ->
  wp end_op (fun _ k' => exists lg' A', at_ lg' (w ++ commit_writes (log_start lg) A hs) A' [] k' /\
    lh_n lg' = 0 /\ log_outstanding lg' = 0 /\ log_committing lg' = 0 /\ quiet A' /\
    (forall n, bs_disk A' n = apply_writes (commit_writes (log_start lg) A hs) (bs_disk A) n)) k.
Proof.
  intros Hat Hd Ho Hc Hrdy Hne Hn He. pose proof (ak_held _ _ _ _ _ _ _ _ _ Hat) as Hh. pose proof (ak_log _ _ _ _ _ _ _ _ _ Hat) as Hlg.
  unfold end_op. apply wp_bind. eapply wp_eq; [apply acquire_eq; rewrite Hh; apply not_elem_of_nil|]. rewrite Hh.
  unfold getlog. apply wp_bind, wp_gets. ksimp. rewrite Hlg, Ho.
  apply wp_bind. eapply wp_eq; [unfold setlog, modify_fs, modify; reflexivity|]. ksimp.
  pose proof (at_k_log_eq (set_log_outstanding (1 - 1)) _ _ _ _ _ Hat) as H1. set (k1 := set_fs _ k) in H1.
  apply wp_bind, wp_gets. ksimp. change (fs_log (fs_upd_log ?f ?s)) with (f (fs_log s)).
  rewrite Hlg. cbn [log_committing set_log_outstanding]. rewrite Hc. cbn [truthy negb Z.eqb].
  apply wp_bind, wp_gets. ksimp. cbn [fs_upd_log fs_log log_outstanding set_log_outstanding Z.sub Z.add Z.opp Z.pos_sub Z.eqb].
  apply wp_bind, wp_bind. eapply wp_eq; [unfold setlog, modify_fs, modify; reflexivity|]. apply wp_ret.
  apply wp_bind. eapply wp_eq; [apply (release_eq _ []); [done|apply not_elem_of_nil]|]. ksimp. cbn [when]. rewrite <- Hh. ksimp.
  apply (at_k_log_eq (set_log_committing 1)) in H1. unfold k1 in H1. ksimp.
  apply wp_bind. eapply wp_mono; [eapply (commit_spec dev Hdev p pid k0 hs); [exact H1|done..]|].
  cbv beta. intros _ k2 (A2 & H2 & Hq & Hf & Hdisk). cbn [log_start set_log_committing set_log_outstanding] in H2, Hdisk.
  pose proof (ak_held _ _ _ _ _ _ _ _ _ H2) as Hh2.
  apply wp_bind. eapply wp_eq; [apply acquire_eq; rewrite Hh2; apply not_elem_of_nil|]. rewrite Hh2.
  apply wp_bind. eapply wp_eq; [unfold setlog, modify_fs, modify; reflexivity|]. ksimp.
  apply (at_k_log_eq (set_log_committing 0)) in H2. set (s3 := fs_upd_log _ (k_fs k2)) in *.
  destruct (wakeup_woke ChanLog (set_fs s3 (set_held [LogLock] k2))) as (ps & Hwk & Hwo).
  { intros i. ksimp. set_solver. }
  apply wp_bind. eapply wp_eq; [exact Hwk|]. eapply wp_eq; [apply (release_eq _ []); [done|apply not_elem_of_nil]|]. ksimp.
  pose proof (at_k_woke _ _ _ _ _ _ H2 Hwo) as H3. ksimp.
  eexists _, A2. split; [rewrite <- Hh2; ksimp; exact H3|by split_and!].
Qed.

End ops.

(** A machine that starts again with the disk [d]: the cache is empty, and the
    process that mounts the file system runs. *)
Record rebooted (d : Z -> list Z) (p pid : Z) (k : kernel) : Prop := {
  rb_cold : cold (k_fs k);
  rb_disk n : fs_disk (k_fs k) n = d n;
  rb_held : k_held k = [];
  rb_run : running k p pid;
  rb_hdr : length (lh_block (fs_log (k_fs k))) = Z.to_nat LOGSIZE
}.

(** The last operation of a transaction is about to end: the transaction's
    blocks [hs] are pinned in the cache with the contents of the store [A],
    the in-memory log lists them, and the log on the disk is empty. *)
Record ending (dev p pid : Z) (k : kernel) (lg : log) (A : bstore) (hs : list Z) : Prop := {
  en_at : at_k dev p pid k lg (fs_writes (k_fs k)) A [] k;
  en_dev : log_dev lg = dev;
  en_last : log_outstanding lg = 1 /\ log_committing lg = 0;
  en_ready : ready (log_start lg) hs A;
  en_some : hs <> [];
  en_hdr : lh_n lg = Z.of_nat (length hs) /\ entries lg 0 hs;
  en_disk n : length (fs_disk (k_fs k) n) = Z.to_nat BSIZE;
  en_empty : hd_n (fs_disk (k_fs k) (log_start lg)) = 0
}.

Section crash.
Context {W : Wakeups} {D : Disk} {DOk : DiskOk D} (dev : Z) (Hdev : dev <> 0).

Lemma quiet_cold d : (forall n, length (d n) = Z.to_nat BSIZE) -> quiet (cold_store d).
Proof. intros H. split; [done|simpl; lia|done]. Qed.

(** Recovery of a recoverable disk. *)
Lemma initlog_recovers A hs l d0 d p pid kb sb :
  homes l hs -> NoDup hs -> Z.of_nat (length hs) <= LOGSIZE -> 0 <= l -> l + LOGSIZE < 2^31 ->
  recoverable A hs l d0 d -> rebooted d p pid kb -> sb_logstart sb = l ->
  exists kr, initlog dev sb kb = Ret () kr /\ hd_n (fs_disk (k_fs kr) l) = 0 /\
    (all_old l d0 (fs_disk (k_fs kr)) \/ all_new A hs l d0 (fs_disk (k_fs kr))).
Proof.
  intros Hh Hnd Hl Hl0 Hmax (Hsz & hs' & Hor & Hsay & Hrec) [Hcold Hdisk Hheld Hrun Hlen] Hsb.
  pose proof (cold_bcache dev (k_fs kb) Hdev Hcold) as Hbc.
  assert (homes l hs' /\ NoDup hs' /\ Z.of_nat (length hs') <= LOGSIZE) as (Hh' & Hnd' & Hl').
  { destruct Hor as [-> | ->]; [|done]. split_and!; [constructor|constructor|done]. }
  destruct (wp_elim _ _ _ (initlog_spec dev Hdev p pid kb hs' (fs_log (k_fs kb)) (fs_writes (k_fs kb)) (cold_store (fs_disk (k_fs kb))) kb sb
    ltac:(split; (done || (intros ? ? Hx; by apply elem_of_nil in Hx)))
    ltac:(apply quiet_cold; intros n; by rewrite Hdisk) ltac:(done) ltac:(by rewrite Hsb) ltac:(by rewrite Hsb) ltac:(lia)
    ltac:(rewrite Hsb; simpl; by rewrite Hdisk) ltac:(by rewrite Hsb) Hnd' Hl')) as (u & kr & Hrunr & lg' & A' & Hat & Hn & Hd').
  destruct u. exists kr. split; [done|]. rewrite Hsb in Hd'. simpl bs_view in Hd'. simpl bs_disk in Hd'.
  assert (forall n, fs_disk (k_fs kr) n = apply_writes (recover_writes l (fs_disk (k_fs kb)) hs') (fs_disk (k_fs kb)) n) as E.
  { intros n. destruct Hat as [[_ Hrel] _ _ _ _ _ _]. by rewrite (br_disk _ _ _ Hrel). }
  assert (forall n, outside_log l n -> fs_disk (k_fs kr) n = recovered l d hs' n) as Eo.
  { intros n Hn'. rewrite E. fold (recovered l (fs_disk (k_fs kb)) hs' n). rewrite !recovered_home by done.
    destruct (list_find _ hs') as [[i x]|]; apply Hdisk. }
  split.
  - rewrite E. unfold recover_writes. rewrite apply_writes_app. simpl. rewrite fn_insert_case, decide_True by done.
    rewrite Hdisk. by rewrite hd_n_hdr.
  - destruct Hrec as [Hr|Hr]; [left|right]; intros n Hn'; rewrite Eo by done; by apply Hr.
Qed.

(** C1: A transaction is atomic with respect to crashes. When the last
    operation of a transaction ends, [end_op] returns and the disk has the new
    content of every block of the transaction; and if the machine stops after
    any prefix of the disk writes [end_op] makes, then [initlog] on restart
    returns with an empty log and a disk on which, outside of the log area,
    either every block has its old content, or every block of the transaction
    has its new content and every other block its old one. *)
Theorem end_op_crash_atomic p pid k lg A hs :
  ending dev p pid k lg A hs ->
  let start := log_start lg in
  let d0 := fs_disk (k_fs k) in
  exists k' ws, end_op k = Ret () k' /\ fs_writes (k_fs k') = fs_writes (k_fs k) ++ ws /\
    all_new A hs start d0 (fs_disk (k_fs k')) /\
    forall crashed p' pid' kb sb,
      crashed `prefix_of` ws -> rebooted (apply_writes crashed d0) p' pid' kb -> sb_logstart sb = start ->
      exists kr, initlog dev sb kb = Ret () kr /\ hd_n (fs_disk (k_fs kr) start) = 0 /\
        (all_old start d0 (fs_disk (k_fs kr)) \/ all_new A hs start d0 (fs_disk (k_fs kr))).
Proof.
  intros [Hat Hd [Ho Hc] Hrdy Hne [Hn He] Hsz Hemp] start d0. pose proof Hrdy as [HA Hpin Hfree Hh Hnd [Hs0 Hs] Hl].
  destruct (wp_elim _ _ _ (end_op_run dev Hdev p pid k hs lg _ A k Hat Hd Ho Hc Hrdy Hne Hn He))
    as (u & k' & Hrun & lg' & A' & Hat' & _ & _ & _ & _ & Hdisk).
  destruct u. exists k', (commit_writes start A hs). split; [done|]. split; [by apply (ak_writes _ _ _ _ _ _ _ _ _ Hat')|].
  assert (forall n, fs_disk (k_fs k') n = apply_writes (commit_writes start A hs) d0 n) as E.
  { intros n. destruct Hat' as [[_ Hrel'] _ _ _ _ _ _], Hat as [[_ Hrel] _ _ _ _ _ _]. rewrite (br_disk _ _ _ Hrel'), Hdisk.
    unfold d0. fold start. apply apply_writes_pointwise. intros m. symmetry. apply (br_disk _ _ _ Hrel). }
  split.
  - intros n Hout. rewrite E. by apply commit_writes_new.
  - intros crashed p' pid' kb sb Hpre Hrb Hsb. eapply (initlog_recovers A hs start d0); try done.
    apply crash_cases; done.
Qed.

End crash.

Module Demo.

#[local] Instance no_wakeups : Wakeups := 0%nat.
#[local] Instance disk : Disk := ideal_disk.

(** Process 0 runs with pid 1; the disk is all zeros. *)
Definition kb : kernel := set_ps (mkprocsys (fun _ => set_pid 1 proc0) (Some 0) 2 None 0) boot.
Definition lg0 : log := mklog 2 30 1 0 1 0 (replicate 30 0).
Definition new : list Z := replicate 1024 7.

(** A transaction that writes block 100. *)
Definition transaction : K unit :=
  setlog (fun _ => lg0);;
  b ← bread 1 100;
  setb b (fun x => set_b_data new x);;
  log_write b;;
  brelse b.

Lemma kb_bufs b : inb b -> b_valid (fs_buf (k_fs kb) b) = 0 /\ b_dev (fs_buf (k_fs kb) b) = 0 /\ b_refcnt (fs_buf (k_fs kb) b) = 0.
Proof. intros _. by split_and!. Qed.

Lemma kb_facts :
  fs_log (k_fs kb) = log0 /\ fs_writes (k_fs kb) = [] /\ k_held kb = [] /\ running kb 0 1 /\
  (forall n, fs_disk (k_fs kb) n = replicate 1024 0).
Proof. split_and!; [reflexivity|reflexivity|reflexivity|split; reflexivity|reflexivity]. Qed.

#[local] Opaque kb.

(** The cache after boot. *)
Lemma kb_at : exists k1, at_k 1 0 1 k1 log0 [] (cold_store (fs_disk (k_fs kb))) [] k1.
Proof.
  destruct (binit_cold kb kb_bufs) as (s & _ & Hcold & [f ->]). destruct kb_facts as (H1 & H2 & H3 & H4 & _).
  exists (set_fs (fs_set_bufs f (k_fs kb)) kb). split; ksimp.
  - apply (cold_bcache 1) in Hcold; [exact Hcold|lia].
  - exact H1.
  - exact H2.
  - exact H3.
  - exact H4.
  - intros ? ? Hx. by apply elem_of_nil in Hx.
  - reflexivity.
Qed.

Definition store1 : bstore := bs_set_ref 100 1 (bs_set_view 100 new (cold_store (fs_disk (k_fs kb)))).

Lemma transaction_run k1 :
  at_k 1 0 1 k1 log0 [] (cold_store (fs_disk (k_fs kb))) [] k1 ->
  wp transaction (fun _ => at_k 1 0 1 k1 (logged 100 [] lg0) [] store1 []) k1.
Proof.
  intros Hat. assert (1 <> 0) as Hd by lia. assert (forall n, bs_lock (cold_store (fs_disk (k_fs kb))) n = unlocked) as Hlk by done.
  assert (forall n, bs_ref (cold_store (fs_disk (k_fs kb))) n = 0) as Hr by done.
  assert (bs_free (cold_store (fs_disk (k_fs kb))) = 30) as Hf by done.
  unfold store1. set (A := cold_store (fs_disk (k_fs kb))) in *. clearbody A.
  unfold transaction. apply wp_bind. eapply wp_mono; [apply (at_k_setlog _ _ _ _ (fun _ => lg0) _ _ _ _ k1 Hat)|]. cbv beta. intros _ k2 H2.
  apply wp_bind. eapply wp_mono; [eapply (at_k_bread _ Hd _ _ _ _ _ _ _ k2 100); [exact H2|apply not_elem_of_nil|apply Hlk|rewrite Hr; lia|lia]|].
  cbv beta. intros b k3 H3. rewrite Hr in H3.
  apply wp_bind. eapply wp_mono; [eapply (at_k_setdata _ Hd _ _ _ _ _ _ _ k3 100 b (fun _ => new)); [exact H3|bs_in]|].
  cbv beta. intros _ k4 H4.
  apply wp_bind. eapply wp_mono; [eapply (log_write_run 1 Hd 0 1 k1 []); [exact H4|bs_in|..]|].
  all: try (cbn; lia).
  { intros i h Hi. discriminate Hi. }
  { constructor. }
  { reflexivity. }
  { reflexivity. }
  { cbn [bs_ref bs_set_ref bs_set_view bs_set_lock]. rewrite fn_insert_case, decide_True by done. lia. }
  cbv beta. intros _ k5 H5. rewrite decide_False in H5 by apply not_elem_of_nil.
  eapply wp_mono; [eapply (at_k_brelse _ Hd _ _ _ _ _ _ _ [] k5 100 b); [exact H5|bs_in|..]|].
  { cbn [bs_lock bs_set_ref bs_set_view bs_set_lock]. by rewrite fn_insert_case, decide_True. }
  { cbn [bs_ref bs_set_ref bs_set_view bs_set_lock]. rewrite !fn_insert_case, !decide_True by done. lia. }
  { intros x Hx. by apply elem_of_nil in Hx. }
  cbv beta. intros _ k6 H6. eapply at_k_ext; [|exact H6]. unfold bs_eq.
  cbn [bs_view bs_ref bs_lock bs_disk bs_free bs_set_view bs_set_ref bs_set_lock]. rewrite !Hr, Hf.
  split_and!; intros; rewrite ?fn_insert_case; repeat case_decide; try done.
Qed.

Lemma store1_ready : ready 2 [100] store1.
Proof.
  destruct kb_facts as (_ & _ & _ & _ & Hd). split.
  - split.
    + intros n. reflexivity.
    + intros n. cbn. rewrite fn_insert_case. case_decide; lia.
    + intros n. cbn [bs_view store1 bs_set_ref bs_set_view cold_store]. rewrite fn_insert_case.
      case_decide; [reflexivity|by rewrite Hd].
  - constructor; [|constructor]. cbn. rewrite fn_insert_case, decide_True by done. lia.
  - vm_compute. done.
  - constructor; [|constructor]. unfold LOGSIZE, MAXOPBLOCKS. lia.
  - repeat constructor. apply not_elem_of_nil.
  - unfold LOGSIZE, MAXOPBLOCKS. lia.
  - unfold LOGSIZE, MAXOPBLOCKS. simpl. lia.
Qed.

Lemma transaction_ends : exists k, ending 1 0 1 k (logged 100 [] lg0) store1 [100].
Proof.
  destruct kb_at as [k1 Hat]. destruct (wp_elim _ _ _ (transaction_run k1 Hat)) as (u & k & _ & H). exists k.
  pose proof H as [[Hi Hrel] H2 H3 H4 H5 H6 H7]. destruct kb_facts as (_ & _ & _ & _ & Hd).
  assert (forall n, fs_disk (k_fs k) n = replicate 1024 0) as Hdisk.
  { intros n. rewrite (br_disk _ _ _ Hrel). apply Hd. }
  assert (logged 100 [] lg0 = mklog 2 30 1 0 1 1 (100 :: replicate 29 0)) as Hlg.
  { unfold logged. by rewrite decide_False by apply not_elem_of_nil. }
  rewrite Hlg in *. split.
  - split; [split; assumption|assumption|reflexivity|assumption|assumption|assumption|reflexivity].
  - reflexivity.
  - split; reflexivity.
  - exact store1_ready.
  - discriminate.
  - split; [reflexivity|]. intros [|i] h Hh; [|discriminate Hh]. exact Hh.
  - intros n. by rewrite Hdisk.
  - rewrite Hdisk. vm_compute. reflexivity.
Qed.

End Demo.

Lemma end_op_crash_atomic_witness :
  exists k, ending 1 0 1 k (logged 100 [] Demo.lg0) Demo.store1 [100] /\
    exists k' ws, end_op (W := Demo.no_wakeups) (D := ideal_disk) k = Ret () k' /\
      fs_writes (k_fs k') = fs_writes (k_fs k) ++ ws.
Proof.
  destruct Demo.transaction_ends as [k Hk]. exists k. split; [exact Hk|].
  destruct (end_op_crash_atomic (W := Demo.no_wakeups) (D := ideal_disk) 1 ltac:(lia) 0 1 k _ _ _ Hk) as (k' & ws & H1 & H2 & _).
  exists k', ws. split; assumption.
Defined.
