(* ===== verification/Fs.v ===== *)
(** * The file system ([fs.c])

    Blocks, inodes, directories and path names, over the log and the buffer
    cache. An inode pointer is an index into [itable.inode], [None] the null
    pointer. A local variable of a C function whose address is taken (a
    [struct dirent] given to [readi] and [writei]) is memory of the process's
    kernel stack; strings that stay in the kernel are lists of bytes. *)

From S2P Require Import Prelude Riscv Monad State Kstring Bytes Printf Kalloc Vm Proc Sleeplock Bio Log.
#[local] Open Scope Z_scope.

Definition NINODE : Z := 50.
Definition ROOTDEV : Z := 1.
Definition ROOTINO : Z := 1.
Definition FSMAGIC : Z := 0x10203040.
Definition NDIRECT : Z := 12.
Definition NINDIRECT : Z := BSIZE / 4.
Definition MAXFILE : Z := NDIRECT + NINDIRECT.
Definition DIRSIZ : Z := 14.
Definition T_DIR : Z := 1.
Definition T_FILE : Z := 2.
Definition T_DEVICE : Z := 3.

(** [sizeof(struct dinode)] and [sizeof(struct dirent)]. *)
Definition sizeof_dinode : Z := 64.
Definition sizeof_dirent : Z := 16.

Definition IPB : Z := BSIZE / sizeof_dinode.
Definition IBLOCK (i : Z) (sb : superblock) : Z := u32 (i / IPB + sb_inodestart sb).
Definition BPB : Z := BSIZE * 8.
Definition BBLOCK (b : Z) (sb : superblock) : Z := u32 (b / BPB + sb_bmapstart sb).

(** [bp->data[i]]. *)
Definition byte_at (i : Z) (d : list Z) : Z := rd 1 i d.

(** The fields of the [struct dinode] at offset [o] of a block. *)
Definition di_off (inum : Z) : Z := (inum mod IPB) * sizeof_dinode.
Definition di_type (o : Z) (d : list Z) : Z := rd16s o d.
Definition di_major (o : Z) (d : list Z) : Z := rd16s (o + 2) d.
Definition di_minor (o : Z) (d : list Z) : Z := rd16s (o + 4) d.
Definition di_nlink (o : Z) (d : list Z) : Z := rd16s (o + 6) d.
Definition di_size (o : Z) (d : list Z) : Z := rd 4 (o + 8) d.
Definition di_addrs (o : Z) (d : list Z) : list Z := (fun i => rd 4 (o + 12 + 4 * i) d) <$> seqZ 0 (NDIRECT + 1).

Definition addrs_bytes (l : list Z) : list Z := l ≫= Z_to_little_endian 4 8.

(** The assignments of [iupdate] to the [struct dinode] at offset [o]. *)
Definition put_dinode (o : Z) (ip : inode) (d : list Z) : list Z :=
  let d := wr 2 o (i_type ip) d in
  let d := wr 2 (o + 2) (i_major ip) d in
  let d := wr 2 (o + 4) (i_minor ip) d in
  let d := wr 2 (o + 6) (i_nlink ip) d in
  let d := wr 4 (o + 8) (i_size ip) d in
  splice (o + 12) (addrs_bytes (i_addrs ip)) d.

(** The assignments of [ilock] from the [struct dinode] at offset [o]. *)
Definition get_dinode (o : Z) (d : list Z) (ip : inode) : inode :=
  set_i_addrs (di_addrs o d) (set_i_size (di_size o d) (set_i_nlink (di_nlink o d)
    (set_i_minor (di_minor o d) (set_i_major (di_major o d) (set_i_type (di_type o d) ip))))).

Definition geti {A : Type} (ip : Z) (f : inode -> A) : K A := gets (fun k => f (fs_inode (k_fs k) ip)).
Definition seti (ip : Z) (f : inode -> inode) : K unit := modify_fs (fs_upd_inode ip f).
Definition getsb {A : Type} (f : superblock -> A) : K A := gets (fun k => f (fs_sb (k_fs k))).

(** [ip->addrs[i]]. *)
Definition addr_at (i : Z) (ip : inode) : Z := default 0 (i_addrs ip !! Z.to_nat i).
Definition set_addr_at (i a : Z) (ip : inode) : inode := set_i_addrs (<[Z.to_nat i := a]> (i_addrs ip)) ip.

(** An address in the running process's kernel stack. *)
Definition local_addr (off : Z) : K Z :=
  p ← curproc;
  ks ← getp p p_kstack;
  mret (ks + off).

Section fs.
Context {L : Layout} {W : Wakeups} {D : Disk}.

(** ** Blocks *)

(** [memmove(sb, bp->data, sizeof( *sb))]. *)
Definition sb_of_bytes (d : list Z) : superblock :=
  mksuperblock (rd 4 0 d) (rd 4 4 d) (rd 4 8 d) (rd 4 12 d) (rd 4 16 d) (rd 4 20 d) (rd 4 24 d) (rd 4 28 d).

Definition readsb (dev : Z) : K unit :=
  bp ← bread dev 1;
  d ← getb bp b_data;
  modify_fs (fs_set_sb (sb_of_bytes d));;
  brelse bp.

Definition fsinit (dev : Z) : K unit :=
  readsb dev;;
  magic ← getsb sb_magic;
  if negb (magic =? FSMAGIC) then panic "invalid file system"
  else sb ← getsb id; initlog dev sb.

Definition bzero (dev bno : Z) : K unit :=
  bp ← bread dev bno;
  setb bp (fun x => set_b_data (splice 0 (replicate (Z.to_nat BSIZE) 0) (b_data x)) x);;
  log_write bp;;
  brelse bp.

(** The inner loop of [balloc] on the bitmap block in [bp]: the first free bit
    from [bi] on is set and returned. *)
Fixpoint balloc_inner (fuel : nat) (bp b bi size : Z) : K (option Z) :=
  if (bi <? BPB) && (b + bi <? size) then
    match fuel with
    | O => out_of_fuel
    | S fuel' =>
        d ← getb bp b_data;
        let m := Z.shiftl 1 (bi mod 8) in
        if Z.land (byte_at (bi / 8) d) m =? 0 then
          setb bp (fun x => set_b_data (wr 1 (bi / 8) (Z.lor (byte_at (bi / 8) (b_data x)) m) (b_data x)) x);;
          mret (Some bi)
        else balloc_inner fuel' bp b (bi + 1) size
    end
  else mret None.

Fixpoint balloc_loop (fuel : nat) (dev b : Z) : K Z :=
  size ← getsb sb_size;
  if b <? size then
    match fuel with
    | O => out_of_fuel
    | S fuel' =>
        sb ← getsb id;
        bp ← bread dev (BBLOCK b sb);
        o ← balloc_inner (Z.to_nat BPB) bp b 0 size;
        match o with
        | Some bi =>
            log_write bp;;
            brelse bp;;
            bzero dev (b + bi);;
            mret (b + bi)
        | None => brelse bp;; balloc_loop fuel' dev (b + BPB)
        end
    end
  else panic "balloc: out of blocks".

Definition balloc (dev : Z) : K Z :=
  size ← getsb sb_size;
  balloc_loop (S (Z.to_nat (size / BPB))) dev 0.

Definition bfree (dev b : Z) : K unit :=
  sb ← getsb id;
  bp ← bread dev (BBLOCK b sb);
  d ← getb bp b_data;
  let bi := b mod BPB in
  let m := Z.shiftl 1 (bi mod 8) in
  if Z.land (byte_at (bi / 8) d) m =? 0 then panic "freeing free block"
  else
    setb bp (fun x => set_b_data (wr 1 (bi / 8) (Z.land (byte_at (bi / 8) (b_data x)) (Z.lnot m)) (b_data x)) x);;
    log_write bp;;
    brelse bp.

(** ** Inodes *)

Fixpoint iinit_loop (n : nat) (i : Z) : K unit :=
  match n with
  | O => mret ()
  | S n' => initsleeplock (InodeSL i);; iinit_loop n' (i + 1)
  end.

Definition iinit : K unit := iinit_loop (Z.to_nat NINODE) 0.

(** The loop of [iget]: the entry of the inode, or else the first empty
    one. *)
Fixpoint iget_loop (n : nat) (ip : Z) (empty : option Z) (dev inum : Z) : K (Z + option Z) :=
  match n with
  | O => mret (inr empty)
  | S n' =>
      i ← geti ip id;
      if (0 <? i_ref i) && (i_dev i =? dev) && (i_inum i =? inum) then mret (inl ip)
      else
        let empty := if bool_decide (empty = None) && (i_ref i =? 0) then Some ip else empty in
        iget_loop n' (ip + 1) empty dev inum
  end.

Definition iget (dev inum : Z) : K Z :=
  acquire ItableLock;;
  r ← iget_loop (Z.to_nat NINODE) 0 None dev inum;
  match r with
  | inl ip =>
      seti ip (fun i => set_i_ref (i_ref i + 1) i);;
      release ItableLock;;
      mret ip
  | inr None => panic "iget: no inodes"
  | inr (Some ip) =>
      seti ip (set_i_dev dev);;
      seti ip (set_i_inum inum);;
      seti ip (set_i_ref 1);;
      seti ip (set_i_valid 0);;
      release ItableLock;;
      mret ip
  end.

Fixpoint ialloc_loop (fuel : nat) (dev type inum : Z) : K Z :=
  sb ← getsb id;
  if inum <? sb_ninodes sb then
    match fuel with
    | O => out_of_fuel
    | S fuel' =>
        bp ← bread dev (IBLOCK inum sb);
        d ← getb bp b_data;
        let o := di_off inum in
        if di_type o d =? 0 then
          setb bp (fun x => set_b_data (splice o (replicate (Z.to_nat sizeof_dinode) 0) (b_data x)) x);;
          setb bp (fun x => set_b_data (wr 2 o type (b_data x)) x);;
          log_write bp;;
          brelse bp;;
          iget dev inum
        else brelse bp;; ialloc_loop fuel' dev type (inum + 1)
    end
  else panic "ialloc: no inodes".

Definition ialloc (dev type : Z) : K Z :=
  n ← getsb sb_ninodes;
  ialloc_loop (Z.to_nat n) dev type 1.

Definition iupdate (ip : Z) : K unit :=
  i ← geti ip id;
  sb ← getsb id;
  bp ← bread (i_dev i) (IBLOCK (i_inum i) sb);
  i ← geti ip id;
  setb bp (fun x => set_b_data (put_dinode (di_off (i_inum i)) i (b_data x)) x);;
  log_write bp;;
  brelse bp.

Definition idup (ip : Z) : K Z :=
  acquire ItableLock;;
  seti ip (fun i => set_i_ref (i_ref i + 1) i);;
  release ItableLock;;
  mret ip.

Definition ilock (ip : Z) : K unit :=
  r ← geti ip i_ref;
  if r <? 1 then panic "ilock"
  else
    acquiresleep (InodeSL ip);;
    v ← geti ip i_valid;
    if v =? 0 then
      i ← geti ip id;
      sb ← getsb id;
      bp ← bread (i_dev i) (IBLOCK (i_inum i) sb);
      d ← getb bp b_data;
      seti ip (get_dinode (di_off (i_inum i)) d);;
      brelse bp;;
      seti ip (set_i_valid 1);;
      t ← geti ip i_type;
      if t =? 0 then panic "ilock: no type" else mret ()
    else mret ().

Definition iunlock (ip : Z) : K unit :=
  h ← holdingsleep (InodeSL ip);
  r ← geti ip i_ref;
  if negb h || (r <? 1) then panic "iunlock"
  else releasesleep (InodeSL ip).

(** ** Inode content *)

Definition bmap (ip bn : Z) : K Z :=
  if bn <? NDIRECT then
    addr ← geti ip (addr_at bn);
    if addr =? 0 then
      dev ← geti ip i_dev;
      addr ← balloc dev;
      seti ip (set_addr_at bn addr);;
      mret addr
    else mret addr
  else
    let bn := bn - NDIRECT in
    if bn <? NINDIRECT then
      addr ← geti ip (addr_at NDIRECT);
      addr ← (if addr =? 0 then
                dev ← geti ip i_dev;
                addr ← balloc dev;
                seti ip (set_addr_at NDIRECT addr);;
                mret addr
              else mret addr);
      dev ← geti ip i_dev;
      bp ← bread dev addr;
      d ← getb bp b_data;
      let addr := rd 4 (4 * bn) d in
      addr ← (if addr =? 0 then
                dev ← geti ip i_dev;
                addr ← balloc dev;
                setb bp (fun x => set_b_data (wr 4 (4 * bn) addr (b_data x)) x);;
                log_write bp;;
                mret addr
              else mret addr);
      brelse bp;;
      mret addr
    else panic "bmap: out of range".

Fixpoint itrunc_direct (n : nat) (ip i : Z) : K unit :=
  match n with
  | O => mret ()
  | S n' =>
      a ← geti ip (addr_at i);
      when (truthy a)
        (dev ← geti ip i_dev;
         bfree dev a;;
         seti ip (set_addr_at i 0));;
      itrunc_direct n' ip (i + 1)
  end.

Fixpoint itrunc_indirect (n : nat) (ip bp j : Z) : K unit :=
  match n with
  | O => mret ()
  | S n' =>
      d ← getb bp b_data;
      let a := rd 4 (4 * j) d in
      when (truthy a) (dev ← geti ip i_dev; bfree dev a);;
      itrunc_indirect n' ip bp (j + 1)
  end.

Definition itrunc (ip : Z) : K unit :=
  itrunc_direct (Z.to_nat NDIRECT) ip 0;;
  a ← geti ip (addr_at NDIRECT);
  when (truthy a)
    (dev ← geti ip i_dev;
     bp ← bread dev a;
     itrunc_indirect (Z.to_nat NINDIRECT) ip bp 0;;
     brelse bp;;
     a ← geti ip (addr_at NDIRECT);
     bfree dev a;;
     seti ip (set_addr_at NDIRECT 0));;
  seti ip (set_i_size 0);;
  iupdate ip.

Definition iput (ip : Z) : K unit :=
  acquire ItableLock;;
  i ← geti ip id;
  when ((i_ref i =? 1) && truthy (i_valid i) && (i_nlink i =? 0))
    (acquiresleep (InodeSL ip);;
     release ItableLock;;
     itrunc ip;;
     seti ip (set_i_type 0);;
     iupdate ip;;
     seti ip (set_i_valid 0);;
     releasesleep (InodeSL ip);;
     acquire ItableLock);;
  seti ip (fun i => set_i_ref (i_ref i - 1) i);;
  release ItableLock.

Definition iunlockput (ip : Z) : K unit := iunlock ip;; iput ip.

(** [struct stat] at address [st]: [dev], [ino], [type], [nlink], four bytes
    of padding that are not assigned, [size]. *)
Definition stati (ip st : Z) : K unit :=
  i ← geti ip id;
  modify_mem (fun m => store32 m st (i_dev i));;
  modify_mem (fun m => store32 m (st + 4) (i_inum i));;
  modify_mem (fun m => store_le m (st + 8) 2 (i_type i));;
  modify_mem (fun m => store_le m (st + 10) 2 (i_nlink i));;
  modify_mem (fun m => store64 m (st + 16) (i_size i)).

Fixpoint readi_loop (fuel : nat) (ip : Z) (user_dst : bool) (dst off n tot : Z) : K Z :=
  if tot <? n then
    match fuel with
    | O => out_of_fuel
    | S fuel' =>
        a ← bmap ip (off / BSIZE);
        dev ← geti ip i_dev;
        bp ← bread dev a;
        let m := Z.min (n - tot) (BSIZE - off mod BSIZE) in
        d ← getb bp b_data;
        r ← either_copyout user_dst dst (slice (off mod BSIZE) m d);
        if r =? -1 then brelse bp;; mret (-1)
        else
          brelse bp;;
          readi_loop fuel' ip user_dst (u64 (dst + m)) (off + m) n (tot + m)
    end
  else mret tot.

(** The result [tot] is an unsigned number of bytes, or -1. *)
Definition readi (ip : Z) (user_dst : bool) (dst off n : Z) : K Z :=
  size ← geti ip i_size;
  if (size <? off) || (u32 (off + n) <? off) then mret 0
  else
    let n := if size <? u32 (off + n) then size - off else n in
    readi_loop (S (S (Z.to_nat (n / BSIZE)))) ip user_dst dst off n 0.

(** The loop of [writei]: the final [tot] and [off]. A failing
    [either_copyin] leaves the bytes it got in the buffer. *)
Fixpoint writei_loop (fuel : nat) (ip : Z) (user_src : bool) (src off n tot : Z) : K (Z * Z) :=
  if tot <? n then
    match fuel with
    | O => out_of_fuel
    | S fuel' =>
        a ← bmap ip (off / BSIZE);
        dev ← geti ip i_dev;
        bp ← bread dev a;
        let m := Z.min (n - tot) (BSIZE - off mod BSIZE) in
        r ← either_copyin user_src src m;
        setb bp (fun x => set_b_data (splice (off mod BSIZE) (snd r) (b_data x)) x);;
        if fst r =? -1 then brelse bp;; mret (tot, off)
        else
          log_write bp;;
          brelse bp;;
          writei_loop fuel' ip user_src (u64 (src + m)) (off + m) n (tot + m)
    end
  else mret (tot, off).

Definition writei (ip : Z) (user_src : bool) (src off n : Z) : K Z :=
  size ← geti ip i_size;
  if (size <? off) || (u32 (off + n) <? off) then mret (-1)
  else if MAXFILE * BSIZE <? u32 (off + n) then mret (-1)
  else
    r ← writei_loop (S (S (Z.to_nat (n / BSIZE)))) ip user_src src off n 0;
    let '(tot, off) := r in
    size ← geti ip i_size;
    when (size <? off) (seti ip (set_i_size off));;
    iupdate ip;;
    mret tot.

End fs.
