(* ===== verification/Dir.v ===== *)
(** * Directories and path names ([fs.c]) *)

From S2P Require Import Prelude Riscv Monad State Kstring Bytes Printf Kalloc Vm Proc Sleeplock Bio Log Fs.
#[local] Open Scope Z_scope.

(** ** Names *)

(** [strncmp] and [strncpy] on strings that are lists of bytes: the list ends
    where the terminating NUL is, or is a whole array. *)
Fixpoint strncmp_list (n : nat) (p q : list Z) : Z :=
  match n with
  | O => 0
  | S n' =>
      let a := default 0 (head p) in
      let b := default 0 (head q) in
      if negb (a =? 0) && (a =? b) then strncmp_list n' (tail p) (tail q) else a - b
  end.

Fixpoint strncpy_list (n : nat) (t : list Z) : list Z :=
  match n with
  | O => []
  | S n' =>
      let a := default 0 (head t) in
      if a =? 0 then replicate (S n') 0 else a :: strncpy_list n' (tail t)
  end.

Definition namecmp (s t : list Z) : Z := strncmp_list (Z.to_nat DIRSIZ) s t.

(** [*path == c] of a string, NUL past its end. *)
Definition SLASH : Z := 47.

Fixpoint skip_slashes (path : list Z) : list Z :=
  match path with
  | c :: path' => if c =? SLASH then skip_slashes path' else path
  | [] => []
  end.

(** The characters up to the next slash or NUL, and the rest. *)
Fixpoint span_elem (path : list Z) : list Z * list Z :=
  match path with
  | c :: path' =>
      if negb (c =? SLASH) && negb (c =? 0) then let '(s, r) := span_elem path' in (c :: s, r) else ([], path)
  | [] => ([], [])
  end.

(** [*path == 0]. *)
Definition at_end (path : list Z) : bool := match path with c :: _ => c =? 0 | [] => true end.

(** [skipelem(path, name)]: the rest of the path, and the array [name] after
    the call. *)
Definition skipelem (path name : list Z) : option (list Z * list Z) :=
  let path := skip_slashes path in
  if at_end path then None
  else
    let '(s, path) := span_elem path in
    let len := Z.of_nat (length s) in
    let name := if DIRSIZ <=? len then splice 0 (take (Z.to_nat DIRSIZ) s) name else splice 0 (s ++ [0]) name in
    Some (skip_slashes path, name).

(** ** Directories *)

(** [de] of [dirlookup] and of [dirlink] on the kernel stack: [inum], then
    [name[DIRSIZ]]. *)
Definition DE_LOOKUP : Z := 0x800.
Definition DE_LINK : Z := 0x810.

Definition de_inum (de : Z) : K Z := gets (fun k => load_le (k_mem k) de 2).
Definition de_name (de : Z) : K (list Z) := gets (fun k => load_bytes (k_mem k) (de + 2) (Z.to_nat DIRSIZ)).

Section dir.
Context {L : Layout} {W : Wakeups} {D : Disk}.

(** The entry's inode and offset. *)
Fixpoint dirlookup_loop (fuel : nat) (dp : Z) (name : list Z) (off : Z) : K (option (Z * Z)) :=
  size ← geti dp i_size;
  if off <? size then
    match fuel with
    | O => out_of_fuel
    | S fuel' =>
        de ← local_addr DE_LOOKUP;
        r ← readi dp false de off sizeof_dirent;
        if negb (r =? sizeof_dirent) then panic "dirlookup read"
        else
          inum ← de_inum de;
          if inum =? 0 then dirlookup_loop fuel' dp name (u32 (off + sizeof_dirent))
          else
            nm ← de_name de;
            if namecmp name nm =? 0 then
              dev ← geti dp i_dev;
              ip ← iget dev inum;
              mret (Some (ip, off))
            else dirlookup_loop fuel' dp name (u32 (off + sizeof_dirent))
    end
  else mret None.

Definition dirlookup (dp : Z) (name : list Z) : K (option (Z * Z)) :=
  t ← geti dp i_type;
  if negb (t =? T_DIR) then panic "dirlookup not DIR"
  else
    size ← geti dp i_size;
    dirlookup_loop (S (Z.to_nat (size / sizeof_dirent))) dp name 0.

(** The second loop of [dirlink]: the offset of an empty entry, or the end. *)
Fixpoint dirlink_loop (fuel : nat) (dp off : Z) : K Z :=
  size ← geti dp i_size;
  if off <? size then
    match fuel with
    | O => out_of_fuel
    | S fuel' =>
        de ← local_addr DE_LINK;
        r ← readi dp false de off sizeof_dirent;
        if negb (r =? sizeof_dirent) then panic "dirlink read"
        else
          inum ← de_inum de;
          if inum =? 0 then mret off else dirlink_loop fuel' dp (off + sizeof_dirent)
    end
  else mret off.

Definition dirlink (dp : Z) (name : list Z) (inum : Z) : K Z :=
  o ← dirlookup dp name;
  match o with
  | Some (ip, _) => iput ip;; mret (-1)
  | None =>
      size ← geti dp i_size;
      off ← dirlink_loop (S (Z.to_nat (size / sizeof_dirent))) dp 0;
      de ← local_addr DE_LINK;
      modify_mem (fun m => store_bytes m (de + 2) (strncpy_list (Z.to_nat DIRSIZ) name));;
      modify_mem (fun m => store_le m de 2 (u16 inum));;
      r ← writei dp false de off sizeof_dirent;
      if negb (r =? sizeof_dirent) then panic "dirlink" else mret 0
  end.

(** ** Paths *)

(** The loop of [namex]; [name] is the caller's array. The result is the
    inode and the array. *)
Fixpoint namex_loop (fuel : nat) (ip : Z) (path : list Z) (nameiparent : bool) (name : list Z) : K (option Z * list Z) :=
  match skipelem path name with
  | None =>
      if nameiparent then iput ip;; mret (None, name) else mret (Some ip, name)
  | Some (path, name) =>
      match fuel with
      | O => out_of_fuel
      | S fuel' =>
          ilock ip;;
          t ← geti ip i_type;
          if negb (t =? T_DIR) then iunlockput ip;; mret (None, name)
          else if nameiparent && at_end path then iunlock ip;; mret (Some ip, name)
          else
            o ← dirlookup ip name;
            match o with
            | None => iunlockput ip;; mret (None, name)
            | Some (next, _) => iunlockput ip;; namex_loop fuel' next path nameiparent name
            end
      end
  end.

Definition namex (path : list Z) (nameiparent : bool) (name : list Z) : K (option Z * list Z) :=
  ip ← (if default 0 (head path) =? SLASH then iget ROOTDEV ROOTINO
        else
          p ← curproc;
          cwd ← getp p p_cwd;
          match cwd with
          | Some ip => idup ip
          | None => panic "kerneltrap"
          end);
  namex_loop (length path) ip path nameiparent name.

(** The local arrays [name[DIRSIZ]] are not initialised; [skipelem] fills them
    before they are read. *)
Definition name0 : list Z := replicate (Z.to_nat DIRSIZ) 0.

Definition namei (path : list Z) : K (option Z) :=
  r ← namex path false name0;
  mret (fst r).

Definition nameiparent (path name : list Z) : K (option Z * list Z) := namex path true name.

End dir.
