(* ===== verification/Console.v ===== *)
(** * The serial port and the console ([uart.c], [console.c])

    The UART is its registers ([iosys]): [u_room] bytes fit before
    [LSR_TX_IDLE] clears, [u_rhr] are the bytes that arrived and were not read.
    [panicked] is never set in a state that is still running. *)

From S2P Require Import Prelude Riscv Monad State Kstring Printf Kalloc Vm Proc Sleeplock.
#[local] Open Scope Z_scope.

Definition UART_TX_BUF_SIZE : Z := 32.
Definition INPUT_BUF : Z := 128.
Definition CONSOLE : Z := 1.

Definition getio {A : Type} (f : iosys -> A) : K A := gets (fun k => f (k_io k)).
Definition modify_io (f : iosys -> iosys) : K unit := modify (fun k => set_io (f (k_io k)) k).

Definition set_u_thr x (o : iosys) := mkiosys x (u_room o) (u_rhr o) (u_tx_buf o) (u_tx_w o) (u_tx_r o) (cons_buf o) (cons_r o) (cons_w o) (cons_e o) (pr_locking o) (io_vd o).
Definition set_u_room x (o : iosys) := mkiosys (u_thr o) x (u_rhr o) (u_tx_buf o) (u_tx_w o) (u_tx_r o) (cons_buf o) (cons_r o) (cons_w o) (cons_e o) (pr_locking o) (io_vd o).
Definition set_u_rhr x (o : iosys) := mkiosys (u_thr o) (u_room o) x (u_tx_buf o) (u_tx_w o) (u_tx_r o) (cons_buf o) (cons_r o) (cons_w o) (cons_e o) (pr_locking o) (io_vd o).
Definition set_u_tx_buf x (o : iosys) := mkiosys (u_thr o) (u_room o) (u_rhr o) x (u_tx_w o) (u_tx_r o) (cons_buf o) (cons_r o) (cons_w o) (cons_e o) (pr_locking o) (io_vd o).
Definition set_u_tx_w x (o : iosys) := mkiosys (u_thr o) (u_room o) (u_rhr o) (u_tx_buf o) x (u_tx_r o) (cons_buf o) (cons_r o) (cons_w o) (cons_e o) (pr_locking o) (io_vd o).
Definition set_u_tx_r x (o : iosys) := mkiosys (u_thr o) (u_room o) (u_rhr o) (u_tx_buf o) (u_tx_w o) x (cons_buf o) (cons_r o) (cons_w o) (cons_e o) (pr_locking o) (io_vd o).
Definition set_cons_buf x (o : iosys) := mkiosys (u_thr o) (u_room o) (u_rhr o) (u_tx_buf o) (u_tx_w o) (u_tx_r o) x (cons_r o) (cons_w o) (cons_e o) (pr_locking o) (io_vd o).
Definition set_cons_r x (o : iosys) := mkiosys (u_thr o) (u_room o) (u_rhr o) (u_tx_buf o) (u_tx_w o) (u_tx_r o) (cons_buf o) x (cons_w o) (cons_e o) (pr_locking o) (io_vd o).
Definition set_cons_w x (o : iosys) := mkiosys (u_thr o) (u_room o) (u_rhr o) (u_tx_buf o) (u_tx_w o) (u_tx_r o) (cons_buf o) (cons_r o) x (cons_e o) (pr_locking o) (io_vd o).
Definition set_cons_e x (o : iosys) := mkiosys (u_thr o) (u_room o) (u_rhr o) (u_tx_buf o) (u_tx_w o) (u_tx_r o) (cons_buf o) (cons_r o) (cons_w o) x (pr_locking o) (io_vd o).

(** [ReadReg(LSR) & LSR_TX_IDLE]. *)
Definition lsr_tx_idle (o : iosys) : bool := (0 <? u_room o)%nat.

(** [WriteReg(THR, c)]. *)
Definition write_thr (c : Z) : K unit :=
  modify_io (fun o => set_u_room (pred (u_room o)) (set_u_thr (u_thr o ++ [u8 c]) o)).

(** A ring buffer's cell. *)
Definition ring_get (l : list Z) (i size : Z) : Z := default 0 (l !! Z.to_nat (i mod size)).
Definition ring_set (l : list Z) (i size c : Z) : list Z := <[Z.to_nat (i mod size) := u8 c]> l.

Section console.
Context {L : Layout} {W : Wakeups}.

(** ** [uart.c] *)

Fixpoint uartstart_loop (fuel : nat) : K unit :=
  w ← getio u_tx_w;
  r ← getio u_tx_r;
  if w =? r then mret ()
  else
    idle ← getio lsr_tx_idle;
    if negb idle then mret ()
    else
      match fuel with
      | O => out_of_fuel
      | S fuel' =>
          buf ← getio u_tx_buf;
          let c := ring_get buf r UART_TX_BUF_SIZE in
          modify_io (set_u_tx_r (u64 (r + 1)));;
          wakeup ChanUartTx;;
          write_thr c;;
          uartstart_loop fuel'
      end.

(** Every iteration takes a byte of the UART's room. *)
Definition uartstart : K unit := room ← getio u_room; uartstart_loop room.

Fixpoint uartputc_loop (fuel : nat) (c : Z) : K unit :=
  w ← getio u_tx_w;
  r ← getio u_tx_r;
  if w =? u64 (r + UART_TX_BUF_SIZE) then
    match fuel with
    | O => out_of_fuel
    | S fuel' => sleep ChanUartTx UartLock;; uartputc_loop fuel' c
    end
  else
    modify_io (fun o => set_u_tx_buf (ring_set (u_tx_buf o) w UART_TX_BUF_SIZE c) o);;
    modify_io (set_u_tx_w (u64 (w + 1)));;
    uartstart;;
    release UartLock.

Definition uartputc (c : Z) : K unit :=
  acquire UartLock;;
  uartputc_loop wakeups c.

Definition uartgetc : K Z :=
  l ← getio u_rhr;
  match l with
  | c :: l' => modify_io (set_u_rhr l');; mret (u8 c)
  | [] => mret (-1)
  end.

(** ** [console.c] *)

Fixpoint consolewrite_loop (n : nat) (user_src : bool) (src i : Z) : K Z :=
  match n with
  | O => mret i
  | S n' =>
      r ← either_copyin user_src (u64 (src + i)) 1;
      if fst r =? -1 then mret i
      else uartputc (default 0 (head (snd r)));; consolewrite_loop n' user_src src (i + 1)
  end.

Definition consolewrite (user_src : bool) (src n : Z) : K Z := consolewrite_loop (Z.to_nat n) user_src src 0.

(** The inner loop of [consoleread]: false if the process is killed. *)
Fixpoint consoleread_wait (fuel : nat) : K bool :=
  r ← getio cons_r;
  w ← getio cons_w;
  if r =? w then
    p ← curproc;
    killed ← getp p p_killed;
    if truthy killed then mret false
    else
      match fuel with
      | O => out_of_fuel
      | S fuel' => sleep ChanConsR ConsLock;; consoleread_wait fuel'
      end
  else mret true.

(** [left] is the C variable [n]; the result is its final value, [None] when
    the process was killed. *)
Fixpoint consoleread_loop (left : nat) (user_dst : bool) (dst target : Z) : K (option Z) :=
  match left with
  | O => mret (Some 0)
  | S left' =>
      let n := Z.of_nat left in
      ok ← consoleread_wait wakeups;
      if negb ok then release ConsLock;; mret None
      else
        r ← getio cons_r;
        buf ← getio cons_buf;
        let c := ring_get buf r INPUT_BUF in
        modify_io (set_cons_r (u32 (r + 1)));;
        if c =? 4 then
          when (n <? target) (modify_io (fun o => set_cons_r (u32 (cons_r o - 1)) o));;
          mret (Some n)
        else
          e ← either_copyout user_dst dst [c];
          if e =? -1 then mret (Some n)
          else if c =? 10 then mret (Some (n - 1))
          else consoleread_loop left' user_dst (u64 (dst + 1)) target
  end.

Definition consoleread (user_dst : bool) (dst n : Z) : K Z :=
  acquire ConsLock;;
  o ← consoleread_loop (Z.to_nat n) user_dst dst n;
  match o with
  | None => mret (-1)
  | Some n' => release ConsLock;; mret (if 0 <? n then n - n' else 0)
  end.

(** The loop of control-U. *)
Fixpoint killline_loop (fuel : nat) : K unit :=
  e ← getio cons_e;
  w ← getio cons_w;
  buf ← getio cons_buf;
  if negb (e =? w) && negb (ring_get buf (u32 (e - 1)) INPUT_BUF =? 10) then
    match fuel with
    | O => out_of_fuel
    | S fuel' =>
        modify_io (set_cons_e (u32 (e - 1)));;
        consputc BACKSPACE;;
        killline_loop fuel'
    end
  else mret ().

Definition consoleintr (c : Z) : K unit :=
  acquire ConsLock;;
  (if c =? 16 then procdump
   else if c =? 21 then
     e ← getio cons_e;
     w ← getio cons_w;
     killline_loop (Z.to_nat (u32 (e - w)))
   else if (c =? 8) || (c =? 127) then
     e ← getio cons_e;
     w ← getio cons_w;
     when (negb (e =? w)) (modify_io (set_cons_e (u32 (e - 1)));; consputc BACKSPACE)
   else
     e ← getio cons_e;
     r ← getio cons_r;
     when (negb (c =? 0) && (u32 (e - r) <? INPUT_BUF))
       (let c := if c =? 13 then 10 else c in
        consputc c;;
        modify_io (fun o => set_cons_buf (ring_set (cons_buf o) e INPUT_BUF c) o);;
        modify_io (set_cons_e (u32 (e + 1)));;
        when ((c =? 10) || (c =? 4) || (u32 (e + 1) =? u32 (r + INPUT_BUF)))
          (modify_io (set_cons_w (u32 (e + 1)));;
           wakeup ChanConsR)));;
  release ConsLock.

Fixpoint uartintr_loop (fuel : nat) : K unit :=
  c ← uartgetc;
  if c =? -1 then mret ()
  else
    match fuel with
    | O => out_of_fuel
    | S fuel' => consoleintr c;; uartintr_loop fuel'
    end.

(** Every iteration reads a byte of [RHR]. *)
Definition uartintr : K unit :=
  l ← getio u_rhr;
  uartintr_loop (length l);;
  acquire UartLock;;
  uartstart;;
  release UartLock.

(** [devsw], as [consoleinit] fills it in. *)
Definition devsw_read (major : Z) : option (bool -> Z -> Z -> K Z) := if major =? CONSOLE then Some consoleread else None.
Definition devsw_write (major : Z) : option (bool -> Z -> Z -> K Z) := if major =? CONSOLE then Some consolewrite else None.

End console.
