(* ===== verification/Pipe.v ===== *)
(** * Pipes ([pipe.c])

    The [struct pipe] of a pipe lives in the page [kalloc] gave it; the model
    keeps it apart from the memory's bytes, under the page's address. *)

From S2P Require Import Prelude Riscv Monad State Kstring Printf Kalloc Vm Proc Sleeplock Console.
#[local] Open Scope Z_scope.

Definition PIPESIZE : Z := 512.

Definition set_pi_data x (p : pipe) := mkpipe x (pi_nread p) (pi_nwrite p) (pi_readopen p) (pi_writeopen p).
Definition set_pi_nread x (p : pipe) := mkpipe (pi_data p) x (pi_nwrite p) (pi_readopen p) (pi_writeopen p).
Definition set_pi_nwrite x (p : pipe) := mkpipe (pi_data p) (pi_nread p) x (pi_readopen p) (pi_writeopen p).
Definition set_pi_readopen x (p : pipe) := mkpipe (pi_data p) (pi_nread p) (pi_nwrite p) x (pi_writeopen p).
Definition set_pi_writeopen x (p : pipe) := mkpipe (pi_data p) (pi_nread p) (pi_nwrite p) (pi_readopen p) x.

Definition getpi {A : Type} (pi : Z) (f : pipe -> A) : K A := gets (fun k => f (fs_pipe (k_fs k) pi)).
Definition setpi (pi : Z) (f : pipe -> pipe) : K unit := modify_fs (fs_upd_pipe pi f).

Section pipe.
Context {L : Layout} {W : Wakeups}.

Definition pipeclose (pi writable : Z) : K unit :=
  acquire (PipeLock pi);;
  (if truthy writable then
     setpi pi (set_pi_writeopen 0);;
     wakeup (ChanNread pi)
   else
     setpi pi (set_pi_readopen 0);;
     wakeup (ChanNwrite pi));;
  ro ← getpi pi pi_readopen;
  wo ← getpi pi pi_writeopen;
  if (ro =? 0) && (wo =? 0) then
    release (PipeLock pi);;
    kfree pi
  else release (PipeLock pi).

(** Wait for room: false when the reader is gone or the writer killed. *)
Fixpoint pipewrite_wait (fuel : nat) (pi pr : Z) : K bool :=
  ro ← getpi pi pi_readopen;
  killed ← getp pr p_killed;
  if (ro =? 0) || truthy killed then mret false
  else
    w ← getpi pi pi_nwrite;
    r ← getpi pi pi_nread;
    if w =? u32 (r + PIPESIZE) then
      match fuel with
      | O => out_of_fuel
      | S fuel' =>
          wakeup (ChanNread pi);;
          sleep (ChanNwrite pi) (PipeLock pi);;
          pipewrite_wait fuel' pi pr
      end
    else mret true.

(** [left] is [n - i]; the result is the final [i], [None] for the early
    [return -1]. *)
Fixpoint pipewrite_loop (left : nat) (pi pr addr i : Z) : K (option Z) :=
  match left with
  | O => mret (Some i)
  | S left' =>
      ok ← pipewrite_wait wakeups pi pr;
      if negb ok then release (PipeLock pi);; mret None
      else
        pt ← getp pr p_pagetable;
        r ← copyin pt (u64 (addr + i)) 1;
        if fst r =? -1 then mret (Some i)
        else
          w ← getpi pi pi_nwrite;
          setpi pi (fun p => set_pi_data (ring_set (pi_data p) w PIPESIZE (default 0 (head (snd r)))) p);;
          setpi pi (set_pi_nwrite (u32 (w + 1)));;
          pipewrite_loop left' pi pr addr (i + 1)
  end.

Definition pipewrite (pi addr n : Z) : K Z :=
  pr ← curproc;
  acquire (PipeLock pi);;
  o ← pipewrite_loop (Z.to_nat n) pi pr addr 0;
  match o with
  | None => mret (-1)
  | Some i =>
      wakeup (ChanNread pi);;
      release (PipeLock pi);;
      mret i
  end.

(** Wait for data or the end of file: false when the reader is killed. *)
Fixpoint piperead_wait (fuel : nat) (pi pr : Z) : K bool :=
  r ← getpi pi pi_nread;
  w ← getpi pi pi_nwrite;
  wo ← getpi pi pi_writeopen;
  if (r =? w) && truthy wo then
    killed ← getp pr p_killed;
    if truthy killed then mret false
    else
      match fuel with
      | O => out_of_fuel
      | S fuel' => sleep (ChanNread pi) (PipeLock pi);; piperead_wait fuel' pi pr
      end
  else mret true.

Fixpoint piperead_loop (left : nat) (pi pr addr i : Z) : K Z :=
  match left with
  | O => mret i
  | S left' =>
      r ← getpi pi pi_nread;
      w ← getpi pi pi_nwrite;
      if r =? w then mret i
      else
        data ← getpi pi pi_data;
        let ch := ring_get data r PIPESIZE in
        setpi pi (set_pi_nread (u32 (r + 1)));;
        pt ← getp pr p_pagetable;
        e ← copyout pt (u64 (addr + i)) [ch];
        if e =? -1 then mret i
        else piperead_loop left' pi pr addr (i + 1)
  end.

Definition piperead (pi addr n : Z) : K Z :=
  pr ← curproc;
  acquire (PipeLock pi);;
  ok ← piperead_wait wakeups pi pr;
  if negb ok then release (PipeLock pi);; mret (-1)
  else
    i ← piperead_loop (Z.to_nat n) pi pr addr 0;
    wakeup (ChanNwrite pi);;
    release (PipeLock pi);;
    mret i.

End pipe.
