(* ===== verification/File.v ===== *)
(** * Open files ([file.c]) and [pipealloc] ([pipe.c]) *)

From S2P Require Import Prelude Riscv Monad State Kstring Printf Kalloc Vm Proc Sleeplock Bio Log Fs Console Pipe.
#[local] Open Scope Z_scope.

Definition NDEV : Z := 10.

Definition set_f_type x (f : file) := mkfile x (f_ref f) (f_readable f) (f_writable f) (f_pipe f) (f_ip f) (f_off f) (f_major f).
Definition set_f_ref x (f : file) := mkfile (f_type f) x (f_readable f) (f_writable f) (f_pipe f) (f_ip f) (f_off f) (f_major f).
Definition set_f_readable x (f : file) := mkfile (f_type f) (f_ref f) x (f_writable f) (f_pipe f) (f_ip f) (f_off f) (f_major f).
Definition set_f_writable x (f : file) := mkfile (f_type f) (f_ref f) (f_readable f) x (f_pipe f) (f_ip f) (f_off f) (f_major f).
Definition set_f_pipe x (f : file) := mkfile (f_type f) (f_ref f) (f_readable f) (f_writable f) x (f_ip f) (f_off f) (f_major f).
Definition set_f_ip x (f : file) := mkfile (f_type f) (f_ref f) (f_readable f) (f_writable f) (f_pipe f) x (f_off f) (f_major f).
Definition set_f_off x (f : file) := mkfile (f_type f) (f_ref f) (f_readable f) (f_writable f) (f_pipe f) (f_ip f) x (f_major f).
Definition set_f_major x (f : file) := mkfile (f_type f) (f_ref f) (f_readable f) (f_writable f) (f_pipe f) (f_ip f) (f_off f) x.

Definition getf {A : Type} (f : Z) (g : file -> A) : K A := gets (fun k => g (fs_file (k_fs k) f)).
Definition setf (f : Z) (g : file -> file) : K unit := modify_fs (fs_upd_file f g).

Definition is_type (t t' : fdtype) : bool := bool_decide (t = t').

(** [st] of [filestat] on the kernel stack. *)
Definition ST_STAT : Z := 0x820.
Definition sizeof_stat : Z := 24.

Section file.
Context {L : Layout} {W : Wakeups} {D : Disk}.

Fixpoint filealloc_loop (n : nat) (f : Z) : K (option Z) :=
  match n with
  | O => release FtableLock;; mret None
  | S n' =>
      r ← getf f f_ref;
      if r =? 0 then
        setf f (set_f_ref 1);;
        release FtableLock;;
        mret (Some f)
      else filealloc_loop n' (f + 1)
  end.

Definition filealloc : K (option Z) :=
  acquire FtableLock;;
  filealloc_loop (Z.to_nat NFILE) 0.

Definition filedup (f : Z) : K Z :=
  acquire FtableLock;;
  r ← getf f f_ref;
  if r <? 1 then panic "filedup"
  else
    setf f (set_f_ref (r + 1));;
    release FtableLock;;
    mret f.

Definition fileclose (f : Z) : K unit :=
  acquire FtableLock;;
  r ← getf f f_ref;
  if r <? 1 then panic "fileclose"
  else
    setf f (set_f_ref (r - 1));;
    if 0 <? r - 1 then release FtableLock
    else
      ff ← getf f id;
      setf f (set_f_ref 0);;
      setf f (set_f_type FD_NONE);;
      release FtableLock;;
      match f_type ff with
      | FD_PIPE => pipeclose (f_pipe ff) (f_writable ff)
      | FD_INODE | FD_DEVICE => begin_op;; iput (f_ip ff);; end_op
      | FD_NONE => mret ()
      end.

Definition filestat (f addr : Z) : K Z :=
  p ← curproc;
  ff ← getf f id;
  if is_type (f_type ff) FD_INODE || is_type (f_type ff) FD_DEVICE then
    ilock (f_ip ff);;
    st ← local_addr ST_STAT;
    stati (f_ip ff) st;;
    iunlock (f_ip ff);;
    pt ← getp p p_pagetable;
    bs ← gets (fun k => load_bytes (k_mem k) st (Z.to_nat sizeof_stat));
    r ← copyout pt addr bs;
    mret (if r <? 0 then -1 else 0)
  else mret (-1).

Definition fileread (f addr n : Z) : K Z :=
  ff ← getf f id;
  if f_readable ff =? 0 then mret (-1)
  else
    match f_type ff with
    | FD_PIPE => piperead (f_pipe ff) addr n
    | FD_DEVICE =>
        if (f_major ff <? 0) || (NDEV <=? f_major ff) then mret (-1)
        else
          match devsw_read (f_major ff) with
          | Some read => read true addr n
          | None => mret (-1)
          end
    | FD_INODE =>
        ilock (f_ip ff);;
        off ← getf f f_off;
        r ← readi (f_ip ff) true addr off (u32 n);
        when (0 <? s32 r) (setf f (fun x => set_f_off (u32 (f_off x + r)) x));;
        iunlock (f_ip ff);;
        mret (s32 r)
    | FD_NONE => panic "fileread"
    end.

(** The bytes [filewrite] gives to one transaction. *)
Definition FILEWRITE_MAX : Z := ((MAXOPBLOCKS - 1 - 1 - 2) / 2) * BSIZE.

(** The loop of [filewrite]: the final [i]. *)
Fixpoint filewrite_loop (fuel : nat) (f addr n i : Z) : K Z :=
  if i <? n then
    match fuel with
    | O => out_of_fuel
    | S fuel' =>
        let n1 := if FILEWRITE_MAX <? n - i then FILEWRITE_MAX else n - i in
        begin_op;;
        ip ← getf f f_ip;
        ilock ip;;
        off ← getf f f_off;
        r ← writei ip true (u64 (addr + i)) off n1;
        when (0 <? r) (setf f (fun x => set_f_off (u32 (f_off x + r)) x));;
        iunlock ip;;
        end_op;;
        if negb (r =? n1) then mret i else filewrite_loop fuel' f addr n (i + r)
    end
  else mret i.

Definition filewrite (f addr n : Z) : K Z :=
  ff ← getf f id;
  if f_writable ff =? 0 then mret (-1)
  else
    match f_type ff with
    | FD_PIPE => pipewrite (f_pipe ff) addr n
    | FD_DEVICE =>
        if (f_major ff <? 0) || (NDEV <=? f_major ff) then mret (-1)
        else
          match devsw_write (f_major ff) with
          | Some write => write true addr n
          | None => mret (-1)
          end
    | FD_INODE =>
        i ← filewrite_loop (S (Z.to_nat (n / FILEWRITE_MAX))) f addr n 0;
        mret (if i =? n then n else -1)
    | FD_NONE => panic "filewrite"
    end.

(** The label [bad] of [pipealloc]. *)
Definition pipealloc_bad (pi : Z) (f0 f1 : option Z) : K (option (Z * Z)) :=
  when (truthy pi) (kfree pi);;
  match f0 with Some f => fileclose f | None => mret () end;;
  match f1 with Some f => fileclose f | None => mret () end;;
  mret None.

(** The two files, or [None] for -1. The page's old content is in
    [pi->data]; it is never read before it is written. *)
Definition pipealloc : K (option (Z * Z)) :=
  f0 ← filealloc;
  match f0 with
  | None => pipealloc_bad 0 None None
  | Some r =>
      f1 ← filealloc;
      match f1 with
      | None => pipealloc_bad 0 f0 None
      | Some w =>
          pi ← kalloc;
          if pi =? 0 then pipealloc_bad 0 f0 f1
          else
            setpi pi (set_pi_readopen 1);;
            setpi pi (set_pi_writeopen 1);;
            setpi pi (set_pi_nwrite 0);;
            setpi pi (set_pi_nread 0);;
            setf r (set_f_type FD_PIPE);;
            setf r (set_f_readable 1);;
            setf r (set_f_writable 0);;
            setf r (set_f_pipe pi);;
            setf w (set_f_type FD_PIPE);;
            setf w (set_f_readable 0);;
            setf w (set_f_writable 1);;
            setf w (set_f_pipe pi);;
            mret (Some (r, w))
      end
  end.

End file.
