(* ===== verification/Fork.v ===== *)
(** * The life of a process ([proc.c]): [userinit], [fork], [exit], [wait]

    The trap frame of a process is the page [p->trapframe] points to; its
    fields are 64-bit words at the offsets [proc.h] gives. *)

From S2P Require Import Prelude Riscv Monad State Kstring Bytes Printf Kalloc Vm Proc Sleeplock Bio Log Fs Dir Console Pipe File.
#[local] Open Scope Z_scope.

(** ** The trap frame ([proc.h]) *)

Definition tf_kernel_satp : Z := 0.
Definition tf_kernel_sp : Z := 8.
Definition tf_kernel_trap : Z := 16.
Definition tf_epc : Z := 24.
Definition tf_kernel_hartid : Z := 32.
Definition tf_sp : Z := 48.
Definition tf_a (n : Z) : Z := 112 + 8 * n.
Definition sizeof_trapframe : Z := 288.

Definition tf_get (p f : Z) : K Z := tf ← getp p p_trapframe; load64_k (tf + f).
Definition tf_set (p f v : Z) : K unit := tf ← getp p p_trapframe; store64_k (tf + f) v.

(** [*dst = *src] of two trap frames. *)
Definition tf_copy (dst src : Z) : K unit :=
  modify_mem (fun m => store_bytes m dst (load_bytes m src (Z.to_nat sizeof_trapframe))).

(** [safestrcpy(name, t, sizeof(name))] on the array of a process's name. *)
Fixpoint safestrcpy_take (n : nat) (t : list Z) : list Z :=
  match n with
  | O => []
  | S n' => let c := default 0 (head t) in if c =? 0 then [] else c :: safestrcpy_take n' (tail t)
  end.
Definition safestrcpy_name (t name : list Z) : list Z := splice 0 (safestrcpy_take (pred (length name)) t ++ [0]) name.

(** A pointer that is dereferenced. *)
Definition deref (o : option Z) : K Z :=
  match o with
  | Some p => mret p
  | None => panic "kerneltrap"
  end.

Section fork.
Context {L : Layout} {W : Wakeups} {D : Disk}.

Definition initcode : list Z :=
  [0x17; 0x05; 0x00; 0x00; 0x13; 0x05; 0x45; 0x02;
   0x97; 0x05; 0x00; 0x00; 0x93; 0x85; 0x35; 0x02;
   0x93; 0x08; 0x70; 0x00; 0x73; 0x00; 0x00; 0x00;
   0x93; 0x08; 0x20; 0x00; 0x73; 0x00; 0x00; 0x00;
   0xef; 0xf0; 0x9f; 0xff; 0x2f; 0x69; 0x6e; 0x69;
   0x74; 0x00; 0x00; 0x24; 0x00; 0x00; 0x00; 0x00;
   0x00; 0x00; 0x00; 0x00].

Definition userinit : K unit :=
  o ← allocproc;
  modify_ps (ps_set_initproc o);;
  p ← deref o;
  pt ← getp p p_pagetable;
  uvminit pt initcode;;
  setp p (set_sz PGSIZE);;
  tf_set p tf_epc 0;;
  tf_set p tf_sp PGSIZE;;
  setp p (fun q => set_name (safestrcpy_name (str "initcode") (p_name q)) q);;
  cwd ← namei (str "/");
  setp p (set_cwd cwd);;
  setp p (set_state RUNNABLE);;
  release (ProcLock p).

(** The loop of [fork] over the open files. *)
Fixpoint fork_files (n : nat) (p np i : Z) : K unit :=
  match n with
  | O => mret ()
  | S n' =>
      o ← getp p p_ofile;
      match o !! Z.to_nat i with
      | Some (Some f) =>
          f' ← filedup f;
          setp np (fun q => set_ofile (<[Z.to_nat i := Some f']> (p_ofile q)) q)
      | _ => mret ()
      end;;
      fork_files n' p np (i + 1)
  end.

Definition fork : K Z :=
  p ← curproc;
  o ← allocproc;
  match o with
  | None => mret (-1)
  | Some np =>
      pt ← getp p p_pagetable;
      npt ← getp np p_pagetable;
      sz ← getp p p_sz;
      r ← uvmcopy pt npt sz;
      if r <? 0 then
        freeproc np;;
        release (ProcLock np);;
        mret (-1)
      else
        setp np (set_sz sz);;
        ntf ← getp np p_trapframe;
        tf ← getp p p_trapframe;
        tf_copy ntf tf;;
        tf_set np (tf_a 0) 0;;
        fork_files (Z.to_nat NOFILE) p np 0;;
        cwd ← getp p p_cwd;
        ip ← deref cwd;
        ip ← idup ip;
        setp np (set_cwd (Some ip));;
        name ← getp p p_name;
        setp np (fun q => set_name (safestrcpy_name name (p_name q)) q);;
        pid ← getp np p_pid;
        release (ProcLock np);;
        acquire WaitLock;;
        setp np (set_parent (Some p));;
        release WaitLock;;
        acquire (ProcLock np);;
        setp np (set_state RUNNABLE);;
        release (ProcLock np);;
        mret pid
  end.

(** [wakeup(p)] for a process pointer. *)
Definition chan_of (o : option Z) : chan := match o with Some p => ChanProc p | None => NoChan end.

Fixpoint reparent_loop (n : nat) (pp p : Z) : K unit :=
  match n with
  | O => mret ()
  | S n' =>
      par ← getp pp p_parent;
      when (bool_decide (par = Some p))
        (ini ← gets (fun k => ps_initproc (k_ps k));
         setp pp (set_parent ini);;
         wakeup (chan_of ini));;
      reparent_loop n' (pp + 1) p
  end.

Definition reparent (p : Z) : K unit := reparent_loop (Z.to_nat NPROC) 0 p.

Fixpoint exit_files (n : nat) (p fd : Z) : K unit :=
  match n with
  | O => mret ()
  | S n' =>
      o ← getp p p_ofile;
      match o !! Z.to_nat fd with
      | Some (Some f) =>
          fileclose f;;
          setp p (fun q => set_ofile (<[Z.to_nat fd := None]> (p_ofile q)) q)
      | _ => mret ()
      end;;
      exit_files n' p (fd + 1)
  end.

Definition exit {A : Type} (status : Z) : K A :=
  p ← curproc;
  ini ← gets (fun k => ps_initproc (k_ps k));
  if bool_decide (Some p = ini) then panic "init exiting"
  else
    exit_files (Z.to_nat NOFILE) p 0;;
    begin_op;;
    cwd ← getp p p_cwd;
    ip ← deref cwd;
    iput ip;;
    end_op;;
    setp p (set_cwd None);;
    acquire WaitLock;;
    reparent p;;
    par ← getp p p_parent;
    wakeup (chan_of par);;
    acquire (ProcLock p);;
    setp p (set_xstate status);;
    setp p (set_state ZOMBIE);;
    release WaitLock;;
    sched;;
    panic "zombie exit".

(** The scan of [wait]: its result, or whether there are children. *)
Fixpoint wait_scan (n : nat) (np p addr : Z) (havekids : bool) : K (Z + bool) :=
  match n with
  | O => mret (inr havekids)
  | S n' =>
      par ← getp np p_parent;
      if bool_decide (par = Some p) then
        acquire (ProcLock np);;
        st ← getp np p_state;
        if same_state st ZOMBIE then
          pid ← getp np p_pid;
          r ← (if addr =? 0 then mret 0
               else
                 pt ← getp p p_pagetable;
                 xs ← getp np p_xstate;
                 copyout pt addr (Z_to_little_endian 4 8 xs));
          if r <? 0 then
            release (ProcLock np);;
            release WaitLock;;
            mret (inl (-1))
          else
            freeproc np;;
            release (ProcLock np);;
            release WaitLock;;
            mret (inl pid)
        else
          release (ProcLock np);;
          wait_scan n' (np + 1) p addr true
      else wait_scan n' (np + 1) p addr havekids
  end.

Fixpoint wait_loop (fuel : nat) (p addr : Z) : K Z :=
  r ← wait_scan (Z.to_nat NPROC) 0 p addr false;
  match r with
  | inl v => mret v
  | inr havekids =>
      killed ← getp p p_killed;
      if negb havekids || truthy killed then release WaitLock;; mret (-1)
      else
        match fuel with
        | O => out_of_fuel
        | S fuel' => sleep (ChanProc p) WaitLock;; wait_loop fuel' p addr
        end
  end.

Definition wait (addr : Z) : K Z :=
  p ← curproc;
  acquire WaitLock;;
  wait_loop wakeups p addr.

End fork.
