(* ===== verification/Exec.v ===== *)
(** * Program execution ([exec.c], [elf.h])

    [path] and the elements of [argv] are strings in kernel memory, lists of
    bytes without the terminating NUL; [argv] ends where the null pointer is. *)

From S2P Require Import Prelude Riscv Monad State Kstring Bytes Printf Kalloc Vm Proc Sleeplock Bio Log Fs Dir Console Pipe File Fork.
#[local] Open Scope Z_scope.

Definition MAXARG : Z := 32.
Definition ELF_MAGIC : Z := 0x464C457F.
Definition ELF_PROG_LOAD : Z := 1.
Definition sizeof_elfhdr : Z := 64.
Definition sizeof_proghdr : Z := 56.

(** [elf] and [ph] on the kernel stack. *)
Definition EXEC_ELF : Z := 0x840.
Definition EXEC_PH : Z := 0x880.

Definition load16_k (a : Z) : K Z := gets (fun k => load_le (k_mem k) a 2).
Definition load32_k (a : Z) : K Z := gets (fun k => load32 (k_mem k) a).

(** The fields of [struct elfhdr] and [struct proghdr] the code reads. *)
Definition elf_magic (elf : Z) : K Z := load32_k elf.
Definition elf_entry (elf : Z) : K Z := load64_k (elf + 24).
Definition elf_phoff (elf : Z) : K Z := load64_k (elf + 32).
Definition elf_phnum (elf : Z) : K Z := load16_k (elf + 56).
Definition ph_type (ph : Z) : K Z := load32_k ph.
Definition ph_off (ph : Z) : K Z := load64_k (ph + 8).
Definition ph_vaddr (ph : Z) : K Z := load64_k (ph + 16).
Definition ph_filesz (ph : Z) : K Z := load64_k (ph + 32).
Definition ph_memsz (ph : Z) : K Z := load64_k (ph + 40).

(** [last] after the loop over the path. *)
Fixpoint basename (s last : list Z) : list Z :=
  match s with
  | [] => last
  | c :: s' => if c =? SLASH then basename s' s' else basename s' last
  end.

Section exec.
Context {L : Layout} {W : Wakeups} {D : Disk}.

Fixpoint loadseg_loop (fuel : nat) (pagetable va ip offset sz i : Z) : K Z :=
  if i <? sz then
    match fuel with
    | O => out_of_fuel
    | S fuel' =>
        pa ← walkaddr pagetable (u64 (va + i));
        if pa =? 0 then panic "loadseg: address should exist"
        else
          let n := if sz - i <? PGSIZE then sz - i else PGSIZE in
          r ← readi ip false pa (u32 (offset + i)) n;
          if negb (r =? n) then mret (-1)
          else loadseg_loop fuel' pagetable va ip offset sz (u32 (i + PGSIZE))
    end
  else mret 0.

Definition loadseg (pagetable va ip offset sz : Z) : K Z :=
  loadseg_loop (S (Z.to_nat (sz / PGSIZE))) pagetable va ip offset sz 0.

(** The loop over the program headers: whether it completed, and [sz]. *)
Fixpoint exec_load (n : nat) (pagetable ip off sz : Z) : K (bool * Z) :=
  match n with
  | O => mret (true, sz)
  | S n' =>
      ph ← local_addr EXEC_PH;
      r ← readi ip false ph (u32 off) sizeof_proghdr;
      if negb (r =? sizeof_proghdr) then mret (false, sz)
      else
        type ← ph_type ph;
        if negb (type =? ELF_PROG_LOAD) then exec_load n' pagetable ip (s32 (off + sizeof_proghdr)) sz
        else
          memsz ← ph_memsz ph;
          filesz ← ph_filesz ph;
          vaddr ← ph_vaddr ph;
          poff ← ph_off ph;
          if memsz <? filesz then mret (false, sz)
          else if u64 (vaddr + memsz) <? vaddr then mret (false, sz)
          else
            sz1 ← uvmalloc pagetable sz (u64 (vaddr + memsz));
            if sz1 =? 0 then mret (false, sz)
            else if negb (vaddr mod PGSIZE =? 0) then mret (false, sz1)
            else
              r ← loadseg pagetable vaddr ip (u32 poff) (u32 filesz);
              if r <? 0 then mret (false, sz1)
              else exec_load n' pagetable ip (s32 (off + sizeof_proghdr)) sz1
  end.

(** The loop over [argv]: [sp] and the entries of [ustack], [None] for a
    [goto bad]. *)
Fixpoint exec_args (argv : list (list Z)) (pagetable sp stackbase argc : Z) (ustack : list Z) : K (option (Z * list Z)) :=
  match argv with
  | [] => mret (Some (sp, ustack))
  | arg :: argv' =>
      if MAXARG <=? argc then mret None
      else
        let sp := u64 (sp - (Z.of_nat (length arg) + 1)) in
        let sp := sp - sp mod 16 in
        if sp <? stackbase then mret None
        else
          r ← copyout pagetable sp (arg ++ [0]);
          if r <? 0 then mret None
          else exec_args argv' pagetable sp stackbase (argc + 1) (ustack ++ [sp])
  end.

(** The label [bad]. *)
Definition exec_bad (pagetable sz : Z) (ip : option Z) : K Z :=
  when (truthy pagetable) (proc_freepagetable pagetable sz);;
  match ip with
  | Some ip => iunlockput ip;; end_op
  | None => mret ()
  end;;
  mret (-1).

(** The second half of [exec]: the stack, the arguments, and the switch to
    the new image. *)
Definition exec_commit (p pagetable sz : Z) (path : list Z) (argv : list (list Z)) (entry : Z) : K Z :=
  oldsz ← getp p p_sz;
  let sz := PGROUNDUP sz in
  sz1 ← uvmalloc pagetable sz (u64 (sz + 2 * PGSIZE));
  if sz1 =? 0 then exec_bad pagetable sz None
  else
    let sz := sz1 in
    uvmclear pagetable (sz - 2 * PGSIZE);;
    let stackbase := sz - PGSIZE in
    o ← exec_args argv pagetable sz stackbase 0 [];
    match o with
    | None => exec_bad pagetable sz None
    | Some (sp, ustack) =>
        let argc := Z.of_nat (length ustack) in
        let sp := u64 (sp - (argc + 1) * 8) in
        let sp := sp - sp mod 16 in
        if sp <? stackbase then exec_bad pagetable sz None
        else
          r ← copyout pagetable sp ((ustack ++ [0]) ≫= Z_to_little_endian 8 8);
          if r <? 0 then exec_bad pagetable sz None
          else
            tf_set p (tf_a 1) sp;;
            setp p (fun q => set_name (safestrcpy_name (basename path path) (p_name q)) q);;
            oldpagetable ← getp p p_pagetable;
            setp p (set_pagetable pagetable);;
            setp p (set_sz sz);;
            tf_set p tf_epc entry;;
            tf_set p tf_sp sp;;
            proc_freepagetable oldpagetable oldsz;;
            mret argc
    end.

Definition exec (path : list Z) (argv : list (list Z)) : K Z :=
  p ← curproc;
  begin_op;;
  o ← namei path;
  match o with
  | None => end_op;; mret (-1)
  | Some ip =>
      ilock ip;;
      elf ← local_addr EXEC_ELF;
      r ← readi ip false elf 0 sizeof_elfhdr;
      if negb (r =? sizeof_elfhdr) then exec_bad 0 0 (Some ip)
      else
        magic ← elf_magic elf;
        if negb (magic =? ELF_MAGIC) then exec_bad 0 0 (Some ip)
        else
          pagetable ← proc_pagetable p;
          if pagetable =? 0 then exec_bad 0 0 (Some ip)
          else
            phoff ← elf_phoff elf;
            phnum ← elf_phnum elf;
            r ← exec_load (Z.to_nat phnum) pagetable ip (s32 phoff) 0;
            let '(ok, sz) := r in
            if negb ok then exec_bad pagetable sz (Some ip)
            else
              iunlockput ip;;
              end_op;;
              entry ← elf_entry elf;
              exec_commit p pagetable sz path argv entry
  end.

End exec.
