(* ===== verification/Sysargs.v ===== *)
(** * System call arguments ([syscall.c]) *)

From S2P Require Import Prelude Riscv Monad State Kstring Bytes Printf Kalloc Vm Proc Sleeplock Bio Log Fs Dir Console Pipe File Fork.
#[local] Open Scope Z_scope.

Definition MAXPATH : Z := 128.

(** The string in a buffer: the bytes before the first NUL. *)
Fixpoint cstring (bs : list Z) : list Z :=
  match bs with
  | [] => []
  | c :: bs' => if c =? 0 then [] else c :: cstring bs'
  end.

Section sysargs.
Context {L : Layout}.

(** The word at [addr], [None] for -1. *)
Definition fetchaddr (addr : Z) : K (option Z) :=
  p ← curproc;
  sz ← getp p p_sz;
  if (sz <=? addr) || (sz <? u64 (addr + 8)) then mret None
  else
    pt ← getp p p_pagetable;
    r ← copyin pt addr 8;
    if negb (fst r =? 0) then mret None
    else mret (Some (little_endian_to_Z 8 (snd r))).

(** The result, and the bytes written to [buf]. *)
Definition fetchstr (addr max : Z) : K (Z * list Z) :=
  p ← curproc;
  pt ← getp p p_pagetable;
  r ← copyinstr pt addr max;
  let '(err, buf) := r in
  if err <? 0 then mret (err, buf) else mret (Z.of_nat (length (cstring buf)), buf).

Definition argraw (n : Z) : K Z :=
  p ← curproc;
  if (0 <=? n) && (n <=? 5) then tf_get p (tf_a n) else panic "argraw".

(** The value; [argint] and [argaddr] always return 0. *)
Definition argint (n : Z) : K Z := v ← argraw n; mret (s32 v).
Definition argaddr (n : Z) : K Z := argraw n.

(** The result and the string, as [fetchstr]. *)
Definition argstr (n max : Z) : K (Z * list Z) :=
  addr ← argaddr n;
  fetchstr addr max.

End sysargs.
