(* ===== verification/Sysproc.v ===== *)
(** * The process system calls ([sysproc.c]) *)

From S2P Require Import Prelude Riscv Monad State Kstring Bytes Printf Kalloc Vm Proc Sleeplock Bio Log Fs Dir Console Pipe File Fork Sysargs.
#[local] Open Scope Z_scope.

(** The call frames of the compiled code and the frame pointer register, which
    [backtrace] reads. *)
Class Frames := mkframes { fr_stack : gmap Z Z; fr_fp : Z }.

Section sysproc.
Context {L : Layout} {W : Wakeups} {D : Disk} {F : Frames}.

Definition sys_exit : K Z := n ← argint 0; exit n.

Definition sys_getpid : K Z := p ← curproc; getp p p_pid.

Definition sys_fork : K Z := fork.

Definition sys_wait : K Z := p ← argaddr 0; wait p.

Definition sys_sbrk : K Z :=
  n ← argint 0;
  p ← curproc;
  sz ← getp p p_sz;
  let addr := s32 sz in
  r ← growproc n;
  if r <? 0 then mret (-1) else mret addr.

(** The loop of [sys_sleep]: false if the process is killed. [n] is converted
    to unsigned by the comparison. *)
Fixpoint sys_sleep_loop (fuel : nat) (ticks0 n : Z) : K bool :=
  ticks ← gets (fun k => ps_ticks (k_ps k));
  if u32 (ticks - ticks0) <? u32 n then
    p ← curproc;
    killed ← getp p p_killed;
    if truthy killed then mret false
    else
      match fuel with
      | O => out_of_fuel
      | S fuel' => sleep ChanTicks TicksLock;; sys_sleep_loop fuel' ticks0 n
      end
  else mret true.

Definition sys_sleep : K Z :=
  n ← argint 0;
  acquire TicksLock;;
  ticks0 ← gets (fun k => ps_ticks (k_ps k));
  ok ← sys_sleep_loop wakeups ticks0 n;
  if negb ok then release TicksLock;; mret (-1)
  else
    backtrace fr_stack fr_fp;;
    release TicksLock;;
    mret 0.

Definition sys_kill : K Z := pid ← argint 0; kill pid.

Definition sys_uptime : K Z :=
  acquire TicksLock;;
  xticks ← gets (fun k => ps_ticks (k_ps k));
  release TicksLock;;
  mret xticks.

Definition sys_sigalarm : K Z :=
  printf (str "sys_sigalarm" ++ [10]) [];;
  interval ← argint 0;
  handler ← argaddr 1;
  p ← curproc;
  setp p (set_alarm_interval interval);;
  setp p (set_alarm_handler handler);;
  setp p (set_ticks_since_alarm 0);;
  setp p (set_in_alarm_handler 0);;
  mret 0.

Definition sys_sigreturn : K Z :=
  p ← curproc;
  tf ← getp p p_trapframe;
  atf ← getp p p_alarm_tf;
  modify_mem (fun m => memmove m tf atf PGSIZE);;
  setp p (set_in_alarm_handler 0);;
  mret 0.

End sysproc.
