(* ===== verification/Sysfile.v ===== *)
(** * The file system calls ([sysfile.c]) *)

From S2P Require Import Prelude Riscv Monad State Kstring Bytes Printf Kalloc Vm Proc Sleeplock Bio Log Fs Dir Console Pipe File Fork Exec Sysargs.
#[local] Open Scope Z_scope.

(** [de] of [isdirempty] and of [sys_unlink] on the kernel stack. *)
Definition DE_EMPTY : Z := 0x8C0.
Definition DE_UNLINK : Z := 0x8D0.

Definition DOT : list Z := [46].
Definition DOTDOT : list Z := [46; 46].

(** [omode & flag]. *)
Definition has_flag (omode flag : Z) : bool := truthy (Z.land omode flag).
Definition b2z (b : bool) : Z := if b then 1 else 0.

Section sysfile.
Context {L : Layout} {W : Wakeups} {D : Disk}.

(** The descriptor and the file, [None] for -1. *)
Definition argfd (n : Z) : K (option (Z * Z)) :=
  fd ← argint n;
  if (fd <? 0) || (NOFILE <=? fd) then mret None
  else
    p ← curproc;
    o ← getp p p_ofile;
    match o !! Z.to_nat fd with
    | Some (Some f) => mret (Some (fd, f))
    | _ => mret None
    end.

(** [p->ofile[fd] = o]. *)
Definition set_fd (p fd : Z) (o : option Z) : K unit :=
  setp p (fun q => set_ofile (<[Z.to_nat fd := o]> (p_ofile q)) q).

Fixpoint fdalloc_loop (n : nat) (p f fd : Z) : K Z :=
  match n with
  | O => mret (-1)
  | S n' =>
      o ← getp p p_ofile;
      match o !! Z.to_nat fd with
      | Some (Some _) => fdalloc_loop n' p f (fd + 1)
      | _ => set_fd p fd (Some f);; mret fd
      end
  end.

Definition fdalloc (f : Z) : K Z :=
  p ← curproc;
  fdalloc_loop (Z.to_nat NOFILE) p f 0.

Definition sys_dup : K Z :=
  o ← argfd 0;
  match o with
  | None => mret (-1)
  | Some (_, f) =>
      fd ← fdalloc f;
      if fd <? 0 then mret (-1) else filedup f;; mret fd
  end.

Definition sys_read : K Z :=
  o ← argfd 0;
  match o with
  | None => mret (-1)
  | Some (_, f) => n ← argint 2; p ← argaddr 1; fileread f p n
  end.

Definition sys_write : K Z :=
  o ← argfd 0;
  match o with
  | None => mret (-1)
  | Some (_, f) => n ← argint 2; p ← argaddr 1; filewrite f p n
  end.

Definition sys_close : K Z :=
  o ← argfd 0;
  match o with
  | None => mret (-1)
  | Some (fd, f) =>
      p ← curproc;
      set_fd p fd None;;
      fileclose f;;
      mret 0
  end.

Definition sys_fstat : K Z :=
  o ← argfd 0;
  match o with
  | None => mret (-1)
  | Some (_, f) => st ← argaddr 1; filestat f st
  end.

(** The label [bad] of [sys_link]. *)
Definition sys_link_bad (ip : Z) : K Z :=
  ilock ip;;
  seti ip (fun i => set_i_nlink (s16 (i_nlink i - 1)) i);;
  iupdate ip;;
  iunlockput ip;;
  end_op;;
  mret (-1).

Definition sys_link : K Z :=
  r0 ← argstr 0 MAXPATH;
  if fst r0 <? 0 then mret (-1)
  else
    r1 ← argstr 1 MAXPATH;
    if fst r1 <? 0 then mret (-1)
    else
      let old := cstring (snd r0) in
      let new := cstring (snd r1) in
      begin_op;;
      o ← namei old;
      match o with
      | None => end_op;; mret (-1)
      | Some ip =>
          ilock ip;;
          t ← geti ip i_type;
          if t =? T_DIR then
            iunlockput ip;;
            end_op;;
            mret (-1)
          else
            seti ip (fun i => set_i_nlink (s16 (i_nlink i + 1)) i);;
            iupdate ip;;
            iunlock ip;;
            r ← nameiparent new name0;
            let '(o, name) := r in
            match o with
            | None => sys_link_bad ip
            | Some dp =>
                ilock dp;;
                ddev ← geti dp i_dev;
                idev ← geti ip i_dev;
                inum ← geti ip i_inum;
                e ← (if negb (ddev =? idev) then mret (-1) else dirlink dp name inum);
                if e <? 0 then
                  iunlockput dp;;
                  sys_link_bad ip
                else
                  iunlockput dp;;
                  iput ip;;
                  end_op;;
                  mret 0
            end
      end.

Fixpoint isdirempty_loop (fuel : nat) (dp off : Z) : K bool :=
  size ← geti dp i_size;
  if off <? size then
    match fuel with
    | O => out_of_fuel
    | S fuel' =>
        de ← local_addr DE_EMPTY;
        r ← readi dp false de off sizeof_dirent;
        if negb (r =? sizeof_dirent) then panic "isdirempty: readi"
        else
          inum ← de_inum de;
          if negb (inum =? 0) then mret false
          else isdirempty_loop fuel' dp (off + sizeof_dirent)
    end
  else mret true.

Definition isdirempty (dp : Z) : K bool :=
  size ← geti dp i_size;
  isdirempty_loop (S (Z.to_nat (size / sizeof_dirent))) dp (2 * sizeof_dirent).

(** The label [bad] of [sys_unlink]. *)
Definition sys_unlink_bad (dp : Z) : K Z :=
  iunlockput dp;;
  end_op;;
  mret (-1).

Definition sys_unlink : K Z :=
  r0 ← argstr 0 MAXPATH;
  if fst r0 <? 0 then mret (-1)
  else
    let path := cstring (snd r0) in
    begin_op;;
    r ← nameiparent path name0;
    let '(o, name) := r in
    match o with
    | None => end_op;; mret (-1)
    | Some dp =>
        ilock dp;;
        if (namecmp name DOT =? 0) || (namecmp name DOTDOT =? 0) then sys_unlink_bad dp
        else
          o ← dirlookup dp name;
          match o with
          | None => sys_unlink_bad dp
          | Some (ip, off) =>
              ilock ip;;
              nl ← geti ip i_nlink;
              if nl <? 1 then panic "unlink: nlink < 1"
              else
                t ← geti ip i_type;
                nonempty ← (if t =? T_DIR then e ← isdirempty ip; mret (negb e) else mret false);
                if (nonempty : bool) then
                  iunlockput ip;;
                  sys_unlink_bad dp
                else
                  de ← local_addr DE_UNLINK;
                  modify_mem (fun m => memset m de 0 sizeof_dirent);;
                  r ← writei dp false de off sizeof_dirent;
                  if negb (r =? sizeof_dirent) then panic "unlink: writei"
                  else
                    t ← geti ip i_type;
                    when (t =? T_DIR)
                      (seti dp (fun i => set_i_nlink (s16 (i_nlink i - 1)) i);;
                       iupdate dp);;
                    iunlockput dp;;
                    seti ip (fun i => set_i_nlink (s16 (i_nlink i - 1)) i);;
                    iupdate ip;;
                    iunlockput ip;;
                    end_op;;
                    mret 0
          end
    end.

Definition create (path : list Z) (type major minor : Z) : K (option Z) :=
  r ← nameiparent path name0;
  let '(o, name) := r in
  match o with
  | None => mret None
  | Some dp =>
      ilock dp;;
      o ← dirlookup dp name;
      match o with
      | Some (ip, _) =>
          iunlockput dp;;
          ilock ip;;
          t ← geti ip i_type;
          if (type =? T_FILE) && ((t =? T_FILE) || (t =? T_DEVICE)) then mret (Some ip)
          else
            iunlockput ip;;
            mret None
      | None =>
          dev ← geti dp i_dev;
          ip ← ialloc dev type;
          ilock ip;;
          seti ip (set_i_major major);;
          seti ip (set_i_minor minor);;
          seti ip (set_i_nlink 1);;
          iupdate ip;;
          when (type =? T_DIR)
            (seti dp (fun i => set_i_nlink (s16 (i_nlink i + 1)) i);;
             iupdate dp;;
             inum ← geti ip i_inum;
             r ← dirlink ip DOT inum;
             if r <? 0 then panic "create dots"
             else
               dinum ← geti dp i_inum;
               r ← dirlink ip DOTDOT dinum;
               if r <? 0 then panic "create dots" else mret ());;
          inum ← geti ip i_inum;
          r ← dirlink dp name inum;
          if r <? 0 then panic "create: dirlink"
          else
            iunlockput dp;;
            mret (Some ip)
      end
  end.

(** The failures of [sys_open] after the inode is found. *)
Definition sys_open_bad (ip : Z) : K Z :=
  iunlockput ip;;
  end_op;;
  mret (-1).

(** [sys_open] once the inode is found and locked. *)
Definition sys_open_ip (ip omode : Z) : K Z :=
  i ← geti ip id;
  if (i_type i =? T_DEVICE) && ((i_major i <? 0) || (NDEV <=? i_major i)) then sys_open_bad ip
  else
    o ← filealloc;
    match o with
    | None => sys_open_bad ip
    | Some f =>
        fd ← fdalloc f;
        if fd <? 0 then
          fileclose f;;
          sys_open_bad ip
        else
          i ← geti ip id;
          (if i_type i =? T_DEVICE then
             setf f (set_f_type FD_DEVICE);;
             setf f (set_f_major (i_major i))
           else
             setf f (set_f_type FD_INODE);;
             setf f (set_f_off 0));;
          setf f (set_f_ip ip);;
          setf f (set_f_readable (b2z (negb (has_flag omode O_WRONLY))));;
          setf f (set_f_writable (b2z (has_flag omode O_WRONLY || has_flag omode O_RDWR)));;
          when (has_flag omode O_TRUNC && (i_type i =? T_FILE)) (itrunc ip);;
          iunlock ip;;
          end_op;;
          mret fd
    end.

Definition sys_open : K Z :=
  r0 ← argstr 0 MAXPATH;
  if fst r0 <? 0 then mret (-1)
  else
    omode ← argint 1;
    let path := cstring (snd r0) in
    begin_op;;
    if has_flag omode O_CREATE then
      o ← create path T_FILE 0 0;
      match o with
      | None => end_op;; mret (-1)
      | Some ip => sys_open_ip ip omode
      end
    else
      o ← namei path;
      match o with
      | None => end_op;; mret (-1)
      | Some ip =>
          ilock ip;;
          t ← geti ip i_type;
          if (t =? T_DIR) && negb (omode =? O_RDONLY) then sys_open_bad ip
          else sys_open_ip ip omode
      end.

Definition sys_mkdir : K Z :=
  begin_op;;
  r0 ← argstr 0 MAXPATH;
  o ← (if fst r0 <? 0 then mret None else create (cstring (snd r0)) T_DIR 0 0);
  match o with
  | None => end_op;; mret (-1)
  | Some ip => iunlockput ip;; end_op;; mret 0
  end.

Definition sys_mknod : K Z :=
  begin_op;;
  r0 ← argstr 0 MAXPATH;
  o ← (if fst r0 <? 0 then mret None
       else
         major ← argint 1;
         minor ← argint 2;
         create (cstring (snd r0)) T_DEVICE (s16 major) (s16 minor));
  match o with
  | None => end_op;; mret (-1)
  | Some ip => iunlockput ip;; end_op;; mret 0
  end.

Definition sys_chdir : K Z :=
  p ← curproc;
  begin_op;;
  r0 ← argstr 0 MAXPATH;
  o ← (if fst r0 <? 0 then mret None else namei (cstring (snd r0)));
  match o with
  | None => end_op;; mret (-1)
  | Some ip =>
      ilock ip;;
      t ← geti ip i_type;
      if negb (t =? T_DIR) then
        iunlockput ip;;
        end_op;;
        mret (-1)
      else
        iunlock ip;;
        cwd ← getp p p_cwd;
        old ← deref cwd;
        iput old;;
        end_op;;
        setp p (set_cwd (Some ip));;
        mret 0
  end.

(** The loop of [sys_exec]: whether it completed, and the pages of [argv]. A
    string is copied to its page. *)
Fixpoint sys_exec_args (fuel : nat) (uargv i : Z) (argv : list Z) : K (bool * list Z) :=
  match fuel with
  | O => mret (false, argv)
  | S fuel' =>
      o ← fetchaddr (u64 (uargv + 8 * i));
      match o with
      | None => mret (false, argv)
      | Some uarg =>
          if uarg =? 0 then mret (true, argv)
          else
            page ← kalloc;
            if page =? 0 then mret (false, argv)
            else
              r ← fetchstr uarg PGSIZE;
              modify_mem (fun m => store_bytes m page (snd r));;
              if fst r <? 0 then mret (false, argv ++ [page])
              else sys_exec_args fuel' uargv (i + 1) (argv ++ [page])
      end
  end.

Fixpoint kfree_all (argv : list Z) : K unit :=
  match argv with
  | [] => mret ()
  | page :: argv' => kfree page;; kfree_all argv'
  end.

(** [exec] reads the strings from the pages, which stay allocated until it
    returns. *)
Definition sys_exec : K Z :=
  r0 ← argstr 0 MAXPATH;
  if fst r0 <? 0 then mret (-1)
  else
    uargv ← argaddr 1;
    r ← sys_exec_args (Z.to_nat MAXARG) uargv 0 [];
    let '(ok, argv) := r in
    if negb ok then kfree_all argv;; mret (-1)
    else
      strs ← gets (fun k => (fun page => cstring (load_bytes (k_mem k) page (Z.to_nat PGSIZE))) <$> argv);
      ret ← exec (cstring (snd r0)) strs;
      kfree_all argv;;
      mret ret.

Definition sys_pipe : K Z :=
  p ← curproc;
  fdarray ← argaddr 0;
  o ← pipealloc;
  match o with
  | None => mret (-1)
  | Some (rf, wf) =>
      fd0 ← fdalloc rf;
      fd1 ← (if fd0 <? 0 then mret (-1) else fdalloc wf);
      if (fd0 <? 0) || (fd1 <? 0) then
        when (0 <=? fd0) (set_fd p fd0 None);;
        fileclose rf;;
        fileclose wf;;
        mret (-1)
      else
        pt ← getp p p_pagetable;
        r ← copyout pt fdarray (Z_to_little_endian 4 8 fd0);
        r ← (if r <? 0 then mret r else copyout pt (u64 (fdarray + 4)) (Z_to_little_endian 4 8 fd1));
        if r <? 0 then
          set_fd p fd0 None;;
          set_fd p fd1 None;;
          fileclose rf;;
          fileclose wf;;
          mret (-1)
        else mret 0
  end.

End sysfile.
