(* ===== verification/Syscall.v ===== *)
(** * The system call dispatch ([syscall.c]) *)

From S2P Require Import Prelude Riscv Monad State Kstring Bytes Printf Kalloc Vm Proc Sleeplock Bio Log Fs Dir Console Pipe File Fork Exec Sysargs Sysproc Sysfile.
#[local] Open Scope Z_scope.

Section syscall.
Context {L : Layout} {W : Wakeups} {D : Disk} {F : Frames}.

(** The table [syscalls]. *)
Definition syscalls (num : Z) : option (K Z) :=
  match num with
  | 1 => Some sys_fork
  | 2 => Some sys_exit
  | 3 => Some sys_wait
  | 4 => Some sys_pipe
  | 5 => Some sys_read
  | 6 => Some sys_kill
  | 7 => Some sys_exec
  | 8 => Some sys_fstat
  | 9 => Some sys_chdir
  | 10 => Some sys_dup
  | 11 => Some sys_getpid
  | 12 => Some sys_sbrk
  | 13 => Some sys_sleep
  | 14 => Some sys_uptime
  | 15 => Some sys_open
  | 16 => Some sys_write
  | 17 => Some sys_mknod
  | 18 => Some sys_unlink
  | 19 => Some sys_link
  | 20 => Some sys_mkdir
  | 21 => Some sys_close
  | 22 => Some sys_sigalarm
  | 23 => Some sys_sigreturn
  | _ => None
  end.

(** The handler's result is converted to [uint64]. *)
Definition syscall : K unit :=
  p ← curproc;
  a7 ← tf_get p (tf_a 7);
  let num := s32 a7 in
  match (if 0 <? num then syscalls num else None) with
  | Some handler =>
      r ← handler;
      tf_set p (tf_a 0) (u64 r)
  | None =>
      pid ← getp p p_pid;
      name ← getp p p_name;
      printf (str "%d %s: unknown sys call %d" ++ [10]) [PInt pid; PStr (Some (cstring name)); PInt num];;
      tf_set p (tf_a 0) (u64 (-1))
  end.

End syscall.
