(* ===== verification/Trap.v ===== *)
(** * Traps ([trap.c]) and [forkret] ([proc.c])

    What the hardware tells a trap handler is a [trapinfo]; what it is told
    before the return to user space is a [userret]. Interrupts are off
    inside the handlers except around a system call, whose interrupts are
    separate steps of the machine. *)

From S2P Require Import Prelude Riscv Monad State Kstring Bytes Printf Kalloc Vm Proc Sleeplock Bio Log Fs Dir Console Pipe File Fork Exec Sysargs Sysproc Sysfile Syscall.
#[local] Open Scope Z_scope.

Definition SSTATUS_SPP : Z := Z.shiftl 1 8.
Definition SSTATUS_SPIE : Z := Z.shiftl 1 5.
Definition SSTATUS_SIE : Z := Z.shiftl 1 1.
Definition UART0_IRQ : Z := 10.
Definition VIRTIO0_IRQ : Z := 1.

(** The control and status registers at the trap, the hart, and the interrupt
    [plic_claim] reads from the PLIC. *)
Record trapinfo := mktrapinfo {
  ti_sstatus : Z;
  ti_sepc : Z;
  ti_scause : Z;
  ti_stval : Z;
  ti_satp : Z;
  ti_hartid : Z;
  ti_irq : Z
}.

(** [stvec], [sstatus] and [sepc] as [usertrapret] leaves them, and the
    arguments of [userret]. *)
Record userret := mkuserret {
  ur_stvec : Z;
  ur_sstatus : Z;
  ur_sepc : Z;
  ur_trapframe : Z;
  ur_satp : Z
}.

(** [virtio_disk_intr], of the disk driver. *)
Class DiskIntr := virtio_disk_intr : K unit.

Section trap.
Context {L : Layout} {W : Wakeups} {D : Disk} {DI : DiskIntr} {F : Frames}.

Definition clockintr : K unit :=
  acquire TicksLock;;
  modify_ps (fun ps => ps_set_ticks (u32 (ps_ticks ps + 1)) ps);;
  wakeup ChanTicks;;
  release TicksLock.

Definition devintr (ti : trapinfo) : K Z :=
  if truthy (Z.land (ti_scause ti) 0x8000000000000000) && (Z.land (ti_scause ti) 0xff =? 9) then
    let irq := s32 (ti_irq ti) in
    (if irq =? UART0_IRQ then uartintr
     else if irq =? VIRTIO0_IRQ then virtio_disk_intr
     else if truthy irq then printf (str "unexpected interrupt irq=%d" ++ [10]) [PInt irq]
     else mret ());;
    mret 1
  else if ti_scause ti =? 0x8000000000000001 then
    when (ti_hartid ti =? 0) clockintr;;
    mret 2
  else mret 0.

Definition usertrapret (ti : trapinfo) : K userret :=
  p ← curproc;
  tf_set p tf_kernel_satp (ti_satp ti);;
  ks ← getp p p_kstack;
  tf_set p tf_kernel_sp (ks + PGSIZE);;
  tf_set p tf_kernel_trap a_usertrap;;
  tf_set p tf_kernel_hartid (ti_hartid ti);;
  let x := Z.land (ti_sstatus ti) (Z.lnot SSTATUS_SPP) in
  let x := Z.lor x SSTATUS_SPIE in
  epc ← tf_get p tf_epc;
  pt ← getp p p_pagetable;
  mret (mkuserret (TRAMPOLINE + (a_uservec - trampoline)) x epc TRAPFRAME (MAKE_SATP pt)).

(** The alarm of a process, on a timer interrupt. *)
Definition alarm_tick (p : Z) : K unit :=
  interval ← getp p p_alarm_interval;
  inh ← getp p p_in_alarm_handler;
  when ((0 <? interval) && (inh =? 0))
    (t ← getp p p_ticks_since_alarm;
     setp p (set_ticks_since_alarm (t + 1));;
     t ← getp p p_ticks_since_alarm;
     interval ← getp p p_alarm_interval;
     when (interval <=? t)
       (setp p (set_ticks_since_alarm 0);;
        atf ← getp p p_alarm_tf;
        tf ← getp p p_trapframe;
        modify_mem (fun m => memmove m atf tf PGSIZE);;
        handler ← getp p p_alarm_handler;
        tf_set p tf_epc handler;;
        setp p (set_in_alarm_handler 1))).

Definition usertrap (ti : trapinfo) : K userret :=
  if negb (Z.land (ti_sstatus ti) SSTATUS_SPP =? 0) then panic "usertrap: not from user mode"
  else
    p ← curproc;
    tf_set p tf_epc (ti_sepc ti);;
    (if ti_scause ti =? 8 then
       killed ← getp p p_killed;
       when (truthy killed) (exit (-1));;
       epc ← tf_get p tf_epc;
       tf_set p tf_epc (u64 (epc + 4));;
       syscall
     else
       which_dev ← devintr ti;
       if negb (which_dev =? 0) then
         when (which_dev =? 2) (alarm_tick p;; yield)
       else
         pid ← getp p p_pid;
         printf (str "usertrap(): unexpected scause %p pid=%d" ++ [10]) [PPtr (ti_scause ti); PInt pid];;
         printf (str "            sepc=%p stval=%p" ++ [10]) [PPtr (ti_sepc ti); PPtr (ti_stval ti)];;
         setp p (set_killed 1));;
    killed ← getp p p_killed;
    when (truthy killed) (exit (-1));;
    usertrapret ti.

(** [sepc] and [sstatus] are restored from the entry's values. *)
Definition kerneltrap (ti : trapinfo) : K unit :=
  if Z.land (ti_sstatus ti) SSTATUS_SPP =? 0 then panic "kerneltrap: not from supervisor mode"
  else if negb (Z.land (ti_sstatus ti) SSTATUS_SIE =? 0) then panic "kerneltrap: interrupts enabled"
  else
    which_dev ← devintr ti;
    if which_dev =? 0 then
      printf (str "scause %p" ++ [10]) [PPtr (ti_scause ti)];;
      printf (str "sepc=%p stval=%p" ++ [10]) [PPtr (ti_sepc ti); PPtr (ti_stval ti)];;
      panic "kerneltrap"
    else
      me ← myproc;
      match me with
      | Some p =>
          st ← getp p p_state;
          when ((which_dev =? 2) && same_state st RUNNING) yield
      | None => mret ()
      end.

(** [first] is the value of the static variable, false from the first call
    on. *)
Definition forkret (first : bool) (ti : trapinfo) : K userret :=
  p ← curproc;
  release (ProcLock p);;
  when first (fsinit ROOTDEV);;
  usertrapret ti.

End trap.
