(* ===== verification/DirProps.v ===== *)
(** * Path names, directory entries and on-disk inodes: their formats *)

From S2P Require Import Prelude Riscv Monad State Kstring Bytes Printf Kalloc Vm Proc Sleeplock Bio Log Fs Dir Sysargs.
#[local] Open Scope Z_scope.

(** ** Path elements *)

(** The reference: the non-empty pieces between slashes. *)
Fixpoint elems_from (cur path : list Z) : list (list Z) :=
  match path with
  | [] => if bool_decide (cur = []) then [] else [cur]
  | c :: path' =>
      if c =? SLASH then (if bool_decide (cur = []) then [] else [cur]) ++ elems_from [] path'
      else elems_from (cur ++ [c]) path'
  end.

Definition elems (path : list Z) : list (list Z) := elems_from [] path.

Lemma elems_slash path : elems (SLASH :: path) = elems path.
Proof. done. Qed.

Lemma elems_skip_slashes path : elems (skip_slashes path) = elems path.
Proof.
  induction path as [|c path IH]; [done|]. simpl. destruct (Z.eqb_spec c SLASH) as [->|]; [|done].
  rewrite IH. by rewrite elems_slash.
Qed.

Lemma skip_slashes_head path : head (skip_slashes path) <> Some SLASH.
Proof. induction path as [|c path IH]; [done|]. simpl. destruct (Z.eqb_spec c SLASH); [done|]. simpl. congruence. Qed.

Lemma elems_from_span cur path s r :
  Forall (fun c => c <> 0) path -> span_elem path = (s, r) -> cur ++ s <> [] ->
  elems_from cur path = (cur ++ s) :: elems r.
Proof.
  revert cur s. induction path as [|c path IH]; intros cur s Hnz; simpl.
  { intros [= <- <-] Hne. rewrite app_nil_r in *. by rewrite bool_decide_false. }
  apply Forall_cons in Hnz as [Hc Hnz]. rewrite (proj2 (Z.eqb_neq c 0)) by done. rewrite andb_true_r.
  destruct (Z.eqb_spec c SLASH) as [->|Hs]; simpl.
  - intros [= <- <-] Hne. rewrite app_nil_r in *. rewrite bool_decide_false by done. done.
  - destruct (span_elem path) as [s' r'] eqn:E. intros [= <- <-] Hne.
    rewrite (IH (cur ++ [c]) s' Hnz eq_refl); rewrite <- app_assoc; [done|by destruct cur].
Qed.

Lemma skip_slashes_nz path : Forall (fun c => c <> 0) path -> Forall (fun c => c <> 0) (skip_slashes path).
Proof. induction 1 as [|c path Hc H IH]; [done|]. simpl. case_match; [done|]. by constructor. Qed.

Lemma span_elem_nz path s r :
  Forall (fun c => c <> 0) path -> span_elem path = (s, r) -> Forall (fun c => c <> 0) s /\ Forall (fun c => c <> 0) r.
Proof.
  revert s. induction path as [|c path IH]; intros s; simpl; [by intros _ [= <- <-]|].
  intros [Hc H]%Forall_cons. case_match; [|by intros [= <- <-]; split; [|constructor]].
  destruct (span_elem path) as [s' r'] eqn:E. intros [= <- <-]. destruct (IH s' H eq_refl). split; [by constructor|done].
Qed.

Lemma elems_head_not_slash path : Forall (fun c => c <> 0) path -> head path <> Some SLASH -> at_end path = true <-> elems path = [].
Proof.
  intros Hnz Hh. destruct path as [|c path]; [done|]. apply Forall_cons in Hnz as [Hc Hnz]. simpl.
  assert (c <> SLASH) by (simpl in Hh; congruence).
  rewrite (proj2 (Z.eqb_neq c 0)) by done. split; [done|]. unfold elems. simpl. rewrite (proj2 (Z.eqb_neq c SLASH)) by done.
  destruct (span_elem path) as [s r] eqn:E. by rewrite (elems_from_span [c] path s r).
Qed.

Lemma cstring_app s t : Forall (fun c => c <> 0) s -> cstring (s ++ 0 :: t) = s.
Proof. induction 1 as [|c s Hc H IH]; [done|]. simpl. rewrite (proj2 (Z.eqb_neq c 0)) by done. by rewrite IH. Qed.

Lemma cstring_nz s : Forall (fun c => c <> 0) s -> cstring s = s.
Proof. induction 1 as [|c s Hc H IH]; [done|]. simpl. rewrite (proj2 (Z.eqb_neq c 0)) by done. by rewrite IH. Qed.

(** The array [name] after an element [s] is copied to it. *)
Lemma name_array s name :
  Forall (fun c => c <> 0) s -> length name = Z.to_nat DIRSIZ ->
  let name' := if DIRSIZ <=? Z.of_nat (length s) then splice 0 (take (Z.to_nat DIRSIZ) s) name else splice 0 (s ++ [0]) name in
  cstring name' = take (Z.to_nat DIRSIZ) s /\ length name' = Z.to_nat DIRSIZ.
Proof.
  intros Hs Hn. cbv zeta. destruct (Z.leb_spec DIRSIZ (Z.of_nat (length s))) as [Hl|Hl].
  - assert (length (take (Z.to_nat DIRSIZ) s) = Z.to_nat DIRSIZ) as Hlt by (rewrite length_take; lia).
    split; [|rewrite length_splice; [done|lia|rewrite Hlt, Hn; lia]]. unfold splice. rewrite Hlt.
    rewrite (drop_ge name) by (simpl; lia). rewrite app_nil_r. simpl. apply cstring_nz. by apply Forall_take.
  - split; [|rewrite length_splice; [done|lia|rewrite length_app; simpl; lia]]. unfold splice. simpl.
    rewrite <- app_assoc. simpl. rewrite cstring_app by done. by rewrite take_ge by lia.
Qed.

(** C39: [skipelem] removes exactly the first element of a path: it fails when
    the path has none; otherwise the array [name] holds the element, cut to
    DIRSIZ bytes, and the rest of the path has the remaining elements, no
    leading slash, and is empty exactly when the element was the last one. *)
Theorem skipelem_parses_path path name :
  Forall (fun c => c <> 0) path -> length name = Z.to_nat DIRSIZ ->
  match skipelem path name with
  | None => elems path = []
  | Some (rest, name') =>
      exists e, elems path = e :: elems rest /\ cstring name' = take (Z.to_nat DIRSIZ) e /\ length name' = Z.to_nat DIRSIZ /\
        head rest <> Some SLASH /\ (at_end rest = true <-> elems rest = [])
  end.
Proof.
  intros Hnz Hn. unfold skipelem. pose proof (skip_slashes_nz path Hnz) as Hnz1. pose proof (skip_slashes_head path) as Hh.
  rewrite <- (elems_skip_slashes path). set (p := skip_slashes path) in *. clearbody p.
  destruct (at_end p) eqn:E; [by apply (elems_head_not_slash p Hnz1 Hh)|].
  destruct (span_elem p) as [s r] eqn:Es. destruct (span_elem_nz _ _ _ Hnz1 Es) as [Hs Hr].
  assert (s <> []) as Hne.
  { intros ->. destruct p as [|c p]; [done|]. simpl in *. rewrite E in Es.
    destruct (Z.eqb_spec c SLASH) as [->|]; [done|]. simpl in Es. by destruct (span_elem p). }
  destruct (name_array s name Hs Hn) as [H1 H2]. exists s. split_and!; try done.
  - rewrite elems_skip_slashes. by apply (elems_from_span [] p).
  - apply skip_slashes_head.
  - apply elems_head_not_slash; [by apply skip_slashes_nz|apply skip_slashes_head].
Qed.

Lemma skipelem_parses_path_witness :
  skipelem (str "//usr/rtm") name0 = Some (str "rtm", str "usr" ++ replicate 11 0) /\
  exists e, elems (str "//usr/rtm") = e :: elems (str "rtm") /\
    cstring (str "usr" ++ replicate 11 0) = take (Z.to_nat DIRSIZ) e /\ length (str "usr" ++ replicate 11 0) = Z.to_nat DIRSIZ /\
    head (str "rtm") <> Some SLASH /\ (at_end (str "rtm") = true <-> elems (str "rtm") = []).
Proof.
  split; [reflexivity|]. exact (skipelem_parses_path (str "//usr/rtm") name0 ltac:(repeat constructor; discriminate) eq_refl).
Defined.

(** ** Names in directory entries *)

Lemma head_default_cons (c : Z) l : default 0 (head (c :: l)) = c.
Proof. done. Qed.

Lemma strncmp_list_zero n p q : strncmp_list n p q = 0 <-> take n (cstring p) = take n (cstring q).
Proof.
  revert p q. induction n as [|n IH]; intros p q; [by rewrite !take_0|].
  destruct p as [|a p], q as [|b q]; cbn [strncmp_list head default from_option id tail cstring].
  - done.
  - simpl. destruct (Z.eqb_spec b 0) as [->|]; [done|]. simpl. split; [lia|done].
  - destruct (Z.eqb_spec a 0) as [->|Ha]; [done|]. simpl. destruct (Z.eqb_spec a 0); [lia|]. split; [lia|done].
  - destruct (Z.eqb_spec a 0) as [->|Ha]; cbn [negb andb].
    + destruct (Z.eqb_spec b 0) as [->|Hb]; [done|]. simpl. split; [lia|done].
    + destruct (Z.eqb_spec a b) as [->|Hab].
      * rewrite IH. destruct (Z.eqb_spec b 0); [lia|]. simpl. split; [intros ->; done|by intros [=]].
      * destruct (Z.eqb_spec b 0) as [->|Hb]; simpl; split; try lia; try done. intros [=]. lia.
Qed.

Lemma cstring_zeros n : cstring (replicate n 0) = [].
Proof. by destruct n. Qed.

Lemma strncpy_list_cstring n t : cstring (strncpy_list n t) = take n (cstring t) /\ length (strncpy_list n t) = n.
Proof.
  revert t. induction n as [|n IH]; intros t; [done|]. cbn [strncpy_list].
  destruct t as [|c t]; cbn [head default from_option id tail cstring].
  - change (0 =? 0) with true. cbv iota. split; [apply (cstring_zeros (S n))|by rewrite length_replicate].
  - destruct (Z.eqb_spec c 0) as [->|Hc]; [split; [apply (cstring_zeros (S n))|by rewrite length_replicate]|].
    destruct (IH t) as [E1 E2]. simpl. rewrite (proj2 (Z.eqb_neq c 0)) by done. by rewrite E1, E2.
Qed.

(** A name looked up with [namecmp] matches the entry [dirlink] wrote for
    another name (the DIRSIZ bytes of [strncpy]) exactly when the two names
    agree on their first DIRSIZ bytes. *)
Theorem dirent_name_matches name name' :
  namecmp name (strncpy_list (Z.to_nat DIRSIZ) name') = 0 <->
  take (Z.to_nat DIRSIZ) (cstring name) = take (Z.to_nat DIRSIZ) (cstring name').
Proof.
  unfold namecmp. rewrite strncmp_list_zero. destruct (strncpy_list_cstring (Z.to_nat DIRSIZ) name') as [-> _].
  by rewrite take_take, Nat.min_id.
Qed.

(** ** On-disk inodes *)

Definition int16 (v : Z) : Prop := - 2 ^ 15 <= v < 2 ^ 15.

(** The in-memory fields have the ranges of their C types. *)
Definition inode_ok (ip : inode) : Prop :=
  int16 (i_type ip) /\ int16 (i_major ip) /\ int16 (i_minor ip) /\ int16 (i_nlink ip) /\
  0 <= i_size ip < 2 ^ 32 /\ length (i_addrs ip) = 13%nat /\ Forall (fun a => 0 <= a < 2 ^ 32) (i_addrs ip).

Lemma rd_wr_mod n off v d :
  0 <= off -> 0 <= n -> off + n <= Z.of_nat (length d) -> rd n off (wr n off v d) = v mod 2 ^ (8 * n).
Proof.
  intros H1 H2 H3. unfold rd, wr.
  replace n with (Z.of_nat (length (Z_to_little_endian n 8 v))) at 1 by (rewrite length_le; lia).
  rewrite slice_splice_eq by (rewrite ?length_le; lia).
  rewrite little_endian_to_Z_to_little_endian by lia. by rewrite Z.mul_comm.
Qed.

Lemma s16_mod v : int16 v -> s16 (v mod 2 ^ 16) = v.
Proof. unfold int16, s16. intros H. rewrite Zplus_mod_idemp_l, Z.mod_small; lia. Qed.

Lemma length_addrs_bytes l : length (addrs_bytes l) = (4 * length l)%nat.
Proof. induction l as [|a l IH]; [done|]. change (addrs_bytes (a :: l)) with (Z_to_little_endian 4 8 a ++ addrs_bytes l). rewrite length_app, IH, length_le by lia. simpl. lia. Qed.

(** The [i]-th word of the copied array. *)
Lemma slice_addrs l i a :
  l !! i = Some a -> slice (4 * Z.of_nat i) 4 (addrs_bytes l) = Z_to_little_endian 4 8 a.
Proof.
  revert i. induction l as [|b l IH]; intros i; [done|].
  change (addrs_bytes (b :: l)) with (Z_to_little_endian 4 8 b ++ addrs_bytes l). unfold slice.
  destruct i as [|i]; simpl lookup.
  - intros [= <-]. rewrite Z.mul_0_r. rewrite drop_0. by rewrite take_app_length' by (by rewrite length_le).
  - intros H. rewrite drop_app_ge by (rewrite length_le; lia). rewrite length_le by lia. rewrite <- (IH i H). unfold slice. do 2 f_equal. lia.
Qed.

Lemma slice_splice_in off bs d o n :
  0 <= off -> 0 <= o -> 0 <= n -> o + n <= Z.of_nat (length bs) -> off + Z.of_nat (length bs) <= Z.of_nat (length d) ->
  slice (off + o) n (splice off bs d) = slice o n bs.
Proof.
  intros. apply list_eq. intros i. destruct (decide (i < Z.to_nat n)%nat) as [Hi|Hi].
  - rewrite !lookup_slice by done. unfold splice. rewrite lookup_app_r by (rewrite length_take; lia).
    rewrite length_take, lookup_app_l by lia. f_equal. lia.
  - rewrite !lookup_ge_None_2; [done|rewrite length_slice; lia|rewrite length_slice; try done; [lia|lia|]]. rewrite length_splice; lia.
Qed.

Lemma di_addrs_splice o l d :
  0 <= o -> length l = 13%nat -> Forall (fun a => 0 <= a < 2 ^ 32) l -> o + 64 <= Z.of_nat (length d) ->
  di_addrs o (splice (o + 12) (addrs_bytes l) d) = l.
Proof.
  intros Ho Hl Hb Hd. pose proof (length_addrs_bytes l) as Hab. rewrite Hl in Hab. apply list_eq. intros i. unfold di_addrs.
  rewrite list_lookup_fmap. destruct (decide (i < 13)%nat) as [Hi|Hi].
  - rewrite lookup_seqZ_lt by (unfold NDIRECT; lia). destruct (lookup_lt_is_Some_2 l i) as [a Ha]; [lia|].
    rewrite Ha. simpl. f_equal. unfold rd. rewrite (Z.add_0_l (Z.of_nat i)). rewrite slice_splice_in by lia. rewrite (slice_addrs _ _ _ Ha).
    rewrite little_endian_to_Z_to_little_endian by lia. apply Z.mod_small. rewrite Forall_lookup in Hb. apply (Hb _ _ Ha).
  - rewrite lookup_seqZ_ge by (unfold NDIRECT; lia). by rewrite lookup_ge_None_2 by lia.
Qed.

Lemma slice_rd n o d d' : slice o n d = slice o n d' -> rd n o d = rd n o d'.
Proof. unfold rd. by intros ->. Qed.

Lemma slice_wr_ne n off n' off' v d :
  0 <= off -> 0 <= n -> 0 <= off' -> 0 <= n' -> off + n <= off' \/ off' + n' <= off ->
  off' + n' <= Z.of_nat (length d) -> off + n <= Z.of_nat (length d) -> slice off n (wr n' off' v d) = slice off n d.
Proof. intros. unfold wr. apply slice_splice_ne; rewrite ?length_le; lia. Qed.

Ltac lens := rewrite ?length_addrs_bytes; repeat (rewrite length_wr; [|lia|lia|lens]); lia.

(** The fields survive the assignments that follow them. *)
Lemma put_dinode_fields o ip d :
  0 <= o -> o + 64 <= Z.of_nat (length d) -> inode_ok ip ->
  let d' := put_dinode o ip d in
  di_type o d' = i_type ip /\ di_major o d' = i_major ip /\ di_minor o d' = i_minor ip /\ di_nlink o d' = i_nlink ip /\
  di_size o d' = i_size ip /\ di_addrs o d' = i_addrs ip.
Proof.
  intros Ho Hd (H1 & H2 & H3 & H4 & H5 & H6 & H7). cbv zeta.
  assert (Hs : forall n p x, 0 <= n -> o <= p -> p + n <= o + 12 -> length x = length d ->
    rd n p (splice (o + 12) (addrs_bytes (i_addrs ip)) x) = rd n p x).
  { intros n p x ? ? ? Hx. apply slice_rd. apply slice_splice_ne; rewrite ?length_addrs_bytes; lia. }
  unfold put_dinode, di_type, di_major, di_minor, di_nlink, di_size, rd16s. split_and!.
  1-5: rewrite Hs; [|lia|lia|lia|lens].
  1-5: repeat (rewrite rd_wr_ne; [|lia|lia|lia|lia|lia|lens|lens]); rewrite rd_wr_mod; [|lia|lia|lens].
  1-4: by apply s16_mod.
  - by apply Z.mod_small.
  - by apply di_addrs_splice; [..|lens].
Qed.

(** [iupdate] and [ilock] agree on the format of an on-disk inode: what
    [ilock] reads back from the block [iupdate] wrote is the inode, whatever
    the in-memory slot held; and the other inodes of the block are unchanged. *)
Theorem dinode_roundtrip inum inum' ip ip0 d :
  length d = Z.to_nat BSIZE -> 0 <= inum -> 0 <= inum' -> inode_ok ip ->
  get_dinode (di_off inum) (put_dinode (di_off inum) ip d) ip0 =
    set_i_addrs (i_addrs ip) (set_i_size (i_size ip) (set_i_nlink (i_nlink ip) (set_i_minor (i_minor ip)
      (set_i_major (i_major ip) (set_i_type (i_type ip) ip0))))) /\
  (inum mod IPB <> inum' mod IPB ->
    slice (di_off inum') sizeof_dinode (put_dinode (di_off inum) ip d) = slice (di_off inum') sizeof_dinode d).
Proof.
  intros Hd Hi Hi' Hok. assert (Hb : forall i, 0 <= i -> 0 <= i mod IPB < 16) by (intros; by apply Z.mod_pos_bound).
  pose proof (Hb _ Hi) as B. pose proof (Hb _ Hi') as B'. unfold di_off, sizeof_dinode in *. change (Z.to_nat BSIZE) with 1024%nat in Hd.
  destruct (put_dinode_fields (inum mod IPB * 64) ip d) as (E1 & E2 & E3 & E4 & E5 & E6); [lia|lia|done|]. split.
  - unfold get_dinode. by rewrite E1, E2, E3, E4, E5, E6.
  - intros Hne. destruct Hok as (_ & _ & _ & _ & _ & H6 & _). unfold put_dinode.
    rewrite slice_splice_ne; [|lia|lia|lia|lens|lens|lens].
    repeat (rewrite slice_wr_ne; [|lia|lia|lia|lia|lia|lens|lens]). done.
Qed.

Definition a_dinode : inode := mkinode 1 2 1 sleeplock0 1 T_FILE 0 (-1) 1 70000 (100 :: 101 :: replicate 11 0).

Lemma dinode_roundtrip_witness :
  inode_ok a_dinode /\
  di_size (di_off 2) (put_dinode (di_off 2) a_dinode (replicate 1024 7)) = 70000 /\
  slice (di_off 3) sizeof_dinode (put_dinode (di_off 2) a_dinode (replicate 1024 7)) = replicate 64 7.
Proof.
  assert (inode_ok a_dinode) as Hok.
  { unfold inode_ok, int16; simpl. unfold T_FILE. split_and!; try lia; try reflexivity. repeat (apply Forall_cons; split; [lia|]). by apply Forall_nil. }
  split; [exact Hok|].
  destruct (dinode_roundtrip 2 3 a_dinode a_dinode (replicate 1024 7) eq_refl ltac:(lia) ltac:(lia) Hok) as [H1 H2].
  split; [exact (f_equal i_size H1)|]. rewrite H2 by discriminate. reflexivity.
Defined.
