(* ===== verification/PipeProps.v ===== *)
(** * Pipes are first-in first-out byte streams

    [pstream pi h n q]: the pipe [q] has carried the bytes [h] so far and [n]
    of them have been read; the counters are these numbers modulo 2^32 and the
    unread bytes are in the ring. *)

From S2P Require Import Prelude Riscv Monad State Kstring Printf Kalloc Vm VmInv VmMap Uspace VmFree VmCopy VmProps Proc ProcInv Sleeplock Umem Console Pipe.
#[local] Open Scope Z_scope.

#[local] Arguments Nat.modulo : simpl never.
#[local] Opaque acquire release wakeup sleep copyin copyout.

Record pstream (h : list Z) (n : nat) (q : pipe) : Prop := {
  ps_nwrite : pi_nwrite q = u32 (Z.of_nat (length h));
  ps_nread : pi_nread q = u32 (Z.of_nat n);
  ps_range : (n <= length h <= n + 512)%nat;
  ps_len : length (pi_data q) = 512%nat;
  ps_data i b : (n <= i)%nat -> h !! i = Some b -> pi_data q !! (i mod 512)%nat = Some b
}.

Lemma u32_mod_512 n : Z.to_nat (u32 (Z.of_nat n) mod PIPESIZE) = (n mod 512)%nat.
Proof.
  unfold u32, PIPESIZE. rewrite <- (Znumtheory.Zmod_div_mod 512 (2 ^ 32)) by (lia || by exists (2 ^ 23)).
  change 512 with (Z.of_nat 512). rewrite <- Nat2Z.inj_mod. apply Nat2Z.id.
Qed.

Lemma pstream_full h n q :
  pstream h n q -> (pi_nwrite q =? u32 (pi_nread q + PIPESIZE)) = bool_decide (length h = n + 512)%nat.
Proof.
  intros [Hw Hr Hb _ _]. rewrite Hw, Hr. unfold PIPESIZE, u32. rewrite Zplus_mod_idemp_l.
  case_bool_decide as E; [rewrite E; apply Z.eqb_eq; f_equal; lia|]. apply Z.eqb_neq.
  intros Heq. assert ((Z.of_nat n + 512 - Z.of_nat (length h)) mod 2 ^ 32 = 0) as H0.
  { rewrite Zminus_mod, <- Heq, Z.sub_diag. done. }
  rewrite Z.mod_small in H0; lia.
Qed.

Lemma pstream_empty h n q : pstream h n q -> (pi_nread q =? pi_nwrite q) = bool_decide (n = length h).
Proof.
  intros [Hw Hr Hb _ _]. rewrite Hw, Hr. unfold u32.
  case_bool_decide as E; [rewrite E; apply Z.eqb_refl|]. apply Z.eqb_neq.
  intros Heq. assert ((Z.of_nat (length h) - Z.of_nat n) mod 2 ^ 32 = 0) as H0.
  { rewrite Zminus_mod, <- Heq, Z.sub_diag. done. }
  rewrite Z.mod_small in H0; lia.
Qed.

(** Putting a byte in the ring. *)
Lemma pstream_put h n q b :
  pstream h n q -> (length h < n + 512)%nat -> 0 <= b < 256 ->
  pstream (h ++ [b]) n (set_pi_nwrite (u32 (pi_nwrite q + 1)) (set_pi_data (ring_set (pi_data q) (pi_nwrite q) PIPESIZE b) q)).
Proof.
  intros [Hw Hr Hb Hl Hd] Hfull Hbyte. split; simpl; rewrite ?length_app; simpl.
  - rewrite Hw. unfold u32. rewrite Zplus_mod_idemp_l. f_equal. lia.
  - done.
  - lia.
  - unfold ring_set. by rewrite length_insert.
  - intros i c Hi Hc. unfold ring_set. rewrite Hw, u32_mod_512.
    apply lookup_snoc_Some in Hc as [[Hlt Hc]|[-> <-]].
    + rewrite list_lookup_insert_ne; [by apply Hd|]. intros Heq.
      pose proof (Nat.div_mod_eq i 512). pose proof (Nat.div_mod_eq (length h) 512). lia.
    + rewrite list_lookup_insert_eq; [by rewrite u8_small|]. rewrite Hl. by apply Nat.mod_upper_bound.
Qed.

(** Taking one out. *)
Lemma pstream_get h n q b :
  pstream h n q -> h !! n = Some b ->
  ring_get (pi_data q) (pi_nread q) PIPESIZE = b /\ pstream h (S n) (set_pi_nread (u32 (pi_nread q + 1)) q).
Proof.
  intros [Hw Hr Hb Hl Hd] Hn. pose proof (lookup_lt_Some _ _ _ Hn). split.
  - unfold ring_get. rewrite Hr, u32_mod_512, (Hd n b); done || lia.
  - split; simpl; try done; [|lia|intros; apply Hd; [lia|done]].
    rewrite Hr. unfold u32. rewrite Zplus_mod_idemp_l. f_equal. lia.
Qed.

(** ** The operations, other processes running whenever they sleep *)

Section pipe.
Context {L : Layout} {LOk : LayoutOk L} {W : Wakeups}.
Context (p pi : Z) (t : ptree) (u : list (Z * Z)).

Abbreviation pipe_of k := (fs_pipe (k_fs k) pi).

(** The running process [p], with user memory [u], in the critical section of
    the pipe. *)
Record in_pipe (h : list Z) (n : nat) (k : kernel) : Prop := {
  ip_cur : ps_cur (k_ps k) = Some p;
  ip_held : k_held k = [PipeLock pi];
  ip_pt : p_pagetable (ps_proc (k_ps k) p) = root t;
  ip_umem : umem k t u;
  ip_stream : pstream h n (pipe_of k)
}.

(** What the others do while [p] sleeps: it is scheduled back with its own
    lock, and its memory is its own. *)
Record others (k k' : kernel) : Prop := {
  ot_cur : ps_cur (k_ps k') = Some p;
  ot_held : k_held k' = [ProcLock p];
  ot_pt : p_pagetable (ps_proc (k_ps k') p) = p_pagetable (ps_proc (k_ps k) p);
  ot_umem : umem k t u -> umem k' t u;
  ot_user : same_user u (k_mem k) (k_mem k')
}.

(** The reader's end closed, or [p] killed. *)
Definition write_hopeless (k : kernel) : Prop :=
  pi_readopen (pipe_of k) = 0 \/ p_killed (ps_proc (k_ps k) p) <> 0.

#[local] Instance write_hopeless_dec k : Decision (write_hopeless k).
Proof. unfold write_hopeless. apply _. Defined.

(** Other processes only read, and [p] is woken when there is room, or no
    hope. *)
Definition readers (k k' : kernel) : Prop :=
  others k k' /\
  forall h n, pstream h n (pipe_of k) ->
    exists n', (n <= n')%nat /\ pstream h n' (pipe_of k') /\ (write_hopeless k' \/ (length h < n' + 512)%nat).

(** When the writer sleeps, it sleeps on [nwrite] with the ring full, and no
    other process is left sleeping on [nread]. *)
Definition sleeps_full (k : kernel) : Prop :=
  p_state (ps_proc (k_ps k) p) = SLEEPING /\ p_chan (ps_proc (k_ps k) p) = ChanNwrite pi /\
  (exists h n, pstream h n (pipe_of k) /\ length h = (n + 512)%nat) /\
  forall q, 0 <= q < NPROC -> q <> p ->
    ~ (p_state (ps_proc (k_ps k) q) = SLEEPING /\ p_chan (ps_proc (k_ps k) q) = ChanNread pi).

Lemma in_pipe_ps h n ps' k :
  in_pipe h n k -> ps_cur ps' = Some p -> p_pagetable (ps_proc ps' p) = p_pagetable (ps_proc (k_ps k) p) ->
  in_pipe h n (set_ps ps' k).
Proof.
  intros [H1 H2 H3 H4 H5] Hc Hp. split; ksimp; try done; [by rewrite Hp|].
  apply (umem_ext k); [done|by ksimp|by ksimp|]. ksimp. rewrite H2. set_solver.
Qed.

Lemma asleep_proc c k q :
  ps_proc (k_ps (asleep p c k)) q = if decide (q = p) then set_state SLEEPING (set_chan c (ps_proc (k_ps k) p)) else ps_proc (k_ps k) q.
Proof. unfold asleep. ksimp. rewrite !ps_proc_upd. repeat case_decide; congruence. Qed.

Lemma in_pipe_asleep c h n k : in_pipe h n k -> umem (asleep p c k) t u.
Proof. intros [H1 H2 H3 H4 H5]. apply (umem_ext k); [done|by unfold asleep; ksimp..|]. unfold asleep. ksimp. set_solver. Qed.

(** Back from [sleep] with the pipe's lock. *)
Lemma in_pipe_resumed c h n h' n' k k' :
  in_pipe h n k -> others (asleep p c k) k' -> pstream h' n' (pipe_of k') ->
  in_pipe h' n' (resumed p (PipeLock pi) k') /\ same_user u (k_mem k) (k_mem k').
Proof.
  intros Hi [O1 O2 O3 O4 O5] Hs. pose proof (in_pipe_asleep c _ _ _ Hi) as Hu. destruct Hi as [H1 H2 H3 H4 H5].
  split; [|done]. unfold resumed. split; ksimp; try done.
  - rewrite ps_proc_upd, decide_True by done. simpl. rewrite O3, asleep_proc, decide_True by done. done.
  - apply (umem_ext k'); [by apply O4|by ksimp..|]. ksimp. set_solver.
Qed.

Lemma resumed_killed k : p_killed (ps_proc (k_ps (resumed p (PipeLock pi) k)) p) = p_killed (ps_proc (k_ps k) p).
Proof. unfold resumed. ksimp. by rewrite ps_proc_upd, decide_True by done. Qed.

(** After [wakeup(&pi->nread)] and before giving up the CPU. *)
Lemma wakeup_sleeps_full h n k ps' :
  in_pipe h n k -> length h = (n + 512)%nat ->
  (forall q, ps_proc ps' q = if decide (0 <= q < NPROC) then woken (ChanNread pi) (k_ps k) q else ps_proc (k_ps k) q) ->
  sleeps_full (asleep p (ChanNwrite pi) (set_ps ps' k)).
Proof.
  intros Hi Hfull Hps. unfold sleeps_full. rewrite !asleep_proc, !decide_True by done. split_and!; try done.
  - exists h, n. split; [apply (ip_stream _ _ _ Hi)|done].
  - intros q Hq Hne. rewrite asleep_proc, decide_False by done. ksimp. rewrite Hps, decide_True by done. unfold woken.
    rewrite (ip_cur _ _ _ Hi). case_bool_decide as E; [by intros [? _]|]. intros [? ?]. apply E. split_and!; congruence.
Qed.

Lemma woken_self c ps : ps_cur ps = Some p -> woken c ps p = ps_proc ps p.
Proof. intros H. unfold woken. rewrite bool_decide_eq_false_2; [done|]. tauto. Qed.

Lemma no_proc_lock_in h n k : in_pipe h n k -> no_proc_lock k.
Proof. intros Hi i. rewrite (ip_held _ _ _ Hi). by intros [=]%list_elem_of_singleton. Qed.

Lemma write_wait_done fuel h n k :
  in_pipe h n k -> (write_hopeless k \/ (length h < n + 512)%nat) ->
  exists b, pipewrite_wait fuel pi p k = Ret b k /\ (b = true -> (length h < n + 512)%nat) /\ (b = false -> write_hopeless k).
Proof.
  intros Hi Hor. assert (Ht : forall x, truthy x = false <-> x = 0) by (intros x; unfold truthy; by rewrite negb_false_iff, Z.eqb_eq).
  assert (exists b, ((pi_readopen (pipe_of k) =? 0) || truthy (p_killed (ps_proc (k_ps k) p))) = b /\ (b = true <-> write_hopeless k)) as ([] & Eb & Hb).
  { eexists. split; [reflexivity|]. unfold write_hopeless. rewrite orb_true_iff, Z.eqb_eq, <- not_false_iff_true, Ht. done. }
  - exists false. split; [|naive_solver]. destruct fuel; cbn [pipewrite_wait]; kpure; kpure; by rewrite Eb.
  - assert (~ write_hopeless k) as Hnw by (intros H%Hb; done). exists true. split; [|naive_solver].
    destruct fuel; cbn [pipewrite_wait]; kpure; kpure; rewrite Eb; kpure; kpure;
      rewrite (pstream_full h n) by apply (ip_stream _ _ _ Hi); by rewrite bool_decide_false by (naive_solver lia).
Qed.

(** Waiting for room. *)
Lemma pipewrite_wait_wpy h n k (Q : bool -> kernel -> Prop) :
  (0 < wakeups)%nat -> in_pipe h n k ->
  (forall b k' n', in_pipe h n' k' -> same_user u (k_mem k) (k_mem k') -> (b = true -> (length h < n' + 512)%nat) ->
     (b = false -> write_hopeless k') -> Q b k') ->
  wpy sleeps_full readers (pipewrite_wait wakeups pi p) Q k.
Proof.
  intros HW Hi HQ. destruct (decide (write_hopeless k \/ (length h < n + 512)%nat)) as [Hd|Hd].
  { destruct (write_wait_done wakeups h n k Hi Hd) as (b & Hrun & H1 & H2).
    apply wpy_wp. apply (wp_eq _ _ _ b k Hrun). by apply (HQ b k n). }
  assert (length h = n + 512)%nat as Hfull by (pose proof (ps_range _ _ _ (ip_stream _ _ _ Hi)); lia).
  destruct (wakeup_spec (ChanNread pi) k (no_proc_lock_in _ _ _ Hi)) as (ps' & Hw & (Hg & _) & Hps).
  assert (in_pipe h n (set_ps ps' k)) as Hi'.
  { apply in_pipe_ps; [done|by rewrite Hg, (ip_cur _ _ _ Hi)|]. rewrite Hps. case_decide; [|done].
    by rewrite woken_self by apply (ip_cur _ _ _ Hi). }
  destruct wakeups as [|f]; [lia|]. unfold wpy. cbn [pipewrite_wait]. kpure. kpure.
  rewrite (proj2 (orb_false_iff _ _)); [|unfold write_hopeless in Hd; unfold truthy; rewrite negb_false_iff, Z.eqb_eq, Z.eqb_neq; destruct (decide (p_killed (ps_proc (k_ps k) p) = 0)); tauto].
  kpure. kpure. rewrite (pstream_full h n), bool_decide_true by (done || apply (ip_stream _ _ _ Hi)).
  erewrite bind_eq by exact Hw. cbv beta. apply wpy_bind.
  apply (sleep_wpy _ _ _ _ p); [apply (ip_cur _ _ _ Hi')|apply (ip_held _ _ _ Hi')|done|by apply (wakeup_sleeps_full h n)|].
  intros k' [Ho Hst]. destruct (Hst h n (ip_stream _ _ _ Hi)) as (n' & Hn' & Hs' & Hor).
  destruct (in_pipe_resumed _ _ _ _ _ _ _ Hi' Ho Hs') as [Hr Hsame]. split; [apply (ot_cur _ _ Ho)|]. split; [apply (ot_held _ _ Ho)|].
  destruct (write_wait_done f h n' _ Hr) as (b & Hrun & H1 & H2).
  { destruct Hor as [[?|?]|?]; [left; by left|left; right; by rewrite resumed_killed|by right]. }
  apply wpy_wp. apply (wp_eq _ _ _ b _ Hrun). by apply (HQ b _ n').
Qed.

Lemma setpi_eq f k : setpi pi f k = Ret () (set_fs (fs_upd_pipe pi f (k_fs k)) k).
Proof. done. Qed.

Lemma pipe_of_upd f s : fs_pipe (fs_upd_pipe pi f s) pi = f (fs_pipe s pi).
Proof. unfold fs_upd_pipe. simpl. by rewrite fn_lookup_insert. Qed.

(** Replacing the pipe. *)
Lemma in_pipe_fs h n h' n' k s : in_pipe h n k -> pstream h' n' (fs_pipe s pi) -> in_pipe h' n' (set_fs s k).
Proof.
  intros [H1 H2 H3 H4 H5] Hs. split; ksimp; try done.
  apply (umem_ext k); [done|by ksimp..|]. ksimp. rewrite H2. set_solver.
Qed.

(** The loop of [pipewrite], with [bs] written so far. *)
Definition write_loop_post (h : list Z) (m0 : mem) (addr : Z) (len : nat) (o : option Z) (k : kernel) : Prop :=
  exists bs n, uread u m0 addr (length bs) = Some bs /\ (length bs <= len)%nat /\ same_user u m0 (k_mem k) /\
    pstream (h ++ bs) n (pipe_of k) /\ ps_cur (k_ps k) = Some p /\
    match o with
    | Some i => i = Z.of_nat (length bs) /\ in_pipe (h ++ bs) n k /\ (length bs = len \/ uaddr u (addr + i) = None)
    | None => (length bs < len)%nat /\ write_hopeless k /\ k_held k = []
    end.

Lemma pipewrite_loop_wpy left h n k m0 addr bs :
  (0 < wakeups)%nat -> in_pipe (h ++ bs) n k -> uread u m0 addr (length bs) = Some bs -> same_user u m0 (k_mem k) ->
  0 <= addr -> addr + Z.of_nat (length bs + left) <= 2 ^ 64 ->
  wpy sleeps_full readers (pipewrite_loop left pi p addr (Z.of_nat (length bs))) (write_loop_post h m0 addr (length bs + left)) k.
Proof.
  intros HW. revert n k bs. induction left as [|left IH]; intros n k bs Hi Hr Hsame Ha Hlim; cbn [pipewrite_loop].
  { apply wpy_wp, wp_ret. exists bs, n. split_and!; try done; [lia|apply (ip_stream _ _ _ Hi)|apply (ip_cur _ _ _ Hi)|left; lia]. }
  apply wpy_bind. apply (pipewrite_wait_wpy (h ++ bs) n); [done|done|]. intros b k1 n1 Hi1 Hs1 Ht Hf.
  assert (same_user u m0 (k_mem k1)) as Hs01 by (by etransitivity). unfold wpy. destruct b; cbn [negb]; cbv iota.
  - erewrite bind_eq by reflexivity; cbv beta. destruct (copyin_byte k1 t u (u64 (addr + Z.of_nat (length bs))) (ip_umem _ _ _ Hi1)) as (r & cs & Hrun & Hres);
      [apply u64_bound|]. rewrite u64_small in Hrun, Hres by lia.
    rewrite (ip_pt _ _ _ Hi1). rewrite u64_small by lia. erewrite bind_eq by exact Hrun. cbv beta. cbn [fst snd].
    destruct Hres as [(a & Hua & -> & ->)|(Hua & ->)].
    + change (0 =? -1) with false. cbv iota. kpure. erewrite bind_eq by apply setpi_eq. cbv beta.
      erewrite bind_eq by apply setpi_eq. cbv beta. simpl default.
      specialize (IH n1) as IH. pose proof (load8_bound (k_mem k1) a) as Hbb.
      pose proof (pstream_put _ _ _ _ (ip_stream _ _ _ Hi1) (Ht eq_refl) Hbb) as Hput. rewrite <- app_assoc in Hput.
      replace (Z.of_nat (length bs) + 1) with (Z.of_nat (length (bs ++ [load8 (k_mem k1) a]))) by (rewrite length_app; simpl; lia).
      replace (length bs + S left)%nat with (length (bs ++ [load8 (k_mem k1) a]) + left)%nat by (rewrite length_app; simpl; lia).
      apply IH; [|rewrite length_app, Nat.add_1_r; by apply (uread_snoc _ _ _ _ _ _ a); [..|rewrite (Hs01 _ _ Hua)]|by ksimp|done|rewrite length_app; simpl; lia].
      ksimp. apply (in_pipe_fs (h ++ bs) n1); [done|]. by rewrite !pipe_of_upd.
    + apply (wpy_wp _ _ (mret _)). exists bs, n1. split_and!; try done; [lia|apply (ip_stream _ _ _ Hi1)|apply (ip_cur _ _ _ Hi1)|by right].
  - rewrite (bind_eq _ _ _ () (set_held [] k1)) by (apply release_eq; [apply (ip_held _ _ _ Hi1)|set_solver]).
    exists bs, n1. ksimp. split_and!; try done; [lia|apply (ip_stream _ _ _ Hi1)|apply (ip_cur _ _ _ Hi1)|lia|by apply Hf].
Qed.

(** C9: [pipewrite] appends the caller's bytes to the stream in order, however
    often it sleeps and whatever the other processes read meanwhile. It returns
    the number of bytes it wrote, which is [n] unless user memory ends earlier,
    or -1, only when the read end is closed or the process killed. Whenever it
    sleeps, the ring is full and no reader is left sleeping. *)
Theorem pipewrite_appends h n k addr len :
  (0 < wakeups)%nat -> ps_cur (k_ps k) = Some p -> k_held k = [] -> p_pagetable (ps_proc (k_ps k) p) = root t ->
  umem k t u -> pstream h n (pipe_of k) -> 0 <= addr -> 0 <= len -> addr + len <= 2 ^ 64 ->
  wpy sleeps_full readers (pipewrite pi addr len) (fun r k' =>
    exists bs n', uread u (k_mem k) addr (length bs) = Some bs /\ pstream (h ++ bs) n' (pipe_of k') /\
      same_user u (k_mem k) (k_mem k') /\ k_held k' = [] /\
      (r = Z.of_nat (length bs) /\ (r = len \/ r < len /\ uaddr u (addr + r) = None) \/
       r = -1 /\ Z.of_nat (length bs) < len /\ write_hopeless k')) k.
Proof.
  intros HW Hc Hh Hpt Hu Hs Ha Hl Hlim. unfold pipewrite, wpy. erewrite bind_eq by (by apply curproc_eq). cbv beta.
  erewrite bind_eq by (apply acquire_eq; rewrite Hh; set_solver). cbv beta. rewrite Hh.
  assert (in_pipe (h ++ []) n (set_held [PipeLock pi] k)) as Hi.
  { rewrite app_nil_r. split; ksimp; try done. apply (umem_ext k); [done|by ksimp..|]. ksimp. set_solver. }
  apply wpy_bind. eapply wpy_mono.
  { apply (pipewrite_loop_wpy (Z.to_nat len) h n _ (k_mem k) addr []); try done. simpl. lia. }
  intros o k' (bs & n' & Hr & Hlen & Hsame & Hst & Hc' & Ho). simpl in Hlen. unfold wpy. destruct o as [i|].
  - destruct Ho as (-> & Hi' & Hend). destruct (wakeup_woke (ChanNread pi) k' (no_proc_lock_in _ _ _ Hi')) as (ps' & Hw & _).
    erewrite bind_eq by exact Hw. cbv beta.
    rewrite (bind_eq _ _ _ () (set_held [] (set_ps ps' k'))) by (apply release_eq; [ksimp; apply (ip_held _ _ _ Hi')|set_solver]).
    exists bs, n'. ksimp. split_and!; try done. left. split; [done|]. simpl in Hend. destruct Hend as [?|?]; [left; lia|].
    destruct (decide (Z.of_nat (length bs) = len)); [by left|right]. split; [lia|done].
  - destruct Ho as (Hlt & Hw & Hk). exists bs, n'. split_and!; try done. right. split_and!; try done. simpl in Hlt. lia.
Qed.

(** ** Reading *)

(** Data to read or the end of the stream, or [p] killed. *)
Definition read_ready (h : list Z) (n : nat) (k : kernel) : Prop :=
  (n < length h)%nat \/ pi_writeopen (pipe_of k) = 0.
Definition read_killed (k : kernel) : Prop := p_killed (ps_proc (k_ps k) p) <> 0.

(** Other processes only write, and [p] is woken when there is a byte, the end
    of the stream, or [p] is killed. *)
Definition writers (k k' : kernel) : Prop :=
  others k k' /\
  forall h n, pstream h n (pipe_of k) ->
    exists h', pstream (h ++ h') n (pipe_of k') /\ (read_ready (h ++ h') n k' \/ read_killed k').

(** A reader sleeps on [nread], with the ring empty and a writer left. *)
Definition sleeps_empty (k : kernel) : Prop :=
  p_state (ps_proc (k_ps k) p) = SLEEPING /\ p_chan (ps_proc (k_ps k) p) = ChanNread pi /\
  (exists h, pstream h (length h) (pipe_of k)) /\ pi_writeopen (pipe_of k) <> 0.

(** The test of the waiting loop. *)
Lemma read_wait_test h n k :
  in_pipe h n k -> ((pi_nread (pipe_of k) =? pi_nwrite (pipe_of k)) && truthy (pi_writeopen (pipe_of k))) = true <-> ~ read_ready h n k.
Proof.
  intros Hi. rewrite (pstream_empty h n) by apply (ip_stream _ _ _ Hi). rewrite andb_true_iff, bool_decide_eq_true, truthy_true.
  pose proof (ps_range _ _ _ (ip_stream _ _ _ Hi)). unfold read_ready. split; [intros [-> ?] [?|?]; [lia|done]|].
  intros Hn. split; [|tauto]. destruct (decide (n = length h)); [done|]. destruct Hn. left. lia.
Qed.

Lemma read_wait_done fuel h n k :
  in_pipe h n k -> read_ready h n k \/ read_killed k ->
  exists b, piperead_wait fuel pi p k = Ret b k /\ (b = true -> read_ready h n k) /\ (b = false -> read_killed k).
Proof.
  intros Hi Hor. pose proof (read_wait_test h n k Hi) as Ht.
  destruct ((pi_nread (pipe_of k) =? pi_nwrite (pipe_of k)) && truthy (pi_writeopen (pipe_of k))) eqn:E.
  - assert (read_killed k) as Hk by (destruct Hor; [|done]; by destruct (proj1 Ht eq_refl)). exists false. split; [|done].
    destruct fuel; cbn [piperead_wait]; do 3 kpure; rewrite E; kpure; by rewrite (proj2 (truthy_true _)).
  - exists true. split; [|split; [intros _|done]].
    + destruct fuel; cbn [piperead_wait]; do 3 kpure; by rewrite E.
    + destruct (decide (n < length h)%nat) as [?|?]; [by left|]. destruct (decide (pi_writeopen (pipe_of k) = 0)); [by right|].
      destruct Ht as [_ Ht]. discriminate Ht. unfold read_ready. tauto.
Qed.

Lemma piperead_wait_wpy h n k (Q : bool -> kernel -> Prop) :
  (0 < wakeups)%nat -> in_pipe h n k ->
  (forall b k' h', in_pipe (h ++ h') n k' -> same_user u (k_mem k) (k_mem k') -> (b = true -> read_ready (h ++ h') n k') ->
     (b = false -> read_killed k') -> Q b k') ->
  wpy sleeps_empty writers (piperead_wait wakeups pi p) Q k.
Proof.
  intros HW Hi HQ. assert (Decision (read_ready h n k \/ read_killed k)) as Hdec by (unfold read_ready, read_killed; apply _).
  destruct (decide (read_ready h n k \/ read_killed k)) as [Hd|Hd].
  { destruct (read_wait_done wakeups h n k Hi Hd) as (b & Hrun & H1 & H2).
    apply wpy_wp. apply (wp_eq _ _ _ b k Hrun). apply (HQ b k []); by rewrite ?app_nil_r. }
  assert (Hk : p_killed (ps_proc (k_ps k) p) = 0) by (unfold read_killed in Hd; destruct (decide (p_killed (ps_proc (k_ps k) p) = 0)); tauto).
  assert (Hnr : ~ read_ready h n k) by tauto.
  destruct wakeups as [|f]; [lia|]. unfold wpy. cbn [piperead_wait]. do 3 kpure. rewrite (proj2 (read_wait_test h n k Hi) Hnr).
  kpure. rewrite Hk. change (truthy 0) with false. cbv iota. apply wpy_bind.
  apply (sleep_wpy _ _ _ _ p); [apply (ip_cur _ _ _ Hi)|apply (ip_held _ _ _ Hi)|done| |].
  { unfold sleeps_empty. rewrite !asleep_proc, !decide_True by done. unfold read_ready in Hnr. split_and!; try done; [|unfold asleep; ksimp; tauto].
    exists h. pose proof (ip_stream _ _ _ Hi) as Hs. pose proof (ps_range _ _ _ Hs). assert (n = length h) as <- by lia. done. }
  intros k' [Ho Hst]. destruct (Hst h n (ip_stream _ _ _ Hi)) as (h' & Hs' & Hor).
  destruct (in_pipe_resumed _ _ _ _ _ _ _ Hi Ho Hs') as [Hr Hsame]. split; [apply (ot_cur _ _ Ho)|]. split; [apply (ot_held _ _ Ho)|].
  destruct (read_wait_done f (h ++ h') n _ Hr) as (b & Hrun & H1 & H2).
  { destruct Hor as [?|?]; [by left|right]. unfold read_killed. by rewrite resumed_killed. }
  apply wpy_wp. apply (wp_eq _ _ _ b _ Hrun). by apply (HQ b _ h').
Qed.

Lemma in_pipe_mem h n k m' : in_pipe h n k -> umem (set_mem m' k) t u -> in_pipe h n (set_mem m' k).
Proof. intros [H1 H2 H3 H4 H5] Hu. by split; ksimp. Qed.

(** The loop of [piperead] delivers the next bytes of the stream to
    consecutive user addresses; it stops after [left] bytes, at the end of the
    data, or at an address that is not mapped, where it has already taken the
    next byte out. *)
Lemma piperead_loop_eq left h n k addr i :
  in_pipe h n k -> 0 <= addr -> addr + i + Z.of_nat left <= 2 ^ 64 -> 0 <= i ->
  exists j n' k', piperead_loop left pi p addr i k = Ret (i + Z.of_nat j) k' /\ in_pipe h n' k' /\ (j <= left)%nat /\
    (n + j <= length h)%nat /\ pi_writeopen (pipe_of k') = pi_writeopen (pipe_of k) /\ uwrite u (k_mem k) (addr + i) (take j (drop n h)) = Some (k_mem k') /\
    (n' = (n + j)%nat /\ (j = left \/ n' = length h) \/ n' = S (n + j) /\ uaddr u (addr + i + Z.of_nat j) = None).
Proof.
  revert n k i. induction left as [|left IH]; intros n k i Hi Ha Hlim H0; cbn [piperead_loop].
  { exists 0%nat, n, k. rewrite Z.add_0_r. pose proof (ps_range _ _ _ (ip_stream _ _ _ Hi)). split_and!; try done; [lia|left; lia]. }
  kpure. kpure. rewrite (pstream_empty h n) by apply (ip_stream _ _ _ Hi). pose proof (ps_range _ _ _ (ip_stream _ _ _ Hi)) as Hrg.
  case_bool_decide as E.
  { exists 0%nat, n, k. rewrite Z.add_0_r. split_and!; try done; [lia|lia|left; lia]. }
  destruct (lookup_lt_is_Some_2 h n) as [b Hb]; [lia|]. destruct (pstream_get _ _ _ _ (ip_stream _ _ _ Hi) Hb) as [Hget Hst].
  kpure. cbv zeta. rewrite Hget. erewrite bind_eq by apply setpi_eq. cbv beta. kpure. ksimp. rewrite (ip_pt _ _ _ Hi).
  set (k1 := set_fs _ k). assert (in_pipe h (S n) k1) as Hi1 by (apply (in_pipe_fs h n); [done|by rewrite pipe_of_upd]).
  rewrite u64_small by lia.
  destruct (copyout_byte k1 t u (addr + i) b (ip_umem _ _ _ Hi1)) as (r & m' & Hrun & Hu' & Hres); [lia|].
  erewrite bind_eq by exact Hrun. cbv beta. pose proof (in_pipe_mem _ _ _ _ Hi1 Hu') as Hi2.
  rewrite (drop_S _ _ _ Hb) in *. destruct Hres as [(a & Hua & -> & ->)|(Hua & -> & ->)].
  - change (0 =? -1) with false. cbv iota.
    destruct (IH (S n) _ (i + 1) Hi2 Ha) as (j & n' & k' & Hr & Hi' & Hj & Hn & Hwo & Hw & Hor); [lia|lia|].
    exists (S j), n', k'. split; [rewrite Hr; f_equal; lia|]. split; [done|]. split_and!; [lia|lia|rewrite Hwo; unfold k1; ksimp; by rewrite pipe_of_upd| |].
    + simpl. rewrite Hua. by rewrite Z.add_assoc in Hw.
    + destruct Hor as [(-> & ?)|(-> & Hna)]; [left; lia|right; split; [lia|]]. rewrite <- Hna. f_equal. lia.
  - exists 0%nat, (S n), (set_mem (k_mem k1) k1). rewrite !Z.add_0_r. split_and!; try done; [lia|lia|unfold k1; ksimp; by rewrite pipe_of_upd|right; split; [lia|done]].
Qed.

(** C10: [piperead] delivers the oldest unread bytes, in order, to the user's
    buffer, waiting while the pipe is empty and some writer is left: it returns
    how many, which is [len], or all there is (0 only at the end of the
    stream), or up to the first address that is not mapped, where one more byte
    has left the pipe and is lost; -1 only when the process is killed. *)
Theorem piperead_delivers h n k addr len :
  (0 < wakeups)%nat -> ps_cur (k_ps k) = Some p -> k_held k = [] -> p_pagetable (ps_proc (k_ps k) p) = root t ->
  umem k t u -> pstream h n (pipe_of k) -> 0 <= addr -> 0 <= len -> addr + len <= 2 ^ 64 ->
  wpy sleeps_empty writers (piperead pi addr len) (fun r k' =>
    exists h' n' m1, pstream (h ++ h') n' (pipe_of k') /\ same_user u (k_mem k) m1 /\ k_held k' = [] /\
      (r = -1 /\ n' = n /\ m1 = k_mem k' /\ read_killed k' \/
       0 <= r <= len /\ (n + Z.to_nat r <= length (h ++ h'))%nat /\ umem k' t u /\
       uwrite u m1 addr (take (Z.to_nat r) (drop n (h ++ h'))) = Some (k_mem k') /\
       (n' = (n + Z.to_nat r)%nat /\ (r = len \/ n' = length (h ++ h') /\ (r = 0 -> pi_writeopen (pipe_of k') = 0)) \/
        n' = S (n + Z.to_nat r) /\ uaddr u (addr + r) = None))) k.
Proof.
  intros HW Hc Hh Hpt Hu Hs Ha Hl Hlim. unfold piperead, wpy. erewrite bind_eq by (by apply curproc_eq). cbv beta.
  erewrite bind_eq by (apply acquire_eq; rewrite Hh; set_solver). cbv beta. rewrite Hh.
  assert (in_pipe h n (set_held [PipeLock pi] k)) as Hi.
  { split; ksimp; try done. apply (umem_ext k); [done|by ksimp..|]. ksimp. set_solver. }
  apply wpy_bind. apply (piperead_wait_wpy h n); [done|done|]. intros b k1 h' Hi1 Hsame Ht Hf. unfold wpy.
  destruct b; cbn [negb]; cbv iota.
  - destruct (piperead_loop_eq (Z.to_nat len) (h ++ h') n k1 addr 0 Hi1 Ha) as (j & n' & k2 & Hrun & Hi2 & Hj & Hn & Hwo & Hw & Hor); [lia|lia|].
    erewrite bind_eq by exact Hrun. cbv beta. rewrite Z.add_0_r in *. rewrite Z.add_0_l.
    destruct (wakeup_woke (ChanNwrite pi) k2 (no_proc_lock_in _ _ _ Hi2)) as (ps' & Hwk & Hps).
    erewrite bind_eq by exact Hwk. cbv beta.
    rewrite (bind_eq _ _ _ () (set_held [] (set_ps ps' k2))) by (apply release_eq; [ksimp; apply (ip_held _ _ _ Hi2)|set_solver]).
    exists h', n', (k_mem k1). ksimp. rewrite Nat2Z.id. split_and!; try done; [apply (ip_stream _ _ _ Hi2)|].
    right. split_and!; try done; [lia|lia| |].
    + apply (umem_ext k2); [apply (ip_umem _ _ _ Hi2)|by ksimp..|]. ksimp. set_solver.
    + destruct Hor as [(-> & Hor)|(-> & Hna)]; [left|by right]. split; [done|]. destruct Hor as [->|Hend]; [left; lia|].
      right. split; [done|]. intros Hj0. rewrite Hwo. destruct (Ht eq_refl) as [?|?]; [lia|done].
  - rewrite (bind_eq _ _ _ () (set_held [] k1)) by (apply release_eq; [apply (ip_held _ _ _ Hi1)|set_solver]).
    exists h', n, (k_mem k1). ksimp. split_and!; try done; [apply (ip_stream _ _ _ Hi1)|]. left. split_and!; try done. by apply Hf.
Qed.

End pipe.

(** ** An instance: an empty pipe and a process with two pages *)

#[local] Existing Instances demo_layout demo_layout_ok.
#[local] Instance pipe_wakeups : Wakeups := 1%nat.

Lemma pipe_demo :
  exists k t u, ps_cur (k_ps k) = Some 3 /\ k_held k = [] /\ p_pagetable (ps_proc (k_ps k) 3) = root t /\
    umem k t u /\ pstream [] 0 (fs_pipe (k_fs k) 0).
Proof.
  destruct demo_grown as (k & t & u & l & Hu & Hh & _).
  exists (set_fs fssys0 (set_ps (ps_set_cur (Some 3) (ps_upd 3 (set_pagetable (root t)) procsys0)) (set_held [] k))), t, u.
  ksimp. split_and!; try done.
  - apply (umem_ext k); [split; [by exists l|done]|by ksimp..|]. ksimp. apply not_elem_of_nil.
  - split; [done|done|simpl; lia|done|intros i b _; by rewrite lookup_nil].
Qed.

Lemma pipewrite_appends_witness :
  exists k t u, umem k t u /\
    wpy (sleeps_full 3 0) (readers 3 0 t u) (pipewrite 0 100 600) (fun r k' =>
      exists bs n', uread u (k_mem k) 100 (length bs) = Some bs /\ pstream ([] ++ bs) n' (fs_pipe (k_fs k') 0) /\
        same_user u (k_mem k) (k_mem k') /\ k_held k' = [] /\
        (r = Z.of_nat (length bs) /\ (r = 600 \/ r < 600 /\ uaddr u (100 + r) = None) \/
         r = -1 /\ Z.of_nat (length bs) < 600 /\ write_hopeless 3 0 k')) k.
Proof.
  destruct pipe_demo as (k & t & u & H1 & H2 & H3 & H4 & H5). exists k, t, u. split; [exact H4|].
  apply (pipewrite_appends 3 0 t u [] 0 k 100 600); [apply Nat.lt_0_1|exact H1|exact H2|exact H3|exact H4|exact H5|lia|lia|lia].
Defined.

Lemma piperead_delivers_witness :
  exists k t u, umem k t u /\
    wpy (sleeps_empty 3 0) (writers 3 0 t u) (piperead 0 100 600) (fun r k' => -1 <= r <= 600 /\ k_held k' = []) k.
Proof.
  destruct pipe_demo as (k & t & u & H1 & H2 & H3 & H4 & H5). exists k, t, u. split; [exact H4|].
  eapply wpy_mono.
  - apply (piperead_delivers 3 0 t u [] 0 k 100 600); [apply Nat.lt_0_1|exact H1|exact H2|exact H3|exact H4|exact H5|lia|lia|lia].
  - intros r k' (h' & n' & m1 & _ & _ & Hh & Hor). split; [|exact Hh]. destruct Hor as [(-> & _)|(Hr & _)]; lia.
Defined.
