(* ===== verification/ConsoleProps.v ===== *)
(** * The console's line discipline and the UART's transmit queue

    [line_step] is the abstract console: bytes of finished lines that a reader
    may take, and the line that is being edited. *)

From S2P Require Import Prelude Riscv Monad State Kstring Printf Kalloc Vm Proc ProcInv Sleeplock Umem Console.
#[local] Open Scope Z_scope.

#[local] Arguments Nat.modulo : simpl never.
#[local] Opaque acquire release wakeup sleep printf.

(** ** Ring buffers *)

(** The ring [data] of [N] cells holds the queue [q], whose first byte is the
    [R]-th byte that was ever put. *)
Record ring (N : nat) (data : list Z) (R : nat) (q : list Z) : Prop := {
  rg_len : length data = N;
  rg_fits : (length q <= N)%nat;
  rg_data i b : q !! i = Some b -> data !! ((R + i) mod N)%nat = Some b
}.

Lemma ring_index N w n :
  0 <= w -> (0 < N)%nat -> (Z.of_nat N | 2 ^ w) -> Z.to_nat ((Z.of_nat n mod 2 ^ w) mod Z.of_nat N) = (n mod N)%nat.
Proof.
  intros Hw HN Hd. rewrite <- (Znumtheory.Zmod_div_mod (Z.of_nat N) (2 ^ w)) by (lia || done).
  rewrite <- Nat2Z.inj_mod. apply Nat2Z.id.
Qed.

Lemma mod_inj_below N a b : (0 < N)%nat -> (a < b)%nat -> (b < a + N)%nat -> (a mod N)%nat <> (b mod N)%nat.
Proof.
  intros HN H1 H2 E. pose proof (Nat.div_mod_eq a N). pose proof (Nat.div_mod_eq b N).
  assert (a / N < b / N \/ a / N = b / N \/ b / N < a / N)%nat as [Hq|[Hq|Hq]] by lia; [|rewrite Hq in *; lia|];
    pose proof (Nat.mul_le_mono_l _ _ N Hq); lia.
Qed.

Lemma ring_push N data R q c :
  (0 < N)%nat -> ring N data R q -> (length q < N)%nat -> ring N (<[((R + length q) mod N)%nat := c]> data) R (q ++ [c]).
Proof.
  intros HN [H1 H2 H3] Hl. split; [by rewrite length_insert|rewrite length_app; simpl; lia|].
  intros i b [[Hi Hb]|[-> <-]]%lookup_snoc_Some.
  - rewrite list_lookup_insert_ne; [by apply H3|]. intros E. symmetry in E. revert E. apply mod_inj_below; lia.
  - apply list_lookup_insert_eq. rewrite H1. apply Nat.mod_upper_bound. lia.
Qed.

Lemma ring_pop N data R c q : ring N data R (c :: q) -> data !! (R mod N)%nat = Some c /\ ring N data (S R) q.
Proof.
  intros [H1 H2 H3]. split; [by specialize (H3 0%nat c eq_refl); rewrite Nat.add_0_r in H3|].
  split; [done|simpl in H2; lia|]. intros i b Hi. rewrite <- (H3 (S i) b Hi). f_equal. f_equal. lia.
Qed.

Lemma ring_prefix N data R q1 q2 : ring N data R (q1 ++ q2) -> ring N data R q1.
Proof.
  intros [H1 H2 H3]. split; [done|rewrite length_app in H2; lia|]. intros i b Hi. apply H3. by apply lookup_app_l_Some.
Qed.

(** ** Output *)

(** What [consputc] sends for a character and for a string. *)
Definition putc_bytes (c : Z) : list Z := if c =? BACKSPACE then [8; 32; 8] else [u8 c].
Definition puts_bytes (l : list Z) : list Z := mjoin (putc_bytes <$> l).

(** A statement that only prints [s]. *)
Definition emits (m : K unit) (s : list Z) : Prop := forall k, m k = Ret () (emit s k).

Lemma consputc_emits c : emits (consputc c) (putc_bytes c).
Proof.
  intros k. unfold consputc, putc_bytes, uartputc_sync. destruct (c =? BACKSPACE); [|done].
  repeat kpure. unfold modify, emit, io_thr_push. ksimp. simpl. by rewrite <- !app_assoc.
Qed.

Lemma emits_ret : emits (mret ()) [].
Proof. intros k. by rewrite emit_nil. Qed.

Lemma emits_bind m1 m2 s1 s2 : emits m1 s1 -> emits m2 s2 -> emits (m1;; m2) (s1 ++ s2).
Proof. intros E1 E2 k. rewrite (bind_eq _ _ _ _ _ (E1 k)), E2. by rewrite emit_app. Qed.

Lemma consputs_emits l : emits (consputs l) (puts_bytes l).
Proof. induction l as [|c l IH]; [apply emits_ret|]. apply emits_bind; [apply consputc_emits|apply IH]. Qed.

Lemma printf_emits fmt ap s k : emits (printf_loop fmt ap) s -> PrLock ∉ k_held k -> printf fmt ap k = Ret () (emit s k).
Proof. intros E Hl. by apply printf_eq. Qed.

Lemma emits_plain c fmt ap s : c <> 37 -> emits (printf_loop fmt ap) s -> emits (printf_loop (c :: fmt) ap) (putc_bytes c ++ s).
Proof. intros Hc H. cbn [printf_loop]. rewrite (proj2 (Z.eqb_neq c 37)) by done. apply emits_bind; [apply consputc_emits|exact H]. Qed.

Lemma emits_d x fmt ap s : emits (printf_loop fmt ap) s ->
  emits (printf_loop (37 :: 100 :: fmt) (PInt x :: ap)) (puts_bytes (reverse (printint_buf x 10 true)) ++ s).
Proof. intros H. cbn [printf_loop Z.eqb Pos.eqb negb]. apply emits_bind; [apply consputs_emits|exact H]. Qed.

Lemma emits_s x fmt ap s : emits (printf_loop fmt ap) s ->
  emits (printf_loop (37 :: 115 :: fmt) (PStr x :: ap)) (puts_bytes (cstr_of (default (str "(null)") x)) ++ s).
Proof. intros H. cbn [printf_loop Z.eqb Pos.eqb negb]. apply emits_bind; [apply consputs_emits|exact H]. Qed.

(** A format of plain characters, [%d] and [%s]. *)
Ltac emits_fmt :=
  match goal with |- emits (printf_loop ?f _) _ => let l := eval vm_compute in f in change f with l end;
  repeat lazymatch goal with
    | |- emits (printf_loop [] _) _ => apply emits_ret
    | |- emits (printf_loop (37 :: 100 :: _) _) _ => apply emits_d
    | |- emits (printf_loop (37 :: 115 :: _) _) _ => apply emits_s
    | |- emits (printf_loop _ _) _ => apply emits_plain; [discriminate|]
    end.

Lemma newline_emits : emits (printf_loop [10] []) [10].
Proof. apply (emits_plain 10 [] [] []); [discriminate|apply emits_ret]. Qed.

(** The line of [procdump] for a process: number, state and name. *)
Definition dump_line (x : proc) : list Z :=
  puts_bytes (reverse (printint_buf (p_pid x) 10 true)) ++ [32] ++ puts_bytes (cstr_of (state_name (p_state x))) ++
  [32] ++ puts_bytes (cstr_of (p_name x)) ++ [10].

Definition dump_lines (ps : procsys) (l : list Z) : list Z :=
  mjoin ((fun p => if same_state (p_state (ps_proc ps p)) UNUSED then [] else dump_line (ps_proc ps p)) <$> l).

(** What control-P shows of the process table. *)
Definition dump_text (ps : procsys) : list Z := 10 :: dump_lines ps (seqZ 0 NPROC).

Lemma procdump_line_emits p k : PrLock ∉ k_held k ->
  (pid ← getp p p_pid; name ← getp p p_name;
    printf (str "%d %s %s") [PInt pid; PStr (Some (state_name (p_state (ps_proc (k_ps k) p)))); PStr (Some name)];;
    printf [10] []) k = Ret () (emit (dump_line (ps_proc (k_ps k) p)) k).
Proof.
  intros Hl. kpure. kpure. set (x := ps_proc (k_ps k) p).
  erewrite bind_eq by (apply (printf_emits _ _ (puts_bytes (reverse (printint_buf (p_pid x) 10 true)) ++ [32] ++
    puts_bytes (cstr_of (state_name (p_state x))) ++ [32] ++ puts_bytes (cstr_of (p_name x)) ++ [])); [emits_fmt|done]).
  cbv beta. rewrite (printf_emits [10] [] [10] _ newline_emits) by done. rewrite emit_app. unfold dump_line. by rewrite <- !app_assoc.
Qed.

Lemma procdump_loop_emits n p k : PrLock ∉ k_held k ->
  procdump_loop n p k = Ret () (emit (dump_lines (k_ps k) (seqZ p (Z.of_nat n))) k).
Proof.
  revert p k. induction n as [|n IH]; intros p k Hl; cbn [procdump_loop]; [by rewrite emit_nil|]. kpure.
  rewrite seqZ_cons by lia. replace (Z.pred (Z.of_nat (S n))) with (Z.of_nat n) by lia. unfold dump_lines. rewrite fmap_cons. cbn [mjoin list_join].
  fold (dump_lines (k_ps k) (seqZ (Z.succ p) (Z.of_nat n))). destruct (same_state _ _); [kpure; by rewrite IH|].
  rewrite (bind_eq _ _ _ _ _ (procdump_line_emits p k Hl)), IH by done. by rewrite emit_app.
Qed.

Lemma procdump_emits k : PrLock ∉ k_held k -> procdump k = Ret () (emit (dump_text (k_ps k)) k).
Proof.
  intros Hl. unfold procdump. erewrite bind_eq by (apply (printf_emits [10] [] [10] _ newline_emits); done).
  cbv beta. rewrite procdump_loop_emits by done. by rewrite emit_app.
Qed.

(** ** Counters modulo 2^32 *)

Abbreviation c32 n := (u32 (Z.of_nat n)).

Lemma c32_eqb a b : (a <= b)%nat -> (b <= a + 1000)%nat -> (c32 a =? c32 b) = bool_decide (a = b) /\ (c32 b =? c32 a) = bool_decide (a = b).
Proof.
  intros H1 H2. rewrite (Z.eqb_sym (c32 b)). assert ((c32 a =? c32 b) = bool_decide (a = b)); [|done].
  case_bool_decide as E; [subst; apply Z.eqb_refl|]. apply Z.eqb_neq. unfold u32. intros Heq.
  assert ((Z.of_nat b - Z.of_nat a) mod 2 ^ 32 = 0) as H0 by (rewrite Zminus_mod, Heq, Z.sub_diag; done).
  rewrite Z.mod_small in H0; lia.
Qed.

Lemma c32_sub a b : (b <= a)%nat -> (a <= b + 1000)%nat -> u32 (c32 a - c32 b) = Z.of_nat (a - b).
Proof. intros. unfold u32. rewrite <- Zminus_mod, Z.mod_small; lia. Qed.

Lemma c32_pred a : (0 < a)%nat -> u32 (c32 a - 1) = c32 (a - 1).
Proof. intros. unfold u32. rewrite Zminus_mod_idemp_l. f_equal. lia. Qed.

Lemma c32_add a b : u32 (c32 a + Z.of_nat b) = c32 (a + b).
Proof. unfold u32. rewrite Zplus_mod_idemp_l. f_equal. lia. Qed.

Lemma c32_succ a : u32 (c32 a + 1) = c32 (a + 1).
Proof. apply (c32_add a 1). Qed.

Lemma c32_index a : Z.to_nat (c32 a mod INPUT_BUF) = (a mod 128)%nat.
Proof. apply (ring_index 128 32); [lia|lia|]. by exists (2 ^ 25). Qed.

(** ** The abstract console *)

(** Carriage return counts as newline. *)
Definition cooked (c : Z) : Z := if c =? 13 then 10 else c.
Definition ends_line (c : Z) : bool := (c =? 10) || (c =? 4).

(** [(ready, edit)]: the bytes a reader may take and the line being edited. A
    control-P prints, control-U clears the line, backspace and delete remove
    its last byte; another byte is dropped when the 128 bytes are in use, and
    otherwise joins the line, which becomes ready at a newline, at control-D,
    or when the last byte of room is used. *)
Definition line_step (c : Z) (st : list Z * list Z) : list Z * list Z :=
  let '(ready, edit) := st in
  if c =? 16 then st
  else if c =? 21 then (ready, [])
  else if (c =? 8) || (c =? 127) then (ready, take (pred (length edit)) edit)
  else if (c =? 0) || (128 <=? length ready + length edit)%nat then st
  else
    let c := cooked c in
    if ends_line c || (length ready + length edit =? 127)%nat then (ready ++ edit ++ [c], []) else (ready, edit ++ [c]).

(** A backspace, a space and a backspace. *)
Definition erase_bytes : list Z := [8; 32; 8].

(** What is shown for a byte: the process table for control-P, an erasure for
    every byte that is removed, the byte itself when it joins the line, and
    nothing for a byte that is dropped. *)
Definition echo (ps : procsys) (c : Z) (st : list Z * list Z) : list Z :=
  let '(ready, edit) := st in
  if c =? 16 then dump_text ps
  else if c =? 21 then mjoin (replicate (length edit) erase_bytes)
  else if (c =? 8) || (c =? 127) then (if bool_decide (edit = []) then [] else erase_bytes)
  else if (c =? 0) || (128 <=? length ready + length edit)%nat then []
  else [cooked c].

(** A process woken when a line is ready. *)
Definition readers_woken (ready ready' : list Z) (ps ps' : procsys) : Prop :=
  ps_woke ps ps' /\
  (ready' = ready -> ps' = ps) /\
  (ready' <> ready -> forall q, 0 <= q < NPROC -> ps_cur ps <> Some q ->
     ~ (p_state (ps_proc ps' q) = SLEEPING /\ p_chan (ps_proc ps' q) = ChanConsR)).

(** What is shown for the bytes [cs], one after the other; a line that becomes
    ready wakes its readers, which a later control-P shows. *)
Inductive echoes : procsys -> list Z * list Z -> list Z -> list Z -> procsys -> Prop :=
  | echoes_nil ps st : echoes ps st [] [] ps
  | echoes_cons ps ps1 ps2 st c cs out :
      readers_woken st.1 (line_step c st).1 ps ps1 -> echoes ps1 (line_step c st) cs out ps2 ->
      echoes ps st (c :: cs) (echo ps c st ++ out) ps2.

Lemma echoes_woke ps st cs out ps' : echoes ps st cs out ps' -> ps_woke ps ps'.
Proof. induction 1 as [|? ? ? ? ? ? ? [Hw _] _ IH]; [reflexivity|]. by etransitivity. Qed.

(** The driver's ring and indices represent the abstract console. *)
Definition cons_at (R : nat) (ready edit : list Z) (o : iosys) : Prop :=
  cons_r o = c32 R /\ cons_w o = c32 (R + length ready) /\ cons_e o = c32 (R + length ready + length edit) /\
  ring 128 (cons_buf o) R (ready ++ edit) /\ Forall (fun c => c <> 10) edit.

Definition cons_rel (st : list Z * list Z) (o : iosys) : Prop := exists R, cons_at R st.1 st.2 o.

(** The rest of the driver's state is not the line discipline's, but for the
    bytes [s] that it shows. *)
Definition tx_same (s : list Z) (o o' : iosys) : Prop :=
  u_room o' = u_room o /\ u_rhr o' = u_rhr o /\ u_tx_buf o' = u_tx_buf o /\ u_tx_w o' = u_tx_w o /\ u_tx_r o' = u_tx_r o /\
  u_thr o' = u_thr o ++ s.

Lemma tx_same_refl o : tx_same [] o o.
Proof. split_and!; try done. by rewrite app_nil_r. Qed.

Lemma tx_same_trans s1 s2 o1 o2 o3 : tx_same s1 o1 o2 -> tx_same s2 o2 o3 -> tx_same (s1 ++ s2) o1 o3.
Proof.
  intros (? & ? & ? & ? & ? & E1) (? & ? & ? & ? & ? & E2). split_and!; try congruence. by rewrite E2, E1, app_assoc.
Qed.

Lemma cons_at_len R ready edit o : cons_at R ready edit o -> (length ready + length edit <= 128)%nat.
Proof. intros (_ & _ & _ & [_ H _] & _). by rewrite length_app in H. Qed.

Lemma cons_at_emit R ready edit s k : cons_at R ready edit (k_io k) -> cons_at R ready edit (k_io (emit s k)).
Proof. done. Qed.

(** The line being edited loses its last byte. *)
Lemma cons_at_erase R ready edit o :
  cons_at R ready edit o -> edit <> [] ->
  cons_at R ready (take (pred (length edit)) edit) (set_cons_e (u32 (cons_e o - 1)) o).
Proof.
  intros (H1 & H2 & H3 & H4 & H5) Hne. assert (0 < length edit)%nat by (destruct edit; [done|simpl; lia]).
  split_and!; simpl; try done.
  - rewrite H3, length_take, c32_pred by lia. f_equal. f_equal. lia.
  - apply (ring_prefix _ _ _ _ (drop (pred (length edit)) edit)). by rewrite <- app_assoc, take_drop.
  - by apply Forall_take.
Qed.

(** A byte joins the line. *)
Lemma cons_at_put R ready edit o c :
  cons_at R ready edit o -> (length ready + length edit < 128)%nat -> 0 <= c < 256 -> c <> 10 ->
  cons_at R ready (edit ++ [c]) (set_cons_e (u32 (cons_e o + 1)) (set_cons_buf (ring_set (cons_buf o) (cons_e o) INPUT_BUF c) o)).
Proof.
  intros (H1 & H2 & H3 & H4 & H5) Hl Hb Hc. split_and!; simpl; try done.
  - rewrite H3, c32_succ, length_app. f_equal. simpl. lia.
  - unfold ring_set. rewrite H3, c32_index, u8_small by done. rewrite app_assoc. rewrite <- Nat.add_assoc, <- length_app.
    apply ring_push; [lia|done|rewrite length_app; lia].
  - apply Forall_app. split; [done|]. by apply Forall_singleton.
Qed.

(** A byte joins the line and finishes it. *)
Lemma cons_at_commit R ready edit o c :
  cons_at R ready edit o -> (length ready + length edit < 128)%nat -> 0 <= c < 256 ->
  cons_at R (ready ++ edit ++ [c]) [] (set_cons_w (u32 (cons_e o + 1)) (set_cons_e (u32 (cons_e o + 1))
    (set_cons_buf (ring_set (cons_buf o) (cons_e o) INPUT_BUF c) o))).
Proof.
  intros (H1 & H2 & H3 & H4 & H5) Hl Hb. split_and!; simpl; try done.
  - rewrite H3, c32_succ, !length_app. f_equal. simpl. lia.
  - rewrite H3, c32_succ, !length_app. f_equal. simpl. lia.
  - unfold ring_set. rewrite H3, c32_index, u8_small by done. rewrite app_nil_r, app_assoc. rewrite <- Nat.add_assoc, <- length_app.
    apply ring_push; [lia|done|rewrite length_app; lia].
Qed.

(** ** The interrupt handler *)

Definition io_only (s : list Z) (k k' : kernel) : Prop := exists o, k' = set_io o k /\ tx_same s (k_io k) o.

Lemma io_only_refl k : io_only [] k k.
Proof. exists (k_io k). split; [done|apply tx_same_refl]. Qed.

Lemma io_only_trans s1 s2 k1 k2 k3 : io_only s1 k1 k2 -> io_only s2 k2 k3 -> io_only (s1 ++ s2) k1 k3.
Proof.
  intros (o1 & -> & H1) (o2 & -> & H2). exists o2. split; [done|]. ksimp in H2. by eapply tx_same_trans.
Qed.

Lemma io_only_emit s k : io_only s k (emit s k).
Proof. eexists. split; [reflexivity|]. by split_and!. Qed.

Lemma cons_at_last R ready edit o :
  cons_at R ready edit o -> edit <> [] -> (ring_get (cons_buf o) (u32 (cons_e o - 1)) INPUT_BUF =? 10) = false.
Proof.
  intros (H1 & H2 & H3 & [_ _ H4] & H5) Hne. assert (0 < length edit)%nat by (destruct edit; [done|simpl; lia]).
  unfold ring_get. rewrite H3, c32_pred, c32_index by lia. destruct (lookup_lt_is_Some_2 edit (length edit - 1)) as [b Hb]; [lia|].
  replace (R + length ready + length edit - 1)%nat with (R + (length ready + (length edit - 1)))%nat by lia.
  rewrite (H4 (length ready + (length edit - 1))%nat b); [|rewrite lookup_app_r by lia; rewrite <- Hb; f_equal; lia].
  simpl. apply Z.eqb_neq. rewrite Forall_lookup in H5. by apply (H5 _ _ Hb).
Qed.

Lemma cons_at_e_w R ready edit o : cons_at R ready edit o -> (cons_e o =? cons_w o) = bool_decide (edit = []).
Proof.
  intros H. pose proof (cons_at_len _ _ _ _ H). destruct H as (H1 & H2 & H3 & _). rewrite H2, H3.
  rewrite (proj2 (c32_eqb (R + length ready) (R + length ready + length edit) ltac:(lia) ltac:(lia))).
  apply bool_decide_ext. destruct edit; simpl; [split; [done|lia]|split; [lia|done]].
Qed.

(** [e--] and a backspace on the screen. *)
Lemma erase_eq R ready edit k :
  cons_at R ready edit (k_io k) -> edit <> [] ->
  let k1 := set_io (set_cons_e (u32 (cons_e (k_io k) - 1)) (k_io k)) k in
  exists k', consputc BACKSPACE k1 = Ret () k' /\ cons_at R ready (take (pred (length edit)) edit) (k_io k') /\ io_only erase_bytes k k'.
Proof.
  intros H Hne k1. exists (emit erase_bytes k1). split; [exact (consputc_emits BACKSPACE k1)|].
  split; [by apply cons_at_emit, cons_at_erase|]. apply (io_only_trans [] _ _ k1); [|apply io_only_emit].
  eexists. split; [reflexivity|]. split_and!; try done. simpl. by rewrite app_nil_r.
Qed.

Lemma killline_loop_eq fuel R ready edit k :
  cons_at R ready edit (k_io k) -> (length edit <= fuel)%nat ->
  exists k', killline_loop fuel k = Ret () k' /\ cons_at R ready [] (k_io k') /\ io_only (mjoin (replicate (length edit) erase_bytes)) k k'.
Proof.
  revert edit k. induction fuel as [|fuel IH]; intros edit k H Hl; cbn [killline_loop]; kpure; kpure; kpure;
    rewrite (cons_at_e_w _ _ _ _ H); case_bool_decide as E; cbn [negb andb].
  - subst edit. exists k. split_and!; [done|done|apply io_only_refl].
  - by destruct edit; [|simpl in Hl; lia].
  - subst edit. exists k. split_and!; [done|done|apply io_only_refl].
  - rewrite (cons_at_last _ _ _ _ H E). cbn [negb].
    destruct (erase_eq R ready edit k H E) as (k1 & E1 & H1 & Hio1). kpure. rewrite (bind_eq _ _ _ _ _ E1).
    assert (length edit = S (length (take (pred (length edit)) edit))) as Elen by (rewrite length_take; destruct edit; [done|simpl; lia]).
    destruct (IH _ k1 H1) as (k2 & -> & H2 & Hio2); [lia|].
    exists k2. split_and!; [done|done|]. rewrite Elen. by eapply io_only_trans.
Qed.

Lemma wakeup_readers k :
  no_proc_lock k -> exists ps', wakeup ChanConsR k = Ret () (set_ps ps' k) /\ ps_woke (k_ps k) ps' /\
    forall q, 0 <= q < NPROC -> ps_cur (k_ps k) <> Some q -> ~ (p_state (ps_proc ps' q) = SLEEPING /\ p_chan (ps_proc ps' q) = ChanConsR).
Proof.
  intros Hl. destruct (wakeup_spec ChanConsR k Hl) as (ps' & Hrun & Hg & Hp). exists ps'. split_and!; [done|..].
  - destruct (wakeup_woke ChanConsR k Hl) as (ps2 & Hrun2 & Hw). rewrite Hrun in Hrun2. by injection Hrun2 as ->.
  - intros q Hq Hc. rewrite Hp, decide_True by done. unfold woken. case_bool_decide as E; [by intros [? _]|]. intros [? ?]. apply E. done.
Qed.

(** The default case of the switch. *)
Lemma consoleintr_default c R ready edit k :
  cons_at R ready edit (k_io k) -> 0 <= c < 256 -> no_proc_lock k -> c <> 16 -> c <> 21 -> c <> 8 -> c <> 127 ->
  exists k' ps' o', (e ← getio cons_e; r ← getio cons_r;
     when (negb (c =? 0) && (u32 (e - r) <? INPUT_BUF))
       (let c := if c =? 13 then 10 else c in
        consputc c;;
        modify_io (fun o => set_cons_buf (ring_set (cons_buf o) e INPUT_BUF c) o);;
        modify_io (set_cons_e (u32 (e + 1)));;
        when ((c =? 10) || (c =? 4) || (u32 (e + 1) =? u32 (r + INPUT_BUF)))
          (modify_io (set_cons_w (u32 (e + 1)));; wakeup ChanConsR))) k = Ret () k' /\
    k' = set_io o' (set_ps ps' k) /\ tx_same (echo (k_ps k) c (ready, edit)) (k_io k) o' /\
    cons_rel (line_step c (ready, edit)) o' /\ readers_woken ready (line_step c (ready, edit)).1 (k_ps k) ps'.
Proof.
  intros H Hc Hl H1 H2 H3 H4. kpure. kpure. pose proof (cons_at_len _ _ _ _ H) as Hlen.
  unfold line_step, echo. rewrite (proj2 (Z.eqb_neq c 16)), (proj2 (Z.eqb_neq c 21)), (proj2 (Z.eqb_neq c 8)), (proj2 (Z.eqb_neq c 127)) by done.
  cbn [orb]. assert (u32 (cons_e (k_io k) - cons_r (k_io k)) = Z.of_nat (length ready + length edit)) as ->.
  { destruct H as (E1 & _ & E2 & _). rewrite E1, E2, c32_sub; [f_equal; lia|lia|lia]. }
  assert (Hsame : exists k' ps' o', Ret () k = Ret () k' /\ k' = set_io o' (set_ps ps' k) /\ tx_same [] (k_io k) o' /\
    cons_rel (ready, edit) o' /\ readers_woken ready ready (k_ps k) ps').
  { exists k, (k_ps k), (k_io k). split_and!; try done; [apply tx_same_refl|by exists R]. }
  destruct (Z.eqb_spec c 0) as [->|Hc0]; [exact Hsame|]. cbn [negb andb orb].
  destruct (Nat.leb_spec 128 (length ready + length edit)) as [Hfull|Hroom].
  { rewrite (proj2 (Z.ltb_ge _ _)) by (unfold INPUT_BUF; lia). exact Hsame. }
  rewrite (proj2 (Z.ltb_lt _ _)) by (unfold INPUT_BUF; lia). cbn [when]. cbv zeta. fold (cooked c).
  assert (0 <= cooked c < 256) as Hb by (unfold cooked; case_match; lia). set (c' := cooked c) in *. clearbody c'.
  assert (putc_bytes c' = [c']) as Ep by (unfold putc_bytes; rewrite (proj2 (Z.eqb_neq _ _)) by (unfold BACKSPACE; lia); by rewrite u8_small).
  rewrite (bind_eq _ _ _ _ _ (consputc_emits c' k)), Ep. kpure. kpure. ksimp.
  assert ((u32 (cons_e (k_io k) + 1) =? u32 (cons_r (k_io k) + INPUT_BUF)) = (length ready + length edit =? 127)%nat) as ->.
  { destruct H as (E1 & _ & E2 & _). rewrite E1, E2, c32_succ. change INPUT_BUF with (Z.of_nat 128). rewrite c32_add.
    rewrite (proj1 (c32_eqb (R + length ready + length edit + 1) (R + 128) ltac:(lia) ltac:(lia))). symmetry. destruct (Nat.eqb_spec (length ready + length edit) 127);
      [rewrite bool_decide_true by lia|rewrite bool_decide_false by lia]; done. }
  fold (ends_line c').
  destruct (ends_line c' || (length ready + length edit =? 127)%nat) eqn:E; cbn [when fst].
  - kpure. match goal with |- context [wakeup ChanConsR ?x] => destruct (wakeup_readers x Hl) as (ps' & Hrun & Hw & Hn) end.
    rewrite Hrun. eexists _, ps', _. split_and!; [reflexivity|unfold emit; ksimp; reflexivity|by split_and!|exists R; exact (cons_at_commit R ready edit (k_io (emit [c'] k)) c' H Hroom Hb)|].
    split; [done|]. split; [|done]. intros Heq%(f_equal length). rewrite !length_app in Heq. simpl in Heq. lia.
  - apply orb_false_iff in E as [E%orb_false_iff _]. destruct E as [E%Z.eqb_neq _].
    eexists _, (k_ps k), _. split_and!; [reflexivity|unfold emit; ksimp; reflexivity|by split_and!|exists R; exact (cons_at_put R ready edit (k_io (emit [c'] k)) c' H Hroom Hb E)|].
    split; [reflexivity|]. done.
Qed.

(** An interrupt handler runs with no locks held by this hart. *)
Lemma consoleintr_eq c st k :
  cons_rel st (k_io k) -> 0 <= c < 256 -> k_held k = [] ->
  exists ps' o', consoleintr c k = Ret () (set_io o' (set_ps ps' k)) /\ tx_same (echo (k_ps k) c st) (k_io k) o' /\
    cons_rel (line_step c st) o' /\ readers_woken st.1 (line_step c st).1 (k_ps k) ps'.
Proof.
  destruct st as [ready edit]. intros [R H] Hc Hh. unfold consoleintr.
  erewrite bind_eq by (apply acquire_eq; rewrite Hh; set_solver). cbv beta. rewrite Hh. set (k1 := set_held [ConsLock] k).
  assert (no_proc_lock k1) as Hl by (intros i; by intros [=]%list_elem_of_singleton).
  assert (cons_at R ready edit (k_io k1)) as H1 by exact H.
  match goal with |- context [(?m;; release ConsLock) k1] => set (body := m) end.
  assert (exists ps' o', body k1 = Ret () (set_io o' (set_ps ps' k1)) /\ tx_same (echo (k_ps k) c (ready, edit)) (k_io k) o' /\
    cons_rel (line_step c (ready, edit)) o' /\ readers_woken ready (line_step c (ready, edit)).1 (k_ps k) ps') as (ps' & o' & Hb & Hx).
  2:{ exists ps', o'. split; [|exact Hx]. rewrite (bind_eq _ _ _ _ _ Hb). rewrite (release_eq _ []) by (done || apply not_elem_of_nil).
      unfold k1. ksimp. by rewrite <- Hh, set_held_id. }
  subst body. unfold line_step, echo.
  assert (Hsame : forall s k' edit', io_only s k1 k' -> cons_at R ready edit' (k_io k') ->
    exists ps' o', Ret () k' = Ret () (set_io o' (set_ps ps' k1)) /\ tx_same s (k_io k) o' /\ cons_rel (ready, edit') o' /\
      readers_woken ready (ready, edit').1 (k_ps k) ps').
  { intros s k' edit' (o & -> & Ht) Ho. exists (k_ps k), o. split_and!; try done. by exists R. }
  destruct (Z.eqb_spec c 16) as [->|H16].
  { rewrite (procdump_emits k1) by (by intros [=]%list_elem_of_singleton). apply Hsame; [apply io_only_emit|done]. }
  destruct (Z.eqb_spec c 21) as [->|H21].
  { kpure. kpure. destruct (killline_loop_eq (Z.to_nat (u32 (cons_e (k_io k1) - cons_w (k_io k1)))) R ready edit k1 H1) as (k2 & -> & H2 & Hio).
    - pose proof (cons_at_len _ _ _ _ H1). destruct H1 as (_ & -> & -> & _). rewrite c32_sub by lia. lia.
    - by apply Hsame. }
  destruct ((c =? 8) || (c =? 127)) eqn:Ebs.
  { kpure. kpure. rewrite (cons_at_e_w _ _ _ _ H1). case_bool_decide as E; cbn [negb when].
    - subst edit. apply Hsame; [apply io_only_refl|done].
    - destruct (erase_eq R ready edit k1 H1 E) as (k2 & Hrun & H2 & Hio). kpure. rewrite Hrun. by apply Hsame. }
  apply orb_false_iff in Ebs as [E8%Z.eqb_neq E127%Z.eqb_neq].
  destruct (consoleintr_default c R ready edit k1 H1 Hc Hl) as (k' & ps' & o' & Hrun & -> & Hx); try done.
  exists ps', o'. split; [exact Hrun|]. unfold line_step, echo in Hx. rewrite (proj2 (Z.eqb_neq c 16)), (proj2 (Z.eqb_neq c 21)), (proj2 (Z.eqb_neq c 8)), (proj2 (Z.eqb_neq c 127)) in Hx by done.
  exact Hx.
Qed.

(** ** The transmit queue *)

Abbreviation c64 n := (u64 (Z.of_nat n)).

Lemma c64_eqb a b : (a <= b)%nat -> (b <= a + 1000)%nat -> (c64 b =? c64 a) = bool_decide (a = b).
Proof.
  intros H1 H2. case_bool_decide as E; [subst; apply Z.eqb_refl|]. apply Z.eqb_neq. unfold u64. intros Heq.
  assert ((Z.of_nat b - Z.of_nat a) mod 2 ^ 64 = 0) as H0 by (rewrite Zminus_mod, Heq, Z.sub_diag; done).
  rewrite Z.mod_small in H0; lia.
Qed.

Lemma c64_add a b : u64 (c64 a + Z.of_nat b) = c64 (a + b).
Proof. unfold u64. rewrite Zplus_mod_idemp_l. f_equal. lia. Qed.

Lemma c64_succ a : u64 (c64 a + 1) = c64 (a + 1).
Proof. apply (c64_add a 1). Qed.

Lemma c64_index a : Z.to_nat (c64 a mod UART_TX_BUF_SIZE) = (a mod 32)%nat.
Proof. apply (ring_index 32 64); [lia|lia|]. by exists (2 ^ 59). Qed.

(** The bytes [pend] wait in [uart_tx_buf]. *)
Definition tx_at (R : nat) (pend : list Z) (o : iosys) : Prop :=
  u_tx_r o = c64 R /\ u_tx_w o = c64 (R + length pend) /\ ring 32 (u_tx_buf o) R pend /\ Forall is_byte pend.

Definition tx_rel (pend : list Z) (o : iosys) : Prop := exists R, tx_at R pend o.

(** [n] bytes moved from the queue to the device. *)
Definition sent (n : nat) (pend : list Z) (o o' : iosys) : Prop :=
  u_thr o' = u_thr o ++ take n pend /\ tx_rel (drop n pend) o' /\ u_room o' = (u_room o - n)%nat /\ u_rhr o' = u_rhr o /\
  cons_buf o' = cons_buf o /\ cons_r o' = cons_r o /\ cons_w o' = cons_w o /\ cons_e o' = cons_e o.

Lemma tx_at_pop R c pend o :
  tx_at R (c :: pend) o -> ring_get (u_tx_buf o) (u_tx_r o) UART_TX_BUF_SIZE = c /\ is_byte c /\
    tx_at (R + 1) pend (set_u_tx_r (u64 (u_tx_r o + 1)) o).
Proof.
  intros (H1 & H2 & H3 & H4). destruct (ring_pop _ _ _ _ _ H3) as [Hg Hr]. apply Forall_cons in H4 as [Hc Hp]. split_and!; [|done|].
  - unfold ring_get. by rewrite H1, c64_index, Hg.
  - rewrite Nat.add_1_r. split_and!; simpl; try done; [by rewrite H1, c64_succ, Nat.add_1_r|rewrite H2; simpl; f_equal; f_equal; lia].
Qed.

Lemma tx_at_empty R pend o : tx_at R pend o -> (u_tx_w o =? u_tx_r o) = bool_decide (pend = []).
Proof.
  intros (H1 & H2 & H3 & _). pose proof (rg_fits _ _ _ _ H3). rewrite H1, H2, c64_eqb by lia.
  apply bool_decide_ext. destruct pend; simpl; [split; [done|lia]|split; [lia|done]].
Qed.

(** Nothing to send, or the device is busy. *)
Lemma sent_none pend k :
  tx_rel pend (k_io k) -> (u_room (k_io k) `min` length pend = 0)%nat ->
  exists ps' o', Ret () k = Ret () (set_io o' (set_ps ps' k)) /\ ps_woke (k_ps k) ps' /\
    sent (u_room (k_io k) `min` length pend) pend (k_io k) o'.
Proof.
  intros H ->. exists (k_ps k), (k_io k). split_and!; [done|reflexivity|]. split_and!; try done; [by rewrite take_0, app_nil_r|lia].
Qed.

(** One byte, then the others. *)
Lemma sent_cons n c pend o o1 o' :
  u_thr o1 = u_thr o ++ [c] -> (0 < u_room o)%nat -> u_room o1 = pred (u_room o) -> u_rhr o1 = u_rhr o ->
  cons_buf o1 = cons_buf o -> cons_r o1 = cons_r o -> cons_w o1 = cons_w o -> cons_e o1 = cons_e o ->
  sent n pend o1 o' -> sent (S n) (c :: pend) o o'.
Proof.
  intros E1 Hr E2 E3 E4 E5 E6 E7 (F1 & F2 & F3 & F4 & F5 & F6 & F7 & F8). split_and!; try congruence.
  - simpl. by rewrite F1, E1, <- app_assoc.
  - done.
  - rewrite F3, E2. lia.
Qed.

Lemma uartstart_loop_eq fuel pend k :
  tx_rel pend (k_io k) -> no_proc_lock k -> (u_room (k_io k) <= fuel)%nat ->
  exists ps' o', uartstart_loop fuel k = Ret () (set_io o' (set_ps ps' k)) /\ ps_woke (k_ps k) ps' /\
    sent (u_room (k_io k) `min` length pend) pend (k_io k) o'.
Proof.
  revert pend k. induction fuel as [|fuel IH]; intros pend k Hrel Hl Hf; pose proof Hrel as [R H];
    cbn [uartstart_loop]; kpure; kpure; rewrite (tx_at_empty _ _ _ H); case_bool_decide as E.
  1,3: subst pend; apply sent_none; [done|simpl; lia].
  all: kpure; unfold lsr_tx_idle; destruct (Nat.ltb_spec 0 (u_room (k_io k))) as [Hr|Hr]; cbn [negb].
  1: lia.
  1,3: apply sent_none; [done|lia].
  destruct pend as [|c pend]; [done|]. destruct (tx_at_pop _ _ _ _ H) as (Hg & Hc & Hp). kpure. cbv zeta. rewrite Hg. kpure.
  match goal with |- context [(wakeup ChanUartTx ≫= _) ?x] => destruct (wakeup_woke ChanUartTx x Hl) as (ps1 & Hw & Hps) end.
  erewrite bind_eq by exact Hw. cbv beta. kpure. ksimp. ksimp in Hps.
  match goal with |- context [uartstart_loop fuel ?x] => set (k1 := x) end.
  destruct (IH pend k1) as (ps' & o' & -> & Hps' & Hs); [by exists (R + 1)%nat|done|simpl; lia|].
  exists ps', o'. split; [unfold k1; by ksimp|]. split; [by etransitivity|].
  replace (u_room (k_io k) `min` length (c :: pend))%nat with (S (u_room (k_io k1) `min` length pend)) by (simpl; lia).
  apply (sent_cons _ _ _ _ (k_io k1)); try done. simpl. by rewrite u8_small.
Qed.

Lemma uartstart_eq pend k :
  tx_rel pend (k_io k) -> no_proc_lock k ->
  exists ps' o', uartstart k = Ret () (set_io o' (set_ps ps' k)) /\ ps_woke (k_ps k) ps' /\
    sent (u_room (k_io k) `min` length pend) pend (k_io k) o'.
Proof. intros H Hl. unfold uartstart. kpure. by apply uartstart_loop_eq. Qed.

(** ** The interrupt handler of the device *)

Lemma tx_same_rel s pend o o' : tx_same s o o' -> tx_rel pend o -> tx_rel pend o'.
Proof. intros (_ & _ & E1 & E2 & E3 & _) [R H]. exists R. unfold tx_at in *. by rewrite E1, E2, E3. Qed.

Lemma uartintr_loop_eq fuel cs st k :
  cons_rel st (k_io k) -> u_rhr (k_io k) = cs -> Forall is_byte cs -> k_held k = [] -> (length cs <= fuel)%nat ->
  exists ps' o' out, uartintr_loop fuel k = Ret () (set_io o' (set_ps ps' k)) /\ echoes (k_ps k) st cs out ps' /\
    tx_same out (set_u_rhr [] (k_io k)) o' /\ cons_rel (foldl (fun st c => line_step c st) st cs) o'.
Proof.
  revert cs st k. induction fuel as [|fuel IH]; intros cs st k Hc Hr Hb Hh Hf; cbn [uartintr_loop].
  all: destruct cs as [|c cs]; [|try (simpl in Hf; lia)].
  1,2: erewrite bind_eq by (unfold uartgetc; kpure; rewrite Hr; reflexivity); cbv beta;
    exists (k_ps k), (k_io k), []; (split; [done|]); (split; [apply echoes_nil|]);
    (split; [split_and!; simpl; rewrite ?Hr, ?app_nil_r; done|done]).
  apply Forall_cons in Hb as [Hbc Hb]. unfold is_byte in Hbc.
  erewrite bind_eq by (unfold uartgetc; kpure; rewrite Hr; reflexivity). cbv beta. rewrite u8_small by lia.
  rewrite (proj2 (Z.eqb_neq c (-1))) by lia.
  destruct (consoleintr_eq c st (set_io (set_u_rhr cs (k_io k)) k)) as (ps1 & o1 & E1 & Ht1 & Hc1 & Hw1); [done|done|done|].
  erewrite bind_eq by exact E1. cbv beta. ksimp.
  destruct (IH cs (line_step c st) (set_io o1 (set_ps ps1 k))) as (ps2 & o2 & out & -> & Hw2 & Ht2 & Hc2);
    [done|apply Ht1|done|done|simpl in Hf; lia|].
  exists ps2, o2, (echo (k_ps k) c st ++ out). ksimp. ksimp in Hw2. ksimp in Ht2. split_and!; try done; [by eapply echoes_cons|].
  eapply tx_same_trans; [|exact Ht2]. destruct Ht1 as (F1 & F2 & F3 & F4 & F5 & F6). by split_and!.
Qed.

(** C29: One UART interrupt passes every byte that arrived, in order, through
    the console's line discipline. It shows exactly the echo of each: a byte
    that joins the line, an erasure for each byte that is removed, the process
    table for control-P, nothing for a byte that is dropped. Then the device
    takes as many bytes of the transmit queue as it has room for, oldest first.
    The handler returns with no lock held, and processes are only woken. *)
Theorem uartintr_handles_input cs st pend k :
  cons_rel st (k_io k) -> tx_rel pend (k_io k) -> u_rhr (k_io k) = cs -> Forall is_byte cs -> k_held k = [] ->
  exists ps1 ps' o' out, uartintr k = Ret () (set_io o' (set_ps ps' k)) /\ ps_woke (k_ps k) ps' /\
    echoes (k_ps k) st cs out ps1 /\
    cons_rel (foldl (fun st c => line_step c st) st cs) o' /\ u_rhr o' = [] /\
    let n := (u_room (k_io k) `min` length pend)%nat in
    u_thr o' = u_thr (k_io k) ++ out ++ take n pend /\ tx_rel (drop n pend) o' /\ u_room o' = (u_room (k_io k) - n)%nat.
Proof.
  intros Hc Ht Hr Hb Hh. unfold uartintr. kpure. rewrite Hr.
  destruct (uartintr_loop_eq (length cs) cs st k Hc Hr Hb Hh) as (ps1 & o1 & out & E1 & Hw1 & Ht1 & Hc1); [done|].
  erewrite bind_eq by exact E1. cbv beta. erewrite bind_eq by (apply acquire_eq; ksimp; rewrite Hh; set_solver). cbv beta. ksimp. rewrite Hh.
  match goal with |- context [(uartstart ≫= _) ?x] => destruct (uartstart_eq pend x) as (ps2 & o2 & E2 & Hw2 & Hs) end.
  { by apply (tx_same_rel out pend _ _ Ht1). }
  { intros i. by intros [=]%list_elem_of_singleton. }
  erewrite bind_eq by exact E2. cbv beta. rewrite (release_eq _ []) by (done || apply not_elem_of_nil). ksimp in Hs. ksimp in Hw2.
  destruct Ht1 as (F1 & F2 & F3 & F4 & F5 & F6). destruct Hs as (G1 & G2 & G3 & G4 & G5 & G6 & G7 & G8). simpl in *.
  exists ps1, ps2, o2, out. rewrite F1 in *. split_and!; [ksimp; by rewrite <- Hh, set_held_id| |done| |by rewrite G4, F2| |done|done].
  - etransitivity; [by eapply echoes_woke|done].
  - destruct Hc1 as [R Hc1]. exists R. unfold cons_at. by rewrite G5, G6, G7, G8.
  - by rewrite G1, F6, app_assoc.
Qed.

Lemma tx_at_put R pend o c :
  tx_at R pend o -> (length pend < 32)%nat ->
  tx_at R (pend ++ [u8 c]) (set_u_tx_w (u64 (u_tx_w o + 1)) (set_u_tx_buf (ring_set (u_tx_buf o) (u_tx_w o) UART_TX_BUF_SIZE c) o)).
Proof.
  intros (H1 & H2 & H3 & H4) Hl. split_and!; simpl; [done| | |].
  - rewrite H2, c64_succ, length_app. f_equal. simpl. lia.
  - unfold ring_set. rewrite H2, c64_index. by apply ring_push; [lia|..].
  - apply Forall_app. split; [done|]. apply Forall_singleton. apply u8_bound.
Qed.

(** C30: [uartputc] queues its byte behind those already waiting and the device
    takes as many as it has room for from the front, so bytes leave in the
    order they were put; with the 32 cells in use it does not overwrite, but
    sleeps on the queue. *)
Theorem uartputc_fifo {W : Wakeups} c pend k :
  tx_rel pend (k_io k) -> k_held k = [] ->
  ((length pend < 32)%nat ->
    exists ps' o', uartputc c k = Ret () (set_io o' (set_ps ps' k)) /\ ps_woke (k_ps k) ps' /\
      sent (u_room (k_io k) `min` S (length pend)) (pend ++ [u8 c]) (k_io k) o') /\
  (forall p, length pend = 32%nat -> ps_cur (k_ps k) = Some p -> (0 < wakeups)%nat ->
    exists f, uartputc c k = Yield (asleep p ChanUartTx (set_held [UartLock] k)) f).
Proof.
  intros [R H] Hh. unfold uartputc.
  erewrite bind_eq by (apply acquire_eq; rewrite Hh; set_solver). cbv beta. rewrite Hh.
  assert (Hfull : (u_tx_w (k_io k) =? u64 (u_tx_r (k_io k) + UART_TX_BUF_SIZE)) = bool_decide (length pend = 32%nat)).
  { destruct H as (E1 & E2 & E3 & _). pose proof (rg_fits _ _ _ _ E3). rewrite E1, E2. change UART_TX_BUF_SIZE with (Z.of_nat 32).
    rewrite c64_add, Z.eqb_sym, c64_eqb by lia. apply bool_decide_ext. lia. }
  split.
  - intros Hl. destruct wakeups; cbn [uartputc_loop]; kpure; kpure; ksimp; rewrite Hfull, bool_decide_false by lia; kpure; kpure; ksimp.
    all: match goal with |- context [(uartstart ≫= _) ?x] => destruct (uartstart_eq (pend ++ [u8 c]) x) as (ps2 & o2 & E2 & Hw2 & Hs) end;
      [exists R; by apply (tx_at_put R pend (k_io k))|intros i; by intros [=]%list_elem_of_singleton|].
    all: erewrite bind_eq by exact E2; cbv beta; rewrite (release_eq _ []) by (done || apply not_elem_of_nil).
    all: exists ps2, o2; split; [ksimp; by rewrite <- Hh, set_held_id|]; split; [done|]; ksimp in Hs;
      rewrite length_app, Nat.add_1_r in Hs; exact Hs.
  - intros p Hl Hc HW. destruct wakeups as [|f]; [lia|]. cbn [uartputc_loop]. kpure. kpure. ksimp. rewrite Hfull, bool_decide_true by done.
    destruct (sleep_yields ChanUartTx UartLock p (set_held [UartLock] k)) as (g & Hs & _); [done|done|done|].
    unfold mbind, M_bind. rewrite Hs. simpl. eexists. reflexivity.
Qed.

(** ** Instances *)

#[local] Instance console_wakeups : Wakeups := 1%nat.

Definition io_demo (rhr : list Z) : kernel := set_io (set_u_rhr rhr (set_u_room 1 iosys0)) boot.

Lemma io_demo_cons rhr : cons_rel ([], []) (k_io (io_demo rhr)) /\ tx_rel [] (k_io (io_demo rhr)).
Proof.
  split; exists 0%nat; (split_and!; [done..| |done]); (split; [done|simpl; lia|intros i b Hi; simpl in Hi; by rewrite lookup_nil in Hi]).
Qed.

(** Typing [ls], a wrong character, delete, return. *)
Lemma uartintr_handles_input_witness :
  exists ps' o', uartintr (io_demo [108; 115; 120; 127; 13]) = Ret () (set_io o' (set_ps ps' (io_demo [108; 115; 120; 127; 13]))) /\
    cons_rel ([108; 115; 10], []) o' /\ u_thr o' = [108; 115; 120; 8; 32; 8; 10].
Proof.
  destruct (uartintr_handles_input [108; 115; 120; 127; 13] ([], []) [] (io_demo [108; 115; 120; 127; 13]))
    as (ps1 & ps' & o' & out & H1 & _ & He & H2 & _ & Ho & _);
    [apply io_demo_cons|apply io_demo_cons|reflexivity|repeat constructor; unfold is_byte; lia|reflexivity|].
  exists ps', o'. split; [exact H1|]. split; [exact H2|]. rewrite Ho, app_nil_r.
  repeat match goal with H : echoes _ _ _ _ _ |- _ => inversion H; clear H; subst end. reflexivity.
Defined.

Lemma uartputc_fifo_witness :
  exists ps' o', uartputc 65 (io_demo []) = Ret () (set_io o' (set_ps ps' (io_demo []))) /\ u_thr o' = [65].
Proof.
  destruct (uartputc_fifo 65 [] (io_demo []) (proj2 (io_demo_cons [])) eq_refl) as [H _].
  destruct H as (ps' & o' & H1 & _ & H2 & _); [simpl; lia|]. exists ps', o'. split; [exact H1|exact H2].
Defined.
