(* ===== verification/TrapProps.v ===== *)
(** * User traps: the return to user space, and the alarm of [sigalarm]

    The trap frame of a process and the copy the alarm makes of it are two
    pages; [tfw m tf f] is the word at offset [f] of the frame. *)

From S2P Require Import Prelude Riscv Monad State Kstring Bytes Printf Kalloc Vm VmInv VmMap Uspace VmFree VmCopy VmProps Proc ProcInv Sleeplock Bio BioInv Log Fs Dir Console Pipe File Fork Exec Sysargs Sysproc Sysfile Syscall Trap Umem ConsoleProps.
#[local] Open Scope Z_scope.

Lemma load64_shift m m' a a' :
  (forall i, 0 <= i < 8 -> load8 m' (a' + i) = load8 m (a + i)) -> load64 m' a' = load64 m a.
Proof.
  unfold load64. change 8 with (Z.of_nat 8). generalize 8%nat. intros n. revert a a'.
  induction n as [|n IH]; intros a a' H; [done|]. cbn [load_le].
  pose proof (H 0 ltac:(lia)) as H0. rewrite !Z.add_0_r in H0. rewrite H0, (IH (a + 1) (a' + 1)); [done|].
  intros i Hi. rewrite <- !Z.add_assoc. apply H. lia.
Qed.

#[local] Opaque memmove load64 store64 acquire release wakeup printf.

Definition tfw (m : mem) (tf f : Z) : Z := load64 m (tf + f).

(** The offset of a register in the frame. *)
Definition is_reg (f : Z) : Prop := 0 <= f <= PGSIZE - 8 /\ f mod 8 = 0.

(** The fields [usertrapret] fills for the next trap. *)
Definition kernel_field (f : Z) : Prop := f = tf_kernel_satp \/ f = tf_kernel_sp \/ f = tf_kernel_trap \/ f = tf_kernel_hartid.

#[export] Instance kernel_field_dec f : Decision (kernel_field f).
Proof. unfold kernel_field. apply _. Defined.

(** ** Words of the frames *)

Lemma reg_ne f f' : is_reg f -> is_reg f' -> f <> f' -> f + 8 <= f' \/ f' + 8 <= f.
Proof. intros [H1 H2] [H3 H4] Hne. apply Z_div_exact_full_2 in H2; [|lia]. apply Z_div_exact_full_2 in H4; [|lia]. lia. Qed.

Lemma tfw_store_eq m tf f v : 0 <= v < 2 ^ 64 -> tfw (store64 m (tf + f) v) tf f = v.
Proof. intros H. by apply load64_store64_eq. Qed.

Lemma tfw_store_ne m tf f f' v : is_reg f -> is_reg f' -> f <> f' -> tfw (store64 m (tf + f') v) tf f = tfw m tf f.
Proof. intros H1 H2 H3. apply load64_store64_ne. pose proof (reg_ne f f' H1 H2 H3). lia. Qed.

(** A store in one page does not touch the other. *)
Definition apart (tf tf' : Z) : Prop := tf + PGSIZE <= tf' \/ tf' + PGSIZE <= tf.

Lemma tfw_store_apart m tf tf' f f' v : apart tf tf' -> is_reg f -> is_reg f' -> tfw (store64 m (tf' + f') v) tf f = tfw m tf f.
Proof. intros Ha [H1 _] [H2 _]. apply load64_store64_ne. destruct Ha; lia. Qed.

Lemma tfw_memmove m dst src f : is_reg f -> tfw (memmove m dst src PGSIZE) dst f = tfw m src f.
Proof.
  intros [H _]. apply load64_shift. intros i Hi. rewrite load8_memmove by done. rewrite decide_True by (unfold PGSIZE in *; lia). f_equal. lia.
Qed.

Lemma tfw_memmove_apart m dst src tf f : apart tf dst -> is_reg f -> tfw (memmove m dst src PGSIZE) tf f = tfw m tf f.
Proof.
  intros Ha [H _]. apply load64_shift. intros i Hi. rewrite load8_memmove by done. rewrite decide_False; [done|]. destruct Ha; lia.
Qed.

Lemma regs_ok : is_reg tf_kernel_satp /\ is_reg tf_kernel_sp /\ is_reg tf_kernel_trap /\ is_reg tf_kernel_hartid /\ is_reg tf_epc /\
  is_reg (tf_a 0) /\ is_reg (tf_a 7).
Proof. unfold is_reg. split_and!; try done; vm_compute; split; congruence. Qed.

Lemma tf_get_eq p f k : tf_get p f k = Ret (tfw (k_mem k) (p_trapframe (ps_proc (k_ps k) p)) f) k.
Proof. done. Qed.

Lemma tf_set_eq p f v k : tf_set p f v k = Ret () (set_mem (store64 (k_mem k) (p_trapframe (ps_proc (k_ps k) p) + f) v) k).
Proof. done. Qed.

(** ** The return to user space *)

Section trap.
Context {L : Layout} {LOk : LayoutOk L} {W : Wakeups} {D : Disk} {DI : DiskIntr} {F : Frames}.

(** What the kernel stores for the next trap of [p]. *)
Definition kernel_word (ti : trapinfo) (kstack f : Z) : Z :=
  if f =? tf_kernel_satp then ti_satp ti
  else if f =? tf_kernel_sp then kstack + PGSIZE
  else if f =? tf_kernel_trap then a_usertrap
  else ti_hartid ti.

(** The registers of the machine and the kernel stack are 64-bit words. *)
Definition trap_words (ti : trapinfo) (kstack : Z) : Prop :=
  0 <= ti_satp ti < 2 ^ 64 /\ 0 <= kstack < 2 ^ 64 - PGSIZE /\ 0 <= a_usertrap < 2 ^ 64 /\ 0 <= ti_hartid ti < 2 ^ 64 /\
  0 <= ti_sepc ti < 2 ^ 64.

Lemma usertrapret_eq ti p k :
  ps_cur (k_ps k) = Some p -> trap_words ti (p_kstack (ps_proc (k_ps k) p)) ->
  let tf := p_trapframe (ps_proc (k_ps k) p) in
  exists ur m', usertrapret ti k = Ret ur (set_mem m' k) /\
    ur_sepc ur = tfw (k_mem k) tf tf_epc /\ Z.land (ur_sstatus ur) SSTATUS_SPP = 0 /\
    ur_satp ur = MAKE_SATP (p_pagetable (ps_proc (k_ps k) p)) /\ ur_trapframe ur = TRAPFRAME /\
    (forall f, is_reg f -> tfw m' tf f = if decide (kernel_field f) then kernel_word ti (p_kstack (ps_proc (k_ps k) p)) f else tfw (k_mem k) tf f) /\
    (forall tf' f, apart tf' tf -> is_reg f -> tfw m' tf' f = tfw (k_mem k) tf' f).
Proof.
  intros Hc (W1 & W2 & W3 & W4 & _) tf. unfold usertrapret. erewrite bind_eq by (by apply curproc_eq). cbv beta.
  erewrite bind_eq by apply tf_set_eq. cbv beta. kpure. erewrite bind_eq by apply tf_set_eq. cbv beta.
  erewrite bind_eq by apply tf_set_eq. cbv beta. erewrite bind_eq by apply tf_set_eq. cbv beta. cbv zeta.
  erewrite bind_eq by apply tf_get_eq. cbv beta. kpure. ksimp. fold tf.
  destruct regs_ok as (R1 & R2 & R3 & R4 & R5 & _).
  eexists _, _. split; [reflexivity|]. simpl. split_and!; try done.
  - repeat (rewrite tfw_store_ne by (done || discriminate)). done.
  - rewrite Z.land_lor_distr_l, <- Z.land_assoc. rewrite (Z.land_comm (Z.lnot _)), Z.land_lnot_diag, Z.land_0_r. done.
  - intros f Hf. unfold kernel_word. case_decide as Hk.
    + destruct Hk as [-> | [-> | [-> | ->]]]; repeat (rewrite tfw_store_ne by (done || discriminate)); rewrite tfw_store_eq by (unfold PGSIZE in *; lia); done.
    + unfold kernel_field in Hk. repeat (rewrite tfw_store_ne by (done || tauto)). done.
  - intros tf' f Ha Hf. by rewrite !tfw_store_apart.
Qed.

(** ** [sigreturn] *)

Lemma sys_sigreturn_eq p k :
  ps_cur (k_ps k) = Some p ->
  sys_sigreturn k = Ret 0 (set_ps (ps_upd p (set_in_alarm_handler 0) (k_ps k))
    (set_mem (memmove (k_mem k) (p_trapframe (ps_proc (k_ps k) p)) (p_alarm_tf (ps_proc (k_ps k) p)) PGSIZE) k)).
Proof. intros Hc. unfold sys_sigreturn. erewrite bind_eq by (by apply curproc_eq). cbv beta. do 4 kpure. by ksimp. Qed.

(** The system call of number 23: the frame is the saved one, but for [a0]. *)
Lemma syscall_sigreturn_eq p k :
  ps_cur (k_ps k) = Some p ->
  let tf := p_trapframe (ps_proc (k_ps k) p) in
  s32 (tfw (k_mem k) tf (tf_a 7)) = 23 ->
  syscall k = Ret () (set_ps (ps_upd p (set_in_alarm_handler 0) (k_ps k))
    (set_mem (store64 (memmove (k_mem k) tf (p_alarm_tf (ps_proc (k_ps k) p)) PGSIZE) (tf + tf_a 0) 0) k)).
Proof.
  intros Hc tf Ha7. unfold syscall. erewrite bind_eq by (by apply curproc_eq). cbv beta.
  erewrite bind_eq by apply tf_get_eq. cbv beta zeta. fold tf. rewrite Ha7. cbn [Z.ltb Z.compare syscalls].
  erewrite bind_eq by (by apply sys_sigreturn_eq). cbv beta. rewrite tf_set_eq. ksimp. rewrite ps_proc_upd, decide_True by done. done.
Qed.

(** C20: The [ecall] of [sigreturn] resumes the interrupted program: the trap
    returns to user space at the saved program counter with every register as
    saved in the alarm's frame, the alarm may fire again, and the saved frame
    is unchanged. One register is not restored: [a0] is 0, the result of the
    system call, whatever was saved. *)
Theorem sigreturn_restores_all_but_a0 ti p k :
  ps_cur (k_ps k) = Some p -> ti_scause ti = 8 -> Z.land (ti_sstatus ti) SSTATUS_SPP = 0 ->
  trap_words ti (p_kstack (ps_proc (k_ps k) p)) -> p_killed (ps_proc (k_ps k) p) = 0 ->
  let tf := p_trapframe (ps_proc (k_ps k) p) in
  let atf := p_alarm_tf (ps_proc (k_ps k) p) in
  apart tf atf -> s32 (tfw (k_mem k) tf (tf_a 7)) = 23 ->
  exists ur m' ps', usertrap ti k = Ret ur (set_ps ps' (set_mem m' k)) /\
    ur_sepc ur = tfw (k_mem k) atf tf_epc /\
    (forall f, is_reg f -> ~ kernel_field f -> tfw m' tf f = if decide (f = tf_a 0) then 0 else tfw (k_mem k) atf f) /\
    (forall f, is_reg f -> tfw m' atf f = tfw (k_mem k) atf f) /\
    proc_only p (set_in_alarm_handler 0) (k_ps k) ps'.
Proof.
  intros Hc Hsc Hspp HW Hkill tf atf Hap Ha7. unfold usertrap. rewrite Hspp, Hsc. change (negb (0 =? 0)) with false. change (8 =? 8) with true. cbv iota.
  destruct regs_ok as (_ & _ & _ & _ & Repc & Ra0 & Ra7). assert (apart atf tf) as Hap' by (destruct Hap; [right|left]; done).
  erewrite bind_eq by (by apply curproc_eq). cbv beta. erewrite bind_eq by apply tf_set_eq. cbv beta. fold tf.
  set (m1 := store64 (k_mem k) (tf + tf_epc) (ti_sepc ti)).
  set (m2 := store64 m1 (tf + tf_epc) (u64 (tfw m1 tf tf_epc + 4))). set (m3 := store64 (memmove m2 tf atf PGSIZE) (tf + tf_a 0) 0).
  set (ps' := ps_upd p (set_in_alarm_handler 0) (k_ps k)).
  assert (Hps : proc_only p (set_in_alarm_handler 0) (k_ps k) ps') by apply proc_only_upd. destruct Hps as ((Hcur & Hg) & Hp & Ho).
  rewrite (bind_eq _ _ _ () (set_ps ps' (set_mem m3 k))).
  2:{ kpure. ksimp. rewrite Hkill. cbn [truthy Z.eqb negb when]. kpure. erewrite bind_eq by apply tf_get_eq. cbv beta.
      erewrite bind_eq by apply tf_set_eq. cbv beta. ksimp. fold tf. fold m2.
      rewrite (syscall_sigreturn_eq p); ksimp; [done|done|]. fold tf. unfold m2, m1. by rewrite !tfw_store_ne. }
  kpure. ksimp. rewrite Hp. cbn [set_in_alarm_handler p_killed]. rewrite Hkill. cbn [truthy Z.eqb negb when]. kpure.
  destruct (usertrapret_eq ti p (set_ps ps' (set_mem m3 k))) as (ur & m' & Hrun & Hpc & _ & _ & _ & Hw & Hap2);
    [ksimp; by rewrite Hcur|ksimp; by rewrite Hp|].
  ksimp in Hrun. ksimp in Hpc. ksimp in Hw. ksimp in Hap2. rewrite Hp in Hpc, Hw, Hap2. cbn [set_in_alarm_handler p_trapframe] in Hpc, Hw, Hap2.
  fold tf in Hpc, Hw, Hap2.
  assert (Hm3 : forall f, is_reg f -> tfw m3 tf f = if decide (f = tf_a 0) then 0 else tfw (k_mem k) atf f).
  { intros f Hf. unfold m3. case_decide as Ef; [subst; by apply tfw_store_eq|]. rewrite tfw_store_ne by done.
    rewrite tfw_memmove by done. unfold m2, m1. by rewrite !tfw_store_apart. }
  exists ur, m', ps'. split; [exact Hrun|]. split_and!; try done.
  - by rewrite Hpc, Hm3, decide_False.
  - intros f Hf Hk. by rewrite Hw, decide_False, Hm3 by done.
  - intros f Hf. rewrite Hap2 by done. unfold m3. rewrite tfw_store_apart, tfw_memmove_apart by done.
    unfold m2, m1. by rewrite !tfw_store_apart.
Qed.

(** ** The alarm *)

Lemma alarm_tick_idle p k :
  p_alarm_interval (ps_proc (k_ps k) p) <= 0 \/ p_in_alarm_handler (ps_proc (k_ps k) p) <> 0 -> alarm_tick p k = Ret () k.
Proof.
  intros H. unfold alarm_tick. do 2 kpure.
  assert ((0 <? p_alarm_interval (ps_proc (k_ps k) p)) && (p_in_alarm_handler (ps_proc (k_ps k) p) =? 0) = false) as ->; [|done].
  apply andb_false_iff. destruct H; [left; by apply Z.ltb_ge|right; by apply Z.eqb_neq].
Qed.

(** A tick before the interval is over only counts. *)
Lemma alarm_tick_counts p k :
  let x := ps_proc (k_ps k) p in
  p_in_alarm_handler x = 0 -> 0 <= p_ticks_since_alarm x -> p_ticks_since_alarm x + 1 < p_alarm_interval x ->
  exists ps', alarm_tick p k = Ret () (set_ps ps' k) /\ proc_only p (set_ticks_since_alarm (p_ticks_since_alarm x + 1)) (k_ps k) ps'.
Proof.
  intros x Hin H0 Hlt. unfold alarm_tick. do 2 kpure. fold x. rewrite Hin, (proj2 (Z.ltb_lt _ _)) by lia. cbn [Z.eqb andb when].
  do 4 kpure. ksimp. rewrite ps_proc_upd, decide_True by done. fold x. cbn [set_ticks_since_alarm p_alarm_interval p_ticks_since_alarm].
  rewrite (proj2 (Z.leb_gt _ _)) by lia. cbn [when]. eexists. split; [reflexivity|]. apply proc_only_upd.
Qed.

(** The tick that ends it saves the frame and redirects the program. *)
Definition fired_mem (x : proc) (m : mem) : mem :=
  store64 (memmove m (p_alarm_tf x) (p_trapframe x) PGSIZE) (p_trapframe x + tf_epc) (p_alarm_handler x).
Definition fired (x : proc) : proc := set_in_alarm_handler 1 (set_ticks_since_alarm 0 x).

Lemma alarm_tick_fires p k :
  let x := ps_proc (k_ps k) p in
  p_in_alarm_handler x = 0 -> 0 < p_alarm_interval x -> p_alarm_interval x <= p_ticks_since_alarm x + 1 ->
  exists ps', alarm_tick p k = Ret () (set_ps ps' (set_mem (fired_mem x (k_mem k)) k)) /\ proc_only p fired (k_ps k) ps'.
Proof.
  intros x Hin H0 Hle. unfold alarm_tick. do 2 kpure. fold x. rewrite Hin, (proj2 (Z.ltb_lt _ _)) by lia. cbn [Z.eqb andb when].
  do 4 kpure. ksimp. rewrite !ps_proc_upd, !decide_True by done. fold x. cbn [set_ticks_since_alarm p_alarm_interval p_ticks_since_alarm].
  rewrite (proj2 (Z.leb_le _ _)) by lia. cbn [when]. do 5 kpure. erewrite bind_eq by apply tf_set_eq. cbv beta.
  ksimp. rewrite !ps_proc_upd, !decide_True by done. eexists. split; [reflexivity|].
  pose proof (proc_only_upd p (set_ticks_since_alarm (p_ticks_since_alarm x + 1)) (k_ps k)) as P1.
  pose proof (proc_only_trans _ _ _ _ _ _ P1 (proc_only_upd p (set_ticks_since_alarm 0) _)) as P2.
  pose proof (proc_only_trans _ _ _ _ _ _ P2 (proc_only_upd p (set_in_alarm_handler 1) _)) as (G & E & O).
  split; [exact G|]. split; [etransitivity; [exact E|done]|exact O].
Qed.

(** [n] timer interrupts of the process. *)
Fixpoint ticks_of (n : nat) (p : Z) : K unit :=
  match n with
  | O => mret ()
  | S n' => alarm_tick p;; ticks_of n' p
  end.

Lemma ticks_counts n p k :
  let x := ps_proc (k_ps k) p in
  p_in_alarm_handler x = 0 -> 0 <= p_ticks_since_alarm x -> p_ticks_since_alarm x + Z.of_nat n < p_alarm_interval x ->
  exists ps', (forall m, (ticks_of (n + m) p) k = ticks_of m p (set_ps ps' k)) /\
    proc_only p (set_ticks_since_alarm (p_ticks_since_alarm x + Z.of_nat n)) (k_ps k) ps'.
Proof.
  revert k. induction n as [|n IH]; intros k x Hin H0 Hlt.
  { exists (k_ps k). split; [intros m; by rewrite set_ps_id|]. apply proc_only_refl. fold x. rewrite Z.add_0_r. by destruct x. }
  destruct (alarm_tick_counts p k Hin H0) as (ps1 & Hrun & Hp1); [fold x; lia|]. fold x in Hp1.
  pose proof Hp1 as (_ & Hx1 & _). fold x in Hx1.
  destruct (IH (set_ps ps1 k)) as (ps2 & Hm & Hp2); ksimp; rewrite ?Hx1; [done|simpl; lia|simpl; lia|].
  exists ps2. split.
  - intros m. cbn [ticks_of Nat.add]. erewrite bind_eq by exact Hrun. cbv beta. rewrite Hm. by ksimp.
  - ksimp in Hp2. rewrite Hx1 in Hp2. pose proof (proc_only_trans _ _ _ _ _ _ Hp1 Hp2) as Hp. cbn [set_ticks_since_alarm p_ticks_since_alarm] in Hp.
    destruct Hp as (G & E & O). split; [done|]. split; [|done]. rewrite E. unfold set_ticks_since_alarm. simpl. f_equal. lia.
Qed.

Lemma ticks_idle n p k : p_in_alarm_handler (ps_proc (k_ps k) p) <> 0 -> ticks_of n p k = Ret () k.
Proof. intros H. induction n as [|n IH]; [done|]. cbn [ticks_of]. by erewrite bind_eq by (apply alarm_tick_idle; by right). Qed.

(** C19: An alarm of interval [n] with [t] ticks counted fires at exactly the
    [n - t]-th timer interrupt: before it nothing but the counter changes; then
    the alarm's frame holds every register of the interrupted program, the
    program continues at the handler with its other registers unchanged, and
    further ticks, while the handler runs, change nothing. *)
Theorem alarm_fires_on_time p k :
  let x := ps_proc (k_ps k) p in
  let tf := p_trapframe x in
  let n := Z.to_nat (p_alarm_interval x - p_ticks_since_alarm x) in
  p_in_alarm_handler x = 0 -> 0 <= p_ticks_since_alarm x < p_alarm_interval x -> apart tf (p_alarm_tf x) ->
  0 <= p_alarm_handler x < 2 ^ 64 ->
  (forall j, (j < n)%nat -> exists ps', ticks_of j p k = Ret () (set_ps ps' k) /\
     proc_only p (set_ticks_since_alarm (p_ticks_since_alarm x + Z.of_nat j)) (k_ps k) ps') /\
  exists m' ps', (forall j, (n <= j)%nat -> ticks_of j p k = Ret () (set_ps ps' (set_mem m' k))) /\
    proc_only p fired (k_ps k) ps' /\
    forall f, is_reg f -> tfw m' (p_alarm_tf x) f = tfw (k_mem k) tf f /\
      tfw m' tf f = if decide (f = tf_epc) then p_alarm_handler x else tfw (k_mem k) tf f.
Proof.
  intros x tf n Hin Ht Hap Hh. assert (Z.of_nat n = p_alarm_interval x - p_ticks_since_alarm x) as Hn by (subst n; lia).
  clearbody n. split.
  { intros j Hj. destruct (ticks_counts j p k Hin) as (ps' & Hrun & Hp); [fold x; lia..|]. exists ps'. split; [|done].
    specialize (Hrun 0%nat). rewrite Nat.add_0_r in Hrun. by rewrite Hrun. }
  destruct (ticks_counts (pred n) p k Hin) as (ps1 & Hrun & Hp1); [fold x; lia..|]. fold x in Hp1. pose proof Hp1 as (_ & Hx1 & _). fold x in Hx1.
  destruct (alarm_tick_fires p (set_ps ps1 k)) as (ps2 & Hf & Hp2); ksimp; rewrite ?Hx1; simpl; [done|lia|lia|].
  ksimp in Hf. ksimp in Hp2. rewrite Hx1 in Hf. exists (fired_mem x (k_mem k)), ps2. split_and!.
  - intros j Hj. replace j with (pred n + S (j - n))%nat by lia. rewrite Hrun. cbn [ticks_of]. erewrite bind_eq by exact Hf. cbv beta.
    apply ticks_idle. ksimp. destruct Hp2 as (_ & -> & _). done.
  - destruct (proc_only_trans _ _ _ _ _ _ Hp1 Hp2) as (G & E & O). split; [done|]. split; [|done]. rewrite E. done.
  - intros f Hreg. destruct regs_ok as (_ & _ & _ & _ & Repc & _). unfold fired_mem. fold tf. split.
    + rewrite tfw_store_apart; [by apply tfw_memmove|destruct Hap; [right|left]; done|done|done].
    + case_decide as E; [subst f; by apply tfw_store_eq|]. by rewrite tfw_store_ne, tfw_memmove_apart by done.
Qed.

(** ** Unknown system calls *)

Lemma syscalls_none num : num < 1 \/ 23 < num -> (if 0 <? num then syscalls num else None) = None.
Proof.
  intros H. destruct (Z.ltb_spec 0 num) as [Hp|]; [|done]. destruct num as [|q|q]; [lia| |lia].
  do 5 (destruct q as [q|q|]; try reflexivity; try lia).
Qed.

Lemma unknown_fmt_emits pid name num :
  exists s, emits (printf_loop (str "%d %s: unknown sys call %d" ++ [10]) [PInt pid; PStr (Some name); PInt num]) s.
Proof. eexists. emits_fmt. Qed.

(** A system call number that is not in the table prints a message and
    returns -1 to the caller; nothing else changes. *)
Theorem unknown_syscall_fails p k :
  ps_cur (k_ps k) = Some p -> PrLock ∉ k_held k ->
  let tf := p_trapframe (ps_proc (k_ps k) p) in
  let num := s32 (tfw (k_mem k) tf (tf_a 7)) in
  num < 1 \/ 23 < num ->
  exists s, syscall k = Ret () (set_mem (store64 (k_mem k) (tf + tf_a 0) (2 ^ 64 - 1)) (emit s k)).
Proof.
  intros Hc Hpr tf num Hn. unfold syscall. erewrite bind_eq by (by apply curproc_eq). cbv beta.
  erewrite bind_eq by apply tf_get_eq. cbv beta zeta. fold tf. fold num. rewrite syscalls_none by done. kpure. kpure.
  destruct (unknown_fmt_emits (p_pid (ps_proc (k_ps k) p)) (cstring (p_name (ps_proc (k_ps k) p))) num) as (s & E).
  erewrite bind_eq by (by apply (printf_emits _ _ s k E)). cbv beta. exists s. rewrite tf_set_eq. done.
Qed.

End trap.

(** ** Instances: a process with an alarm of three ticks, one of them passed *)

Module AlarmDemo.
#[local] Existing Instances demo_layout demo_layout_ok.
#[local] Instance wakeups : Wakeups := 0%nat.
#[local] Instance disk : Disk := ideal_disk.
#[local] Instance disk_intr : DiskIntr := mret ().
#[local] Instance no_frames : Frames := mkframes ∅ 0.

Definition tf : Z := 0x87fff000.
Definition atf : Z := 0x87ffe000.
Definition x : proc := set_alarm_tf atf (set_trapframe tf (set_alarm_handler 0x40 (set_ticks_since_alarm 1 (set_alarm_interval 3 proc0)))).
Definition k0 : kernel :=
  set_ps (ps_set_cur (Some 5) (ps_upd 5 (fun _ => x) procsys0)) (set_mem (store64 (store64 ∅ (atf + tf_epc) 0x1234) (tf + tf_a 7) 23) boot).

Lemma k0_proc : ps_proc (k_ps k0) 5 = x.
Proof. reflexivity. Qed.

Lemma apart_tf : apart tf atf.
Proof. right. vm_compute. discriminate. Qed.

(** The second tick from here fires. *)
Lemma alarm_fires_on_time_witness :
  exists m' ps', ticks_of 2 5 k0 = Ret () (set_ps ps' (set_mem m' k0)) /\ tfw m' tf tf_epc = 0x40.
Proof.
  destruct (alarm_fires_on_time 5 k0) as (_ & m' & ps' & Hrun & _ & Hw);
    [reflexivity|vm_compute; split; discriminate || reflexivity|exact apart_tf|vm_compute; split; discriminate || reflexivity|].
  exists m', ps'. split; [apply Hrun; apply le_n|].
  destruct (Hw tf_epc ltac:(vm_compute; repeat split; discriminate || reflexivity)) as [_ H]. exact H.
Defined.

Definition ti : trapinfo := mktrapinfo 0 0x44 8 0 0 0 0.

Lemma sigreturn_restores_all_but_a0_witness :
  exists ur m' ps', usertrap ti k0 = Ret ur (set_ps ps' (set_mem m' k0)) /\ ur_sepc ur = 0x1234 /\ tfw m' tf (tf_a 0) = 0.
Proof.
  destruct (sigreturn_restores_all_but_a0 ti 5 k0) as (ur & m' & ps' & Hrun & Hpc & Hw & _);
    [reflexivity|reflexivity|reflexivity| |reflexivity|exact apart_tf|vm_compute; reflexivity|].
  { vm_compute. repeat split; discriminate || reflexivity. }
  exists ur, m', ps'. split; [exact Hrun|]. split; [rewrite Hpc; vm_compute; reflexivity|].
  rewrite Hw; [reflexivity|vm_compute; repeat split; discriminate || reflexivity|].
  intros [H|[H|[H|H]]]; discriminate H.
Defined.

Definition k_bad : kernel := set_mem (store64 ∅ (tf + tf_a 7) 24) k0.

Lemma unknown_syscall_fails_witness :
  exists s, syscall k_bad = Ret () (set_mem (store64 (k_mem k_bad) (tf + tf_a 0) (2 ^ 64 - 1)) (emit s k_bad)).
Proof.
  apply (unknown_syscall_fails 5 k_bad); [reflexivity|apply not_elem_of_nil|]. right. vm_compute. reflexivity.
Defined.

End AlarmDemo.
