(* ===== verification/ProcProps.v ===== *)
(** * The process table: allocation, release, waking *)

From S2P Require Import Prelude Riscv Monad State Kstring Printf Kalloc Vm VmInv VmMap Uspace VmFree VmCopy VmProps Proc ProcInv.
#[local] Open Scope Z_scope.

#[local] Opaque memset memmove store64 load64 kalloc kfree acquire release.

(** Several assignments to one process. *)
Ltac proc_chain :=
  split; [done|split; [rewrite !ps_proc_upd_eq; reflexivity|intros ? ?; rewrite !ps_proc_upd_ne by done; reflexivity]].

Section proofs.
Context {L : Layout} {LOk : LayoutOk L}.

(** The fields of a process [freeproc] released: [alarm_tf] is not among the
    ones it clears. *)
Definition freed (x : proc) : proc :=
  mkproc UNUSED NoChan 0 0 0 None (p_kstack x) 0 0 0 (p_context x) (p_ofile x) (p_cwd x) (<[0%nat := 0]> (p_name x)) 0 0 0
    (p_alarm_tf x) 0.

(** Freeing a page or the null pointer. *)
Definition free_opt (a : Z) (l : list Z) : list Z := if truthy a then a :: l else l.

Lemma kfree_opt k l a :
  free_pages k l -> (a <> 0 -> page_ok a /\ a ∉ l) -> KmemLock ∉ k_held k ->
  exists k', when (truthy a) (kfree a) k = Ret () k' /\ mem_only k k' /\ free_pages k' (free_opt a l).
Proof.
  intros Hf Ha Hl. unfold free_opt. destruct (truthy a) eqn:E; cbn [when]; [|by exists k].
  apply truthy_true in E. destruct (Ha E) as [Hok Hnin]. destruct (kfree_spec k l a Hf Hok Hnin Hl) as (m' & Hrun & Hf' & _).
  eexists. split; [exact Hrun|]. split; [apply mem_only_set|done].
Qed.

Lemma freeproc_eq p k l :
  let x := ps_proc (k_ps k) p in
  free_pages k l -> KmemLock ∉ k_held k -> p_pagetable x = 0 ->
  (p_trapframe x <> 0 -> page_ok (p_trapframe x) /\ p_trapframe x ∉ l) ->
  (p_alarm_tf x <> 0 -> page_ok (p_alarm_tf x) /\ p_alarm_tf x ∉ free_opt (p_trapframe x) l) ->
  exists ps' m' f', freeproc p k = Ret () (set_ps ps' (set_freelist f' (set_mem m' k))) /\ proc_only p freed (k_ps k) ps' /\
    free_pages (set_ps ps' (set_freelist f' (set_mem m' k))) (free_opt (p_alarm_tf x) (free_opt (p_trapframe x) l)).
Proof.
  intros x Hf Hl Hpt Htf Hatf. unfold freeproc. kpure. fold x.
  destruct (kfree_opt k l (p_trapframe x) Hf Htf Hl) as (k1 & Hr1 & (m1 & f1 & ->) & Hf1). erewrite bind_eq by exact Hr1. cbv beta.
  kpure. ksimp. fold x.
  destruct (kfree_opt _ _ (p_alarm_tf x) Hf1 Hatf) as (k2 & Hr2 & (m2 & f2 & ->) & Hf2); [by ksimp|]. erewrite bind_eq by exact Hr2. cbv beta.
  do 3 kpure. ksimp. rewrite ps_proc_upd, decide_True by done. cbn [set_trapframe p_pagetable]. fold x. rewrite Hpt. cbn [truthy Z.eqb negb when].
  do 13 (kpure; ksimp). eexists _, m2, f2. split; [unfold setp, modify_ps, modify; ksimp; reflexivity|]. split.
  - proc_chain.
  - eapply free_pages_ext; [| |exact Hf2]; by ksimp.
Qed.

(** ** [allocproc] *)

(** [p] is the first unused slot. *)
Definition first_unused (p : Z) (ps : procsys) : Prop :=
  0 <= p < NPROC /\ p_state (ps_proc ps p) = UNUSED /\ forall q, 0 <= q < p -> p_state (ps_proc ps q) <> UNUSED.

Lemma allocproc_loop_skip n i p k :
  no_proc_lock k -> i <= p < i + Z.of_nat n -> p_state (ps_proc (k_ps k) p) = UNUSED ->
  (forall q, i <= q < p -> p_state (ps_proc (k_ps k) q) <> UNUSED) ->
  allocproc_loop n i k = allocproc_found p (set_held (ProcLock p :: k_held k) k).
Proof.
  intros Hl. revert i. induction n as [|n IH]; intros i Hi Hu Hq; [lia|]. cbn [allocproc_loop].
  erewrite bind_eq by (apply acquire_eq, Hl). cbv beta. kpure. ksimp. unfold same_state.
  destruct (decide (i = p)) as [->|Hne]; [by rewrite Hu, bool_decide_true|].
  rewrite bool_decide_false by (apply Hq; lia). erewrite bind_eq by (by apply release_eq; [by ksimp|apply Hl]). cbv beta. ksimp.
  apply IH; [lia|done|]. intros q Hq'. apply Hq. lia.
Qed.

Lemma allocproc_first p k :
  no_proc_lock k -> first_unused p (k_ps k) -> allocproc k = allocproc_found p (set_held (ProcLock p :: k_held k) k).
Proof.
  intros Hl (Hp & Hu & Hq). unfold allocproc. apply allocproc_loop_skip; try done.
Qed.

Lemma allocpid_eq k :
  PidLock ∉ k_held k -> allocpid k = Ret (ps_nextpid (k_ps k)) (set_ps (ps_set_nextpid (s32 (ps_nextpid (k_ps k) + 1)) (k_ps k)) k).
Proof.
  intros Hl. unfold allocpid. erewrite bind_eq by (by apply acquire_eq). cbv beta. kpure. kpure. ksimp.
  erewrite bind_eq by (by apply (release_eq _ (k_held k))). cbv beta. by ksimp.
Qed.

(** What a failed [allocproc] leaves in the slot. *)
Definition fails_with (p atf : Z) (k k' : kernel) : Prop :=
  (forall q, q <> p -> ps_proc (k_ps k') q = ps_proc (k_ps k) q) /\
  p_state (ps_proc (k_ps k') p) = UNUSED /\ p_trapframe (ps_proc (k_ps k') p) = 0 /\ p_pagetable (ps_proc (k_ps k') p) = 0 /\
  p_alarm_tf (ps_proc (k_ps k') p) = atf /\ k_held k' = k_held k.

(** The error exit: [freeproc], [release], [return 0]. *)
Lemma alloc_fail_exit p x k0 k l :
  k_held k = ProcLock p :: k_held k0 -> no_proc_lock k0 -> KmemLock ∉ k_held k0 ->
  ps_proc (k_ps k) p = x -> (forall q, q <> p -> ps_proc (k_ps k) q = ps_proc (k_ps k0) q) ->
  free_pages k l -> p_pagetable x = 0 ->
  (p_trapframe x <> 0 -> page_ok (p_trapframe x) /\ p_trapframe x ∉ l) ->
  (p_alarm_tf x <> 0 -> page_ok (p_alarm_tf x) /\ p_alarm_tf x ∉ free_opt (p_trapframe x) l) ->
  exists k', (freeproc p;; release (ProcLock p);; mret (None : option Z)) k = Ret None k' /\ fails_with p (p_alarm_tf x) k0 k' /\
    free_pages k' (free_opt (p_alarm_tf x) (free_opt (p_trapframe x) l)).
Proof.
  intros Hh Hl Hkl Hx Ho Hf Hpt Htf Hatf. subst x.
  destruct (freeproc_eq p k l Hf) as (ps' & m' & f' & Hrun & (_ & Hp & Hq) & Hf'); try done.
  { rewrite Hh. intros [[=]|?]%elem_of_cons. done. }
  erewrite bind_eq by exact Hrun. cbv beta. erewrite bind_eq by (apply (release_eq _ (k_held k0)); [by ksimp|apply Hl]). cbv beta.
  eexists. split; [reflexivity|]. split.
  - unfold fails_with. ksimp. rewrite Hp. split_and!; try done. intros q Hne. by rewrite Hq, Ho.
  - eapply free_pages_ext; [| |exact Hf']; by ksimp.
Qed.

(** Out of memory for the trap frame. *)
Lemma allocproc_no_memory p k :
  first_unused p (k_ps k) -> k_held k = [] -> free_pages k [] ->
  let x := ps_proc (k_ps k) p in
  p_pagetable x = 0 -> (p_alarm_tf x <> 0 -> page_ok (p_alarm_tf x)) ->
  exists k', allocproc k = Ret None k' /\ fails_with p (p_alarm_tf x) k k' /\ free_pages k' (free_opt (p_alarm_tf x) []).
Proof.
  intros Hu Hh Hf x Hpt Hatf. assert (no_proc_lock k) as Hl by (intros i; rewrite Hh; apply not_elem_of_nil).
  rewrite (allocproc_first p) by done. rewrite Hh. unfold allocproc_found.
  erewrite bind_eq by (apply allocpid_eq; ksimp; by intros [=]%list_elem_of_singleton). cbv beta. kpure. kpure. ksimp.
  erewrite bind_eq.
  2:{ apply kalloc_nil_spec; [|ksimp; by intros [=]%list_elem_of_singleton]. eapply free_pages_ext; [| |exact Hf]; by ksimp. }
  cbv beta. kpure. ksimp. change (0 =? 0) with true. cbv iota.
  apply (alloc_fail_exit p (set_trapframe 0 (set_state USED (set_pid (ps_nextpid (k_ps k)) x))) k _ []); ksimp.
  - by rewrite Hh.
  - done.
  - rewrite Hh. apply not_elem_of_nil.
  - by rewrite !ps_proc_upd_eq.
  - intros q Hq. by rewrite !ps_proc_upd_ne by done.
  - eapply free_pages_ext; [| |exact Hf]; by ksimp.
  - done.
  - done.
  - intros Ha. split; [by apply Hatf|]. apply not_elem_of_nil.
Qed.

(** Two pages left: none for the page table. *)
Lemma allocproc_two_pages p k a b :
  first_unused p (k_ps k) -> k_held k = [] -> free_pages k [a; b] -> p_pagetable (ps_proc (k_ps k) p) = 0 ->
  exists k', allocproc k = Ret None k' /\ fails_with p b k k' /\ free_pages k' [b; a].
Proof.
  intros Hu Hh Hf Hpt. assert (no_proc_lock k) as Hl by (intros i; rewrite Hh; apply not_elem_of_nil).
  assert (Hab : page_ok a /\ page_ok b /\ a <> b).
  { pose proof (fp_ok _ _ Hf) as Ho. pose proof (fp_nodup _ _ Hf) as Hn. rewrite !Forall_cons in Ho. apply NoDup_cons in Hn as [Hn _].
    split_and!; try apply Ho. intros ->. apply Hn. set_solver. }
  destruct Hab as (Ha & Hb & Hne). pose proof (page_ok_range a Ha). pose proof (page_ok_range b Hb).
  assert (forall k', k_held k' = [ProcLock p] -> KmemLock ∉ k_held k') as Hkm by (intros k' ->; by intros [=]%list_elem_of_singleton).
  rewrite (allocproc_first p) by done. rewrite Hh. unfold allocproc_found.
  erewrite bind_eq by (apply allocpid_eq; ksimp; by intros [=]%list_elem_of_singleton). cbv beta. kpure. kpure. ksimp.
  match goal with |- context [(kalloc ≫= _) ?s] => destruct (kalloc_cons_spec s a [b]) as (n1 & Hr1 & Hf1 & _) end;
    [eapply free_pages_ext; [| |exact Hf]; by ksimp|by apply Hkm|].
  erewrite bind_eq by exact Hr1. cbv beta. ksimp. kpure. ksimp. rewrite (proj2 (Z.eqb_neq a 0)) by lia.
  match goal with |- context [(kalloc ≫= _) ?s] => destruct (kalloc_cons_spec s b []) as (n2 & Hr2 & Hf2 & _) end;
    [eapply free_pages_ext; [| |exact Hf1]; by ksimp|by apply Hkm|].
  erewrite bind_eq by exact Hr2. cbv beta. ksimp. kpure. ksimp. rewrite (proj2 (Z.eqb_neq b 0)) by lia.
  match goal with |- context [(proc_pagetable p ≫= _) ?s] => assert (proc_pagetable p s = Ret 0 s) as Hpp; [set (k2 := s)|] end.
  { unfold proc_pagetable, uvmcreate. rewrite (bind_eq _ _ k2 0 k2); [done|]. rewrite (bind_eq _ _ k2 0 k2); [done|].
    apply kalloc_nil_spec; [eapply free_pages_ext; [| |exact Hf2]; unfold k2; by ksimp|by apply Hkm]. }
  erewrite bind_eq by exact Hpp. cbv beta. kpure. ksimp. change (0 =? 0) with true. cbv iota.
  assert (free_opt b (free_opt a []) = [b; a]) as <- by (unfold free_opt; by rewrite !(proj2 (truthy_true _)) by lia).
  apply (alloc_fail_exit p (set_pagetable 0 (set_alarm_tf b (set_trapframe a (set_state USED (set_pid (ps_nextpid (k_ps k))
    (ps_proc (k_ps k) p)))))) k _ []); ksimp.
  - by rewrite Hh.
  - done.
  - rewrite Hh. apply not_elem_of_nil.
  - by rewrite !ps_proc_upd_eq.
  - intros q Hq. by rewrite !ps_proc_upd_ne by done.
  - eapply free_pages_ext; [| |exact Hf2]; by ksimp.
  - done.
  - intros _. split; [done|apply not_elem_of_nil].
  - intros _. split; [done|]. simpl. unfold free_opt. rewrite (proj2 (truthy_true _)) by lia. set_solver.
Qed.

Lemma first_unused_fails p b k k' : first_unused p (k_ps k) -> fails_with p b k k' -> first_unused p (k_ps k').
Proof.
  intros (Hp & Hu & Hq) (Ho & Hs & _). split; [done|]. split; [done|]. intros q Hq'. rewrite Ho by lia. by apply Hq.
Qed.

(** C21: [freeproc] leaves [p->alarm_tf] pointing to the page it freed, and
    the error exits of [allocproc] call [freeproc] on a slot whose stale
    [alarm_tf] was not yet overwritten. With two free pages left: a first
    [allocproc] fails and gives them back; [kalloc] hands both out to other
    users; a second [allocproc] fails too and frees one of them under its
    user, so that [kalloc] hands it out a second time. *)
Theorem failed_allocproc_frees_page_in_use p k a b :
  first_unused p (k_ps k) -> k_held k = [] -> free_pages k [a; b] -> p_pagetable (ps_proc (k_ps k) p) = 0 ->
  exists k1 k2 k3 k4 k5,
    allocproc k = Ret None k1 /\ kalloc k1 = Ret b k2 /\ kalloc k2 = Ret a k3 /\
    allocproc k3 = Ret None k4 /\ kalloc k4 = Ret b k5.
Proof.
  intros Hu Hh Hf Hpt. destruct (allocproc_two_pages p k a b Hu Hh Hf Hpt) as (k1 & Hr1 & Hfail & Hf1).
  pose proof (first_unused_fails _ _ _ _ Hu Hfail) as Hu1. destruct Hfail as (_ & _ & _ & Hpt1 & Hatf & Hh1). rewrite Hh in Hh1.
  assert (page_ok b) as Hb by (eapply free_pages_nonzero; [exact Hf1|apply list_elem_of_here]). pose proof (page_ok_range b Hb).
  assert (forall k', k_held k' = [] -> KmemLock ∉ k_held k') as Hkm by (intros k' ->; apply not_elem_of_nil).
  destruct (kalloc_cons_spec k1 b [a] Hf1 (Hkm _ Hh1)) as (n2 & Hr2 & Hf2 & _).
  destruct (kalloc_cons_spec _ a [] Hf2 (Hkm _ Hh1)) as (n3 & Hr3 & Hf3 & _).
  match type of Hf3 with free_pages ?s _ => destruct (allocproc_no_memory p s Hu1 Hh1 Hf3 Hpt1) as (k4 & Hr4 & Hfail4 & Hf4) end;
    [ksimp; by rewrite Hatf|].
  ksimp in Hf4. rewrite Hatf in Hf4. unfold free_opt in Hf4. rewrite (proj2 (truthy_true b)) in Hf4 by lia.
  destruct Hfail4 as (_ & _ & _ & _ & _ & Hh4).
  destruct (kalloc_cons_spec k4 b [] Hf4) as (n5 & Hr5 & _); [rewrite Hh4; by apply Hkm|].
  eexists k1, _, _, k4, _. split_and!; [exact Hr1|exact Hr2|exact Hr3|exact Hr4|exact Hr5].
Qed.

End proofs.

(** ** [kill] *)

Definition killed_proc (x : proc) : proc :=
  let y := set_killed 1 x in if same_state (p_state x) SLEEPING then set_state RUNNABLE y else y.

Lemma kill_loop_eq n i pid k :
  no_proc_lock k ->
  (exists p ps', kill_loop n i pid k = Ret 0 (set_ps ps' k) /\ i <= p < i + Z.of_nat n /\ p_pid (ps_proc (k_ps k) p) = pid /\
     (forall q, i <= q < p -> p_pid (ps_proc (k_ps k) q) <> pid) /\ proc_only p killed_proc (k_ps k) ps') \/
  (kill_loop n i pid k = Ret (-1) k /\ forall q, i <= q < i + Z.of_nat n -> p_pid (ps_proc (k_ps k) q) <> pid).
Proof.
  intros Hl. revert i. induction n as [|n IH]; intros i; cbn [kill_loop]; [right; split; [done|intros; lia]|].
  erewrite bind_eq by (apply acquire_eq, Hl). cbv beta. kpure. ksimp. destruct (Z.eqb_spec (p_pid (ps_proc (k_ps k) i)) pid) as [E|E].
  - left. exists i. kpure. kpure. ksimp. rewrite ps_proc_upd_eq. cbn [set_killed p_state].
    destruct (same_state (p_state (ps_proc (k_ps k) i)) SLEEPING) eqn:Es; cbn [when]; kpure; ksimp;
      erewrite bind_eq by (apply (release_eq _ (k_held k)); [by ksimp|apply Hl]); cbv beta; ksimp;
      (eexists; split; [reflexivity|]); (split; [lia|]); (split; [done|]); (split; [intros; lia|]).
    + split; [done|]. split; [rewrite !ps_proc_upd_eq; unfold killed_proc; by rewrite Es|]. intros q Hq. by rewrite !ps_proc_upd_ne.
    + split; [done|]. split; [rewrite !ps_proc_upd_eq; unfold killed_proc; by rewrite Es|]. intros q Hq. by rewrite !ps_proc_upd_ne.
  - erewrite bind_eq by (apply (release_eq _ (k_held k)); [by ksimp|apply Hl]). cbv beta. ksimp.
    destruct (IH (i + 1)) as [(p & ps' & H1 & H2 & H3 & H4 & H5)|(H1 & H2)]; [left; exists p, ps'|right]; (split; [done|]).
    + split; [lia|]. split; [done|]. split; [|done]. intros q Hq. destruct (decide (q = i)) as [->|]; [done|]. apply H4. lia.
    + intros q Hq. destruct (decide (q = i)) as [->|]; [done|]. apply H2. lia.
Qed.

(** [kill] marks the first process with the given id as killed and, if it
    sleeps, makes it runnable whatever it waits for; no other process changes.
    Without such a process it returns -1 and changes nothing. *)
Theorem kill_marks_and_wakes pid k :
  no_proc_lock k ->
  (exists p ps', kill pid k = Ret 0 (set_ps ps' k) /\ 0 <= p < NPROC /\ p_pid (ps_proc (k_ps k) p) = pid /\
     (forall q, 0 <= q < p -> p_pid (ps_proc (k_ps k) q) <> pid) /\ proc_only p killed_proc (k_ps k) ps') \/
  (kill pid k = Ret (-1) k /\ forall q, 0 <= q < NPROC -> p_pid (ps_proc (k_ps k) q) <> pid).
Proof. intros Hl. exact (kill_loop_eq (Z.to_nat NPROC) 0 pid k Hl). Qed.

Lemma kill_marks_and_wakes_witness :
  exists p ps', kill 0 boot = Ret 0 (set_ps ps' boot) /\ proc_only p killed_proc (k_ps boot) ps'.
Proof.
  destruct (kill_marks_and_wakes 0 boot) as [(p & ps' & H1 & _ & _ & _ & H2)|[_ H]].
  - intros i. apply not_elem_of_nil.
  - exists p, ps'. split; [exact H1|exact H2].
  - destruct (H 0); [vm_compute; split; [discriminate|reflexivity]|reflexivity].
Defined.

(** ** Instances *)

#[local] Existing Instances demo_layout demo_layout_ok.

(** The machine after fourteen allocations: two pages are left. *)
Fixpoint kallocs (n : nat) : K unit :=
  match n with
  | O => mret ()
  | S n' => _ ← kalloc; kallocs n'
  end.

Lemma kallocs_spec n k l :
  free_pages k l -> k_held k = [] -> exists k', kallocs n k = Ret () k' /\ free_pages k' (drop n l) /\ mem_only k k'.
Proof.
  revert k l. induction n as [|n IH]; intros k l Hf Hh; [by exists k|]. cbn [kallocs].
  assert (KmemLock ∉ k_held k) as Hl by (rewrite Hh; apply not_elem_of_nil). destruct l as [|a l].
  - erewrite bind_eq by (by apply kalloc_nil_spec). destruct (IH k [] Hf Hh) as (k' & Hr & Hf' & Hm).
    exists k'. split_and!; [done|by rewrite drop_nil in Hf'|done].
  - destruct (kalloc_cons_spec k a l Hf Hl) as (nx & Hrun & Hf' & _). erewrite bind_eq by exact Hrun. cbv beta.
    destruct (IH _ l Hf' Hh) as (k' & Hr & Hf'' & Hm). exists k'. split_and!; [done|done|]. etransitivity; [apply mem_only_set|done].
Qed.

Lemma failed_allocproc_frees_page_in_use_witness :
  exists k b k1 k2 k3 k4 k5, page_ok b /\ allocproc k = Ret None k1 /\ kalloc k1 = Ret b k2 /\ kalloc k2 = Ret (PHYSTOP - 15 * PGSIZE) k3 /\
    allocproc k3 = Ret None k4 /\ kalloc k4 = Ret b k5.
Proof.
  destruct (kinit_spec (L := demo_layout)) as (m & f & Hrun & Hf).
  destruct (kallocs_spec 14 _ _ Hf eq_refl) as (k & _ & Hf' & (m' & f' & ->)).
  match type of Hf' with free_pages ?s ?l => change l with [PHYSTOP - 15 * PGSIZE; PHYSTOP - 16 * PGSIZE] in Hf'; exists s end.
  exists (PHYSTOP - 16 * PGSIZE). assert (page_ok (PHYSTOP - 16 * PGSIZE)) as Hok by (eapply free_pages_nonzero; [exact Hf'|apply list_elem_of_further, list_elem_of_here]).
  match type of Hf' with free_pages ?s [?a; ?b] =>
    destruct (failed_allocproc_frees_page_in_use 0 s a b) as (k1 & k2 & k3 & k4 & k5 & H1 & H2 & H3 & H4 & H5) end;
    [|reflexivity|exact Hf'|reflexivity|].
  { split; [vm_compute; split; [discriminate|reflexivity]|]. split; [reflexivity|]. intros q Hq. lia. }
  exists k1, k2, k3, k4, k5. split; [exact Hok|]. split; [exact H1|]. split; [exact H2|]. split; [exact H3|]. split; [exact H4|exact H5].
Defined.
