(* ===== verification/BioProps.v ===== *)
(** * The buffer cache implements a disk of blocks

    The abstract disk of [ablocks]: the blocks as its users see them, the
    blocks on the device, and the blocks in use. Programs over it are lists of
    [bop]; [brun] runs one with the cache, keeping the buffer of each block in
    use. *)

From S2P Require Import Prelude Riscv Monad State Kstring Dlist Kalloc Vm Proc ProcInv Sleeplock Bio BioInv BioSpec BioClient Log LogInv LogProps.
#[local] Open Scope Z_scope.

#[local] Opaque bread bwrite brelse.

Inductive bop :=
  | BRead (n : Z)
  | BPut (n : Z) (d : list Z)
  | BWrite (n : Z)
  | BRelease (n : Z).

Record ablocks := mkablocks {
  ab_view : Z -> list Z;
  ab_disk : Z -> list Z;
  ab_open : list Z
}.

(** A step and the data it reads. A block is read by one user at a time, 30
    blocks at most are in use, and a block is written before it is released. *)
Definition astep (o : bop) (A : ablocks) : option (list (list Z) * ablocks) :=
  match o with
  | BRead n =>
      if bool_decide (n ∉ ab_open A) && (Z.of_nat (length (ab_open A)) <? NBUF)
      then Some ([ab_view A n], mkablocks (ab_view A) (ab_disk A) (n :: ab_open A)) else None
  | BPut n d =>
      if bool_decide (n ∈ ab_open A) then Some ([], mkablocks (<[n := d]> (ab_view A)) (ab_disk A) (ab_open A)) else None
  | BWrite n =>
      if bool_decide (n ∈ ab_open A) then Some ([], mkablocks (ab_view A) (<[n := ab_view A n]> (ab_disk A)) (ab_open A)) else None
  | BRelease n =>
      if bool_decide (n ∈ ab_open A) && bool_decide (ab_view A n = ab_disk A n)
      then Some ([], mkablocks (ab_view A) (ab_disk A) (filter (fun m => m <> n) (ab_open A))) else None
  end.

Fixpoint arun (ops : list bop) (A : ablocks) : option (list (list Z) * ablocks) :=
  match ops with
  | [] => Some ([], A)
  | o :: ops' =>
      match astep o A with
      | Some (out, A1) => match arun ops' A1 with Some (out', A2) => Some (out ++ out', A2) | None => None end
      | None => None
      end
  end.

(** The buffer of block [n]. *)
Fixpoint buf_of (n : Z) (H : list (Z * Z)) : Z :=
  match H with
  | [] => 0
  | (m, b) :: H' => if m =? n then b else buf_of n H'
  end.

Fixpoint brun {W : Wakeups} {D : Disk} (dev : Z) (ops : list bop) (H : list (Z * Z)) : K (list (list Z)) :=
  match ops with
  | [] => mret []
  | BRead n :: ops' =>
      b ← bread dev n;
      d ← getb b b_data;
      r ← brun dev ops' ((n, b) :: H);
      mret (d :: r)
  | BPut n d :: ops' => setb (buf_of n H) (fun x => set_b_data d x);; brun dev ops' H
  | BWrite n :: ops' => bwrite (buf_of n H);; brun dev ops' H
  | BRelease n :: ops' => brelse (buf_of n H);; brun dev ops' (filter (fun h => h.1 <> n) H)
  end.

Lemma buf_of_in n H : n ∈ H.*1 -> (n, buf_of n H) ∈ H.
Proof.
  induction H as [|[m b] H IH]; simpl; [by intros ?%elem_of_nil|]. intros [->|Hn]%elem_of_cons.
  - rewrite Z.eqb_refl. apply list_elem_of_here.
  - destruct (Z.eqb_spec m n) as [->|]; [apply list_elem_of_here|]. by apply list_elem_of_further, IH.
Qed.

Lemma filter_fst n (H : list (Z * Z)) : (filter (fun h => h.1 <> n) H).*1 = filter (fun m => m <> n) H.*1.
Proof.
  induction H as [|[m b] H IH]; [done|]. rewrite filter_cons, fmap_cons, filter_cons. cbn [fst].
  destruct (decide (m <> n)); [|exact IH]. rewrite fmap_cons. by rewrite IH.
Qed.

Lemma filter_length_ne (n : Z) l : NoDup l -> n ∈ l -> (length (filter (fun m => m <> n) l) + 1 = length l)%nat.
Proof.
  induction 1 as [|m l Hm Hnd IH]; [by intros ?%elem_of_nil|]. rewrite filter_cons. intros [->|Hn]%elem_of_cons.
  - rewrite decide_False by naive_solver. rewrite filter_all; [simpl; lia|]. apply Forall_forall. intros x Hx ->. done.
  - rewrite decide_True by (intros ->; done). simpl. by rewrite IH.
Qed.

Section refine.
Context {W : Wakeups} {D : Disk} {DOk : DiskOk D} (dev : Z) (Hdev : dev <> 0) (p pid : Z) (k0 : kernel).

(** The cache as a store of blocks, when it is the abstract disk [A]. *)
Definition store_of (A : ablocks) : bstore :=
  mkbstore (ab_view A) (fun n => if decide (n ∈ ab_open A) then 1 else 0)
    (fun n => if decide (n ∈ ab_open A) then mksleeplock 1 pid else unlocked) (ab_disk A) (NBUF - Z.of_nat (length (ab_open A))).

Ltac store_ext :=
  unfold bs_eq, store_of; simpl; split_and!; intros; rewrite ?fn_insert_case; repeat case_decide; subst;
  rewrite ?list_elem_of_filter, ?elem_of_cons in *; unfold is0; simpl; try done; try tauto; try lia.

Lemma astep_read lg w A H k n :
  at_k dev p pid k0 lg w (store_of A) H k -> H.*1 = ab_open A -> n ∉ ab_open A -> Z.of_nat (length (ab_open A)) < NBUF ->
  wp (bread dev n) (fun b => at_k dev p pid k0 lg w (store_of (mkablocks (ab_view A) (ab_disk A) (n :: ab_open A))) ((n, b) :: H)) k.
Proof.
  intros Hat HH Hn Hl. eapply wp_mono.
  - apply (at_k_bread dev Hdev p pid k0 lg w (store_of A) H k n Hat); simpl; rewrite ?decide_False by done; [by rewrite HH|done|lia|lia].
  - intros b k' Hat'. eapply at_k_ext; [|exact Hat']. store_ext.
Qed.

Lemma astep_release lg w A H k n :
  at_k dev p pid k0 lg w (store_of A) H k -> H.*1 = ab_open A -> NoDup (ab_open A) -> n ∈ ab_open A -> ab_view A n = ab_disk A n ->
  wp (brelse (buf_of n H)) (fun _ => at_k dev p pid k0 lg w
    (store_of (mkablocks (ab_view A) (ab_disk A) (filter (fun m => m <> n) (ab_open A)))) (filter (fun h => h.1 <> n) H)) k.
Proof.
  intros Hat HH Hnd Hn Hcl. eapply wp_mono.
  - apply (at_k_brelse dev Hdev p pid k0 lg w (store_of A) H (filter (fun h => h.1 <> n) H) k n (buf_of n H) Hat);
      simpl; rewrite ?decide_True by done; [apply buf_of_in; by rewrite HH|done|done|].
    intros x [? ?]%list_elem_of_filter. done.
  - cbv beta; intros _ k' Hat'. eapply at_k_ext; [|exact Hat']. pose proof (filter_length_ne n _ Hnd Hn).
    store_ext.
Qed.

Lemma brun_refines ops lg w A H k out A' :
  at_k dev p pid k0 lg w (store_of A) H k -> H.*1 = ab_open A -> NoDup (ab_open A) -> arun ops A = Some (out, A') ->
  wp (brun dev ops H) (fun r k' => r = out /\ exists H' w',
    at_k dev p pid k0 lg w' (store_of A') H' k' /\ H'.*1 = ab_open A' /\ NoDup (ab_open A')) k.
Proof.
  revert w A H k out. induction ops as [|o ops IH]; intros w A H k out Hat HH Hnd; cbn [arun].
  { intros [= <- <-]. apply wp_ret. split; [done|]. by exists H, w. }
  destruct (astep o A) as [[out1 A1]|] eqn:Ea; [|done]. destruct (arun ops A1) as [[out2 A2]|] eqn:Er; [|done].
  intros [= <- <-]. destruct o as [n|n d|n|n]; cbn [astep] in Ea; cbn [brun].
  - destruct (bool_decide_reflect (n ∉ ab_open A)) as [Hn|]; [|done]. destruct (Z.ltb_spec (Z.of_nat (length (ab_open A))) NBUF); [|done].
    injection Ea as <- <-. apply wp_bind. eapply wp_mono; [by apply astep_read|]. cbv beta. intros b k1 H1.
    apply wp_bind. eapply wp_eq; [eapply at_k_data; [exact Hdev|exact H1|apply list_elem_of_here]|].
    apply wp_bind. eapply wp_mono; [eapply IH; [exact H1|rewrite fmap_cons; cbn [fst ab_open]; by rewrite HH|by apply NoDup_cons|exact Er]|].
    intros r k2 [-> Hx]. apply wp_ret. done.
  - destruct (bool_decide_reflect (n ∈ ab_open A)) as [Hn|]; [|done]. injection Ea as <- <-.
    apply wp_bind. eapply wp_mono; [eapply (at_k_setdata dev Hdev _ _ _ _ _ _ _ _ n _ (fun _ => d) Hat), buf_of_in; by rewrite HH|].
    cbv beta. intros _ k1 H1. eapply (IH _ (mkablocks (<[n := d]> (ab_view A)) (ab_disk A) (ab_open A)) H k1 out2); [eapply at_k_ext; [|exact H1]|exact HH|exact Hnd|exact Er].
    store_ext.
  - destruct (bool_decide_reflect (n ∈ ab_open A)) as [Hn|]; [|done]. injection Ea as <- <-.
    apply wp_bind. eapply wp_mono; [eapply (at_k_bwrite dev Hdev _ _ _ _ _ _ _ _ n _ Hat); [apply buf_of_in; by rewrite HH|simpl; by rewrite decide_True]|].
    cbv beta. intros _ k1 H1. eapply (IH _ (mkablocks (ab_view A) (<[n := ab_view A n]> (ab_disk A)) (ab_open A)) H k1 out2);
      [eapply at_k_ext; [|exact H1]|exact HH|exact Hnd|exact Er]. store_ext.
  - destruct (bool_decide_reflect (n ∈ ab_open A)) as [Hn|]; [|done]. destruct (bool_decide_reflect (ab_view A n = ab_disk A n)) as [Hc|]; [|done].
    injection Ea as <- <-. apply wp_bind. eapply wp_mono; [by apply astep_release|]. cbv beta. intros _ k1 H1.
    eapply IH; [exact H1|cbn [ab_open]; by rewrite filter_fst, HH|by apply NoDup_filter|exact Er].
Qed.

(** A buffer in use: it holds a block of [A] that is in use, locked by the
    process. *)
Definition in_use (s : fssys) (A : ablocks) (b : Z) : Prop :=
  exists n, n ∈ ab_open A /\ caches s dev n b /\ b_refcnt (fs_buf s b) = 1 /\ b_lock (fs_buf s b) = mksleeplock 1 pid /\
    b_data (fs_buf s b) = ab_view A n.

Definition released (s : fssys) (b : Z) : Prop := b_refcnt (fs_buf s b) = 0 /\ b_lock (fs_buf s b) = unlocked.

Lemma handle_in_use lg w A H k n b :
  at_k dev p pid k0 lg w (store_of A) H k -> H.*1 = ab_open A -> (n, b) ∈ H -> in_use (k_fs k) A b.
Proof.
  intros [[[lru Hi] Hrel] _ _ _ _ Hhd _] HH Hin. destruct (Hhd n b Hin) as (Hc & Hv & _).
  assert (n ∈ ab_open A) as Hn by (rewrite <- HH; apply list_elem_of_fmap; by exists (n, b)).
  exists n. destruct (br_cached _ _ _ Hrel n b Hc) as [Hr Hl]. simpl in Hr, Hl. rewrite decide_True in Hr by done. rewrite decide_True in Hl by done.
  split_and!; try done. rewrite <- (bview_cached (k_fs k) dev n b (proj2 Hi) Hdev Hc Hv). apply (br_view _ _ _ Hrel).
Qed.

(** By counting: the buffers that are not free are those of the blocks in use. *)
Lemma store_buffers lg w A H k b :
  at_k dev p pid k0 lg w (store_of A) H k -> H.*1 = ab_open A -> NoDup (ab_open A) -> inb b ->
  in_use (k_fs k) A b \/ released (k_fs k) b.
Proof.
  intros Hat HH Hnd Hb. pose proof Hat as [[_ Hrel] _ _ _ _ Hhd _].
  destruct (decide (b ∈ H.*2)) as [([n b'] & -> & Hin)%list_elem_of_fmap|Hnot]; [left; by eapply handle_in_use|right].
  assert (forall n c, (n, c) ∈ H -> caches (k_fs k) dev n c /\ 1 <= b_refcnt (fs_buf (k_fs k) c)) as Hc.
  { intros n c Hin. destruct (Hhd n c Hin) as (? & _ & ?). done. }
  destruct (decide (b_refcnt (fs_buf (k_fs k) b) = 0)) as [E|E]; [split; [done|by apply (br_quiet _ _ _ Hrel)]|exfalso].
  set (U := filter (fun b => b_refcnt (fs_buf (k_fs k) b) = 0) (seqZ 0 NBUF)).
  assert (NoDup H.*2) as Hnd2.
  { rewrite <- HH in Hnd. clear - Hnd Hc. induction H as [|[n c] H IH]; [constructor|]. rewrite !fmap_cons in *. cbn [fst snd] in *.
    apply NoDup_cons in Hnd as [Hn Hnd]. apply NoDup_cons. split; [|apply IH; [done|intros; by apply Hc, list_elem_of_further]].
    intros ([m c'] & E & Hin)%list_elem_of_fmap. cbn [snd] in E. subst c'. apply Hn, list_elem_of_fmap. exists (m, c). split; [cbn [fst]|done].
    destruct (Hc n c ltac:(apply list_elem_of_here)) as [(_ & _ & <-) _], (Hc m c ltac:(by apply list_elem_of_further)) as [(_ & _ & <-) _]. done. }
  assert ((b :: H.*2) ++ U ⊆+ seqZ 0 NBUF) as Hsub%submseteq_length.
  { apply NoDup_submseteq.
    - apply NoDup_app. split; [by apply NoDup_cons|]. split; [|apply NoDup_filter, NoDup_seqZ].
      intros c Hin [Hz _]%list_elem_of_filter. apply elem_of_cons in Hin as [-> |([n c'] & -> & Hin)%list_elem_of_fmap]; [done|].
      destruct (Hc n c' Hin) as [_ ?]. cbn [snd] in *. lia.
    - intros c [[-> |([n c'] & -> & Hin)%list_elem_of_fmap]%elem_of_cons|[_ Hin]%list_elem_of_filter]%elem_of_app; [by apply inb_seqZ| |done].
      apply inb_seqZ. destruct (Hc n c' Hin) as [(? & _) _]. done. }
  pose proof (br_free _ _ _ Hrel) as Hfree. unfold nfree in Hfree. fold U in Hfree. simpl in Hfree.
  rewrite length_app, length_seqZ in Hsub. cbn [length] in Hsub. rewrite length_fmap in Hsub.
  rewrite <- HH, length_fmap in Hfree. unfold NBUF in *. lia.
Qed.

End refine.

(** C8: The buffer cache refines the disk of blocks. A program of reads,
    stores, writes and releases is allowed by the abstract disk when a block
    is read by one user at a time, 30 blocks at most are in use and a block is
    written before it is released; every such program runs on the cache
    without panic and without waiting, and returns the data the abstract disk
    returns. Afterwards the blocks, cached or not, and the device's blocks are
    the abstract ones, the list of buffers is well formed, every block in use
    has a buffer that holds its data and is locked by the process, and every
    other buffer is released: all of them when the program has released its
    blocks. *)
Theorem bcache_refines_blocks {W : Wakeups} {D : Disk} {DOk : DiskOk D} dev p pid k blocks ops out A' :
  dev <> 0 -> bcache dev (k_fs k) (store_of pid (mkablocks blocks blocks [])) -> k_held k = [] -> running k p pid ->
  arun ops (mkablocks blocks blocks []) = Some (out, A') ->
  wp (brun dev ops []) (fun r k' => r = out /\ (forall n, bview (k_fs k') dev n = ab_view A' n) /\
    (forall n, fs_disk (k_fs k') n = ab_disk A' n) /\ k_held k' = [] /\ (exists lru, bcache_inv (k_fs k') lru) /\
    (forall n, n ∈ ab_open A' -> exists b, caches (k_fs k') dev n b /\ in_use dev pid (k_fs k') A' b) /\
    (forall b, inb b -> in_use dev pid (k_fs k') A' b \/ released (k_fs k') b) /\
    (ab_open A' = [] -> forall b, inb b -> released (k_fs k') b)) k.
Proof.
  intros Hdev Hb Hh Hr Hrun. eapply wp_mono.
  - eapply (brun_refines dev Hdev p pid k ops (fs_log (k_fs k)) (fs_writes (k_fs k)) (mkablocks blocks blocks []) []); [|done|constructor|exact Hrun].
    split; try done. by intros ? ? ?%elem_of_nil.
  - intros r k' (-> & H' & w' & Hat & HH & Hnd). pose proof Hat as [[Hi Hrel] _ _ Hh' _ Hhd _].
    assert (forall b, inb b -> in_use dev pid (k_fs k') A' b \/ released (k_fs k') b) as Hall by (intros b; by eapply store_buffers).
    split_and!; try done.
    + intros n. apply (br_view _ _ _ Hrel).
    + intros n. apply (br_disk _ _ _ Hrel).
    + rewrite <- HH. intros n ([n' b] & -> & Hin)%list_elem_of_fmap. exists b. split; [apply (Hhd _ _ Hin)|by eapply handle_in_use].
    + intros Ho b Hin. destruct (Hall b Hin) as [(n & Hn & _)|]; [|done]. rewrite Ho in Hn. by apply elem_of_nil in Hn.
Qed.

(** Block 5 is read, filled, written and released, then read again and
    released. *)
Definition demo_ops : list bop := [BRead 5; BPut 5 [9]; BWrite 5; BRelease 5; BRead 5; BRelease 5].
Definition demo_blocks : ablocks := mkablocks (fun _ => replicate 1024 0) (fun _ => replicate 1024 0) [].

Lemma demo_arun :
  exists A, arun demo_ops demo_blocks = Some ([replicate 1024 0; [9]], A) /\ ab_disk A 5 = [9] /\ ab_open A = [].
Proof. eexists. split; [vm_compute; reflexivity|]. split; vm_compute; reflexivity. Qed.

Lemma bcache_refines_blocks_witness :
  exists k, @wp _ _ (@brun 0%nat ideal_disk 1 demo_ops [])
    (fun r k' => r = [replicate 1024 0; [9]] /\ fs_disk (k_fs k') 5 = [9] /\ forall b, inb b -> released (k_fs k') b) k.
Proof.
  destruct Demo.kb_at as (k & Hat), demo_arun as (A & HA & Hd5 & Ho). exists k. eapply wp_mono.
  - apply (@bcache_refines_blocks 0%nat ideal_disk ideal_disk_ok 1 0 1 k (fun _ => replicate 1024 0) demo_ops [replicate 1024 0; [9]] A);
      [lia| |exact (ak_held _ _ _ _ _ _ _ _ _ Hat)|exact (ak_run _ _ _ _ _ _ _ _ _ Hat)|exact HA].
    pose proof (ak_cache _ _ _ _ _ _ _ _ _ Hat) as [Hi Hrel]. split; [exact Hi|].
    eapply bs_rel_ext; [|exact Hrel]. split; [exact (proj2 (proj2 (proj2 (proj2 Demo.kb_facts))))|].
    split; [reflexivity|]. split; [reflexivity|]. split; [exact (proj2 (proj2 (proj2 (proj2 Demo.kb_facts))))|reflexivity].
  - intros r k' (Hr & Hv & Hd & _ & _ & _ & _ & Hrel). split; [exact Hr|]. split; [rewrite Hd; exact Hd5|exact (Hrel Ho)].
Defined.
