(* ===== verification/FsTx.v ===== *)
(** * File system code over the block layer

    [viewing lg hs V dt H k]: the log is [lg] and its transaction, running or
    not, has pinned the blocks [hs]; the file system sees the contents [V], the
    blocks of [dt] were stored to and not yet logged, and the process holds the
    buffers [H]. This is all that reading needs. [intx hs V dt H k] is the
    same inside a transaction, where [log_write] can be called. The triples of
    the block layer in these terms. *)

From S2P Require Import Prelude Riscv Monad State Kstring Bytes Printf Kalloc Vm Proc ProcInv Sleeplock Dlist Bio BioInv BioSpec BioClient Log LogInv LogProps.
#[local] Open Scope Z_scope.

#[local] Opaque acquire release bread bwrite brelse bpin bunpin setb log_write.

Definition add_block (n : Z) (hs : list Z) : list Z := if decide (n ∈ hs) then hs else hs ++ [n].

Lemma elem_of_add_block m n hs : m ∈ add_block n hs <-> m = n \/ m ∈ hs.
Proof.
  unfold add_block. case_decide as E; [split; [by right|by intros [-> | ?]]|]. rewrite elem_of_app, list_elem_of_singleton. tauto.
Qed.

Lemma length_add_block n hs : (length hs <= length (add_block n hs) <= S (length hs))%nat.
Proof. unfold add_block. case_decide; [lia|]. rewrite length_app. simpl. lia. Qed.

(** Logging an open block moves it from the second count to the first. *)
Lemma count_add_block n hs O :
  NoDup O -> n ∈ O ->
  (length hs + length (filter (fun m => m ∉ hs) O) <= length (add_block n hs) + length (filter (fun m => m ∉ add_block n hs) O))%nat.
Proof.
  intros Hnd Hn. unfold add_block. case_decide as E; [lia|]. rewrite length_app. simpl.
  pose proof (filter_length_at (P := fun m => m ∉ hs) (P' := fun m => m ∉ hs ++ [n]) O n Hnd Hn) as H.
  rewrite decide_True in H by done. rewrite decide_False in H by set_solver.
  enough (length (filter (fun m => m ∉ hs ++ [n]) O) + 1 = length (filter (fun m => m ∉ hs) O) + 0)%nat by lia.
  apply H. intros c Hc. rewrite not_elem_of_app, list_elem_of_singleton. tauto.
Qed.

Definition b2z (P : Prop) `{Decision P} : Z := if decide P then 1 else 0.

Section tx.
Context {W : Wakeups} {D : Disk} {DOk : DiskOk D} (dev : Z) (Hdev : dev <> 0) (p pid : Z) (k0 : kernel).
Context (w : list (Z * list Z)) (dk : Z -> list Z) (sz : Z).
Notation at_ := (at_k dev p pid k0).

(** The log's header lists [hs]. *)
Record log_ok (lg : log) (hs : list Z) : Prop := {
  lo_n : lh_n lg = Z.of_nat (length hs);
  lo_entries : entries lg 0 hs;
  lo_range : Forall (fun h => 0 <= h < 2 ^ 31) hs;
  lo_len : length (lh_block lg) = Z.to_nat LOGSIZE;
  lo_out : 1 <= log_outstanding lg;
  lo_size : log_size lg = sz
}.

Definition tstore (hs : list Z) (V : Z -> list Z) (F : Z) (O : list Z) : bstore :=
  mkbstore V (fun m => b2z (m ∈ hs) + b2z (m ∈ O)) (fun m => if decide (m ∈ O) then mksleeplock 1 pid else unlocked) dk F.

Record view_at (lg : log) (F : Z) (hs : list Z) (V : Z -> list Z) (dt : list Z) (H : list (Z * Z)) (k : kernel) : Prop := {
  va_at : at_ lg w (tstore hs V F H.*1) H k;
  va_free : NBUF <= F + Z.of_nat (length hs) + Z.of_nat (length (filter (fun m => m ∉ hs) H.*1));
  va_open : NoDup H.*1;
  va_nodup : NoDup hs;
  va_clean m : m ∉ hs -> m ∉ dt -> V m = dk m
}.

Definition viewing (lg : log) (hs : list Z) (V : Z -> list Z) (dt : list Z) (H : list (Z * Z)) (k : kernel) : Prop :=
  exists F, view_at lg F hs V dt H k.

Definition intx (hs : list Z) (V : Z -> list Z) (dt : list Z) (H : list (Z * Z)) (k : kernel) : Prop :=
  exists lg, viewing lg hs V dt H k /\ log_ok lg hs.

Ltac tstore_ext :=
  unfold bs_eq, tstore, b2z; simpl; split_and!; intros; rewrite ?fn_insert_case; repeat case_decide; subst;
  rewrite ?elem_of_add_block, ?elem_of_cons in *; unfold is0; try done; try tauto; try lia; try (simpl; lia).

Lemma fst_cons (n b : Z) H : ((n, b) :: H).*1 = n :: H.*1.
Proof. done. Qed.

Lemma viewing_bread lg hs V dt H k n :
  viewing lg hs V dt H k -> n ∉ H.*1 -> Z.of_nat (length hs) + Z.of_nat (length H) < NBUF ->
  wp (bread dev n) (fun b => viewing lg hs V dt ((n, b) :: H)) k.
Proof.
  intros (F & [Ha Hf Ho Hn Hc]) Hnin Hroom. eapply wp_mono.
  - apply (at_k_bread dev Hdev p pid k0 lg w _ H k n Ha Hnin); simpl; rewrite ?decide_False by done; [done| |].
    + unfold b2z. rewrite (decide_False (P := n ∈ H.*1)) by done. case_decide; lia.
    + right. pose proof (length_filter (fun m => m ∉ hs) H.*1) as Hlf. rewrite length_fmap in Hlf. lia.
  - cbv beta. intros b k' Ha'. exists (F - b2z (n ∉ hs)). split; try done.
    + eapply at_k_ext; [|exact Ha']. rewrite fst_cons. tstore_ext.
    + rewrite fst_cons, filter_cons. unfold b2z. case_decide; simpl; lia.
    + rewrite fst_cons. by apply NoDup_cons.
Qed.

Lemma viewing_data lg hs V dt H k n b : viewing lg hs V dt H k -> (n, b) ∈ H -> getb b b_data k = Ret (V n) k.
Proof. intros (F & [Ha _ _ _ _]) Hin. by apply (at_k_data dev Hdev p pid k0 lg w _ H k n b Ha). Qed.

Lemma viewing_set lg hs V dt H k n b g :
  viewing lg hs V dt H k -> (n, b) ∈ H ->
  wp (setb b (fun x => set_b_data (g (b_data x)) x)) (fun _ => viewing lg hs (<[n := g (V n)]> V) (n :: dt) H) k.
Proof.
  intros (F & [Ha Hf Ho Hn Hc]) Hin. eapply wp_mono; [by apply (at_k_setdata dev Hdev p pid k0 lg w _ H k n b g Ha)|].
  cbv beta. intros _ k' Ha'. exists F. split; try done.
  intros m Hm Hd. apply not_elem_of_cons in Hd as [Hne Hd]. rewrite fn_lookup_insert_ne by done. by apply Hc.
Qed.

Lemma viewing_brelse lg hs V dt H k n b :
  viewing lg hs V dt ((n, b) :: H) k -> n ∈ hs \/ n ∉ dt -> wp (brelse b) (fun _ => viewing lg hs V dt H) k.
Proof.
  intros (F & [Ha Hf Ho Hn Hc]) Hor. rewrite fst_cons in *. apply NoDup_cons in Ho as [HnH Ho].
  eapply wp_mono.
  - apply (at_k_brelse dev Hdev p pid k0 lg w _ ((n, b) :: H) H k n b Ha); simpl.
    + apply list_elem_of_here.
    + by rewrite decide_True by apply list_elem_of_here.
    + unfold b2z. rewrite (decide_True (P := n ∈ n :: _)) by apply list_elem_of_here. case_decide; [lia|]. intros _. apply Hc; tauto.
    + intros [m c] Hx. split; [by apply list_elem_of_further|]. simpl. intros ->. apply HnH, list_elem_of_fmap. by exists (n, c).
  - cbv beta. intros _ k' Ha'. exists (F + b2z (n ∉ hs)). split; try done.
    + eapply at_k_ext; [|exact Ha']. tstore_ext.
    + rewrite filter_cons in Hf. unfold b2z. case_decide; simpl in Hf; lia.
Qed.

(** A step that keeps the log keeps the transaction. *)
Lemma intx_keep {A} (m : K A) hs V dt H V' dt' H' k :
  (forall lg, viewing lg hs V dt H k -> wp m (fun b => viewing lg hs V' dt' (H' b)) k) ->
  intx hs V dt H k -> wp m (fun b => intx hs V' dt' (H' b)) k.
Proof. intros Hm (lg & Hv & Hl). eapply wp_mono; [by apply (Hm lg)|]. cbv beta. intros b k' Hv'. by exists lg. Qed.

Lemma intx_bread hs V dt H k n :
  intx hs V dt H k -> n ∉ H.*1 -> Z.of_nat (length hs) + Z.of_nat (length H) < NBUF ->
  wp (bread dev n) (fun b => intx hs V dt ((n, b) :: H)) k.
Proof. intros Hi Hn Hroom. revert Hi. apply intx_keep. intros lg Hv. by apply viewing_bread. Qed.

Lemma intx_data hs V dt H k n b : intx hs V dt H k -> (n, b) ∈ H -> getb b b_data k = Ret (V n) k.
Proof. intros (lg & Hv & _). by apply (viewing_data lg hs V dt). Qed.

Lemma intx_set hs V dt H k n b g :
  intx hs V dt H k -> (n, b) ∈ H ->
  wp (setb b (fun x => set_b_data (g (b_data x)) x)) (fun _ => intx hs (<[n := g (V n)]> V) (n :: dt) H) k.
Proof. intros Hi Hin. revert Hi. apply (intx_keep _ _ _ _ _ _ _ (fun _ => H)). intros lg Hv. by apply viewing_set. Qed.

Lemma intx_brelse hs V dt H k n b :
  intx hs V dt ((n, b) :: H) k -> n ∈ hs \/ n ∉ dt -> wp (brelse b) (fun _ => intx hs V dt H) k.
Proof. intros Hi Hor. revert Hi. apply (intx_keep _ _ _ _ _ _ _ (fun _ => H)). intros lg Hv. by apply (viewing_brelse _ _ _ _ _ _ n). Qed.

Lemma log_ok_logged n lg hs :
  log_ok lg hs -> 0 <= n < 2 ^ 31 -> Z.of_nat (length hs) < LOGSIZE -> log_ok (logged n hs lg) (add_block n hs).
Proof.
  intros [H1 H2 H3 H4 H5 H6] Hr Hl. unfold logged, add_block. case_decide as E; [done|].
  split; simpl; try done.
  - rewrite length_app. simpl. lia.
  - intros i h [[Hi Hh]|[-> <-]]%lookup_snoc_Some; simpl.
    + rewrite list_lookup_insert_ne by lia. by apply (H2 i h).
    + apply list_lookup_insert_eq. rewrite H4. lia.
  - apply Forall_app. split; [done|]. by apply Forall_singleton.
  - by rewrite length_insert.
Qed.

Lemma intx_log hs V dt H k n b :
  intx hs V dt H k -> (n, b) ∈ H -> 0 <= n < 2 ^ 31 -> Z.of_nat (length hs) < LOGSIZE -> Z.of_nat (length hs) < sz - 1 ->
  wp (log_write b) (fun _ => intx (add_block n hs) V (filter (fun m => m <> n) dt) H) k.
Proof.
  intros (lg & (F & [Ha Hf Ho Hn Hc]) & Hl) Hin Hr Hroom Hsz. pose proof Hl as [H1 H2 H3 H4 H5 H6].
  assert (n ∈ H.*1) as HnH by (apply list_elem_of_fmap; by exists (n, b)).
  eapply wp_mono.
  - apply (log_write_run dev Hdev p pid k0 hs lg w _ H k n b Ha Hin); try done; [by rewrite H6|].
    simpl. unfold b2z. repeat case_decide; lia.
  - cbv beta. intros _ k' Ha'. exists (logged n hs lg). split; [|by apply log_ok_logged]. exists F. split; try done.
    + eapply at_k_ext; [|exact Ha']. case_decide as E; [|].
      * assert (add_block n hs = hs) as -> by (unfold add_block; by rewrite decide_True). done.
      * unfold bs_eq, tstore, b2z. simpl. split_and!; intros; rewrite ?fn_insert_case; repeat case_decide; subst;
          rewrite ?elem_of_add_block in *; unfold is0; try done; try tauto; try lia; try (simpl; lia).
    + pose proof (count_add_block n hs H.*1 Ho HnH). lia.
    + unfold add_block. case_decide; [done|]. apply NoDup_app. split; [done|]. split; [|by apply NoDup_singleton].
      intros x Hx ->%list_elem_of_singleton. done.
    + intros m. rewrite elem_of_add_block, list_elem_of_filter. intros Hm Hd. apply Hc; tauto.
Qed.

End tx.

(** After [binit], with nothing pinned: what a single process sees. *)
Lemma cold_viewing {W : Wakeups} {D : Disk} {DOk : DiskOk D} dev p pid k :
  dev <> 0 -> (forall b, inb b -> b_valid (fs_buf (k_fs k) b) = 0 /\ b_dev (fs_buf (k_fs k) b) = 0 /\ b_refcnt (fs_buf (k_fs k) b) = 0) ->
  k_held k = [] -> running k p pid ->
  exists s', only_bufs (k_fs k) s' /\
    viewing dev p pid (set_fs s' k) (fs_writes (k_fs k)) (fs_disk (k_fs k)) (fs_log (k_fs k)) [] (fs_disk (k_fs k)) [] [] (set_fs s' k).
Proof.
  intros Hdev Hz Hh Hr. destruct (binit_cold k Hz) as (s & _ & Hcold & [f ->]).
  exists (fs_set_bufs f (k_fs k)). split; [by exists f|].
  exists NBUF. split; [|simpl; lia|constructor|constructor|done].
  split; ksimp; try done; [|by intros ? ? ?%elem_of_nil].
  apply (cold_bcache dev) in Hcold; [|done]. destruct Hcold as [Hi Hrel]. split; [done|]. eapply bs_rel_ext; [|exact Hrel].
  unfold bs_eq, tstore, b2z. simpl. split_and!; intros; rewrite ?decide_False by apply not_elem_of_nil; done.
Qed.

(** A transaction of a single process, with an empty log. *)
Lemma cold_intx {W : Wakeups} {D : Disk} {DOk : DiskOk D} dev p pid sz k :
  dev <> 0 -> (forall b, inb b -> b_valid (fs_buf (k_fs k) b) = 0 /\ b_dev (fs_buf (k_fs k) b) = 0 /\ b_refcnt (fs_buf (k_fs k) b) = 0) ->
  k_held k = [] -> running k p pid -> log_ok sz (fs_log (k_fs k)) [] ->
  exists s', only_bufs (k_fs k) s' /\
    intx dev p pid (set_fs s' k) (fs_writes (k_fs k)) (fs_disk (k_fs k)) sz [] (fs_disk (k_fs k)) [] [] (set_fs s' k).
Proof.
  intros Hdev Hz Hh Hr Hl. destruct (cold_viewing dev p pid k Hdev Hz Hh Hr) as (s' & Hs & Hv).
  exists s'. split; [done|]. by exists (fs_log (k_fs k)).
Qed.

(** The memory is not the block layer's. *)
Lemma blk_frame_mem k0 k m : blk_frame k0 k -> blk_frame (set_mem m k0) (set_mem m k).
Proof. intros (s & ps & -> & Hx). exists s, ps. ksimp. done. Qed.

Lemma viewing_mem {W : Wakeups} {D : Disk} dev p pid k0 w dk lg hs V dt H k m :
  viewing dev p pid k0 w dk lg hs V dt H k -> viewing dev p pid (set_mem m k0) w dk lg hs V dt H (set_mem m k).
Proof.
  intros (F & [[H1 H2 H3 H4 H5 H6 H7] Hc Hd He Hf]). exists F. split; try done. split; ksimp; try done.
  by apply blk_frame_mem.
Qed.

Lemma viewing_frame {W : Wakeups} {D : Disk} dev p pid k0 w dk lg hs V dt H k :
  viewing dev p pid k0 w dk lg hs V dt H k -> blk_frame k0 k /\ running k p pid /\ k_held k = [] /\ k_mem k = k_mem k0.
Proof.
  intros (F & [[H1 H2 H3 H4 H5 H6 H7] Hc Hd He Hf]). split_and!; try done. destruct H7 as (s & ps & -> & _). done.
Qed.
