(* ===== verification/FsProps.v ===== *)
(** * The free map and the content of files *)

From S2P Require Import Prelude Riscv Monad State Kstring Bytes Printf Kalloc Vm Proc ProcInv Sleeplock Dlist Bio BioInv BioSpec BioClient Log LogInv LogProps Fs FsTx.
#[local] Open Scope Z_scope.

#[local] Opaque acquire release bread bwrite brelse bpin bunpin setb log_write.

(** ** Bits of a bitmap block *)

Definition is_block (d : list Z) : Prop := length d = Z.to_nat BSIZE /\ Forall (fun b => 0 <= b < 256) d.

Definition bm_bit (d : list Z) (bi : Z) : bool := Z.testbit (byte_at (bi / 8) d) (bi mod 8).
Definition bm_set (bi : Z) (d : list Z) : list Z := wr 1 (bi / 8) (Z.lor (byte_at (bi / 8) d) (Z.shiftl 1 (bi mod 8))) d.
Definition bm_clear (bi : Z) (d : list Z) : list Z := wr 1 (bi / 8) (Z.land (byte_at (bi / 8) d) (Z.lnot (Z.shiftl 1 (bi mod 8)))) d.

Lemma land_shiftl_bit x i : 0 <= i -> (Z.land x (Z.shiftl 1 i) =? 0) = negb (Z.testbit x i).
Proof. intros Hi. pose proof (pte_has_bit x i Hi) as H. unfold pte_has, truthy in H. rewrite <- H. by rewrite negb_involutive. Qed.

Lemma byte_at_lookup i d : 0 <= i < Z.of_nat (length d) -> byte_at i d = default 0 (d !! Z.to_nat i).
Proof.
  intros Hi. destruct (lookup_lt_is_Some_2 d (Z.to_nat i)) as [x Hx]; [lia|]. unfold byte_at, rd, slice.
  rewrite (drop_S _ _ _ Hx), Hx. simpl. by rewrite Z.lor_0_r.
Qed.

Lemma byte_at_bound i d : is_block d -> 0 <= i < BSIZE -> 0 <= byte_at i d < 256.
Proof.
  intros [Hl Hb] Hi. rewrite byte_at_lookup by (rewrite Hl; unfold BSIZE in *; lia).
  destruct (d !! Z.to_nat i) as [x|] eqn:E; simpl; [|lia]. rewrite Forall_lookup in Hb. by apply (Hb _ _ E).
Qed.

Lemma bit_index bi : 0 <= bi < BPB -> 0 <= bi / 8 < BSIZE /\ 0 <= bi mod 8 < 8.
Proof. unfold BPB, BSIZE. intros. dlia. Qed.

Lemma is_block_wr i v d : is_block d -> 0 <= i < BSIZE -> is_block (wr 1 i v d).
Proof.
  intros [Hl Hb] Hi. split; [rewrite length_wr; [done|lia|lia|]; rewrite Hl; unfold BSIZE in *; lia|].
  unfold wr, splice. rewrite !Forall_app. split_and!; [by apply Forall_take| |by apply Forall_drop].
  apply Forall_forall. intros x Hx. pose proof (Z_to_little_endian_bound 1 8 v ltac:(lia) ltac:(lia)) as Hle.
  rewrite Forall_forall in Hle. by apply Hle.
Qed.

Lemma land_bound x y : 0 <= x < 256 -> 0 <= Z.land x y < 256.
Proof.
  intros Hx. assert (Z.land x y = Z.land x y mod 2 ^ 8) as ->; [|by apply Z.mod_pos_bound].
  rewrite <- Z.land_ones by lia. rewrite <- Z.land_assoc, (Z.land_comm y), Z.land_assoc, Z.land_ones by lia.
  by rewrite Z.mod_small.
Qed.

(** Storing a byte of the map that differs in one bit. *)
Lemma bm_bit_wr d bi j v c :
  is_block d -> 0 <= bi < BPB -> 0 <= j < BPB -> 0 <= v < 256 ->
  (forall i, 0 <= i < 8 -> Z.testbit v i = if decide (i = bi mod 8) then c else Z.testbit (byte_at (bi / 8) d) i) ->
  bm_bit (wr 1 (bi / 8) v d) j = if decide (j = bi) then c else bm_bit d j.
Proof.
  intros [Hl Hb] Hbi Hj Hv Hbit. pose proof (bit_index bi Hbi) as [B1 B2]. pose proof (bit_index j Hj) as [J1 J2]. unfold BSIZE in *.
  unfold bm_bit, byte_at. destruct (decide (j / 8 = bi / 8)) as [E|E].
  - rewrite E, rd_wr_eq by lia. rewrite Hbit by lia. unfold byte_at. destruct (decide (j = bi)) as [->|Hne].
    + by rewrite decide_True.
    + rewrite decide_False; [done|]. intros Em. apply Hne. rewrite (Z.div_mod j 8), (Z.div_mod bi 8) by lia. lia.
  - rewrite rd_wr_ne by lia. rewrite decide_False; [done|]. by intros ->.
Qed.

Lemma bm_bit_set d bi j :
  is_block d -> 0 <= bi < BPB -> 0 <= j < BPB -> bm_bit (bm_set bi d) j = if decide (j = bi) then true else bm_bit d j.
Proof.
  intros Hd Hbi Hj. pose proof (bit_index bi Hbi) as [B1 B2]. pose proof (byte_at_bound _ d Hd B1) as Hy. apply bm_bit_wr; try done.
  - apply (lor_bound _ _ 8); [lia|exact Hy|]. rewrite Z.shiftl_1_l. split; [apply Z.pow_nonneg; lia|]. apply Z.pow_lt_mono_r; lia.
  - intros i Hi. rewrite Z.lor_spec, Z.shiftl_1_l, Z.pow2_bits_eqb by lia. rewrite Z.eqb_sym.
    case_decide as E; [by rewrite (proj2 (Z.eqb_eq _ _) E), orb_true_r|]. by rewrite (proj2 (Z.eqb_neq _ _) E), orb_false_r.
Qed.

Lemma bm_bit_clear d bi j :
  is_block d -> 0 <= bi < BPB -> 0 <= j < BPB -> bm_bit (bm_clear bi d) j = if decide (j = bi) then false else bm_bit d j.
Proof.
  intros Hd Hbi Hj. pose proof (bit_index bi Hbi) as [B1 B2]. pose proof (byte_at_bound _ d Hd B1) as Hy. apply bm_bit_wr; try done.
  - by apply land_bound.
  - intros i Hi. rewrite Z.land_spec, Z.lnot_spec, Z.shiftl_1_l, Z.pow2_bits_eqb by lia. rewrite Z.eqb_sym.
    case_decide as E; [by rewrite (proj2 (Z.eqb_eq _ _) E), andb_false_r|]. by rewrite (proj2 (Z.eqb_neq _ _) E), andb_true_r.
Qed.

(** ** The free map *)

Definition zero_block : list Z := replicate (Z.to_nat BSIZE) 0.

Lemma splice_whole bs d : length bs = length d -> splice 0 bs d = bs.
Proof. intros E. unfold splice. simpl. rewrite drop_ge by lia. by rewrite app_nil_r. Qed.

Lemma filter_self (n : Z) : filter (fun m => m <> n) [n] = [].
Proof. rewrite filter_cons, decide_False by naive_solver. done. Qed.

(** The bit of block [b]: set while the block is in use. *)
Definition in_use (sb : superblock) (V : Z -> list Z) (b : Z) : bool := bm_bit (V (BBLOCK b sb)) (b mod BPB).

(** [r] is the first free block. *)
Definition first_free (sb : superblock) (V : Z -> list Z) (r : Z) : Prop :=
  0 <= r < sb_size sb /\ in_use sb V r = false /\ forall j, 0 <= j < r -> in_use sb V j = true.

Lemma BBLOCK_group sb b j : b mod BPB = 0 -> 0 <= j < BPB -> BBLOCK (b + j) sb = BBLOCK b sb /\ (b + j) mod BPB = j.
Proof. unfold BBLOCK, BPB, BSIZE. intros Hb Hj. split; [do 2 f_equal|]; dlia. Qed.

(** The layout of a disk on which the free map works: its blocks follow each
    other, are below the data blocks, and every number fits a 31-bit block
    number. *)
Definition map_layout (sb : superblock) : Prop :=
  0 <= sb_size sb < 2 ^ 31 /\ 0 <= sb_bmapstart sb /\ sb_bmapstart sb + sb_size sb / BPB < 2 ^ 31.

Lemma BBLOCK_eq sb b : map_layout sb -> 0 <= b < sb_size sb -> BBLOCK b sb = b / BPB + sb_bmapstart sb /\ 0 <= BBLOCK b sb < 2 ^ 31.
Proof.
  intros (H1 & H2 & H3) Hb. assert (0 <= b / BPB <= sb_size sb / BPB).
  { split; [apply Z.div_pos; [lia|done]|]. apply Z.div_le_mono; [done|lia]. }
  unfold BBLOCK. rewrite u32_small by lia. lia.
Qed.

Section balloc.
Context {W : Wakeups} {D : Disk} {DOk : DiskOk D} (dev : Z) (Hdev : dev <> 0) (p pid : Z) (k0 : kernel).
Context (w : list (Z * list Z)) (dk : Z -> list Z) (sz : Z).
Notation intx := (intx dev p pid k0 w dk sz).
Let sb := fs_sb (k_fs k0).

Lemma intx_sb hs V dt H k : intx hs V dt H k -> fs_sb (k_fs k) = sb.
Proof. intros (lg & (F & [Ha _ _ _ _]) & _). destruct (ak_frame _ _ _ _ _ _ _ _ _ Ha) as (s & ps & -> & _ & E & _). exact E. Qed.

Lemma bzero_run hs V k n :
  intx hs V [] [] k -> length (V n) = Z.to_nat BSIZE -> 0 <= n < 2 ^ 31 -> Z.of_nat (length hs) < LOGSIZE -> Z.of_nat (length hs) < sz - 1 ->
  wp (bzero dev n) (fun _ => intx (add_block n hs) (<[n := zero_block]> V) [] []) k.
Proof.
  intros Hi Hl Hn H1 H2. unfold bzero. apply wp_bind. eapply wp_mono; [apply (intx_bread dev Hdev _ _ _ _ _ _ hs V [] [] k n Hi)|].
  { apply not_elem_of_nil. } { unfold LOGSIZE, NBUF in *. simpl. lia. }
  cbv beta. intros b k1 Hi1. apply wp_bind. eapply wp_mono; [apply (intx_set dev Hdev _ _ _ _ _ _ _ _ _ _ k1 n b _ Hi1), list_elem_of_here|].
  cbv beta. intros _ k2 Hi2. rewrite splice_whole in Hi2 by (rewrite Hl; by rewrite length_replicate).
  apply wp_bind. eapply wp_mono; [by apply (intx_log dev Hdev _ _ _ _ _ _ _ _ _ _ k2 n b Hi2); [apply list_elem_of_here|..]|].
  cbv beta. intros _ k3 Hi3. rewrite filter_self in Hi3.
  apply (intx_brelse dev Hdev _ _ _ _ _ _ _ _ _ _ k3 n b Hi3). left. apply elem_of_add_block. by left.
Qed.

Lemma balloc_inner_run fuel hs V dt H k n bp b bi size :
  intx hs V dt H k -> (n, bp) ∈ H -> 0 <= bi -> BPB - bi <= Z.of_nat fuel ->
  wp (balloc_inner fuel bp b bi size) (fun o k' =>
    match o with
    | Some c => bi <= c < BPB /\ b + c < size /\ bm_bit (V n) c = false /\ (forall j, bi <= j < c -> bm_bit (V n) j = true) /\
        intx hs (<[n := bm_set c (V n)]> V) (n :: dt) H k'
    | None => (forall j, bi <= j < BPB -> b + j < size -> bm_bit (V n) j = true) /\ intx hs V dt H k'
    end) k.
Proof.
  intros Hi Hin. revert bi. induction fuel as [|fuel IH]; intros bi Hb Hf; cbn [balloc_inner].
  all: destruct (Z.ltb_spec bi BPB) as [Hlt|Hge]; cbn [andb]; [|apply wp_ret; split; [intros; lia|done]].
  1: lia.
  destruct (Z.ltb_spec (b + bi) size) as [Hs|Hs]; [|apply wp_ret; split; [intros; lia|done]].
  apply wp_bind. eapply wp_eq; [by apply (intx_data dev Hdev _ _ _ _ _ _ _ _ _ _ k n bp Hi)|]. cbv zeta.
  pose proof (bit_index bi ltac:(lia)) as [B1 B2]. rewrite land_shiftl_bit by lia. fold (bm_bit (V n) bi). destruct (bm_bit (V n) bi) eqn:Eb; cbn [negb].
  - eapply wp_mono; [apply IH; lia|]. cbv beta. intros [c|] k' Hx.
    + destruct Hx as (H1 & H2 & H3 & H4 & H5). split; [lia|]. split; [done|]. split; [done|]. split; [|done].
      intros j Hj. destruct (decide (j = bi)) as [->|]; [done|]. apply H4. lia.
    + destruct Hx as (H1 & H2). split; [|done]. intros j Hj Hjs. destruct (decide (j = bi)) as [->|]; [done|]. apply H1; lia.
  - apply wp_bind. eapply wp_mono; [apply (intx_set dev Hdev _ _ _ _ _ _ _ _ _ _ k n bp (bm_set bi) Hi Hin)|].
    cbv beta. intros _ k' Hi'. apply wp_ret. split; [lia|]. split; [done|]. split; [done|]. split; [intros j Hj; lia|done].
Qed.

(** The contents after block [r] is allocated. *)
Definition allocated (r : Z) (V : Z -> list Z) : Z -> list Z :=
  <[r := zero_block]> (<[BBLOCK r sb := bm_set (r mod BPB) (V (BBLOCK r sb))]> V).

Lemma balloc_loop_run fuel hs V k b r :
  intx hs V [] [] k -> first_free sb V r -> b mod BPB = 0 -> 0 <= b <= r -> r - b < Z.of_nat fuel * BPB ->
  (forall n, length (V n) = Z.to_nat BSIZE) -> 0 <= BBLOCK r sb < 2 ^ 31 -> r < 2 ^ 31 -> BBLOCK r sb <> r ->
  Z.of_nat (length hs) + 1 < LOGSIZE -> Z.of_nat (length hs) + 1 < sz - 1 ->
  wp (balloc_loop fuel dev b) (fun a k' => a = r /\ intx (add_block r (add_block (BBLOCK r sb) hs)) (allocated r V) [] [] k') k.
Proof.
  intros Hi (Hr & Hfree & Hused). revert b k Hi. induction fuel as [|fuel IH]; intros b k Hi Hmod Hb Hfuel Hlen Hbb Hr31 Hne H1 H2; [lia|].
  cbn [balloc_loop]. unfold getsb. apply wp_bind, wp_gets. rewrite (intx_sb _ _ _ _ _ Hi), (proj2 (Z.ltb_lt _ _)) by lia.
  apply wp_bind, wp_gets. rewrite (intx_sb _ _ _ _ _ Hi). cbn [id].
  apply wp_bind. eapply wp_mono; [apply (intx_bread dev Hdev _ _ _ _ _ _ hs V [] [] k (BBLOCK b sb) Hi)|].
  { apply not_elem_of_nil. } { unfold LOGSIZE, NBUF in *. simpl. lia. }
  cbv beta. intros bp k1 Hi1. apply wp_bind.
  eapply wp_mono; [apply (balloc_inner_run (Z.to_nat BPB) hs V [] _ k1 (BBLOCK b sb) bp b 0 (sb_size sb) Hi1); [apply list_elem_of_here|lia|done]|].
  cbv beta. intros [c|] k2 Hx.
  - destruct Hx as (Hc & Hcs & Hbit & Hbefore & Hi2). destruct (BBLOCK_group sb b c Hmod ltac:(lia)) as [G1 G2].
    assert (b + c = r) as <-.
    { destruct (Z.lt_trichotomy (b + c) r) as [Hlt|[?|Hgt]]; [|done|].
      - specialize (Hused (b + c) ltac:(lia)). unfold in_use in Hused. rewrite G1, G2 in Hused. congruence.
      - destruct (BBLOCK_group sb b (r - b) Hmod ltac:(lia)) as [G3 G4]. rewrite Zplus_minus in G3, G4.
        unfold in_use in Hfree. rewrite G3, G4, Hbefore in Hfree by lia. done. }
    apply wp_bind. eapply wp_mono; [apply (intx_log dev Hdev _ _ _ _ _ _ _ _ _ _ k2 (BBLOCK b sb) bp Hi2); [apply list_elem_of_here|by rewrite <- G1|lia|lia]|].
    cbv beta. intros _ k3 Hi3. rewrite filter_self in Hi3. apply wp_bind.
    eapply wp_mono; [apply (intx_brelse dev Hdev _ _ _ _ _ _ _ _ _ _ k3 _ bp Hi3); left; apply elem_of_add_block; by left|].
    cbv beta. intros _ k4 Hi4. apply wp_bind. pose proof (length_add_block (BBLOCK b sb) hs) as Hal. eapply wp_mono; [apply (bzero_run _ _ k4 (b + c) Hi4)|].
    { rewrite fn_lookup_insert_ne by (by rewrite <- G1). apply Hlen. } { lia. } { lia. } { lia. }
    cbv beta. intros _ k5 Hi5. apply wp_ret. split; [done|]. unfold allocated. by rewrite G1, G2.
  - destruct Hx as (Hall & Hi2). apply wp_bind.
    eapply wp_mono; [apply (intx_brelse dev Hdev _ _ _ _ _ _ _ _ _ _ k2 _ bp Hi2); right; apply not_elem_of_nil|].
    cbv beta. intros _ k3 Hi3. assert (b + BPB <= r) as Hbr.
    { apply Z.le_ngt. intros Hlt. destruct (BBLOCK_group sb b (r - b) Hmod ltac:(lia)) as [G3 G4]. rewrite Zplus_minus in G3, G4.
      unfold in_use in Hfree. rewrite G3, G4, Hall in Hfree by lia. done. }
    assert (0 < BPB) by done. apply IH; try done; try lia. rewrite <- Zplus_mod_idemp_r, Z_mod_same_full, Z.add_0_r. done.
Qed.

Lemma is_block_zero : is_block zero_block.
Proof. split; [done|]. apply Forall_replicate. lia. Qed.

(** The free map after the bit of [r] is changed. *)
Lemma in_use_bit V r b f c :
  map_layout sb -> 0 <= r < sb_size sb -> 0 <= b < sb_size sb ->
  (forall j, 0 <= j < BPB -> bm_bit f j = if decide (j = r mod BPB) then c else bm_bit (V (BBLOCK r sb)) j) ->
  in_use sb (<[BBLOCK r sb := f]> V) b = if decide (b = r) then c else in_use sb V b.
Proof.
  intros Hml Hr Hb Hf. unfold in_use. rewrite fn_insert_case. destruct (decide (BBLOCK b sb = BBLOCK r sb)) as [E|E].
  - rewrite Hf by (by apply Z.mod_pos_bound). rewrite <- E. destruct (decide (b = r)) as [->|Hbr]; [by rewrite decide_True|].
    rewrite decide_False; [done|]. intros Em. apply Hbr. rewrite (Z.div_mod b BPB), (Z.div_mod r BPB) by done.
    rewrite Em. destruct (BBLOCK_eq sb b Hml Hb) as [E1 _], (BBLOCK_eq sb r Hml Hr) as [E2 _]. f_equal. f_equal. lia.
  - rewrite decide_False; [done|]. by intros ->.
Qed.

Lemma in_use_allocated V r b :
  (forall n, is_block (V n)) -> map_layout sb -> 0 <= r < sb_size sb -> 0 <= b < sb_size sb -> BBLOCK b sb <> r ->
  in_use sb (allocated r V) b = bool_decide (b = r) || in_use sb V b.
Proof.
  intros HV Hml Hr Hb Hne. unfold allocated, in_use at 1. rewrite fn_lookup_insert_ne by done.
  fold (in_use sb (<[BBLOCK r sb := bm_set (r mod BPB) (V (BBLOCK r sb))]> V) b). rewrite (in_use_bit _ _ _ _ true) by (done || intros; apply bm_bit_set; try done; by apply Z.mod_pos_bound).
  case_decide; [by rewrite bool_decide_true|by rewrite bool_decide_false].
Qed.

(** C14: [balloc] hands out the first free block of the free map: in the
    transaction that block is marked in use and zeroed, the marks of all other
    blocks are as before, and no other block but the map's changes. *)
Theorem balloc_allocates_first_free hs V k r :
  intx hs V [] [] k -> map_layout sb -> (forall n, is_block (V n)) -> first_free sb V r ->
  (forall b, 0 <= b < sb_size sb -> BBLOCK b sb <> r) ->
  Z.of_nat (length hs) + 1 < LOGSIZE -> Z.of_nat (length hs) + 1 < sz - 1 ->
  wp (balloc dev) (fun a k' => a = r /\ exists hs' V', intx hs' V' [] [] k' /\
    V' r = zero_block /\ (forall b, 0 <= b < sb_size sb -> in_use sb V' b = bool_decide (b = r) || in_use sb V b) /\
    (forall n, n <> r -> n <> BBLOCK r sb -> V' n = V n) /\ r ∈ hs' /\ BBLOCK r sb ∈ hs') k.
Proof.
  intros Hi Hml HV Hff Hmap H1 H2. pose proof Hff as (Hr & _). destruct (BBLOCK_eq sb r Hml Hr) as [_ Hbb].
  unfold balloc, getsb. apply wp_bind, wp_gets. rewrite (intx_sb _ _ _ _ _ Hi).
  assert (0 < BPB) by done. pose proof (Z_div_mod_eq_full (sb_size sb) BPB). pose proof (Z.mod_pos_bound (sb_size sb) BPB).
  eapply wp_mono; [apply (balloc_loop_run _ hs V k 0 r Hi Hff); [done|lia| |intros n; apply HV|done|destruct Hml; lia|by apply Hmap|done|done]|].
  { pose proof (Z.div_pos (sb_size sb) BPB). nia. }
  cbv beta. intros a k' [-> Hi']. split; [done|]. eexists _, _. split; [exact Hi'|]. split_and!.
  - unfold allocated. apply fn_lookup_insert.
  - intros b Hb. apply in_use_allocated; try done. by apply Hmap.
  - intros n Hn1 Hn2. unfold allocated. by rewrite !fn_lookup_insert_ne by congruence.
  - apply elem_of_add_block. by left.
  - rewrite !elem_of_add_block. by right; left.
Qed.

(** [bfree] marks its block free, keeping the marks of all others and
    every block but the map's; freeing a block that is free panics. *)
Theorem bfree_frees_block hs V k b :
  intx hs V [] [] k -> map_layout sb -> (forall n, is_block (V n)) -> 0 <= b < sb_size sb ->
  Z.of_nat (length hs) < LOGSIZE -> Z.of_nat (length hs) < sz - 1 ->
  (in_use sb V b = true -> wp (bfree dev b) (fun _ k' => exists hs' V', intx hs' V' [] [] k' /\
     (forall c, 0 <= c < sb_size sb -> in_use sb V' c = negb (bool_decide (c = b)) && in_use sb V c) /\
     (forall n, n <> BBLOCK b sb -> V' n = V n) /\ BBLOCK b sb ∈ hs') k) /\
  (in_use sb V b = false -> bfree dev b k = Panic "freeing free block").
Proof.
  intros Hi Hml HV Hb H1 H2. destruct (BBLOCK_eq sb b Hml Hb) as [E0 Hbb]. set (n := BBLOCK b sb) in *.
  assert (forall c, 0 <= c mod BPB < BPB) as Hm by (intros c; by apply Z.mod_pos_bound).
  pose proof (bit_index _ (Hm b)) as [_ B2].
  assert (wp (bread dev n) (fun bp => intx hs V [] [(n, bp)]) k) as Hbr.
  { apply (intx_bread dev Hdev _ _ _ _ _ _ hs V [] [] k n Hi); [apply not_elem_of_nil|]. unfold LOGSIZE, NBUF in *. simpl. lia. }
  apply wp_elim in Hbr as (bp & k1 & Hrun & Hi1).
  pose proof (intx_data dev Hdev _ _ _ _ _ _ _ _ _ _ k1 n bp Hi1 (list_elem_of_here _ _)) as Hd.
  assert (Heq : forall Q : outcome kernel unit -> Prop,
    Q ((if negb (in_use sb V b) then panic "freeing free block" else
      setb bp (fun x => set_b_data (bm_clear (b mod BPB) (b_data x)) x);; log_write bp;; brelse bp) k1) -> Q (bfree dev b k)).
  { intros Q HQ. unfold bfree, getsb. kpure. rewrite (intx_sb _ _ _ _ _ Hi). cbn [id]. fold n. erewrite bind_eq by exact Hrun. cbv beta.
    erewrite bind_eq by exact Hd. cbv beta zeta. rewrite land_shiftl_bit by lia. exact HQ. }
  split; intros Hu.
  - unfold wp. apply Heq. rewrite Hu. cbn [negb].
    match goal with |- match ?m k1 with _ => _ end => change (wp m (fun _ k' => exists hs' V', intx hs' V' [] [] k' /\
     (forall c, 0 <= c < sb_size sb -> in_use sb V' c = negb (bool_decide (c = b)) && in_use sb V c) /\
     (forall n', n' <> n -> V' n' = V n') /\ n ∈ hs') k1) end.
    apply wp_bind. eapply wp_mono; [apply (intx_set dev Hdev _ _ _ _ _ _ _ _ _ _ k1 n bp (bm_clear (b mod BPB)) Hi1), list_elem_of_here|].
    cbv beta. intros _ k2 Hi2. apply wp_bind.
    eapply wp_mono; [apply (intx_log dev Hdev _ _ _ _ _ _ _ _ _ _ k2 n bp Hi2); [apply list_elem_of_here|done|lia|lia]|].
    cbv beta. intros _ k3 Hi3. rewrite filter_self in Hi3.
    eapply wp_mono; [apply (intx_brelse dev Hdev _ _ _ _ _ _ _ _ _ _ k3 n bp Hi3); left; apply elem_of_add_block; by left|].
    cbv beta. intros _ k4 Hi4. eexists _, _. split; [exact Hi4|]. split_and!.
    + intros c Hc. unfold n. rewrite (in_use_bit _ _ _ _ false) by (done || intros; apply bm_bit_clear; try done; by apply Z.mod_pos_bound).
      case_decide; [by rewrite bool_decide_true|by rewrite bool_decide_false].
    + intros n' Hn. by rewrite fn_lookup_insert_ne.
    + apply elem_of_add_block. by left.
  - apply (Heq (fun o => o = Panic _)). rewrite Hu. done.
Qed.

End balloc.

(** ** Instances: a disk of 100 blocks, the first ten in use *)

Module FsDemo.
#[local] Instance no_wakeups : Wakeups := 0%nat.
#[local] Instance disk : Disk := ideal_disk.

Definition bitmap : list Z := 255 :: 3 :: replicate 1022 0.
Definition blocks (n : Z) : list Z := if n =? 2 then bitmap else zero_block.
Definition sb : superblock := mksuperblock FSMAGIC 100 90 10 0 0 0 2.

Definition kd : kernel :=
  set_fs (mkfssys blocks [] (fun _ => buf0) Demo.lg0 sb (fun _ => inode0) (fun _ => file0) (fun _ => pipe0))
    (set_ps (mkprocsys (fun _ => set_pid 1 proc0) (Some 0) 2 None 0) boot).

Lemma kd_tx :
  exists k', fs_sb (k_fs k') = sb /\ intx 1 0 1 k' [] blocks 30 [] blocks [] [] k'.
Proof.
  destruct (cold_intx 1 0 1 30 kd) as (s' & [f ->] & Hi); [lia|done|done|done| |].
  - split; done.
  - eexists. split; [|exact Hi]. done.
Qed.

Lemma blocks_ok n : is_block (blocks n).
Proof.
  unfold blocks. destruct (n =? 2); [|apply is_block_zero]. split; [reflexivity|].
  apply Forall_cons; split; [lia|]. apply Forall_cons; split; [lia|]. apply Forall_replicate. lia.
Qed.

Lemma sb_layout : map_layout sb.
Proof. vm_compute. repeat split; discriminate || reflexivity. Qed.

Lemma in_use_eq b : 0 <= b < 100 -> in_use sb blocks b = (b <? 10).
Proof.
  intros Hb. assert (Forall (fun b => in_use sb blocks b = (b <? 10)) (seqZ 0 100)) as H.
  { apply (bool_decide_unpack _). vm_compute. exact I. }
  rewrite Forall_forall in H. apply H, elem_of_seqZ. lia.
Qed.

Lemma first_free_10 : first_free sb blocks 10.
Proof.
  split; [vm_compute; split; [discriminate|reflexivity]|]. split; [by rewrite in_use_eq|].
  intros j Hj. rewrite in_use_eq by lia. apply Z.ltb_lt. lia.
Qed.

Lemma balloc_allocates_first_free_witness :
  exists k, wp (balloc 1) (fun a _ => a = 10) k.
Proof.
  destruct kd_tx as (k & Hsb & Hi). exists k. eapply wp_mono.
  - apply (balloc_allocates_first_free 1 ltac:(lia) 0 1 k [] blocks 30 [] blocks k 10 Hi); rewrite ?Hsb;
      [exact sb_layout|exact blocks_ok|exact first_free_10| |vm_compute; reflexivity|vm_compute; reflexivity].
    intros b Hb. destruct (BBLOCK_eq sb b sb_layout Hb) as [-> _]. change (sb_size sb) with 100 in Hb.
    rewrite Z.div_small by (unfold BPB, BSIZE; lia). discriminate.
  - intros a k' [Ha _]. exact Ha.
Defined.

Lemma bfree_frees_block_witness :
  exists k, bfree 1 50 k = Panic "freeing free block" /\ wp (bfree 1 5) (fun _ _ => True) k.
Proof.
  destruct kd_tx as (k & Hsb & Hi). exists k. split.
  - apply (bfree_frees_block 1 ltac:(lia) 0 1 k [] blocks 30 [] blocks k 50 Hi); rewrite ?Hsb;
      [exact sb_layout|exact blocks_ok|vm_compute; split; [discriminate|reflexivity]|vm_compute; reflexivity|vm_compute; reflexivity|].
    rewrite in_use_eq by lia. reflexivity.
  - eapply wp_mono; [|intros; exact I].
    apply (bfree_frees_block 1 ltac:(lia) 0 1 k [] blocks 30 [] blocks k 5 Hi); rewrite ?Hsb;
      [exact sb_layout|exact blocks_ok|vm_compute; split; [discriminate|reflexivity]|vm_compute; reflexivity|vm_compute; reflexivity|].
    rewrite in_use_eq by lia. reflexivity.
Defined.

End FsDemo.
