(* ===== verification/FsRead.v ===== *)
(** * Reading a file: [bmap] and [readi]

    Reading needs no transaction: [fileread] calls [readi] outside of one. *)

From S2P Require Import Prelude Riscv Monad State Kstring Bytes Printf Kalloc Vm VmInv VmMap Uspace VmFree VmCopy VmProps Proc ProcInv Sleeplock Umem Dlist Bio BioInv BioSpec BioClient Log LogInv LogProps Fs FsTx FsProps.
#[local] Open Scope Z_scope.

#[local] Opaque acquire release bread bwrite brelse bpin bunpin setb log_write.

(** ** User memory as the destination *)

Section user.
Context {L : Layout} {LOk : LayoutOk L}.

(** Every address of the range is the user's. *)
Definition user_range (u : list (Z * Z)) (lo hi : Z) : Prop := forall va, lo <= va < hi -> is_Some (uaddr u va).

Definition uput (u : list (Z * Z)) (m : mem) (dst : Z) (bs : list Z) : mem := default m (uwrite u m dst bs).

Lemma uwrite_total u m lo hi dst bs :
  user_range u lo hi -> lo <= dst -> dst + Z.of_nat (length bs) <= hi -> uwrite u m dst bs = Some (uput u m dst bs).
Proof.
  intros Hr Hlo Hhi. unfold uput. enough (is_Some (uwrite u m dst bs)) as [m' ->] by done.
  revert m dst Hlo Hhi. induction bs as [|b bs IH]; intros m dst Hlo Hhi; [by eexists|]. cbn [uwrite length] in *.
  destruct (Hr dst) as [a ->]; [lia|]. apply IH; lia.
Qed.

Lemma uput_app u m lo hi dst a b :
  user_range u lo hi -> lo <= dst -> dst + Z.of_nat (length (a ++ b)) <= hi -> uput u m dst (a ++ b) = uput u (uput u m dst a) (dst + Z.of_nat (length a)) b.
Proof.
  intros Hr Hlo Hhi. rewrite length_app in Hhi. unfold uput at 1. rewrite uwrite_app.
  rewrite (uwrite_total u m lo hi dst a Hr) by lia. simpl. by rewrite (uwrite_total u _ lo hi) by (done || lia).
Qed.

(** The process [p] of [k] with its page table [t]. *)
Definition user_proc (p : Z) (t : ptree) (u : list (Z * Z)) (k : kernel) : Prop :=
  umem k t u /\ ps_cur (k_ps k) = Some p /\ p_pagetable (ps_proc (k_ps k) p) = root t /\ KmemLock ∉ k_held k.

Lemma either_copyout_user p pid t u lo hi k0 k dst bs :
  user_range u lo hi -> 0 <= lo -> user_proc p t u k0 -> blk_frame k0 k -> running k p pid -> k_held k = [] ->
  lo <= dst -> dst + Z.of_nat (length bs) <= hi ->
  either_copyout true dst bs k = Ret 0 (set_mem (uput u (k_mem k) dst bs) k) /\ user_proc p t u (set_mem (uput u (k_mem k0) dst bs) k0).
Proof.
  intros Hr H0 (Hu & Hc & Hpt & Hl) (s & ps & -> & Hw & _) Hrun Hh Hlo Hhi.
  destruct (ps_woke_cur _ _ _ Hw Hc) as [Hc' Hp']. ksimp in Hh.
  assert (umem (set_fs s (set_ps ps k0)) t u) as Hu' by (apply (umem_ext k0); ksimp; done).
  destruct Hu' as [(l & Hus) Hhi']. split.
  - unfold either_copyout. erewrite bind_eq by (by apply curproc_eq). cbv beta. kpure. ksimp. rewrite Hp', Hpt. unfold copyout.
    destruct (copyout_loop_spec (length bs) _ t u l dst bs Hus Hhi') as (r & m' & j & Hrn & Hwr & Hres); [lia|done|].
    rewrite Hrn. destruct Hres as [(-> & ->)|(_ & Hj & Hn)].
    + rewrite firstn_all in Hwr. rewrite (uwrite_total u _ lo hi dst bs Hr) in Hwr by lia. by injection Hwr as <-.
    + destruct (Hr (dst + Z.of_nat j)) as [a Ha]; [lia|]. congruence.
  - destruct Hu as [(l0 & Hus0) Hhi0]. pose proof (uwrite_total u (k_mem k0) lo hi dst bs Hr Hlo Hhi) as Hwr.
    destruct (uwrite_keeps _ _ _ _ _ _ _ Hus0 Hwr) as [Hk1 Hk2]. split; [|done].
    split; [by exists l0|by apply (hi_closed_keeps _ _ _ Hhi0)].
Qed.

End user.

#[local] Opaque either_copyout.

(** ** The content of an inode *)

(** The block of the device that holds block [bn] of the file. *)
Definition baddr (i : inode) (V : Z -> list Z) (bn : Z) : Z :=
  if bn <? NDIRECT then addr_at bn i else rd 4 (4 * (bn - NDIRECT)) (V (addr_at NDIRECT i)).

(** Block [bn] is allocated. *)
Definition mapped (i : inode) (V : Z -> list Z) (bn : Z) : Prop :=
  0 <= bn < MAXFILE /\ baddr i V bn <> 0 /\ (NDIRECT <= bn -> addr_at NDIRECT i <> 0).

Definition fbyte (i : inode) (V : Z -> list Z) (off : Z) : Z :=
  default 0 (V (baddr i V (off / BSIZE)) !! Z.to_nat (off mod BSIZE)).

(** [n] bytes of the file from [off] on. *)
Definition content (i : inode) (V : Z -> list Z) (off n : Z) : list Z := fbyte i V <$> seqZ off n.

Lemma length_content i V off n : length (content i V off n) = Z.to_nat n.
Proof. unfold content. by rewrite length_fmap, length_seqZ. Qed.

Lemma content_app i V off n m : 0 <= n -> 0 <= m -> content i V off (n + m) = content i V off n ++ content i V (off + n) m.
Proof. intros. unfold content. by rewrite seqZ_app, fmap_app by lia. Qed.

(** The part of the content that lies in one block. *)
Lemma content_slice i V off m :
  0 <= off -> 0 <= m -> off mod BSIZE + m <= BSIZE -> length (V (baddr i V (off / BSIZE))) = Z.to_nat BSIZE ->
  slice (off mod BSIZE) m (V (baddr i V (off / BSIZE))) = content i V off m.
Proof.
  intros Hoff Hm Hle Hl. assert (0 < BSIZE) by done. pose proof (Z.mod_pos_bound off BSIZE ltac:(done)) as Hmod.
  apply list_eq. intros j. destruct (decide (j < Z.to_nat m)%nat) as [Hj|Hj].
  - rewrite lookup_slice by done. unfold content. rewrite list_lookup_fmap, lookup_seqZ_lt by lia. simpl. unfold fbyte.
    assert ((off + Z.of_nat j) / BSIZE = off / BSIZE /\ (off + Z.of_nat j) mod BSIZE = off mod BSIZE + Z.of_nat j) as [-> ->].
    { unfold BSIZE in *. dlia. }
    rewrite Z2Nat.inj_add, Nat2Z.id by lia. destruct (lookup_lt_is_Some_2 (V (baddr i V (off / BSIZE))) (Z.to_nat (off mod BSIZE) + j)%nat) as [x ->]; [|done].
    rewrite Hl. unfold BSIZE in *. lia.
  - rewrite !lookup_ge_None_2; [done|rewrite length_content; lia|]. rewrite length_slice; lia.
Qed.

Section read.
Context {L : Layout} {W : Wakeups} {D : Disk} {DOk : DiskOk D} (dev : Z) (Hdev : dev <> 0) (p pid : Z).
Context (w : list (Z * list Z)) (dk : Z -> list Z) (lg : log) (hs : list Z) (V : Z -> list Z) (ip : Z) (i : inode).
Context (Hidev : i_dev i = dev) (Hroom : Z.of_nat (length hs) + 1 < NBUF).
Context (HV : forall n, length (V n) = Z.to_nat BSIZE).

(** The process holds no buffer and has stored nothing that is not logged;
    whether a transaction is running does not matter. *)
Definition reading (k0 k : kernel) : Prop := viewing dev p pid k0 w dk lg hs V [] [] k /\ fs_inode (k_fs k0) ip = i.

Lemma reading_geti {A} (f : inode -> A) k0 k : reading k0 k -> geti ip f k = Ret (f i) k.
Proof.
  intros [(F & [Ha _ _ _ _]) Hi]. destruct (ak_frame _ _ _ _ _ _ _ _ _ Ha) as (s & ps & -> & _ & _ & E & _).
  unfold geti, gets. ksimp. by rewrite E, Hi.
Qed.

(** [bmap] of an allocated block allocates nothing. *)
Lemma bmap_run k0 k bn :
  reading k0 k -> mapped i V bn -> wp (bmap ip bn) (fun a k' => a = baddr i V bn /\ reading k0 k') k.
Proof.
  intros Hr (Hbn & Hne & Hind). unfold bmap, baddr in *. destruct (Z.ltb_spec bn NDIRECT) as [Hlt|Hge].
  - apply wp_bind. eapply wp_eq; [by apply (reading_geti _ k0)|]. rewrite (proj2 (Z.eqb_neq _ _)) by done. by apply wp_ret.
  - cbv zeta. rewrite (proj2 (Z.ltb_lt _ _)) by (unfold MAXFILE in Hbn; lia). apply wp_bind. eapply wp_eq; [by apply (reading_geti _ k0)|].
    apply wp_bind. rewrite (proj2 (Z.eqb_neq _ _)) by (by apply Hind). apply wp_ret.
    apply wp_bind. eapply wp_eq; [by apply (reading_geti _ k0)|]. rewrite Hidev. destruct Hr as [Hi Hino].
    apply wp_bind. eapply wp_mono; [apply (viewing_bread dev Hdev _ _ _ _ _ lg hs V [] [] k _ Hi); [apply not_elem_of_nil|simpl; lia]|].
    cbv beta. intros bp k1 Hi1. apply wp_bind. eapply wp_eq; [apply (viewing_data dev Hdev _ _ _ _ _ _ _ _ _ _ k1 (addr_at NDIRECT i) bp Hi1), list_elem_of_here|].
    cbv zeta. rewrite (proj2 (Z.eqb_neq _ _)) by done. apply wp_bind, wp_ret. apply wp_bind.
    eapply wp_mono; [apply (viewing_brelse dev Hdev _ _ _ _ _ _ _ _ _ _ k1 (addr_at NDIRECT i) bp Hi1); right; apply not_elem_of_nil|].
    cbv beta. intros _ k2 Hi2. by apply wp_ret.
Qed.

(** The destination: [put] is what a successful [either_copyout] does to
    memory, for addresses from [lo] to [hi], while [P] holds. *)
Context (ud : bool) (P : kernel -> Prop) (put : mem -> Z -> list Z -> mem) (lo hi : Z).
Context (Hput : forall k0 k dst bs, P k0 -> blk_frame k0 k -> running k p pid -> k_held k = [] -> lo <= dst -> dst + Z.of_nat (length bs) <= hi ->
  either_copyout ud dst bs k = Ret 0 (set_mem (put (k_mem k) dst bs) k) /\ P (set_mem (put (k_mem k0) dst bs) k0)).
Context (Hput_nil : forall m dst, put m dst [] = m).
Context (Hput_app : forall m dst a b, lo <= dst -> dst + Z.of_nat (length (a ++ b)) <= hi ->
  put m dst (a ++ b) = put (put m dst a) (dst + Z.of_nat (length a)) b).
Context (Hhi : 0 <= lo /\ hi < 2 ^ 64).

Lemma readi_loop_run fuel k0 k dst off n tot :
  reading k0 k -> P k0 -> (forall o, off <= o < off + (n - tot) -> mapped i V (o / BSIZE)) -> 0 <= off -> 0 <= tot <= n ->
  lo <= dst -> dst + (n - tot) <= hi -> (tot < n -> n - tot + off mod BSIZE <= Z.of_nat fuel * BSIZE) ->
  wp (readi_loop fuel ip ud dst off n tot) (fun r k' => r = n /\ exists k1, reading k1 k' /\ P k1 /\
    k_mem k' = put (k_mem k) dst (content i V off (n - tot))) k.
Proof.
  assert (0 < BSIZE) as HB by done.
  revert k0 k dst off tot. induction fuel as [|fuel IH]; intros k0 k dst off tot Hr HP Hmap Hoff Htot Hlo Hhi' Hfuel.
  all: cbn [readi_loop]; destruct (Z.ltb_spec tot n) as [Hlt|Hge].
  2,4: apply wp_ret; split; [lia|]; exists k0; split_and!; try done; replace (n - tot) with 0 by lia; by rewrite Hput_nil.
  { specialize (Hfuel Hlt). pose proof (Z.mod_pos_bound off BSIZE HB). lia. }
  specialize (Hfuel Hlt).
  pose proof (Z.mod_pos_bound off BSIZE HB) as Hmod. set (m := Z.min (n - tot) (BSIZE - off mod BSIZE)).
  assert (Hm : 0 < m <= n - tot /\ off mod BSIZE + m <= BSIZE /\ (m < n - tot -> off mod BSIZE + m = BSIZE)) by (unfold m; lia). clearbody m.
  apply wp_bind. eapply wp_mono; [apply (bmap_run k0 k _ Hr), Hmap; lia|]. cbv beta. intros a k1 [-> Hr1].
  apply wp_bind. eapply wp_eq; [by apply (reading_geti _ k0)|]. rewrite Hidev. pose proof Hr1 as [Hi1 Hino].
  apply wp_bind. eapply wp_mono; [apply (viewing_bread dev Hdev _ _ _ _ _ lg hs V [] [] k1 (baddr i V (off / BSIZE)) Hi1); [apply not_elem_of_nil|simpl; lia]|].
  cbv beta. intros bp k2 Hi2. cbv zeta.
  apply wp_bind. eapply wp_eq; [apply (viewing_data dev Hdev _ _ _ _ _ _ _ _ _ _ k2 (baddr i V (off / BSIZE)) bp Hi2), list_elem_of_here|].
  rewrite content_slice by (done || lia). destruct (viewing_frame _ _ _ _ _ _ _ _ _ _ _ _ Hi2) as (Hf2 & Hrun2 & Hh2 & Hm2).
  destruct (viewing_frame _ _ _ _ _ _ _ _ _ _ _ _ (proj1 Hr)) as (_ & _ & _ & Hmk).
  destruct (Hput k0 k2 dst (content i V off m) HP Hf2 Hrun2 Hh2 Hlo) as [Hcp HP']; [rewrite length_content; lia|].
  apply wp_bind. eapply wp_eq; [exact Hcp|]. change (0 =? -1) with false. cbv iota.
  rewrite Hm2. apply (viewing_mem _ _ _ _ _ _ _ _ _ _ _ _ (put (k_mem k0) dst (content i V off m))) in Hi2.
  apply wp_bind. eapply wp_mono; [apply (viewing_brelse dev Hdev _ _ _ _ _ _ _ _ _ _ _ _ bp Hi2); right; apply not_elem_of_nil|].
  cbv beta. intros _ k3 Hi3. rewrite u64_small by lia.
  eapply wp_mono; [apply (IH (set_mem (put (k_mem k0) dst (content i V off m)) k0) k3 (dst + m) (off + m) (tot + m)); [by split|done|..]; try lia|].
  { intros o Ho. apply Hmap. lia. }
  { intros Hlt'. assert ((off + m) mod BSIZE = 0) as -> by (unfold BSIZE in *; dlia). lia. }
  cbv beta. intros r k4 (-> & k5 & Hr5 & HP5 & Hm5). split; [done|]. exists k5. split_and!; try done.
  destruct (viewing_frame _ _ _ _ _ _ _ _ _ _ _ _ Hi3) as (_ & _ & _ & Hm3). rewrite Hm5, Hm3, Hmk. ksimp.
  replace (n - tot) with (m + (n - (tot + m))) by lia. rewrite content_app by lia.
  rewrite Hput_app by (rewrite ?length_app, ?length_content; lia). by rewrite length_content, Z2Nat.id by lia.
Qed.

(** The number of bytes [readi] delivers. *)
Definition avail (off n : Z) : Z := Z.max 0 (Z.min n (i_size i - off)).

Lemma readi_run k0 k dst off n :
  reading k0 k -> P k0 -> 0 <= off -> 0 <= n -> off + n < 2 ^ 32 -> (forall o, off <= o < off + avail off n -> mapped i V (o / BSIZE)) ->
  lo <= dst -> dst + avail off n <= hi ->
  wp (readi ip ud dst off n) (fun r k' => r = avail off n /\ exists k1, reading k1 k' /\ P k1 /\
    k_mem k' = put (k_mem k) dst (content i V off r)) k.
Proof.
  intros Hr HP Hoff Hn Hov Hmap Hlo Hd. unfold readi. apply wp_bind. eapply wp_eq; [by apply (reading_geti _ k0)|].
  rewrite u32_small by lia. rewrite (proj2 (Z.ltb_ge (off + n) off)) by lia. rewrite orb_false_r.
  destruct (Z.ltb_spec (i_size i) off) as [Hlt|Hge].
  { apply wp_ret. assert (avail off n = 0) as -> by (unfold avail; lia). split; [done|]. exists k0. split_and!; try done; by rewrite Hput_nil. }
  cbv zeta. assert ((if i_size i <? off + n then i_size i - off else n) = avail off n) as ->.
  { unfold avail. destruct (Z.ltb_spec (i_size i) (off + n)); lia. }
  assert (0 <= avail off n <= n) as Hav by (unfold avail; lia).
  eapply wp_mono; [apply (readi_loop_run _ k0 k dst off (avail off n) 0 Hr HP); rewrite ?Z.sub_0_r; try done; try lia|].
  - intros _. unfold BSIZE in *. dlia.
  - cbv beta. rewrite Z.sub_0_r. intros r k' (-> & Hx). split; [done|exact Hx].
Qed.

End read.

(** C12: [readi] of a file whose blocks are allocated copies exactly the bytes
    of the file from [off] on to the user's buffer, [n] of them or as many as
    the file has, direct and indirect blocks alike, and returns their number;
    the disk, the cache and the log are as before. The buffer has to be mapped
    for the user as far as bytes are delivered; no transaction has to be
    running. *)
Theorem readi_reads_file {L : Layout} {LOk : LayoutOk L} {W : Wakeups} {D : Disk} {DOk : DiskOk D}
    dev p pid w dk lg hs V ip i k0 k t u dst off n :
  dev <> 0 -> reading dev p pid w dk lg hs V ip i k0 k -> i_dev i = dev -> Z.of_nat (length hs) + 1 < NBUF ->
  (forall b, is_block (V b)) -> user_proc p t u k0 -> user_range u dst (dst + avail i off n) -> 0 <= dst -> dst + avail i off n < 2 ^ 64 ->
  0 <= off -> 0 <= n -> off + n < 2 ^ 32 -> (forall o, off <= o < off + avail i off n -> mapped i V (o / BSIZE)) ->
  wp (readi ip true dst off n) (fun r k' => r = avail i off n /\
    uread u (k_mem k') dst (Z.to_nat r) = Some (content i V off r) /\
    exists k1, reading dev p pid w dk lg hs V ip i k1 k' /\ user_proc p t u k1) k.
Proof.
  intros Hdev Hr Hidev Hroom HV Hu Hrange Hd0 Hd1 Hoff Hn Hov Hmap.
  destruct (viewing_frame _ _ _ _ _ _ _ _ _ _ _ _ (proj1 Hr)) as (_ & _ & _ & Hm).
  eapply wp_mono.
  - apply (readi_run dev Hdev p pid w dk lg hs V ip i Hidev Hroom (fun b => proj1 (HV b)) true (user_proc p t u) (uput u) dst (dst + avail i off n)) with (k0 := k0); try done; try lia.
    + intros k2 k3 d bs. intros. by apply (either_copyout_user p pid t u dst (dst + avail i off n)).
    + intros. by apply (uput_app _ _ dst (dst + avail i off n)).
  - cbv beta. intros r k' (-> & k1 & Hr1 & Hu1 & Hm'). split; [done|]. split; [|by exists k1].
    assert (0 <= avail i off n <= n) by (unfold avail; lia). destruct Hu as [[(l & Hus) _] _].
    rewrite <- (length_content i V off). eapply uread_uwrite; [exact Hus| |].
    + rewrite Hm'. apply (uwrite_total u _ dst (dst + avail i off n)); [done|lia|]. rewrite length_content. lia.
    + apply Forall_fmap, Forall_forall. intros o _. simpl. unfold fbyte. destruct (V _ !! _) as [x|] eqn:E; simpl; [|lia].
      destruct (HV (baddr i V (o / BSIZE))) as [_ Hb]. by apply (Forall_lookup_1 _ _ _ _ Hb E).
Qed.

(** ** An instance: a file of 1500 bytes in blocks 50 and 51, and no
    transaction *)

Module ReadDemo.
#[local] Existing Instances demo_layout demo_layout_ok.
#[local] Instance no_wakeups : Wakeups := 0%nat.
#[local] Instance disk : Disk := ideal_disk.

Definition blocks (n : Z) : list Z := if n =? 50 then replicate 1024 7 else if n =? 51 then replicate 1024 8 else zero_block.
Definition file_i : inode := mkinode 1 5 1 unlocked 1 T_FILE 0 0 1 1500 (50 :: 51 :: replicate 11 0).

Lemma file_blocks_ok n : is_block (blocks n).
Proof.
  unfold blocks. destruct (n =? 50); [|destruct (n =? 51); [|apply is_block_zero]];
    (split; [reflexivity|apply Forall_replicate; lia]).
Qed.

Lemma file_mapped o : 0 <= o < 2048 -> mapped file_i blocks (o / BSIZE).
Proof.
  intros Ho. assert (o / BSIZE = 0 \/ o / BSIZE = 1) as [-> | ->] by (unfold BSIZE; dlia);
    (split; [vm_compute; split; [discriminate|reflexivity]|]; split; [vm_compute; discriminate|]; intros H; vm_compute in H; destruct (H eq_refl)).
Qed.

Lemma read_demo :
  exists k t u, reading 1 3 7 [] blocks log0 [] blocks 0 file_i k k /\ user_proc 3 t u k /\ user_range u 0 8192.
Proof.
  destruct demo_grown as (k & t & u & l & Hu & Hh & Hl2 & Hperm & _).
  set (ps := ps_set_cur (Some 3) (ps_upd 3 (fun x => set_pid 7 (set_pagetable (root t) x)) procsys0)).
  set (fs := mkfssys blocks [] (fun _ => buf0) log0 (mksuperblock FSMAGIC 100 90 10 0 0 0 2) (fun _ => file_i) (fun _ => file0) (fun _ => pipe0)).
  destruct (cold_viewing 1 3 7 (set_fs fs (set_ps ps (set_held [] k)))) as (s' & [f ->] & Hi); [lia|done|done|done|].
  eexists _, t, u. split; [split; [exact Hi|done]|]. split.
  - split; [|split; [done|split; [done|ksimp; apply not_elem_of_nil]]].
    apply (umem_ext k); [split; [by exists l|done]|by ksimp..|]. ksimp. apply not_elem_of_nil.
  - intros va Hva. unfold uaddr. rewrite decide_False by lia.
    destruct (lookup_lt_is_Some_2 u (Z.to_nat (va / PGSIZE))) as [e He]; [rewrite Hl2; unfold PGSIZE; dlia|].
    rewrite He. rewrite Forall_forall in Hperm. rewrite (Hperm e) by (by eapply list_elem_of_lookup_2). by eexists.
Qed.

Lemma readi_reads_file_witness :
  exists k t u, user_proc 3 t u k /\
    wp (readi 0 true 100 1000 4000) (fun r k' => r = 500 /\ uread u (k_mem k') 100 500 = Some (content file_i blocks 1000 500)) k.
Proof.
  destruct read_demo as (k & t & u & Hr & Hu & Hrange). exists k, t, u. split; [exact Hu|]. eapply wp_mono.
  - apply (readi_reads_file 1 3 7 [] blocks log0 [] blocks 0 file_i k k t u 100 1000 4000);
      [lia|exact Hr|reflexivity|vm_compute; reflexivity|exact file_blocks_ok|exact Hu| |lia|vm_compute; reflexivity|lia|lia|lia| ].
    + intros va Hva. apply Hrange. change (avail file_i 1000 4000) with 500 in Hva. lia.
    + intros o Ho. apply file_mapped. change (avail file_i 1000 4000) with 500 in Ho. lia.
  - intros r k' (Hr' & Hread & _). change (avail file_i 1000 4000) with 500 in Hr'. rewrite Hr' in Hread. split; [exact Hr'|exact Hread].
Defined.

End ReadDemo.
