(* ===== verification/FileProps.v ===== *)
(** * Descriptors and the file table

    [refs_ok]: the reference count of every open file is the number of
    descriptors, of all processes, that refer to it. *)

From S2P Require Import Prelude Riscv Monad State Kstring Bytes Printf Kalloc Vm VmInv VmMap Uspace VmFree VmCopy VmProps Proc ProcInv Sleeplock Bio BioInv Log Fs Dir Console Pipe File Fork Exec Sysargs Sysfile.
#[local] Open Scope Z_scope.

#[local] Opaque acquire release load64.

(** The number of descriptors in [o] that refer to [f]. *)
Definition fd_count (f : Z) (o : list (option Z)) : nat := length (filter (fun x => x = Some f) o).

Definition nrefs (ps : procsys) (f : Z) : nat := sum_list_with (fun q => fd_count f (p_ofile (ps_proc ps q))) (seqZ 0 NPROC).

Record refs_ok (k : kernel) : Prop := {
  ro_len q : 0 <= q < NPROC -> length (p_ofile (ps_proc (k_ps k) q)) = Z.to_nat NOFILE;
  ro_range q j f : 0 <= q < NPROC -> p_ofile (ps_proc (k_ps k) q) !! j = Some (Some f) -> 0 <= f < NFILE;
  ro_ref f : 0 <= f < NFILE -> f_ref (fs_file (k_fs k) f) = Z.of_nat (nrefs (k_ps k) f)
}.

Lemma fd_count_insert f g o j :
  o !! j = Some None -> fd_count g (<[j := Some f]> o) = (fd_count g o + (if decide (g = f) then 1 else 0))%nat.
Proof.
  intros Hj. unfold fd_count. rewrite (insert_take_drop o j (Some f)) by (by eapply lookup_lt_Some).
  rewrite <- (take_drop_middle o j None Hj) at 3. rewrite !filter_app, !length_app, !filter_cons.
  rewrite (decide_False (P := (None : option Z) = Some g)) by done.
  destruct (decide (g = f)) as [->|Hne]; [rewrite decide_True by done; simpl; lia|rewrite decide_False by congruence; lia].
Qed.

Lemma sum_list_at (l : list Z) (g h : Z -> nat) p d :
  NoDup l -> p ∈ l -> h p = (g p + d)%nat -> (forall q, q <> p -> h q = g q) -> sum_list_with h l = (sum_list_with g l + d)%nat.
Proof.
  intros Hnd Hp Hhp Ho. apply list_elem_of_split in Hp as (l1 & l2 & ->).
  apply NoDup_app in Hnd as (_ & H1 & [H2 _]%NoDup_cons).
  assert (forall l', p ∉ l' -> sum_list_with h l' = sum_list_with g l') as E.
  { intros l'. induction l' as [|a l' IH]; [done|]. intros [Ha Hl]%not_elem_of_cons. simpl. rewrite Ho by congruence. by rewrite IH. }
  rewrite !sum_list_with_app. simpl. rewrite Hhp, (E l2 H2), (E l1); [lia|]. intros Hin. apply (H1 p Hin), list_elem_of_here.
Qed.

Section file.
Context {L : Layout} {W : Wakeups} {D : Disk}.

(** The lowest free descriptor, if any. *)
Lemma fdalloc_loop_eq n p f fd k :
  0 <= fd -> (Z.to_nat fd + n <= length (p_ofile (ps_proc (k_ps k) p)))%nat ->
  let o := p_ofile (ps_proc (k_ps k) p) in
  (exists r, fdalloc_loop n p f fd k = Ret r (set_ps (ps_upd p (fun q => set_ofile (<[Z.to_nat r := Some f]> (p_ofile q)) q) (k_ps k)) k) /\
     fd <= r < fd + Z.of_nat n /\ o !! Z.to_nat r = Some None /\ forall j, fd <= j < r -> exists g, o !! Z.to_nat j = Some (Some g)) \/
  (fdalloc_loop n p f fd k = Ret (-1) k /\ forall j, fd <= j < fd + Z.of_nat n -> exists g, o !! Z.to_nat j = Some (Some g)).
Proof.
  intros Hfd Hl o. revert fd Hfd Hl. induction n as [|n IH]; intros fd Hfd Hl; cbn [fdalloc_loop].
  { right. split; [done|]. intros j Hj. lia. }
  destruct (lookup_lt_is_Some_2 o (Z.to_nat fd)) as [x Hx]; [unfold o; lia|]. kpure. fold o. rewrite Hx. destruct x as [g|].
  - destruct (IH (fd + 1)) as [(r & Hr & Hb & Hn & Hj)|(Hr & Hj)]; [lia|lia|left; exists r|right]; (split; [exact Hr|]).
    + split; [lia|]. split; [done|]. intros j Hj'. destruct (decide (j = fd)) as [->|]; [by exists g|]. apply Hj. lia.
    + intros j Hj'. destruct (decide (j = fd)) as [->|]; [by exists g|]. apply Hj. lia.
  - left. exists fd. split; [done|]. split; [lia|]. split; [done|]. intros j Hj. lia.
Qed.

(** The descriptor a system call passes in register [a_n]. *)
Definition fd_arg (n : Z) (k : kernel) (p : Z) : Z := s32 (load64 (k_mem k) (p_trapframe (ps_proc (k_ps k) p) + tf_a n)).

(** The file it stands for. *)
Definition fd_file (fd : Z) (o : list (option Z)) : option Z :=
  if (fd <? 0) || (NOFILE <=? fd) then None else match o !! Z.to_nat fd with Some (Some f) => Some f | _ => None end.

Lemma argfd_eq p k :
  ps_cur (k_ps k) = Some p ->
  argfd 0 k = Ret ((fun f => (fd_arg 0 k p, f)) <$> fd_file (fd_arg 0 k p) (p_ofile (ps_proc (k_ps k) p))) k.
Proof.
  intros Hc. unfold argfd. rewrite (bind_eq _ _ k (fd_arg 0 k p) k).
  2:{ unfold argint, argraw. erewrite bind_eq; [reflexivity|]. erewrite bind_eq by (by apply curproc_eq). reflexivity. }
  unfold fd_file. destruct ((fd_arg 0 k p <? 0) || (NOFILE <=? fd_arg 0 k p)); [done|].
  erewrite bind_eq by (by apply curproc_eq). cbv beta. kpure. by destruct (p_ofile (ps_proc (k_ps k) p) !! _) as [[f|]|].
Qed.

Lemma filedup_eq f k :
  k_held k = [] -> 1 <= f_ref (fs_file (k_fs k) f) ->
  filedup f k = Ret f (set_fs (fs_upd_file f (set_f_ref (f_ref (fs_file (k_fs k) f) + 1)) (k_fs k)) k).
Proof.
  intros Hh Hr. unfold filedup. erewrite bind_eq by (apply acquire_eq; rewrite Hh; apply not_elem_of_nil). cbv beta. kpure. ksimp.
  rewrite (proj2 (Z.ltb_ge _ _)) by lia. kpure. erewrite bind_eq by (apply (release_eq _ []); [ksimp; by rewrite Hh|apply not_elem_of_nil]).
  cbv beta. ksimp. unfold mret, M_ret. f_equal. by rewrite <- Hh, set_held_id.
Qed.

(** A descriptor more and a reference more. *)
Lemma refs_ok_dup p f r k :
  refs_ok k -> 0 <= p < NPROC -> 0 <= f < NFILE -> p_ofile (ps_proc (k_ps k) p) !! Z.to_nat r = Some None ->
  refs_ok (set_fs (fs_upd_file f (set_f_ref (f_ref (fs_file (k_fs k) f) + 1)) (k_fs k))
    (set_ps (ps_upd p (fun q => set_ofile (<[Z.to_nat r := Some f]> (p_ofile q)) q) (k_ps k)) k)).
Proof.
  intros [H1 H2 H3] Hp Hf Hr. split; ksimp.
  - intros q Hq. rewrite ps_proc_upd. case_decide; [subst; simpl; rewrite length_insert|]; by apply H1.
  - intros q j g Hq. rewrite ps_proc_upd. case_decide as E; [subst q|by apply H2]. simpl.
    intros Hj. apply list_lookup_insert_Some in Hj as [(_ & [= ->] & _)|(_ & Hj)]; [done|]. by apply (H2 p j g).
  - intros g Hg. unfold nrefs. rewrite (sum_list_at (seqZ 0 NPROC) (fun q => fd_count g (p_ofile (ps_proc (k_ps k) q))) _ p (if decide (g = f) then 1 else 0)%nat).
    + fold (nrefs (k_ps k) g). unfold fs_upd_file. cbn [fs_file]. rewrite fn_insert_case.
      case_decide as E; [subst g; simpl|]; rewrite H3 by done; lia.
    + apply NoDup_seqZ.
    + apply elem_of_seqZ. lia.
    + rewrite ps_proc_upd_eq. simpl. by apply fd_count_insert.
    + intros q Hq. by rewrite ps_proc_upd_ne.
Qed.

(** A descriptor keeps its file open. *)
Lemma refs_ok_open p j f k :
  refs_ok k -> 0 <= p < NPROC -> p_ofile (ps_proc (k_ps k) p) !! j = Some (Some f) -> 0 <= f < NFILE /\ 1 <= f_ref (fs_file (k_fs k) f).
Proof.
  intros [H1 H2 H3] Hp Hj. pose proof (H2 p j f Hp Hj) as Hf. split; [done|]. rewrite H3 by done.
  assert (1 <= fd_count f (p_ofile (ps_proc (k_ps k) p)))%nat as Hc.
  { unfold fd_count. assert (Some f ∈ filter (fun x => x = Some f) (p_ofile (ps_proc (k_ps k) p))) as Hin.
    { apply list_elem_of_filter. split; [done|]. by eapply list_elem_of_lookup_2. }
    destruct (filter _ _); [by apply elem_of_nil in Hin|simpl; lia]. }
  assert (p ∈ seqZ 0 NPROC) as Hin by (apply elem_of_seqZ; lia). apply list_elem_of_split in Hin as (l1 & l2 & E).
  unfold nrefs. rewrite E, sum_list_with_app. simpl. lia.
Qed.

(** C27: [dup] of an open descriptor returns the lowest free descriptor, which
    refers to the same file from then on; -1, with nothing changed, for a bad
    descriptor or when none is free. In both cases every file's reference
    count is still the number of descriptors that refer to it. *)
Theorem sys_dup_shares_file p k :
  ps_cur (k_ps k) = Some p -> 0 <= p < NPROC -> k_held k = [] -> refs_ok k ->
  let o := p_ofile (ps_proc (k_ps k) p) in
  exists r k', sys_dup k = Ret r k' /\ refs_ok k' /\
    ((exists f, fd_file (fd_arg 0 k p) o = Some f /\ fd_file r o = None /\ 0 <= r < NOFILE /\
        (forall j, 0 <= j < r -> is_Some (fd_file j o)) /\
        p_ofile (ps_proc (k_ps k') p) = <[Z.to_nat r := Some f]> o) \/
     (r = -1 /\ k' = k /\ (fd_file (fd_arg 0 k p) o = None \/ forall j, 0 <= j < NOFILE -> is_Some (fd_file j o)))).
Proof.
  intros Hc Hp Hh Hro o. unfold sys_dup. erewrite bind_eq by (by apply argfd_eq). cbv beta. fold o.
  destruct (fd_file (fd_arg 0 k p) o) as [f|] eqn:Ef; cbn [fmap option_fmap option_map].
  2:{ exists (-1), k. split; [done|]. split; [done|]. right. split_and!; try done. by left. }
  assert (fdalloc f k = fdalloc_loop (Z.to_nat NOFILE) p f 0 k) as Hfd by (unfold fdalloc; by erewrite bind_eq by (by apply curproc_eq)).
  assert (Hopen : forall j, 0 <= j < NOFILE -> (exists g, o !! Z.to_nat j = Some (Some g)) -> is_Some (fd_file j o)).
  { intros j Hj (g & Hg). unfold fd_file. rewrite (proj2 (Z.ltb_ge _ _)), (proj2 (Z.leb_gt _ _)), Hg by lia. by eexists. }
  assert (exists j, o !! j = Some (Some f)) as (j & Hj).
  { unfold fd_file in Ef. destruct (_ || _); [done|]. destruct (o !! Z.to_nat (fd_arg 0 k p)) as [[g|]|] eqn:Eo; [|done|done].
    injection Ef as ->. by eexists. }
  destruct (refs_ok_open p j f k Hro Hp Hj) as [Hf Hr1].
  destruct (fdalloc_loop_eq (Z.to_nat NOFILE) p f 0 k) as [(r & Hrun & Hr & Hn & Hlow)|(Hrun & Hall)]; [done| | |].
  { rewrite (ro_len _ Hro) by done. simpl. lia. }
  - rewrite Z2Nat.id in Hr by done. fold o in Hn, Hlow. rewrite Hrun in Hfd. erewrite bind_eq by exact Hfd. cbv beta. rewrite (proj2 (Z.ltb_ge r 0)) by lia.
    erewrite bind_eq by (apply filedup_eq; ksimp; [done|lia]). cbv beta. ksimp. eexists _, _. split; [reflexivity|]. split; [by apply refs_ok_dup|].
    left. exists f. split; [done|]. split; [|split; [lia|split; [intros i Hi; apply Hopen; [lia|by apply Hlow]|ksimp; by rewrite ps_proc_upd_eq]]].
    unfold fd_file. rewrite (proj2 (Z.ltb_ge _ _)), (proj2 (Z.leb_gt _ _)) by lia. simpl. by rewrite Hn.
  - rewrite Hrun in Hfd. erewrite bind_eq by exact Hfd. cbv beta. exists (-1), k. split; [done|]. split; [done|]. right. split_and!; try done.
    right. intros i Hi. apply Hopen; [done|]. apply Hall. rewrite Z2Nat.id by done. lia.
Qed.

End file.

(** ** An instance: process 2 with descriptors 0 and 1 *)

Module DupDemo.
#[local] Existing Instances demo_layout demo_layout_ok.
#[local] Instance no_wakeups : Wakeups := 0%nat.
#[local] Instance disk : Disk := ideal_disk.

Definition files (f : Z) : file := if f =? 0 then set_f_ref 2 file0 else file0.
Definition kd : kernel :=
  set_fs (mkfssys (fun _ => []) [] (fun _ => buf0) log0 (mksuperblock 0 0 0 0 0 0 0 0) (fun _ => inode0) files (fun _ => pipe0))
    (set_ps (ps_set_cur (Some 2) (ps_upd 2 (set_ofile (Some 0 :: Some 0 :: replicate 14 None)) procsys0)) boot).

Lemma kd_refs : refs_ok kd.
Proof.
  assert (forall q, p_ofile (ps_proc (k_ps kd) q) = if decide (q = 2) then Some 0 :: Some 0 :: replicate 14 None else replicate 16 None) as E.
  { intros q. unfold kd. ksimp. unfold ps_set_cur. cbn [ps_proc]. rewrite ps_proc_upd. by case_decide. }
  split.
  - intros q _. rewrite E. by case_decide.
  - intros q j f _. rewrite E. case_decide.
    + destruct j as [|[|j]]; cbn [lookup list_lookup]; [intros [= <-]; done|intros [= <-]; done|]. change (replicate 14 (None : option Z) !! j = Some (Some f) -> 0 <= f < NFILE).
      intros [? _]%lookup_replicate. done.
    + intros [? _]%lookup_replicate. done.
  - intros f Hf. assert (Forall (fun f => f_ref (fs_file (k_fs kd) f) = Z.of_nat (nrefs (k_ps kd) f)) (seqZ 0 NFILE)) as H.
    { apply (bool_decide_unpack _). vm_compute. exact I. }
    rewrite Forall_forall in H. apply H, elem_of_seqZ. lia.
Qed.

Lemma sys_dup_shares_file_witness :
  exists r k', sys_dup kd = Ret r k' /\ refs_ok k'.
Proof.
  destruct (sys_dup_shares_file 2 kd) as (r & k' & H1 & H2 & _);
    [reflexivity|vm_compute; split; [discriminate|reflexivity]|reflexivity|exact kd_refs|].
  exists r, k'. split; [exact H1|exact H2].
Defined.

End DupDemo.
