(* ===== verification/InodeProps.v ===== *)
(** * The inode table: [iget] *)

From S2P Require Import Prelude Riscv Monad State Kstring Bytes Printf Kalloc Vm Proc ProcInv Sleeplock Dlist Bio BioInv Log Fs.
#[local] Open Scope Z_scope.

#[local] Opaque acquire release.

Definition in_table (ip : Z) : Prop := 0 <= ip < NINODE.

(** The entry [ip] is in use for inode [inum] of [dev]. *)
Definition entry_for (dev inum : Z) (s : fssys) (ip : Z) : Prop :=
  0 < i_ref (fs_inode s ip) /\ i_dev (fs_inode s ip) = dev /\ i_inum (fs_inode s ip) = inum.

#[export] Instance entry_for_dec dev inum s ip : Decision (entry_for dev inum s ip).
Proof. unfold entry_for. apply _. Defined.

(** An inode has at most one entry. *)
Record itable_ok (s : fssys) : Prop := {
  it_ref ip : in_table ip -> 0 <= i_ref (fs_inode s ip);
  it_uniq ip jp dev inum : in_table ip -> in_table jp -> entry_for dev inum s ip -> entry_for dev inum s jp -> ip = jp
}.

Lemma fs_inode_upd ip f s jp : fs_inode (fs_upd_inode ip f s) jp = if decide (jp = ip) then f (fs_inode s ip) else fs_inode s jp.
Proof. unfold fs_upd_inode. cbn [fs_inode]. rewrite fn_insert_case. case_decide; by subst. Qed.

Lemma entry_test dev inum s ip :
  (0 <? i_ref (fs_inode s ip)) && (i_dev (fs_inode s ip) =? dev) && (i_inum (fs_inode s ip) =? inum) = bool_decide (entry_for dev inum s ip).
Proof.
  unfold entry_for. case_bool_decide as E.
  - destruct E as (H1 & <- & <-). by rewrite (proj2 (Z.ltb_lt _ _)), !Z.eqb_refl by done.
  - apply andb_false_iff. destruct (Z.eqb_spec (i_inum (fs_inode s ip)) inum); [left|by right]. apply andb_false_iff.
    destruct (Z.eqb_spec (i_dev (fs_inode s ip)) dev); [left|by right]. apply Z.ltb_ge. lia.
Qed.

(** The scan: an entry of the inode if there is one, else the first free
    entry. *)
Lemma iget_loop_eq n ip e dev inum k :
  exists r, iget_loop n ip e dev inum k = Ret r k /\
    match r with
    | inl jp => ip <= jp < ip + Z.of_nat n /\ entry_for dev inum (k_fs k) jp
    | inr e' => (forall jp, ip <= jp < ip + Z.of_nat n -> ~ entry_for dev inum (k_fs k) jp) /\
        (e' = e \/ e = None /\ exists jp, e' = Some jp /\ ip <= jp < ip + Z.of_nat n /\ i_ref (fs_inode (k_fs k) jp) = 0) /\
        (e' = None -> forall jp, ip <= jp < ip + Z.of_nat n -> i_ref (fs_inode (k_fs k) jp) <> 0)
    end.
Proof.
  revert ip e. induction n as [|n IH]; intros ip e; cbn [iget_loop].
  { exists (inr e). split; [done|]. split; [intros; lia|]. split; [by left|intros; lia]. }
  kpure. cbn [id]. rewrite entry_test. case_bool_decide as E.
  { exists (inl ip). split; [done|]. split; [lia|done]. }
  cbv zeta. set (e1 := if bool_decide (e = None) && (i_ref (fs_inode (k_fs k) ip) =? 0) then Some ip else e).
  destruct (IH (ip + 1) e1) as (r & Hr & Hx). exists r. split; [exact Hr|]. destruct r as [jp|e'].
  - destruct Hx as [H1 H2]. split; [lia|done].
  - destruct Hx as (H1 & H2 & H3). split; [|split].
    + intros jp Hj. destruct (decide (jp = ip)) as [->|]; [done|]. apply H1. lia.
    + destruct H2 as [->|(He & jp & -> & Hj & Hr0)].
      * unfold e1. destruct (bool_decide_reflect (e = None)) as [->|]; [|by left].
        destruct (Z.eqb_spec (i_ref (fs_inode (k_fs k) ip)) 0); [|by left]. right. split; [done|]. exists ip. split; [done|]. split; [lia|done].
      * right. unfold e1 in He. destruct (bool_decide_reflect (e = None)) as [->|]; [|by simpl in He].
        split; [done|]. exists jp. split; [done|]. split; [lia|done].
    + intros -> jp Hj. destruct (decide (jp = ip)) as [->|]; [|apply H3; [done|lia]].
      destruct H2 as [H2|(_ & ? & ? & _)]; [|done]. unfold e1 in H2. destruct (bool_decide_reflect (e = None)); [|by simpl in H2].
      destruct (Z.eqb_spec (i_ref (fs_inode (k_fs k) ip)) 0); done.
Qed.

(** C28: [iget] gives an inode one entry of the table: the entry it already has
    with a reference more, or else a free one, not yet valid, with one
    reference. The other entries are unchanged and no inode has two; it panics
    exactly when the inode has no entry and none is free. *)
Theorem iget_one_entry dev inum k :
  itable_ok (k_fs k) -> k_held k = [] ->
  (exists ip s', iget dev inum k = Ret ip (set_fs s' k) /\ in_table ip /\ itable_ok s' /\ entry_for dev inum s' ip /\
     (forall jp, jp <> ip -> fs_inode s' jp = fs_inode (k_fs k) jp) /\
     (entry_for dev inum (k_fs k) ip /\ fs_inode s' ip = set_i_ref (i_ref (fs_inode (k_fs k) ip) + 1) (fs_inode (k_fs k) ip) \/
      (forall jp, in_table jp -> ~ entry_for dev inum (k_fs k) jp) /\ i_ref (fs_inode (k_fs k) ip) = 0 /\
        i_ref (fs_inode s' ip) = 1 /\ i_valid (fs_inode s' ip) = 0)) \/
  (iget dev inum k = Panic "iget: no inodes" /\
     forall jp, in_table jp -> ~ entry_for dev inum (k_fs k) jp /\ i_ref (fs_inode (k_fs k) jp) <> 0).
Proof.
  intros [Hr Hu] Hh. unfold iget. erewrite bind_eq by (apply acquire_eq; rewrite Hh; apply not_elem_of_nil). cbv beta. rewrite Hh.
  destruct (iget_loop_eq (Z.to_nat NINODE) 0 None dev inum (set_held [ItableLock] k)) as (r & Hrun & Hx). ksimp in Hx.
  erewrite bind_eq by exact Hrun. cbv beta. assert (Htab : forall jp, 0 <= jp < 0 + Z.of_nat (Z.to_nat NINODE) <-> in_table jp) by (intros; unfold in_table; lia).
  destruct r as [ip|[ip|]].
  - destruct Hx as [Hip%Htab He]. left. kpure. erewrite bind_eq by (apply (release_eq _ []); [done|apply not_elem_of_nil]). cbv beta. ksimp.
    exists ip. eexists. split; [rewrite <- Hh; by rewrite set_held_id|]. split; [done|].
    assert (Hent : forall d n jp, entry_for d n (fs_upd_inode ip (fun i => set_i_ref (i_ref i + 1) i) (k_fs k)) jp -> in_table jp -> entry_for d n (k_fs k) jp).
    { intros d n jp. unfold entry_for. rewrite fs_inode_upd. case_decide as E; [subst jp|done]. simpl. destruct He as (H1 & _). intros (_ & H2 & H3) _. done. }
    split_and!.
    + split; [|intros i j d n Hi Hj H1 H2; by apply (Hu i j d n); [..|apply Hent|apply Hent]].
      intros jp Hj. rewrite fs_inode_upd. case_decide; [subst; simpl; specialize (Hr ip Hip); lia|by apply Hr].
    + unfold entry_for. rewrite fs_inode_upd, decide_True by done. simpl. destruct He as (H1 & H2 & H3). split; [lia|done].
    + intros jp Hj. by rewrite fs_inode_upd, decide_False.
    + left. split; [done|]. by rewrite fs_inode_upd, decide_True.
  - destruct Hx as (Hno & [?|(_ & jp & [= <-] & Hip%Htab & Hr0)] & _); [done|]. left. do 4 kpure.
    erewrite bind_eq by (apply (release_eq _ []); [done|apply not_elem_of_nil]). cbv beta. ksimp.
    exists ip. eexists. split; [rewrite <- Hh; by rewrite set_held_id|]. split; [done|].
    match goal with |- itable_ok ?s /\ _ => set (s' := s) end.
    assert (Hat : i_dev (fs_inode s' ip) = dev /\ i_inum (fs_inode s' ip) = inum /\ i_ref (fs_inode s' ip) = 1 /\ i_valid (fs_inode s' ip) = 0).
    { unfold s'. by rewrite !fs_inode_upd, !decide_True. }
    assert (Hoth : forall jp, jp <> ip -> fs_inode s' jp = fs_inode (k_fs k) jp).
    { intros jp Hj. unfold s'. by rewrite !fs_inode_upd, !decide_False. }
    clearbody s'. destruct Hat as (A1 & A2 & A3 & A4).
    assert (Hent : forall d n jp, in_table jp -> entry_for d n s' jp -> jp = ip /\ d = dev /\ n = inum \/ jp <> ip /\ entry_for d n (k_fs k) jp).
    { intros d n jp _. unfold entry_for. destruct (decide (jp = ip)) as [->|Hj]; [left; intuition congruence|]. rewrite Hoth by done. by right. }
    split_and!; try done.
    + split.
      * intros jp Hj. destruct (decide (jp = ip)) as [->|Hne]; [lia|]. rewrite Hoth by done. by apply Hr.
      * intros i j d n Hi Hj H1 H2. destruct (Hent _ _ _ Hi H1) as [(Ei & Ed & En)|(Hi' & E1)], (Hent _ _ _ Hj H2) as [(Ej & Ed' & En')|(Hj' & E2)]; subst; try done.
        -- by destruct (Hno j ltac:(by apply Htab)).
        -- by destruct (Hno i ltac:(by apply Htab)).
        -- by apply (Hu i j d n).
    + unfold entry_for. split; [lia|done].
    + right. split; [|done]. intros jp Hj. by apply Hno, Htab.
  - destruct Hx as (Hno & _ & Hall). right. split; [done|]. intros jp Hj%Htab. split; [by apply Hno|by apply Hall].
Qed.

Lemma iget_one_entry_witness :
  exists ip s', iget 1 5 boot = Ret ip (set_fs s' boot) /\ entry_for 1 5 s' ip.
Proof.
  destruct (iget_one_entry 1 5 boot) as [(ip & s' & H1 & _ & _ & H2 & _)|(_ & H)].
  - split; [intros; vm_compute; discriminate|]. intros ip jp dev inum _ _ [H _]. discriminate H.
  - reflexivity.
  - exists ip, s'. split; [exact H1|exact H2].
  - destruct (H 0) as [_ H0]; [vm_compute; split; [discriminate|reflexivity]|]. destruct (H0 eq_refl).
Defined.
