(* ===== verification/Userinit.v ===== *)
(** * The first process ([proc.c], [vm.c]): [allocproc] and [userinit] that succeed

    With enough free pages [allocproc] takes the first unused slot and gives
    it a trap frame, a second trap frame for alarms and a page table, and
    [userinit] makes of it a process that runs [initcode]. *)

From S2P Require Import Prelude Riscv Monad State Kstring Bytes Printf Kalloc Vm VmInv VmMap Uspace VmFree VmCopy VmProps Mmu Kvm AsmProps Proc ProcInv Sleeplock Bio BioInv Log Fs Dir Console Pipe File Fork ProcProps InodeProps.
#[local] Open Scope Z_scope.

#[local] Opaque memset memmove store64 load64 store_bytes kalloc kfree mappages acquire release.

(** From [k] to [k'] only the pages [P] are written. *)
Definition keeps {L : Layout} (P : list Z) (k k' : kernel) : Prop :=
  forall p a, page_ok p -> p ∉ P -> in_page p a -> load8 (k_mem k') a = load8 (k_mem k) a.

(** Inclusions and memberships of lists of pages. *)
Ltac pages :=
  intros;
  repeat match goal with
    | |- _ ⊆ _ => intros ? ?
    | H : _ ∈ _ |- _ => progress rewrite ?elem_of_app, ?elem_of_cons, ?elem_of_nil in H
    | H : _ ∉ _ |- _ => progress rewrite ?not_elem_of_app, ?not_elem_of_cons in H
    end;
  rewrite ?not_elem_of_app, ?not_elem_of_cons, ?elem_of_app, ?elem_of_cons, ?elem_of_nil;
  solve [intuition (subst; tauto || auto using not_elem_of_nil)].

Section frame.
Context {L : Layout} {LOk : LayoutOk L}.

#[export] Instance keeps_preorder P : PreOrder (keeps P).
Proof.
  split; [by intros k p a|]. intros k1 k2 k3 H1 H2 p a Hp Hn Ha. by rewrite (H2 p a), (H1 p a).
Qed.

#[export] Instance keeps_proper : Proper ((≡ₚ) ==> eq ==> eq ==> iff) keeps.
Proof. intros P Q HPQ ? k -> ? k' ->. unfold keeps. by setoid_rewrite HPQ. Qed.

Lemma keeps_mono P Q k k' : P ⊆ Q -> keeps P k k' -> keeps Q k k'.
Proof. intros HPQ H p a Hp Hn. apply H; set_solver. Qed.

Lemma keeps_mem P k k' : k_mem k' = k_mem k -> keeps P k k'.
Proof. by intros E p a _ _ _; rewrite E. Qed.

Lemma keeps_page q k k' : page_ok q -> (forall a, ~ in_page q a -> load8 (k_mem k') a = load8 (k_mem k) a) -> keeps [q] k k'.
Proof.
  intros Hq Hm p a Hp Hn Ha. apply Hm. intros Hqa. apply Hn. rewrite (page_ok_disjoint p q a) by done. apply list_elem_of_here.
Qed.

Lemma pt_upd_ok k t l k' t' l' f : pt_upd k t l k' t' l' f -> Forall page_ok (pt_pages t').
Proof. intros [Hinv _ _ _ _ _ _ _]. apply Hinv. Qed.

Lemma keeps_upd k t l k' t' l' f : pt_upd k t l k' t' l' f -> keeps (pt_pages t ++ l) k k'.
Proof.
  intros Hu p a Hp Hn Ha. apply (pg_mem _ _ _ _ _ _ _ Hu). intros q Hq Hqa. apply Hn.
  rewrite <- (pg_perm _ _ _ _ _ _ _ Hu), (page_ok_disjoint p q a); [by apply elem_of_app; left|done| |done|done].
  by apply (proj1 (Forall_forall _ _) (pt_upd_ok _ _ _ _ _ _ _ Hu)).
Qed.

(** A table whose pages are kept. *)
Lemma table_kept P k k' t :
  keeps P k k' -> Forall page_ok (pt_pages t) -> (forall p, p ∈ pt_pages t -> p ∉ P) -> pt_rep (k_mem k) t ->
  pt_rep (k_mem k') t /\ forall va, pte_of (k_mem k') t va = pte_of (k_mem k) t va.
Proof.
  intros Hk Hok Hd Hr. rewrite Forall_forall in Hok. split.
  - eapply pt_rep_ext; [|exact Hr]. intros p a Hp. apply (Hk p); auto.
  - intros va. apply pte_of_ext. intros p a Hp. apply (Hk p); auto.
Qed.

(** What the page tables depend on. *)
Lemma vm_inv_state k k' t l :
  k_mem k' = k_mem k -> k_freelist k' = k_freelist k -> KmemLock ∉ k_held k' -> vm_inv k t l -> vm_inv k' t l.
Proof.
  intros Em Ef Hl [Hf Hr Hok Hn _]. split; try done; [|by rewrite Em]. eapply free_pages_ext; [exact Ef| |exact Hf]. intros. by rewrite Em.
Qed.

(** Writing a page that is neither the table's nor free. *)
Lemma vm_inv_write q k k' t l :
  page_ok q -> q ∉ pt_pages t ++ l -> keeps [q] k k' -> k_freelist k' = k_freelist k -> k_held k' = k_held k -> vm_inv k t l ->
  vm_inv k' t l /\ forall va, pte_of (k_mem k') t va = pte_of (k_mem k) t va.
Proof.
  intros Hq Hnin Hk Ef Eh [Hf Hr Hok Hn Hl].
  destruct (table_kept [q] k k' t) as [Hr' Hp']; [done|done|pages|done|]. split; [|done].
  split; try done; [|by rewrite Eh]. eapply free_pages_ext; [exact Ef| |exact Hf]. intros p a Hp Ha. apply (Hk p); [by eapply free_pages_nonzero|pages|done].
Qed.

End frame.

(** ** [proc_pagetable] *)

Notation in_vpage va page := (va / PGSIZE = page / PGSIZE).

(** The entries of the table of a process whose trap frame is at [tf]. *)
Definition proc_ptes {L : Layout} (tf va : Z) : Z :=
  if decide (in_vpage va TRAPFRAME) then mkpte tf (Z.lor PTE_R PTE_W)
  else if decide (in_vpage va TRAMPOLINE) then mkpte trampoline (Z.lor PTE_R PTE_X) else 0.

Section alloc.
Context {L : Layout} {LOk : LayoutOk L}.

Lemma proc_pagetable_ok p k q l :
  let tf := p_trapframe (ps_proc (k_ps k) p) in
  free_pages k (q :: l) -> KmemLock ∉ k_held k -> (4 < length l)%nat -> page_ok tf ->
  exists k' t l', proc_pagetable p k = Ret q k' /\ vm_inv k' t l' /\ root t = q /\ pt_pages t ++ l' ≡ₚ q :: l /\
    (length l <= length l' + 4)%nat /\ mem_only k k' /\ keeps (q :: l) k k' /\
    forall va, 0 <= va < MAXVA -> pte_of (k_mem k') t va = proc_ptes tf va.
Proof.
  intros tf Hf Hl Hlen Htf. destruct (uvmcreate_spec k q l Hf Hl) as (k1 & Hrun & Hw & [Hinv _ _ _ _] & Hp).
  assert (page_ok q) as Hq by (by eapply free_pages_nonzero, list_elem_of_here). pose proof (page_ok_range q Hq).
  destruct (page_ok_pa tf Htf) as [_ ?]. pose proof Htf as (_ & _ & Htf'). change PHYSTOP with 0x88000000 in Htf'.
  destruct layout_bounds as (_ & _ & _ & Htr & _). change PHYSTOP with 0x88000000 in Htr. change KERNBASE with 0x80000000 in Htr.
  assert (pt_pages (mkptree q ∅ ∅) = [q]) as Hpg by (unfold pt_pages; simpl; by rewrite !map_to_list_empty).
  unfold proc_pagetable. erewrite bind_eq by exact Hrun. cbv beta. rewrite (proj2 (Z.eqb_neq q 0)) by lia.
  destruct (mappages_page k1 (mkptree q ∅ ∅) l TRAMPOLINE trampoline (Z.lor PTE_R PTE_X)) as [(? & ? & _ & _ & ?)|(k2 & u2 & l2 & Hr2 & Hu2 & Hl2)];
    [done|by vm_compute|done|by vm_compute|unfold PGSIZE; lia|by rewrite Hp, pte_has_0|lia|].
  cbn [root] in Hr2. erewrite bind_eq by exact Hr2. cbv beta. change (0 <? 0) with false. cbv iota. kpure.
  pose proof (pg_frame _ _ _ _ _ _ _ Hu2) as Ho2. pose proof (pw_only _ _ _ Hw) as Ho1.
  assert (ps_proc (k_ps k2) p = ps_proc (k_ps k) p) as -> by (destruct Ho1 as (? & ? & ->), Ho2 as (? & ? & ->); by ksimp). fold tf.
  pose proof (pg_root _ _ _ _ _ _ _ Hu2) as Hroot. cbn [root] in Hroot.
  destruct (mappages_page k2 u2 l2 TRAPFRAME tf (Z.lor PTE_R PTE_W)) as [(? & ? & _ & _ & ?)|(k3 & u3 & l3 & Hr3 & Hu3 & Hl3)];
    [apply Hu2|by vm_compute|done|by vm_compute|unfold PGSIZE; lia| |lia|].
  { rewrite (pg_pte _ _ _ _ _ _ _ Hu2), decide_False, Hp by (done || by vm_compute). apply pte_has_0. }
  rewrite Hroot in Hr3. erewrite bind_eq by exact Hr3. cbv beta. change (0 <? 0) with false. cbv iota.
  pose proof (pg_perm _ _ _ _ _ _ _ Hu2) as P2. rewrite Hpg in P2. pose proof (pg_perm _ _ _ _ _ _ _ Hu3) as P3.
  exists k3, u3, l3. split; [done|]. split; [apply Hu3|]. split; [by rewrite (pg_root _ _ _ _ _ _ _ Hu3)|]. split; [by rewrite P3, P2|].
  split; [lia|]. split; [transitivity k1; [done|]; transitivity k2; [done|apply Hu3]|]. split.
  - transitivity k1; [|transitivity k2].
    + eapply keeps_mono; [|apply (keeps_page q); [done|apply Hw]]. pages.
    + eapply keeps_mono; [|by eapply keeps_upd]. by rewrite Hpg.
    + eapply keeps_mono; [|by eapply keeps_upd]. intros x Hx. by rewrite <- P2 in *.
  - intros va Hva. rewrite (pg_pte _ _ _ _ _ _ _ Hu3) by done. unfold proc_ptes. case_decide; [done|].
    rewrite (pg_pte _ _ _ _ _ _ _ Hu2) by done. case_decide; [done|]. apply Hp.
Qed.

(** ** [allocproc] *)

Definition allocated (tf atf pt pid : Z) (x : proc) : proc :=
  mkproc USED (p_chan x) (p_killed x) (p_xstate x) pid (p_parent x) (p_kstack x) (p_sz x) pt tf
    (mkcontext a_forkret (p_kstack x + PGSIZE)) (p_ofile x) (p_cwd x) (p_name x) 0 0 0 atf 0.

Record alloc_done (p tf atf q : Z) (l : list Z) (k k' : kernel) (t : ptree) (l' : list Z) : Prop := {
  ad_held : k_held k' = [ProcLock p];
  ad_fs : k_fs k' = k_fs k;
  ad_io : k_io k' = k_io k;
  ad_proc : ps_proc (k_ps k') p = allocated tf atf q (ps_nextpid (k_ps k)) (ps_proc (k_ps k) p);
  ad_others i : i <> p -> ps_proc (k_ps k') i = ps_proc (k_ps k) i;
  ad_cur : ps_cur (k_ps k') = ps_cur (k_ps k);
  ad_vm : vm_inv k' t l';
  ad_root : root t = q;
  ad_pages : pt_pages t ++ l' ≡ₚ q :: l;
  ad_left : (length l <= length l' + 4)%nat;
  ad_keeps : keeps (tf :: atf :: q :: l) k k';
  ad_pte va : 0 <= va < MAXVA -> pte_of (k_mem k') t va = proc_ptes tf va
}.

Lemma kalloc_keeps k q l :
  free_pages k (q :: l) -> KmemLock ∉ k_held k ->
  exists m f, let k' := set_freelist f (set_mem m k) in kalloc k = Ret q k' /\ free_pages k' l /\ keeps [q] k k'.
Proof.
  intros Hf Hl. destruct (kalloc_cons_spec k q l Hf Hl) as (nx & Hrun & Hf' & Hm). eexists _, nx. split; [exact Hrun|]. split; [exact Hf'|].
  apply keeps_page; [by eapply free_pages_nonzero, list_elem_of_here|]. by ksimp.
Qed.

Lemma allocproc_ok p k tf atf q l :
  first_unused p (k_ps k) -> k_held k = [] -> free_pages k (tf :: atf :: q :: l) -> (4 < length l)%nat ->
  exists k' t l', allocproc k = Ret (Some p) k' /\ alloc_done p tf atf q l k k' t l'.
Proof.
  intros Hu Hh Hf Hlen. assert (no_proc_lock k) as Hnl by (intros i; rewrite Hh; apply not_elem_of_nil).
  pose proof (fp_ok _ _ Hf) as Ho. rewrite !Forall_cons in Ho. destruct Ho as (Htf & Hatf & Hq & _).
  pose proof (page_ok_range tf Htf). pose proof (page_ok_range atf Hatf). pose proof (page_ok_range q Hq).
  assert (forall k', k_held k' = [ProcLock p] -> KmemLock ∉ k_held k') as Hkm by (intros k' ->; by intros [=]%list_elem_of_singleton).
  rewrite (allocproc_first p) by done. rewrite Hh. unfold allocproc_found.
  erewrite bind_eq by (apply allocpid_eq; ksimp; by intros [=]%list_elem_of_singleton). cbv beta. kpure. kpure. ksimp.
  match goal with |- context [(kalloc ≫= _) ?s] => destruct (kalloc_keeps s tf (atf :: q :: l)) as (m1 & f1 & Hr1 & Hf1 & K1) end;
    [eapply free_pages_ext; [| |exact Hf]; by ksimp|by apply Hkm|].
  erewrite bind_eq by exact Hr1. cbv beta. kpure. ksimp. rewrite (proj2 (Z.eqb_neq tf 0)) by lia.
  match goal with |- context [(kalloc ≫= _) ?s] => destruct (kalloc_keeps s atf (q :: l)) as (m2 & f2 & Hr2 & Hf2 & K2) end;
    [eapply free_pages_ext; [| |exact Hf1]; by ksimp|by apply Hkm|].
  erewrite bind_eq by exact Hr2. cbv beta. kpure. ksimp. rewrite (proj2 (Z.eqb_neq atf 0)) by lia.
  match goal with |- context [(proc_pagetable p ≫= _) ?s] => set (k2 := s);
    assert (k_held k2 = [ProcLock p] /\ k_fs k2 = k_fs k /\ k_io k2 = k_io k /\ ps_cur (k_ps k2) = ps_cur (k_ps k) /\
      ps_proc (k_ps k2) p = set_alarm_tf atf (set_trapframe tf (set_state USED (set_pid (ps_nextpid (k_ps k)) (ps_proc (k_ps k) p)))) /\
      (forall i, i <> p -> ps_proc (k_ps k2) i = ps_proc (k_ps k) i) /\ keeps [tf; atf] k k2) as (E1 & E2 & E3 & E4 & E5 & E6 & K) end.
  { unfold k2. ksimp. split_and!; try done; [by rewrite !ps_proc_upd_eq|intros i Hi; by rewrite !ps_proc_upd_ne by done|].
    intros pg a Hp Hn Ha. etransitivity; [apply (K2 pg a)|apply (K1 pg a)]; (done || pages). }
  destruct (proc_pagetable_ok p k2 q l) as (k3 & t & l' & Hr3 & Hv & Hroot & Hperm & Hll & (m3 & f3 & ->) & K3 & Hpte).
  { eapply free_pages_ext; [| |exact Hf2]; unfold k2; by ksimp. }
  { by apply Hkm. }
  { done. }
  { by rewrite E5. }
  rewrite E5 in Hpte. cbn [set_alarm_tf set_trapframe p_trapframe] in Hpte.
  erewrite bind_eq by exact Hr3. cbv beta. kpure. ksimp. rewrite (proj2 (Z.eqb_neq q 0)) by lia. do 6 (kpure; ksimp).
  eexists _, t, l'. split; [reflexivity|]. clearbody k2. split; ksimp; try done.
  - rewrite !ps_proc_upd_eq, E5. reflexivity.
  - intros i Hi. rewrite !ps_proc_upd_ne by done. by apply E6.
  - eapply vm_inv_state; [..|exact Hv]; ksimp; try done. rewrite E1. by intros [=]%list_elem_of_singleton.
  - transitivity k2; [eapply keeps_mono; [|exact K]; pages|]. eapply keeps_mono; [|exact K3]. pages.
Qed.

(** ** [uvminit] *)

Definition PTE_INIT : Z := Z.lor (Z.lor (Z.lor PTE_W PTE_R) PTE_X) PTE_U.

Lemma uvminit_ok k t q l src :
  vm_inv k t (q :: l) -> Z.of_nat (length src) < PGSIZE -> Forall is_byte src -> (2 < length l)%nat -> pte_has (pte_of (k_mem k) t 0) PTE_V = false ->
  exists k' t' l', uvminit (root t) src k = Ret () k' /\ vm_inv k' t' l' /\ root t' = root t /\ pt_pages t' ++ q :: l' ≡ₚ pt_pages t ++ q :: l /\
    mem_only k k' /\ keeps (pt_pages t ++ q :: l) k k' /\
    (forall va, 0 <= va < MAXVA -> pte_of (k_mem k') t' va = if decide (in_vpage va 0) then mkpte q PTE_INIT else pte_of (k_mem k) t va) /\
    (forall i, 0 <= i < PGSIZE -> load8 (k_mem k') (q + i) = default 0 (src !! Z.to_nat i)).
Proof.
  intros Hv Hsrc Hb Hlen Hfree. destruct (vm_inv_kalloc k t q l Hv) as (k1 & Hr1 & Hv1 & Hw1 & Hp1).
  assert (page_ok q) as Hq by (eapply free_pages_nonzero; [apply Hv|apply list_elem_of_here]). pose proof (page_ok_range q Hq).
  destruct Hq as (Hqa & Hqk & Hqe). assert (page_ok q) as Hq by done. change PHYSTOP with 0x88000000 in Hqe.
  assert (q ∉ pt_pages t ++ l) as Hqn.
  { pose proof (vi_nodup _ _ _ Hv) as Hn. rewrite <- Permutation_middle in Hn. by apply NoDup_cons in Hn as [? _]. }
  unfold uvminit. rewrite (proj2 (Z.leb_gt _ _)) by done. erewrite bind_eq by exact Hr1. cbv beta.
  set (k2 := set_mem (memset (k_mem k1) q 0 PGSIZE) k1). rewrite (bind_eq _ _ k1 () k2) by done. cbv beta.
  assert (page_write q k1 k2) as Hw2 by (split; [apply mem_only_set_mem|intros a Ha; unfold k2; ksimp; by apply memset_in_page]).
  destruct (page_write_keeps q k1 k2 t l Hw2 eq_refl Hq Hqn Hv1) as [Hv2 Hp2].
  destruct (mappages_page k2 t l 0 q PTE_INIT) as [(? & ? & _ & _ & ?)|(k3 & u & l3 & Hr3 & Hu & Hl3)];
    [done|by vm_compute|done|by vm_compute|unfold PGSIZE; lia|by rewrite Hp2, Hp1|lia|].
  erewrite bind_eq by exact Hr3. cbv beta. unfold modify_mem, modify. set (k4 := set_mem _ k3).
  pose proof (pg_perm _ _ _ _ _ _ _ Hu) as Hperm.
  assert (keeps [q] k3 k4) as K4.
  { apply keeps_page; [done|]. intros a Ha. unfold k4. ksimp. rewrite load8_store_bytes, decide_False; [done|]. unfold in_page in Ha. lia. }
  destruct (vm_inv_write q k3 k4 u l3) as [Hv4 Hp4]; [done|by rewrite Hperm|done|done|done|apply Hu|].
  exists k4, u, l3. split; [done|]. split; [done|]. split; [apply Hu|]. split; [by rewrite <- !Permutation_middle, Hperm|]. split.
  { transitivity k1; [apply Hw1|]. transitivity k2; [apply Hw2|]. transitivity k3; [apply Hu|apply mem_only_set_mem]. }
  split; [|split].
  - transitivity k2; [|transitivity k3].
    + eapply keeps_mono; [|apply (keeps_page q); [done|apply (page_write_trans q k k1 k2 Hw1 Hw2)]]. pages.
    + eapply keeps_mono; [|by eapply keeps_upd]. pages.
    + eapply keeps_mono; [|exact K4]. pages.
  - intros va Hva. rewrite Hp4, (pg_pte _ _ _ _ _ _ _ Hu) by done. case_decide; [done|]. by rewrite Hp2, Hp1.
  - intros i Hi. unfold k4. ksimp. rewrite load8_store_bytes. replace (q + i - q) with i by lia. case_decide as E.
    + assert (Z.to_nat i < length src)%nat as Hi' by lia. apply lookup_lt_is_Some in Hi' as [b Eb]. rewrite Eb. cbn [default].
      apply u8_small. apply (Forall_lookup_1 _ _ _ _ Hb Eb).
    + rewrite lookup_ge_None_2 by lia. cbn [default].
      transitivity (load8 (k_mem k2) (q + i)); [apply (keeps_upd _ _ _ _ _ _ _ Hu q); [exact Hq|exact Hqn|unfold in_page; lia]|]. unfold k2. ksimp. apply load8_memset_page; [lia|]. unfold in_page. lia.
Qed.

(** ** The root directory *)

Definition root_entry (ip : Z) (s : fssys) : fssys :=
  fs_upd_inode ip (set_i_valid 0) (fs_upd_inode ip (set_i_ref 1) (fs_upd_inode ip (set_i_inum ROOTINO) (fs_upd_inode ip (set_i_dev ROOTDEV) s))).

Lemma namei_root {W : Wakeups} {D : Disk} k :
  (forall ip, in_table ip -> i_ref (fs_inode (k_fs k) ip) = 0) -> ItableLock ∉ k_held k ->
  exists ip, namei (str "/") k = Ret (Some ip) (set_fs (root_entry ip (k_fs k)) k) /\ in_table ip.
Proof.
  intros Hz Hl. assert (exists ip, iget ROOTDEV ROOTINO k = Ret ip (set_fs (root_entry ip (k_fs k)) k) /\ in_table ip) as (ip & Hrun & Hip).
  { unfold iget. erewrite bind_eq by (by apply acquire_eq). cbv beta.
    destruct (iget_loop_eq (Z.to_nat NINODE) 0 None ROOTDEV ROOTINO (set_held (ItableLock :: k_held k) k)) as (r & Hrun & Hx). ksimp in Hx.
    erewrite bind_eq by exact Hrun. cbv beta. destruct r as [ip|[ip|]].
    - destruct Hx as [Hip (Hr & _)]. specialize (Hz ip Hip). lia.
    - destruct Hx as (_ & [?|(_ & jp & [= <-] & Hip & _)] & _); [done|]. exists ip. split; [|exact Hip]. do 4 kpure.
      erewrite bind_eq by (by apply (release_eq _ (k_held k))). cbv beta. ksimp. reflexivity.
    - destruct Hx as (_ & _ & Hx). destruct (Hx eq_refl 0); [by vm_compute|]. by apply Hz. }
  exists ip. split; [|done]. unfold namei, namex. rewrite (bind_eq _ _ k (Some ip, name0) (set_fs (root_entry ip (k_fs k)) k)); [done|].
  change (default 0 (head (str "/")) =? SLASH) with true. cbv iota. erewrite bind_eq by exact Hrun. reflexivity.
Qed.

(** ** [userinit] *)

Record first_process (p tf pg ip : Z) (t : ptree) (l : list Z) (k k' : kernel) : Prop := {
  fp_held : k_held k' = [];
  fp_io : k_io k' = k_io k;
  fp_fs : k_fs k' = root_entry ip (k_fs k) /\ in_table ip;
  fp_init : ps_initproc (k_ps k') = Some p;
  fp_state : p_state (ps_proc (k_ps k') p) = RUNNABLE /\ p_pid (ps_proc (k_ps k') p) = ps_nextpid (k_ps k);
  fp_sz : p_sz (ps_proc (k_ps k') p) = PGSIZE /\ p_pagetable (ps_proc (k_ps k') p) = root t /\ p_trapframe (ps_proc (k_ps k') p) = tf;
  fp_context : p_context (ps_proc (k_ps k') p) = mkcontext a_forkret (p_kstack (ps_proc (k_ps k) p) + PGSIZE);
  fp_cwd : p_cwd (ps_proc (k_ps k') p) = Some ip;
  fp_others i : i <> p -> ps_proc (k_ps k') i = ps_proc (k_ps k) i;
  fp_vm : vm_inv k' t l;
  fp_tf : page_ok tf /\ tf ∉ pt_pages t;
  fp_epc : load64 (k_mem k') (tf + tf_epc) = 0 /\ load64 (k_mem k') (tf + tf_sp) = PGSIZE;
  fp_pg : page_ok pg;
  fp_pte va : 0 <= va < MAXVA -> pte_of (k_mem k') t va = if decide (in_vpage va 0) then mkpte pg PTE_INIT else proc_ptes tf va;
  fp_code i : 0 <= i < PGSIZE -> load8 (k_mem k') (pg + i) = default 0 (initcode !! Z.to_nat i)
}.

Lemma tf_assign_eq p f v k :
  tf_set p f v k = Ret () (set_mem (store64 (k_mem k) (p_trapframe (ps_proc (k_ps k) p) + f) v) k).
Proof. reflexivity. Qed.

(** The two assignments to the trap frame. *)
Lemma trapframe_writes k k' tf :
  page_ok tf -> k_mem k' = store64 (store64 (k_mem k) (tf + tf_epc) 0) (tf + tf_sp) PGSIZE ->
  keeps [tf] k k' /\ load64 (k_mem k') (tf + tf_epc) = 0 /\ load64 (k_mem k') (tf + tf_sp) = PGSIZE.
Proof.
  intros Htf E. unfold tf_epc, tf_sp in *. split; [|rewrite E; split].
  - apply keeps_page; [done|]. intros a Ha. unfold in_page, PGSIZE in *. rewrite E, !load8_store64_ne by lia. done.
  - rewrite load64_store64_ne by lia. by apply load64_store64_eq.
  - by apply load64_store64_eq.
Qed.

Lemma initcode_bytes : Forall is_byte initcode.
Proof. unfold initcode. repeat (apply Forall_cons_2; [unfold is_byte; lia|]). apply Forall_nil_2. Qed.

Lemma userinit_ok {W : Wakeups} {D : Disk} p k tf atf q l :
  first_unused p (k_ps k) -> k_held k = [] -> free_pages k (tf :: atf :: q :: l) -> (8 < length l)%nat ->
  (forall ip, in_table ip -> i_ref (fs_inode (k_fs k) ip) = 0) ->
  exists k' t pg ip l', userinit k = Ret () k' /\ first_process p tf pg ip t l' k k' /\ keeps (tf :: atf :: q :: l) k k'.
Proof.
  intros Hu Hh Hf Hlen Hz. destruct (allocproc_ok p k tf atf q l Hu Hh Hf ltac:(lia)) as (k1 & t & l1 & Hr1 & A).
  pose proof (fp_nodup _ _ Hf) as Hnd. assert (page_ok tf) as Htf by (by eapply free_pages_nonzero, list_elem_of_here).
  pose proof (ad_left _ _ _ _ _ _ _ _ _ A) as Hl1. destruct l1 as [|pg l1]; [cbn [length] in *; lia|]. cbn [length] in Hl1.
  unfold userinit. erewrite bind_eq by exact Hr1. cbv beta. kpure. cbn [deref]. kpure. kpure. ksimp.
  change (ps_proc (ps_set_initproc (Some p) (k_ps k1)) p) with (ps_proc (k_ps k1) p).
  rewrite (ad_proc _ _ _ _ _ _ _ _ _ A). cbn [allocated p_pagetable]. rewrite <- (ad_root _ _ _ _ _ _ _ _ _ A).
  set (k2 := set_ps _ k1). assert (vm_inv k2 t (pg :: l1)) as Hv2.
  { apply (vm_inv_state k1); [done|done| |apply A]. change (k_held k2) with (k_held k1). rewrite (ad_held _ _ _ _ _ _ _ _ _ A). by intros [=]%list_elem_of_singleton. }
  destruct (uvminit_ok k2 t pg l1 initcode Hv2) as (k3 & u & l3 & Hr3 & Hv3 & Hroot & Hperm & (m3 & f3 & E3) & K3 & Hpte & Hcode).
  { by vm_compute. }
  { apply initcode_bytes. }
  { lia. }
  { unfold k2. ksimp. rewrite (ad_pte _ _ _ _ _ _ _ _ _ A) by by vm_compute. unfold proc_ptes. rewrite !decide_False by (by vm_compute). apply pte_has_0. }
  erewrite bind_eq by exact Hr3. cbv beta. kpure. erewrite bind_eq by apply tf_assign_eq. cbv beta. erewrite bind_eq by apply tf_assign_eq. cbv beta. kpure.
  match goal with |- context [(namei _ ≫= _) ?s] => set (k4 := s) end.
  set (x := set_name (safestrcpy_name (str "initcode") (p_name (ps_proc (k_ps k) p)))
    (set_sz PGSIZE (allocated tf atf q (ps_nextpid (k_ps k)) (ps_proc (k_ps k) p)))).
  assert (k_held k4 = [ProcLock p] /\ k_fs k4 = k_fs k /\ k_io k4 = k_io k /\ k_freelist k4 = k_freelist k3 /\
    k_mem k4 = store64 (store64 (k_mem k3) (tf + tf_epc) 0) (tf + tf_sp) PGSIZE /\ ps_initproc (k_ps k4) = Some p /\
    ps_proc (k_ps k4) p = x /\ forall i, i <> p -> ps_proc (k_ps k4) i = ps_proc (k_ps k) i) as (E1 & E2 & E4 & E5 & E6 & E7 & E8 & E9).
  { assert (ps_proc (k_ps k1) p = allocated tf atf q (ps_nextpid (k_ps k)) (ps_proc (k_ps k) p)) as Ep by apply A.
    assert (forall i, ps_proc (ps_set_initproc (Some p) (k_ps k1)) i = ps_proc (k_ps k1) i) as Ei by done.
    unfold k4. rewrite E3. unfold k2. ksimp. rewrite !ps_proc_upd_eq, Ei, Ep.
    split_and!; [apply A|apply A|apply A|done|done|done|done|].
    intros i Hi. rewrite !ps_proc_upd_ne, Ei by done. by apply A. }
  clearbody k4. destruct (trapframe_writes k3 k4 tf Htf E6) as (K4 & T1 & T2).
  rewrite (ad_pages _ _ _ _ _ _ _ _ _ A) in Hperm. rewrite (ad_pages _ _ _ _ _ _ _ _ _ A) in K3.
  assert (tf ∉ q :: l) as Hnin by (apply NoDup_cons in Hnd as [Hnd _]; pages). rewrite <- Hperm in Hnin.
  assert (page_ok pg) as Hpg by (eapply free_pages_nonzero; [apply Hv2|apply list_elem_of_here]).
  destruct (vm_inv_write tf k3 k4 u l3) as [Hv4 Hp4]; [done|pages|done|done|by rewrite E1, E3; unfold k2; ksimp; rewrite (ad_held _ _ _ _ _ _ _ _ _ A)|done|].
  destruct (namei_root k4) as (ip & Hr5 & Hip); [by rewrite E2|by rewrite E1; intros [=]%list_elem_of_singleton|].
  erewrite bind_eq by exact Hr5. cbv beta. kpure. kpure. ksimp. rewrite (release_eq (ProcLock p) []) by (done || apply not_elem_of_nil).
  eexists _, u, pg, ip, l3. split; [reflexivity|]. ksimp. split; [split|]; ksimp; rewrite ?ps_proc_upd_eq, ?E8; try done.
  - split; [by rewrite E2|done].
  - split; [done|]. split; [|done]. cbn. by rewrite Hroot, (ad_root _ _ _ _ _ _ _ _ _ A).
  - intros i Hi. rewrite !ps_proc_upd_ne by done. by apply E9.
  - apply (vm_inv_state k4); [done|done|apply not_elem_of_nil|done].
  - split; [done|pages].
  - intros va Hva. rewrite Hp4, Hpte by done. case_decide; [done|]. unfold k2. ksimp. by apply A.
  - intros i Hi. rewrite <- Hcode by done. apply (K4 pg); [done|pages|]. unfold in_page. lia.
  - rewrite (ad_root _ _ _ _ _ _ _ _ _ A). transitivity k1; [apply A|]. transitivity k2; [by apply keeps_mem|]. transitivity k3; [eapply keeps_mono; [|exact K3]; pages|].
    transitivity k4; [eapply keeps_mono; [|exact K4]; pages|by apply keeps_mem].
Qed.

End alloc.
