(* ===== verification/Main.v ===== *)
(** * Starting the kernel ([main.c], [plic.c], the [init] functions)

    [main] runs on every hart. The state is the kernel's and what the
    [init] functions leave in the devices and in the harts' control
    registers; a function of the kernel runs on its part of it. The
    [initlock] calls write what the locks are anyway in the zeroed memory. *)

From S2P Require Import Prelude Riscv Monad State Kstring Bytes Printf Kalloc Vm Proc Sleeplock Bio Virtio Log Fs Dir Console Pipe File Fork Exec Sysargs Sysproc Sysfile Syscall Trap.
#[local] Open Scope Z_scope.

Record machine := mkmachine {
  ma_kernel : kernel;
  kernel_pagetable : Z;              (* vm.c *)
  started : Z;                       (* main.c *)
  ma_satp : Z -> Z;                  (* satp and stvec of each hart *)
  ma_stvec : Z -> Z;
  ma_regs : list (Z * Z)             (* the writes to the registers of the UART and the PLIC *)
}.

Definition machine0 : machine := mkmachine boot 0 0 (fun _ => 0) (fun _ => 0) [].

Definition set_kernel (k : kernel) (m : machine) : machine :=
  mkmachine k (kernel_pagetable m) (started m) (ma_satp m) (ma_stvec m) (ma_regs m).
Definition set_kernel_pagetable (pt : Z) (m : machine) : machine :=
  mkmachine (ma_kernel m) pt (started m) (ma_satp m) (ma_stvec m) (ma_regs m).
Definition set_started (x : Z) (m : machine) : machine :=
  mkmachine (ma_kernel m) (kernel_pagetable m) x (ma_satp m) (ma_stvec m) (ma_regs m).
Definition set_satp (h x : Z) (m : machine) : machine :=
  mkmachine (ma_kernel m) (kernel_pagetable m) (started m) (<[h := x]> (ma_satp m)) (ma_stvec m) (ma_regs m).
Definition set_stvec (h x : Z) (m : machine) : machine :=
  mkmachine (ma_kernel m) (kernel_pagetable m) (started m) (ma_satp m) (<[h := x]> (ma_stvec m)) (ma_regs m).
Definition push_reg (a x : Z) (m : machine) : machine :=
  mkmachine (ma_kernel m) (kernel_pagetable m) (started m) (ma_satp m) (ma_stvec m) (ma_regs m ++ [(a, x)]).

(** A function of the kernel. *)
Fixpoint olift {A : Type} (m : machine) (o : outcome kernel A) : outcome machine A :=
  match o with
  | Ret a k => Ret a (set_kernel k m)
  | Panic msg => Panic msg
  | Yield k resume => Yield (set_kernel k m) (fun m' => olift m' (resume (ma_kernel m')))
  end.
Definition lift {A : Type} (c : K A) : M machine A := fun m => olift m (c (ma_kernel m)).

(** ** The UART and the console ([uart.c], [console.c]) *)

Definition IER : Z := 1.
Definition IER_RX_ENABLE : Z := 1.
Definition IER_TX_ENABLE : Z := 2.
Definition FCR : Z := 2.
Definition FCR_FIFO_ENABLE : Z := 1.
Definition FCR_FIFO_CLEAR : Z := 6.
Definition LCR : Z := 3.
Definition LCR_EIGHT_BITS : Z := 3.
Definition LCR_BAUD_LATCH : Z := 128.

Definition WriteReg (reg v : Z) : M machine unit := modify (push_reg (UART0 + reg) (u8 v)).

Definition uartinit : M machine unit :=
  WriteReg IER 0x00;;
  WriteReg LCR LCR_BAUD_LATCH;;
  WriteReg 0 0x03;;
  WriteReg 1 0x00;;
  WriteReg LCR LCR_EIGHT_BITS;;
  WriteReg FCR (Z.lor FCR_FIFO_ENABLE FCR_FIFO_CLEAR);;
  WriteReg IER (Z.lor IER_TX_ENABLE IER_RX_ENABLE).

(** [devsw[CONSOLE]] has the value given here from the start ([Console]). *)
Definition consoleinit : M machine unit := uartinit.

Definition set_pr_locking (x : Z) (o : iosys) : iosys :=
  mkiosys (u_thr o) (u_room o) (u_rhr o) (u_tx_buf o) (u_tx_w o) (u_tx_r o) (cons_buf o) (cons_r o) (cons_w o) (cons_e o) x (io_vd o).

Definition printfinit : M machine unit := lift (modify (fun k => set_io (set_pr_locking 1 (k_io k)) k)).

(** ** Paging ([vm.c]) and traps ([trap.c]) *)

Section main.
Context {L : Layout} {W : Wakeups} {D : Disk}.

Definition kvminit : M machine unit :=
  pt ← lift kvmmake;
  modify (set_kernel_pagetable pt).

Definition kvminithart (hart : Z) : M machine unit :=
  pt ← gets kernel_pagetable;
  modify (set_satp hart (MAKE_SATP pt)).

Definition trapinithart (hart : Z) : M machine unit := modify (set_stvec hart a_kernelvec).

(** ** The interrupt controller ([plic.c]) *)

Definition PLIC_SENABLE (hart : Z) : Z := PLIC + 0x2080 + hart * 0x100.
Definition PLIC_SPRIORITY (hart : Z) : Z := PLIC + 0x201000 + hart * 0x2000.

Definition plicinit : M machine unit :=
  modify (push_reg (PLIC + UART0_IRQ * 4) 1);;
  modify (push_reg (PLIC + VIRTIO0_IRQ * 4) 1).

Definition plicinithart (hart : Z) : M machine unit :=
  modify (push_reg (PLIC_SENABLE hart) (Z.lor (Z.shiftl 1 UART0_IRQ) (Z.shiftl 1 VIRTIO0_IRQ)));;
  modify (push_reg (PLIC_SPRIORITY hart) 0).

(** ** [main] *)

(** [while(started == 0) ;]: the other harts run between two tests. *)
Fixpoint wait_started (spins : nat) : M machine unit :=
  s ← gets started;
  if s =? 0 then
    match spins with
    | O => out_of_fuel
    | S spins' => swtch;; wait_started spins'
    end
  else mret ().

(** [main] of [hart] until it calls [scheduler]. [mmio] and [pages] are the
    arguments of [virtio_disk_init]. *)
Definition main (hart : Z) (spins : nat) (mmio : Z -> Z) (pages : Z) : M machine unit :=
  if hart =? 0 then
    consoleinit;;
    printfinit;;
    lift (printf [10] []);;
    lift (printf (str "xv6 kernel is booting" ++ [10]) []);;
    lift (printf [10] []);;
    lift kinit;;
    kvminit;;
    kvminithart hart;;
    lift procinit;;
    trapinithart hart;;
    plicinit;;
    plicinithart hart;;
    lift binit;;
    lift iinit;;
    lift (virtio_disk_init mmio pages);;
    lift userinit;;
    modify (set_started 1)
  else
    wait_started spins;;
    lift (printf (str "hart %d starting" ++ [10]) [PInt hart]);;
    kvminithart hart;;
    trapinithart hart;;
    plicinithart hart.

End main.
