(* ===== verification/VirtioInv.v ===== *)
(** * The disk driver at work: processes, device and interrupts

    A machine of processes inside [virtio_disk_rw], each suspended in one of
    its calls of [sleep], the device, the interrupt handler, and the rest of
    the kernel; and the invariant of its reachable states. *)

From S2P Require Import Prelude Riscv Monad State Kstring Printf Kalloc Vm Proc ProcInv Umem Sleeplock Bio BioInv Virtio.
#[local] Open Scope Z_scope.

#[local] Opaque acquire release wakeup.

(** ** The device

    What the driver relies on ([virtio] 1.1, sections 2.6 and 5.2): the
    device takes the chains of the available ring in order, serves the chains
    it has taken in any order, puts each on the used ring when it is served,
    and raises an interrupt. *)

Definition dev_fetch (v : vdisk) : vdisk :=
  set_v_seen (u16 (v_seen v + 1)) (set_v_busy (v_busy v ++ [v_avail_ring v (v_seen v mod NUM)]) v).

Definition has_bit (x bit : Z) : bool := truthy (Z.land x bit).

(** The request of a chain that follows the format of section 5.2: header,
    data and status. *)
Definition blk_chain (v : vdisk) (i : Z) : option (virtio_blk_req * Z * bool * Z) :=
  let d0 := v_desc v i in
  let d1 := v_desc v (d_next d0) in
  let d2 := v_desc v (d_next d1) in
  match d_addr d0, d_addr d1, d_addr d2 with
  | DmaOp o, DmaData b, DmaStatus st =>
      if (d_len d0 =? 16) && has_bit (d_flags d0) VRING_DESC_F_NEXT && negb (has_bit (d_flags d0) VRING_DESC_F_WRITE) &&
         (d_len d1 =? BSIZE) && has_bit (d_flags d1) VRING_DESC_F_NEXT &&
         (d_len d2 =? 1) && negb (has_bit (d_flags d2) VRING_DESC_F_NEXT) && has_bit (d_flags d2) VRING_DESC_F_WRITE
      then Some (v_ops v o, b, has_bit (d_flags d1) VRING_DESC_F_WRITE, st) else None
  | _, _, _ => None
  end.

(** The transfer of [BSIZE] bytes, two sectors; [dev_writes] says whether the
    device may write the data. *)
Definition blk_transfer (op : virtio_blk_req) (b : Z) (dev_writes : bool) (s : fssys) : option fssys :=
  let n := br_sector op / 2 in
  if negb (br_sector op mod 2 =? 0) then None
  else if (br_type op =? VIRTIO_BLK_T_OUT) && negb dev_writes then Some (fs_write_block n (b_data (fs_buf s b)) s)
  else if (br_type op =? VIRTIO_BLK_T_IN) && dev_writes then Some (fs_upd_buf b (set_b_data (fs_disk s n)) s)
  else None.

(** Serve chain [i]; [rest] are the chains the device is left with. *)
Definition blk_serve (i : Z) (rest : list Z) (k : kernel) : option kernel :=
  let v := vd k in
  '(op, b, dev_writes, st) ← blk_chain v i;
  s ← blk_transfer op b dev_writes (k_fs k);
  Some (set_fs s (set_vd (set_v_isr (Z.lor (v_isr v) 1) (set_v_used_head (u16 (v_used_head v + 1))
    (set_v_used_ring (v_used_head v mod NUM) i (set_v_info_status st 0 (set_v_busy rest v))))) k)).

(** A step of a device that keeps to the specification; of a chain that does
    not follow the format nothing is known. *)
Inductive dev_spec (k k' : kernel) : Prop :=
  | Dev_fetch : v_seen (vd k) <> v_avail_idx (vd k) -> k' = set_vd (dev_fetch (vd k)) k -> dev_spec k k'
  | Dev_serve B1 i B2 : v_busy (vd k) = B1 ++ i :: B2 -> (forall k1, blk_serve i (B1 ++ B2) k = Some k1 -> k' = k1) -> dev_spec k k'
  | Dev_raise x : k' = set_vd (set_v_isr (Z.lor (v_isr (vd k)) x) (vd k)) k -> dev_spec k k'.

(** ** The machine *)

(** A process in [virtio_disk_rw]: its buffer, the direction, the block and
    the bytes to transfer (of the buffer, or of the disk, when it was called),
    and how it goes on. *)
Record thread := mkthread {
  th_b : Z; th_w : bool; th_n : Z; th_d : list Z; th_resume : kernel -> outcome kernel unit
}.

Abbreviation threads := (Z -> option thread).

Record mach := mkmach { mc_k : kernel; mc_t : threads }.

Inductive mresult := MOk (m : mach) | MPanic (msg : string).

Definition blockno (k : kernel) (b : Z) : Z := b_blockno (fs_buf (k_fs k) b).
Definition bdata (k : kernel) (b : Z) : list Z := b_data (fs_buf (k_fs k) b).

Definition payload (b : Z) (w : bool) (k : kernel) : list Z := if w then bdata k b else fs_disk (k_fs k) (blockno k b).

Definition on (c : option Z) (k : kernel) : kernel := set_ps (ps_set_cur c (k_ps k)) k.

(** The scheduler switches to [p], and back. *)
Definition switch_in (p : Z) (k : kernel) : kernel :=
  set_held [ProcLock p] (set_ps (ps_set_cur (Some p) (ps_upd p (set_state RUNNING) (k_ps k))) k).
Definition switch_out (k : kernel) : kernel := set_held [] (on None k).

Lemma scheduler_switches p k :
  k_held k = [] -> p_state (ps_proc (k_ps k) p) = RUNNABLE ->
  exists f, scheduler_try p k = Yield (switch_in p k) f /\ forall k', k_held k' = [ProcLock p] -> f k' = Ret () (switch_out k').
Proof.
  intros Hh Hs. unfold scheduler_try. erewrite bind_eq by (apply acquire_eq; rewrite Hh; apply not_elem_of_nil). cbv beta.
  rewrite Hh. kpure. ksimp. rewrite Hs. unfold same_state. rewrite bool_decide_true by done. eexists. split; [reflexivity|].
  intros k' Hh'. simpl. by rewrite (release_eq _ []) by (try done; apply not_elem_of_nil).
Qed.

Definition settle (p b : Z) (w : bool) (n : Z) (d : list Z) (T : threads) (o : outcome kernel unit) : mresult :=
  match o with
  | Ret _ k => MOk (mkmach k (<[p := None]> T))
  | Panic msg => MPanic msg
  | Yield k f => MOk (mkmach (switch_out k) (<[p := Some (mkthread b w n d f)]> T))
  end.

(** Process [p] calls [virtio_disk_rw]. *)
Definition m_call {W : Wakeups} (p b : Z) (w : bool) (m : mach) : mresult :=
  settle p b w (blockno (mc_k m) b) (payload b w (mc_k m)) (mc_t m) (virtio_disk_rw b w (on (Some p) (mc_k m))).

(** A suspended process goes on. *)
Definition m_resume (p : Z) (th : thread) (m : mach) : mresult :=
  settle p (th_b th) (th_w th) (th_n th) (th_d th) (mc_t m) (th_resume th (switch_in p (mc_k m))).

(** An interrupt, on a hart that runs process [c] or none. *)
Definition m_intr (c : option Z) (m : mach) : mresult :=
  match virtio_disk_intr (on c (mc_k m)) with
  | Ret _ k => MOk (mkmach k (mc_t m))
  | Panic msg => MPanic msg
  | Yield _ _ => MPanic "interrupt handler sleeps"
  end.

(** The callers of the driver hold the sleep-lock of the buffer, and a block
    has one buffer: two requests are for different buffers and blocks. *)
Record may_call (p b : Z) (m : mach) : Prop := {
  mc_proc : 0 <= p < NPROC;
  mc_running : p_state (ps_proc (k_ps (mc_k m)) p) = RUNNING;
  mc_new : mc_t m p = None;
  mc_buf : inb b;
  mc_block : 0 <= blockno (mc_k m) b < 2 ^ 31;
  mc_apart q th : mc_t m q = Some th -> th_b th <> b /\ blockno (mc_k m) (th_b th) <> blockno (mc_k m) b
}.

(** The rest of the kernel changes buffers the driver does not work on, and
    may wake up sleeping processes ([kill]). *)
Record client_step (T : threads) (k k' : kernel) : Prop := {
  cl_vd : vd k' = vd k;
  cl_held : k_held k' = k_held k;
  cl_disk : fs_disk (k_fs k') = fs_disk (k_fs k);
  cl_buf p th : T p = Some th -> fs_buf (k_fs k') (th_b th) = fs_buf (k_fs k) (th_b th);
  cl_sleep p th : T p = Some th -> p_state (ps_proc (k_ps k') p) = SLEEPING ->
    p_state (ps_proc (k_ps k) p) = SLEEPING /\ p_chan (ps_proc (k_ps k') p) = p_chan (ps_proc (k_ps k) p)
}.

Section machine.
Context {W : Wakeups} (device : kernel -> kernel -> Prop).

Inductive mstep (m : mach) : mresult -> Prop :=
  | Mcall p b w : may_call p b m -> mstep m (m_call p b w m)
  | Mresume p th : mc_t m p = Some th -> p_state (ps_proc (k_ps (mc_k m)) p) = RUNNABLE -> mstep m (m_resume p th m)
  | Mintr c : (forall p, c = Some p -> mc_t m p = None) -> mstep m (m_intr c m)
  | Mdevice k' : device (mc_k m) k' -> mstep m (MOk (mkmach k' (mc_t m)))
  | Mclient k' : client_step (mc_t m) (mc_k m) k' -> mstep m (MOk (mkmach k' (mc_t m))).

Inductive mreach (m0 : mach) : mach -> Prop :=
  | Mreach_refl : mreach m0 m0
  | Mreach_step m m' : mreach m0 m -> mstep m (MOk m') -> mreach m0 m'.

End machine.

(** ** The invariant *)

(** A request in the device's hands: its process and its three
    descriptors. *)
Record req := mkreq { r_p : Z; r_i0 : Z; r_i1 : Z; r_i2 : Z }.

#[export] Instance req_eq_dec : EqDecision req.
Proof. solve_decision. Defined.

Definition r_descs (r : req) : list Z := [r_i0 r; r_i1 r; r_i2 r].
Definition in_use (C : list req) : list Z := C ≫= r_descs.
Definition heads (C : list req) : list Z := map r_i0 C.

(** The entries [l] of a ring from position [i] on. *)
Definition window (ring : Z -> Z) (i : Z) (l : list Z) : Prop :=
  forall j x, l !! j = Some x -> ring ((i + Z.of_nat j) mod NUM) = x.

(** The chain of [r] describes the request of [th]. *)
Record chain_ok (th : thread) (r : req) (k : kernel) : Prop := {
  co_d0 : v_desc (vd k) (r_i0 r) = mkvirtq_desc (DmaOp (r_i0 r)) 16 1 (r_i1 r);
  co_d1 : v_desc (vd k) (r_i1 r) = mkvirtq_desc (DmaData (th_b th)) BSIZE (if th_w th then 1 else 3) (r_i2 r);
  co_d2 : v_desc (vd k) (r_i2 r) = mkvirtq_desc (DmaStatus (r_i0 r)) 1 2 0;
  co_op : v_ops (vd k) (r_i0 r) = mkvirtio_blk_req (if th_w th then 1 else 0) 0 (2 * blockno k (th_b th));
  co_b : v_info_b (vd k) (r_i0 r) = Some (th_b th)
}.

(** The transfer has been made. *)
Definition moved (th : thread) (k : kernel) : Prop :=
  bdata k (th_b th) = th_d th /\ fs_disk (k_fs k) (blockno k (th_b th)) = th_d th.

Definition sleeps_on (p : Z) (c : chan) (k : kernel) : Prop :=
  p_state (ps_proc (k_ps k) p) = SLEEPING -> p_chan (ps_proc (k_ps k) p) = c.

(** [U] are the chains on the used ring, [P] those the interrupt handler has
    seen. *)
Record req_ok (U P : list Z) (th : thread) (r : req) (k : kernel) : Prop := {
  ro_chain : chain_ok th r k;
  ro_disk : b_disk (fs_buf (k_fs k) (th_b th)) = if decide (r_i0 r ∈ P) then 0 else 1;
  ro_moved : r_i0 r ∈ U ++ P -> moved th k;
  ro_status : r_i0 r ∈ U -> v_info_status (vd k) (r_i0 r) = 0;
  ro_sleep : p_state (ps_proc (k_ps k) (r_p r)) = SLEEPING ->
    p_chan (ps_proc (k_ps k) (r_p r)) = ChanBuf (th_b th) /\ r_i0 r ∉ P
}.

Record thr_ok (p : Z) (th : thread) (k : kernel) : Prop := {
  to_proc : 0 <= p < NPROC;
  to_buf : inb (th_b th);
  to_block : blockno k (th_b th) = th_n th /\ 0 <= th_n th < 2 ^ 31;
  to_data : payload (th_b th) (th_w th) k = th_d th
}.

(** The requests [C] of the driver: those on the available ring ([A]), in
    the device, on the used ring ([U]), and done ([P]). *)
Record vinv (C : list req) (A U P : list Z) (T : threads) (k : kernel) : Prop := {
  vi_nodup : NoDup (in_use C);
  vi_range i : i ∈ in_use C -> 0 <= i < NUM;
  vi_free i : 0 <= i < NUM -> v_free (vd k) i = if decide (i ∈ in_use C) then 0 else 1;
  vi_perm : heads C ≡ₚ A ++ v_busy (vd k) ++ U ++ P;
  vi_avail : window (v_avail_ring (vd k)) (v_seen (vd k)) A /\ v_avail_idx (vd k) = u16 (v_seen (vd k) + Z.of_nat (length A)) /\
    0 <= v_seen (vd k) < 2 ^ 16;
  vi_used : window (v_used_ring (vd k)) (v_used_idx (vd k)) U /\ v_used_head (vd k) = u16 (v_used_idx (vd k) + Z.of_nat (length U)) /\
    0 <= v_used_idx (vd k) < 2 ^ 16;
  vi_procs : NoDup (map r_p C);
  vi_req r : r ∈ C -> exists th, T (r_p r) = Some th /\ req_ok U P th r k;
  vi_thr p th : T p = Some th -> thr_ok p th k;
  vi_wait p th : T p = Some th -> p ∉ map r_p C -> p_state (ps_proc (k_ps k) p) = SLEEPING ->
    p_chan (ps_proc (k_ps k) p) = ChanDiskFree /\ C <> [];
  vi_sep p q th th' : T p = Some th -> T q = Some th' -> p <> q ->
    th_b th <> th_b th' /\ blockno k (th_b th) <> blockno k (th_b th')
}.

(** The used ring is empty, or an interrupt is pending. *)
Definition intr_pending (U : list Z) (k : kernel) : Prop := U <> [] -> Z.testbit (v_isr (vd k)) 0 = true.

(** ** Framing *)

(** The driver's state but for descriptors that are free. *)
Definition with_df (d : Z -> virtq_desc) (f : Z -> Z) (v : vdisk) : vdisk :=
  mkvdisk d (v_avail_idx v) (v_avail_ring v) (v_used_head v) (v_used_ring v) f (v_used_idx v) (v_info_b v) (v_info_status v)
    (v_ops v) (v_isr v) (v_regs v) (v_seen v) (v_busy v).

Record v_agree (v v' : vdisk) : Prop := {
  va_rest : v' = with_df (v_desc v') (v_free v') v;
  va_free i : 0 <= i < NUM -> v_free v' i = v_free v i;
  va_desc i : 0 <= i < NUM -> v_free v i = 0 -> v_desc v' i = v_desc v i
}.

Lemma v_agree_refl v : v_agree v v.
Proof. split; [by destruct v|done|done]. Qed.

Record k_agree (T : threads) (k k' : kernel) : Prop := {
  ka_vd : v_agree (vd k) (vd k');
  ka_disk : fs_disk (k_fs k') = fs_disk (k_fs k);
  ka_buf p th : T p = Some th -> fs_buf (k_fs k') (th_b th) = fs_buf (k_fs k) (th_b th);
  ka_sleep p th : T p = Some th -> p_state (ps_proc (k_ps k') p) = SLEEPING ->
    p_state (ps_proc (k_ps k) p) = SLEEPING /\ p_chan (ps_proc (k_ps k') p) = p_chan (ps_proc (k_ps k) p)
}.

Lemma elem_in_use C r i : r ∈ C -> i ∈ r_descs r -> i ∈ in_use C.
Proof. intros Hr Hi. apply list_elem_of_bind. by exists r. Qed.

Lemma heads_in_use C i : i ∈ heads C -> i ∈ in_use C.
Proof. intros (r & -> & Hr)%list_elem_of_fmap. apply (elem_in_use C r); [done|]. apply list_elem_of_here. Qed.

Lemma vinv_frame C A U P T k k' : vinv C A U P T k -> k_agree T k k' -> vinv C A U P T k'.
Proof.
  intros [N R F Pm Av Us Np Rq Th Wt Sp] [[E Fr De] Dk Bf Sl].
  assert (forall q th, T q = Some th -> blockno k' (th_b th) = blockno k (th_b th)) as Hbn.
  { intros q th Hq. unfold blockno. by rewrite (Bf q th Hq). }
  split; try done.
  - intros i Hi. rewrite Fr by done. auto.
  - by rewrite E.
  - by rewrite E.
  - by rewrite E.
  - intros r Hr. destruct (Rq r Hr) as (th & HT & [[d0 d1 d2 op ib] Hd Hm Hs Hsl]). exists th. split; [done|].
    assert (forall i, i ∈ r_descs r -> v_desc (vd k') i = v_desc (vd k) i) as Hde.
    { intros i Hi. pose proof (elem_in_use C r i Hr Hi) as Hu. pose proof (R i Hu).
      apply De; [done|]. rewrite F, decide_True; done. }
    split.
    + split; [rewrite Hde; [done|set_solver]..| |].
      * rewrite E. simpl. by rewrite (Hbn _ th HT).
      * by rewrite E.
    + by rewrite (Bf _ th HT).
    + intros Hi. destruct (Hm Hi) as [M1 M2]. split; [unfold bdata; by rewrite (Bf _ th HT)|]. by rewrite Dk, (Hbn _ th HT).
    + intros Hi. rewrite E. auto.
    + intros Hz. destruct (Sl _ th HT Hz) as [Hz1 Hz2]. rewrite Hz2. auto.
  - intros p th HT. destruct (Th p th HT) as [t1 t2 t3 t4]. split; [done|done|by rewrite (Hbn _ th HT)|].
    rewrite <- t4. unfold payload, bdata. by rewrite (Bf _ th HT), Dk, (Hbn _ th HT).
  - intros p th HT Hp Hz. destruct (Sl _ th HT Hz) as [Hz1 Hz2]. rewrite Hz2. eauto.
  - intros p q th th' HT HT' Hne. rewrite (Hbn _ th HT), (Hbn _ th' HT'). eauto.
Qed.

(** ** Rings *)

Lemma u16_mod_NUM y : u16 y mod NUM = y mod NUM.
Proof. unfold u16, NUM. symmetry. apply Znumtheory.Zmod_div_mod; [lia|lia|]. by exists (2 ^ 13). Qed.

Lemma u16_add_l y z : u16 (u16 y + z) = u16 (y + z).
Proof. unfold u16. by rewrite Zplus_mod_idemp_l. Qed.

Lemma u16_range y : 0 <= u16 y < 2 ^ 16.
Proof. unfold u16. by apply Z.mod_pos_bound. Qed.

Lemma window_pop ring i x l : window ring i (x :: l) -> ring (i mod NUM) = x /\ window ring (u16 (i + 1)) l.
Proof.
  intros Hw. split.
  - specialize (Hw 0%nat x eq_refl). by rewrite Z.add_0_r in Hw.
  - intros j y Hy. specialize (Hw (S j) y Hy). rewrite <- Hw. f_equal.
    rewrite <- (u16_mod_NUM (u16 (i + 1) + _)), u16_add_l, u16_mod_NUM. f_equal. lia.
Qed.

Lemma window_push ring i l x slot :
  window ring i l -> Z.of_nat (length l) < NUM -> slot mod NUM = (i + Z.of_nat (length l)) mod NUM ->
  window (<[slot mod NUM := x]> ring) i (l ++ [x]).
Proof.
  intros Hw Hl -> j y Hy. apply lookup_app_Some in Hy as [Hy|[Hj Hy]].
  - pose proof (lookup_lt_Some _ _ _ Hy). rewrite fn_lookup_insert_ne; [by apply Hw|].
    intros E. apply (f_equal (fun z => (z - i) mod NUM)) in E. rewrite !Zminus_mod_idemp_l in E. unfold NUM in *.
    rewrite !Z.add_simpl_l, !Z.mod_small in E by lia. lia.
  - apply list_lookup_singleton_Some in Hy as [Hj0 <-]. replace (Z.of_nat j) with (Z.of_nat (length l)) by lia.
    by rewrite fn_lookup_insert.
Qed.

(** A queue of fewer than 2^16 entries is empty exactly when its two indices
    meet. *)
Lemma queue_empty i (l : list Z) : 0 <= i < 2 ^ 16 -> Z.of_nat (length l) < 2 ^ 16 -> i = u16 (i + Z.of_nat (length l)) <-> l = [].
Proof.
  intros Hi Hl. split; [|intros ->; unfold u16; simpl; rewrite Z.mod_small; lia].
  intros E. destruct l as [|x l]; [done|]. exfalso. unfold u16 in E. simpl length in *.
  destruct (decide (i + Z.of_nat (S (length l)) < 2 ^ 16)).
  - rewrite Z.mod_small in E; lia.
  - rewrite <- (Z.mod_unique _ _ 1 (i + Z.of_nat (S (length l)) - 2 ^ 16)) in E; lia.
Qed.

Lemma heads_nodup C : NoDup (in_use C) -> NoDup (heads C).
Proof.
  induction C as [|r C IH]; [constructor|]. intros (_ & Hd & Hn)%NoDup_app.
  simpl. constructor; [|auto]. intros Hi%heads_in_use. apply (Hd (r_i0 r)); [apply list_elem_of_here|done].
Qed.

Lemma NoDup_range_length (l : list Z) : NoDup l -> (forall i, i ∈ l -> 0 <= i < NUM) -> Z.of_nat (length l) <= NUM.
Proof.
  intros Hn Hr. assert (l ⊆ seqZ 0 NUM) as Hs by (intros i Hi; apply elem_of_seqZ, Hr, Hi).
  pose proof (submseteq_length _ _ (NoDup_submseteq _ _ Hn Hs)). rewrite length_seqZ in *. unfold NUM in *. lia.
Qed.

Section props.
Context C A U P T k (I : vinv C A U P T k).

Lemma stages_nodup : NoDup (A ++ v_busy (vd k) ++ U ++ P).
Proof. rewrite <- (vi_perm _ _ _ _ _ _ I). apply heads_nodup, (vi_nodup _ _ _ _ _ _ I). Qed.

Lemma stage_request i : i ∈ A ++ v_busy (vd k) ++ U ++ P -> exists r, r ∈ C /\ r_i0 r = i /\ 0 <= i < NUM.
Proof.
  rewrite <- (vi_perm _ _ _ _ _ _ I). intros Hi. pose proof (vi_range _ _ _ _ _ _ I i (heads_in_use _ _ Hi)).
  apply list_elem_of_fmap in Hi as (r & -> & Hr). eauto.
Qed.

Lemma stages_length : Z.of_nat (length A + length (v_busy (vd k)) + length U + length P) <= NUM.
Proof.
  pose proof (NoDup_range_length _ stages_nodup) as H. rewrite !length_app in H.
  rewrite <- !Nat.add_assoc. apply H. intros i Hi. destruct (stage_request i Hi) as (r & _ & _ & ?). done.
Qed.

Lemma same_request r r' : r ∈ C -> r' ∈ C -> r_i0 r = r_i0 r' -> r = r'.
Proof.
  intros Hr Hr' E. pose proof (heads_nodup C (vi_nodup _ _ _ _ _ _ I)) as Hn. unfold heads in Hn.
  apply list_elem_of_lookup in Hr as [j Hj]. apply list_elem_of_lookup in Hr' as [j' Hj'].
  assert (j = j') as ->; [|congruence]. eapply (NoDup_lookup (map r_i0 C) j j' (r_i0 r)); [done|..].
  - apply (list_lookup_fmap_Some_2 r_i0 C j r Hj).
  - rewrite E. apply (list_lookup_fmap_Some_2 r_i0 C j' r' Hj').
Qed.

Lemma same_process r r' : r ∈ C -> r' ∈ C -> r_p r = r_p r' -> r = r'.
Proof.
  intros Hr Hr' E. pose proof (vi_procs _ _ _ _ _ _ I) as Hn.
  apply list_elem_of_lookup in Hr as [j Hj]. apply list_elem_of_lookup in Hr' as [j' Hj'].
  assert (j = j') as ->; [|congruence]. eapply (NoDup_lookup (map r_p C) j j' (r_p r)); [done|..].
  - apply (list_lookup_fmap_Some_2 r_p C j r Hj).
  - rewrite E. apply (list_lookup_fmap_Some_2 r_p C j' r' Hj').
Qed.

End props.

(** ** The device keeps the invariant *)

Lemma thr_ok_fs p th k k' : thr_ok p th k -> k_fs k' = k_fs k -> thr_ok p th k'.
Proof. intros [t1 t2 t3 t4] E. split; unfold payload, bdata, blockno in *; by rewrite ?E. Qed.

Lemma req_ok_vd U U' P th r k v' :
  req_ok U P th r k -> (forall i, i ∈ r_descs r -> v_desc v' i = v_desc (vd k) i) -> v_ops v' (r_i0 r) = v_ops (vd k) (r_i0 r) ->
  v_info_b v' (r_i0 r) = v_info_b (vd k) (r_i0 r) -> (r_i0 r ∈ U' -> r_i0 r ∈ U /\ v_info_status v' (r_i0 r) = v_info_status (vd k) (r_i0 r)) ->
  req_ok U' P th r (set_vd v' k).
Proof.
  intros [[d0 d1 d2 op ib] Hd Hm Hs Hz] Ed Eo Eb Es. split; try done.
  - split; simpl; [rewrite Ed; [done|set_solver]..|by rewrite Eo|by rewrite Eb].
  - intros Hi. apply Hm. set_solver.
  - intros Hi. destruct (Es Hi) as [H1 H2]. simpl. rewrite H2. auto.
Qed.

Lemma vinv_fetch C A U P T k :
  vinv C A U P T k -> v_seen (vd k) <> v_avail_idx (vd k) -> exists A', vinv C A' U P T (set_vd (dev_fetch (vd k)) k).
Proof.
  intros I Hne. pose proof (stages_length _ _ _ _ _ _ I) as Hlen. destruct I as [N R F Pm (Aw & Ai & Ar) Us Np Rq Th Wt Sp].
  destruct A as [|i A]; [exfalso; apply Hne; rewrite Ai; symmetry; simpl; rewrite Z.add_0_r; by apply Z.mod_small|].
  destruct (window_pop _ _ _ _ Aw) as [Hi Aw']. exists A. split; try done.
  - simpl. rewrite Hi, Pm. simpl. rewrite <- app_assoc. simpl. by rewrite <- (Permutation_middle (v_busy (vd k))), <- (Permutation_middle A).
  - simpl. split; [done|]. split; [|apply u16_range]. rewrite u16_add_l, Ai. f_equal. simpl. lia.
  - intros r Hr. destruct (Rq r Hr) as (th & HT & Hok). exists th. split; [done|]. by apply (req_ok_vd U).
  - intros p th HT. by apply (thr_ok_fs p th k); [auto|].
Qed.

Lemma vinv_raise C A U P T k x : vinv C A U P T k -> vinv C A U P T (set_vd (set_v_isr x (vd k)) k).
Proof.
  intros [N R F Pm Av Us Np Rq Th Wt Sp]. split; try done.
  - intros r Hr. destruct (Rq r Hr) as (th & HT & Hok). exists th. split; [done|]. by apply (req_ok_vd U).
  - intros p th HT. by apply (thr_ok_fs p th k); [auto|].
Qed.

(** The file system's state after the transfer. *)
Definition served (th : thread) (k : kernel) : fssys :=
  if th_w th then fs_write_block (blockno k (th_b th)) (bdata k (th_b th)) (k_fs k)
  else fs_upd_buf (th_b th) (set_b_data (fs_disk (k_fs k) (blockno k (th_b th)))) (k_fs k).

(** The chain of a request is well formed, and its transfer is the one the
    process asked for. *)
Lemma serve_request th r rest k :
  chain_ok th r k ->
  blk_serve (r_i0 r) rest k =
  Some (set_fs (served th k)
    (set_vd (set_v_isr (Z.lor (v_isr (vd k)) 1) (set_v_used_head (u16 (v_used_head (vd k) + 1))
      (set_v_used_ring (v_used_head (vd k) mod NUM) (r_i0 r) (set_v_info_status (r_i0 r) 0 (set_v_busy rest (vd k)))))) k)).
Proof.
  intros [d0 d1 d2 op ib].
  assert (blk_chain (vd k) (r_i0 r) =
    Some (mkvirtio_blk_req (if th_w th then 1 else 0) 0 (2 * blockno k (th_b th)), th_b th, negb (th_w th), r_i0 r)) as Hc.
  { unfold blk_chain. rewrite d0. cbn [d_next d_addr]. rewrite d1. cbn [d_next d_addr]. rewrite d2, op. by destruct (th_w th). }
  assert ((2 * blockno k (th_b th)) / 2 = blockno k (th_b th) /\ (2 * blockno k (th_b th)) mod 2 = 0) as [Hdiv Hmod].
  { rewrite (Z.mul_comm 2). split; [by apply Z.div_mul|by apply Z.mod_mul]. }
  unfold blk_serve. rewrite Hc. cbn [mbind option_bind]. unfold blk_transfer. cbn [br_sector br_type]. rewrite Hdiv, Hmod.
  unfold served. by destruct (th_w th).
Qed.

Lemma served_moved th k : payload (th_b th) (th_w th) k = th_d th -> moved th (set_fs (served th k) k).
Proof.
  intros Hp. unfold moved, served, bdata, blockno, payload in *. destruct (th_w th); simpl; rewrite fn_lookup_insert; by simpl.
Qed.

Lemma served_buf th k b : b_disk (fs_buf (served th k) b) = b_disk (fs_buf (k_fs k) b) /\ b_blockno (fs_buf (served th k) b) = b_blockno (fs_buf (k_fs k) b).
Proof.
  unfold served. destruct (th_w th); [done|]. simpl. destruct (decide (b = th_b th)) as [->|Hb].
  - by rewrite fn_lookup_insert.
  - by rewrite fn_lookup_insert_ne.
Qed.

Lemma served_other th k b : b <> th_b th -> blockno k b <> blockno k (th_b th) ->
  fs_buf (served th k) b = fs_buf (k_fs k) b /\ fs_disk (served th k) (blockno k b) = fs_disk (k_fs k) (blockno k b).
Proof.
  intros Hb Hn. unfold served. destruct (th_w th); simpl.
  - by rewrite fn_lookup_insert_ne.
  - by rewrite fn_lookup_insert_ne.
Qed.

Lemma req_ok_fs U P th r k s :
  req_ok U P th r k -> fs_buf s (th_b th) = fs_buf (k_fs k) (th_b th) ->
  fs_disk s (blockno k (th_b th)) = fs_disk (k_fs k) (blockno k (th_b th)) -> req_ok U P th r (set_fs s k).
Proof.
  intros [[d0 d1 d2 op ib] Hd Hm Hs Hz] Eb Ed. split; try done.
  - split; try done. unfold blockno in *. simpl. by rewrite Eb.
  - simpl. by rewrite Eb.
  - intros Hi. destruct (Hm Hi) as [M1 M2]. unfold moved, blockno, bdata in *. simpl. by rewrite Eb, Ed.
Qed.

Lemma thr_ok_served p q th th' T k :
  (forall p q th th', T p = Some th -> T q = Some th' -> p <> q -> th_b th <> th_b th' /\ blockno k (th_b th) <> blockno k (th_b th')) ->
  T p = Some th -> T q = Some th' -> payload (th_b th) (th_w th) k = th_d th -> thr_ok q th' k -> thr_ok q th' (set_fs (served th k) k).
Proof.
  intros Sp Hp Hq Hd [t1 t2 t3 t4]. split; [done|done|unfold blockno in *; simpl; by rewrite (proj2 (served_buf th k _))|].
  destruct (decide (p = q)) as [<-|Hne].
  - assert (th' = th) as -> by congruence. destruct (served_moved th k Hd) as [M1 M2]. unfold payload. by destruct (th_w th).
  - destruct (Sp p q th th' Hp Hq Hne) as [N1 N2]. destruct (served_other th k (th_b th')) as [E1 E2]; [by intros E; apply N1|by intros E; apply N2|].
    rewrite <- t4. unfold payload, bdata, blockno in *. simpl. rewrite E1. by destruct (th_w th').
Qed.

Lemma vinv_serve C A U P T k k' B1 i B2 :
  vinv C A U P T k -> v_busy (vd k) = B1 ++ i :: B2 -> blk_serve i (B1 ++ B2) k = Some k' ->
  vinv C A (U ++ [i]) P T k'.
Proof.
  intros I HB Hs. pose proof (stages_length _ _ _ _ _ _ I) as Hlen. pose proof (stages_nodup _ _ _ _ _ _ I) as Hnd.
  destruct (stage_request _ _ _ _ _ _ I i) as (r & Hr & Hri & Hi); [rewrite HB; set_solver|].
  pose proof (same_request _ _ _ _ _ _ I) as Hsame. pose proof (same_process _ _ _ _ _ _ I) as Hproc.
  rewrite HB in Hlen, Hnd. rewrite !length_app in Hlen. simpl in Hlen.
  destruct I as [N R F Pm Av (Uw & Ui & Ur) Np Rq Th Wt Sp]. destruct (Rq r Hr) as (th & HT & Hok).
  destruct (Th _ _ HT) as [t1 t2 t3 t4]. rewrite <- Hri, (serve_request th r) in Hs by (try apply Hok; done).
  injection Hs as <-. rewrite Hri. pose proof (fun b => proj2 (served_buf th k b)) as Hbn. split; try done.
  - rewrite Pm, HB. simpl. rewrite <- !app_assoc. simpl.
    do 2 apply Permutation_app_head. by rewrite <- (Permutation_middle U), <- (Permutation_middle B2).
  - simpl. split_and!; [|rewrite Ui, u16_add_l, length_app; f_equal; simpl; lia|lia..].
    apply window_push; [done|lia|]. by rewrite Ui, u16_mod_NUM.
  - intros r' Hr'. destruct (Rq r' Hr') as (th' & HT' & Hok'). exists th'. split; [done|].
    destruct (decide (r' = r)) as [->|Hne].
    + assert (th' = th) as -> by congruence. destruct Hok as [[d0 d1 d2 op ib] Hd _ _ Hz]. split; try done.
      * split; try done. unfold blockno in *. simpl. by rewrite Hbn.
      * simpl. by rewrite (proj1 (served_buf th k _)).
      * intros _. exact (served_moved th k t4).
      * intros _. simpl. rewrite Hri. by rewrite fn_lookup_insert.
    + destruct (Sp (r_p r') (r_p r) th' th HT' HT) as [N1 N2]; [intros E; apply Hne; by apply Hproc|].
      destruct (served_other th k (th_b th') N1 N2) as [E1 E2]. apply req_ok_fs; [|done..]. apply (req_ok_vd U); try done.
      intros Hin. assert (r_i0 r' <> i) by (intros E; apply Hne; apply Hsame; congruence).
      split; [set_solver|]. simpl. by rewrite fn_lookup_insert_ne.
  - intros p' th' HT'. apply (thr_ok_fs _ _ (set_fs (served th k) k)); [|done]. apply (thr_ok_served (r_p r) p' th th' T); auto.
  - intros p' q' th1 th2 H1 H2 Hne. unfold blockno. simpl. rewrite !Hbn. eauto.
Qed.

(** ** The interrupt handler keeps the invariant *)

(** [wakeup] leaves no process asleep on the channel, and the others as they
    are. *)
Record woke (c : chan) (ps ps' : procsys) : Prop := {
  wk_woke : ps_woke ps ps';
  wk_awake q : 0 <= q < NPROC -> ps_cur ps <> Some q -> p_state (ps_proc ps' q) = SLEEPING -> p_chan (ps_proc ps' q) <> c
}.

Lemma wakeup_wakes c k : no_proc_lock k -> exists ps', wakeup c k = Ret () (set_ps ps' k) /\ woke c (k_ps k) ps'.
Proof.
  intros Hlk. destruct (wakeup_spec c k Hlk) as (ps' & Hrun & Hg & Hp). exists ps'. split; [done|]. split.
  - split; [done|]. intros q. rewrite Hp. case_decide; [|by left]. unfold woken. case_bool_decide as Hw; [right|by left]. tauto.
  - intros q Hq Hc. rewrite Hp, decide_True by done. unfold woken. case_bool_decide as Hw; [done|]. intros Hs E. by apply Hw.
Qed.

Lemma ps_woke_sleeping ps ps' q :
  ps_woke ps ps' -> p_state (ps_proc ps' q) = SLEEPING -> p_state (ps_proc ps q) = SLEEPING /\ p_chan (ps_proc ps' q) = p_chan (ps_proc ps q).
Proof. intros [_ Hp] Hs. destruct (Hp q) as [E|(_ & _ & E)]; rewrite E in *; done. Qed.

Definition intr_done (b : Z) (ps' : procsys) (k : kernel) : kernel :=
  set_vd (set_v_used_idx (u16 (v_used_idx (vd k) + 1)) (vd k)) (set_ps ps' (set_fs (fs_upd_buf b (set_b_disk 0) (k_fs k)) k)).

Lemma intr_done_buf b ps' k b' :
  fs_buf (k_fs (intr_done b ps' k)) b' = if decide (b' = b) then set_b_disk 0 (fs_buf (k_fs k) b) else fs_buf (k_fs k) b'.
Proof. simpl. case_decide as E; [subst; by rewrite fn_lookup_insert|by rewrite fn_lookup_insert_ne]. Qed.

Lemma intr_done_block b ps' k b' : blockno (intr_done b ps' k) b' = blockno k b' /\ bdata (intr_done b ps' k) b' = bdata k b'.
Proof. unfold blockno, bdata. rewrite intr_done_buf. by case_decide; subst. Qed.

Lemma vinv_intr C A i U P T k r th ps' :
  vinv C A (i :: U) P T k -> r ∈ C -> r_i0 r = i -> T (r_p r) = Some th -> (forall p, ps_cur (k_ps k) = Some p -> T p = None) ->
  woke (ChanBuf (th_b th)) (k_ps k) ps' -> vinv C A U (i :: P) T (intr_done (th_b th) ps' k).
Proof.
  intros I Hr Hri HT Hcur [Hwk Haw]. pose proof (same_request _ _ _ _ _ _ I) as Hsame. pose proof (same_process _ _ _ _ _ _ I) as Hproc.
  pose proof (stages_nodup _ _ _ _ _ _ I) as Hnd. destruct I as [N R F Pm Av (Uw & Ui & Ur) Np Rq Th Wt Sp].
  pose proof (fun b => intr_done_block (th_b th) ps' k b) as Hbd. destruct (window_pop _ _ _ _ Uw) as [_ Uw'].
  split; try done.
  - rewrite Pm. simpl. do 2 apply Permutation_app_head. apply Permutation_middle.
  - simpl. split; [done|]. split; [|apply u16_range]. rewrite u16_add_l, Ui. f_equal. simpl. lia.
  - intros r' Hr'. destruct (Rq r' Hr') as (th' & HT' & [[d0 d1 d2 op ib] Hd Hm Hs Hz]). exists th'. split; [done|].
    assert (chain_ok th' r' (intr_done (th_b th) ps' k)) as Hch.
    { split; try done. rewrite (proj1 (Hbd _)). done. }
    assert (moved th' k -> moved th' (intr_done (th_b th) ps' k)) as Hmv.
    { intros [M1 M2]. split; [by rewrite (proj2 (Hbd _))|by rewrite (proj1 (Hbd _))]. }
    destruct (decide (r' = r)) as [->|Hne].
    + assert (th' = th) as -> by congruence. split; try done.
      * rewrite intr_done_buf, !decide_True by (try done; set_solver). done.
      * intros _. apply Hmv, Hm. set_solver.
      * intros Hi. apply Hs. set_solver.
      * intros Hsl. destruct (ps_woke_sleeping _ _ _ Hwk Hsl) as [S1 S2]. exfalso.
        apply (Haw (r_p r)); [by apply (Th _ _ HT)|intros E; by rewrite (Hcur _ E) in HT|done|].
        simpl in S2. rewrite S2. by apply Hz.
    + assert (r_i0 r' <> i) as Hi' by (intros E; apply Hne, Hsame; congruence).
      destruct (Sp (r_p r') (r_p r) th' th HT' HT) as [N1 N2]; [intros E; apply Hne; by apply Hproc|].
      split; try done.
      * rewrite intr_done_buf, decide_False by done. rewrite Hd. repeat case_decide; set_solver.
      * intros Hi. apply Hmv, Hm. set_solver.
      * intros Hi. apply Hs. set_solver.
      * intros Hsl. destruct (ps_woke_sleeping _ _ _ Hwk Hsl) as [S1 S2]. simpl in S2. simpl. rewrite S2.
        destruct (Hz S1) as [? ?]. split; [done|set_solver].
  - intros p th' HT'. destruct (Th p th' HT') as [t1 t2 t3 t4]. split; [done|done|by rewrite (proj1 (Hbd _))|].
    rewrite <- t4. unfold payload. by rewrite (proj1 (Hbd _)), (proj2 (Hbd _)).
  - intros p th' HT' Hp Hsl. destruct (ps_woke_sleeping _ _ _ Hwk Hsl) as [S1 S2]. simpl in S2. simpl. rewrite S2. eauto.
  - intros p q th1 th2 H1 H2 Hne. rewrite !(proj1 (Hbd _)). eauto.
Qed.

Lemma intr_loop_spec n C A U P T k :
  vinv C A U P T k -> no_proc_lock k -> (forall p, ps_cur (k_ps k) = Some p -> T p = None) -> (length U <= n)%nat ->
  exists k' P', intr_loop n k = Ret () k' /\ vinv C A [] P' T k' /\ k_held k' = k_held k.
Proof.
  revert U P k. induction n as [|n IH]; intros U P k I Hlk Hcur Hn; pose proof (stages_length _ _ _ _ _ _ I) as Hlen;
    destruct (vi_used _ _ _ _ _ _ I) as (Uw & Ui & Ur); pose proof (queue_empty (v_used_idx (vd k)) U Ur) as HU;
    unfold NUM in Hlen; rewrite <- Ui in HU.
  - destruct U; [|simpl in Hn; lia]. exists k, P. split; [|done]. cbn [intr_loop]. kpure. kpure.
    rewrite (proj2 (Z.eqb_eq _ _)); [done|]. apply HU; [lia|done].
  - cbn [intr_loop]. kpure. kpure. destruct U as [|i U].
    { exists k, P. split; [|done]. rewrite (proj2 (Z.eqb_eq _ _)); [done|]. apply HU; [lia|done]. }
    rewrite (proj2 (Z.eqb_neq _ _)) by (intros E; apply HU in E; [done|lia]).
    destruct (stage_request _ _ _ _ _ _ I i) as (r & Hr & Hri & Hi); [set_solver|].
    destruct (vi_req _ _ _ _ _ _ I r Hr) as (th & HT & Hok). destruct (window_pop _ _ _ _ Uw) as [Hring _].
    kpure. rewrite Hring. kpure. rewrite <- Hri, (ro_status _ _ _ _ _ Hok) by set_solver. simpl. kpure.
    rewrite (co_b _ _ _ (ro_chain _ _ _ _ _ Hok)). kpure.
    destruct (wakeup_wakes (ChanBuf (th_b th)) (set_fs (fs_upd_buf (th_b th) (set_b_disk 0) (k_fs k)) k)) as (ps' & Hw & Hwk); [done|].
    erewrite bind_eq by exact Hw. cbv beta. kpure.
    destruct (IH U (i :: P) (intr_done (th_b th) ps' k)) as (k' & P' & Hrun & I' & Hh).
    + by apply (vinv_intr C A i U P T k r th).
    + done.
    + intros p Hp. apply Hcur. simpl in Hp. destruct Hwk as [[(Hc & _) _] _]. simpl in Hc. congruence.
    + simpl in Hn. lia.
    + exists k', P'. split; [|by rewrite Hh]. exact Hrun.
Qed.

Lemma vinv_held C A U P T k l : vinv C A U P T k -> vinv C A U P T (set_held l k).
Proof. intros I. apply (vinv_frame _ _ _ _ _ _ _ I). split; try done. apply v_agree_refl. Qed.

Lemma vinv_on C A U P T k c : vinv C A U P T k -> vinv C A U P T (on c k).
Proof. intros I. apply (vinv_frame _ _ _ _ _ _ _ I). split; try done. apply v_agree_refl. Qed.

Lemma intr_spec C A U P T k :
  vinv C A U P T k -> k_held k = [] -> (forall p, ps_cur (k_ps k) = Some p -> T p = None) ->
  exists k' P', virtio_disk_intr k = Ret () k' /\ vinv C A [] P' T k' /\ k_held k' = [].
Proof.
  intros I Hh Hcur. unfold virtio_disk_intr.
  erewrite bind_eq by (apply acquire_eq; rewrite Hh; apply not_elem_of_nil). cbv beta. rewrite Hh. kpure.
  edestruct (intr_loop_spec (Z.to_nat (2 ^ 16)) C A U P T) as (k' & P' & Hrun & I' & Hh');
    [apply vinv_raise, vinv_held, I| | | |erewrite bind_eq by exact Hrun].
  - intros i. simpl. set_solver.
  - done.
  - pose proof (stages_length _ _ _ _ _ _ I). unfold NUM in *. lia.
  - exists (set_held [] k'), P'. split; [|split; [by apply vinv_held|done]].
    apply release_eq; [rewrite Hh'; done|apply not_elem_of_nil].
Qed.
