(* ===== verification/VirtioSteps.v ===== *)
(** * The disk driver at work: the driver's code keeps the invariant

    The pieces of [virtio_disk_rw] between its calls of [sleep]: allocating
    the descriptors, handing the request to the device, waiting for it, and
    freeing the descriptors. *)

From S2P Require Import Prelude Riscv Monad State Kstring Printf Kalloc Vm Proc ProcInv Umem Sleeplock Bio BioInv Virtio VirtioInv.
#[local] Open Scope Z_scope.

#[local] Opaque acquire release wakeup.

(** ** Descriptors *)

Lemma set_vd_id k : set_vd (vd k) k = k.
Proof. destruct k as [? ? ? ? ? []]. done. Qed.

Lemma alloc_desc_loop_spec n i k :
  (exists j, i <= j < i + Z.of_nat n /\ v_free (vd k) j <> 0 /\ alloc_desc_loop n i k = Ret j (set_vd (set_v_free j 0 (vd k)) k)) \/
  ((forall j, i <= j < i + Z.of_nat n -> v_free (vd k) j = 0) /\ alloc_desc_loop n i k = Ret (-1) k).
Proof.
  revert i. induction n as [|n IH]; intros i; [right; split; [lia|done]|]. cbn [alloc_desc_loop]. kpure. unfold truthy.
  destruct (Z.eqb_spec (v_free (vd k) i) 0) as [E|E]; cbn [negb].
  - destruct (IH (i + 1)) as [(j & Hj & Hf & Hrun)|[Hz Hrun]]; [left|right].
    + exists j. split; [lia|done].
    + split; [|done]. intros j Hj. destruct (decide (j = i)) as [->|]; [done|]. apply Hz. lia.
  - left. exists i. split; [lia|]. split; [done|]. by kpure.
Qed.

Lemma alloc_desc_spec k :
  (exists j, 0 <= j < NUM /\ v_free (vd k) j <> 0 /\ alloc_desc k = Ret j (set_vd (set_v_free j 0 (vd k)) k)) \/
  ((forall j, 0 <= j < NUM -> v_free (vd k) j = 0) /\ alloc_desc k = Ret (-1) k).
Proof. apply (alloc_desc_loop_spec (Z.to_nat NUM) 0 k). Qed.

Definition freed (i : Z) (v : vdisk) : vdisk := set_v_free i 1 (set_v_desc i virtq_desc0 v).

Lemma free_desc_spec i k :
  i < NUM -> v_free (vd k) i = 0 -> no_proc_lock k ->
  exists ps', free_desc i k = Ret () (set_ps ps' (set_vd (freed i (vd k)) k)) /\ woke ChanDiskFree (k_ps k) ps'.
Proof.
  intros Hi Hf Hlk. unfold free_desc. rewrite (proj2 (Z.leb_gt _ _)) by done. kpure. rewrite Hf. simpl. kpure. kpure.
  destruct (wakeup_wakes ChanDiskFree (set_vd (freed i (vd k)) k)) as (ps' & Hw & Hwk); [done|]. exists ps'. by split.
Qed.

Definition taken (idx : list Z) (v : vdisk) : vdisk := foldl (fun v i => set_v_free i 0 v) v idx.
Definition freed_all (idx : list Z) (v : vdisk) : vdisk := foldl (fun v i => freed i v) v idx.

Lemma with_df_id v : with_df (v_desc v) (v_free v) v = v.
Proof. by destruct v. Qed.

Lemma taken_df idx v : taken idx v = with_df (v_desc v) (v_free (taken idx v)) v.
Proof.
  revert v. induction idx as [|i idx IH]; intros v; [by rewrite with_df_id|]. simpl. rewrite IH at 1. done.
Qed.

Lemma taken_free idx v i : v_free (taken idx v) i = if decide (i ∈ idx) then 0 else v_free v i.
Proof.
  revert v. induction idx as [|j idx IH]; intros v; [by rewrite decide_False by set_solver|]. simpl. rewrite IH.
  destruct (decide (i ∈ idx)); [by rewrite decide_True by set_solver|]. simpl.
  destruct (decide (i = j)) as [->|Hne]; [by rewrite fn_lookup_insert, decide_True by set_solver|].
  by rewrite fn_lookup_insert_ne, decide_False by set_solver.
Qed.

Lemma freed_all_df idx v : freed_all idx v = with_df (v_desc (freed_all idx v)) (v_free (freed_all idx v)) v.
Proof.
  revert v. induction idx as [|i idx IH]; intros v; [by rewrite with_df_id|]. simpl. rewrite IH at 1. done.
Qed.

Lemma freed_all_free idx v i : v_free (freed_all idx v) i = if decide (i ∈ idx) then 1 else v_free v i.
Proof.
  revert v. induction idx as [|j idx IH]; intros v; [by rewrite decide_False by set_solver|]. simpl. rewrite IH.
  destruct (decide (i ∈ idx)); [by rewrite decide_True by set_solver|]. simpl.
  destruct (decide (i = j)) as [->|Hne]; [by rewrite fn_lookup_insert, decide_True by set_solver|].
  by rewrite fn_lookup_insert_ne, decide_False by set_solver.
Qed.

Lemma freed_all_desc idx v i : i ∉ idx -> v_desc (freed_all idx v) i = v_desc v i.
Proof.
  revert v. induction idx as [|j idx IH]; intros v Hi; [done|]. simpl. rewrite IH by set_solver. simpl.
  by rewrite fn_lookup_insert_ne by set_solver.
Qed.

Lemma free_each_spec idx k :
  NoDup idx -> (forall i, i ∈ idx -> i < NUM /\ v_free (vd k) i = 0) -> no_proc_lock k ->
  exists ps', free_each idx k = Ret () (set_ps ps' (set_vd (freed_all idx (vd k)) k)) /\ ps_woke (k_ps k) ps'.
Proof.
  revert k. induction idx as [|i idx IH]; intros k Hnd Hf Hlk.
  { exists (k_ps k). simpl. by rewrite set_vd_id. }
  apply NoDup_cons in Hnd as [Hi Hnd].
  destruct (free_desc_spec i k) as (ps1 & H1 & [W1 _]); [by apply Hf, list_elem_of_here|by apply Hf, list_elem_of_here|done|].
  cbn [free_each]. erewrite bind_eq by exact H1. cbv beta.
  destruct (IH (set_ps ps1 (set_vd (freed i (vd k)) k)) Hnd) as (ps2 & H2 & W2); [|done|].
  - intros j Hj. split; [by apply Hf, list_elem_of_further|]. simpl. rewrite fn_lookup_insert_ne by congruence.
    by apply Hf, list_elem_of_further.
  - exists ps2. rewrite H2. split; [done|]. by etrans.
Qed.

Lemma missing_index (idx : list Z) : (length idx < 8)%nat -> exists l, 0 <= l < NUM /\ l ∉ idx.
Proof.
  intros Hl. destruct (decide (Forall (fun l => l ∈ idx) (seqZ 0 NUM))) as [Hall|Hno].
  - exfalso. rewrite Forall_forall in Hall.
    pose proof (submseteq_length _ _ (NoDup_submseteq _ _ (NoDup_seqZ 0 NUM) Hall)). rewrite length_seqZ in *. unfold NUM in *. lia.
  - apply not_Forall_Exists, Exists_exists in Hno as (l & Hin & Hno); [|apply _]. apply elem_of_seqZ in Hin. exists l. split; [lia|done].
Qed.

(** [alloc3_desc] takes three free descriptors, or leaves the free ones free
    when not every descriptor is. *)
Lemma alloc3_loop_spec n idx k v :
  vd k = taken idx v -> NoDup idx -> (forall i, i ∈ idx -> 0 <= i < NUM /\ v_free v i = 1) ->
  (forall i, 0 <= i < NUM -> v_free v i = 0 \/ v_free v i = 1) -> no_proc_lock k -> (length idx + n <= 3)%nat ->
  (exists idx', alloc3_loop n idx k = Ret (0, idx') (set_vd (taken idx' v) k) /\ NoDup idx' /\ length idx' = (length idx + n)%nat /\
     forall i, i ∈ idx' -> 0 <= i < NUM /\ v_free v i = 1) \/
  (exists ix v' ps', alloc3_loop n idx k = Ret (-1, ix) (set_ps ps' (set_vd v' k)) /\ ps_woke (k_ps k) ps' /\ v_agree v v' /\
     exists l, 0 <= l < NUM /\ v_free v l = 0).
Proof.
  revert idx k. induction n as [|n IH]; intros idx k Hv Hnd Hix Hbin Hlk Hlen.
  { left. exists idx. rewrite <- Hv, set_vd_id. split; [done|]. split; [done|]. split; [lia|done]. }
  cbn [alloc3_loop]. destruct (alloc_desc_spec k) as [(j & Hj & Hf & Hrun)|[Hz Hrun]]; erewrite bind_eq by exact Hrun; cbv beta.
  - rewrite (proj2 (Z.ltb_ge _ _)) by lia. rewrite Hv, taken_free in Hf.
    destruct (decide (j ∈ idx)) as [|Hji]; [done|]. destruct (Hbin j Hj) as [|Hj1]; [done|].
    destruct (IH (idx ++ [j]) (set_vd (set_v_free j 0 (vd k)) k)) as [(ix & H1 & H2 & H3 & H4)|(ix & v' & ps' & H1 & H2)].
    + simpl. rewrite Hv. unfold taken. by rewrite foldl_app.
    + apply NoDup_app. split; [done|]. split; [set_solver|]. apply NoDup_singleton.
    + intros i [Hi| ->%list_elem_of_singleton]%elem_of_app; [by apply Hix|done].
    + done.
    + done.
    + rewrite length_app. simpl. lia.
    + left. exists ix. rewrite H1. split; [done|]. split; [done|]. split; [|done]. rewrite H3, length_app. simpl. lia.
    + right. exists ix, v', ps'. by rewrite H1.
  - right. change (-1 <? 0) with true. cbv iota.
    destruct (free_each_spec idx k Hnd) as (ps' & Hfr & Hwk); [|done|].
    { intros i Hi. split; [by apply Hix|]. by rewrite Hv, taken_free, decide_True. }
    erewrite bind_eq by exact Hfr. cbv beta. eexists _, _, ps'. split; [reflexivity|]. split; [done|]. split.
    + rewrite Hv. split.
      * rewrite freed_all_df at 1. by rewrite (taken_df idx v).
      * intros i Hi. rewrite freed_all_free, taken_free. destruct (decide (i ∈ idx)); [|done]. symmetry. by apply Hix.
      * intros i Hi H0. rewrite freed_all_desc; [by rewrite (taken_df idx v)|]. intros Hin. destruct (Hix i Hin) as [_ E]. congruence.
    + destruct (missing_index idx) as (l & Hl & Hni); [lia|]. exists l. split; [done|].
      specialize (Hz l Hl). by rewrite Hv, taken_free, decide_False in Hz by done.
Qed.

Lemma alloc3_desc_spec k :
  (forall i, 0 <= i < NUM -> v_free (vd k) i = 0 \/ v_free (vd k) i = 1) -> no_proc_lock k ->
  (exists i0 i1 i2, alloc3_desc k = Ret (0, [i0; i1; i2]) (set_vd (taken [i0; i1; i2] (vd k)) k) /\ NoDup [i0; i1; i2] /\
     forall i, i ∈ [i0; i1; i2] -> 0 <= i < NUM /\ v_free (vd k) i = 1) \/
  (exists ix v' ps', alloc3_desc k = Ret (-1, ix) (set_ps ps' (set_vd v' k)) /\ ps_woke (k_ps k) ps' /\ v_agree (vd k) v' /\
     exists l, 0 <= l < NUM /\ v_free (vd k) l = 0).
Proof.
  intros Hbin Hlk. destruct (alloc3_loop_spec 3 [] k (vd k)) as [(ix & H1 & H2 & H3 & H4)|Hf]; try done.
  - constructor.
  - intros i Hi. by apply not_elem_of_nil in Hi.
  - left. destruct ix as [|i0 [|i1 [|i2 [|]]]]; try done. eauto 10.
  - by right.
Qed.

(** ** A request is handed to the device *)

Definition flagged (b x : Z) (k : kernel) : kernel := set_fs (fs_upd_buf b (set_b_disk x) (k_fs k)) k.

Lemma flagged_buf b x k b' :
  fs_buf (k_fs (flagged b x k)) b' = if decide (b' = b) then set_b_disk x (fs_buf (k_fs k) b) else fs_buf (k_fs k) b'.
Proof. simpl. case_decide as E; [subst; by rewrite fn_lookup_insert|by rewrite fn_lookup_insert_ne]. Qed.

Lemma flagged_block b x k b' : blockno (flagged b x k) b' = blockno k b' /\ bdata (flagged b x k) b' = bdata k b'.
Proof. unfold blockno, bdata. rewrite flagged_buf. by case_decide; subst. Qed.

Lemma thr_ok_flagged p th b x k : thr_ok p th k -> thr_ok p th (flagged b x k).
Proof.
  intros [t1 t2 t3 t4]. destruct (flagged_block b x k (th_b th)) as [E1 E2]. split; [done|done|by rewrite E1|].
  rewrite <- t4. unfold payload. by rewrite E1, E2.
Qed.

Definition submitted (b : Z) (w : bool) (sector : Z) (i0 i1 i2 : Z) (v : vdisk) : vdisk :=
  let v := set_v_ops i0 (mkvirtio_blk_req (if w then 1 else 0) 0 sector) v in
  let v := set_v_desc i0 (mkvirtq_desc (DmaOp i0) 16 1 i1) v in
  let v := set_v_desc i1 (mkvirtq_desc (DmaData b) BSIZE (if w then 1 else 3) i2) v in
  let v := set_v_desc i2 (mkvirtq_desc (DmaStatus i0) 1 2 0) (set_v_info_status i0 0xff v) in
  let v := set_v_avail_ring (v_avail_idx v mod NUM) i0 (set_v_info_b i0 (Some b) v) in
  let v := set_v_avail_idx (u16 (v_avail_idx v + 1)) v in
  set_v_regs (v_regs v ++ [(VIRTIO_MMIO_QUEUE_NOTIFY, 0)]) v.

Lemma rw_submit_eq b w sector i0 i1 i2 k :
  rw_submit b w sector [i0; i1; i2] k = Ret () (set_vd (submitted b w sector i0 i1 i2 (vd k)) (flagged b 1 k)).
Proof. by destruct w. Qed.

Lemma in_use_cons r C : in_use (r :: C) = r_descs r ++ in_use C.
Proof. done. Qed.

Lemma not_in_use C A U P T k i : vinv C A U P T k -> 0 <= i < NUM -> v_free (vd k) i = 1 -> i ∉ in_use C.
Proof. intros I Hi Hf Hin. rewrite (vi_free _ _ _ _ _ _ I i Hi), decide_True in Hf; done. Qed.

Lemma submitted_desc b w sector i0 i1 i2 v i :
  i0 <> i1 -> i0 <> i2 -> i1 <> i2 ->
  v_desc (submitted b w sector i0 i1 i2 v) i =
    if decide (i = i0) then mkvirtq_desc (DmaOp i0) 16 1 i1
    else if decide (i = i1) then mkvirtq_desc (DmaData b) BSIZE (if w then 1 else 3) i2
    else if decide (i = i2) then mkvirtq_desc (DmaStatus i0) 1 2 0 else v_desc v i.
Proof.
  intros H1 H2 H3. unfold submitted. simpl.
  repeat case_decide; subst; repeat (rewrite fn_lookup_insert_ne by congruence); by rewrite ?fn_lookup_insert.
Qed.

Lemma req_ok_submitted U P th r k b w sector i0 i1 i2 f :
  req_ok U P th r k -> i0 <> i1 -> i0 <> i2 -> i1 <> i2 -> (forall i, i ∈ r_descs r -> i ∉ [i0; i1; i2]) -> th_b th <> b ->
  req_ok U P th r (set_vd (submitted b w sector i0 i1 i2 (with_df (v_desc (vd k)) f (vd k))) (flagged b 1 k)).
Proof.
  intros Hok H1 H2 H3 Hd Hb. assert (r_i0 r <> i0) as Hne by (specialize (Hd (r_i0 r)); set_solver).
  assert (req_ok U P th r (flagged b 1 k)) as Hok'.
  { apply req_ok_fs; [done| |done]. pose proof (flagged_buf b 1 k (th_b th)) as E. by rewrite decide_False in E. }
  apply (req_ok_vd U); [done|..].
  - intros i Hi. rewrite submitted_desc by done. specialize (Hd i Hi). rewrite !decide_False by set_solver. done.
  - simpl. by rewrite fn_lookup_insert_ne.
  - simpl. by rewrite fn_lookup_insert_ne.
  - intros Hi. split; [done|]. simpl. by rewrite fn_lookup_insert_ne.
Qed.

Lemma req_ok_new U P th p k i0 i1 i2 f :
  i0 <> i1 -> i0 <> i2 -> i1 <> i2 -> i0 ∉ U ++ P -> p_state (ps_proc (k_ps k) p) <> SLEEPING ->
  req_ok U P th (mkreq p i0 i1 i2)
    (set_vd (submitted (th_b th) (th_w th) (2 * blockno k (th_b th)) i0 i1 i2 (with_df (v_desc (vd k)) f (vd k))) (flagged (th_b th) 1 k)).
Proof.
  intros H1 H2 H3 Hi Hs. split.
  - split; simpl r_i0; simpl r_i1; simpl r_i2.
    + change (vd (set_vd ?v ?k)) with v. by rewrite submitted_desc, decide_True.
    + change (vd (set_vd ?v ?k)) with v. by rewrite submitted_desc, decide_False, decide_True by done.
    + change (vd (set_vd ?v ?k)) with v. by rewrite submitted_desc, !decide_False, decide_True by done.
    + pose proof (flagged_block (th_b th) 1 k (th_b th)) as [E _]. change (blockno (set_vd ?v ?k)) with (blockno k). rewrite E.
      simpl. by rewrite fn_lookup_insert.
    + simpl. by rewrite fn_lookup_insert.
  - change (k_fs (set_vd ?v ?k)) with (k_fs k). rewrite flagged_buf, decide_True by done. rewrite decide_False; [done|set_solver].
  - simpl. done.
  - simpl. set_solver.
  - simpl. done.
Qed.

Lemma vinv_submit C A U P T k p th i0 i1 i2 :
  vinv C A U P T k -> T p = Some th -> p ∉ map r_p C -> p_state (ps_proc (k_ps k) p) <> SLEEPING ->
  NoDup [i0; i1; i2] -> (forall i, i ∈ [i0; i1; i2] -> 0 <= i < NUM /\ v_free (vd k) i = 1) ->
  vinv (mkreq p i0 i1 i2 :: C) (A ++ [i0]) U P T
    (set_vd (submitted (th_b th) (th_w th) (2 * blockno k (th_b th)) i0 i1 i2 (taken [i0; i1; i2] (vd k))) (flagged (th_b th) 1 k)).
Proof.
  intros I HT Hp Hs Hnd Hfr.
  assert (forall i, i ∈ [i0; i1; i2] -> i ∉ in_use C) as Hnu.
  { intros i Hi. destruct (Hfr i Hi). by apply (not_in_use C A U P T k). }
  assert (i0 <> i1 /\ i0 <> i2 /\ i1 <> i2) as (H1 & H2 & H3).
  { apply NoDup_cons in Hnd as [N1 [N2 _]%NoDup_cons]. set_solver. }
  assert (i0 ∉ A ++ v_busy (vd k) ++ U ++ P) as Hst.
  { rewrite <- (vi_perm _ _ _ _ _ _ I). intros Hin%heads_in_use. apply (Hnu i0); [apply list_elem_of_here|done]. }
  assert (Z.of_nat (length A) < NUM) as HlA.
  { pose proof (NoDup_range_length (i0 :: heads C)) as HL. rewrite (vi_perm _ _ _ _ _ _ I) in HL. simpl in HL. rewrite length_app in HL.
    enough (Z.of_nat (S (length A + length (v_busy (vd k) ++ U ++ P))) <= NUM) by lia. apply HL.
    - constructor; [done|]. apply (stages_nodup _ _ _ _ _ _ I).
    - intros i [-> |Hi]%elem_of_cons; [by apply Hfr, list_elem_of_here|]. by apply (vi_range _ _ _ _ _ _ I), heads_in_use. }
  destruct I as [N R F Pm (Aw & Ai & Ar) Us Np Rq Th Wt Sp]. rewrite taken_df. split; try done.
  - rewrite in_use_cons. apply NoDup_app. split; [done|]. split; [exact Hnu|done].
  - intros i. rewrite in_use_cons. intros [Hi|Hi]%elem_of_app; [by apply Hfr|auto].
  - intros i Hi. rewrite in_use_cons.
    change (v_free (taken [i0; i1; i2] (vd k)) i = if decide (i ∈ [i0; i1; i2] ++ in_use C) then 0 else 1).
    rewrite taken_free, (F i Hi). destruct (decide (i ∈ [i0; i1; i2])), (decide (i ∈ in_use C));
      first [by rewrite decide_True by (apply elem_of_app; auto) | by rewrite decide_False by (rewrite elem_of_app; tauto)].
  - simpl. rewrite Pm. rewrite <- app_assoc. simpl. by rewrite <- Permutation_middle.
  - simpl. split; [|split; [|done]].
    + apply window_push; [done..|]. by rewrite Ai, u16_mod_NUM.
    + rewrite Ai, u16_add_l, length_app. f_equal. simpl. lia.
  - simpl. constructor; done.
  - intros r [-> |Hr]%elem_of_cons.
    + exists th. split; [done|]. apply req_ok_new; try done. set_solver.
    + destruct (Rq r Hr) as (th' & HT' & Hok). exists th'. split; [done|]. apply req_ok_submitted; try done.
      * intros i Hi Hin. by apply (Hnu i Hin), (elem_in_use C r).
      * destruct (Sp p (r_p r) th th' HT HT') as [N1 _]; [|congruence].
        intros ->. apply Hp. by apply (list_elem_of_fmap_2 r_p).
  - intros q th' HT'. apply (thr_ok_fs _ _ (flagged (th_b th) 1 k)); [|done]. apply thr_ok_flagged. auto.
  - intros q th' HT' Hq Hsl. simpl in Hq. split; [|done]. apply (Wt q th' HT'); [set_solver|done].
  - intros q q' th1 th2 Hq Hq' Hne. change (blockno (set_vd ?v ?k)) with (blockno k). rewrite !(proj1 (flagged_block _ _ _ _)). eauto.
Qed.

(** ** A request is done *)

Lemma woke_trans c ps1 ps2 ps3 : ps_woke ps1 ps2 -> woke c ps2 ps3 -> woke c ps1 ps3.
Proof.
  intros W1 [W2 Aw]. split; [by etrans|]. intros q Hq Hc. apply Aw; [done|]. by destruct W1 as [(-> & _) _].
Qed.

(** One round of [free_chain]. *)
Lemma free_chain_round n i k ps d :
  v_desc (vd k) i = d -> free_desc i k = Ret () (set_ps ps (set_vd (freed i (vd k)) k)) ->
  free_chain_loop (S n) i k =
  (if truthy (Z.land (d_flags d) VRING_DESC_F_NEXT) then free_chain_loop n (d_next d) else mret ())
    (set_ps ps (set_vd (freed i (vd k)) k)).
Proof. intros Hd Hf. cbn [free_chain_loop]. kpure. kpure. rewrite Hd. by erewrite bind_eq by exact Hf. Qed.

Lemma free_chain_frees th r k :
  v_desc (vd k) (r_i0 r) = mkvirtq_desc (DmaOp (r_i0 r)) 16 1 (r_i1 r) ->
  v_desc (vd k) (r_i1 r) = mkvirtq_desc (DmaData (th_b th)) BSIZE (if th_w th then 1 else 3) (r_i2 r) ->
  v_desc (vd k) (r_i2 r) = mkvirtq_desc (DmaStatus (r_i0 r)) 1 2 0 -> NoDup (r_descs r) ->
  (forall i, i ∈ r_descs r -> i < NUM /\ v_free (vd k) i = 0) -> no_proc_lock k ->
  exists ps', free_chain (r_i0 r) k = Ret () (set_ps ps' (set_vd (freed_all (r_descs r) (vd k)) k)) /\ woke ChanDiskFree (k_ps k) ps'.
Proof.
  intros d0 d1 d2 Hnd Hf Hlk. unfold free_chain.
  assert (r_i0 r <> r_i1 r /\ r_i0 r <> r_i2 r /\ r_i1 r <> r_i2 r) as (H1 & H2 & H3).
  { apply NoDup_cons in Hnd as [N1 [N2 _]%NoDup_cons]. split_and!; intros E; rewrite E in *; set_solver. }
  destruct (free_desc_spec (r_i0 r) k) as (ps1 & R1 & W1); [apply Hf; set_solver..|done|].
  destruct (free_desc_spec (r_i1 r) (set_ps ps1 (set_vd (freed (r_i0 r) (vd k)) k))) as (ps2 & R2 & W2);
    [apply Hf; set_solver|simpl; rewrite fn_lookup_insert_ne by done; apply Hf; set_solver|done|].
  destruct (free_desc_spec (r_i2 r) (set_ps ps2 (set_vd (freed (r_i1 r) (freed (r_i0 r) (vd k))) k))) as (ps3 & R3 & W3);
    [apply Hf; set_solver|simpl; rewrite !fn_lookup_insert_ne by done; apply Hf; set_solver|done|].
  exists ps3. split; [|eapply woke_trans; [|exact W3]; etrans; [apply W1|apply W2]].
  change (S (Z.to_nat NUM)) with 9%nat. rewrite (free_chain_round _ _ _ _ _ d0 R1).
  change (truthy (Z.land _ VRING_DESC_F_NEXT)) with true. cbv iota. cbn [d_next].
  erewrite free_chain_round; [|simpl; rewrite fn_lookup_insert_ne by done; exact d1|exact R2]. cbn [d_flags d_next].
  replace (truthy (Z.land (if th_w th then 1 else 3) VRING_DESC_F_NEXT)) with true by (by destruct (th_w th)). cbv iota.
  erewrite free_chain_round; [|simpl; rewrite !fn_lookup_insert_ne by done; exact d2|exact R3]. done.
Qed.

Definition finished (r : req) (v : vdisk) : vdisk := freed_all (r_descs r) (set_v_info_b (r_i0 r) None v).

Lemma rw_finish_spec th r k :
  chain_ok th r k -> NoDup (r_descs r) -> (forall i, i ∈ r_descs r -> i < NUM /\ v_free (vd k) i = 0) -> k_held k = [DiskLock] ->
  exists ps', rw_finish (r_descs r) k = Ret () (set_held [] (set_ps ps' (set_vd (finished r (vd k)) k))) /\
    woke ChanDiskFree (k_ps k) ps'.
Proof.
  intros [d0 d1 d2 _ _] Hnd Hf Hh. unfold rw_finish. kpure. cbn [nth r_descs].
  destruct (free_chain_frees th r (set_vd (set_v_info_b (r_i0 r) None (vd k)) k) d0 d1 d2 Hnd Hf) as (ps' & Hrun & Hw).
  { intros i. simpl. rewrite Hh. set_solver. }
  erewrite bind_eq by exact Hrun. exists ps'. split; [|done]. apply release_eq; [done|apply not_elem_of_nil].
Qed.

Lemma req_ok_sleep U P P' th r k k' :
  req_ok U P th r k -> vd k' = vd k -> k_fs k' = k_fs k -> (r_i0 r ∈ P' <-> r_i0 r ∈ P) ->
  (p_state (ps_proc (k_ps k') (r_p r)) = SLEEPING ->
    p_state (ps_proc (k_ps k) (r_p r)) = SLEEPING /\ p_chan (ps_proc (k_ps k') (r_p r)) = p_chan (ps_proc (k_ps k) (r_p r))) ->
  req_ok U P' th r k'.
Proof.
  intros [[d0 d1 d2 op ib] Hd Hm Hs Hz] Ev Ef EP Hsl. unfold moved, bdata, blockno in *. split.
  - split; unfold blockno; by rewrite ?Ev, ?Ef.
  - rewrite Ef, Hd. destruct (decide (r_i0 r ∈ P)); [rewrite decide_True|rewrite decide_False]; tauto.
  - unfold moved, bdata, blockno. rewrite Ef. intros Hi. apply Hm. rewrite !elem_of_app in *. tauto.
  - by rewrite Ev.
  - intros Hz'. destruct (Hsl Hz') as [S1 S2]. rewrite S2. destruct (Hz S1). tauto.
Qed.

Lemma finished_df r v : finished r v = with_df (v_desc (finished r v)) (v_free (finished r v)) (set_v_info_b (r_i0 r) None v).
Proof. apply freed_all_df. Qed.

Lemma finished_free r v i : v_free (finished r v) i = if decide (i ∈ r_descs r) then 1 else v_free v i.
Proof. unfold finished. by rewrite freed_all_free. Qed.

Lemma vinv_finish C A U P T k r th ps' :
  vinv C A U P T k -> r ∈ C -> r_i0 r ∈ P -> T (r_p r) = Some th -> ps_cur (k_ps k) = Some (r_p r) ->
  woke ChanDiskFree (k_ps k) ps' ->
  exists C' P', C ≡ₚ r :: C' /\ vinv C' A U P' (<[r_p r := None]> T) (set_ps ps' (set_vd (finished r (vd k)) k)).
Proof.
  intros I Hr HP HT Hc [Wk Aw]. pose proof (stages_nodup _ _ _ _ _ _ I) as Hst.
  apply elem_of_Permutation in Hr as [C' HC]. apply elem_of_Permutation in HP as [P' HP].
  assert (in_use C ≡ₚ r_descs r ++ in_use C') as Hu by (unfold in_use; by rewrite HC).
  destruct I as [N R F Pm Av Us Np Rq Th Wt Sp]. rewrite Hu in N. apply NoDup_app in N as (Nr & Nd & N').
  assert (map r_p C ≡ₚ r_p r :: map r_p C') as Hp by (by rewrite HC). rewrite Hp in Np. apply NoDup_cons in Np as [Npr Np'].
  assert (r_i0 r ∉ P') as Hi0.
  { intros Hin. rewrite HP in Hst. rewrite !app_assoc in Hst. apply NoDup_app in Hst as (_ & _ & [Hst _]%NoDup_cons). done. }
  exists C', P'. split; [done|]. split; try done.
  - intros i Hi. apply R. rewrite Hu. apply elem_of_app. by right.
  - intros i Hi. change (vd (set_ps ps' (set_vd (finished r (vd k)) k))) with (finished r (vd k)).
    rewrite finished_free, (F i Hi).
    destruct (decide (i ∈ r_descs r)) as [Hd|Hd]; [rewrite decide_False; [done|]; by apply Nd|].
    destruct (decide (i ∈ in_use C')); [rewrite decide_True; [done|]|rewrite decide_False; [done|]]; rewrite Hu, elem_of_app; tauto.
  - change (vd (set_ps ps' (set_vd (finished r (vd k)) k))) with (finished r (vd k)). rewrite finished_df. simpl.
    apply (Permutation_cons_inv (a := r_i0 r)).
    transitivity (heads C); [unfold heads; by rewrite HC|]. rewrite Pm, HP. by rewrite !app_assoc, <- Permutation_middle.
  - intros r' Hr'. assert (r' ∈ C) as HrC by (rewrite HC; set_solver). destruct (Rq r' HrC) as (th' & HT' & Hok).
    assert (r_p r' <> r_p r) as Hne by (intros E; apply Npr; rewrite <- E; by apply (list_elem_of_fmap_2 r_p)).
    assert (forall i, i ∈ r_descs r' -> i ∉ r_descs r) as Hdd.
    { intros i Hi Hi'. apply (Nd i Hi'). by apply (elem_in_use C' r'). }
    assert (r_i0 r' <> r_i0 r) as Hne0 by (intros E; apply (Hdd (r_i0 r')); [|rewrite E]; apply list_elem_of_here).
    exists th'. split; [by rewrite fn_lookup_insert_ne|].
    apply (req_ok_sleep U P P' th' r' (set_vd (finished r (vd k)) k)); try done.
    + apply (req_ok_vd U); [done|..].
      * intros i Hi. unfold finished. by rewrite freed_all_desc by auto.
      * by rewrite finished_df.
      * rewrite finished_df. simpl. by rewrite fn_lookup_insert_ne.
      * intros Hi. split; [done|]. by rewrite finished_df.
    + rewrite HP, elem_of_cons. tauto.
    + intros Hs. apply (ps_woke_sleeping _ _ _ Wk Hs).
  - intros q th' HT'. apply (thr_ok_fs _ _ k); [|done]. apply Th. destruct (decide (q = r_p r)) as [-> |Hq];
      [by rewrite fn_lookup_insert in HT'|by rewrite fn_lookup_insert_ne in HT'].
  - intros q th' HT' Hq Hs. destruct (decide (q = r_p r)) as [-> |Hne]; [by rewrite fn_lookup_insert in HT'|].
    rewrite fn_lookup_insert_ne in HT' by done. destruct (ps_woke_sleeping _ _ _ Wk Hs) as [S1 S2]. exfalso.
    apply (Aw q); [by apply (Th q th')|congruence|done|]. simpl in S2. rewrite S2. apply (Wt q th' HT'); [|done].
    rewrite Hp. set_solver.
  - intros q q' th1 th2 Hq Hq' Hne. destruct (decide (q = r_p r)) as [-> |]; [by rewrite fn_lookup_insert in Hq|].
    destruct (decide (q' = r_p r)) as [-> |]; [by rewrite fn_lookup_insert in Hq'|]. rewrite fn_lookup_insert_ne in Hq, Hq' by done.
    apply (Sp q q'); done.
Qed.

Lemma request_descs C A U P T k r :
  vinv C A U P T k -> r ∈ C -> NoDup (r_descs r) /\ forall i, i ∈ r_descs r -> i < NUM /\ v_free (vd k) i = 0.
Proof.
  intros I Hr. split.
  - apply elem_of_Permutation in Hr as [C' HC]. pose proof (vi_nodup _ _ _ _ _ _ I) as N. unfold in_use in N. rewrite HC in N.
    by apply NoDup_app in N as [? _].
  - intros i Hi. pose proof (elem_in_use C r i Hr Hi) as Hu. pose proof (vi_range _ _ _ _ _ _ I i Hu).
    split; [lia|]. by rewrite (vi_free _ _ _ _ _ _ I i), decide_True.
Qed.
