(* ===== verification/VirtioProps.v ===== *)
(** * The disk driver serves its callers

    Every reachable state of the machine of [VirtioInv] satisfies the
    invariant, with each suspended process in one of the two loops of
    [virtio_disk_rw] that sleep. *)

From S2P Require Import Prelude Riscv Monad State Kstring Printf Kalloc Vm Proc ProcInv Umem Sleeplock Bio BioInv Virtio VirtioInv VirtioSteps.
#[local] Open Scope Z_scope.

#[local] Opaque acquire release wakeup.

(** ** Sleeping and waking up *)

Lemma asleep_proc_at p c k q :
  ps_proc (k_ps (switch_out (asleep p c k))) q =
  if decide (q = p) then set_state SLEEPING (set_chan c (ps_proc (k_ps k) p)) else ps_proc (k_ps k) q.
Proof.
  change (ps_proc (ps_upd p (set_state SLEEPING) (ps_upd p (set_chan c) (k_ps k))) q =
    if decide (q = p) then set_state SLEEPING (set_chan c (ps_proc (k_ps k) p)) else ps_proc (k_ps k) q).
  case_decide as E; [subst; by rewrite !ps_proc_upd_eq|by rewrite !ps_proc_upd_ne].
Qed.

(** The process goes to sleep waiting for its request, or for descriptors. *)
Lemma vinv_asleep C A U P T k p c th :
  vinv C A U P T k -> T p = Some th ->
  (forall r, r ∈ C -> r_p r = p -> c = ChanBuf (th_b th) /\ r_i0 r ∉ P) ->
  (p ∉ map r_p C -> c = ChanDiskFree /\ C <> []) ->
  vinv C A U P T (switch_out (asleep p c k)).
Proof.
  intros [N R F Pm Av Us Np Rq Th Wt Sp] HT Hc1 Hc2. split; try done.
  - intros r Hr. destruct (Rq r Hr) as (th' & HT' & [[d0 d1 d2 op ib] Hd Hm Hs Hz]). exists th'. split; [done|].
    split; try done. rewrite asleep_proc_at. destruct (decide (r_p r = p)) as [E|E]; [|exact Hz].
    intros _. destruct (Hc1 r Hr E) as [-> ?]. split; [|done]. simpl. congruence.
  - intros q th' HT'. by apply (thr_ok_fs _ _ k); [apply Th|].
  - intros q th' HT' Hq. rewrite asleep_proc_at. case_decide as E; [|by apply (Wt q th')]. subst q. intros _. by apply Hc2.
Qed.

Lemma vinv_wakes C A U P T k p : vinv C A U P T k -> vinv C A U P T (resumed p DiskLock (switch_in p k)).
Proof.
  intros I. apply (vinv_frame _ _ _ _ _ _ _ I). split; try done; [apply v_agree_refl|].
  intros q th _. change (k_ps (resumed p DiskLock (switch_in p k))) with
    (ps_upd p (set_chan NoChan) (ps_set_cur (Some p) (ps_upd p (set_state RUNNING) (k_ps k)))).
  destruct (decide (q = p)) as [-> |Hq].
  - rewrite ps_proc_upd_eq. simpl. by rewrite fn_lookup_insert.
  - rewrite ps_proc_upd_ne by done. simpl. by rewrite fn_lookup_insert_ne.
Qed.

Lemma resumed_running p k :
  k_held (resumed p DiskLock (switch_in p k)) = [DiskLock] /\ ps_cur (k_ps (resumed p DiskLock (switch_in p k))) = Some p /\
  p_state (ps_proc (k_ps (resumed p DiskLock (switch_in p k))) p) = RUNNING.
Proof. split; [done|]. split; [done|]. simpl. by rewrite !fn_lookup_insert. Qed.

(** How a process goes on that sleeps in the first, or in the second loop of
    [virtio_disk_rw]. *)
Section conts.
Context {W : Wakeups}.

Definition cont_wait (n : nat) (b : Z) (idx : list Z) : K unit := rw_wait n b;; rw_finish idx.

Definition cont_alloc (n : nat) (b : Z) (w : bool) (sector : Z) : K unit :=
  idx ← rw_alloc n; rw_submit b w sector idx;; cont_wait wakeups b idx.

Definition resumes (p : Z) (f : kernel -> outcome kernel unit) (m : K unit) : Prop :=
  forall k, k_held k = [ProcLock p] -> f k = m (resumed p DiskLock k).

Definition parked_wait (p : Z) (th : thread) (r : req) : Prop :=
  exists n, resumes p (th_resume th) (cont_wait n (th_b th) (r_descs r)).

Definition parked_alloc (p : Z) (th : thread) : Prop :=
  exists n, resumes p (th_resume th) (cont_alloc n (th_b th) (th_w th) (2 * th_n th)).

Lemma bind_sleep {A} c p k (m : K A) (g : A -> K unit) :
  ps_cur (k_ps k) = Some p -> k_held k = [DiskLock] ->
  exists f, ((sleep c DiskLock;; m) ≫= g) k = Yield (asleep p c k) f /\ resumes p f (m ≫= g).
Proof.
  intros Hc Hh. destruct (sleep_yields c DiskLock p k Hc Hh ltac:(done)) as (f & Hs & Hf).
  unfold mbind, M_bind. rewrite Hs. simpl. eexists. split; [reflexivity|]. intros k' Hk'. by rewrite (Hf k' Hk').
Qed.

Lemma flagged_disk b x k v : b_disk (fs_buf (k_fs (set_vd v (flagged b x k))) b) = x.
Proof. simpl. by rewrite fn_lookup_insert. Qed.

Lemma wait_sleeps n b idx p k :
  ps_cur (k_ps k) = Some p -> k_held k = [DiskLock] -> b_disk (fs_buf (k_fs k) b) = 1 ->
  cont_wait n b idx k = Panic "out of fuel" \/
  exists n' f, cont_wait n b idx k = Yield (asleep p (ChanBuf b) k) f /\ resumes p f (cont_wait n' b idx).
Proof.
  intros Hc Hh Hd. destruct n as [|n].
  - left. unfold cont_wait. cbn [rw_wait]. unfold mbind, M_bind. simpl. by rewrite Hd.
  - right. exists n. destruct (bind_sleep (ChanBuf b) p k (rw_wait n b) (fun _ => rw_finish idx) Hc Hh) as (f & Hs & Hf).
    exists f. split; [|exact Hf]. rewrite <- Hs. unfold cont_wait. cbn [rw_wait]. unfold mbind, M_bind. simpl. by rewrite Hd.
Qed.

(** The second loop, from a state in which its process runs. *)
Lemma wait_go n C A U P T k r th :
  vinv C A U P T k -> r ∈ C -> T (r_p r) = Some th -> k_held k = [DiskLock] -> ps_cur (k_ps k) = Some (r_p r) ->
  cont_wait n (th_b th) (r_descs r) k = Panic "out of fuel" \/
  (exists n' f, cont_wait n (th_b th) (r_descs r) k = Yield (asleep (r_p r) (ChanBuf (th_b th)) k) f /\
     resumes (r_p r) f (cont_wait n' (th_b th) (r_descs r)) /\ vinv C A U P T (switch_out (asleep (r_p r) (ChanBuf (th_b th)) k))) \/
  (exists k' C' P', cont_wait n (th_b th) (r_descs r) k = Ret () k' /\ moved th k' /\ b_disk (fs_buf (k_fs k') (th_b th)) = 0 /\
     k_held k' = [] /\ v_isr (vd k') = v_isr (vd k) /\
     C ≡ₚ r :: C' /\ vinv C' A U P' (<[r_p r := None]> T) k').
Proof.
  intros I Hr HT Hh Hc. destruct (vi_req _ _ _ _ _ _ I r Hr) as (th' & HT' & Hok). assert (th' = th) as -> by congruence.
  destruct (decide (r_i0 r ∈ P)) as [HP|HP].
  - right; right. assert (b_disk (fs_buf (k_fs k) (th_b th)) = 0) as Hd by (rewrite (ro_disk _ _ _ _ _ Hok); by rewrite decide_True).
    destruct (request_descs _ _ _ _ _ _ r I Hr) as [Hnd Hf].
    destruct (rw_finish_spec th r k (ro_chain _ _ _ _ _ Hok) Hnd Hf Hh) as (ps' & Hrun & Hw).
    destruct (vinv_finish C A U P T k r th ps' I Hr HP HT Hc Hw) as (C' & P' & HC & I').
    eexists _, C', P'. split; [|split; [|split; [|split; [|split; [|split; [exact HC|apply vinv_held, I']]]]]].
    + rewrite <- Hrun. unfold cont_wait. destruct n; cbn [rw_wait]; unfold mbind, M_bind; simpl; by rewrite Hd.
    + apply (ro_moved _ _ _ _ _ Hok), elem_of_app. by right.
    + exact Hd.
    + done.
    + done.
  - destruct (wait_sleeps n (th_b th) (r_descs r) (r_p r) k Hc Hh) as [?|(n' & f & Hy & Hf)]; [|by left|right; left].
    + rewrite (ro_disk _ _ _ _ _ Hok). by rewrite decide_False.
    + exists n', f. split; [done|]. split; [done|]. apply (vinv_asleep _ _ _ _ _ _ _ _ th I HT).
      * intros r' Hr' E. by rewrite (same_process _ _ _ _ _ _ I r' r Hr' Hr E).
      * intros Hn. exfalso. apply Hn. by apply (list_elem_of_fmap_2 r_p).
Qed.

(** The first loop. *)
Lemma alloc_go n C A U P T k p th :
  vinv C A U P T k -> T p = Some th -> p ∉ map r_p C -> k_held k = [DiskLock] -> ps_cur (k_ps k) = Some p ->
  p_state (ps_proc (k_ps k) p) <> SLEEPING ->
  cont_alloc n (th_b th) (th_w th) (2 * th_n th) k = Panic "out of fuel" \/
  exists k' f C' A', cont_alloc n (th_b th) (th_w th) (2 * th_n th) k = Yield k' f /\ vinv C' A' U P T (switch_out k') /\
    v_isr (vd k') = v_isr (vd k) /\
    ((C' = C /\ exists n', resumes p f (cont_alloc n' (th_b th) (th_w th) (2 * th_n th))) \/
     (exists r n', C' = r :: C /\ r_p r = p /\ resumes p f (cont_wait n' (th_b th) (r_descs r)))).
Proof.
  intros I HT Hp Hh Hc Hs. destruct (alloc3_desc_spec k) as [(i0 & i1 & i2 & Ha & Hnd & Hfr)|(ix & v' & ps' & Ha & Hw & Hag & l & Hl & Hl0)].
  - intros i Hi. rewrite (vi_free _ _ _ _ _ _ I i Hi). case_decide; auto.
  - intros i. rewrite Hh. set_solver.
  - pose proof (vinv_submit C A U P T k p th i0 i1 i2 I HT Hp Hs Hnd Hfr) as I'.
    destruct (vi_thr _ _ _ _ _ _ I p th HT) as [_ _ [Hn _] _]. rewrite Hn in I'.
    assert (cont_alloc n (th_b th) (th_w th) (2 * th_n th) k = cont_wait wakeups (th_b th) [i0; i1; i2]
      (set_vd (submitted (th_b th) (th_w th) (2 * th_n th) i0 i1 i2 (taken [i0; i1; i2] (vd k))) (flagged (th_b th) 1 k))) as ->.
    { unfold cont_alloc. erewrite bind_eq; [|destruct n; cbn [rw_alloc]; erewrite bind_eq by exact Ha; reflexivity].
      cbv beta. by erewrite bind_eq by (apply rw_submit_eq). }
    pose proof (stages_nodup _ _ _ _ _ _ I') as Hst.
    destruct (wait_sleeps wakeups (th_b th) [i0; i1; i2] p (set_vd (submitted (th_b th) (th_w th) (2 * th_n th) i0 i1 i2
      (taken [i0; i1; i2] (vd k))) (flagged (th_b th) 1 k)) Hc Hh (flagged_disk _ _ _ _)) as [E|(n' & f & Hy & Hf)]; [by left|right]. eexists _, f, _, _. split; [exact Hy|]. split; [|split; [done|right; by exists (mkreq p i0 i1 i2), n']].
    apply (vinv_asleep _ _ _ _ _ _ _ _ th I' HT).
    + intros r Hr E. rewrite (same_process _ _ _ _ _ _ I' r (mkreq p i0 i1 i2) Hr ltac:(apply list_elem_of_here) E).
      split; [done|]. intros HP. rewrite <- app_assoc in Hst. apply NoDup_app in Hst as (_ & _ & [Hst _]%NoDup_cons).
      apply Hst. rewrite !elem_of_app. auto.
    + intros Hn'. exfalso. apply Hn', list_elem_of_here.
  - assert (vinv C A U P T (set_ps ps' (set_vd v' k))) as I'.
    { apply (vinv_frame _ _ _ _ _ _ _ I). split; try done. intros q th' _. apply (ps_woke_sleeping _ _ _ Hw). }
    destruct n as [|n].
    { left. unfold cont_alloc. cbn [rw_alloc]. unfold mbind, M_bind. by rewrite Ha. }
    destruct (ps_woke_cur _ _ _ Hw Hc) as [Hc' _]. right.
    destruct (bind_sleep ChanDiskFree p (set_ps ps' (set_vd v' k)) (rw_alloc n)
      (fun idx => rw_submit (th_b th) (th_w th) (2 * th_n th) idx;; cont_wait wakeups (th_b th) idx) Hc' Hh) as (f & Hy & Hf).
    exists (asleep p ChanDiskFree (set_ps ps' (set_vd v' k))), f, C, A.
    split; [|split; [apply (vinv_asleep _ _ _ _ _ _ _ _ th I' HT)|split; [|left; split; [done|by exists n]]]].
    + rewrite <- Hy. unfold cont_alloc. cbn [rw_alloc]. unfold mbind, M_bind. by rewrite Ha.
    + intros r Hr E. exfalso. apply Hp. rewrite <- E. by apply (list_elem_of_fmap_2 r_p).
    + intros _. split; [done|]. intros ->. by rewrite (vi_free _ _ _ _ _ _ I l Hl) in Hl0.
    + destruct Hag as [-> _ _]. done.
Qed.

(** ** The invariant of the machine *)

Definition parked (C : list req) (p : Z) (th : thread) : Prop :=
  (exists r, r ∈ C /\ r_p r = p /\ parked_wait p th r) \/ (p ∉ map r_p C /\ parked_alloc p th).

Definition minv (m : mach) : Prop :=
  exists C A U P, vinv C A U P (mc_t m) (mc_k m) /\ intr_pending U (mc_k m) /\ k_held (mc_k m) = [] /\
    forall p th, mc_t m p = Some th -> parked C p th.

Definition strip (th : thread) : Z * bool * Z * list Z := (th_b th, th_w th, th_n th, th_d th).

(** The invariant of the driver's state does not depend on how the processes
    go on. *)
Lemma vinv_threads C A U P T T' k :
  vinv C A U P T k -> (forall q, strip <$> T q = strip <$> T' q) -> vinv C A U P T' k.
Proof.
  intros [N R F Pm Av Us Np Rq Th Wt Sp] HT.
  assert (forall q th', T' q = Some th' -> exists th, T q = Some th /\ strip th = strip th') as Hb.
  { intros q th' Hq. specialize (HT q). rewrite Hq in HT. destruct (T q) as [th|]; [|done]. exists th. split; [done|]. simpl in HT. congruence. }
  split; try done.
  - intros r Hr. destruct (Rq r Hr) as (th & HTr & [[d0 d1 d2 op ib] Hd Hm Hs Hz]). specialize (HT (r_p r)). rewrite HTr in HT.
    destruct (T' (r_p r)) as [th'|]; [|done]. exists th'. split; [done|]. injection HT as Eb Ew En Ed.
    split; unfold moved in *; rewrite <- ?Eb, <- ?Ed; try done. split; by rewrite <- ?Eb, <- ?Ew.
  - intros q th' Hq. destruct (Hb q th' Hq) as (th & HTq & Es). injection Es as Eb Ew En Ed.
    destruct (Th q th HTq) as [t1 t2 t3 t4]. split; by rewrite <- ?Eb, <- ?Ew, <- ?En, <- ?Ed.
  - intros q th' Hq. destruct (Hb q th' Hq) as (th & HTq & _). eauto.
  - intros q q' th1 th2 H1 H2 Hne. destruct (Hb _ _ H1) as (th1' & H1' & E1). destruct (Hb _ _ H2) as (th2' & H2' & E2).
    injection E1 as <- _ _ _. injection E2 as <- _ _ _. eauto.
Qed.

Lemma minv_yield C A U P T T1 p th k f :
  vinv C A U P T1 (switch_out k) -> T1 p = Some th -> (forall q, q <> p -> T1 q = T q) -> intr_pending U k ->
  parked C p (mkthread (th_b th) (th_w th) (th_n th) (th_d th) f) ->
  (forall q th', q <> p -> T q = Some th' -> parked C q th') ->
  minv (mkmach (switch_out k) (<[p := Some (mkthread (th_b th) (th_w th) (th_n th) (th_d th) f)]> T)).
Proof.
  intros I HT Heq Hi Hp Hq. exists C, A, U, P. split; [|split; [done|split; [done|]]].
  - apply (vinv_threads _ _ _ _ T1); [done|]. intros q. simpl. destruct (decide (q = p)) as [-> |Hne].
    + rewrite fn_lookup_insert, HT. done.
    + by rewrite fn_lookup_insert_ne, Heq.
  - intros q th'. simpl. destruct (decide (q = p)) as [-> |Hne].
    + rewrite fn_lookup_insert. by intros [= <-].
    + rewrite fn_lookup_insert_ne by done. eauto.
Qed.

Lemma intr_pending_isr U k k' : intr_pending U k -> v_isr (vd k') = v_isr (vd k) -> intr_pending U k'.
Proof. unfold intr_pending. intros H ->. done. Qed.

Definition steps_ok (o : mresult) : Prop :=
  match o with MOk m => minv m | MPanic msg => msg = "out of fuel" end.

Lemma minv_resume p th m : minv m -> mc_t m p = Some th -> steps_ok (m_resume p th m).
Proof.
  destruct m as [k T]. intros (C & A & U & P & I & Hi & Hh & Hpk) HT. simpl in *. unfold m_resume. simpl.
  pose proof (vinv_wakes _ _ _ _ _ _ p I) as I1. destruct (resumed_running p k) as (Hh1 & Hc1 & Hs1).
  destruct (Hpk p th HT) as [(r & Hr & <- & n & Hn)|[Hp [n Hn]]]; rewrite Hn by done.
  - destruct (wait_go n C A U P T _ r th I1 Hr HT Hh1 Hc1) as [-> |[(n' & f & -> & Hf & I2)|(k' & C' & P' & -> & _ & _ & Hh' & Hv & HC & I2)]]; simpl.
    + done.
    + apply (minv_yield C A U P T T); try done. { left. exists r. split; [done|]. split; [done|]. by exists n'. } eauto.
    + exists C', A, U, P'. split; [done|]. split; [by apply (intr_pending_isr U k)|]. split; [done|]. intros q th'. simpl.
      destruct (decide (q = r_p r)) as [-> |Hne]; [by rewrite fn_lookup_insert|]. rewrite fn_lookup_insert_ne by done. intros Hq.
      destruct (Hpk q th' Hq) as [(r' & Hr' & <- & Hw)|[Hq' Ha]]; [left|right].
      * exists r'. split; [|done]. rewrite HC in Hr'. apply elem_of_cons in Hr' as [-> |]; done.
      * split; [|done]. rewrite HC in Hq'. simpl in Hq'. set_solver.
  - destruct (alloc_go n C A U P T _ p th I1 HT Hp Hh1 Hc1) as [-> |(k' & f & C' & A' & -> & I2 & Hv & Hshape)]; [by rewrite Hs1|done|].
    simpl. apply (minv_yield C' A' U P T T); try done.
    + by apply (intr_pending_isr U k).
    + destruct Hshape as [[-> [n' Hf]]|(r & n' & -> & Hrp & Hf)]; [right; split; [done|by exists n']|left].
      exists r. split; [apply list_elem_of_here|]. split; [done|]. by exists n'.
    + intros q th' Hne Hq. destruct Hshape as [[-> _]|(r & n' & -> & Hrp & _)]; [by apply Hpk|].
      destruct (Hpk q th' Hq) as [(r' & Hr' & <- & Hw)|[Hq' Ha]]; [left|right].
      * exists r'. split; [by apply list_elem_of_further|done].
      * split; [|done]. simpl. rewrite Hrp. set_solver.
Qed.

Lemma vinv_call C A U P T k p b w f :
  vinv C A U P T k -> may_call p b (mkmach k T) ->
  p ∉ map r_p C /\ vinv C A U P (<[p := Some (mkthread b w (blockno k b) (payload b w k) f)]> T) k.
Proof.
  intros [N R F Pm Av Us Np Rq Th Wt Sp] [Hp Hrun Hnew Hb Hn Hap]. simpl in *.
  assert (p ∉ map r_p C) as HpC.
  { intros (r & -> & Hr)%list_elem_of_fmap. destruct (Rq r Hr) as (th & HT & _). congruence. }
  split; [done|]. split; try done.
  - intros r Hr. destruct (Rq r Hr) as (th & HT & Hok). exists th. split; [|done]. rewrite fn_lookup_insert_ne by congruence. done.
  - intros q th. destruct (decide (q = p)) as [-> |Hne]; [|rewrite fn_lookup_insert_ne by done; auto].
    rewrite fn_lookup_insert. intros [= <-]. by split.
  - intros q th. destruct (decide (q = p)) as [-> |Hne]; [intros _ _; by rewrite Hrun|]. rewrite fn_lookup_insert_ne by done. eauto.
  - intros q q' th1 th2. destruct (decide (q = p)) as [-> |H1], (decide (q' = p)) as [-> |H2];
      rewrite ?fn_lookup_insert; rewrite ?fn_lookup_insert_ne by done.
    + done.
    + intros [= <-] Hq _. simpl. destruct (Hap q' th2 Hq). done.
    + intros Hq [= <-] _. simpl. destruct (Hap q th1 Hq). done.
    + eauto.
Qed.

Lemma minv_call p b w m : minv m -> may_call p b m -> steps_ok (m_call p b w m).
Proof.
  destruct m as [k T]. intros (C & A & U & P & I & Hi & Hh & Hpk) Hmay. simpl in *. unfold m_call. simpl.
  set (th := mkthread b w (blockno k b) (payload b w k) (fun _ => Panic "")).
  destruct (vinv_call C A U P T k p b w (th_resume th) I Hmay) as [HpC I1]. fold th in I1.
  assert (virtio_disk_rw b w (on (Some p) k) =
    cont_alloc wakeups (th_b th) (th_w th) (2 * th_n th) (set_held [DiskLock] (on (Some p) k))) as ->.
  { unfold virtio_disk_rw. kpure. erewrite bind_eq by (apply acquire_eq; simpl; rewrite Hh; apply not_elem_of_nil). cbv beta.
    simpl k_held. rewrite Hh. replace (u32 _) with (2 * th_n th); [done|].
    destruct Hmay as [_ _ _ _ Hn _]. simpl in *. unfold blockno in *. unfold BSIZE, u32. change (1024 / 512) with 2.
    rewrite Z.mod_small; lia. }
  destruct (alloc_go wakeups C A U P _ (set_held [DiskLock] (on (Some p) k)) p th (vinv_held _ _ _ _ _ _ _ (vinv_on _ _ _ _ _ _ _ I1)))
    as [-> |(k' & f & C' & A' & -> & I2 & Hv & Hshape)]; try done.
  - by rewrite fn_lookup_insert.
  - pose proof (mc_running _ _ _ Hmay) as E. simpl in *. by rewrite E.
  - simpl. change b with (th_b th). change w with (th_w th). change (blockno k (th_b th)) with (th_n th).
    change (payload (th_b th) (th_w th) k) with (th_d th).
    apply (minv_yield C' A' U P T (<[p := Some th]> T)); try done.
    + by rewrite fn_lookup_insert.
    + intros q Hne. by rewrite fn_lookup_insert_ne.
    + by apply (intr_pending_isr U k).
    + destruct Hshape as [[-> [n' Hf]]|(r & n' & -> & Hrp & Hf)]; [right; split; [done|by exists n']|left].
      exists r. split; [apply list_elem_of_here|]. split; [done|]. by exists n'.
    + intros q th' Hne Hq. destruct Hshape as [[-> _]|(r & n' & -> & Hrp & _)]; [by apply Hpk|].
      destruct (Hpk q th' Hq) as [(r' & Hr' & <- & Hw)|[Hq' Ha]]; [left|right].
      * exists r'. split; [by apply list_elem_of_further|done].
      * split; [|done]. simpl. rewrite Hrp. set_solver.
Qed.

Lemma minv_intr c m : minv m -> (forall p, c = Some p -> mc_t m p = None) -> steps_ok (m_intr c m).
Proof.
  destruct m as [k T]. intros (C & A & U & P & I & Hi & Hh & Hpk) Hc. simpl in *. unfold m_intr. simpl.
  destruct (intr_spec C A U P T (on c k)) as (k' & P' & -> & I' & Hh'); [by apply vinv_on|done|done|].
  exists C, A, [], P'. split; [done|]. split; [|done]. intros HU. by destruct HU.
Qed.

Lemma minv_client k' m : minv m -> client_step (mc_t m) (mc_k m) k' -> minv (mkmach k' (mc_t m)).
Proof.
  destruct m as [k T]. intros (C & A & U & P & I & Hi & Hh & Hpk) [c1 c2 c3 c4 c5]. cbn [mc_k mc_t] in *.
  exists C, A, U, P. cbn [mc_k mc_t]. split; [|split; [|split; [by rewrite c2|done]]].
  - apply (vinv_frame _ _ _ _ _ _ _ I). split; try done. rewrite c1. apply v_agree_refl.
  - apply (intr_pending_isr U k); [done|]. by rewrite c1.
Qed.

Lemma minv_device k' m : minv m -> dev_spec (mc_k m) k' -> minv (mkmach k' (mc_t m)).
Proof.
  destruct m as [k T]. intros (C & A & U & P & I & Hi & Hh & Hpk) Hd. simpl in *. destruct Hd as [Hne ->|B1 i B2 HB Hk|x ->].
  - destruct (vinv_fetch _ _ _ _ _ _ I Hne) as (A' & I'). by exists C, A', U, P.
  - destruct (stage_request _ _ _ _ _ _ I i) as (r & Hr & <- & _); [rewrite HB; set_solver|].
    destruct (vi_req _ _ _ _ _ _ I r Hr) as (th & HT & Hok). pose proof (serve_request th r (B1 ++ B2) k (ro_chain _ _ _ _ _ Hok)) as Hs.
    exists C, A, (U ++ [r_i0 r]), P. pose proof (vinv_serve _ _ _ _ _ _ _ _ _ _ I HB Hs) as I'. apply Hk in Hs. subst k'.
    split; [done|]. split; [|done]. intros _.
    change (Z.testbit (Z.lor (v_isr (vd k)) 1) 0 = true). rewrite Z.lor_spec. apply orb_true_r.
  - exists C, A, U, P. split; [by apply vinv_raise|]. split; [|done]. intros HU.
    change (Z.testbit (Z.lor (v_isr (vd k)) x) 0 = true). by rewrite Z.lor_spec, Hi by done.
Qed.

Lemma write_reg_eq r x rs v k (m : K unit) :
  (write_reg r x;; m) (set_vd (set_v_regs rs v) k) = m (set_vd (set_v_regs (rs ++ [(r, u32 x)]) v) k).
Proof. done. Qed.

Lemma free_all_free n i k k' :
  free_all_loop n i k = Ret () k' ->
  exists f, k' = set_vd (with_df (v_desc (vd k)) f (vd k)) k /\
    forall j, f j = if decide (i <= j < i + Z.of_nat n) then 1 else v_free (vd k) j.
Proof.
  revert i k. induction n as [|n IH]; intros i k; cbn [free_all_loop].
  - intros [= <-]. exists (v_free (vd k)). split; [by rewrite with_df_id, set_vd_id|]. intros j. rewrite decide_False; [done|lia].
  - intros Hrun. apply IH in Hrun as (f & -> & Hf). exists f. split; [done|]. intros j. rewrite Hf. simpl.
    destruct (decide (j = i)) as [-> |Hne].
    + rewrite fn_lookup_insert, (decide_True (P := i <= i < _)) by lia. by case_decide.
    + rewrite fn_lookup_insert_ne by done. repeat case_decide; try done; lia.
Qed.

(** After [virtio_disk_init] no request is in the driver. *)
Lemma vinv_init mmio pages k k' :
  virtio_disk_init mmio pages k = Ret () k' -> vd k = vdisk0 -> vinv [] [] [] [] (fun _ => None) k' /\ k_held k' = k_held k.
Proof.
  intros Hrun Hv. unfold virtio_disk_init in Hrun. case_match; [done|]. cbv zeta in Hrun.
  assert (k = set_vd (set_v_regs [] vdisk0) k) as E by (rewrite <- (set_vd_id k) at 1; by rewrite Hv).
  rewrite E in Hrun. rewrite !write_reg_eq in Hrun. do 2 (case_match; [done|]). rewrite !write_reg_eq in Hrun.
  match type of Hrun with (_ ≫= _) (set_vd (set_v_regs ?rs _) _) = _ => generalize dependent rs end. intros rs Hrun.
  erewrite bind_eq in Hrun by reflexivity. cbv beta in Hrun.
  change (set_vd (clear_pages _) _) with (set_vd (set_v_regs rs vdisk0) k) in Hrun. rewrite write_reg_eq in Hrun.
  apply free_all_free in Hrun as (f & -> & Hf). split; [|done]. split; try done.
  - constructor.
  - intros i Hi. by apply not_elem_of_nil in Hi.
  - intros i Hi. simpl. rewrite Hf, decide_True; [done|]. unfold NUM in *. lia.
  - constructor.
  - intros r Hr. by apply not_elem_of_nil in Hr.
Qed.

Section reach.
Context (device : kernel -> kernel -> Prop) (device_ok : forall k k', device k k' -> dev_spec k k').

Lemma minv_step m o : minv m -> mstep device m o -> steps_ok o.
Proof.
  intros Hm Hs. destruct Hs as [p b w Hc|p th HT _|c Hc|k' Hd|k' Hc]; simpl.
  - by apply minv_call.
  - by apply minv_resume.
  - by apply minv_intr.
  - by apply minv_device; [|apply device_ok].
  - by apply minv_client.
Qed.

Lemma mreach_inv m0 m : minv m0 -> mreach device m0 m -> minv m.
Proof. intros H0 Hr. induction Hr as [|m m' _ IH Hs]; [done|]. apply (minv_step m (MOk m')); done. Qed.

End reach.

Lemma minv_init mmio pages k k' :
  virtio_disk_init mmio pages k = Ret () k' -> vd k = vdisk0 -> k_held k = [] -> minv (mkmach k' (fun _ => None)).
Proof.
  intros Hrun Hv Hh. destruct (vinv_init _ _ _ _ Hrun Hv) as [I Hh']. exists [], [], [], []. split; [done|].
  split; [by intros []|]. split; [by simpl; rewrite Hh'|done].
Qed.

(** A process that leaves the driver has its data. *)
Lemma minv_return p th m k' :
  minv m -> mc_t m p = Some th -> th_resume th (switch_in p (mc_k m)) = Ret () k' ->
  moved th k' /\ b_disk (fs_buf (k_fs k') (th_b th)) = 0 /\ k_held k' = [].
Proof.
  destruct m as [k T]. intros (C & A & U & P & I & Hi & Hh & Hpk) HT. simpl in *.
  pose proof (vinv_wakes _ _ _ _ _ _ p I) as I1. destruct (resumed_running p k) as (Hh1 & Hc1 & Hs1).
  destruct (Hpk p th HT) as [(r & Hr & <- & n & Hn)|[Hp [n Hn]]]; rewrite Hn by done.
  - destruct (wait_go n C A U P T _ r th I1 Hr HT Hh1 Hc1) as [-> |[(n' & f & -> & _)|(k2 & C' & P' & -> & Hm & Hd & Hh' & _)]]; try done.
    by intros [= <-].
  - destruct (alloc_go n C A U P T _ p th I1 HT Hp Hh1 Hc1) as [-> |(k2 & f & C' & A' & -> & _)]; [by rewrite Hs1|done|done].
Qed.

(** Nobody sleeps in the driver for nothing. *)
Lemma minv_progress p th m :
  minv m -> mc_t m p = Some th ->
  (exists q th', mc_t m q = Some th' /\ p_state (ps_proc (k_ps (mc_k m)) q) <> SLEEPING) \/
  v_seen (vd (mc_k m)) <> v_avail_idx (vd (mc_k m)) \/ v_busy (vd (mc_k m)) <> [] \/ Z.testbit (v_isr (vd (mc_k m))) 0 = true.
Proof.
  destruct m as [k T]. intros (C & A & U & P & I & Hi & Hh & Hpk) HT. cbn [mc_k mc_t] in *.
  assert (p_state (ps_proc (k_ps k) p) = SLEEPING -> exists r, r ∈ C) as HC.
  { intros Hs. destruct (Hpk p th HT) as [(r & Hr & _)|[Hp _]]; [by exists r|].
    destruct (vi_wait _ _ _ _ _ _ I p th HT Hp Hs) as [_ Hne]. destruct C as [|r C]; [done|]. exists r. apply list_elem_of_here. }
  destruct (decide (p_state (ps_proc (k_ps k) p) = SLEEPING)) as [Hs|Hs]; [|left; by exists p, th].
  destruct (HC Hs) as (r & Hr). destruct (vi_req _ _ _ _ _ _ I r Hr) as (th' & HT' & Hok).
  assert (r_i0 r ∈ A ++ v_busy (vd k) ++ U ++ P) as Hin.
  { rewrite <- (vi_perm _ _ _ _ _ _ I). by apply (list_elem_of_fmap_2 r_i0). }
  rewrite !elem_of_app in Hin. destruct Hin as [HA|[HB|[HU|HP]]].
  - right; left. destruct (vi_avail _ _ _ _ _ _ I) as (_ & -> & Hr0). pose proof (stages_length _ _ _ _ _ _ I) as Hlen.
    unfold NUM in Hlen. rewrite queue_empty by lia. intros ->. by apply not_elem_of_nil in HA.
  - right; right; left. intros E. rewrite E in HB. by apply not_elem_of_nil in HB.
  - right; right; right. apply Hi. intros ->. by apply not_elem_of_nil in HU.
  - left. exists (r_p r), th'. split; [done|]. intros Hz. by apply (ro_sleep _ _ _ _ _ Hok) in Hz as [_ ?].
Qed.

End conts.

(** ** The theorems *)

Section theorems.
Context {W : Wakeups} (device : kernel -> kernel -> Prop).

(** A state the machine reaches after [virtio_disk_init]. *)
Definition driver_reach (mmio : Z -> Z) (pages : Z) (k0 : kernel) (m : mach) : Prop :=
  vd k0 = vdisk0 /\ k_held k0 = [] /\
  exists k, virtio_disk_init mmio pages k0 = Ret () k /\ mreach device (mkmach k (fun _ => None)) m.

Lemma driver_reach_inv mmio pages k0 m :
  (forall k k', device k k' -> dev_spec k k') -> driver_reach mmio pages k0 m -> minv m.
Proof. intros Hd (Hv & Hh & k & Hi & Hr). apply (mreach_inv device Hd (mkmach k (fun _ => None))); [by eapply minv_init|done]. Qed.

(** C7: The disk driver serves any number of processes at once. With a device
    that keeps to the virtio specification, however calls, resumed processes,
    device steps, interrupts and the rest of the kernel interleave after
    [virtio_disk_init], the driver does not panic (but for a process woken up
    more often than the bound of the model); when [virtio_disk_rw] returns,
    the buffer and the block hold the bytes that were to be transferred, the
    buffer is no longer the device's and no lock is held; and when no process
    is in the driver, all descriptors are free. *)
Theorem virtio_disk_transfers mmio pages k0 m :
  (forall k k', device k k' -> dev_spec k k') -> driver_reach mmio pages k0 m ->
  (forall o, mstep device m o -> (exists m', o = MOk m') \/ o = MPanic "out of fuel") /\
  (forall p th k', mc_t m p = Some th -> th_resume th (switch_in p (mc_k m)) = Ret () k' ->
     bdata k' (th_b th) = th_d th /\ fs_disk (k_fs k') (blockno k' (th_b th)) = th_d th /\
     b_disk (fs_buf (k_fs k') (th_b th)) = 0 /\ k_held k' = []) /\
  ((forall p, mc_t m p = None) -> forall i, 0 <= i < NUM -> v_free (vd (mc_k m)) i = 1).
Proof.
  intros Hd Hr. pose proof (driver_reach_inv _ _ _ _ Hd Hr) as Hm. split; [|split].
  - intros o Ho. pose proof (minv_step device Hd m o Hm Ho) as Hs. destruct o as [m'|msg]; [left; by exists m'|right].
    simpl in Hs. by rewrite Hs.
  - intros p th k' HT Hret. destruct (minv_return p th m k' Hm HT Hret) as ([M1 M2] & Hb & Hh). done.
  - intros HT i Hi. destruct Hm as (C & A & U & P & I & _). rewrite (vi_free _ _ _ _ _ _ I i Hi).
    destruct C as [|r C]; [by rewrite decide_False by apply not_elem_of_nil|].
    destruct (vi_req _ _ _ _ _ _ I r ltac:(apply list_elem_of_here)) as (th & HT' & _). by rewrite HT in HT'.
Qed.

(** C18: No wakeup is lost in the driver: whenever a process is in
    [virtio_disk_rw], some process in it can run, or the device has a request
    to fetch or to serve, or its interrupt is pending. The driver never waits
    for nothing. *)
Theorem virtio_no_lost_wakeup mmio pages k0 m p th :
  (forall k k', device k k' -> dev_spec k k') -> driver_reach mmio pages k0 m -> mc_t m p = Some th ->
  (exists q th', mc_t m q = Some th' /\ p_state (ps_proc (k_ps (mc_k m)) q) <> SLEEPING) \/
  v_seen (vd (mc_k m)) <> v_avail_idx (vd (mc_k m)) \/ v_busy (vd (mc_k m)) <> [] \/ Z.testbit (v_isr (vd (mc_k m))) 0 = true.
Proof. intros Hd Hr HT. apply (minv_progress p th m); [by eapply driver_reach_inv|done]. Qed.

End theorems.

(** ** A run *)

Module VirtioDemo.

#[local] Instance one_wakeup : Wakeups := 1%nat.

(** A device that serves its requests in the order it fetched them. *)
Definition fifo_device (k k' : kernel) : Prop :=
  (v_seen (vd k) <> v_avail_idx (vd k) /\ k' = set_vd (dev_fetch (vd k)) k) \/
  (exists i B, v_busy (vd k) = i :: B /\ k' = default k (blk_serve i B k)).

Lemma fifo_device_ok k k' : fifo_device k k' -> dev_spec k k'.
Proof.
  intros [[Hne ->]|(i & B & HB & ->)]; [by apply Dev_fetch|]. apply (Dev_serve _ _ [] i B); [done|]. simpl. by intros k1 ->.
Qed.

Definition mmio (r : Z) : Z :=
  if r =? 0 then 0x74726976 else if r =? 4 then 1 else if r =? 8 then 2 else if r =? 12 then 0x554d4551 else if r =? 0x34 then 1024 else 0.

(** Process 5 runs, buffer 0 is for block 7. *)
Definition k0 : kernel :=
  set_fs (fs_upd_buf 0 (set_b_blockno 7) (fs_set_disk (fun n => [n; 1]) fssys0)) (set_ps (ps_upd 5 (set_state RUNNING) procsys0) boot).

Definition kof {A} (d : kernel) (o : outcome kernel A) : kernel := match o with Ret _ k => k | _ => d end.
Definition mof (d : mach) (o : mresult) : mach := match o with MOk m => m | _ => d end.
Definition is_ret {A} (o : outcome kernel A) : bool := match o with Ret _ _ => true | _ => false end.
Definition is_ok (o : mresult) : bool := match o with MOk _ => true | _ => false end.

Lemma mof_eq d o : is_ok o = true -> o = MOk (mof d o).
Proof. by destruct o. Qed.

Definition k1 : kernel := kof k0 (virtio_disk_init mmio 0x80010000 k0).
Definition m1 : mach := mkmach k1 (fun _ => None).
Definition m2 : mach := mof m1 (m_call 5 0 false m1).
Definition m3 : mach := mkmach (set_vd (dev_fetch (vd (mc_k m2))) (mc_k m2)) (mc_t m2).
Definition m4 : mach := mkmach (default (mc_k m3) (blk_serve 0 [] (mc_k m3))) (mc_t m3).
Definition m5 : mach := mof m4 (m_intr None m4).

Lemma m2_reach : mreach fifo_device m1 m2.
Proof.
  eapply Mreach_step; [apply Mreach_refl|]. unfold m2. rewrite <- (mof_eq m1) by (vm_compute; reflexivity). apply Mcall.
  by split.
Qed.

Lemma m5_reach : mreach fifo_device m1 m5.
Proof.
  eapply Mreach_step; [eapply Mreach_step; [eapply Mreach_step; [apply m2_reach|]|]|].
  - apply (Mdevice fifo_device m2 (mc_k m3)). left. split; [vm_compute; discriminate|reflexivity].
  - apply (Mdevice fifo_device m3 (mc_k m4)). right. exists 0, []. split; [vm_compute; reflexivity|reflexivity].
  - unfold m5. rewrite <- (mof_eq m4) by (vm_compute; reflexivity). apply Mintr. done.
Qed.

Lemma driver_reaches m : mreach fifo_device m1 m -> driver_reach fifo_device mmio 0x80010000 k0 m.
Proof. intros Hr. split; [reflexivity|]. split; [reflexivity|]. exists k1. split; [|exact Hr]. vm_compute. reflexivity. Qed.

Definition m5_done (o : option thread) : bool :=
  match o with
  | Some th => bool_decide (th_b th = 0) && bool_decide (th_d th = [7; 1]) && is_ret (th_resume th (switch_in 5 (mc_k m5)))
  | None => false
  end.

Lemma m5_is_done : m5_done (mc_t m5 5) = true.
Proof. vm_compute. reflexivity. Qed.

Lemma m2_in_driver : is_Some (mc_t m2 5).
Proof.
  assert (match mc_t m2 5 with Some _ => true | None => false end = true) as H by (vm_compute; reflexivity).
  by destruct (mc_t m2 5).
Qed.

(** The read of block 7 returns with the block in the buffer. *)
Lemma virtio_disk_transfers_witness :
  exists th k', mc_t m5 5 = Some th /\ th_resume th (switch_in 5 (mc_k m5)) = Ret () k' /\
    th_d th = [7; 1] /\ bdata k' 0 = [7; 1] /\ k_held k' = [].
Proof.
  pose proof m5_is_done as Hm. destruct (mc_t m5 5) as [th|] eqn:HT; [|discriminate Hm]. simpl in Hm.
  apply andb_true_iff in Hm as [[Hb%bool_decide_eq_true Hd%bool_decide_eq_true]%andb_true_iff Hret].
  destruct (th_resume th (switch_in 5 (mc_k m5))) as [[] k'| |] eqn:Hk; try discriminate Hret.
  destruct (virtio_disk_transfers fifo_device mmio 0x80010000 k0 m5 fifo_device_ok (driver_reaches _ m5_reach)) as (_ & H & _).
  destruct (H 5 th k' HT Hk) as (H1 & _ & _ & H2). exists th, k'. rewrite Hb, Hd in H1.
  split; [reflexivity|]. split; [exact Hk|]. split; [exact Hd|]. split; [exact H1|exact H2].
Defined.

(** A process that waits for the device. *)
Lemma virtio_no_lost_wakeup_witness :
  p_state (ps_proc (k_ps (mc_k m2)) 5) = SLEEPING /\
  ((exists q th', mc_t m2 q = Some th' /\ p_state (ps_proc (k_ps (mc_k m2)) q) <> SLEEPING) \/
   v_seen (vd (mc_k m2)) <> v_avail_idx (vd (mc_k m2)) \/ v_busy (vd (mc_k m2)) <> [] \/ Z.testbit (v_isr (vd (mc_k m2))) 0 = true).
Proof.
  split; [vm_compute; reflexivity|]. destruct m2_in_driver as [th E].
  exact (virtio_no_lost_wakeup fifo_device mmio 0x80010000 k0 m2 5 th fifo_device_ok (driver_reaches _ m2_reach) E).
Defined.

End VirtioDemo.
