(* ===== verification/VirtioDisk.v ===== *)
(** * The driver behind the disk interface

    The buffer cache, the log and the file system are verified against a disk
    that serves a request at once ([ideal_disk] of [BioInv]). One request
    through the driver has the same effect: the process calls
    [virtio_disk_rw] and sleeps, the device fetches and serves the request, its
    interrupt is handled, and the process goes on. Afterwards the buffers, the
    blocks and all else but the driver's own state are what the ideal disk
    makes of them, other processes have at most been woken up, and the driver
    is ready for the next request. *)

From S2P Require Import Prelude Riscv Monad State Kstring Printf Kalloc Vm Proc ProcInv Umem Sleeplock Bio BioInv Virtio VirtioInv VirtioSteps VirtioProps.
#[local] Open Scope Z_scope.

#[local] Opaque acquire release wakeup.

(** The driver has no request. *)
Record idle (v : vdisk) : Prop := {
  id_free i : 0 <= i < NUM -> v_free v i = 1;
  id_busy : v_busy v = [];
  id_avail : v_avail_idx v = v_seen v /\ 0 <= v_seen v < 2 ^ 16;
  id_used : v_used_head v = v_used_idx v /\ 0 <= v_used_idx v < 2 ^ 16
}.

(** The request of process [p]: [k1] is the state in which it sleeps, [k2] and
    [k3] those after the steps of the device, [k4] the one after the interrupt. *)
Inductive served_request {W : Wakeups} (p b : Z) (w : bool) (k k' : kernel) : Prop :=
  | Served k1 f k2 k3 k4 :
      Virtio.virtio_disk_rw b w k = Yield k1 f -> dev_spec (switch_out k1) k2 -> dev_spec k2 k3 ->
      virtio_disk_intr k3 = Ret () k4 -> p_state (ps_proc (k_ps k4) p) = RUNNABLE -> f (switch_in p k4) = Ret () k' ->
      served_request p b w k k'.

(** The same state but for the driver and processes that were woken up. *)
Record same_but_driver (k k' : kernel) : Prop := {
  sd_rest : k' = set_vd (vd k') (set_ps (k_ps k') (set_fs (k_fs k') k));
  sd_procs : ps_woke (k_ps k) (k_ps k');
  sd_bufs c : fs_buf (k_fs k') c = fs_buf (k_fs k) c;
  sd_fs : k_fs k' = fs_set_bufs (fs_buf (k_fs k')) (k_fs k)
}.

(** ** The pieces, from any state *)

Lemma submitted_chain th p i0 i1 i2 v k :
  NoDup [i0; i1; i2] -> blockno k (th_b th) = th_n th ->
  chain_ok th (mkreq p i0 i1 i2) (set_vd (submitted (th_b th) (th_w th) (2 * th_n th) i0 i1 i2 v) k).
Proof.
  intros [H0 [H1 _]%NoDup_cons]%NoDup_cons Hn. apply not_elem_of_cons in H0 as [H01 H02]. apply not_elem_of_cons in H02 as [H02 _].
  apply not_elem_of_cons in H1 as [H12 _]. split; simpl r_i0; simpl r_i1; simpl r_i2; change (vd (set_vd ?v ?k)) with v.
  - by rewrite submitted_desc, decide_True.
  - by rewrite submitted_desc, decide_False, decide_True by done.
  - by rewrite submitted_desc, !decide_False, decide_True by done.
  - change (blockno (set_vd ?v ?k)) with (blockno k). rewrite Hn. simpl. by rewrite fn_lookup_insert.
  - simpl. by rewrite fn_lookup_insert.
Qed.

Lemma chain_ok_ext th r k k' :
  chain_ok th r k -> v_desc (vd k') = v_desc (vd k) -> v_ops (vd k') = v_ops (vd k) -> v_info_b (vd k') = v_info_b (vd k) ->
  blockno k' (th_b th) = blockno k (th_b th) -> chain_ok th r k'.
Proof. intros [c0 c1 c2 c3 c4] E1 E2 E3 E4. split; rewrite ?E1, ?E2, ?E3; try done. by rewrite c3, E4. Qed.

Definition acked (k : kernel) : kernel :=
  set_vd (set_v_isr (Z.land (v_isr (vd k)) (Z.lnot (Z.land (v_isr (vd k)) 3))) (vd k)) (set_held [DiskLock] k).

(** The interrupt handler, with one request on the used ring. *)
Lemma intr_one k i b x :
  k_held k = [] -> v_used_idx (vd k) = x -> v_used_head (vd k) = u16 (x + 1) -> 0 <= x < 2 ^ 16 ->
  v_used_ring (vd k) (x mod NUM) = i -> v_info_status (vd k) i = 0 -> v_info_b (vd k) i = Some b ->
  exists ps', virtio_disk_intr k = Ret () (set_held [] (intr_done b ps' (acked k))) /\ woke (ChanBuf b) (k_ps k) ps'.
Proof.
  intros Hh E1 E2 Hx E3 E4 E5. unfold virtio_disk_intr.
  erewrite bind_eq by (apply acquire_eq; rewrite Hh; apply not_elem_of_nil). cbv beta. rewrite Hh. kpure.
  change (set_vd _ (set_held [DiskLock] k)) with (acked k).
  assert (exists m, Z.to_nat (2 ^ 16) = S m) as [m ->] by (exists (Z.to_nat (2 ^ 16 - 1)); lia).
  cbn [intr_loop]. destruct (wakeup_wakes (ChanBuf b) (flagged b 0 (acked k))) as (ps' & Hw & Hwk); [by intros j [=]%list_elem_of_singleton|].
  exists ps'. split; [|exact Hwk].
  assert (v_used_idx (vd (acked k)) = x /\ v_used_head (vd (acked k)) = u16 (x + 1) /\ v_used_ring (vd (acked k)) (x mod NUM) = i /\
    v_info_status (vd (acked k)) i = 0 /\ v_info_b (vd (acked k)) i = Some b) as (F1 & F2 & F3 & F4 & F5) by done.
  erewrite bind_eq; [apply (release_eq _ []); [done|apply not_elem_of_nil]|].
  kpure. kpure. rewrite F1, F2, (proj2 (Z.eqb_neq _ _)) by (unfold u16; dlia). kpure. rewrite F3. kpure. rewrite F4. cbn [Z.eqb negb]. kpure. rewrite F5.
  kpure. erewrite bind_eq by exact Hw. cbv beta. kpure.
  change (set_vd _ _) with (intr_done b ps' (acked k)).
  assert (v_used_idx (vd (intr_done b ps' (acked k))) = v_used_head (vd (intr_done b ps' (acked k)))) as E
    by (change (u16 (v_used_idx (vd (acked k)) + 1) = v_used_head (vd (acked k))); by rewrite F1, F2).
  destruct m; cbn [intr_loop]; kpure; kpure; by rewrite E, Z.eqb_refl.
Qed.

(** The process between its call of [sleep] and its return. *)
Lemma slept_and_woken ps ps' p c :
  ps_cur ps = Some p -> p_state (ps_proc ps p) = RUNNING -> p_chan (ps_proc ps p) = NoChan -> 0 <= p < NPROC ->
  woke c (ps_set_cur None (ps_upd p (set_state SLEEPING) (ps_upd p (set_chan c) ps))) ps' ->
  p_state (ps_proc ps' p) = RUNNABLE /\
  ps_woke ps (ps_upd p (set_chan NoChan) (ps_set_cur (Some p) (ps_upd p (set_state RUNNING) ps'))).
Proof.
  intros Hc Hs Hch Hp [[(G1 & G2 & G3 & G4) Hq] Haw]. set (ps1 := ps_set_cur _ _) in *.
  assert (ps_proc ps1 p = set_state SLEEPING (set_chan c (ps_proc ps p))) as E1.
  { change (ps_proc (ps_upd p (set_state SLEEPING) (ps_upd p (set_chan c) ps)) p = set_state SLEEPING (set_chan c (ps_proc ps p))). by rewrite !ps_proc_upd_eq. }
  assert (forall q, q <> p -> ps_proc ps1 q = ps_proc ps q) as E2.
  { intros q Hne. change (ps_proc (ps_upd p (set_state SLEEPING) (ps_upd p (set_chan c) ps)) q = ps_proc ps q). by rewrite !ps_proc_upd_ne. }
  assert (ps_proc ps' p = set_state RUNNABLE (ps_proc ps1 p)) as Ep.
  { destruct (Hq p) as [E|(_ & _ & E)]; [|done]. exfalso. apply (Haw p Hp); [done|by rewrite E, E1|by rewrite E, E1]. }
  split; [by rewrite Ep|]. split; [split_and!; [by rewrite Hc|done..]|]. intros q. destruct (decide (q = p)) as [-> |Hne].
  - left. rewrite ps_proc_upd_eq. change (set_chan NoChan (ps_proc (ps_upd p (set_state RUNNING) ps') p) = ps_proc ps p).
    rewrite ps_proc_upd_eq, Ep, E1. destruct (ps_proc ps p). simpl in *. by subst.
  - rewrite ps_proc_upd_ne by done. change (ps_proc (ps_set_cur _ (ps_upd p (set_state RUNNING) ps')) q) with (ps_proc (ps_upd p (set_state RUNNING) ps') q).
    rewrite ps_proc_upd_ne by done. rewrite <- (E2 q Hne). destruct (Hq q) as [E|(_ & Hsl & E)]; [by left|right]. split; [congruence|done].
Qed.

(** ** The stages of a request *)

(** What the stages have in common: the chain of [r], whose descriptors are the
    only ones in use. *)
Record one_chain (th : thread) (r : req) (k : kernel) : Prop := {
  oc_chain : chain_ok th r k;
  oc_nodup : NoDup (r_descs r);
  oc_mine i : i ∈ r_descs r -> 0 <= i < NUM /\ v_free (vd k) i = 0;
  oc_free i : 0 <= i < NUM -> i ∉ r_descs r -> v_free (vd k) i = 1
}.

(** The driver has put the request on the available ring. *)
Record posted (th : thread) (r : req) (k : kernel) : Prop := {
  po_chain : one_chain th r k;
  po_avail : v_avail_idx (vd k) = u16 (v_seen (vd k) + 1) /\ 0 <= v_seen (vd k) < 2 ^ 16;
  po_ring : v_avail_ring (vd k) (v_seen (vd k) mod NUM) = r_i0 r;
  po_busy : v_busy (vd k) = [];
  po_used : v_used_head (vd k) = v_used_idx (vd k) /\ 0 <= v_used_idx (vd k) < 2 ^ 16
}.

(** The device has put it on the used ring. *)
Record answered (th : thread) (r : req) (k : kernel) : Prop := {
  an_chain : one_chain th r k;
  an_avail : v_avail_idx (vd k) = v_seen (vd k) /\ 0 <= v_seen (vd k) < 2 ^ 16;
  an_busy : v_busy (vd k) = [];
  an_used : v_used_head (vd k) = u16 (v_used_idx (vd k) + 1) /\ 0 <= v_used_idx (vd k) < 2 ^ 16;
  an_ring : v_used_ring (vd k) (v_used_idx (vd k) mod NUM) = r_i0 r;
  an_status : v_info_status (vd k) (r_i0 r) = 0
}.

(** The interrupt handler has told the process. *)
Record told (th : thread) (r : req) (k : kernel) : Prop := {
  to_chain : one_chain th r k;
  to_avail : v_avail_idx (vd k) = v_seen (vd k) /\ 0 <= v_seen (vd k) < 2 ^ 16;
  to_busy : v_busy (vd k) = [];
  to_used : v_used_head (vd k) = v_used_idx (vd k) /\ 0 <= v_used_idx (vd k) < 2 ^ 16;
  to_disk : b_disk (fs_buf (k_fs k) (th_b th)) = 0
}.

Lemma one_chain_ext th r k k' :
  one_chain th r k -> v_desc (vd k') = v_desc (vd k) -> v_ops (vd k') = v_ops (vd k) -> v_info_b (vd k') = v_info_b (vd k) ->
  v_free (vd k') = v_free (vd k) -> blockno k' (th_b th) = blockno k (th_b th) -> one_chain th r k'.
Proof.
  intros [c nd m f] E1 E2 E3 E4 E5. split; [by apply (chain_ok_ext _ _ k)|done|by rewrite E4..].
Qed.

Lemma posted_ext th r k k' : posted th r k -> vd k' = vd k -> k_fs k' = k_fs k -> posted th r k'.
Proof.
  intros [c a g b u] E F. split; rewrite ?E; try done. apply (one_chain_ext _ _ k); rewrite ?E; try done. unfold blockno. by rewrite F.
Qed.

Lemma told_ext th r k k' : told th r k -> vd k' = vd k -> k_fs k' = k_fs k -> told th r k'.
Proof.
  intros [c a b u d] E F. split; rewrite ?E, ?F; try done. apply (one_chain_ext _ _ k); rewrite ?E; try done. unfold blockno. by rewrite F.
Qed.

Lemma u16_next x : 0 <= x < 2 ^ 16 -> u16 (x + 1) <> x /\ 0 <= u16 (x + 1) < 2 ^ 16.
Proof. unfold u16. intros H. dlia. Qed.

(** The device fetches the request and serves it. *)
Lemma device_answers th r k :
  posted th r k ->
  exists k2 v, dev_spec k k2 /\ dev_spec k2 (set_fs (served th k) (set_vd v k)) /\ answered th r (set_fs (served th k) (set_vd v k)).
Proof.
  intros [Hc [Ha Hs] Hr Hb [Hu Hx]]. destruct (u16_next _ Hs) as [Hne Hs'].
  set (k2 := set_vd (dev_fetch (vd k)) k).
  assert (dev_spec k k2) as H1 by (apply Dev_fetch; [congruence|done]).
  assert (one_chain th r k2) as Hc2 by (by apply (one_chain_ext _ _ k)).
  assert (v_busy (vd k2) = [r_i0 r]) as Hb2 by (change (v_busy (vd k) ++ [v_avail_ring (vd k) (v_seen (vd k) mod NUM)] = [r_i0 r]); by rewrite Hb, Hr).
  pose proof (serve_request th r [] k2 (oc_chain _ _ _ Hc2)) as H2.
  exists k2. eexists. split; [done|]. split.
  - apply (Dev_serve _ _ [] (r_i0 r) []); [done|]. intros k1. cbn [app]. rewrite H2. intros [= <-]. reflexivity.
  - split; [|split; [exact Ha|exact Hs']|done| | |].
    + apply (one_chain_ext _ _ k); try done. unfold blockno. apply (served_buf th k).
    + split; [|exact Hx]. simpl. by rewrite Hu.
    + simpl. rewrite <- Hu. apply fn_lookup_insert.
    + simpl. apply fn_lookup_insert.
Qed.

(** The handler of the interrupt. *)
Lemma handler_tells th r k :
  answered th r k -> k_held k = [] ->
  exists ps', virtio_disk_intr k = Ret () (set_held [] (intr_done (th_b th) ps' (acked k))) /\ woke (ChanBuf (th_b th)) (k_ps k) ps' /\
    told th r (set_held [] (intr_done (th_b th) ps' (acked k))).
Proof.
  intros [Hc Ha Hb [Hu Hx] Hr Hst] Hh. destruct (intr_one k (r_i0 r) (th_b th) _ Hh eq_refl Hu Hx Hr Hst (co_b _ _ _ (oc_chain _ _ _ Hc))) as (ps' & Hi & Hw).
  exists ps'. split; [done|]. split; [done|]. split; [|done..| |].
  - apply (one_chain_ext _ _ k); try done. apply (intr_done_block (th_b th) ps' (acked k)).
  - split; [exact Hu|]. apply u16_next, Hx.
  - change (b_disk (fs_buf (k_fs (intr_done (th_b th) ps' (acked k))) (th_b th)) = 0). by rewrite intr_done_buf, decide_True.
Qed.

(** The process frees the descriptors. *)
Lemma finished_idle th r k : told th r k -> idle (finished r (vd k)).
Proof.
  intros [[_ _ Hm Hf] Ha Hb Hu _]. unfold finished. split.
  - intros i Hi. rewrite freed_all_free. destruct (decide (i ∈ r_descs r)); [done|by apply Hf].
  - by rewrite freed_all_df.
  - by rewrite freed_all_df.
  - by rewrite freed_all_df.
Qed.

Lemma process_finishes {W : Wakeups} m th r k :
  told th r k -> k_held k = [DiskLock] ->
  exists ps', cont_wait m (th_b th) (r_descs r) k = Ret () (set_held [] (set_ps ps' (set_vd (finished r (vd k)) k))) /\
    woke ChanDiskFree (k_ps k) ps'.
Proof.
  intros [[c nd Hm _] _ _ _ Hd] Hh. destruct (rw_finish_spec th r k c nd) as (ps' & Hrun & Hw); [|done|].
  { intros i Hi. destruct (Hm i Hi) as [? ?]. by split; [lia|]. }
  exists ps'. split; [|done].
  rewrite <- Hrun. unfold cont_wait. destruct m; cbn [rw_wait]; unfold mbind, M_bind; simpl; by rewrite Hd.
Qed.

(** The buffers and the disk after the request are those the ideal disk leaves. *)
Lemma same_transfer th k s :
  b_disk (fs_buf (k_fs k) (th_b th)) = 0 -> s = fs_upd_buf (th_b th) (set_b_disk 1) (k_fs k) ->
  let s' := fs_upd_buf (th_b th) (set_b_disk 0) (served th (set_fs s k)) in
  exists ki, ideal_disk (th_b th) (th_w th) k = Ret () ki /\ ki = set_fs (k_fs ki) k /\
    (forall c, fs_buf s' c = fs_buf (k_fs ki) c) /\ s' = fs_set_bufs (fs_buf s') (k_fs ki).
Proof.
  intros Hd -> s'. unfold s', served, blockno, bdata, ideal_disk. destruct (th_w th); (eexists; split; [reflexivity|]).
  - split; [done|]. split; [|unfold fs_upd_buf, fs_set_bufs; simpl; by rewrite !fn_lookup_insert]. intros c. simpl. destruct (decide (c = th_b th)) as [-> |Hc].
    + rewrite !fn_lookup_insert. destruct (fs_buf (k_fs k) (th_b th)). simpl in *. by subst.
    + by rewrite !fn_lookup_insert_ne.
  - split; [done|]. split; [|done]. intros c. simpl. destruct (decide (c = th_b th)) as [-> |Hc].
    + rewrite !fn_lookup_insert. destruct (fs_buf (k_fs k) (th_b th)). simpl in *. by subst.
    + by rewrite !fn_lookup_insert_ne.
Qed.

Section request.
Context {W : Wakeups} (p b : Z) (w : bool) (k : kernel).
Context (HW : (0 < wakeups)%nat) (Hidle : idle (vd k)) (Hheld : k_held k = []).
Context (Hp : 0 <= p < NPROC) (Hcur : ps_cur (k_ps k) = Some p).
Context (Hrun : p_state (ps_proc (k_ps k) p) = RUNNING /\ p_chan (ps_proc (k_ps k) p) = NoChan).
Context (Hn : 0 <= blockno k b < 2 ^ 31) (Hdisk : b_disk (fs_buf (k_fs k) b) = 0).

Let n : Z := blockno k b.

(** The state in which the request is the device's. *)
Definition waiting (i0 i1 i2 : Z) : kernel :=
  set_vd (submitted b w (2 * n) i0 i1 i2 (taken [i0; i1; i2] (vd k))) (flagged b 1 (set_held [DiskLock] k)).

Lemma call_sleeps :
  exists i0 i1 i2 f m, NoDup [i0; i1; i2] /\ (forall i, i ∈ [i0; i1; i2] -> 0 <= i < NUM) /\
    Virtio.virtio_disk_rw b w k = Yield (asleep p (ChanBuf b) (waiting i0 i1 i2)) f /\ resumes p f (cont_wait m b [i0; i1; i2]).
Proof.
  destruct (alloc3_desc_spec (set_held [DiskLock] k)) as [(i0 & i1 & i2 & Ha & Hnd & Hfr)|(_ & _ & _ & _ & _ & _ & l & Hl & Hl0)].
  - intros i Hi. right. by apply (id_free _ Hidle).
  - intros i. by intros [=]%list_elem_of_singleton.
  - assert (exists m, wakeups = S m) as [m Em] by (exists (pred wakeups); lia).
    destruct (bind_sleep (ChanBuf b) p (waiting i0 i1 i2) (rw_wait m b) (fun _ => rw_finish [i0; i1; i2]) Hcur eq_refl) as (f & Hy & Hf).
    exists i0, i1, i2, f, m. split; [done|]. split; [intros i Hi; by apply Hfr|]. split; [|done]. rewrite <- Hy.
    unfold Virtio.virtio_disk_rw. kpure. fold (blockno k b). fold n. cbv zeta.
    assert (u32 (n * (BSIZE / 512)) = 2 * n) as -> by (change (BSIZE / 512) with 2; rewrite u32_small by (unfold n; lia); lia).
    erewrite bind_eq by (apply acquire_eq; rewrite Hheld; apply not_elem_of_nil). cbv beta. rewrite Hheld.
    erewrite bind_eq; [|destruct wakeups; cbn [rw_alloc]; erewrite bind_eq by exact Ha; reflexivity]. cbv beta.
    erewrite bind_eq by apply rw_submit_eq. cbv beta. rewrite Em. cbn [rw_wait].
    change (vd (set_vd ?v ?x)) with v. fold (waiting i0 i1 i2). unfold mbind, M_bind. simpl. by rewrite fn_lookup_insert.
  - pose proof (id_free _ Hidle l Hl) as E. change (v_free (vd k) l = 0) in Hl0. congruence.
Qed.

Lemma waiting_posted f i0 i1 i2 :
  NoDup [i0; i1; i2] -> (forall i, i ∈ [i0; i1; i2] -> 0 <= i < NUM) ->
  posted (mkthread b w n [] f) (mkreq p i0 i1 i2) (waiting i0 i1 i2).
Proof.
  intros Hnd Hi. destruct Hidle as [If Ib [Ia Is] [Iu Ix]].
  pose proof (taken_df [i0; i1; i2] (vd k)) as Ht. pose proof (taken_free [i0; i1; i2] (vd k)) as Hf.
  unfold waiting. generalize dependent (taken [i0; i1; i2] (vd k)). intros v Ev Hf. split.
  - split; [|done| |].
    + apply (submitted_chain (mkthread b w n [] f)); [done|]. apply (flagged_block b 1 (set_held [DiskLock] k)).
    + intros i Hin. split; [by apply Hi|]. change (v_free v i = 0). by rewrite Hf, decide_True.
    + intros i Hr Hin. change (v_free v i = 1). rewrite Hf, decide_False by done. by apply If.
  - change (u16 (v_avail_idx v + 1) = u16 (v_seen v + 1) /\ 0 <= v_seen v < 2 ^ 16). rewrite Ev. simpl. by rewrite Ia.
  - change ((<[v_avail_idx v mod NUM := i0]> (v_avail_ring v)) (v_seen v mod NUM) = i0).
    assert (v_avail_idx v = v_seen v) as -> by (rewrite Ev; exact Ia). apply fn_lookup_insert.
  - change (v_busy v = []). by rewrite Ev.
  - change (v_used_head v = v_used_idx v /\ 0 <= v_used_idx v < 2 ^ 16). by rewrite Ev.
Qed.

(** A request through the driver does what the ideal disk does. *)
Lemma driver_is_disk :
  exists k' ki, served_request p b w k k' /\ ideal_disk b w k = Ret () ki /\ same_but_driver ki k' /\ idle (vd k').
Proof.
  destruct call_sleeps as (i0 & i1 & i2 & f & m & Hnd & Hi & Hy & Hf).
  set (th := mkthread b w n [] f). set (r := mkreq p i0 i1 i2).
  assert (posted th r (waiting i0 i1 i2)) as Hpost by (by apply waiting_posted).
  assert (exists s v, waiting i0 i1 i2 = set_vd v (set_held [DiskLock] (set_fs s k)) /\ s = fs_upd_buf b (set_b_disk 1) (k_fs k))
    as (s & v & Ew & Es) by (eexists _, _; split; reflexivity).
  generalize dependent (waiting i0 i1 i2). intros kw Hy Hpost Ew.
  set (k1 := switch_out (asleep p (ChanBuf b) kw)).
  destruct (device_answers th r k1) as (k2 & v3 & Hd1 & Hd2 & Hans); [by apply (posted_ext _ _ kw)|].
  set (k3 := set_fs (served th k1) (set_vd v3 k1)) in *.
  destruct (handler_tells th r k3 Hans eq_refl) as (ps' & Hin & Hwk & Htold). set (k4 := set_held [] _) in *.
  destruct (slept_and_woken (k_ps k) ps' p (ChanBuf b) Hcur) as [Hrn Hps]; [apply Hrun|apply Hrun|done|by subst kw|].
  set (k5 := resumed p DiskLock (switch_in p k4)).
  destruct (process_finishes m th r k5) as (ps2 & Hfin & [Hw2 _]); [by apply (told_ext _ _ k4)|done|].
  destruct (same_transfer th k s Hdisk Es) as (ki & Hki & Eki & Hbufs & Hfs).
  eexists _, ki. split; [|split; [exact Hki|]; split].
  - eapply Served; [exact Hy|exact Hd1|exact Hd2|exact Hin|exact Hrn|]. rewrite (Hf (switch_in p k4)) by done. exact Hfin.
  - subst kw. split; [rewrite Eki; destruct k; simpl in Hheld; by subst| |exact Hbufs|exact Hfs].
    rewrite Eki. etrans; [exact Hps|exact Hw2].
  - apply (finished_idle th r k5). by apply (told_ext _ _ k4).
Qed.

End request.


(** After [virtio_disk_init] the driver has no request. *)
Example init_idle : idle (vd VirtioDemo.k1).
Proof.
  split; [|vm_compute; intuition congruence..]. intros i Hi.
  assert (i = 0 \/ i = 1 \/ i = 2 \/ i = 3 \/ i = 4 \/ i = 5 \/ i = 6 \/ i = 7) as Hc by (change NUM with 8 in Hi; lia).
  by destruct Hc as [->|[->|[->|[->|[->|[->|[->| ->]]]]]]].
Qed.

Lemma vd_on c k : vd (on c k) = vd k.
Proof. done. Qed.

(** Process 5 reads block 7 into buffer 0. *)
Example read_is_disk :
  exists k' ki, served_request (W := 1%nat) 5 0 false (on (Some 5) VirtioDemo.k1) k' /\
    ideal_disk 0 false (on (Some 5) VirtioDemo.k1) = Ret () ki /\ same_but_driver ki k' /\ idle (vd k').
Proof.
  apply driver_is_disk.
  - unfold wakeups. lia.
  - rewrite vd_on. exact init_idle.
  - vm_compute. reflexivity.
  - by split.
  - reflexivity.
  - split; vm_compute; reflexivity.
  - split; vm_compute; congruence.
  - vm_compute. reflexivity.
Qed.
