(* ===== verification/MainProps.v ===== *)
(** * The kernel boots

    [main] on hart 0, from the zeroed memory the loader leaves, and then on
    the other harts. *)

From S2P Require Import Prelude Riscv Monad State Kstring Bytes Printf Kalloc Vm VmInv VmMap Uspace VmFree VmCopy VmProps Mmu Kvm AsmProps Proc ProcInv Umem Sleeplock Dlist Bio BioInv Virtio BioSpec Log Fs Dir Console Pipe File Fork ProcProps InodeProps VirtioInv VirtioSteps VirtioProps Userinit Exec Sysargs Sysproc Sysfile Syscall Trap Main.
#[local] Open Scope Z_scope.

#[local] Opaque memset memmove store64 load64 store_bytes kalloc kfree mappages acquire release.

(** ** What the writes to the devices' registers mean *)

(** The 16550 UART: while the latch bit of [LCR] is set, registers 0 and 1
    are the divisor. *)
Record uart := mkuart { ua_ier : Z; ua_lcr : Z; ua_fcr : Z; ua_dll : Z; ua_dlm : Z }.

Definition uart_write (u : uart) (w : Z * Z) : uart :=
  let latch := Z.testbit (ua_lcr u) 7 in
  if w.1 =? UART0 then if latch then mkuart (ua_ier u) (ua_lcr u) (ua_fcr u) w.2 (ua_dlm u) else u
  else if w.1 =? UART0 + 1 then
    if latch then mkuart (ua_ier u) (ua_lcr u) (ua_fcr u) (ua_dll u) w.2 else mkuart w.2 (ua_lcr u) (ua_fcr u) (ua_dll u) (ua_dlm u)
  else if w.1 =? UART0 + 2 then mkuart (ua_ier u) (ua_lcr u) w.2 (ua_dll u) (ua_dlm u)
  else if w.1 =? UART0 + 3 then mkuart (ua_ier u) w.2 (ua_fcr u) (ua_dll u) (ua_dlm u)
  else u.

Definition uart_after (ws : list (Z * Z)) : uart := foldl uart_write (mkuart 0 0 0 0 0) ws.

(** The last value written at [a]. *)
Definition plic_reg (ws : list (Z * Z)) (a : Z) : Z :=
  foldl (fun x w => if w.1 =? a then w.2 else x) 0 ws.

(** The PLIC gives the interrupt [irq] to [hart]: its priority is above the
    hart's threshold and its enable bit is set. *)
Definition plic_delivers (ws : list (Z * Z)) (hart irq : Z) : Prop :=
  plic_reg ws (PLIC_SPRIORITY hart) < plic_reg ws (PLIC + irq * 4) /\ Z.testbit (plic_reg ws (PLIC_SENABLE hart)) irq = true.

(** What the driver needs of the disk's registers. *)
Record disk_present (mmio : Z -> Z) : Prop := {
  dp_magic : mmio VIRTIO_MMIO_MAGIC_VALUE = 0x74726976;
  dp_version : mmio VIRTIO_MMIO_VERSION = 1;
  dp_device : mmio VIRTIO_MMIO_DEVICE_ID = 2;
  dp_vendor : mmio VIRTIO_MMIO_VENDOR_ID = 0x554d4551;
  dp_queue : NUM <= mmio VIRTIO_MMIO_QUEUE_NUM_MAX
}.

(** ** The functions of [main] *)

Lemma lift_eq {A} (c : K A) m a k : c (ma_kernel m) = Ret a k -> lift c m = Ret a (set_kernel k m).
Proof. unfold lift. by intros ->. Qed.

Lemma printf_message s k : Forall (fun c => is_byte c /\ c <> 37) s -> PrLock ∉ k_held k -> printf s [] k = Ret () (emit s k).
Proof.
  intros Hs Hl. apply printf_eq; [|done]. intros k'. rewrite <- (app_nil_r s) at 1. by rewrite printf_plain.
Qed.

(** A text without [%]. *)
Definition plain (s : list Z) : bool := forallb (fun c => (0 <=? c) && (c <? 256) && negb (c =? 37)) s.

Lemma plain_ok s : plain s = true -> Forall (fun c => is_byte c /\ c <> 37) s.
Proof.
  induction s as [|c s IH]; cbn [plain forallb]; [constructor|]. rewrite !andb_true_iff, Z.leb_le, Z.ltb_lt, negb_true_iff, Z.eqb_neq.
  intros [Hc Hs]. apply Forall_cons_2; [unfold is_byte; lia|by apply IH].
Qed.

Lemma printf_hart h k :
  0 <= h < 10 -> PrLock ∉ k_held k ->
  printf (str "hart %d starting" ++ [10]) [PInt h] k = Ret () (emit (str "hart " ++ [48 + h] ++ str " starting" ++ [10]) k).
Proof.
  intros Hh Hl. apply printf_eq; [|done]. intros k'.
  change (str "hart %d starting" ++ [10]) with (str "hart " ++ 37 :: 100 :: (str " starting" ++ [10])).
  rewrite printf_plain by (by apply plain_ok). cbn [printf_loop].
  assert (printint h 10 true (emit (str "hart ") k') = Ret () (emit [48 + h] (emit (str "hart ") k'))) as E.
  { unfold printint. assert (reverse (printint_buf h 10 true) = [48 + h]) as ->.
    { assert (h = 0 \/ h = 1 \/ h = 2 \/ h = 3 \/ h = 4 \/ h = 5 \/ h = 6 \/ h = 7 \/ h = 8 \/ h = 9) as Hc by lia.
      by destruct Hc as [-> |[-> |[-> |[-> |[-> |[-> |[-> |[-> |[-> | ->]]]]]]]]]. }
    apply consputs_eq. apply Forall_singleton. unfold is_byte. lia. }
  change (negb (37 =? 37)) with false. change (100 =? 100) with true. cbv iota. erewrite bind_eq by exact E. cbv beta.
  change (printf_loop ?s []) with (printf_loop (s ++ []) []). rewrite emit_app.
  rewrite printf_plain by (by apply plain_ok). rewrite emit_app. cbn [printf_loop]. by rewrite <- app_assoc.
Qed.

Section init.
Context {L : Layout} {LOk : LayoutOk L}.

Lemma procinit_loop_ok n : forall i k,
  exists ps', procinit_loop n i k = Ret () (set_ps ps' k) /\ ps_cur ps' = ps_cur (k_ps k) /\ ps_nextpid ps' = ps_nextpid (k_ps k) /\
    forall j, ps_proc ps' j = if decide (i <= j < i + Z.of_nat n) then set_kstack (KSTACK j) (ps_proc (k_ps k) j) else ps_proc (k_ps k) j.
Proof.
  induction n as [|n IH]; intros i k; cbn [procinit_loop].
  - exists (k_ps k). split; [by rewrite set_ps_id|]. split; [done|]. split; [done|]. intros j. rewrite decide_False; [done|lia].
  - kpure. destruct (IH (i + 1) (set_ps (ps_upd i (set_kstack (KSTACK i)) (k_ps k)) k)) as (ps' & Hrun & H1 & H2 & Hj). ksimp in H1. ksimp in H2.
    exists ps'. split; [exact Hrun|]. split; [done|]. split; [done|]. intros j. rewrite Hj. ksimp. destruct (decide (j = i)) as [-> |Hne].
    + rewrite decide_False, decide_True, ps_proc_upd_eq by lia. done.
    + rewrite ps_proc_upd_ne by done. repeat case_decide; try done; lia.
Qed.

Lemma iinit_loop_ok n : forall i k,
  exists s', iinit_loop n i k = Ret () (set_fs s' k) /\ fs_buf s' = fs_buf (k_fs k) /\ fs_disk s' = fs_disk (k_fs k) /\
    forall ip, i_ref (fs_inode s' ip) = i_ref (fs_inode (k_fs k) ip).
Proof.
  induction n as [|n IH]; intros i k; cbn [iinit_loop].
  - exists (k_fs k). split; [by rewrite set_fs_id|]. done.
  - kpure. destruct (IH (i + 1) (set_fs (fs_upd_inode i (set_i_lock (mksleeplock 0 0)) (k_fs k)) k)) as (s' & Hrun & H1 & H2 & H3).
    exists s'. split; [exact Hrun|]. split; [done|]. split; [done|]. intros ip. rewrite H3. ksimp. rewrite fs_inode_upd. case_decide; by subst.
Qed.

Lemma cold_buf s s' : fs_buf s' = fs_buf s -> fs_disk s' = fs_disk s -> cold s -> cold s'.
Proof.
  intros E Ed [(lru & Hl & [H1 H2 H3 H4 H5]) Hc]. split; [|by rewrite E]. exists lru. split; [unfold lru_list; rewrite E; exact Hl|].
  split; rewrite E; rewrite ?Ed; assumption.
Qed.

Lemma free_all_ret n : forall i k, exists k', free_all_loop n i k = Ret () k'.
Proof. induction n as [|n IH]; intros i k; cbn [free_all_loop]; [eauto|]. kpure. apply IH. Qed.

Lemma virtio_init_regs mmio pages rs v k :
  disk_present mmio -> exists w, virtio_disk_init mmio pages (set_vd (set_v_regs rs v) k) = Ret () (set_vd w k).
Proof.
  intros [E1 E2 E3 E4 Hq]. unfold virtio_disk_init. rewrite E1, E2, E3, E4. cbn [Z.eqb Pos.eqb negb orb]. cbv zeta.
  change NUM with 8 in *. rewrite (proj2 (Z.eqb_neq (mmio VIRTIO_MMIO_QUEUE_NUM_MAX) 0)) by lia.
  rewrite (proj2 (Z.ltb_ge (mmio VIRTIO_MMIO_QUEUE_NUM_MAX) 8)) by lia. rewrite !write_reg_eq. kpure.
  match goal with |- context [set_vd (clear_pages ?v) ?k0] => set (v1 := clear_pages v); change (set_vd v1 k0) with (set_vd v1 k) end.
  replace v1 with (set_v_regs (v_regs v1) v1) by (by destruct v1). rewrite write_reg_eq.
  match goal with |- context [free_all_loop ?n 0 ?k0] => destruct (free_all_ret n 0 k0) as [k' Hrun] end. rewrite Hrun.
  apply free_all_free in Hrun as (f & -> & _). eexists. reflexivity.
Qed.

Lemma virtio_init_ok mmio pages k : disk_present mmio -> exists w, virtio_disk_init mmio pages k = Ret () (set_vd w k).
Proof.
  intros Hd. destruct (virtio_init_regs mmio pages (v_regs (vd k)) (vd k) k Hd) as [w Hw]. exists w. rewrite <- Hw. f_equal.
  rewrite <- (set_vd_id k) at 1. by destruct (vd k).
Qed.

End init.

(** ** The first process, as the hardware sees it *)

Section first.
Context {L : Layout} {LOk : LayoutOk L}.

Lemma trampoline_pa : trampoline mod PGSIZE = 0 /\ 0 <= trampoline < 2 ^ 56.
Proof.
  destruct layout_bounds as (_ & _ & _ & Htr & Ha & _). change KERNBASE with 0x80000000 in Htr. change PHYSTOP with 0x88000000 in Htr. split; [done|lia].
Qed.

Lemma first_table p tf pg ip t l k k' : first_process p tf pg ip t l k k' -> user_table (k_mem k') t tf.
Proof.
  intros F. destruct (fp_vm _ _ _ _ _ _ _ _ F) as [_ Hr Hok _ _]. destruct (fp_tf _ _ _ _ _ _ _ _ F) as [Htf Hsep]. destruct (page_ok_pa tf Htf) as [? ?].
  split; try done. rewrite (fp_pte _ _ _ _ _ _ _ _ F) by by vm_compute. unfold proc_ptes. by rewrite decide_False, decide_True by by vm_compute.
Qed.

(** Its entries are leaves; only page 0 is the user's. *)
Lemma first_leaves p tf pg ip t l k k' va :
  first_process p tf pg ip t l k k' -> 0 <= va < MAXVA -> PGSIZE <= va ->
  let pte := pte_of (k_mem k') t va in pte = 0 \/ exists pa perm, leaf_pte pte pa perm /\ Z.testbit perm 4 = false.
Proof.
  intros F Hva Hlo pte. unfold pte. rewrite (fp_pte _ _ _ _ _ _ _ _ F), decide_False by (done || (unfold PGSIZE in *; dlia)). unfold proc_ptes.
  destruct (fp_tf _ _ _ _ _ _ _ _ F) as [Htf _]. destruct (page_ok_pa tf Htf) as [? ?]. destruct trampoline_pa as [? ?].
  case_decide; [right; exists tf, (Z.lor PTE_R PTE_W)|case_decide; [right; exists trampoline, (Z.lor PTE_R PTE_X)|by left]];
    (split; [|done]; split; try done; by left).
Qed.

Lemma first_user p tf pg ip t l k k' a va :
  first_process p tf pg ip t l k k' -> 0 <= va < PGSIZE -> sv39 (k_mem k') (MAKE_SATP (root t)) User a va = Some (pg + va).
Proof.
  intros F Hva. destruct (fp_vm _ _ _ _ _ _ _ _ F) as [_ Hr Hok _ _]. destruct (page_ok_pa pg (fp_pg _ _ _ _ _ _ _ _ F)) as [? ?].
  assert (0 <= va < MAXVA) as Hm by (rewrite MAXVA_eq; unfold PGSIZE in *; lia).
  assert (pte_of (k_mem k') t va = mkpte pg PTE_INIT) as E.
  { rewrite (fp_pte _ _ _ _ _ _ _ _ F), decide_True by (done || by rewrite !Z.div_small by done). done. }
  rewrite sv39_table; [|done|done|done|].
  - unfold mmu_view, permitted, PTE_U, PTE_R, PTE_W, PTE_X. rewrite E, pte_has_mkpte_V, !pte_has_mkpte_flag, PTE2PA_mkpte, Z.mod_small by (done || lia).
    by destruct a.
  - intros _. rewrite E. exists pg, PTE_INIT. split; try done; by left.
Qed.

Lemma first_user_end p tf pg ip t l k k' a va :
  first_process p tf pg ip t l k k' -> PGSIZE <= va < MAXVA -> sv39 (k_mem k') (MAKE_SATP (root t)) User a va = None.
Proof.
  intros F Hva. destruct (fp_vm _ _ _ _ _ _ _ _ F) as [_ Hr Hok _ _].
  assert (0 <= va < MAXVA) as Hm by (unfold PGSIZE in *; lia).
  pose proof (first_leaves _ _ _ _ _ _ _ _ va F Hm (proj1 Hva)) as Hl. cbv zeta in Hl. rewrite sv39_table; [|done|done|done|].
  - unfold mmu_view. destruct Hl as [-> |(pa & perm & [E _ Hpa Hperm _ _] & Hb)]; [by rewrite pte_has_0|].
    unfold permitted, PTE_U. rewrite E, pte_has_mkpte_flag, Hb by lia. by rewrite andb_false_r.
  - destruct Hl as [-> |(pa & perm & Hl & _)]; [by rewrite pte_has_0|eauto].
Qed.

End first.

(** ** The kernel after its initialisation *)

Record kernel_up {L : Layout} {W : Wakeups} (satp : Z) (k : kernel) : Prop := {
  ku_held : k_held k = [];
  ku_ram a va : a <> Fetch -> etext <= va < PHYSTOP \/ UART0 <= va < VIRTIO0 + PGSIZE \/ PLIC <= va < PLIC + 0x400000 ->
    sv39 (k_mem k) satp Supervisor a va = Some va;
  ku_text a va : KERNBASE <= va < etext -> sv39 (k_mem k) satp Supervisor a va = match a with Store => None | _ => Some va end;
  ku_trampoline off : 0 <= off < PGSIZE -> sv39 (k_mem k) satp Supervisor Fetch (TRAMPOLINE + off) = Some (trampoline + off);
  ku_stacks : exists stacks, length stacks = Z.to_nat NPROC /\ NoDup stacks /\ Forall page_ok stacks /\
    forall i pa a off, stacks !! i = Some pa -> a <> Fetch -> 0 <= off < PGSIZE ->
      sv39 (k_mem k) satp Supervisor a (KSTACK (Z.of_nat i) + off) = Some (pa + off);
  ku_guards p a va i : 0 <= i < NPROC -> KSTACK i - PGSIZE <= va < KSTACK i -> sv39 (k_mem k) satp p a va = None;
  ku_bcache : cold (k_fs k);
  ku_driver : minv (mkmach k (fun _ => None));
  ku_init : exists t tf ip, let x := ps_proc (k_ps k) 0 in
    ps_initproc (k_ps k) = Some 0 /\ p_state x = RUNNABLE /\ p_pid x = 1 /\ p_sz x = PGSIZE /\ p_pagetable x = root t /\ p_trapframe x = tf /\
    p_context x = mkcontext a_forkret (KSTACK 0 + PGSIZE) /\ p_cwd x = Some ip /\ entry_for ROOTDEV ROOTINO (k_fs k) ip /\
    user_table (k_mem k) t tf /\ load64 (k_mem k) (tf + tf_epc) = 0 /\ load64 (k_mem k) (tf + tf_sp) = PGSIZE /\
    (forall a va, 0 <= va < PGSIZE -> exists pa, sv39 (k_mem k) (MAKE_SATP (root t)) User a va = Some pa /\
       load8 (k_mem k) pa = default 0 (initcode !! Z.to_nat va)) /\
    (forall a va, PGSIZE <= va < MAXVA -> sv39 (k_mem k) (MAKE_SATP (root t)) User a va = None);
  ku_unused p : 0 < p < NPROC -> p_state (ps_proc (k_ps k) p) = UNUSED;
  ku_scheduler : exists s f, scheduler_round k = Yield s f /\ ps_cur (k_ps s) = Some 0 /\ p_state (ps_proc (k_ps s) 0) = RUNNING
}.

#[local] Opaque kinit kvmmake procinit_loop binit iinit_loop virtio_disk_init userinit.

Section up.
Context {L : Layout} {LOk : LayoutOk L}.

Lemma scheduler_first k :
  k_held k = [] -> p_state (ps_proc (k_ps k) 0) = RUNNABLE ->
  exists s f, scheduler_round k = Yield s f /\ ps_cur (k_ps s) = Some 0 /\ p_state (ps_proc (k_ps s) 0) = RUNNING.
Proof.
  intros Hh Hs. unfold scheduler_round. change (Z.to_nat NPROC) with (S 63). cbn [scheduler_loop].
  assert (exists s f, scheduler_try 0 k = Yield s f /\ ps_cur (k_ps s) = Some 0 /\ p_state (ps_proc (k_ps s) 0) = RUNNING) as (s & f & E & H).
  { unfold scheduler_try. erewrite bind_eq by (apply acquire_eq; rewrite Hh; apply not_elem_of_nil). cbv beta. kpure. ksimp. rewrite Hs.
    change (same_state RUNNABLE RUNNABLE) with true. cbv iota. eexists _, _. split; [reflexivity|]. ksimp. split; [done|].
    change (ps_proc (ps_set_cur (Some 0) ?p) 0) with (ps_proc p 0). by rewrite ps_proc_upd_eq. }
  unfold mbind at 1, M_bind. rewrite E. cbn [obind]. eauto.
Qed.

Lemma procinit_first ps :
  (forall j, ps_proc ps j = if decide (0 <= j < 0 + Z.of_nat (Z.to_nat NPROC)) then set_kstack (KSTACK j) proc0 else proc0) -> first_unused 0 ps.
Proof.
  intros Hps. split; [done|]. split; [|intros; lia]. rewrite Hps. by case_decide.
Qed.

(** The kernel's table and its structures after [userinit]. *)
Lemma kernel_up_from {W : Wakeups} k k' t stacks P tf pg ip u l :
  first_process 0 tf pg ip u l k k' -> keeps P k k' ->
  pt_rep (k_mem k) t -> Forall page_ok (pt_pages t) -> (forall p, p ∈ pt_pages t -> p ∉ P) ->
  length stacks = 64%nat -> NoDup stacks -> Forall page_ok stacks -> etext < PHYSTOP ->
  (forall va, 0 <= va < MAXVA -> pte_of (k_mem k) t va = km_ptes (fun _ => 0) (kernel_maps ++ stack_maps 0 stacks) va) ->
  cold (k_fs k) -> vinv [] [] [] [] (fun _ => None) k -> ps_nextpid (k_ps k) = 1 ->
  (forall j, ps_proc (k_ps k) j = if decide (0 <= j < 0 + Z.of_nat (Z.to_nat NPROC)) then set_kstack (KSTACK j) proc0 else proc0) ->
  kernel_up (MAKE_SATP (root t)) k'.
Proof.
  intros F K Hr Hok Hd Hst Hsnd Hsok He Hp Hcold Hv Hpid Hps. destruct (table_kept P k k' t K Hok Hd Hr) as [Hr' Hp'].
  assert (Forall page_ok (stacks ++ [])) as Hsok' by (by rewrite app_nil_r).
  destruct (kernel_mmu (k_mem k') t stacks [] Hr' Hok Hst Hsok' He) as (M1 & M2 & M3 & M4 & M5 & _); [intros va Hva; by rewrite Hp', Hp|].
  pose proof (first_table _ _ _ _ _ _ _ _ F) as Hut. destruct (fp_fs _ _ _ _ _ _ _ _ F) as [Efs Hip].
  destruct (fp_state _ _ _ _ _ _ _ _ F) as [Hs1 Hs2]. destruct (fp_sz _ _ _ _ _ _ _ _ F) as (Hz1 & Hz2 & Hz3). destruct (fp_epc _ _ _ _ _ _ _ _ F) as [He1 He2].
  split; [apply F|exact M1|exact M2|exact M3| |exact M5| | | | |].
  - exists stacks. split; [exact Hst|]. split; [exact Hsnd|]. split; [exact Hsok|exact M4].
  - rewrite Efs. by apply (cold_buf (k_fs k)).
  - exists [], [], [], []. cbn [mc_t mc_k]. split; [|split; [by intros []|split; [apply F|done]]]. apply (vinv_frame _ _ _ _ _ _ _ Hv).
    split; try done; [|by rewrite Efs]. unfold vd. rewrite (fp_io _ _ _ _ _ _ _ _ F). apply v_agree_refl.
  - exists u, tf, ip. cbv zeta. split; [apply F|]. split; [done|]. split; [by rewrite Hs2|]. split; [done|]. split; [done|]. split; [done|].
    split; [by rewrite (fp_context _ _ _ _ _ _ _ _ F), Hps|]. split; [apply F|]. split.
    { rewrite Efs. unfold root_entry, entry_for. rewrite !fs_inode_upd, !decide_True by done. done. }
    split; [done|]. split; [done|]. split; [done|]. split; [|intros a va Hva; by apply (first_user_end 0 tf pg ip u l k)].
    intros a va Hva. exists (pg + va). split; [by apply (first_user 0 tf pg ip u l k)|by apply F].
  - intros p Hp0. rewrite (fp_others _ _ _ _ _ _ _ _ F), Hps by lia. by case_decide.
  - apply scheduler_first; [apply F|done].
Qed.

(** The parts of the kernel's state that the boot of the page tables finds. *)
Lemma kernel_inits {W : Wakeups} {D : Disk} mmio pages k :
  k_held k = [] -> k_freelist k = 0 -> k_ps k = procsys0 -> k_fs k = fssys0 -> vd k = vdisk0 ->
  disk_present mmio -> 401 <= Z.of_nat (length all_pages) ->
  exists k1 q k2 k3 k4 k5 k6 k7, kinit k = Ret () k1 /\ kvmmake k1 = Ret q k2 /\ procinit k2 = Ret () k3 /\ binit k3 = Ret () k4 /\
    iinit k4 = Ret () k5 /\ virtio_disk_init mmio pages k5 = Ret () k6 /\ userinit k6 = Ret () k7 /\ kernel_up (MAKE_SATP q) k7 /\
    u_thr (k_io k7) = u_thr (k_io k).
Proof.
  intros Hh Hfl Hps Hfs Hvd Hdisk Hpages. assert (forall x, x ∉ k_held k) as Hno by (intros x; rewrite Hh; apply not_elem_of_nil).
  destruct (kinit_from k Hfl (Hno KmemLock)) as (m1 & f1 & Hr1 & Hf1). set (k1 := set_freelist f1 (set_mem m1 k)) in *.
  pose proof (length_rev all_pages) as Hlen. destruct (rev all_pages) as [|q l]; [cbn [length] in Hlen; lia|]. cbn [length] in Hlen.
  destruct (kvmmake_spec k1 q l Hf1 (Hno KmemLock) ltac:(lia)) as (k2 & t & l2 & stacks & Hr2 & <- & Hv2 & Hst & Hp2 & Hperm & (m2 & f2 & E2) & Hll).
  assert (k_held k2 = [] /\ k_ps k2 = procsys0 /\ k_fs k2 = fssys0 /\ k_io k2 = k_io k) as (Hh2 & Hps2 & Hfs2 & Hio2) by (rewrite E2; unfold k1; ksimp; done).
  clear E2.
  destruct (procinit_loop_ok (Z.to_nat NPROC) 0 k2) as (ps3 & Hr3 & Hcur3 & Hpid3 & Hps3). rewrite Hps2 in Hcur3, Hpid3, Hps3.
  set (k3 := set_ps ps3 k2) in *.
  destruct (binit_cold k3) as (s4 & Hr4 & Hcold4 & [f4 E4]); [unfold k3; ksimp; rewrite Hfs2; done|]. set (k4 := set_fs s4 k3) in *.
  destruct (iinit_loop_ok (Z.to_nat NINODE) 0 k4) as (s5 & Hr5 & Eb5 & Ed5 & Hi5). set (k5 := set_fs s5 k4) in *.
  destruct (virtio_init_ok mmio pages k5 Hdisk) as (v & Hr6). set (k6 := set_vd v k5) in *.
  assert (vd k5 = vdisk0) as Hvd5 by (unfold vd, k5, k4, k3; ksimp; by rewrite Hio2).
  destruct (vinv_init mmio pages k5 k6 Hr6 Hvd5) as [Hvi6 _].
  assert (k_held k6 = []) as Hh6 by done. assert (forall i, i_ref (fs_inode (k_fs k6) i) = 0) as Hi6.
  { intros i. change (i_ref (fs_inode s5 i) = 0). rewrite Hi5. unfold k4. ksimp. rewrite E4. unfold k3. ksimp. by rewrite Hfs2. }
  assert (free_pages k6 l2) as Hf6 by (eapply free_pages_ext; [| |apply Hv2]; done).
  destruct l2 as [|tf [|atf [|r l2]]]; [cbn [length] in Hll; lia..|]. cbn [length] in Hll.
  assert (forall i, ps_proc (k_ps k6) i = ps_proc ps3 i) as Hps6 by done.
  assert (first_unused 0 (k_ps k6)) as Hu by (exact (procinit_first ps3 Hps3)).
  destruct (userinit_ok 0 k6 tf atf r l2 Hu Hh6 Hf6 ltac:(lia) ltac:(auto)) as (k7 & u & pg & ip & l7 & Hr7 & F & K7).
  exists k1, (root t), k2, k3, k4, k5, k6, k7. split; [exact Hr1|]. split; [exact Hr2|]. split; [exact Hr3|]. split; [exact Hr4|].
  split; [exact Hr5|]. split; [exact Hr6|]. split; [exact Hr7|]. clear Hr1 Hr2 Hr3 Hr4 Hr5 Hr6 Hr7. split.
  - pose proof Hv2 as [_ Hrt Hokt Hnd _]. pose proof (fp_ok _ _ Hf1) as Hall. pose proof (fp_nodup _ _ Hf1) as Hallnd. rewrite <- Hperm in Hallnd. rewrite <- Hperm, !Forall_app in Hall. destruct Hall as (_ & Hsok & _).
    eapply (kernel_up_from k6 k7 t stacks); [exact F|exact K7|exact Hrt|exact Hokt| |exact Hst| |exact Hsok| |exact Hp2| |exact Hvi6| |exact Hps3].
    + intros p Hpt Hin. apply NoDup_app in Hnd as (_ & Hnd & _). exact (Hnd p Hpt Hin).
    + apply NoDup_app in Hallnd as (_ & _ & Hallnd). by apply NoDup_app in Hallnd as (? & _).
    + assert (page_ok (root t)) as (_ & ? & ?) by (eapply free_pages_nonzero; [exact Hf1|apply list_elem_of_here]). pose proof etext_range. lia.
    + by apply (cold_buf s4).
    + exact Hpid3.
  - rewrite (fp_io _ _ _ _ _ _ _ _ F). change (u_thr (k_io k6)) with (u_thr (k_io k2)). by rewrite Hio2.
Qed.

End up.

(** The registers that [main] of hart 0 has written. *)
Definition boot_regs : list (Z * Z) :=
  [(UART0 + 1, 0); (UART0 + 3, 128); (UART0, 3); (UART0 + 1, 0); (UART0 + 3, 3); (UART0 + 2, 7); (UART0 + 1, 3);
   (PLIC + 40, 1); (PLIC + 4, 1); (PLIC + 0x2080, 0x402); (PLIC + 0x201000, 0)].

Lemma plic_hart h ws irq :
  0 <= h < 8 -> irq = UART0_IRQ \/ irq = VIRTIO0_IRQ -> plic_reg ws (PLIC + irq * 4) = 1 ->
  plic_delivers (ws ++ [(PLIC_SENABLE h, 0x402); (PLIC_SPRIORITY h, 0)]) h irq.
Proof.
  intros Hh Hi Hp. unfold plic_delivers, plic_reg in *. rewrite !foldl_app. cbn [foldl fst snd]. rewrite Hp, !Z.eqb_refl.
  assert (forall x y, x <> y -> (x =? y) = false) as Hne by (intros; by apply Z.eqb_neq).
  unfold PLIC_SENABLE, PLIC_SPRIORITY, PLIC, UART0_IRQ, VIRTIO0_IRQ in *.
  destruct Hi as [-> | ->]; rewrite !Hne by lia; split; (done || lia).
Qed.

Section boots.
Context {L : Layout} {LOk : LayoutOk L} {W : Wakeups} {D : Disk}.

#[local] Opaque printf.

Lemma main_hart0 spins mmio pages :
  disk_present mmio -> 401 <= Z.of_nat (length all_pages) ->
  exists k q, main 0 spins mmio pages machine0 =
      Ret () (mkmachine k q 1 (<[0 := MAKE_SATP q]> (fun _ => 0)) (<[0 := a_kernelvec]> (fun _ => 0)) boot_regs) /\
    kernel_up (MAKE_SATP q) k /\ u_thr (k_io k) = [10] ++ str "xv6 kernel is booting" ++ [10; 10].
Proof.
  intros Hd Hp. set (kb := set_io (set_pr_locking 1 iosys0) boot).
  set (t1 := [10]). set (t2 := str "xv6 kernel is booting" ++ [10]).
  assert (printf t1 [] kb = Ret () (emit t1 kb)) as P1 by (apply printf_message; [by apply plain_ok|apply not_elem_of_nil]).
  assert (printf t2 [] (emit t1 kb) = Ret () (emit t2 (emit t1 kb))) as P2 by (apply printf_message; [by apply plain_ok|apply not_elem_of_nil]).
  assert (printf t1 [] (emit t2 (emit t1 kb)) = Ret () (emit t1 (emit t2 (emit t1 kb)))) as P3 by (apply printf_message; [by apply plain_ok|apply not_elem_of_nil]).
  destruct (kernel_inits mmio pages (emit t1 (emit t2 (emit t1 kb))) eq_refl eq_refl eq_refl eq_refl eq_refl Hd Hp) as (k1 & q & k2 & k3 & k4 & k5 & k6 & k7 & R1 & R2 & R3 & R4 & R5 & R6 & R7 & Hup & Hthr).
  exists k7, q. split; [|split; [exact Hup|by rewrite Hthr]].
  unfold main. change (0 =? 0) with true. cbv iota. kpure. kpure. cbn [set_kernel ma_kernel].
  do 3 (erewrite bind_eq by (apply lift_eq; first [exact P1|exact P2|exact P3]); cbv beta).
  erewrite bind_eq by (apply lift_eq; exact R1). cbv beta. unfold kvminit.
  erewrite bind_eq by (erewrite bind_eq by (apply lift_eq; exact R2); reflexivity). cbv beta. kpure.
  erewrite bind_eq by (apply lift_eq; exact R3). cbv beta. kpure. kpure. kpure.
  do 3 (erewrite bind_eq by (apply lift_eq; first [exact R4|exact R5|exact R6]); cbv beta).
  erewrite bind_eq by (apply lift_eq; exact R7). reflexivity.
Qed.

(** C11: The kernel boots. From the zeroed memory, on a machine with the disk's
    registers and 401 free pages, [main] of hart 0 ends without panic. It has
    printed its banner; the UART runs with 8 bits and divisor 3 and raises
    its interrupts, which, like the disk's, the PLIC gives to the hart;
    [stvec] is [kernelvec]. Through [satp] the kernel sees the RAM, its text
    and the devices where they are, and the kernel stacks of the 64
    processes, each in a page of its own above an unmapped page. The buffer
    cache and the disk driver satisfy their invariants. Process 0 is the only
    one: in its address space are the bytes of [initcode] at 0, followed by
    zeroes to the end of the page, and nothing else a user can reach; it
    starts at 0 with the stack pointer at the end of the page; its directory
    is the root; and it is what [scheduler] switches to. Another hart that
    reached [main] earlier waits, and then goes on with the same page table,
    traps and interrupts, having changed nothing in the kernel but the
    console's output. *)
Theorem main_boots spins mmio pages :
  disk_present mmio -> 401 <= Z.of_nat (length all_pages) ->
  exists m, main 0 spins mmio pages machine0 = Ret () m /\
    u_thr (k_io (ma_kernel m)) = [10] ++ str "xv6 kernel is booting" ++ [10; 10] /\
    uart_after (ma_regs m) = mkuart 3 3 7 3 0 /\ kernel_up (ma_satp m 0) (ma_kernel m) /\ ma_stvec m 0 = a_kernelvec /\
    plic_delivers (ma_regs m) 0 UART0_IRQ /\ plic_delivers (ma_regs m) 0 VIRTIO0_IRQ /\
    forall h, 0 < h < 8 -> exists resume m', main h (S spins) mmio pages machine0 = Yield machine0 resume /\ resume m = Ret () m' /\
      ma_kernel m' = emit (str "hart " ++ [48 + h] ++ str " starting" ++ [10]) (ma_kernel m) /\
      ma_satp m' h = ma_satp m 0 /\ ma_satp m' 0 = ma_satp m 0 /\ ma_stvec m' h = a_kernelvec /\
      plic_delivers (ma_regs m') h UART0_IRQ /\ plic_delivers (ma_regs m') h VIRTIO0_IRQ.
Proof.
  intros Hd Hp. destruct (main_hart0 spins mmio pages Hd Hp) as (k & q & Hrun & Hup & Hthr). eexists. split; [exact Hrun|]. clear Hrun.
  cbn [ma_kernel ma_regs ma_satp ma_stvec]. rewrite !fn_lookup_insert. split; [exact Hthr|]. split; [by vm_compute|]. split; [exact Hup|].
  split; [done|]. split; [by vm_compute|]. split; [by vm_compute|]. intros h Hh.
  assert (h =? 0 = false) as E0 by (apply Z.eqb_neq; lia).
  eexists _, _. split; [unfold main; rewrite E0; reflexivity|]. split.
  { destruct spins; cbn [obind wait_started]; (erewrite bind_eq by reflexivity); cbn [started Z.eqb]; cbn [mret M_ret obind];
    (erewrite bind_eq by (apply lift_eq, printf_hart; [lia|cbn [ma_kernel]; rewrite (ku_held _ _ Hup); apply not_elem_of_nil])); reflexivity. }
  cbn [push_reg set_stvec set_satp set_kernel ma_kernel ma_satp ma_stvec ma_regs kernel_pagetable].
  rewrite !fn_lookup_insert, !fn_lookup_insert_ne, fn_lookup_insert, <- app_assoc by lia.
  split; [done|]. split; [done|]. split; [done|]. split; [done|].
  split; (apply plic_hart; [lia|by (left + right)|by vm_compute]).
Qed.

End boots.

Definition qemu_mmio (r : Z) : Z :=
  if r =? VIRTIO_MMIO_MAGIC_VALUE then 0x74726976 else if r =? VIRTIO_MMIO_VERSION then 1 else if r =? VIRTIO_MMIO_DEVICE_ID then 2
  else if r =? VIRTIO_MMIO_VENDOR_ID then 0x554d4551 else if r =? VIRTIO_MMIO_QUEUE_NUM_MAX then 1024 else 0.

(** The disk of QEMU's [virt] machine, and 500 free pages. *)
Lemma main_boots_witness :
  exists m, main (L := small_layout) (W := 3%nat) (D := ideal_disk) 0 0 qemu_mmio 0x80010000 machine0 = Ret () m /\
    sv39 (k_mem (ma_kernel m)) (ma_satp m 0) Supervisor Store 0x80100000 = Some 0x80100000 /\
    exists s f, scheduler_round (ma_kernel m) = Yield s f /\ ps_cur (k_ps s) = Some 0.
Proof.
  destruct (main_boots (L := small_layout) (LOk := small_layout_ok) (W := 3%nat) (D := ideal_disk) 0 qemu_mmio 0x80010000)
    as (m & Hrun & _ & _ & Hup & _).
  - split; done.
  - vm_compute. congruence.
  - exists m. split; [exact Hrun|]. split.
    + apply (ku_ram _ _ Hup Store); [discriminate|]. left. vm_compute. split; congruence.
    + destruct (ku_scheduler _ _ Hup) as (s & f & E & Hc & _). exists s, f. split; [exact E|exact Hc].
Defined.
