(* ===== verification/Ulib.v ===== *)
(** * The user library ([user/ulib.c])

    User memory is a map from addresses to bytes, as for [string.c]. The
    loops that run to the end of a string have an explicit bound on their
    iterations; [None] is running past it. *)

From S2P Require Import Prelude Riscv Monad State Kstring.
#[local] Open Scope Z_scope.

Fixpoint strcpy (fuel : nat) (m : mem) (s t : Z) : option mem :=
  match fuel with
  | O => None
  | S fuel =>
      let c := load8 m t in
      let m := store8 m s c in
      if c =? 0 then Some m else strcpy fuel m (s + 1) (t + 1)
  end.

Fixpoint strcmp (fuel : nat) (m : mem) (p q : Z) : option Z :=
  match fuel with
  | O => None
  | S fuel =>
      if truthy (load8 m p) && (load8 m p =? load8 m q) then strcmp fuel m (p + 1) (q + 1)
      else Some (load8 m p - load8 m q)
  end.

Fixpoint strlen_from (fuel : nat) (m : mem) (s n : Z) : option Z :=
  match fuel with
  | O => None
  | S fuel => if load8 m (s + n) =? 0 then Some n else strlen_from fuel m s (n + 1)
  end.

Definition strlen (fuel : nat) (m : mem) (s : Z) : option Z := strlen_from fuel m s 0.

(** The loop is the one of the kernel's [memset]. *)
Definition memset (m : mem) (dst c n : Z) : mem := memset_loop m dst c 0 (Z.to_nat n).

Fixpoint strchr (fuel : nat) (m : mem) (s c : Z) : option Z :=
  match fuel with
  | O => None
  | S fuel =>
      if load8 m s =? 0 then Some 0
      else if load8 m s =? c then Some s
      else strchr fuel m (s + 1) c
  end.

(** The results of the calls [read(0, &c, 1)]: a byte, or [None] when less
    than one byte was read; nothing is left after the last one. *)
Definition input : Type := list (option Z).

Definition read1 (inp : input) : option Z * input :=
  match inp with
  | [] => (None, [])
  | r :: inp => (r, inp)
  end.

(** The loop of [gets], [n] more bytes fitting in the buffer: the memory,
    [i], and the input that is left. *)
Fixpoint gets_loop (n : nat) (m : mem) (buf i : Z) (inp : input) : mem * Z * input :=
  match n with
  | O => (m, i, inp)
  | S n =>
      let '(r, inp) := read1 inp in
      match r with
      | None => (m, i, inp)
      | Some c =>
          let m := store8 m (buf + i) c in
          if (c =? 10) || (c =? 13) then (m, i + 1, inp)
          else gets_loop n m buf (i + 1) inp
      end
  end.

Definition gets (m : mem) (buf max : Z) (inp : input) : mem * input :=
  let '(m, i, inp) := gets_loop (Z.to_nat (max - 1)) m buf 0 inp in
  (store8 m (buf + i) 0, inp).

(** [stat], over the system calls [open], [fstat] and [close] of a process in
    state [os]; the structure [fstat] fills in is its second result. *)
Section stat.
Context {os st : Type}.
Context (open : list Z -> Z -> os -> Z * os) (fstat : Z -> os -> Z * st) (close : Z -> os -> Z * os).

Definition stat (n : list Z) (st0 : st) (o : os) : Z * st * os :=
  let '(fd, o) := open n 0 o in
  if fd <? 0 then (-1, st0, o)
  else
    let '(r, s) := fstat fd o in
    let '(_, o) := close fd o in
    (r, s, o).
End stat.

(** Signed arithmetic on 32 bits. *)
Fixpoint atoi_loop (fuel : nat) (m : mem) (s n : Z) : option Z :=
  match fuel with
  | O => None
  | S fuel =>
      if (48 <=? load8 m s) && (load8 m s <=? 57) then atoi_loop fuel m (s + 1) (s32 (n * 10 + load8 m s - 48))
      else Some n
  end.

Definition atoi (fuel : nat) (m : mem) (s : Z) : option Z := atoi_loop fuel m s 0.

(** The copying loops are the ones of the kernel's [memmove]. *)
Definition memmove (m : mem) (vdst vsrc n : Z) : mem :=
  if vdst <? vsrc then copy_forward m vdst vsrc (Z.to_nat n)
  else copy_backward m (vdst + n) (vsrc + n) (Z.to_nat n).

Fixpoint memcmp_from (n : nat) (m : mem) (p1 p2 : Z) : Z :=
  match n with
  | O => 0
  | S n =>
      if negb (load8 m p1 =? load8 m p2) then load8 m p1 - load8 m p2
      else memcmp_from n m (p1 + 1) (p2 + 1)
  end.

Definition memcmp (m : mem) (s1 s2 n : Z) : Z := memcmp_from (Z.to_nat n) m s1 s2.

(** [n] becomes an [int]. *)
Definition memcpy (m : mem) (dst src n : Z) : mem := memmove m dst src (s32 n).

(** ** Strings in memory *)

(** The C string [t] is at [s]. *)
Definition str_at (m : mem) (s : Z) (t : list Z) : Prop :=
  load_bytes m s (length t) = t /\ load8 m (s + Z.of_nat (length t)) = 0 /\ Forall (fun c => c <> 0) t.

Lemma str_at_nil m s : str_at m s [] <-> load8 m s = 0.
Proof. unfold str_at. simpl. rewrite Z.add_0_r. split; [by intros (_ & ? & _)|done]. Qed.

Lemma str_at_cons m s c t : str_at m s (c :: t) <-> load8 m s = c /\ c <> 0 /\ str_at m (s + 1) t.
Proof.
  unfold str_at. cbn [load_bytes length]. rewrite Forall_cons, Nat2Z.inj_succ.
  replace (s + Z.succ (Z.of_nat (length t))) with (s + 1 + Z.of_nat (length t)) by lia.
  split; [intros ([= -> ->] & ? & ? & ?); auto|]. intros (<- & ? & -> & ? & ?). auto.
Qed.

Lemma str_at_ext m m' s t :
  str_at m s t -> (forall a, s <= a <= s + Z.of_nat (length t) -> load8 m' a = load8 m a) -> str_at m' s t.
Proof.
  intros (H1 & H2 & H3) Hext. split; [|split; [rewrite Hext by lia; done|done]].
  rewrite <- H1 at 2. apply load_bytes_ext. intros. apply Hext. lia.
Qed.

Lemma strcpy_spec t : forall fuel m s s', str_at m s' t -> (length t < fuel)%nat ->
  (s + Z.of_nat (length t) < s' \/ s' + Z.of_nat (length t) < s) ->
  exists m', strcpy fuel m s s' = Some m' /\ str_at m' s t /\
    forall a, ~ (s <= a <= s + Z.of_nat (length t)) -> load8 m' a = load8 m a.
Proof.
  induction t as [|c t IH]; intros fuel m s s' Hs Hf Hd; (destruct fuel as [|fuel]; [simpl in Hf; lia|]); cbn [strcpy].
  - apply str_at_nil in Hs. rewrite Hs. eexists. split; [reflexivity|]. simpl. split.
    + apply str_at_nil. by rewrite load8_store8_eq.
    + intros a Ha. apply load8_store8_ne. lia.
  - apply str_at_cons in Hs as (Hc & Hc0 & Hs). rewrite Hc, (proj2 (Z.eqb_neq _ _)) by done. cbn [length] in *.
    destruct (IH fuel (store8 m s c) (s + 1) (s' + 1)) as (m' & -> & Hs' & Ho); [|lia|lia|].
    { eapply str_at_ext; [exact Hs|]. intros a Ha. apply load8_store8_ne. lia. }
    exists m'. split; [done|]. split.
    + apply str_at_cons. split_and!; [|done..]. rewrite Ho, load8_store8_eq by lia. rewrite <- Hc. apply u8_load8.
    + intros a Ha. rewrite Ho by lia. apply load8_store8_ne. lia.
Qed.

Lemma strcmp_spec t : forall fuel m p q t', str_at m p t -> str_at m q t' -> (length t < fuel)%nat ->
  exists r, strcmp fuel m p q = Some r /\ (r = 0 <-> t = t').
Proof.
  induction t as [|c t IH]; intros fuel m p q t' Hp Hq Hf; (destruct fuel as [|fuel]; [simpl in Hf; lia|]); cbn [strcmp].
  - apply str_at_nil in Hp. rewrite Hp. cbn. eexists. split; [reflexivity|]. destruct t' as [|c' t'].
    + apply str_at_nil in Hq. rewrite Hq. done.
    + apply str_at_cons in Hq as (Hq & H0 & _). split; [lia|done].
  - apply str_at_cons in Hp as (Hp & Hc & Hp'). rewrite Hp. rewrite (proj2 (truthy_true _)) by done. cbn [andb].
    destruct t' as [|c' t'].
    + apply str_at_nil in Hq. rewrite Hq, (proj2 (Z.eqb_neq _ _)) by done. eexists. split; [reflexivity|]. split; [lia|done].
    + apply str_at_cons in Hq as (Hq & Hc' & Hq'). rewrite Hq. destruct (Z.eqb_spec c c') as [->|Hne].
      * destruct (IH fuel m (p + 1) (q + 1) t' Hp' Hq') as (r & -> & Hr); [simpl in Hf; lia|].
        exists r. split; [done|]. rewrite Hr. split; [congruence|]. by intros [= ->].
      * eexists. split; [reflexivity|]. split; [lia|]. congruence.
Qed.

Lemma strlen_from_spec t : forall fuel m s n, str_at m (s + n) t -> (length t < fuel)%nat ->
  strlen_from fuel m s n = Some (n + Z.of_nat (length t)).
Proof.
  induction t as [|c t IH]; intros fuel m s n Hs Hf; (destruct fuel as [|fuel]; [simpl in Hf; lia|]); cbn [strlen_from].
  - apply str_at_nil in Hs. rewrite Hs. cbn. f_equal. lia.
  - apply str_at_cons in Hs as (Hc & Hc0 & Hs). rewrite Hc, (proj2 (Z.eqb_neq _ _)) by done. cbn [length] in *.
    rewrite IH; [f_equal; lia| |lia]. by replace (s + (n + 1)) with (s + n + 1) by lia.
Qed.

Lemma strlen_spec fuel m s t : str_at m s t -> (length t < fuel)%nat -> strlen fuel m s = Some (Z.of_nat (length t)).
Proof. intros Hs Hf. unfold strlen. rewrite (strlen_from_spec t); [done|by rewrite Z.add_0_r|done]. Qed.

(** [memmove] of the library and [memmove] of the kernel choose the direction
    of the copy differently and have the same effect. *)
Lemma memmove_same_as_kernel m dst src n a :
  0 <= n -> load8 (memmove m dst src n) a = load8 (Kstring.memmove m dst src n) a.
Proof.
  intros Hn. rewrite load8_memmove by done. unfold memmove. cases_if.
  - rewrite load8_copy_forward by lia. by repeat case_decide; try lia.
  - rewrite load8_copy_backward by lia. repeat case_decide; try lia; f_equal; lia.
Qed.

(** ** gets *)

(** The line [gets] takes from the input: at most [n] bytes, up to and with
    the first end of line. *)
Fixpoint line_of (n : nat) (inp : input) : list Z * input :=
  match n with
  | O => ([], inp)
  | S n =>
      match inp with
      | [] => ([], [])
      | None :: inp => ([], inp)
      | Some c :: inp =>
          if (c =? 10) || (c =? 13) then ([c], inp)
          else let '(l, inp) := line_of n inp in (c :: l, inp)
      end
  end.

Lemma length_line_of n inp : (length (line_of n inp).1 <= n)%nat.
Proof.
  revert inp. induction n as [|n IH]; intros [|[c|] inp]; cbn [line_of]; try (simpl; lia).
  destruct ((c =? 10) || (c =? 13)); [simpl; lia|]. specialize (IH inp). destruct (line_of n inp). simpl in *. lia.
Qed.

Lemma gets_loop_spec n : forall m buf i inp l inp', line_of n inp = (l, inp') -> Forall (fun c => 0 <= c < 256) l ->
  exists m', gets_loop n m buf i inp = (m', i + Z.of_nat (length l), inp') /\
    load_bytes m' (buf + i) (length l) = l /\
    forall a, ~ (buf + i <= a < buf + i + Z.of_nat (length l)) -> load8 m' a = load8 m a.
Proof.
  induction n as [|n IH]; intros m buf i inp l inp' Hl Hb; cbn [line_of gets_loop] in *.
  { injection Hl as <- <-. exists m. simpl. rewrite Z.add_0_r. done. }
  destruct inp as [|[c|] inp]; cbn [read1].
  - injection Hl as <- <-. exists m. simpl. by rewrite Z.add_0_r.
  - destruct ((c =? 10) || (c =? 13)).
    + injection Hl as <- <-. eexists. split; [reflexivity|]. apply Forall_cons in Hb as [Hc _]. cbn [length load_bytes]. split.
      * rewrite load8_store8_eq. f_equal. apply u8_small. lia.
      * intros a Ha. apply load8_store8_ne. lia.
    + destruct (line_of n inp) as [l1 inp1] eqn:E. injection Hl as <- <-. apply Forall_cons in Hb as [Hc Hb].
      destruct (IH (store8 m (buf + i) c) buf (i + 1) inp l1 inp1 E Hb) as (m' & -> & Hm & Ho). exists m'. cbn [length load_bytes].
      split; [do 2 f_equal; lia|]. replace (buf + i + 1) with (buf + (i + 1)) by lia. split.
      * rewrite Hm, Ho, load8_store8_eq by lia. f_equal. apply u8_small. lia.
      * intros a Ha. rewrite Ho by lia. apply load8_store8_ne. lia.
  - injection Hl as <- <-. exists m. simpl. by rewrite Z.add_0_r.
Qed.

Lemma gets_spec m buf max inp l inp' :
  0 < max -> line_of (Z.to_nat (max - 1)) inp = (l, inp') -> Forall (fun c => 0 < c < 256) l ->
  exists m', gets m buf max inp = (m', inp') /\ str_at m' buf l /\
    forall a, ~ (buf <= a < buf + max) -> load8 m' a = load8 m a.
Proof.
  intros Hmax Hl Hb. assert (Forall (fun c => 0 <= c < 256) l) as Hb' by (eapply Forall_impl; [exact Hb|]; simpl; lia).
  pose proof (length_line_of (Z.to_nat (max - 1)) inp) as Hlen. rewrite Hl in Hlen. simpl in Hlen.
  destruct (gets_loop_spec _ m buf 0 inp l inp' Hl Hb') as (m' & E & Hm & Ho). unfold gets. rewrite E.
  eexists. split; [reflexivity|]. rewrite Z.add_0_l, Z.add_0_r in *. split.
  - split_and!.
    + etransitivity; [|exact Hm]. apply load_bytes_ext. intros. apply load8_store8_ne. lia.
    + by rewrite load8_store8_eq.
    + eapply Forall_impl; [exact Hb|]. simpl. lia.
  - intros a Ha. rewrite load8_store8_ne, Ho by lia. done.
Qed.
