(* ===== verification/Uprintf.v ===== *)
(** * Formatted output of user programs ([user/printf.c])

    The result of a function that prints is the list of the bytes it writes
    with [putc], one system call [write] of one byte each. A string argument
    is the list of its bytes before the NUL. *)

From S2P Require Import Prelude Riscv Monad State Kstring Ulib.
#[local] Open Scope Z_scope.

Definition putc (c : Z) : list Z := [u8 c].

Definition udigits : list Z := str "0123456789ABCDEF".
Definition udigit (d : Z) : Z := default 0 (udigits !! Z.to_nat d).

(** The loop [do ... while((x /= base) != 0)], least significant digit first;
    10 decimal digits are enough for 32 bits. *)
Fixpoint uprintint_digits (fuel : nat) (x base : Z) : list Z :=
  match fuel with
  | O => []
  | S fuel =>
      udigit (x mod base) :: (if x / base =? 0 then [] else uprintint_digits fuel (x / base) base)
  end.

Definition uprintint (xx base : Z) (sgn : bool) : list Z :=
  let neg := sgn && (xx <? 0) in
  let x := if neg then u32 (- xx) else u32 xx in
  let buf := uprintint_digits 32 x base ++ (if neg then [45] else []) in
  mjoin (putc <$> reverse buf).

Fixpoint uprintptr_loop (n : nat) (x : Z) : list Z :=
  match n with
  | O => []
  | S n => putc (udigit (Z.shiftr x 60)) ++ uprintptr_loop n (u64 (Z.shiftl x 4))
  end.

Definition uprintptr (x : Z) : list Z := putc 48 ++ putc 120 ++ uprintptr_loop 16 x.

(** The variable arguments: an [int], a [uint64] or a string, [None] being
    the null pointer. *)
Inductive uarg := AInt (x : Z) | ALong (x : Z) | AStr (s : option (list Z)).

(** The loop of [vprintf]; [state] tells that the last character was a [%].
    [None] is an argument that is missing or has another type, which is
    undefined in C. The parameter [xx] of [printint] is an [int]. *)
Fixpoint vprintf (state : bool) (fmt : list Z) (ap : list uarg) : option (list Z) :=
  match fmt with
  | [] => Some []
  | c :: fmt =>
      if negb state then
        if c =? 37 then vprintf true fmt ap
        else app (putc c) <$> vprintf false fmt ap
      else if c =? 100 then                                          (* d *)
        match ap with
        | AInt x :: ap => app (uprintint x 10 true) <$> vprintf false fmt ap
        | _ => None
        end
      else if c =? 108 then                                          (* l *)
        match ap with
        | ALong x :: ap => app (uprintint (s32 x) 10 false) <$> vprintf false fmt ap
        | _ => None
        end
      else if c =? 120 then                                          (* x *)
        match ap with
        | AInt x :: ap => app (uprintint x 16 false) <$> vprintf false fmt ap
        | _ => None
        end
      else if c =? 112 then                                          (* p *)
        match ap with
        | ALong x :: ap => app (uprintptr x) <$> vprintf false fmt ap
        | _ => None
        end
      else if c =? 115 then                                          (* s *)
        match ap with
        | AStr s :: ap => app (mjoin (putc <$> cstr_of (default (str "(null)") s))) <$> vprintf false fmt ap
        | _ => None
        end
      else if c =? 99 then                                           (* c *)
        match ap with
        | AInt x :: ap => app (putc x) <$> vprintf false fmt ap
        | _ => None
        end
      else if c =? 37 then app (putc c) <$> vprintf false fmt ap
      else app (putc 37 ++ putc c) <$> vprintf false fmt ap
  end.

Definition fprintf (fmt : list Z) (ap : list uarg) : option (list Z) := vprintf false fmt ap.

#[global] Arguments uprintint : simpl never.
#[global] Arguments uprintptr : simpl never.
#[global] Arguments putc : simpl never.

(** ** Numbers *)

Lemma udigit_decimal d : 0 <= d < 10 -> udigit d = 48 + d.
Proof.
  intros Hd. assert (d = 0 \/ d = 1 \/ d = 2 \/ d = 3 \/ d = 4 \/ d = 5 \/ d = 6 \/ d = 7 \/ d = 8 \/ d = 9) as Hc by lia.
  repeat destruct Hc as [->|Hc]; [..|subst d]; reflexivity.
Qed.

(** Decimal digits: the value of a text, most significant digit first. *)
Definition dec_value (s : list Z) : Z := foldl (fun n c => n * 10 + (c - 48)) 0 s.

Definition is_digit (c : Z) : Prop := 48 <= c <= 57.

Lemma dec_value_snoc s c : dec_value (s ++ [c]) = dec_value s * 10 + (c - 48).
Proof. unfold dec_value. by rewrite foldl_app. Qed.

Lemma udigits_decimal fuel : forall x, 0 <= x < 2 ^ Z.of_nat fuel ->
  dec_value (reverse (uprintint_digits fuel x 10)) = x /\ Forall is_digit (uprintint_digits fuel x 10).
Proof.
  induction fuel as [|fuel IH]; intros x Hx; [simpl in Hx; split; [cbn; lia|constructor]|].
  cbn [uprintint_digits]. rewrite Nat2Z.inj_succ, Z.pow_succ_r in Hx by lia.
  rewrite reverse_cons, dec_value_snoc, udigit_decimal by (apply Z.mod_pos_bound; lia).
  assert (is_digit (48 + x mod 10)) by (unfold is_digit; dlia).
  destruct (Z.eqb_spec (x / 10) 0) as [Hz|Hz].
  - split; [cbn; dlia|]. by apply Forall_singleton.
  - destruct (IH (x / 10)) as [-> Hd]; [dlia|]. split; [dlia|by constructor].
Qed.

Lemma putc_digits s : Forall is_digit s -> mjoin (putc <$> s) = s.
Proof.
  induction 1 as [|c s Hc _ IH]; [done|]. rewrite fmap_cons. cbn [mjoin list_join]. unfold is_digit in Hc.
  unfold putc at 1. rewrite u8_small by lia. cbn [app]. f_equal. exact IH.
Qed.

(** [%d] of a number that is not negative is its decimal text; before a
    negative one stands a minus. *)
Lemma uprintint_nonneg x sgn :
  0 <= x < 2 ^ 31 -> Forall is_digit (uprintint x 10 sgn) /\ dec_value (uprintint x 10 sgn) = x.
Proof.
  intros Hx. unfold uprintint. rewrite (proj2 (Z.ltb_ge x 0)), andb_false_r, app_nil_r, u32_small by lia.
  destruct (udigits_decimal 32 x) as [Hv Hd]; [simpl; lia|]. rewrite putc_digits by (by rewrite Forall_reverse).
  split; [by rewrite Forall_reverse|done].
Qed.

Lemma uprintint_neg x : - 2 ^ 31 <= x < 0 -> exists s, uprintint x 10 true = 45 :: s.
Proof.
  intros Hx. unfold uprintint. rewrite (proj2 (Z.ltb_lt x 0)) by lia. cbn [andb]. rewrite reverse_snoc, fmap_cons. eexists. reflexivity.
Qed.

(** ** atoi reads what %d prints *)

Lemma foldl_dec_ge s : forall n, 0 <= n -> Forall is_digit s -> n <= foldl (fun n c => n * 10 + (c - 48)) n s.
Proof.
  induction s as [|c s IH]; intros n Hn Hs; [simpl; lia|]. apply Forall_cons in Hs as [Hc Hs]. unfold is_digit in Hc.
  cbn [foldl]. specialize (IH (n * 10 + (c - 48)) ltac:(lia) Hs). lia.
Qed.

Lemma atoi_loop_spec s : forall fuel m p n,
  Forall is_digit s -> load_bytes m p (length s) = s -> ~ is_digit (load8 m (p + Z.of_nat (length s))) ->
  (length s < fuel)%nat -> 0 <= n -> foldl (fun n c => n * 10 + (c - 48)) n s < 2 ^ 31 ->
  atoi_loop fuel m p n = Some (foldl (fun n c => n * 10 + (c - 48)) n s).
Proof.
  induction s as [|c s IH]; intros fuel m p n Hd Hm Hend Hf Hn Hv; (destruct fuel as [|fuel]; [simpl in Hf; lia|]);
    cbn [atoi_loop length load_bytes foldl] in *.
  - rewrite Z.add_0_r in Hend. unfold is_digit in Hend. by cases_if; try lia.
  - apply Forall_cons in Hd as [Hc Hd]. injection Hm as Hc' Hm. rewrite Hc'. unfold is_digit in Hc.
    rewrite (proj2 (Z.leb_le 48 c)), (proj2 (Z.leb_le c 57)) by lia. cbn [andb].
    pose proof (foldl_dec_ge s (n * 10 + (c - 48)) ltac:(lia) Hd).
    rewrite s32_small by lia. replace (n * 10 + c - 48) with (n * 10 + (c - 48)) by lia.
    apply IH; [done..| |lia|lia|done]. by replace (p + 1 + Z.of_nat (length s)) with (p + Z.of_nat (S (length s))) by lia.
Qed.

(** [atoi] reads back what [%d] prints: on memory that holds the text of
    an [int] and then something that is not a digit, it returns the number
    when it is not negative. It does not know the minus sign: the text of a
    negative number reads as 0. *)
Theorem atoi_reads_printed_int n out m p fuel :
  - 2 ^ 31 <= n < 2 ^ 31 -> fprintf (str "%d") [AInt n] = Some out ->
  load_bytes m p (length out) = out -> ~ is_digit (load8 m (p + Z.of_nat (length out))) -> (length out < fuel)%nat ->
  atoi fuel m p = Some (Z.max n 0).
Proof.
  intros Hn Hout. cbn in Hout. injection Hout as <-. rewrite app_nil_r. intros Hm Hend Hf. unfold atoi.
  destruct (decide (0 <= n)) as [Hp|Hp].
  - destruct (uprintint_nonneg n true) as [Hd Hv]; [lia|]. rewrite (atoi_loop_spec (uprintint n 10 true)); try done.
    + f_equal. unfold dec_value in Hv. lia.
    + unfold dec_value in Hv. lia.
  - destruct (uprintint_neg n) as [s E]; [lia|]. rewrite E in Hm, Hf. destruct fuel as [|fuel]; [simpl in Hf; lia|].
    cbn [length load_bytes] in Hm. injection Hm as Hc _. cbn [atoi_loop]. rewrite Hc. cbn. f_equal. lia.
Qed.

Lemma atoi_reads_printed_int_witness :
  exists m, load_bytes m 100 4 = str "2048" /\ atoi 10 m 100 = Some 2048.
Proof.
  exists (store_bytes ∅ 100 (str "2048")). split; [reflexivity|].
  apply (atoi_reads_printed_int 2048 (str "2048") (store_bytes ∅ 100 (str "2048")) 100 10).
  - lia.
  - reflexivity.
  - reflexivity.
  - vm_compute. intros [H _]. by apply H.
  - simpl. lia.
Defined.

(** [%l] prints a [uint64] through the [int] parameter of [printint]: only
    its low 32 bits are printed, for every value. *)
Theorem percent_l_prints_low_word x :
  exists out, fprintf (str "%l") [ALong x] = Some out /\ dec_value out = x mod 2 ^ 32 /\ Forall is_digit out.
Proof.
  cbn. eexists. split; [reflexivity|]. rewrite app_nil_r. unfold uprintint. cbn [andb].
  assert (u32 (s32 x) = x mod 2 ^ 32) as -> by (unfold u32, s32; dlia).
  rewrite app_nil_r. destruct (udigits_decimal 32 (x mod 2 ^ 32)) as [Hv Hd]; [apply Z.mod_pos_bound; lia|].
  rewrite putc_digits by (by rewrite Forall_reverse). split; [done|by rewrite Forall_reverse].
Qed.
