(* ===== verification/Tools.v ===== *)
(** * The user commands ([user/cat.c], [wc.c], [echo.c], [rm.c], [mkdir.c], [ln.c], [ls.c])

    A command runs until it returns from a function or exits. What the system
    calls give it is an argument: a file is the list of the results of the
    [read] calls on it (bytes, no bytes at the end of the file, or an error),
    opening it fails or gives such a list, and the state has the results of
    the [write] calls still to come. After the last result of a list a [read]
    is at the end of the file and a [write] writes everything. Strings are
    lists of bytes without the NUL. *)

From S2P Require Import Prelude Riscv Monad State Kstring Bytes Ulib Uprintf.
#[local] Open Scope Z_scope.

(** The results of [read]: [None] is an error. *)
Definition reads : Type := list (option (list Z)).

(** What was written to descriptors 1 and 2, and the results of the next
    [write] calls: [Some n] writes at most [n] bytes, [None] is an error. *)
Record tstate := mktstate { t_out : list Z; t_err : list Z; t_writes : list (option nat) }.

Inductive tresult (A : Type) : Type := Done (a : A) (s : tstate) | Exit (code : Z) (s : tstate).
Arguments Done {A} _ _.
Arguments Exit {A} _ _.

Definition T (A : Type) : Type := tstate -> tresult A.

#[export] Instance T_ret : MRet T := fun A a s => Done a s.
#[export] Instance T_bind : MBind T := fun A B f m s => match m s with Done a s' => f a s' | Exit n s' => Exit n s' end.

Definition exit {A : Type} (n : Z) : T A := fun s => Exit n s.

Definition add_out (fd : Z) (bs : list Z) (s : tstate) : tstate :=
  if fd =? 1 then mktstate (t_out s ++ bs) (t_err s) (t_writes s) else mktstate (t_out s) (t_err s ++ bs) (t_writes s).

Definition write (fd : Z) (bs : list Z) : T Z := fun s =>
  match t_writes s with
  | [] => Done (Z.of_nat (length bs)) (add_out fd bs s)
  | None :: ws => Done (-1) (mktstate (t_out s) (t_err s) ws)
  | Some n :: ws => let bs := take n bs in Done (Z.of_nat (length bs)) (add_out fd bs (mktstate (t_out s) (t_err s) ws))
  end.

(** [putc] writes one byte and ignores the result. *)
Fixpoint put (fd : Z) (bs : list Z) : T unit :=
  match bs with
  | [] => mret ()
  | c :: bs => write fd [c];; put fd bs
  end.

Definition dprintf (fd : Z) (fmt : list Z) (ap : list uarg) : T unit := put fd (default [] (fprintf fmt ap)).

(** [for(i = 1; i < argc; i++)] over the arguments. *)
Fixpoint for_args (body : list Z -> T unit) (args : list (list Z)) : T unit :=
  match args with
  | [] => mret ()
  | a :: args => body a;; for_args body args
  end.

(** ** [cat.c] *)

Fixpoint cat (rs : reads) : T unit :=
  match rs with
  | [] | Some [] :: _ => mret ()
  | None :: _ => dprintf 2 (str "cat: read error" ++ [10]) [];; exit 1
  | Some buf :: rs =>
      n ← write 1 buf;
      if negb (n =? Z.of_nat (length buf)) then dprintf 2 (str "cat: write error" ++ [10]) [];; exit 1
      else cat rs
  end.

(** The body of the loop over the arguments. *)
Definition cat_arg (open : list Z -> option reads) (a : list Z) : T unit :=
  match open a with
  | None => dprintf 2 (str "cat: cannot open %s" ++ [10]) [AStr (Some a)];; exit 1
  | Some rs => cat rs
  end.

Definition cat_main (open : list Z -> option reads) (stdin : reads) (args : list (list Z)) : T unit :=
  if Z.of_nat (length args) + 1 <=? 1 then cat stdin;; exit 0
  else
    for_args (cat_arg open) args;;
    exit 0.

(** ** [wc.c] *)

Definition blanks : list Z := [32; 13; 9; 10; 11].

Record counts := mkcounts { n_l : Z; n_w : Z; n_c : Z; inword : bool }.

(** The body of the inner loop. *)
Definition wc_byte (k : counts) (b : Z) : counts :=
  let c := s32 (n_c k + 1) in
  let l := if b =? 10 then s32 (n_l k + 1) else n_l k in
  if bool_decide (b ∈ blanks) then mkcounts l (n_w k) c false
  else if negb (inword k) then mkcounts l (s32 (n_w k + 1)) c true
  else mkcounts l (n_w k) c (inword k).

(** The outer loop; [None] is an error of [read]. *)
Fixpoint wc_loop (k : counts) (rs : reads) : option counts :=
  match rs with
  | [] | Some [] :: _ => Some k
  | None :: _ => None
  | Some buf :: rs => wc_loop (foldl wc_byte k buf) rs
  end.

Definition wc (rs : reads) (name : list Z) : T unit :=
  match wc_loop (mkcounts 0 0 0 false) rs with
  | None => dprintf 1 (str "wc: read error" ++ [10]) [];; exit 1
  | Some k => dprintf 1 (str "%d %d %d %s" ++ [10]) [AInt (n_l k); AInt (n_w k); AInt (n_c k); AStr (Some name)]
  end.

(** The body of the loop over the arguments. *)
Definition wc_arg (open : list Z -> option reads) (a : list Z) : T unit :=
  match open a with
  | None => dprintf 1 (str "wc: cannot open %s" ++ [10]) [AStr (Some a)];; exit 1
  | Some rs => wc rs a
  end.

Definition wc_main (open : list Z -> option reads) (stdin : reads) (args : list (list Z)) : T unit :=
  if Z.of_nat (length args) + 1 <=? 1 then wc stdin [];; exit 0
  else
    for_args (wc_arg open) args;;
    exit 0.

(** ** [echo.c] *)

Fixpoint echo_loop (args : list (list Z)) : T unit :=
  match args with
  | [] => mret ()
  | a :: args => write 1 a;; write 1 (match args with [] => [10] | _ => [32] end);; echo_loop args
  end.

Definition echo_main (args : list (list Z)) : T unit := echo_loop args;; exit 0.

(** ** [rm.c], [mkdir.c]

    [call] is [unlink] or [mkdir] on the next path: its result. The loop
    breaks at the first error. *)
Fixpoint each_path (call : list Z -> Z) (message : list Z) (args : list (list Z)) : T unit :=
  match args with
  | [] => mret ()
  | a :: args => if call a <? 0 then dprintf 2 message [AStr (Some a)] else each_path call message args
  end.

Definition rm_main (unlink : list Z -> Z) (args : list (list Z)) : T unit :=
  if Z.of_nat (length args) + 1 <? 2 then dprintf 2 (str "Usage: rm files..." ++ [10]) [];; exit 1
  else each_path unlink (str "rm: %s failed to delete" ++ [10]) args;; exit 0.

Definition mkdir_main (mkdir : list Z -> Z) (args : list (list Z)) : T unit :=
  if Z.of_nat (length args) + 1 <? 2 then dprintf 2 (str "Usage: mkdir files..." ++ [10]) [];; exit 1
  else each_path mkdir (str "mkdir: %s failed to create" ++ [10]) args;; exit 0.

(** ** [ln.c] *)

Definition ln_main (link : list Z -> list Z -> Z) (args : list (list Z)) : T unit :=
  match args with
  | [old; new] =>
      (if link old new <? 0 then dprintf 2 (str "link %s %s: failed" ++ [10]) [AStr (Some old); AStr (Some new)] else mret ());;
      exit 0
  | _ => dprintf 2 (str "Usage: ln old new" ++ [10]) [];; exit 1
  end.

(** ** [ls.c] *)

Definition DIRSIZ : Z := 14.
Definition T_DIR : Z := 1.
Definition T_FILE : Z := 2.

Record stat := mkstat { st_type : Z; st_ino : Z; st_size : Z }.

(** The first loop of [fmtname], from index [i] of the path down; the result
    is the index after the slash. *)
Fixpoint name_start (i : nat) (path : list Z) : nat :=
  if default 0 (path !! i) =? 47 then S i
  else match i with O => O | S i => name_start i path end.

Definition fmtname (path : list Z) : list Z :=
  let p := drop (name_start (length path) path) path in
  let n := Z.of_nat (length p) in
  if DIRSIZ <=? n then p else p ++ replicate (Z.to_nat (DIRSIZ - n)) 32.

(** The loop over the entries of a directory; [path] ends in the slash.
    [printf] reads the 64-bit size as an [int] for the last [%d]. *)
Fixpoint ls_entries (stat : list Z -> option stat) (path : list Z) (rs : reads) : T unit :=
  match rs with
  | Some de :: rs =>
      if negb (length de =? 16)%nat then mret ()
      else if rd 2 0 de =? 0 then ls_entries stat path rs
      else
        let buf := cstr_of (path ++ slice 2 DIRSIZ de) in
        match stat buf with
        | None => dprintf 1 (str "ls: cannot stat %s" ++ [10]) [AStr (Some buf)]
        | Some st => dprintf 1 (str "%s %d %d %d" ++ [10]) [AStr (Some (fmtname buf)); AInt (st_type st); AInt (s32 (st_ino st)); AInt (s32 (st_size st))]
        end;;
        ls_entries stat path rs
  | _ => mret ()
  end.

(** [open path] fails, or gives the result of [fstat] and the file. *)
Definition ls (open : list Z -> option (option stat * reads)) (stat : list Z -> option stat) (path : list Z) : T unit :=
  match open path with
  | None => dprintf 2 (str "ls: cannot open %s" ++ [10]) [AStr (Some path)]
  | Some (None, _) => dprintf 2 (str "ls: cannot stat %s" ++ [10]) [AStr (Some path)]
  | Some (Some st, rs) =>
      if st_type st =? T_FILE then
        dprintf 1 (str "%s %d %d %l" ++ [10]) [AStr (Some (fmtname path)); AInt (st_type st); AInt (s32 (st_ino st)); ALong (st_size st)]
      else if st_type st =? T_DIR then
        if 512 <? Z.of_nat (length path) + 1 + DIRSIZ + 1 then dprintf 1 (str "ls: path too long" ++ [10]) []
        else ls_entries stat (path ++ [47]) rs
      else mret ()
  end.

Definition ls_main (open : list Z -> option (option stat * reads)) (stat : list Z -> option stat) (args : list (list Z)) : T unit :=
  if Z.of_nat (length args) + 1 <? 2 then ls open stat (str ".");; exit 0
  else for_args (ls open stat) args;; exit 0.

(** ** Files and output *)

(** The calls of [read] give the bytes [d] in parts and then the end. *)
Inductive delivers : reads -> list Z -> Prop :=
  | Dl_end : delivers [] []
  | Dl_eof rs : delivers (Some [] :: rs) []
  | Dl_part b bs rs d : delivers rs d -> delivers (Some (b :: bs) :: rs) ((b :: bs) ++ d).

(** Writing works. *)
Definition writable (s : tstate) : Prop := t_writes s = [].

Lemma tbind_eq {A B} (m : T A) (f : A -> T B) s a s' : m s = Done a s' -> (m ≫= f) s = f a s'.
Proof. unfold mbind, T_bind. by intros ->. Qed.

Lemma add_out_writable fd bs s : writable s -> writable (add_out fd bs s).
Proof. unfold add_out. by destruct (fd =? 1). Qed.

Lemma add_out_app fd bs bs' s : add_out fd bs' (add_out fd bs s) = add_out fd (bs ++ bs') s.
Proof. unfold add_out. destruct (fd =? 1); cbn; by rewrite app_assoc. Qed.

Lemma add_out_nil fd s : add_out fd [] s = s.
Proof. unfold add_out. destruct s. destruct (fd =? 1); cbn; by rewrite app_nil_r. Qed.

Lemma write_all fd bs s : writable s -> write fd bs s = Done (Z.of_nat (length bs)) (add_out fd bs s).
Proof. unfold write. by intros ->. Qed.

Lemma put_all fd bs : forall s, writable s -> put fd bs s = Done () (add_out fd bs s).
Proof.
  induction bs as [|c bs IH]; intros s Hs; cbn [put]; [by rewrite add_out_nil|]. erewrite tbind_eq by (by apply write_all).
  rewrite IH by by apply add_out_writable. by rewrite add_out_app.
Qed.

Lemma dprintf_all fd fmt ap out s : writable s -> fprintf fmt ap = Some out -> dprintf fd fmt ap s = Done () (add_out fd out s).
Proof. intros Hs E. unfold dprintf. rewrite E. by apply put_all. Qed.

(** A loop over arguments each of which adds its text to the output. *)
Lemma for_args_out body text args :
  (forall a s, a ∈ args -> writable s -> body a s = Done () (add_out 1 (text a) s)) ->
  forall s, writable s -> for_args body args s = Done () (add_out 1 (mjoin (text <$> args)) s).
Proof.
  induction args as [|a args IH]; intros Hb s Hs; cbn [for_args]; [by rewrite add_out_nil|].
  erewrite tbind_eq by (apply Hb; [apply list_elem_of_here|done]).
  rewrite IH; [|intros; apply Hb; [by apply list_elem_of_further|done]|by apply add_out_writable]. by rewrite add_out_app.
Qed.

(** ** [cat] *)

Lemma cat_delivers rs d : delivers rs d -> forall s, writable s -> cat rs s = Done () (add_out 1 d s).
Proof.
  induction 1 as [|rs|b bs rs d _ IH]; intros s Hs; cbn [cat]; [by rewrite add_out_nil..|].
  erewrite tbind_eq by (by apply write_all). rewrite Z.eqb_refl. cbn [negb]. rewrite IH by by apply add_out_writable. by rewrite add_out_app.
Qed.

Lemma for_args_app body xs ys s : for_args body (xs ++ ys) s = (for_args body xs;; for_args body ys) s.
Proof.
  revert s. induction xs as [|x xs IH]; intros s; [done|]. cbn [app for_args]. unfold mbind, T_bind in *. destruct (body x s); [apply IH|done].
Qed.

Definition is_string (s : list Z) : Prop := Forall (fun c => 0 < c < 256) s.

Lemma print_string s : is_string s -> mjoin (putc <$> cstr_of s) = s.
Proof.
  induction 1 as [|c s Hc _ IH]; [done|]. cbn [cstr_of]. rewrite (proj2 (Z.eqb_neq c 0)) by lia. rewrite fmap_cons. cbn [mjoin list_join].
  unfold putc at 1. rewrite u8_small by lia. cbn [app]. f_equal. exact IH.
Qed.

(** A format: text without [%], [%s] and [%d]. *)
Lemma vprintf_text s fmt ap out :
  forallb (fun c => (0 <=? c) && (c <? 256) && negb (c =? 37)) s = true -> vprintf false fmt ap = Some out -> vprintf false (s ++ fmt) ap = Some (s ++ out).
Proof.
  intros Hs Hf. induction s as [|c s IH]; [done|]. cbn [forallb] in Hs. apply andb_true_iff in Hs as [Hc Hs].
  rewrite !andb_true_iff, Z.leb_le, Z.ltb_lt, negb_true_iff in Hc. destruct Hc as [Hb Hp]. cbn [app vprintf negb]. rewrite Hp, IH by done.
  unfold putc. by rewrite u8_small.
Qed.

Lemma vprintf_s b fmt ap out : is_string b -> vprintf false fmt ap = Some out -> vprintf false (37 :: 115 :: fmt) (AStr (Some b) :: ap) = Some (b ++ out).
Proof. intros Hb Hf. cbn. rewrite Hf. cbn. by rewrite print_string. Qed.

Lemma vprintf_d x fmt ap out : vprintf false fmt ap = Some out -> vprintf false (37 :: 100 :: fmt) (AInt x :: ap) = Some (uprintint x 10 true ++ out).
Proof. intros Hf. cbn. by rewrite Hf. Qed.

(** [cat] with arguments that can be opened writes their contents one after
    the other, whatever the parts in which they are read, and exits with 0;
    at an argument that cannot be opened it stops with a message and status
    1. *)
Theorem cat_copies (content : list Z -> list Z) open stdin args bad rest s :
  args <> [] \/ bad <> None -> writable s ->
  (forall a, a ∈ args -> exists rs, open a = Some rs /\ delivers rs (content a)) ->
  (forall b, bad = Some b -> open b = None /\ is_string b) ->
  let out := mjoin (content <$> args) in
  cat_main open stdin (args ++ match bad with Some b => b :: rest | None => [] end) s =
  match bad with
  | None => Exit 0 (add_out 1 out s)
  | Some b => Exit 1 (add_out 2 (str "cat: cannot open " ++ b ++ [10]) (add_out 1 out s))
  end.
Proof.
  intros Hne Hs Hopen Hbad out. unfold cat_main.
  assert (Z.of_nat (length (args ++ match bad with Some b => b :: rest | None => [] end)) + 1 <=? 1 = false) as ->.
  { apply Z.leb_gt. rewrite length_app. destruct args, bad; cbn [length]; try lia. naive_solver. }
  assert (for_args (cat_arg open) args s = Done () (add_out 1 out s)) as Hrun.
  { apply for_args_out; [|done]. intros a s' Ha Hs'. unfold cat_arg. destruct (Hopen a Ha) as (rs & -> & Hd). by apply cat_delivers. }
  unfold mbind at 1, T_bind. rewrite for_args_app, (tbind_eq _ _ _ _ _ Hrun). destruct bad as [b|]; [|done].
  destruct (Hbad b eq_refl) as [Eb Hb]. cbn [for_args]. unfold mbind at 1, T_bind. unfold cat_arg at 1. rewrite Eb.
  erewrite tbind_eq; [reflexivity|]. apply dprintf_all; [by apply add_out_writable|].
  unfold fprintf. change (str "cat: cannot open %s" ++ [10]) with (str "cat: cannot open " ++ 37 :: 115 :: [10]).
  apply vprintf_text; [done|]. by apply vprintf_s.
Qed.

(** ** [wc] *)

(** The words of a text: the longest parts without blanks. [cur] is the part
    of a word before the text. *)
Fixpoint words_from (cur : list Z) (d : list Z) : list (list Z) :=
  match d with
  | [] => if bool_decide (cur = []) then [] else [cur]
  | b :: d =>
      if bool_decide (b ∈ blanks) then (if bool_decide (cur = []) then [] else [cur]) ++ words_from [] d
      else words_from (cur ++ [b]) d
  end.

Definition words (d : list Z) : list (list Z) := words_from [] d.

Definition newlines (d : list Z) : Z := Z.of_nat (length (filter (fun b => b = 10) d)).

(** The counts before the text, which do not overflow. *)
Definition counts_ok (k : counts) (cur : list Z) : Prop :=
  0 <= n_l k <= n_c k /\ 0 <= n_w k <= n_c k /\ inword k = negb (bool_decide (cur = [])).

Lemma wc_bytes d : forall k cur,
  counts_ok k cur -> n_c k + Z.of_nat (length d) < 2 ^ 31 ->
  let k' := foldl wc_byte k d in
  n_l k' = n_l k + newlines d /\ n_c k' = n_c k + Z.of_nat (length d) /\
  n_w k' + (if inword k then 1 else 0) = n_w k + Z.of_nat (length (words_from cur d)).
Proof.
  induction d as [|b d IH]; intros k cur (Hl & Hw & Hi) Hn; cbn [foldl words_from length].
  - unfold newlines. cbn. rewrite Hi. destruct (bool_decide (cur = [])); cbn; lia.
  - cbn [length] in Hn. set (k1 := wc_byte k b).
    assert (n_c k1 = n_c k + 1 /\ n_l k1 = n_l k + (if b =? 10 then 1 else 0)) as [Hc1 Hl1].
    { unfold k1, wc_byte. rewrite !s32_small by lia. repeat case_match; cbn; lia. }
    assert (newlines (b :: d) = (if b =? 10 then 1 else 0) + newlines d) as ->.
    { unfold newlines. rewrite filter_cons. destruct (Z.eqb_spec b 10); [rewrite decide_True by done|rewrite decide_False by done]; cbn [length]; lia. }
    destruct (bool_decide (b ∈ blanks)) eqn:Eb.
    + assert (n_w k1 = n_w k /\ inword k1 = false) as [Hw1 Hi1] by (unfold k1, wc_byte; rewrite Eb; done).
      destruct (IH k1 []) as (H1 & H2 & H3); [split_and!; try done; destruct (b =? 10); lia|lia|]. rewrite Hi1 in H3.
      rewrite length_app, Hi. destruct (bool_decide (cur = [])); cbn [length negb]; lia.
    + assert (n_w k1 = n_w k + (if inword k then 0 else 1) /\ inword k1 = true) as [Hw1 Hi1].
      { unfold k1, wc_byte. rewrite Eb. destruct (inword k) eqn:Ei; cbn; rewrite ?s32_small by lia; split; (done || lia). }
      destruct (IH k1 (cur ++ [b])) as (H1 & H2 & H3); [|lia|].
      * split_and!; [destruct (b =? 10); lia|destruct (b =? 10); lia|destruct (inword k); lia|destruct (inword k); lia|].
        rewrite Hi1, bool_decide_false; [done|]. by destruct cur.
      * rewrite Hi1 in H3. destruct (inword k); lia.
Qed.

Lemma words_length d : forall cur, (length (words_from cur d) <= length d + (if bool_decide (cur = []) then 0 else 1))%nat.
Proof.
  induction d as [|b d IH]; intros cur; cbn [words_from length]; [case_bool_decide; cbn; lia|]. destruct (bool_decide (b ∈ blanks)).
  - rewrite length_app. specialize (IH []). rewrite bool_decide_true in IH by done. case_bool_decide; cbn [length]; lia.
  - specialize (IH (cur ++ [b])). rewrite bool_decide_false in IH by (by destruct cur). lia.
Qed.

Lemma wc_parts rs d k : delivers rs d -> wc_loop k rs = Some (foldl wc_byte k d).
Proof. intros Hd. revert k. induction Hd as [|rs|b bs rs d _ IH]; intros k; cbn [wc_loop]; [done..|]. by rewrite IH, foldl_app. Qed.

(** [wc] prints the number of lines, words and bytes of the file, however it
    is read in parts, and then the name. *)
Theorem wc_counts rs d name s :
  delivers rs d -> Z.of_nat (length d) < 2 ^ 31 -> is_string name -> writable s ->
  exists l w c, wc rs name s = Done () (add_out 1 (l ++ [32] ++ w ++ [32] ++ c ++ [32] ++ name ++ [10]) s) /\
    Forall is_digit l /\ Forall is_digit w /\ Forall is_digit c /\
    dec_value l = newlines d /\ dec_value w = Z.of_nat (length (words d)) /\ dec_value c = Z.of_nat (length d).
Proof.
  intros Hd Hn Hname Hs. unfold wc. rewrite (wc_parts _ _ _ Hd). destruct (wc_bytes d (mkcounts 0 0 0 false) []) as (Hl & Hc & Hw); [done|cbn; lia|].
  cbn [n_l n_w n_c inword] in *. set (k := foldl wc_byte _ d) in *. clearbody k.
  assert (0 <= newlines d <= Z.of_nat (length d)) as Hnl by (unfold newlines; pose proof (length_filter (fun b => b = 10) d); lia).
  pose proof (words_length d []) as Hwl. rewrite bool_decide_true in Hwl by done. fold (words d) in Hw, Hwl.
  destruct (uprintint_nonneg (n_l k) true) as [L1 L2]; [lia|]. destruct (uprintint_nonneg (n_w k) true) as [W1 W2]; [lia|].
  destruct (uprintint_nonneg (n_c k) true) as [C1 C2]; [lia|].
  exists (uprintint (n_l k) 10 true), (uprintint (n_w k) 10 true), (uprintint (n_c k) 10 true). split; [|split_and!; (done || lia)].
  apply dprintf_all; [done|].
  unfold fprintf. change (str "%d %d %d %s" ++ [10]) with (37 :: 100 :: [32] ++ 37 :: 100 :: [32] ++ 37 :: 100 :: [32] ++ 37 :: 115 :: [10]).
  do 3 (apply vprintf_d, vprintf_text; [done|]). by apply vprintf_s.
Qed.

(** A file of two lines, read in parts of 5, 1 and 6 bytes. *)
Lemma wc_counts_witness :
  exists s, wc [Some (str "one t"); Some (str "w"); Some (str "o" ++ [10] ++ str "end" ++ [10])] (str "f") (mktstate [] [] []) = Done () s /\
    t_out s = str "2 3 12 f" ++ [10].
Proof.
  destruct (wc_counts [Some (str "one t"); Some (str "w"); Some (str "o" ++ [10] ++ str "end" ++ [10])]
    (str "one t" ++ str "w" ++ (str "o" ++ [10] ++ str "end" ++ [10]) ++ []) (str "f") (mktstate [] [] [])) as (l & w & c & Hrun & _).
  - repeat (apply Dl_part). apply Dl_end.
  - done.
  - apply Forall_singleton. vm_compute. split; congruence.
  - done.
  - eexists. split; [exact Hrun|]. assert (wc [Some (str "one t"); Some (str "w"); Some (str "o" ++ [10] ++ str "end" ++ [10])] (str "f") (mktstate [] [] []) =
      Done () (mktstate (str "2 3 12 f" ++ [10]) [] [])) as E by reflexivity.
    rewrite E in Hrun. exact (eq_sym (f_equal (fun r => match r with Done _ s | Exit _ s => t_out s end) Hrun)).
Defined.

(** ** [echo] *)

Fixpoint joined (args : list (list Z)) : list Z :=
  match args with
  | [] => []
  | [a] => a ++ [10]
  | a :: args => a ++ [32] ++ joined args
  end.

(** [echo] prints its arguments with blanks between them and a newline. *)
Theorem echo_prints args s : writable s -> echo_main args s = Exit 0 (add_out 1 (joined args) s).
Proof.
  intros Hs. unfold echo_main. rewrite (tbind_eq _ _ s () (add_out 1 (joined args) s)); [done|]. revert s Hs.
  induction args as [|a args IH]; intros s Hs; [by rewrite add_out_nil|]. cbn [echo_loop].
  erewrite tbind_eq by (by apply write_all). erewrite tbind_eq by (by apply write_all, add_out_writable).
  rewrite IH by by apply add_out_writable, add_out_writable. rewrite !add_out_app. do 2 f_equal. by destruct args; cbn [joined]; rewrite ?app_nil_r, <- ?app_assoc.
Qed.

(** ** [fmtname] *)

Lemma name_start_spec i path :
  let n := name_start i path in (n <= S i)%nat /\ (forall j, (n <= j <= i)%nat -> path !! j <> Some 47) /\ (n = O \/ path !! (pred n) = Some 47).
Proof.
  induction i as [|i IH]; cbn [name_start].
  - destruct (Z.eqb_spec (default 0 (path !! 0%nat)) 47) as [E|E]; cbv zeta.
    + split; [lia|]. split; [lia|]. right. cbn [pred]. destruct (path !! 0%nat); cbn in E; [by subst|done].
    + split; [lia|]. split; [|by left]. intros j Hj. replace j with O by lia. intros Hx. by rewrite Hx in E.
  - destruct (Z.eqb_spec (default 0 (path !! S i)) 47) as [E|E]; cbv zeta.
    + split; [lia|]. split; [lia|]. right. cbn [pred]. destruct (path !! S i); cbn in E; [by subst|done].
    + destruct IH as (H1 & H2 & H3). split; [lia|]. split; [|done]. intros j Hj. destruct (decide (j = S i)) as [-> |]; [|apply H2; lia].
      intros Hx. by rewrite Hx in E.
Qed.

(** [fmtname] gives the part of the path after its last slash, padded with
    blanks to 14 characters; no overrun of its 15-byte buffer. *)
Theorem fmtname_last_component path :
  exists dir base, path = dir ++ base /\ (dir = [] \/ last dir = Some 47) /\ 47 ∉ base /\
    fmtname path = base ++ replicate (14 - length base) 32.
Proof.
  pose proof (name_start_spec (length path) path) as (H1 & H2 & H3). cbv zeta in *. unfold fmtname. set (n := name_start (length path) path) in *.
  exists (take n path), (drop n path). split; [by rewrite take_drop|]. split; [|split].
  - destruct H3 as [-> |H3]; [by left|]. destruct n as [|n]; [by left|right]. cbn [pred] in H3.
    rewrite (take_S_r _ _ _ H3). apply last_snoc.
  - intros (j & Hj)%list_elem_of_lookup. rewrite lookup_drop in Hj. apply (H2 (n + j)%nat); [|done]. apply lookup_lt_Some in Hj. lia.
  - cbv zeta. unfold DIRSIZ. destruct (Z.leb_spec 14 (Z.of_nat (length (drop n path)))) as [Hl|Hl].
    + replace (14 - length (drop n path))%nat with O by lia. by rewrite app_nil_r.
    + do 2 f_equal. lia.
Qed.
