(* ===== verification/Umalloc.v ===== *)
(** * The user memory allocator ([umalloc.c])

    Free blocks are in a circular list ordered by address, with the static
    header [base] as its first node; a block is its header and what follows
    it, counted in units of one header. [hp_ptr] and [hp_size] are the fields
    of the headers, by address. [sbrk] is the system call, through the
    interface [Sbrk]. *)

From S2P Require Import Prelude.
#[local] Open Scope Z_scope.

(** What [umalloc.c] uses of the kernel: [brk] is the end of the process's
    memory. *)
Class Sbrk (os : Type) := {
  sbrk : Z -> os -> Z * os;
  brk : os -> Z
}.

(** [sys_sbrk] and [growproc]: for a positive [n] the break moves by [n], or it
    stays and the result is -1; otherwise the result is the old break, and the
    break does not move up. The kernel's [sys_sbrk] is an instance
    ([Usbrk]). *)
Class SbrkOk (os : Type) `{Sbrk os} : Prop := {
  brk_bound o : 0 <= brk o < 2 ^ 31;
  sbrk_grows n o : 0 < n < 2 ^ 31 ->
    ((sbrk n o).1 = u64 (-1) /\ brk (sbrk n o).2 = brk o) \/ ((sbrk n o).1 = brk o /\ brk (sbrk n o).2 = brk o + n);
  sbrk_shrinks n o : - 2 ^ 31 <= n <= 0 -> (sbrk n o).1 = brk o /\ brk (sbrk n o).2 <= brk o
}.

(** ** umalloc.c *)

(** [sizeof(Header)]. *)
Definition HDR : Z := 16.

Section umalloc.
Context {os : Type} `{Sbrk os} (base : Z).

Record heap := mkheap {
  hp_ptr : Z -> Z;
  hp_size : Z -> Z;
  hp_freep : Z;
  hp_os : os
}.

Definition set_ptr (p v : Z) (h : heap) : heap := mkheap (<[p := v]> (hp_ptr h)) (hp_size h) (hp_freep h) (hp_os h).
Definition set_size (p v : Z) (h : heap) : heap := mkheap (hp_ptr h) (<[p := v]> (hp_size h)) (hp_freep h) (hp_os h).
Definition set_freep (p : Z) (h : heap) : heap := mkheap (hp_ptr h) (hp_size h) p (hp_os h).
Definition set_os (o : os) (h : heap) : heap := mkheap (hp_ptr h) (hp_size h) (hp_freep h) o.

(** [p + n] for a [Header *]. *)
Definition hadd (p n : Z) : Z := u64 (p + HDR * n).

(** The loop of [free]. *)
Fixpoint free_place (fuel : nat) (bp p : Z) (h : heap) : option Z :=
  match fuel with
  | O => None
  | S fuel =>
      let nx := hp_ptr h p in
      if (p <? bp) && (bp <? nx) then Some p
      else if (nx <=? p) && ((p <? bp) || (bp <? nx)) then Some p
      else free_place fuel bp nx h
  end.

(** The rest of [free], with the block put after [p]: joined to the upper
    neighbour, or linked to it; *)
Definition link_next (bp p : Z) (h : heap) : heap :=
  if hadd bp (hp_size h bp) =? hp_ptr h p then
    let nx := hp_ptr h p in
    let h := set_size bp (u32 (hp_size h bp + hp_size h nx)) h in
    set_ptr bp (hp_ptr h nx) h
  else set_ptr bp (hp_ptr h p) h.

(** and joined to the lower neighbour, or linked from it. *)
Definition link_prev (bp p : Z) (h : heap) : heap :=
  if hadd p (hp_size h p) =? bp then
    let h := set_size p (u32 (hp_size h p + hp_size h bp)) h in
    set_ptr p (hp_ptr h bp) h
  else set_ptr p bp h.

Definition free_link (bp p : Z) (h : heap) : heap := set_freep p (link_prev bp p (link_next bp p h)).

Definition free (fuel : nat) (ap : Z) (h : heap) : option heap :=
  let bp := u64 (ap - HDR) in
  p ← free_place fuel bp (hp_freep h) h;
  Some (free_link bp p h).

(** The argument of [sbrk] is an [int]. *)
Definition morecore (fuel : nat) (nu : Z) (h : heap) : option (Z * heap) :=
  let nu := if nu <? 4096 then 4096 else nu in
  let '(p, o) := sbrk (s32 (nu * HDR)) (hp_os h) in
  let h := set_os o h in
  if p =? u64 (-1) then Some (0, h)
  else
    let h := set_size p nu h in
    h' ← free fuel (hadd p 1) h;
    Some (hp_freep h', h').

(** Allocation from the block [p] that fits. *)
Definition malloc_take (nunits prevp p : Z) (h : heap) : Z * heap :=
  if hp_size h p =? nunits then
    (hadd p 1, set_freep prevp (set_ptr prevp (hp_ptr h p) h))
  else
    let h := set_size p (hp_size h p - nunits) h in
    let q := hadd p (hp_size h p) in
    (hadd q 1, set_freep prevp (set_size q nunits h)).

Fixpoint malloc_loop (fuel : nat) (nunits prevp p : Z) (h : heap) : option (Z * heap) :=
  match fuel with
  | O => None
  | S fuel' =>
      if nunits <=? hp_size h p then Some (malloc_take nunits prevp p h)
      else if p =? hp_freep h then
        '(r, h') ← morecore fuel' nunits h;
        if r =? 0 then Some (0, h') else malloc_loop fuel' nunits r (hp_ptr h' r) h'
      else malloc_loop fuel' nunits p (hp_ptr h p) h
  end.

Definition units (nbytes : Z) : Z := u32 ((nbytes + HDR - 1) / HDR + 1).

Definition malloc (fuel : nat) (nbytes : Z) (h : heap) : option (Z * heap) :=
  let nunits := units nbytes in
  let h := if hp_freep h =? 0 then set_size base 0 (set_freep base (set_ptr base base h)) else h in
  let prevp := hp_freep h in
  malloc_loop fuel nunits prevp (hp_ptr h prevp) h.

End umalloc.
#[global] Arguments heap : clear implicits.
