(* ===== verification/UmallocProps.v ===== *)
(** * The user allocator hands out disjoint blocks

    [F] is the list of the free blocks in the order of their addresses, [A]
    the blocks in use; a block is the address of its header and its number of
    units. *)

From S2P Require Import Prelude Umalloc.
#[local] Open Scope Z_scope.

(** ** Linked lists *)

(** The nodes [l] follow [a], and [z] follows the last one. *)
Fixpoint chain (f : Z -> Z) (a : Z) (l : list Z) (z : Z) : Prop :=
  match l with
  | [] => f a = z
  | b :: l' => f a = b /\ chain f b l' z
  end.

(** The last node. *)
Definition tip (a : Z) (l : list Z) : Z := default a (last l).

Lemma tip_cons a b l : tip a (b :: l) = tip b l.
Proof. unfold tip. rewrite last_cons. by destruct (last l). Qed.

Lemma tip_app a l b : tip a (l ++ [b]) = b.
Proof. unfold tip. by rewrite last_snoc. Qed.

Lemma tip_in a l : tip a l ∈ a :: l.
Proof.
  unfold tip. destruct (last l) as [x|] eqn:E; simpl; [|apply list_elem_of_here].
  apply list_elem_of_further. by apply last_Some_elem_of.
Qed.

Lemma chain_app f a l b l' z : chain f a (l ++ b :: l') z <-> chain f a l b /\ chain f b l' z.
Proof. revert a. induction l as [|c l IH]; intros a; simpl; [done|]. rewrite IH. tauto. Qed.

Lemma ring_ext f g a l z : (forall x, x ∈ a :: l -> g x = f x) -> chain f a l z -> chain g a l z.
Proof.
  revert a. induction l as [|b l IH]; intros a Hg; simpl; [by rewrite Hg by apply list_elem_of_here|].
  intros [<- Hc]. split; [apply Hg, list_elem_of_here|]. apply IH; [|done]. intros x Hx. apply Hg. by apply list_elem_of_further.
Qed.

Lemma chain_insert_ne f a l z x v : x ∉ a :: l -> chain f a l z -> chain (<[x := v]> f) a l z.
Proof. intros Hx. apply ring_ext. intros y Hy. apply fn_lookup_insert_ne. by intros ->. Qed.

(** The list ends elsewhere. *)
Lemma chain_retarget f a l z z' : NoDup (a :: l) -> chain f a l z -> chain (<[tip a l := z']> f) a l z'.
Proof.
  revert a. induction l as [|b l IH]; intros a Hn; simpl; [intros _; apply fn_lookup_insert|].
  intros [Hf Hc]. apply NoDup_cons in Hn as [Ha Hn]. rewrite tip_cons. split; [|by apply IH].
  rewrite fn_lookup_insert_ne; [done|]. intros E. apply Ha. rewrite <- E. apply tip_in.
Qed.

Lemma chain_tip f a l z : chain f a l z -> f (tip a l) = z.
Proof. revert a. induction l as [|b l IH]; intros a; simpl; [done|]. intros [_ Hc]. rewrite tip_cons. by apply IH. Qed.

Lemma chain_redirect f a y l z v : f y = v -> a ∉ l -> chain f y l z -> chain (<[a := v]> f) a l z.
Proof.
  intros <- Ha. destruct l as [|c l]; simpl; [intros <-; apply fn_lookup_insert|]. rewrite fn_lookup_insert. intros [-> Hc]. split; [done|].
  by apply chain_insert_ne.
Qed.

Lemma chain_unlink f a l x l' z :
  NoDup (a :: l ++ x :: l') -> chain f a (l ++ x :: l') z -> chain (<[tip a l := f x]> f) a (l ++ l') z.
Proof.
  intros Hn [Hc1 Hc2]%chain_app. rewrite app_comm_cons in Hn. apply NoDup_app in Hn as (Hn & Hd & _).
  pose proof (chain_retarget f a l x (f x) Hn Hc1) as Hr. destruct l' as [|y l']; simpl in Hc2; [rewrite app_nil_r; by rewrite Hc2 in *|].
  destruct Hc2 as [E Hc2]. apply chain_app. rewrite E in *. split; [done|]. apply chain_insert_ne; [|done].
  intros Hin. apply (Hd _ (tip_in a l)). by apply list_elem_of_further.
Qed.

(** In a ring every node has one predecessor. *)
Lemma chain_lookup f a l z i x : chain f a l z -> (a :: l) !! i = Some x -> (l ++ [z]) !! i = Some (f x).
Proof.
  revert a i. induction l as [|y l IH]; intros a i; simpl.
  - intros Hf Hi. destruct i as [|i]; simpl in *; [|by rewrite lookup_nil in Hi]. by injection Hi as <-; rewrite Hf.
  - intros [Hf Hc] Hi. destruct i as [|i]; simpl in *; [by injection Hi as <-; rewrite Hf|by apply (IH y)].
Qed.

Lemma ring_inj f a l x y : chain f a l a -> NoDup (a :: l) -> x ∈ a :: l -> y ∈ a :: l -> f x = f y -> x = y.
Proof.
  intros Hc Hn [i Hi]%list_elem_of_lookup [j Hj]%list_elem_of_lookup E.
  pose proof (chain_lookup _ _ _ _ _ _ Hc Hi) as Ei. pose proof (chain_lookup _ _ _ _ _ _ Hc Hj) as Ej. rewrite E in Ei.
  assert (NoDup (l ++ [a])) as Hn' by (by rewrite Permutation_app_comm).
  assert (i = j) as -> by (by eapply NoDup_lookup). congruence.
Qed.

(** A ring, seen from one of its nodes. *)
Lemma ring_rotate f a l x : chain f a l a -> x ∈ a :: l -> exists l', chain f x l' x /\ x :: l' ≡ₚ a :: l.
Proof.
  intros Hc [-> |Hin]%elem_of_cons; [by exists l|]. apply list_elem_of_split in Hin as (l1 & l2 & ->). apply chain_app in Hc as [Hc1 Hc2].
  exists (l2 ++ a :: l1). split; [by apply chain_app|]. solve_Permutation.
Qed.

(** ** Blocks *)

Implicit Types (F A : list (Z * Z)) (b c : Z * Z).

Definition bend (b : Z * Z) : Z := b.1 + HDR * b.2.

Definition apart (b c : Z * Z) : Prop := bend b <= c.1 \/ bend c <= b.1.

Fixpoint pairwise (l : list (Z * Z)) : Prop :=
  match l with
  | [] => True
  | b :: l' => Forall (apart b) l' /\ pairwise l'
  end.

Definition total (l : list (Z * Z)) : Z := foldr (fun b n => b.2 + n) 0 l.

(** The blocks are in the order of their addresses, from [a] on, and no two
    of them touch. *)
Fixpoint gaps (a : Z) (l : list (Z * Z)) : Prop :=
  match l with
  | [] => True
  | b :: l' => a < b.1 /\ 0 < b.2 /\ gaps (bend b) l'
  end.

Lemma gaps_weaken a a' l : a' <= a -> gaps a l -> gaps a' l.
Proof. destruct l; simpl; [done|]. intros ? (? & ? & ?). split_and!; (done || lia). Qed.

Lemma gaps_elem a l b : gaps a l -> b ∈ l -> a < b.1 /\ 0 < b.2.
Proof.
  revert a. induction l as [|c l IH]; intros a Hg Hb; [by apply not_elem_of_nil in Hb|].
  destruct Hg as (? & ? & Hg). apply elem_of_cons in Hb as [-> |Hb]; [done|].
  destruct (IH _ Hg Hb). unfold bend, HDR in *. lia.
Qed.

Lemma gaps_app a l l' : gaps a (l ++ l') <-> gaps a l /\ gaps (default a (bend <$> last l)) l'.
Proof.
  revert a. induction l as [|b l IH]; intros a; simpl; [tauto|]. rewrite IH. rewrite last_cons.
  destruct (last l); simpl; tauto.
Qed.

Lemma gaps_nodup a l : gaps a l -> NoDup l.*1.
Proof.
  revert a. induction l as [|b l IH]; intros a; simpl; [intros; constructor|]. intros (? & ? & Hg). constructor; [|by eapply IH].
  intros (c & E & Hc)%list_elem_of_fmap. destruct (gaps_elem _ _ _ Hg Hc). unfold bend, HDR in *. lia.
Qed.

Lemma gaps_split a l x :
  gaps a l -> x ∉ l.*1 -> exists l1 l2, l = l1 ++ l2 /\ Forall (fun b => b.1 < x) l1 /\ Forall (fun b => x < b.1) l2.
Proof.
  revert a. induction l as [|b l IH]; intros a; simpl; [intros; by exists [], []|].
  intros (? & ? & Hg) [Hx Hx']%not_elem_of_cons. destruct (decide (x < b.1)).
  - exists [], (b :: l). split; [done|]. split; [done|]. constructor; [done|]. apply Forall_forall. intros c Hc.
    destruct (gaps_elem _ _ _ Hg Hc). unfold bend, HDR in *. lia.
  - destruct (IH _ Hg Hx') as (l1 & l2 & -> & H1 & H2). exists (b :: l1), l2. split; [done|]. split; [|done]. constructor; [lia|done].
Qed.

Lemma gaps_remove a l b l' : gaps a (l ++ b :: l') -> gaps a (l ++ l').
Proof.
  rewrite !gaps_app. simpl. intros (Hl & Hb & ? & Hl'). split; [done|]. eapply gaps_weaken; [|exact Hl']. unfold bend at 2. unfold HDR. lia.
Qed.

Lemma gaps_shrink a l b c l' : b.1 = c.1 -> 0 < c.2 <= b.2 -> gaps a (l ++ b :: l') -> gaps a (l ++ c :: l').
Proof.
  intros E Hc. rewrite !gaps_app. simpl. rewrite <- E. intros (Hl & Hb & ? & Hl'). split_and!; [done|done|lia|].
  eapply gaps_weaken; [|exact Hl']. unfold bend, HDR in *. lia.
Qed.

Lemma gaps_apart a l b l' : gaps a (l ++ b :: l') -> Forall (apart b) (l ++ l').
Proof.
  intros Hg. apply Forall_app. split; apply Forall_forall; intros c Hc.
  - right. apply list_elem_of_split in Hc as (l1 & l2 & ->). rewrite <- app_assoc in Hg. apply gaps_app in Hg as [_ Hg]. cbn [app] in Hg.
    destruct Hg as (_ & _ & Hg). destruct (gaps_elem _ _ b Hg); [|lia]. apply elem_of_app. right. apply list_elem_of_here.
  - left. apply gaps_app in Hg as [_ (_ & _ & Hg)]. destruct (gaps_elem _ _ c Hg Hc). lia.
Qed.

Lemma total_app l l' : total (l ++ l') = total l + total l'.
Proof. induction l as [|b l IH]; simpl; [done|]. lia. Qed.

Lemma apart_sym b c : apart b c -> apart c b.
Proof. unfold apart. tauto. Qed.

(** ** The place of a block in the list *)

Fixpoint asc (a : Z) (l : list Z) : Prop :=
  match l with
  | [] => True
  | b :: l' => a < b /\ asc b l'
  end.

Lemma asc_weaken a a' l : a' <= a -> asc a l -> asc a' l.
Proof. destruct l; simpl; [done|]. intros ? [? ?]. split; (done || lia). Qed.

Lemma gaps_asc a l : gaps a l -> asc a l.*1.
Proof.
  revert a. induction l as [|b l IH]; intros a; simpl; [done|]. intros (? & ? & Hg). split; [done|].
  eapply asc_weaken; [|by apply IH]. unfold bend, HDR. lia.
Qed.

Lemma asc_app a l x l' : asc a (l ++ x :: l') -> asc x l'.
Proof. revert a. induction l as [|b l IH]; intros a; simpl; intros [? ?]; [done|]. by eapply IH. Qed.

Lemma asc_app_l a l l' : asc a (l ++ l') -> asc a l.
Proof. revert a. induction l as [|b l IH]; intros a; simpl; [done|]. intros [? ?]. split; [done|]. by apply IH. Qed.

Lemma asc_tip a l : asc a l -> a <= tip a l.
Proof. revert a. induction l as [|b l IH]; intros a; simpl; [done|]. intros [? Ha%IH]. rewrite tip_cons. lia. Qed.

Section free_list.
Context {os : Type} (base : Z).
Implicit Types (h : heap os).

Lemma free_place_up bp h z l x fuel :
  chain (hp_ptr h) x l z -> asc x l -> Forall (fun y => y < bp) (x :: l) -> bp < z \/ z <= tip x l -> (length l < fuel)%nat ->
  free_place fuel bp x h = Some (tip x l).
Proof.
  revert x fuel. induction l as [|y l IH]; intros x fuel; simpl; intros Hc Ha [Hx Hl]%Forall_cons Hz Hf; (destruct fuel as [|fuel]; [lia|]); cbn [free_place].
  - unfold tip in *. simpl in *. rewrite Hc. rewrite (proj2 (Z.ltb_lt x bp)) by done. destruct (Z.ltb_spec bp z); [done|].
    by rewrite (proj2 (Z.leb_le z x)) by lia.
  - destruct Hc as [-> Hc]. destruct Ha as [Hxy Ha]. pose proof Hl as [Hy _]%Forall_cons.
    rewrite (proj2 (Z.ltb_ge bp y)), andb_false_r, (proj2 (Z.leb_gt y x)) by lia. simpl.
    rewrite !tip_cons in *. apply IH; (done || lia).
Qed.

Lemma free_place_wrap bp h l x fuel :
  chain (hp_ptr h) x l base -> asc x l -> Forall (fun y => bp < y) (x :: l) -> base < bp ->
  free_place (S (length l) + fuel) bp x h = free_place fuel bp base h.
Proof.
  intros Hc Ha Hl Hb. revert x Hc Ha Hl. induction l as [|y l IH]; intros x; simpl; intros Hc Ha [Hx Hl]%Forall_cons.
  - rewrite Hc. rewrite (proj2 (Z.ltb_ge x bp)), (proj2 (Z.ltb_ge bp base)) by lia. cbn [andb orb]. by rewrite andb_false_r.
  - destruct Hc as [-> Hc]. destruct Ha as [Hxy Ha].
    rewrite (proj2 (Z.ltb_ge x bp)), (proj2 (Z.leb_gt y x)) by lia. simpl. by apply IH.
Qed.

(** From every node of the list the loop of [free] ends at the last node below
    the block. *)
Lemma free_place_spec bp h F1 F2 fuel :
  chain (hp_ptr h) base ((F1 ++ F2).*1) base -> gaps base (F1 ++ F2) -> base < bp ->
  Forall (fun b => b.1 < bp) F1 -> Forall (fun b => bp < b.1) F2 ->
  hp_freep h = base \/ hp_freep h ∈ (F1 ++ F2).*1 -> (length (F1 ++ F2) + 1 < fuel)%nat ->
  free_place fuel bp (hp_freep h) h = Some (tip base F1.*1).
Proof.
  intros Hc Hg%gaps_asc Hb H1 H2 Hfp Hf. rewrite fmap_app in *. rewrite length_app in Hf.
  set (z := match F2 with [] => base | b :: _ => b.1 end).
  assert (chain (hp_ptr h) base F1.*1 z) as Hc1.
  { unfold z. destruct F2 as [|b F2]; simpl in Hc; [by rewrite app_nil_r in Hc|]. by apply chain_app in Hc as [? _]. }
  assert (asc base F1.*1) as Ha1 by (by eapply asc_app_l).
  assert (bp < z \/ z <= tip base F1.*1) as Hz.
  { unfold z. destruct F2 as [|b F2]; [right; by apply asc_tip|left; by apply Forall_cons in H2 as [? _]]. }
  assert (Forall (fun y => y < bp) (base :: F1.*1)) as H1'.
  { constructor; [done|]. by apply Forall_fmap. }
  assert (forall fuel, (length F1 < fuel)%nat -> free_place fuel bp base h = Some (tip base F1.*1)) as Hbase.
  { intros f' Hf'. apply (free_place_up bp h z); (done || by rewrite length_fmap). }
  destruct Hfp as [-> |[Hin|Hin]%elem_of_app]; [apply Hbase; lia| |].
  - apply list_elem_of_split in Hin as (l & l' & E). rewrite E in Hc1, Ha1, H1', Hz |- *.
    apply chain_app in Hc1 as [_ Hc1]. apply asc_app in Ha1. assert (tip base (l ++ hp_freep h :: l') = tip (hp_freep h) l') as Et.
    { unfold tip. rewrite last_app, last_cons. by destruct (last l'). }
    rewrite Et in *. apply (f_equal length) in E. rewrite length_fmap, length_app in E. simpl in E.
    apply (free_place_up bp h z); [done|done| |done|lia]. apply Forall_cons in H1' as [_ H1']. by apply Forall_app in H1' as [_ ?].
  - apply list_elem_of_split in Hin as (l & l' & E). rewrite E in Hc, Hg.
    rewrite app_assoc in Hc, Hg. apply chain_app in Hc as [_ Hc]. apply asc_app in Hg.
    assert (Forall (fun y => bp < y) F2.*1) as H2' by (by apply Forall_fmap). rewrite E in H2'. apply Forall_app in H2' as [_ H2'].
    apply (f_equal length) in E. rewrite length_fmap, length_app in E. simpl in E.
    replace fuel with (S (length l') + (fuel - S (length l')))%nat by lia. rewrite free_place_wrap by done. apply Hbase. lia.
Qed.

End free_list.

(** ** Joining neighbours *)

Definition join (b c : Z * Z) : Z * Z := (b.1, b.2 + c.2).

(** The block [b] before the free blocks [F2]. *)
Definition merge_hi (b : Z * Z) (F2 : list (Z * Z)) : list (Z * Z) :=
  match F2 with
  | c :: F2' => if bend b =? c.1 then join b c :: F2' else b :: F2
  | [] => [b]
  end.

(** The free blocks [F1] before the block [g] and the blocks [G]. *)
Definition merge_lo (F1 : list (Z * Z)) (g : Z * Z) (G : list (Z * Z)) : list (Z * Z) :=
  match last F1 with
  | Some d => if bend d =? g.1 then removelast F1 ++ join d g :: G else F1 ++ g :: G
  | None => F1 ++ g :: G
  end.

Definition released (F1 : list (Z * Z)) (b : Z * Z) (F2 : list (Z * Z)) : list (Z * Z) :=
  match merge_hi b F2 with
  | g :: G => merge_lo F1 g G
  | [] => F1
  end.

Lemma bend_join b c : bend b = c.1 -> bend (join b c) = bend c.
Proof. unfold bend, join, HDR. simpl. lia. Qed.

Lemma merge_hi_cases b F2 :
  (exists c F2', F2 = c :: F2' /\ bend b = c.1 /\ merge_hi b F2 = join b c :: F2') \/
  (merge_hi b F2 = b :: F2 /\ forall c F2', F2 = c :: F2' -> bend b <> c.1).
Proof.
  destruct F2 as [|c F2]; simpl; [right; split; [done|]; congruence|].
  destruct (Z.eqb_spec (bend b) c.1); [left; eauto|right]. split; [done|]. congruence.
Qed.

Lemma merge_lo_cases F1 g G :
  (exists F1' d, F1 = F1' ++ [d] /\ bend d = g.1 /\ merge_lo F1 g G = F1' ++ join d g :: G) \/
  (merge_lo F1 g G = F1 ++ g :: G /\ forall F1' d, F1 = F1' ++ [d] -> bend d <> g.1).
Proof.
  unfold merge_lo. destruct (last F1) as [d|] eqn:E.
  - apply last_Some in E as [F1' ->]. destruct (Z.eqb_spec (bend d) g.1).
    + left. exists F1', d. rewrite removelast_last. eauto.
    + right. split; [done|]. intros F1'' d' [_ [= <-]]%app_inj_tail. done.
  - right. split; [done|]. intros F1' d ->. by rewrite last_snoc in E.
Qed.

(** What holds of the blocks and is kept by joining neighbours holds after a
    release. *)
Lemma merge_hi_forall (P : Z * Z -> Prop) b F2 :
  (forall b c, P b -> P c -> bend b = c.1 -> P (join b c)) -> P b -> Forall P F2 -> Forall P (merge_hi b F2).
Proof.
  intros HP Hb H2. destruct (merge_hi_cases b F2) as [(c & F2' & -> & E & ->)|[-> _]]; [|by constructor].
  apply Forall_cons in H2 as [? ?]. constructor; [by apply HP|done].
Qed.

Lemma merge_hi_suffix b F2 g G : merge_hi b F2 = g :: G -> exists l, F2 = l ++ G.
Proof.
  destruct (merge_hi_cases b F2) as [(c & F2' & -> & E & ->)|[-> _]]; intros [= _ <-]; [by exists [c]|by exists []].
Qed.

Lemma released_forall (P : Z * Z -> Prop) F1 b F2 :
  (forall b c, P b -> P c -> bend b = c.1 -> P (join b c)) ->
  P b -> Forall P (F1 ++ F2) -> Forall P (released F1 b F2).
Proof.
  intros HP Hb [H1 H2]%Forall_app. unfold released.
  pose proof (merge_hi_forall P b F2 HP Hb H2) as Hm. destruct (merge_hi b F2) as [|g G]; [done|]. apply Forall_cons in Hm as [Hg HG].
  destruct (merge_lo_cases F1 g G) as [(F1' & d & -> & E & ->)|[-> _]].
  - apply Forall_app in H1 as [H1 [Hd _]%Forall_cons]. apply Forall_app. split; [done|]. constructor; [by apply HP|done].
  - apply Forall_app. split; [done|]. by constructor.
Qed.

Lemma released_total F1 b F2 : total (released F1 b F2) = total F1 + b.2 + total F2.
Proof.
  unfold released. destruct (merge_hi_cases b F2) as [(c & F2' & -> & E & ->)|[-> _]].
  - destruct (merge_lo_cases F1 (join b c) F2') as [(F1' & d & -> & E' & ->)|[-> _]]; rewrite !total_app; simpl; lia.
  - destruct (merge_lo_cases F1 b F2) as [(F1' & d & -> & E' & ->)|[-> _]]; rewrite !total_app; simpl; lia.
Qed.

Lemma released_has F1 b F2 :
  Forall (fun c => 0 < c.2) (F1 ++ F2) -> exists g, g ∈ released F1 b F2 /\ b.2 <= g.2.
Proof.
  intros [H1 H2]%Forall_app. unfold released.
  assert (exists g G, merge_hi b F2 = g :: G /\ b.2 <= g.2) as (g & G & -> & Hg).
  { destruct (merge_hi_cases b F2) as [(c & F2' & -> & E & ->)|[-> _]]; [|by exists b, F2].
    apply Forall_cons in H2 as [? _]. exists (join b c), F2'. split; [done|]. simpl. lia. }
  destruct (merge_lo_cases F1 g G) as [(F1' & d & -> & E & ->)|[-> _]].
  - apply Forall_app in H1 as [_ [? _]%Forall_cons]. exists (join d g). split; [apply elem_of_app; right; apply list_elem_of_here|]. simpl. lia.
  - exists g. split; [apply elem_of_app; right; apply list_elem_of_here|done].
Qed.

Lemma released_length F1 b F2 : (length (released F1 b F2) <= S (length (F1 ++ F2)))%nat.
Proof.
  unfold released. destruct (merge_hi_cases b F2) as [(c & F2' & -> & E & ->)|[-> _]].
  - destruct (merge_lo_cases F1 (join b c) F2') as [(F1' & d & -> & E' & ->)|[-> _]]; rewrite !length_app; simpl; lia.
  - destruct (merge_lo_cases F1 b F2) as [(F1' & d & -> & E' & ->)|[-> _]]; rewrite !length_app; simpl; lia.
Qed.

Lemma total_nonneg top l : Forall (fun b => 0 < b.2 /\ bend b <= top) l -> 0 <= total l.
Proof. induction 1; simpl; lia. Qed.

Lemma released_gaps a F1 b F2 :
  gaps a (F1 ++ F2) -> a < b.1 -> 0 < b.2 -> Forall (fun c => c.1 < b.1) F1 -> Forall (fun c => b.1 < c.1) F2 ->
  Forall (apart b) (F1 ++ F2) -> gaps a (released F1 b F2).
Proof.
  intros Hg Ha Hb H1 H2 Hap. apply gaps_app in Hg as [Hg1 Hg2].
  assert (Forall (fun c => bend c <= b.1) F1) as He1.
  { apply Forall_forall. intros c Hc. rewrite !Forall_forall in *. pose proof (H1 c Hc).
    destruct (Hap c) as [Hx|Hx]; [apply elem_of_app; by left| |done]. unfold bend, HDR in *. lia. }
  assert (exists g G, merge_hi b F2 = g :: G /\ g.1 = b.1 /\ 0 < g.2 /\ gaps (bend g) G) as (g & G & Hm & Eg & Hg0 & HG).
  { apply Forall_app in Hap as [_ Hap]. destruct (merge_hi_cases b F2) as [(c & F2' & -> & E & ->)|[-> Hne]].
    - destruct Hg2 as (? & ? & Hg2). exists (join b c), F2'. rewrite bend_join by done. split_and!; (done || simpl; lia).
    - exists b, F2. split_and!; [done|done|done|]. destruct F2 as [|c F2]; [done|]. destruct Hg2 as (? & ? & Hg2). simpl. split_and!; [|done|done].
      specialize (Hne c F2 eq_refl). apply Forall_cons in Hap as [[?|?] _]; [lia|]. apply Forall_cons in H2 as [? _]. unfold bend, HDR in *. lia. }
  unfold released. rewrite Hm. destruct (merge_lo_cases F1 g G) as [(F1' & d & -> & E & ->)|[-> Hne]]; apply gaps_app.
  - apply gaps_app in Hg1 as [Hg1 Hd]. split; [done|]. simpl in Hd |- *. rewrite bend_join by done. split_and!; [tauto|lia|done].
  - split; [done|]. simpl. split_and!; [|done|done]. destruct (last F1) as [d|] eqn:E; simpl; [|lia].
    apply last_Some in E as [F1' ->]. specialize (Hne F1' d eq_refl). apply Forall_app in He1 as [_ [? _]%Forall_cons]. lia.
Qed.

Section link.
Context {os : Type} (base : Z).
Implicit Types (h : heap os).

(** The address that follows the free blocks of a list. *)
Definition after (F2 : list (Z * Z)) (z : Z) : Z := match F2 with [] => z | c :: _ => c.1 end.

Lemma chain_after f a F1 F2 z :
  chain f a (F1 ++ F2).*1 z -> chain f a F1.*1 (after F2 z) /\ forall c F2', F2 = c :: F2' -> chain f c.1 F2'.*1 z.
Proof.
  rewrite fmap_app. destruct F2 as [|c F2]; cbn [fmap list_fmap after]; [rewrite app_nil_r; by split|].
  intros [Hc1 Hc2]%chain_app. split; [done|]. intros c' F2' [= <- <-]. done.
Qed.

Definition sized h F : Prop := forall b, b ∈ F -> hp_size h b.1 = b.2.

Lemma hadd_small p n : 0 <= p + HDR * n < 2 ^ 64 -> hadd p n = p + HDR * n.
Proof. apply u64_small. Qed.

Lemma link_next_spec bp n F2 p h :
  hp_size h bp = n -> hp_ptr h p = after F2 base -> (forall c F2', F2 = c :: F2' -> chain (hp_ptr h) c.1 F2'.*1 base) ->
  sized h F2 -> bp ∉ F2.*1 -> 0 <= base < bp -> 0 < n -> bp + HDR * n < 2 ^ 31 ->
  Forall (fun c => 0 < c.1 /\ 0 < c.2 /\ bend c < 2 ^ 31) F2 -> NoDup F2.*1 ->
  exists g G, merge_hi (bp, n) F2 = g :: G /\ g.1 = bp /\
    let h1 := link_next bp p h in
    chain (hp_ptr h1) bp G.*1 base /\ sized h1 (g :: G) /\
    (forall x, x <> bp -> hp_ptr h1 x = hp_ptr h x /\ hp_size h1 x = hp_size h x) /\
    hp_freep h1 = hp_freep h /\ hp_os h1 = hp_os h.
Proof.
  intros Hn Hp Hc Hs Hbp Hb Hn0 Hend HF Hnd. unfold link_next. rewrite Hn, Hp, hadd_small by (unfold HDR in *; lia). change (bp + HDR * n) with (bend (bp, n)).
  destruct (merge_hi_cases (bp, n) F2) as [(c & F2' & -> & E & ->)|[-> Hne]].
  - exists (join (bp, n) c), F2'. split; [done|]. split; [done|]. cbn [after]. rewrite E, Z.eqb_refl. cbn zeta.
    specialize (Hc c F2' eq_refl). cbn in Hbp, Hnd. apply not_elem_of_cons in Hbp as [Hbc Hbp]. apply NoDup_cons in Hnd as [Hcn Hnd].
    apply Forall_cons in HF as [(? & ? & Hce) HF]. pose proof (Hs c ltac:(apply list_elem_of_here)) as Hcs.
    assert (bend c = bp + HDR * (n + c.2)) as Hbc' by (unfold bend in *; simpl in *; unfold HDR in *; lia).
    cbn [set_ptr set_size hp_ptr hp_size hp_freep hp_os]. split; [|split; [|split; [|done]]].
    + destruct F2' as [|d F2']; simpl in Hc |- *; [by rewrite fn_lookup_insert|]. rewrite fn_lookup_insert. destruct Hc as [-> Hc].
      split; [done|]. by apply chain_insert_ne.
    + intros b [-> |Hb']%elem_of_cons; cbn [set_size set_ptr hp_size join fst snd].
      * rewrite fn_lookup_insert, Hcs, u32_small by (unfold HDR in *; lia). done.
      * rewrite fn_lookup_insert_ne; [|intros ->; apply Hbp; by apply (list_elem_of_fmap_2 fst)]. apply Hs. by apply list_elem_of_further.
    + intros x Hx. cbn [set_size set_ptr hp_size hp_ptr]. by rewrite !fn_lookup_insert_ne by done.
  - exists (bp, n), F2. split; [done|]. split; [done|].
    assert (bend (bp, n) =? after F2 base = false) as ->.
    { apply Z.eqb_neq. destruct F2 as [|c F2]; [unfold bend, HDR; simpl; lia|]. by apply (Hne c F2). }
    cbn [set_ptr hp_ptr hp_size hp_freep hp_os]. split; [|split; [|split; [|done]]].
    + destruct F2 as [|d F2]; simpl; [by rewrite fn_lookup_insert|]. rewrite fn_lookup_insert. split; [done|]. apply chain_insert_ne; [done|]. by apply Hc.
    + intros b [-> |Hb']%elem_of_cons; [done|by apply Hs].
    + intros x Hx. cbn [set_ptr hp_size hp_ptr]. by rewrite !fn_lookup_insert_ne by done.
Qed.

(** A block [d] that ends where the block [g] begins takes it over, *)
Lemma link_prev_join bp g G F1 d z h :
  chain (hp_ptr h) base (F1 ++ [d]).*1 z -> chain (hp_ptr h) bp G.*1 base -> sized h (F1 ++ [d]) -> sized h (g :: G) -> g.1 = bp ->
  NoDup (base :: (F1 ++ [d]).*1 ++ bp :: G.*1) -> bend d = bp -> 0 < d.1 -> 0 < d.2 -> 0 < g.2 -> bend g < 2 ^ 31 ->
  let h2 := link_prev bp d.1 h in
  chain (hp_ptr h2) base (F1 ++ join d g :: G).*1 base /\ sized h2 (F1 ++ join d g :: G) /\
  (forall x, x <> d.1 -> hp_size h2 x = hp_size h x) /\ hp_os h2 = hp_os h.
Proof.
  intros Hc1 Hc2 Hs1 Hs2 Hg Hnd E ? ? ? ?. cbv zeta. unfold link_prev. rewrite fmap_app in *. cbn [fmap list_fmap] in *.
  apply NoDup_cons in Hnd as [Hbn (Hn1 & Hd12 & _)%NoDup_app].
  pose proof (Hs1 d ltac:(apply elem_of_app; right; apply list_elem_of_here)) as Hds.
  assert (hp_size h bp = g.2) as Hgs by (rewrite <- Hg; apply Hs2, list_elem_of_here).
  assert (bend g = d.1 + HDR * (d.2 + g.2)) as He by (unfold bend in *; lia).
  rewrite Hds, hadd_small by (unfold bend, HDR in *; lia). change (d.1 + HDR * d.2) with (bend d). rewrite E, Z.eqb_refl.
  apply chain_app in Hc1 as [Hc1 _]. apply NoDup_app in Hn1 as (Hn1 & Hdn & _).
  assert (d.1 ∉ base :: F1.*1) as Hd1.
  { intros [Ed|Hin]%elem_of_cons; [|by apply (Hdn d.1), list_elem_of_here].
    apply Hbn. rewrite <- Ed. apply elem_of_app. left. apply elem_of_app. right. apply list_elem_of_here. }
  assert (d.1 <> bp /\ d.1 ∉ G.*1) as [Hdb HdG].
  { apply not_elem_of_cons, Hd12, elem_of_app. right. apply list_elem_of_here. }
  cbn [set_ptr set_size hp_ptr hp_size hp_os]. split; [|split; [|split; [|done]]].
  - cbn [join fst]. apply chain_app. split; [by apply chain_insert_ne|]. by apply (chain_redirect _ _ bp).
  - intros b [Hb'|[-> |Hb']%elem_of_cons]%elem_of_app; cbn [set_ptr set_size hp_size join fst snd].
    + rewrite fn_lookup_insert_ne; [apply Hs1, elem_of_app; by left|]. intros Ed. apply Hd1, list_elem_of_further. rewrite Ed. by apply (list_elem_of_fmap_2 fst).
    + rewrite fn_lookup_insert, Hgs, u32_small by (unfold HDR in *; lia). done.
    + rewrite fn_lookup_insert_ne; [apply Hs2, list_elem_of_further, Hb'|]. intros Ed. apply HdG. rewrite Ed. by apply (list_elem_of_fmap_2 fst).
  - intros x Hx. by rewrite fn_lookup_insert_ne.
Qed.

(** otherwise the block before [g] is linked to it. *)
Lemma link_prev_link bp g G F1 z h :
  chain (hp_ptr h) base F1.*1 z -> chain (hp_ptr h) bp G.*1 base -> sized h F1 -> sized h (g :: G) -> g.1 = bp ->
  NoDup (base :: F1.*1 ++ bp :: G.*1) -> hadd (tip base F1.*1) (hp_size h (tip base F1.*1)) <> bp ->
  let h2 := link_prev bp (tip base F1.*1) h in
  chain (hp_ptr h2) base (F1 ++ g :: G).*1 base /\ sized h2 (F1 ++ g :: G) /\ hp_size h2 = hp_size h /\ hp_os h2 = hp_os h.
Proof.
  intros Hc1 Hc2 Hs1 Hs2 Hg Hnd Hne%Z.eqb_neq. cbv zeta. unfold link_prev. rewrite Hne.
  apply NoDup_cons in Hnd as [Hbn (Hn1 & Hd12 & _)%NoDup_app].
  cbn [set_ptr hp_ptr hp_size hp_os]. split; [|split; [|done]].
  - rewrite fmap_app. cbn [fmap list_fmap]. rewrite Hg. apply chain_app. split.
    + apply (chain_retarget _ _ _ z); [|done]. constructor; [|done]. intros Hin. apply Hbn, elem_of_app. by left.
    + apply chain_insert_ne; [|done]. intros Hin. pose proof (tip_in base F1.*1) as [Et|Ht]%elem_of_cons; [|by apply (Hd12 _ Ht)].
      apply Hbn, elem_of_app. right. by rewrite <- Et.
  - intros b [Hb'|Hb']%elem_of_app; [by apply Hs1|by apply Hs2].
Qed.

Lemma link_prev_spec bp g G F1 z h :
  chain (hp_ptr h) base F1.*1 z -> chain (hp_ptr h) bp G.*1 base -> sized h F1 -> sized h (g :: G) -> g.1 = bp ->
  hp_size h base = 0 -> NoDup (base :: F1.*1 ++ bp :: G.*1) -> 0 <= base < bp ->
  Forall (fun c => 0 < c.1 /\ 0 < c.2 /\ bend c < 2 ^ 31) (F1 ++ g :: G) ->
  let h2 := link_prev bp (tip base F1.*1) h in
  chain (hp_ptr h2) base (merge_lo F1 g G).*1 base /\ sized h2 (merge_lo F1 g G) /\
  (forall x, x ∉ F1.*1 -> hp_size h2 x = hp_size h x) /\
  (tip base F1.*1 = base \/ tip base F1.*1 ∈ (merge_lo F1 g G).*1) /\ hp_os h2 = hp_os h.
Proof.
  intros Hc1 Hc2 Hs1 Hs2 Hg Hsb Hnd Hb [HF1 [(? & ? & ?) HF2]%Forall_cons]%Forall_app. cbv zeta.
  destruct (merge_lo_cases F1 g G) as [(F1' & d & -> & E & ->)|[-> Hne]].
  - apply Forall_app in HF1 as [_ [(? & ? & ?) _]%Forall_cons].
    destruct (link_prev_join bp g G F1' d z h) as (R1 & R2 & R3 & R4); try done; [by rewrite <- Hg|].
    assert (tip base (F1' ++ [d]).*1 = d.1) as -> by (rewrite fmap_app; apply tip_app).
    split_and!; [done|done| | |done].
    + intros x Hx. apply R3. intros ->. apply Hx. rewrite fmap_app. apply elem_of_app. right. apply list_elem_of_here.
    + right. rewrite fmap_app. apply elem_of_app. right. apply list_elem_of_here.
  - destruct (link_prev_link bp g G F1 z h) as (R1 & R2 & R3 & R4); [done..| |].
    { destruct F1 as [|d F1' _] using rev_ind.
      - unfold tip. cbn. rewrite Hsb, hadd_small; unfold bend, HDR in *; lia.
      - specialize (Hne F1' d eq_refl). rewrite fmap_app. cbn [fmap list_fmap]. rewrite tip_app. apply Forall_app in HF1 as [_ [(? & ? & ?) _]%Forall_cons].
        rewrite Hs1 by (apply elem_of_app; right; apply list_elem_of_here). rewrite hadd_small by (unfold bend, HDR in *; lia). by rewrite <- Hg. }
    split_and!; [done|done|by rewrite R3| |done]. pose proof (tip_in base F1.*1) as [Et|Ht]%elem_of_cons; [by left|right].
    rewrite fmap_app. apply elem_of_app. by left.
Qed.

End link.

(** ** The heap *)

Section heap.
Context {os : Type} `{SbrkOk os} (base lo : Z).
Implicit Types (h : heap os).

(** A block is in the heap, at a multiple of the size of a header. *)
Definition in_heap (top : Z) (b : Z * Z) : Prop := lo <= b.1 /\ b.1 mod HDR = 0 /\ 0 < b.2 /\ bend b <= top.

Record heap_inv h F A : Prop := {
  hi_ring : chain (hp_ptr h) base F.*1 base;
  hi_base : hp_size h base = 0;
  hi_size : sized h (F ++ A);
  hi_freep : hp_freep h = base \/ hp_freep h ∈ F.*1;
  hi_lo : 0 < base < lo /\ lo mod HDR = 0;
  hi_gaps : gaps (lo - 1) F;
  hi_in : Forall (in_heap (brk (hp_os h))) (F ++ A);
  hi_apart : Forall (fun c => Forall (apart c) F) A;
  hi_pair : pairwise A;
  hi_total : HDR * (total F + total A) = brk (hp_os h) - lo
}.

Lemma join_in_heap top b c : in_heap top b -> in_heap top c -> bend b = c.1 -> in_heap top (join b c).
Proof. intros (? & ? & ? & ?) (? & ? & ? & ?) E. unfold in_heap. rewrite bend_join by done. simpl. split_and!; (done || lia). Qed.

Lemma join_apart x b c : 0 < x.2 -> bend b = c.1 -> apart x b -> apart x c -> apart x (join b c).
Proof. unfold apart. intros Hx E. rewrite bend_join by done. unfold bend, join, HDR in *. simpl. lia. Qed.

Lemma in_heap_mono top top' l : top <= top' -> Forall (in_heap top) l -> Forall (in_heap top') l.
Proof. intros Ht Hl. eapply Forall_impl; [exact Hl|]. intros b (? & ? & ? & ?). unfold in_heap. split_and!; (done || lia). Qed.

(** A block that is apart from the free blocks. *)
Lemma apart_addr b F : 0 < b.2 -> Forall (fun c => 0 < c.2) F -> Forall (apart b) F -> b.1 ∉ F.*1.
Proof.
  intros Hb HF Hap (c & E & Hc)%list_elem_of_fmap. rewrite !Forall_forall in *. specialize (HF c Hc).
  destruct (Hap c Hc); unfold bend, HDR in *; lia.
Qed.

Lemma gaps_base_nodup F1 F2 x :
  gaps base (F1 ++ F2) -> base < x -> x ∉ (F1 ++ F2).*1 -> NoDup (base :: F1.*1 ++ x :: F2.*1).
Proof.
  intros Hg Hx Hn. assert (base ∉ (F1 ++ F2).*1) as Hb.
  { intros (c & E & Hc)%list_elem_of_fmap. destruct (gaps_elem _ _ _ Hg Hc). lia. }
  apply gaps_nodup in Hg. rewrite fmap_app in *. rewrite <- Permutation_middle. constructor.
  - apply not_elem_of_cons. split; [lia|done].
  - by constructor.
Qed.

(** The links after [free], for a block that is apart from the free ones. *)
Lemma free_link_spec h F1 F2 b :
  chain (hp_ptr h) base (F1 ++ F2).*1 base -> hp_size h base = 0 -> sized h (b :: F1 ++ F2) -> 0 < base < lo ->
  gaps (lo - 1) (F1 ++ F2) -> Forall (in_heap (brk (hp_os h))) (b :: F1 ++ F2) -> Forall (apart b) (F1 ++ F2) ->
  let h' := free_link b.1 (tip base F1.*1) h in
  chain (hp_ptr h') base (released F1 b F2).*1 base /\ sized h' (released F1 b F2) /\
  (forall x, x ∉ F1.*1 -> x <> b.1 -> hp_size h' x = hp_size h x) /\
  (tip base F1.*1 = base \/ tip base F1.*1 ∈ (released F1 b F2).*1) /\ hp_os h' = hp_os h.
Proof.
  intros Hring Hbase Hsize Hb Hgaps [Hbin Hin]%Forall_cons Hap. cbv zeta.
  pose proof (brk_bound (hp_os h)) as Htop. assert (b.1 ∉ (F1 ++ F2).*1) as Hbn.
  { apply apart_addr; [apply Hbin| |done]. eapply Forall_impl; [exact Hin|]. by intros c (_ & _ & ? & _). }
  assert (Forall (fun c => 0 < c.1 /\ 0 < c.2 /\ bend c < 2 ^ 31) (F1 ++ merge_hi b F2)) as Hbd.
  { apply Forall_app in Hin as [Hin1 Hin2]. eapply (Forall_impl (in_heap (brk (hp_os h)))).
    - apply Forall_app. split; [done|]. apply merge_hi_forall; [apply join_in_heap|done|done].
    - intros c (? & ? & ? & ?). split_and!; lia. }
  assert (gaps base (F1 ++ F2)) as Hg by (eapply gaps_weaken; [|exact Hgaps]; lia).
  assert (base < b.1) as Hbb by (destruct Hbin; lia).
  pose proof (gaps_base_nodup F1 F2 b.1 Hg Hbb Hbn) as Hnd.
  apply chain_after in Hring as [Hc1 Hc2].
  assert (b.1 ∉ base :: F1.*1 /\ b.1 ∉ F2.*1 /\ NoDup F2.*1) as (Hb1 & Hb2 & Hn2).
  { rewrite <- Permutation_middle, Permutation_swap in Hnd. apply NoDup_cons in Hnd as [Hx [_ Hnd]%NoDup_cons].
    apply NoDup_app in Hnd as (_ & _ & Hnd). rewrite app_comm_cons in Hx. split_and!; [..|done]; intros Hy; apply Hx, elem_of_app; tauto. }
  destruct (link_next_spec base b.1 b.2 F2 (tip base F1.*1) h) as (g & G & Em & Eg & Hn).
  - apply Hsize, list_elem_of_here.
  - by apply chain_tip in Hc1.
  - exact Hc2.
  - intros c Hc. apply Hsize. apply list_elem_of_further, elem_of_app. by right.
  - done.
  - lia.
  - apply Hbin.
  - destruct Hbin as (_ & _ & _ & Hx). unfold bend in Hx. lia.
  - apply Forall_app in Hin as [_ Hin]. eapply Forall_impl; [exact Hin|]. intros c (? & ? & ? & ?). split_and!; lia.
  - done.
  - destruct b as [bp n]. cbn [fst snd] in *. cbv zeta in Hn. destruct Hn as (L1 & L2 & L3 & L4 & L5). rewrite Em in Hbd.
    destruct (merge_hi_suffix _ _ _ _ Em) as [l El].
    destruct (link_prev_spec base bp g G F1 (after F2 base) (link_next bp (tip base F1.*1) h)) as (R1 & R2 & R3 & R4 & R5); try done.
    + eapply ring_ext; [|exact Hc1]. intros x Hx. apply L3. by intros ->.
    + intros c Hc. rewrite (proj2 (L3 c.1 ltac:(intros E; apply Hb1; rewrite <- E; apply list_elem_of_further; by apply (list_elem_of_fmap_2 fst)))).
      apply Hsize. apply list_elem_of_further, elem_of_app. by left.
    + rewrite (proj2 (L3 base ltac:(lia))). done.
    + eapply sublist_NoDup; [exact Hnd|]. apply sublist_skip, sublist_app; [done|]. apply sublist_skip. rewrite El, fmap_app. apply sublist_inserts_l. done.
    + lia.
    + unfold released, free_link. rewrite Em. cbn [set_freep hp_ptr hp_size hp_os]. split_and!; [done|done| |done|by rewrite R5].
      intros x Hx Hx'. rewrite R3 by done. by apply L3.
Qed.


(** [free] puts a block back and joins it to its free neighbours. *)
Lemma free_spec h F A b fuel :
  heap_inv h F (b :: A) -> (length F + 1 < fuel)%nat ->
  exists h' F1 F2, free fuel (b.1 + HDR) h = Some h' /\ F = F1 ++ F2 /\ heap_inv h' (released F1 b F2) A /\ hp_os h' = hp_os h /\
    hp_freep h' = tip base F1.*1 /\ Forall (fun c => c.1 < b.1) F1 /\ Forall (fun c => b.1 < c.1) F2.
Proof.
  intros [Hring Hbase Hsize Hfp [Hb Hlo] Hgaps [HinF [Hbin HinA]%Forall_cons]%Forall_app [Hap Hap']%Forall_cons [Hpb Hpw] Htot] Hfuel.
  assert (b.1 ∉ F.*1) as Hbn.
  { apply apart_addr; [apply Hbin| |done]. eapply Forall_impl; [exact HinF|]. by intros c (_ & _ & ? & _). }
  destruct (gaps_split (lo - 1) F b.1 Hgaps Hbn) as (F1 & F2 & -> & H1 & H2).
  assert (gaps base (F1 ++ F2)) as Hg by (eapply gaps_weaken; [|exact Hgaps]; lia).
  destruct (free_link_spec h F1 F2 b) as (R1 & R2 & R3 & R4 & R5); try done.
  { intros c [-> |Hc]%elem_of_cons; apply Hsize, elem_of_app; [right; apply list_elem_of_here|by left]. }
  { by constructor. }
  exists (free_link b.1 (tip base F1.*1) h), F1, F2. pose proof (brk_bound (hp_os h)). destruct Hbin as (? & ? & ? & ?).
  unfold free. rewrite Z.add_simpl_r, u64_small by (unfold bend, HDR in *; lia). rewrite (free_place_spec base b.1 h F1 F2) by (done || lia).
  split; [done|]. split; [done|]. split; [|done]. split; rewrite ?R5.
  - done.
  - rewrite R3; [done| |lia]. intros (c & E & Hc)%list_elem_of_fmap. destruct (gaps_elem _ _ c Hg) as [? _]; [apply elem_of_app; by left|lia].
  - intros c [Hc|Hc]%elem_of_app; [by apply R2|]. pose proof (proj1 (Forall_forall _ _) HinA c Hc) as (_ & _ & Hc0 & _).
    rewrite R3; [apply Hsize, elem_of_app; right; by apply list_elem_of_further| |].
    + intros Hx. apply (apart_addr c (F1 ++ F2)); [done| |by apply (proj1 (Forall_forall _ _) Hap')|rewrite fmap_app; apply elem_of_app; by left].
      eapply Forall_impl; [exact HinF|]. by intros x (_ & _ & ? & _).
    + pose proof (proj1 (Forall_forall _ _) Hpb c Hc) as [?|?]; unfold bend, HDR in *; lia.
  - done.
  - done.
  - by apply released_gaps; try done; lia.
  - apply Forall_app. split; [|done]. apply released_forall; [apply join_in_heap|done|done].
  - apply Forall_forall. intros c Hc. pose proof (proj1 (Forall_forall _ _) HinA c Hc) as (_ & _ & Hc0 & _).
    apply released_forall; [intros x y Hx Hy E; by apply join_apart| |by apply (proj1 (Forall_forall _ _) Hap')].
    apply apart_sym. by apply (proj1 (Forall_forall _ _) Hpb).
  - done.
  - rewrite released_total. rewrite total_app in Htot. simpl in Htot. lia.
Qed.

(** ** Taking a block *)

Lemma total_middle l b l' : total (l ++ b :: l') = total l + b.2 + total l'.
Proof. rewrite total_app. simpl. lia. Qed.

Lemma apart_sub b b' c : b.1 <= b'.1 -> bend b' <= bend b -> apart c b -> apart c b'.
Proof. unfold apart. lia. Qed.

Lemma ring_nodup F : gaps base F -> NoDup (base :: F.*1).
Proof.
  intros Hg. constructor; [|by eapply gaps_nodup]. intros (c & E & Hc)%list_elem_of_fmap. destruct (gaps_elem _ _ _ Hg Hc). lia.
Qed.

(** All of a free block is taken. *)
Lemma take_all_inv h X b Y A :
  heap_inv h (X ++ b :: Y) A ->
  heap_inv (set_freep (tip base X.*1) (set_ptr (tip base X.*1) (hp_ptr h b.1) h)) (X ++ Y) (b :: A).
Proof.
  intros [Hring Hbase Hsize Hfp [Hb Hlo] Hgaps Hin Hap Hpw Htot].
  assert (X ++ b :: Y ≡ₚ b :: X ++ Y) as Hp by (by rewrite <- Permutation_middle).
  assert (gaps base (X ++ b :: Y)) as Hg by (eapply gaps_weaken; [|exact Hgaps]; lia).
  split; cbn [set_freep set_ptr hp_ptr hp_size hp_freep hp_os].
  - apply ring_nodup in Hg. rewrite fmap_app in *. by apply chain_unlink.
  - done.
  - intros c Hc. apply Hsize. rewrite Hp. by rewrite <- Permutation_middle in Hc.
  - pose proof (tip_in base X.*1) as [Et|Ht]%elem_of_cons; [by left|right]. rewrite fmap_app. apply elem_of_app. by left.
  - done.
  - by eapply gaps_remove.
  - rewrite Hp in Hin. cbn in Hin. by rewrite <- Permutation_middle.
  - constructor; [by eapply gaps_apart|]. eapply Forall_impl; [exact Hap|]. intros c Hc. cbv beta in *. rewrite Hp in Hc. by apply Forall_cons in Hc as [_ ?].
  - split; [|done]. eapply Forall_impl; [exact Hap|]. intros c Hc. cbv beta in *. rewrite Hp in Hc. apply Forall_cons in Hc as [? _]. by apply apart_sym.
  - rewrite total_middle in Htot. rewrite total_app. simpl. lia.
Qed.

(** The upper end of a free block is taken. *)
Lemma take_part_inv h X b Y A n prevp :
  heap_inv h (X ++ b :: Y) A -> 0 < n < b.2 -> prevp ∈ base :: X.*1 ->
  let q := b.1 + HDR * (b.2 - n) in
  heap_inv (set_freep prevp (set_size q n (set_size b.1 (b.2 - n) h))) (X ++ (b.1, b.2 - n) :: Y) ((q, n) :: A).
Proof.
  intros [Hring Hbase Hsize Hfp [Hb Hlo] Hgaps Hin Hap Hpw Htot] Hn Hprev q.
  set (b' := (b.1, b.2 - n)). set (a := (q, n)).
  assert (forall l, X ++ l :: Y ≡ₚ l :: X ++ Y) as Hp by (intros l; by rewrite <- Permutation_middle).
  assert (bend a = bend b /\ bend b' = q) as [Ea Eb'] by (unfold bend, a, b', q, HDR; simpl; lia).
  assert (b.1 < q) as Hq by (unfold q, HDR; lia).
  pose proof (gaps_apart _ _ _ _ Hgaps) as Hbap. rewrite !Hp in Hin. cbn in Hin. apply Forall_cons in Hin as [Hbin Hin].
  assert (forall c, apart c b -> 0 < c.2 -> c.1 <> b.1 /\ c.1 <> q) as Hne.
  { intros c Hc ?. unfold apart in Hc. rewrite <- Ea in Hc. unfold bend, a in Hc. simpl in Hc. unfold HDR in *. lia. }
  split; cbn [set_freep set_size hp_ptr hp_size hp_freep hp_os].
  - by rewrite fmap_app in *.
  - assert (lo <= b.1) by apply Hbin. by rewrite !fn_lookup_insert_ne by lia.
  - intros c Hc. rewrite <- Permutation_middle in Hc. rewrite Hp in Hc. cbn in Hc. apply elem_of_cons in Hc as [-> |Hc]; [unfold a; cbn; by rewrite fn_lookup_insert|].
    apply elem_of_cons in Hc as [-> |Hc]; [unfold b'; cbn; rewrite fn_lookup_insert_ne by lia; by rewrite fn_lookup_insert|].
    assert (apart c b) as Hcb.
    { apply elem_of_app in Hc as [Hc|Hc]; [apply apart_sym; by apply (proj1 (Forall_forall _ _) Hbap)|].
      pose proof (proj1 (Forall_forall _ _) Hap c Hc) as Hx. cbv beta in Hx. rewrite Hp in Hx. by apply Forall_cons in Hx as [? _]. }
    destruct (Hne c Hcb) as [? ?]; [by apply (proj1 (Forall_forall _ _) Hin)|]. cbn. rewrite !fn_lookup_insert_ne by done.
    apply Hsize. rewrite Hp. by apply list_elem_of_further.
  - apply elem_of_cons in Hprev as [-> |Hprev]; [by left|right]. rewrite fmap_app. apply elem_of_app. by left.
  - done.
  - eapply gaps_shrink; [|..|exact Hgaps]; simpl; [done|lia].
  - rewrite <- Permutation_middle, Hp. cbn. destruct Hbin as (? & Hm & ? & ?). constructor; [|constructor; [|done]]; unfold in_heap; rewrite ?Ea, ?Eb'; simpl.
    + split_and!; [lia| |lia|done]. unfold q. rewrite Z.mul_comm, Z_mod_plus_full. done.
    + split_and!; [done|done|lia|]. rewrite <- Ea in *. unfold bend, a in *. simpl in *. unfold HDR in *. lia.
  - assert (forall c, apart c b -> apart c b') as Hsub by (intros c; apply apart_sub; [done|rewrite Eb', <- Ea; unfold bend, a, HDR; simpl; lia]).
    constructor.
    + rewrite Hp. constructor; [right; rewrite Eb'; simpl; lia|]. eapply Forall_impl; [exact Hbap|]. intros c Hc. apply apart_sym, (apart_sub b); [simpl; lia|by rewrite Ea|by apply apart_sym].
    + eapply Forall_impl; [exact Hap|]. intros c Hc. cbv beta in *. rewrite Hp in *. apply Forall_cons in Hc as [? ?]. constructor; [by apply Hsub|done].
  - split; [|done]. eapply Forall_impl; [exact Hap|]. intros c Hc. cbv beta in *. rewrite Hp in Hc. apply Forall_cons in Hc as [Hc _].
    apply apart_sym, (apart_sub b); [simpl; lia|by rewrite Ea|done].
  - rewrite total_middle in *. simpl. lia.
Qed.

(** The block [b] fits: [malloc_take] takes all of it, or its upper end. *)
Lemma take_spec h X b Y A n :
  heap_inv h (X ++ b :: Y) A -> 0 < n <= b.2 ->
  exists h' F' a, malloc_take n (tip base X.*1) b.1 h = (a + HDR, h') /\ heap_inv h' F' ((a, n) :: A) /\ hp_os h' = hp_os h.
Proof.
  intros Hinv Hn. pose proof Hinv as [_ _ Hsize _ [Hb _] _ Hin _ _ _].
  assert (b ∈ (X ++ b :: Y) ++ A) as Hbin by (apply elem_of_app; left; apply elem_of_app; right; apply list_elem_of_here).
  destruct (proj1 (Forall_forall _ _) Hin b Hbin) as (? & ? & ? & ?). pose proof (brk_bound (hp_os h)).
  unfold malloc_take. rewrite (Hsize b Hbin). destruct (Z.eqb_spec b.2 n) as [<- |Hne].
  - eexists _, (X ++ Y), b.1. rewrite hadd_small by (unfold bend, HDR in *; lia). split; [by rewrite Z.mul_1_r|]. split; [|done].
    rewrite <- surjective_pairing. by apply take_all_inv.
  - cbn [set_size hp_size]. rewrite fn_lookup_insert, !hadd_small by (rewrite ?hadd_small; unfold bend, HDR in *; lia).
    eexists _, _, (b.1 + HDR * (b.2 - n)). rewrite Z.mul_1_r. split; [reflexivity|]. split; [|done].
    apply take_part_inv; [done|lia|apply tip_in].
Qed.


(** ** The search of [malloc] *)

(** One round from the node after [prevp] to [freep]. *)
Lemma scan_spec h n l prevp fuel :
  chain (hp_ptr h) prevp l (hp_freep h) -> hp_freep h ∉ l -> (length l < fuel)%nat ->
  (exists l1 x l2, l ++ [hp_freep h] = l1 ++ x :: l2 /\ n <= hp_size h x /\
     malloc_loop fuel n prevp (hp_ptr h prevp) h = Some (malloc_take n (tip prevp l1) x h)) \/
  (Forall (fun x => hp_size h x < n) (l ++ [hp_freep h]) /\
   malloc_loop fuel n prevp (hp_ptr h prevp) h =
     '(r, h') ← morecore (fuel - length l - 1) n h;
     if r =? 0 then Some (0, h') else malloc_loop (fuel - length l - 1) n r (hp_ptr h' r) h').
Proof.
  revert prevp fuel. induction l as [|y l IH]; intros prevp fuel; simpl; intros Hc Hn Hf; (destruct fuel as [|fuel]; [lia|]); cbn [malloc_loop].
  - rewrite Hc. destruct (Z.leb_spec n (hp_size h (hp_freep h))).
    + left. by exists [], (hp_freep h), [].
    + right. split; [by constructor|]. rewrite Z.eqb_refl. by replace (S fuel - 0 - 1)%nat with fuel by lia.
  - destruct Hc as [-> Hc]. apply not_elem_of_cons in Hn as [Hy Hn]. destruct (Z.leb_spec n (hp_size h y)).
    + left. by exists [], y, (l ++ [hp_freep h]).
    + rewrite (proj2 (Z.eqb_neq _ _)) by done. destruct (IH y fuel Hc Hn ltac:(lia)) as [(l1 & x & l2 & E & Hx & Hrun)|[Hall Hrun]].
      * left. exists (y :: l1), x, l2. rewrite E, tip_cons. done.
      * right. split; [by constructor|]. exact Hrun.
Qed.

(** The ring, seen from [freep]. *)
Lemma heap_rotate h F A :
  heap_inv h F A ->
  exists l, chain (hp_ptr h) (hp_freep h) l (hp_freep h) /\ hp_freep h :: l ≡ₚ base :: F.*1 /\ hp_freep h ∉ l /\ length l = length F.
Proof.
  intros [Hring _ _ Hfp [Hb _] Hgaps _ _ _ _]. destruct (ring_rotate _ _ _ (hp_freep h) Hring) as (l & Hc & Hp).
  { apply elem_of_cons. tauto. }
  exists l. split; [done|]. split; [done|]. split.
  - assert (NoDup (hp_freep h :: l)) as Hn by (rewrite Hp; apply ring_nodup; eapply gaps_weaken; [|exact Hgaps]; lia). by apply NoDup_cons in Hn as [? _].
  - apply Permutation_length in Hp. simpl in Hp. rewrite length_fmap in Hp. lia.
Qed.

Lemma scan_take h F A n l1 x l2 l :
  heap_inv h F A -> 0 < n -> chain (hp_ptr h) (hp_freep h) l (hp_freep h) -> hp_freep h :: l ≡ₚ base :: F.*1 ->
  l ++ [hp_freep h] = l1 ++ x :: l2 -> n <= hp_size h x ->
  exists r h' F', malloc_take n (tip (hp_freep h) l1) x h = (r, h') /\ heap_inv h' F' ((r - HDR, n) :: A).
Proof.
  intros Hinv Hn Hc Hp E Hx. pose proof Hinv as [Hring Hbase Hsize Hfp [Hb _] Hgaps Hin _ _ _].
  assert (gaps base F) as Hg by (eapply gaps_weaken; [|exact Hgaps]; lia).
  assert (x ∈ base :: F.*1) as Hxin.
  { rewrite <- Hp. assert (x ∈ l ++ [hp_freep h]) as Hx' by (rewrite E; apply elem_of_app; right; apply list_elem_of_here).
    rewrite Permutation_app_comm in Hx'. done. }
  apply elem_of_cons in Hxin as [-> |(b & -> & Hbin)%list_elem_of_fmap]; [lia|].
  apply list_elem_of_split in Hbin as (X & Y & ->).
  assert (tip (hp_freep h) l1 = tip base X.*1) as ->.
  { apply (ring_inj (hp_ptr h) base (X ++ b :: Y).*1); [done|by apply ring_nodup| | |].
    - rewrite <- Hp. pose proof (tip_in (hp_freep h) l1) as [-> |Hin']%elem_of_cons; [apply list_elem_of_here|].
      assert (tip (hp_freep h) l1 ∈ l ++ [hp_freep h]) as Hx' by (rewrite E; apply elem_of_app; by left). by rewrite Permutation_app_comm in Hx'.
    - rewrite fmap_app. rewrite app_comm_cons. apply elem_of_app. left. apply tip_in.
    - assert (chain (hp_ptr h) (hp_freep h) l1 b.1) as Hc1.
      { destruct l2 as [|y l2 _] using rev_ind.
        - apply app_inj_tail in E as [-> <-]. done.
        - rewrite app_comm_cons, app_assoc in E. apply app_inj_tail in E as [-> _]. by apply chain_app in Hc as [? _]. }
      rewrite fmap_app in Hring. apply chain_app in Hring as [Hc2 _]. by rewrite (chain_tip _ _ _ _ Hc1), (chain_tip _ _ _ _ Hc2). }
  rewrite (Hsize b) in Hx by (apply elem_of_app; left; apply elem_of_app; right; apply list_elem_of_here).
  destruct (take_spec h X b Y A n Hinv ltac:(lia)) as (h' & F' & a & Ht & Hinv' & Hos). exists (a + HDR), h', F'.
  split; [done|]. by rewrite Z.add_simpl_r.
Qed.


Lemma heap_positive h F A : heap_inv h F A -> Forall (fun c => 0 < c.2) (F ++ A).
Proof. intros Hinv. eapply Forall_impl; [exact (hi_in _ _ _ Hinv)|]. by intros c (_ & _ & ? & _). Qed.

(** The memory that [sbrk] gives becomes a block in use. *)
Lemma grow_inv h F A nu o :
  heap_inv h F A -> 0 < nu -> brk o = brk (hp_os h) + nu * HDR ->
  heap_inv (set_size (brk (hp_os h)) nu (set_os o h)) F ((brk (hp_os h), nu) :: A).
Proof.
  intros Hinv Hnu Ho. pose proof (heap_positive _ _ _ Hinv) as Hpos. destruct Hinv as [Hring Hbase Hsize Hfp [Hb Hlo] Hgaps Hin Hap Hpw Htot].
  set (top := brk (hp_os h)) in *. assert (Forall (fun c => bend c <= top) (F ++ A)) as Hle.
  { eapply Forall_impl; [exact Hin|]. by intros c (_ & _ & _ & ?). }
  assert (0 <= total (F ++ A)) as Ht by (apply (total_nonneg top), Forall_and; done). rewrite total_app in Ht.
  split; cbn [set_size set_os hp_ptr hp_size hp_freep hp_os].
  - done.
  - rewrite fn_lookup_insert_ne; [done|]. unfold HDR in *; lia.
  - intros c Hc. rewrite <- Permutation_middle in Hc. apply elem_of_cons in Hc as [-> |Hc]; cbn; [by rewrite fn_lookup_insert|].
    rewrite Forall_forall in Hle, Hpos. specialize (Hle c Hc). specialize (Hpos c Hc). rewrite fn_lookup_insert_ne by (unfold bend, HDR in *; lia). by apply Hsize.
  - done.
  - done.
  - done.
  - rewrite Ho, <- Permutation_middle. constructor; [|eapply in_heap_mono; [|exact Hin]; unfold HDR; lia].
    unfold in_heap, bend. simpl. split_and!; [unfold HDR in *; lia| |done|lia].
    replace top with (lo + (total F + total A) * HDR) by lia. by rewrite Z_mod_plus_full.
  - constructor; [|done]. apply Forall_app in Hle as [Hle _]. eapply Forall_impl; [exact Hle|]. intros c Hc. by right.
  - split; [|done]. apply Forall_app in Hle as [_ Hle]. eapply Forall_impl; [exact Hle|]. intros c Hc. by right.
  - simpl. rewrite Ho. lia.
Qed.

(** The heap depends on the kernel only by the break. *)
Lemma heap_inv_os h F A o : heap_inv h F A -> brk o = brk (hp_os h) -> heap_inv (set_os o h) F A.
Proof. intros [H1 H2 H3 H4 H5 H6 H7 H8 H9 H10] E. split; cbn [set_os hp_ptr hp_size hp_freep hp_os]; rewrite ?E; done. Qed.

(** [morecore] fails without an effect on the heap, or the heap has a block that fits. *)
Lemma morecore_spec h F A n fuel :
  heap_inv h F A -> 0 < n -> n * HDR < 2 ^ 31 -> (length F + 1 < fuel)%nat ->
  (exists o, morecore fuel n h = Some (0, set_os o h) /\ brk o = brk (hp_os h)) \/
  exists h' F', morecore fuel n h = Some (hp_freep h', h') /\ hp_freep h' <> 0 /\ heap_inv h' F' A /\
    (exists g, g ∈ F' /\ n <= g.2) /\ (length F' <= S (length F))%nat.
Proof.
  intros Hinv Hn Hmax Hf. unfold morecore. set (nu := if n <? 4096 then 4096 else n).
  assert (n <= nu /\ nu * HDR < 2 ^ 31 /\ 0 < nu) as (Hnu & Hnu' & Hnu0) by (unfold nu, HDR in *; destruct (Z.ltb_spec n 4096); lia).
  rewrite s32_small by (unfold HDR in *; lia).
  destruct (sbrk_grows (nu * HDR) (hp_os h)) as [[E1 E2]|[E1 E2]]; [unfold HDR in *; lia| |];
    destruct (sbrk (nu * HDR) (hp_os h)) as [p o]; cbn [fst snd] in *; subst p.
  - left. rewrite Z.eqb_refl. by exists o.
  - right. pose proof (brk_bound (hp_os h)) as Hbb.
    rewrite (proj2 (Z.eqb_neq _ _)) by (change (u64 (-1)) with (2 ^ 64 - 1); lia).
    pose proof (grow_inv h F A nu o Hinv Hnu0 E2) as Hinv1.
    rewrite hadd_small, Z.mul_1_r by (unfold HDR; lia).
    destruct (free_spec _ F A (brk (hp_os h), nu) fuel Hinv1 Hf) as (h' & F1 & F2 & Hrun & -> & Hinv' & _ & Hfp & _). cbn [fst] in Hrun.
    exists h', (released F1 (brk (hp_os h), nu) F2). rewrite Hrun. split; [done|]. split.
    + destruct (hi_freep _ _ _ Hinv') as [-> |Hin]; [pose proof (hi_lo _ _ _ Hinv); lia|].
      apply list_elem_of_fmap in Hin as (c & -> & Hc). pose proof (hi_gaps _ _ _ Hinv') as Hg. destruct (gaps_elem _ _ _ Hg Hc).
      pose proof (hi_lo _ _ _ Hinv). lia.
    + split; [done|]. pose proof (heap_positive _ _ _ Hinv) as [Hpos _]%Forall_app.
      destruct (released_has F1 (brk (hp_os h), nu) F2 Hpos) as (g & Hg & Hle). split; [|apply released_length].
      exists g. split; [done|]. simpl in Hle. lia.
Qed.

(** The search ends, with a block or without effect on the heap. *)
Lemma malloc_loop_spec h F A n fuel :
  heap_inv h F A -> 0 < n -> n * HDR < 2 ^ 31 -> (3 * length F + 6 < fuel)%nat ->
  exists r h', malloc_loop fuel n (hp_freep h) (hp_ptr h (hp_freep h)) h = Some (r, h') /\
    (r = 0 /\ heap_inv h' F A \/ exists F', heap_inv h' F' ((r - HDR, n) :: A)).
Proof.
  intros Hinv Hn Hmax Hf.
  destruct (heap_rotate h F A Hinv) as (l & Hc & Hp & Hnl & Hlen).
  destruct (scan_spec h n l (hp_freep h) fuel Hc Hnl ltac:(lia)) as [(l1 & x & l2 & E & Hx & ->)|[Hall ->]].
  { destruct (scan_take h F A n l1 x l2 l) as (r & h' & F' & -> & Hinv'); [done..|]. exists r, h'. split; [done|]. right. by exists F'. }
  destruct (morecore_spec h F A n (fuel - length l - 1) Hinv Hn Hmax ltac:(lia)) as [(o & -> & Ho)|(h' & F' & -> & Hnz & Hinv' & (g & Hg & Hgn) & Hlen')].
  { exists 0, (set_os o h). split; [done|]. left. split; [done|]. by apply heap_inv_os. }
  cbn [mbind option_bind]. rewrite (proj2 (Z.eqb_neq _ _)) by done.
  destruct (heap_rotate h' F' A Hinv') as (l' & Hc' & Hp' & Hnl' & Hlen'').
  destruct (scan_spec h' n l' (hp_freep h') (fuel - length l - 1) Hc' Hnl' ltac:(lia)) as [(l1 & x & l2 & E & Hx & ->)|[Hall' _]].
  - destruct (scan_take h' F' A n l1 x l2 l') as (r & h2 & F2 & -> & Hinv2); [done..|]. exists r, h2. split; [done|]. right. by exists F2.
  - exfalso. rewrite Permutation_app_comm in Hall'. cbn in Hall'. rewrite Hp' in Hall'. apply Forall_cons in Hall' as [_ Hall'].
    rewrite Forall_fmap, Forall_forall in Hall'. specialize (Hall' g Hg). cbn in Hall'.
    rewrite (hi_size _ _ _ Hinv' g) in Hall' by (apply elem_of_app; by left). lia.
Qed.


(** ** Calls of [malloc] and [free] *)

(** Before the first call of [malloc] the list is empty and the heap too. *)
Definition heap_ok h F A : Prop :=
  (hp_freep h = 0 /\ F = [] /\ A = [] /\ 0 < base < lo /\ lo mod HDR = 0 /\ brk (hp_os h) = lo) \/ heap_inv h F A.

Lemma malloc_init_inv h :
  0 < base < lo -> lo mod HDR = 0 -> brk (hp_os h) = lo -> heap_inv (set_size base 0 (set_freep base (set_ptr base base h))) [] [].
Proof.
  intros Hb Hlo Hbrk. split; cbn [set_size set_freep set_ptr hp_ptr hp_size hp_freep hp_os]; try done.
  - cbn. apply fn_lookup_insert.
  - apply fn_lookup_insert.
  - intros c Hc. by apply not_elem_of_nil in Hc.
  - by left.
  - simpl. lia.
Qed.

Lemma units_spec nbytes : 0 <= nbytes <= 2 ^ 31 - 32 -> 0 < units nbytes /\ units nbytes * HDR < 2 ^ 31 /\ nbytes <= HDR * (units nbytes - 1).
Proof. intros Hn. unfold units, HDR. rewrite u32_small by dlia. dlia. Qed.

Lemma malloc_spec h F A nbytes fuel :
  heap_ok h F A -> 0 <= nbytes <= 2 ^ 31 - 32 -> (3 * length F + 6 < fuel)%nat ->
  exists r h', malloc base fuel nbytes h = Some (r, h') /\
    (r = 0 /\ heap_ok h' F A \/ r <> 0 /\ exists F', heap_ok h' F' ((r - HDR, units nbytes) :: A)).
Proof.
  intros Hok Hn Hf. destruct (units_spec nbytes Hn) as (Hu & Hmax & _). unfold malloc.
  assert (exists h0, (if hp_freep h =? 0 then set_size base 0 (set_freep base (set_ptr base base h)) else h) = h0 /\ heap_inv h0 F A) as (h0 & -> & Hinv).
  { destruct Hok as [(E & -> & -> & Hb & Hlo & Hbrk)|Hinv].
    - rewrite E. eexists. split; [reflexivity|]. by apply malloc_init_inv.
    - exists h. split; [|done]. rewrite (proj2 (Z.eqb_neq _ _)); [done|]. pose proof (hi_lo _ _ _ Hinv) as [? _].
      destruct (hi_freep _ _ _ Hinv) as [-> |(c & -> & Hc)%list_elem_of_fmap]; [lia|].
      destruct (gaps_elem _ _ _ (hi_gaps _ _ _ Hinv) Hc). lia. }
  destruct (malloc_loop_spec h0 F A (units nbytes) fuel Hinv Hu Hmax Hf) as (r & h' & -> & Hres). exists r, h'. split; [done|].
  destruct Hres as [[-> Hinv']|[F' Hinv']]; [left; split; [done|by right]|right]. split; [|exists F'; by right].
  pose proof (hi_in _ _ _ Hinv') as [_ [(? & _) _]%Forall_cons]%Forall_app. pose proof (hi_lo _ _ _ Hinv') as [? _]. simpl in *. unfold HDR in *. lia.
Qed.

(** With more fuel the calls give the same. *)
Lemma free_place_mono fuel fuel' bp p h q : (fuel <= fuel')%nat -> free_place fuel bp p h = Some q -> free_place fuel' bp p h = Some q.
Proof.
  revert fuel' p. induction fuel as [|fuel IH]; intros fuel' p Hle; [done|]. destruct fuel' as [|fuel']; [lia|]. cbn [free_place].
  destruct (_ && _); [done|]. destruct (_ && _); [done|]. apply IH. lia.
Qed.

Lemma free_mono fuel fuel' ap h h' : (fuel <= fuel')%nat -> free fuel ap h = Some h' -> free fuel' ap h = Some h'.
Proof.
  intros Hle. unfold free. destruct (free_place fuel _ _ h) as [p|] eqn:E; [|done]. by rewrite (free_place_mono _ _ _ _ _ _ Hle E).
Qed.

Lemma malloc_loop_mono fuel fuel' n prevp p h x :
  (fuel <= fuel')%nat -> malloc_loop fuel n prevp p h = Some x -> malloc_loop fuel' n prevp p h = Some x.
Proof.
  revert fuel' prevp p h. induction fuel as [|fuel IH]; intros fuel' prevp p h Hle; [done|]. destruct fuel' as [|fuel']; [lia|]. cbn [malloc_loop].
  destruct (n <=? hp_size h p); [done|]. destruct (p =? hp_freep h); [|by apply IH; lia].
  destruct (morecore fuel n h) as [[r h']|] eqn:E; [|done].
  assert (morecore fuel' n h = Some (r, h')) as ->; [|cbn; destruct (r =? 0); [done|apply IH; lia]].
  revert E. unfold morecore. destruct (sbrk _ _) as [q o]. destruct (q =? u64 (-1)); [done|].
  destruct (free fuel _ _) as [h2|] eqn:E; [|done]. rewrite (free_mono fuel fuel' _ _ h2) by (done || lia). done.
Qed.


Lemma malloc_mono fuel fuel' n h x : (fuel <= fuel')%nat -> malloc base fuel n h = Some x -> malloc base fuel' n h = Some x.
Proof. intros Hle. by apply malloc_loop_mono. Qed.

(** A program that calls [malloc] and [free], and the addresses and sizes of
    the requests that are in use. *)
Inductive uses : heap os -> list (Z * Z) -> Prop :=
  | uses_start h : hp_freep h = 0 -> 0 < base < lo -> lo mod HDR = 0 -> brk (hp_os h) = lo -> uses h []
  | uses_malloc fuel nbytes h L r h' :
      uses h L -> 0 <= nbytes <= 2 ^ 31 - 32 -> malloc base fuel nbytes h = Some (r, h') ->
      uses h' (if r =? 0 then L else (r, nbytes) :: L)
  | uses_free fuel h L1 r n L2 h' :
      uses h (L1 ++ (r, n) :: L2) -> free fuel r h = Some h' -> uses h' (L1 ++ L2).

Definition block_of (x : Z * Z) : Z * Z := (x.1 - HDR, units x.2).

Lemma pairwise_perm A A' : A ≡ₚ A' -> pairwise A -> pairwise A'.
Proof.
  induction 1 as [|b A A' Hp IH|b c A|A A' A'' _ IH1 _ IH2]; simpl; [done| |..|by auto].
  - intros [Hb HA]. split; [by rewrite <- Hp|by apply IH].
  - intros [[Hbc Hb]%Forall_cons [Hc HA]]. split; [constructor; [by apply apart_sym|done]|done].
Qed.

Lemma heap_inv_perm h F A A' : A ≡ₚ A' -> heap_inv h F A -> heap_inv h F A'.
Proof.
  intros Hp [Hring Hbase Hsize Hfp Hb Hgaps Hin Hap Hpw Htot]. split; try done.
  - intros c Hc. apply Hsize. by rewrite Hp.
  - by rewrite <- Hp.
  - by rewrite <- Hp.
  - by eapply pairwise_perm.
  - assert (total A' = total A) as ->; [|done]. clear -Hp. induction Hp; simpl; lia.
Qed.

Lemma uses_inv h L : uses h L -> (exists F, heap_ok h F (block_of <$> L)) /\ Forall (fun x => 0 <= x.2 <= 2 ^ 31 - 32) L.
Proof.
  induction 1 as [h Hfp Hb Hlo Hbrk|fuel nbytes h L r h' _ [[F Hok] HL] Hn Hrun|fuel h L1 r n L2 h' _ [[F Hok] HL] Hrun].
  - split; [|done]. exists []. by left.
  - destruct (malloc_spec h F _ nbytes (fuel + 3 * length F + 7) Hok Hn ltac:(lia)) as (r' & h2 & Hrun' & Hres).
    rewrite (malloc_mono fuel (fuel + 3 * length F + 7) _ _ _ ltac:(lia) Hrun) in Hrun'. injection Hrun' as <- <-.
    destruct Hres as [[-> Hok']|[Hr [F' Hok']]]; [split; [by exists F|done]|]. rewrite (proj2 (Z.eqb_neq _ _)) by done.
    split; [by exists F'|]. constructor; [exact Hn|done].
  - split; [|apply Forall_app in HL as [? [_ ?]%Forall_cons]; by apply Forall_app].
    destruct Hok as [(_ & _ & E & _)|Hinv]; [rewrite fmap_app in E; by apply app_eq_nil in E as [_ ?]|].
    rewrite fmap_app in Hinv. cbn [fmap list_fmap] in Hinv. apply (heap_inv_perm _ _ _ (block_of (r, n) :: (block_of <$> (L1 ++ L2)))) in Hinv;
      [|by rewrite fmap_app, <- Permutation_middle].
    destruct (free_spec h F _ (block_of (r, n)) (fuel + length F + 2) Hinv ltac:(lia)) as (h2 & F1 & F2 & Hrun' & _ & Hinv' & _).
    cbn in Hrun'. rewrite Z.sub_add in Hrun'. rewrite (free_mono fuel (fuel + length F + 2) r h h' ltac:(lia) Hrun) in Hrun'. injection Hrun' as ->.
    eexists. by right.
Qed.

Lemma pairwise_lookup A i j b c : pairwise A -> i <> j -> A !! i = Some b -> A !! j = Some c -> apart b c.
Proof.
  revert i j. induction A as [|d A IH]; intros i j; [done|]. intros [Hd HA] Hij Hi Hj. rewrite Forall_forall in Hd.
  destruct i as [|i], j as [|j]; simpl in *; [done|injection Hi as ->|injection Hj as ->|by apply (IH i j); auto].
  - apply Hd. by eapply list_elem_of_lookup_2.
  - apply apart_sym, Hd. by eapply list_elem_of_lookup_2.
Qed.

Lemma gaps_total a F top : gaps a F -> Forall (fun b => bend b <= top) F -> F <> [] -> HDR * total F + Z.of_nat (length F) <= top - a.
Proof.
  revert a. induction F as [|b F IH]; intros a; [done|]. intros (Hb & H2 & Hg) [Hbt HF]%Forall_cons _.
  destruct F as [|c F]; [unfold bend, HDR in *; simpl; lia|]. specialize (IH _ Hg HF ltac:(done)). unfold bend, HDR in *. cbn [total foldr length] in *. fold (total F) in *. lia.
Qed.

End heap.

(** ** The properties *)

Section properties.
Context {os : Type} `{SbrkOk os} (base lo : Z).

(** C32: The blocks a program has from [malloc] never overlap. Whatever calls
    of [malloc], for at most 2^31 - 32 bytes each, and [free], of a block in
    use, a program makes, the blocks in use are disjoint,
    aligned to 16 bytes, as large as was asked for, and inside the heap; and
    the next call of [malloc] or [free] ends: its search stops after two
    rounds of the free list. *)
Theorem malloc_blocks_disjoint (h : heap os) L :
  uses base lo h L ->
  (forall i j r n r' n', i <> j -> L !! i = Some (r, n) -> L !! j = Some (r', n') -> r + n <= r' \/ r' + n' <= r) /\
  Forall (fun x => lo < x.1 /\ x.1 mod 16 = 0 /\ x.1 + x.2 <= brk (hp_os h)) L /\
  (forall nbytes, 0 <= nbytes <= 2 ^ 31 - 32 -> exists fuel r h', malloc base fuel nbytes h = Some (r, h')) /\
  (forall r n, (r, n) ∈ L -> exists fuel h', free fuel r h = Some h').
Proof.
  intros [[F Hok] HL]%uses_inv.
  assert (forall nbytes, 0 <= nbytes <= 2 ^ 31 - 32 -> exists fuel r h', malloc base fuel nbytes h = Some (r, h')) as Hm.
  { intros nbytes Hn. destruct (malloc_spec base lo h F _ nbytes (3 * length F + 7) Hok Hn) as (r & h' & Hrun & _); [lia|eauto]. }
  destruct Hok as [(_ & _ & E & _)|Hinv].
  { apply fmap_nil_inv in E as ->. split; [done|]. split; [done|]. split; [done|]. intros r n Hin. by apply not_elem_of_nil in Hin. }
  pose proof (hi_in _ _ _ _ _ Hinv) as [_ Hin]%Forall_app. rewrite Forall_fmap, Forall_forall in Hin. rewrite Forall_forall in HL.
  split; [|split; [|split; [done|]]].
  - intros i j r n r' n' Hij Hi Hj. pose proof (hi_pair _ _ _ _ _ Hinv) as Hpw.
    assert (apart (block_of (r, n)) (block_of (r', n'))) as Hap by (eapply (pairwise_lookup _ i j); [done|done|..]; rewrite list_lookup_fmap; [by rewrite Hi|by rewrite Hj]).
    destruct (units_spec n) as (_ & _ & ?); [by apply (HL (r, n)); eapply list_elem_of_lookup_2|].
    destruct (units_spec n') as (_ & _ & ?); [by apply (HL (r', n')); eapply list_elem_of_lookup_2|].
    unfold apart, bend, block_of, HDR in *. simpl in *. lia.
  - apply Forall_forall. intros [r n] Hr. destruct (Hin _ Hr) as (? & ? & ? & ?). destruct (units_spec n (HL _ Hr)) as (_ & _ & ?).
    unfold bend, block_of, HDR in *. simpl in *. split_and!; [lia|dlia|lia].
  - intros r n Hr. apply (list_elem_of_fmap_2 block_of) in Hr. apply list_elem_of_split in Hr as (A1 & A2 & E). rewrite E in Hinv.
    apply (heap_inv_perm _ _ _ _ _ (block_of (r, n) :: A1 ++ A2)) in Hinv; [|by rewrite <- Permutation_middle].
    destruct (free_spec base lo h F _ _ (length F + 2) Hinv ltac:(lia)) as (h' & F1 & F2 & Hrun & _). cbn in Hrun. rewrite Z.sub_add in Hrun. eauto.
Qed.

(** C37: Memory does not stay fragmented: when a program has freed all it had
    from [malloc], the free list is a single block that is the whole heap. *)
Theorem free_all_coalesces (h : heap os) :
  uses base lo h [] ->
  brk (hp_os h) = lo \/ hp_ptr h base = lo /\ hp_ptr h lo = base /\ HDR * hp_size h lo = brk (hp_os h) - lo.
Proof.
  intros [[F Hok] _]%uses_inv. destruct Hok as [(_ & _ & _ & _ & _ & E)|Hinv]; [by left|].
  destruct Hinv as [Hring _ Hsize _ _ Hgaps Hin _ _ Htot]. rewrite app_nil_r in *. change (total (block_of <$> [])) with 0 in Htot. unfold HDR in Htot.
  destruct F as [|b F]; [left; simpl in Htot; lia|right].
  assert (Forall (fun b => bend b <= brk (hp_os h)) (b :: F)) as Hle by (eapply Forall_impl; [exact Hin|]; by intros c (_ & _ & _ & ?)).
  pose proof (gaps_total _ _ _ Hgaps Hle ltac:(done)) as Hlen. destruct F as [|c F]; [|cbn [length] in Hlen; unfold HDR in *; lia].
  apply Forall_cons in Hin as [(Hlo & _ & _ & Hend) _]. cbn [total foldr] in Htot. assert (b.1 = lo) as E by (unfold bend, HDR in *; lia).
  destruct Hring as [Hr1 Hr2]. rewrite <- E. split; [done|]. split; [done|]. rewrite (Hsize b) by apply list_elem_of_here. unfold HDR in *; lia.
Qed.

(** The first [malloc] of a program, of more bytes than fit in an [int] with the
    header: [morecore] asks for none or for fewer than it has, takes the answer
    for success, and the block it returns lies above the break. *)
Lemma malloc_first_huge (h : heap os) nbytes fuel :
  hp_freep h = 0 -> 0 < base < brk (hp_os h) -> 2 ^ 31 - 31 <= nbytes < 2 ^ 32 - 15 -> (4 <= fuel)%nat ->
  exists h', malloc base fuel nbytes h = Some (brk (hp_os h) + HDR, h') /\ brk (hp_os h') <= brk (hp_os h).
Proof.
  intros Hfp Hb Hn Hf. pose proof (brk_bound (hp_os h)) as Htop. unfold malloc. set (nu := units nbytes).
  assert (2 ^ 27 <= nu <= 2 ^ 28) as Hnu by (unfold nu, units, HDR; rewrite u32_small by dlia; dlia). rewrite Hfp, Z.eqb_refl. cbv zeta.
  set (h0 := set_size base 0 (set_freep base (set_ptr base base h))). set (p := brk (hp_os h)) in *.
  assert (hp_ptr h0 base = base /\ hp_size h0 base = 0 /\ hp_freep h0 = base) as (Ep & Es & Ef)
    by (unfold h0; cbn; by rewrite !fn_lookup_insert).
  assert (- 2 ^ 31 <= s32 (nu * HDR) <= 0) as Hneg by (unfold s32, HDR; dlia).
  destruct (sbrk_shrinks _ (hp_os h) Hneg) as [E1 E2]. destruct fuel as [|[|fuel]]; [lia|lia|].
  rewrite Ef, Ep. cbn [malloc_loop]. rewrite Es, Ef, Z.eqb_refl, (proj2 (Z.leb_gt nu 0)) by lia.
  unfold morecore. rewrite (proj2 (Z.ltb_ge nu 4096)) by lia. change (hp_os h0) with (hp_os h).
  destruct (sbrk (s32 (nu * HDR)) (hp_os h)) as [p' o]. cbn [fst snd] in E1, E2. subst p'. fold p in E2 |- *.
  rewrite (proj2 (Z.eqb_neq p (u64 (-1)))) by (change (u64 (-1)) with (2 ^ 64 - 1); lia).
  set (h1 := set_size p nu (set_os o h0)).
  assert (hp_ptr h1 base = base /\ hp_size h1 base = 0 /\ hp_size h1 p = nu /\ hp_freep h1 = base) as (Ep1 & Es1 & Eu1 & Ef1).
  { unfold h1. cbn. rewrite fn_lookup_insert, fn_lookup_insert_ne by lia. by rewrite !fn_lookup_insert. }
  assert (free (S fuel) (hadd p 1) h1 = Some (set_freep base (set_ptr base p (set_ptr p base h1)))) as ->.
  { unfold free. rewrite hadd_small, Z.mul_1_r, Z.add_simpl_r, u64_small by (unfold HDR; lia). cbn [free_place]. rewrite Ef1, Ep1.
    rewrite (proj2 (Z.ltb_lt base p)), (proj2 (Z.ltb_ge p base)), (proj2 (Z.leb_le base base)) by lia. cbn [andb orb mbind option_bind].
    f_equal. unfold free_link, link_next. rewrite Eu1, Ep1, hadd_small, (proj2 (Z.eqb_neq _ _)) by (unfold HDR; lia).
    unfold link_prev. change (hp_size (set_ptr p base h1) base) with (hp_size h1 base). rewrite Es1, hadd_small, (proj2 (Z.eqb_neq _ _)) by (unfold HDR; lia). done. }
  cbn [mbind option_bind set_freep set_ptr hp_freep hp_ptr]. rewrite (proj2 (Z.eqb_neq base 0)) by lia. rewrite fn_lookup_insert. cbn [malloc_loop].
  match goal with |- context [hp_size ?x p] => set (h2 := x) end. assert (hp_size h2 p = nu) as Eu2 by exact Eu1.
  rewrite Eu2, Z.leb_refl. unfold malloc_take. rewrite Eu2, Z.eqb_refl, hadd_small, Z.mul_1_r by (unfold HDR; lia).
  eexists. split; [reflexivity|]. exact E2.
Qed.

End properties.

(** ** Instances *)

(** A process whose memory is a size below 2^30, as [growproc] changes it;
    the size is a 32-bit number there. *)
Definition demo_sbrk (n o : Z) : Z * Z :=
  let b := o mod 2 ^ 30 in
  let b' := u32 (b + n) in
  if 0 <? n then if b' <? 2 ^ 30 then (b, b') else (u64 (-1), o)
  else if b' <? b then (b, b') else (b, o).

#[local] Instance demo_os : Sbrk Z := {| sbrk := demo_sbrk; brk o := o mod 2 ^ 30 |}.

#[local] Instance demo_os_ok : SbrkOk Z.
Proof.
  split; cbn; [intros o; dlia| |].
  - intros n o Hn. unfold demo_sbrk. rewrite (proj2 (Z.ltb_lt 0 n)) by lia.
    rewrite u32_small by dlia. destruct (Z.ltb_spec (o mod 2 ^ 30 + n) (2 ^ 30)); [right|by left]. cbn. split; [done|]. rewrite Z.mod_small; [done|dlia].
  - intros n o Hn. unfold demo_sbrk. rewrite (proj2 (Z.ltb_ge 0 n)) by lia. destruct (Z.ltb_spec (u32 (o mod 2 ^ 30 + n)) (o mod 2 ^ 30)); cbn; [|lia].
    split; [done|]. rewrite Z.mod_small; [lia|]. pose proof (u32_bound (o mod 2 ^ 30 + n)). dlia.
Qed.

Definition demo_heap : heap Z := mkheap (fun _ => 0) (fun _ => 0) 0 0x4000.

(** [malloc(1000)], and its block freed. *)
Lemma demo_uses : exists h r h', uses 0x2000 0x4000 h [(r, 1000)] /\ free 100 r h = Some h' /\ uses 0x2000 0x4000 h' [] /\ brk (hp_os h') = 0x14000.
Proof.
  pose proof (uses_start 0x2000 0x4000 demo_heap eq_refl ltac:(lia) eq_refl eq_refl) as H0.
  destruct (malloc 0x2000 100 1000 demo_heap) as [[r h1]|] eqn:E1; [|by vm_compute in E1].
  pose proof (uses_malloc 0x2000 0x4000 100 1000 demo_heap [] r h1 H0 ltac:(lia) E1) as H1.
  assert ((r =? 0) = false /\ match free 100 r h1 with Some h => brk (hp_os h) | None => 0 end = 0x14000) as [Er Ef].
  { assert (match malloc 0x2000 100 1000 demo_heap with
      | Some (r, h) => (r =? 0, match free 100 r h with Some h => brk (hp_os h) | None => 0 end)
      | None => (true, 0) end = (false, 0x14000)) as E by (vm_compute; reflexivity).
    rewrite E1 in E. injection E as E E'. by split. }
  rewrite Er in H1. destruct (free 100 r h1) as [h2|] eqn:E2; [|discriminate Ef].
  exists h1, r, h2. split; [done|]. split; [done|]. split; [|done]. by apply (uses_free _ _ 100 h1 [] r 1000 []).
Qed.

Lemma malloc_blocks_disjoint_witness :
  exists (h : heap Z) r, uses 0x2000 0x4000 h [(r, 1000)] /\ r + 1000 <= brk (hp_os h) /\ exists fuel h', free fuel r h = Some h'.
Proof.
  destruct demo_uses as (h & r & _ & Hu & _).
  destruct (malloc_blocks_disjoint (os := Z) 0x2000 0x4000 h [(r, 1000)] Hu) as (_ & Hin & _ & Hf).
  exists h, r. split; [exact Hu|]. apply Forall_cons in Hin as [(_ & _ & Hle) _]. split; [exact Hle|].
  apply (Hf r 1000). apply list_elem_of_here.
Defined.

Lemma free_all_coalesces_witness :
  exists h : heap Z, uses 0x2000 0x4000 h [] /\ hp_ptr h 0x2000 = 0x4000 /\ hp_ptr h 0x4000 = 0x2000 /\ hp_size h 0x4000 = 4096.
Proof.
  destruct demo_uses as (_ & _ & h & _ & _ & Hu & Hb).
  destruct (free_all_coalesces (os := Z) 0x2000 0x4000 h Hu) as [E|(H1 & H2 & H3)]; [rewrite Hb in E; discriminate E|].
  exists h. split; [exact Hu|]. split; [exact H1|]. split; [exact H2|]. rewrite Hb in H3. unfold HDR in H3. lia.
Defined.
