(* ===== verification/Usbrk.v ===== *)
(** * The kernel behind the user's [sbrk]

    [sbrk] as the allocator calls it is the system call of the kernel model:
    the argument goes to the trap frame and [sys_sbrk] runs. For a process with
    a well-formed address space it keeps what [Umalloc] relies on, so that the
    theorems about [malloc] and [free] hold of programs on this kernel. *)

From S2P Require Import Prelude Riscv Monad State Kstring Bytes Printf Kalloc Vm VmInv VmMap Uspace VmFree VmCopy VmProps Proc ProcInv Fork Sysargs Sysproc TrapProps Umalloc UmallocProps.
#[local] Open Scope Z_scope.

#[local] Opaque uvmalloc uvmdealloc store64 load64.

Section usbrk.
Context {L : Layout} {LOk : LayoutOk L}.

(** The running process, with its size, its page table, and a trap frame in a
    page of its own. *)
Record user_process (k : kernel) (p : Z) (t : ptree) (u : list (Z * Z)) (l : list Z) : Prop := {
  up_cur : ps_cur (k_ps k) = Some p;
  up_space : uspace k t u l;
  up_table : p_pagetable (ps_proc (k_ps k) p) = root t;
  up_size : 0 <= p_sz (ps_proc (k_ps k) p) < 2 ^ 32 /\ Z.of_nat (length u) = npg (p_sz (ps_proc (k_ps k) p));
  up_frame : page_ok (p_trapframe (ps_proc (k_ps k) p)) /\ p_trapframe (ps_proc (k_ps k) p) ∉ pt_pages t ++ u.*1 ++ l
}.

Definition process_ok (k : kernel) : Prop := exists p t u l, user_process k p t u l.

(** The size of the running process. *)
Definition cur_size (k : kernel) : Z := match ps_cur (k_ps k) with Some p => p_sz (ps_proc (k_ps k) p) | None => 0 end.

(** The stub of [usys.pl]: the argument is in [a0] when the kernel is
    entered. *)
Definition user_sbrk (n : Z) : K Z := p ← curproc; tf_set p (tf_a 0) (u64 n);; sys_sbrk.

Lemma size_bound k p t u l : user_process k p t u l -> p_sz (ps_proc (k_ps k) p) <= 2 ^ 27.
Proof.
  intros [_ Hu _ [Hsz Hlen] _]. pose proof (uspace_length _ _ _ _ Hu) as Hb. rewrite Hlen, npg_eq in Hb by (unfold PGSIZE; lia).
  unfold PGSIZE in *. dlia.
Qed.

(** A word of the trap frame changes nothing of the address space. *)
Lemma frame_word_keeps k p t u l f v :
  user_process k p t u l -> 0 <= f <= PGSIZE - 8 ->
  user_process (set_mem (store64 (k_mem k) (p_trapframe (ps_proc (k_ps k) p) + f) v) k) p t u l.
Proof.
  intros [Hc Hu Ht Hs [Hok Hnin]] Hf. set (tf := p_trapframe (ps_proc (k_ps k) p)) in *. set (m := store64 _ _ _).
  pose proof (uspace_pages_ok _ _ _ _ Hu) as Hall. rewrite Forall_forall in Hall.
  assert (forall q a, q ∈ pt_pages t ++ u.*1 ++ l -> in_page q a -> load8 m a = load8 (k_mem k) a) as Hm.
  { intros q a Hq Ha. unfold m. apply load8_store64_ne. intros Hin. apply Hnin. rewrite (page_ok_disjoint tf q a); try done; [by apply Hall|].
    unfold in_page, PGSIZE in *. lia. }
  pose proof Hu as [Hinv Hl Hn Hmap Htop].
  destruct (vm_inv_ext k (set_mem m k) t l Hinv (mem_only_set_mem m k)) as [Hinv' Hp]; [by ksimp| |].
  { intros q a Hq. ksimp. apply Hm. rewrite !elem_of_app in *. tauto. }
  ksimp in Hp. split; ksimp; try done. split; ksimp; try done.
  - intros i e Hi. rewrite Hp. by apply Hmap.
  - intros va Hva. rewrite Hp. by apply Htop.
Qed.

Lemma uspace_ps k ps t u l : uspace k t u l -> uspace (set_ps ps k) t u l.
Proof.
  intros [[Hf Hr Hok Hn Hlk] Hl Hn' Hmap Htop]. split; try done. split; try done. by apply (free_pages_ext k).
Qed.

(** After a step of its address space, with the size that fits it. *)
Lemma resized k p t u l k' t' u' l' sz :
  user_process k p t u l -> us_step k t u l k' t' u' l' -> 0 <= sz < 2 ^ 32 -> Z.of_nat (length u') = npg sz ->
  user_process (set_ps (ps_upd p (set_sz sz) (k_ps k')) k') p t' u' l'.
Proof.
  intros [Hc Hu Ht Hs [Hok Hnin]] Hst Hsz Hlen. destruct (st_only _ _ _ _ _ _ _ _ Hst) as (m & f & E).
  assert (k_ps k' = k_ps k) as Eps by (by rewrite E). split; ksimp; rewrite ?ps_proc_upd_eq; rewrite Eps.
  - exact Hc.
  - apply uspace_ps, (st_inv _ _ _ _ _ _ _ _ Hst).
  - simpl. rewrite Ht. symmetry. apply (st_root _ _ _ _ _ _ _ _ Hst).
  - done.
  - split; [done|]. simpl. by rewrite (st_own _ _ _ _ _ _ _ _ Hst).
Qed.

(** The address space moved and the size did not. *)
Lemma same_size k p t u l k' t' l' :
  user_process k p t u l -> us_step k t u l k' t' u l' -> user_process k' p t' u l' /\ cur_size k' = cur_size k.
Proof.
  intros [Hc Hu Ht Hs [Hok Hnin]] Hst. destruct (st_only _ _ _ _ _ _ _ _ Hst) as (m & f & E).
  assert (k_ps k' = k_ps k) as Eps by (by rewrite E). split; [|unfold cur_size; by rewrite Eps]. split; rewrite ?Eps.
  - exact Hc.
  - apply (st_inv _ _ _ _ _ _ _ _ Hst).
  - rewrite Ht. symmetry. apply (st_root _ _ _ _ _ _ _ _ Hst).
  - done.
  - split; [done|]. by rewrite (st_own _ _ _ _ _ _ _ _ Hst).
Qed.

Lemma cur_size_upd k p sz : ps_cur (k_ps k) = Some p -> cur_size (set_ps (ps_upd p (set_sz sz) (k_ps k)) k) = sz.
Proof. intros Hc. unfold cur_size. ksimp. change (ps_cur (ps_upd _ _ _)) with (ps_cur (k_ps k)). rewrite Hc, ps_proc_upd_eq. done. Qed.

(** [growproc] on every branch. *)
Lemma growproc_spec k n :
  process_ok k -> - 2 ^ 31 <= n < 2 ^ 31 ->
  exists r k', growproc n k = Ret r k' /\ process_ok k' /\
    ((r = 0 /\ 0 < n /\ cur_size k' = cur_size k + n) \/
     (r = -1 /\ 0 < n /\ cur_size k' = cur_size k) \/
     (r = 0 /\ n <= 0 /\ cur_size k' = if cur_size k + n <? 0 then cur_size k else cur_size k + n)).
Proof.
  intros (p & t & u & l & Hp) Hn. pose proof (size_bound _ _ _ _ _ Hp) as Hb. pose proof Hp as [Hc Hu Ht [Hsz Hlen] _].
  assert (cur_size k = p_sz (ps_proc (k_ps k) p)) as Es by (unfold cur_size; by rewrite Hc). rewrite Es.
  unfold growproc. erewrite bind_eq by (by apply curproc_eq). cbv beta. kpure. kpure. rewrite Ht. cbv zeta. set (sz := p_sz _) in *.
  rewrite (u32_small sz) by lia. destruct (Z.ltb_spec 0 n) as [Hpos|Hneg]; [|destruct (Z.ltb_spec n 0) as [Hlt|Hge]].
  - rewrite u32_small by lia.
    destruct (uvmalloc_spec k t u l sz (sz + n)) as (r & k' & t' & u' & l' & Hrun & Hst & Hres); [done|lia|unfold PGSIZE; lia|done|].
    erewrite bind_eq by exact Hrun. cbv beta. destruct Hres as [(-> & v & Eu & Hl' & _)|(-> & -> & _)].
    + rewrite u32_small, (proj2 (Z.eqb_neq _ _)) by lia. kpure. eexists 0, _. split; [reflexivity|].
      split; [exists p, t', u', l'; apply (resized k p t u l k'); (done || lia)|]. left. split; [done|]. split; [done|].
      apply cur_size_upd. destruct (st_only _ _ _ _ _ _ _ _ Hst) as (m & f & ->). exact Hc.
    + destruct (same_size _ _ _ _ _ _ _ _ Hp Hst) as [Hp' Hc']. eexists (-1), k'. split; [reflexivity|]. split; [by exists p, t', u, l'|]. right. left.
      by rewrite Hc', Es.
  - destruct (uvmdealloc_spec k t u l sz (u32 (sz + n))) as (k' & l' & Hrun & Hst); [done|unfold PGSIZE; lia|pose proof (u32_bound (sz + n)); unfold PGSIZE; lia|done|].
    erewrite bind_eq by exact Hrun. cbv beta. pose proof (u32_bound (sz + n)) as Hub. rewrite (u32_small (Z.min _ _)) by lia. kpure.
    eexists 0, _. split; [reflexivity|]. split.
    + exists p, t, (take (Z.to_nat (npg (u32 (sz + n)))) u), l'. apply (resized k p t u l k'); [done|done|lia|].
      rewrite length_take. pose proof (npg_eq sz ltac:(unfold PGSIZE; lia)) as N1. pose proof (npg_eq (u32 (sz + n)) ltac:(unfold PGSIZE; lia)) as N2.
      destruct (Z.min_spec sz (u32 (sz + n))) as [[? ->]|[? ->]]; unfold PGSIZE in *; dlia.
    + right. right. split; [done|]. split; [lia|]. rewrite cur_size_upd by (destruct (st_only _ _ _ _ _ _ _ _ Hst) as (m & f & ->); exact Hc).
      destruct (Z.ltb_spec (sz + n) 0); unfold u32; [|rewrite Z.mod_small by lia; lia].
      replace (sz + n) with (sz + n + 2 ^ 32 + (-1) * 2 ^ 32) by lia. rewrite Z_mod_plus_full, Z.mod_small by lia. lia.
  - kpure. assert (n = 0) as -> by lia. eexists 0, _. split; [reflexivity|]. split.
    + exists p, t, u, l. apply (resized k p t u l k); [done|by apply us_step_refl|lia|done].
    + right. right. split; [done|]. split; [done|]. rewrite cur_size_upd, Z.add_0_r, (proj2 (Z.ltb_ge _ _)) by (done || lia). done.
Qed.

(** The call of a program: the result and the new size. *)
Lemma user_sbrk_spec k n :
  process_ok k -> - 2 ^ 31 <= n < 2 ^ 31 ->
  exists r k', user_sbrk n k = Ret r k' /\ process_ok k' /\
    ((r = cur_size k /\ 0 < n /\ cur_size k' = cur_size k + n) \/
     (r = -1 /\ 0 < n /\ cur_size k' = cur_size k) \/
     (r = cur_size k /\ n <= 0 /\ cur_size k' = if cur_size k + n <? 0 then cur_size k else cur_size k + n)).
Proof.
  intros (p & t & u & l & Hp) Hn. pose proof Hp as [Hc _ _ [Hsz _] _]. pose proof (size_bound _ _ _ _ _ Hp) as Hb.
  assert (cur_size k = p_sz (ps_proc (k_ps k) p)) as Es by (unfold cur_size; by rewrite Hc).
  unfold user_sbrk. erewrite bind_eq by (by apply curproc_eq). cbv beta. erewrite bind_eq by apply tf_set_eq. cbv beta.
  set (tf := p_trapframe _). set (k1 := set_mem _ k).
  assert (user_process k1 p t u l) as Hp1 by (apply frame_word_keeps; [done|vm_compute; split; discriminate]).
  unfold sys_sbrk, argint, argraw. erewrite bind_eq; [|erewrite bind_eq; [reflexivity|erewrite bind_eq by (by apply curproc_eq); apply tf_get_eq]].
  cbv beta. change (tfw (k_mem k1) _ _) with (load64 (store64 (k_mem k) (tf + tf_a 0) (u64 n)) (tf + tf_a 0)).
  rewrite load64_store64_eq by apply u64_bound. assert (s32 (u64 n) = n) as -> by (unfold s32, u64; dlia).
  erewrite bind_eq by (by apply curproc_eq). cbv beta. kpure. change (ps_proc (k_ps k1) p) with (ps_proc (k_ps k) p). cbv zeta.
  rewrite s32_small, <- Es by lia. destruct (growproc_spec k1 n) as (r & k' & Hrun & Hok & Hres); [by exists p, t, u, l|done|].
  change (cur_size k1) with (cur_size k) in Hres. erewrite bind_eq by exact Hrun. cbv beta.
  destruct Hres as [(-> & ? & ?)|[(-> & ? & ?)|(-> & ? & ?)]]; cbn [Z.ltb Z.compare]; eexists _, k'; (split; [reflexivity|]); (split; [done|]); tauto.
Qed.

(** ** The interface of the allocator *)

Definition os_process : Type := { k : kernel | process_ok k }.

Lemma user_sbrk_ok n k r k' : process_ok k -> user_sbrk (s32 n) k = Ret r k' -> process_ok k'.
Proof.
  intros Hk E. destruct (user_sbrk_spec k (s32 n) Hk (s32_bound n)) as (r2 & k2 & E2 & Hok & _).
  rewrite E in E2. by injection E2 as _ ->.
Qed.

(** The process after the call; the argument of [sbrk] is an [int]. *)
Definition sbrk_result (n : Z) (o : os_process) (x : outcome kernel Z) : user_sbrk (s32 n) (`o) = x -> Z * os_process :=
  match x with
  | Ret r k' => fun E => (u64 r, k' ↾ user_sbrk_ok n (`o) r k' (proj2_sig o) E)
  | _ => fun _ => (u64 (-1), o)
  end.

#[global] Instance process_sbrk : Sbrk os_process :=
  {| sbrk n o := sbrk_result n o (user_sbrk (s32 n) (`o)) eq_refl; brk o := cur_size (`o) |}.

Lemma sbrk_eq n (o : os_process) r k' :
  user_sbrk (s32 n) (`o) = Ret r k' -> (sbrk n o).1 = u64 r /\ brk (sbrk n o).2 = cur_size k'.
Proof.
  intros E. assert (forall x (Ex : user_sbrk (s32 n) (`o) = x), x = Ret r k' ->
    (sbrk_result n o x Ex).1 = u64 r /\ brk (sbrk_result n o x Ex).2 = cur_size k') as Hx by (by intros x Ex ->).
  exact (Hx _ eq_refl E).
Qed.

#[global] Instance process_sbrk_ok : SbrkOk os_process.
Proof.
  assert (forall o : os_process, 0 <= brk o <= 2 ^ 27) as Hb.
  { intros o. destruct (proj2_sig o) as (p & t & u & l & Hp). pose proof (size_bound _ _ _ _ _ Hp). destruct Hp as [Hc _ _ [Hsz _] _].
    cbn. unfold cur_size. rewrite Hc. lia. }
  split; [intros o; specialize (Hb o); lia|..]; intros n o Hn; specialize (Hb o);
    destruct (user_sbrk_spec (`o) (s32 n) (proj2_sig o) (s32_bound n)) as (r & k' & E & _ & Hres); destruct (sbrk_eq n o r k' E) as [-> ->];
    rewrite s32_small in Hres by lia; change (cur_size (`o)) with (brk o) in Hres.
  - destruct Hres as [(-> & _ & ->)|[(-> & _ & ->)|(_ & ? & _)]]; [right; by rewrite u64_small by lia|by left|lia].
  - destruct Hres as [(_ & ? & _)|[(_ & ? & _)|(-> & _ & ->)]]; [lia|lia|]. rewrite u64_small by lia. split; [done|]. destruct (_ <? 0); lia.
Qed.


End usbrk.

(** ** A process of two pages *)

#[local] Existing Instances demo_layout demo_layout_ok.


