(* ===== verification/Grep.v ===== *)
(** * grep ([user/grep.c])

    A C string is the list of its bytes before the NUL. The matcher is
    compared with the meaning of the pattern as a regular expression, the
    loop over the file with the list of its lines. *)

From S2P Require Import Prelude.
#[local] Open Scope Z_scope.

Definition CARET : Z := 94.
Definition DOLLAR : Z := 36.
Definition DOT : Z := 46.
Definition STAR : Z := 42.
Definition NL : Z := 10.

(** ** The matcher *)

(** [matchstar(c, re, text)]; [mh] is [matchhere(re, .)]. *)
Fixpoint matchstar (mh : list Z -> bool) (c : Z) (text : list Z) : bool :=
  mh text ||
  match text with
  | [] => false
  | t :: text' => ((t =? c) || (c =? DOT)) && matchstar mh c text'
  end.

Fixpoint matchhere (re text : list Z) : bool :=
  match re with
  | [] => true
  | c :: re' =>
      match re' with
      | c1 :: re'' =>
          if c1 =? STAR then matchstar (matchhere re'') c text
          else
            match text with
            | [] => false
            | t :: text' => ((c =? DOT) || (c =? t)) && matchhere re' text'
            end
      | [] =>
          if c =? DOLLAR then match text with [] => true | _ :: _ => false end
          else
            match text with
            | [] => false
            | t :: text' => ((c =? DOT) || (c =? t)) && matchhere re' text'
            end
      end
  end.

(** The loop of [match]. *)
Fixpoint match_loop (re text : list Z) : bool :=
  matchhere re text ||
  match text with
  | [] => false
  | _ :: text' => match_loop re text'
  end.

Definition grep_match (re text : list Z) : bool :=
  match re with
  | c :: re' => if c =? CARET then matchhere re' text else match_loop re text
  | [] => match_loop re text
  end.

(** ** The loop over the file *)

(** [strchr(p, c)]: the string before the first [c] and what follows it. *)
Fixpoint strchr (p : list Z) (c : Z) : option (list Z * list Z) :=
  match p with
  | [] => None
  | x :: p' =>
      if x =? 0 then None
      else if x =? c then Some ([], p')
      else '(l, r) ← strchr p' c; Some (x :: l, r)
  end.

(** The inner loop, over the [m] bytes [p] in the buffer: what is written,
    and the bytes that stay in the buffer. *)
Fixpoint grep_lines (fuel : nat) (pattern p : list Z) : list Z * list Z :=
  match fuel with
  | O => ([], p)
  | S fuel =>
      match strchr p NL with
      | None => ([], p)
      | Some (line, rest) =>
          let '(out, more) := grep_lines fuel pattern rest in
          ((if grep_match pattern line then line ++ [NL] else []) ++ out, more)
      end
  end.

Definition BUFSIZE : Z := 1024.

(** [read(fd, p, n)] gives at least one of the bytes of the file that are
    left when there are any and [n] is not 0; [ks] is how many it gives at
    each call. *)
Definition file_read (n : Z) (ks : list nat) (file : list Z) : list Z * list Z * list nat :=
  let k := Z.to_nat (Z.min n (Z.of_nat (S (default 0%nat (head ks))))) in
  (take k file, drop k file, tail ks).

(** [grep]: the bytes it writes, from the [buf] bytes that are in the buffer. *)
Fixpoint grep (fuel : nat) (pattern buf file : list Z) (ks : list nat) : option (list Z) :=
  match fuel with
  | O => None
  | S fuel =>
      let '(data, file', ks') := file_read (BUFSIZE - Z.of_nat (length buf) - 1) ks file in
      match data with
      | [] => Some []
      | _ :: _ =>
          let buf := buf ++ data in
          let '(out, more) := grep_lines (length buf) pattern buf in
          out' ← grep fuel pattern more file' ks';
          Some (out ++ out')
      end
  end.

(** ** Regular expressions *)

Inductive elem := Lit (c : Z) | Any | Many (c : Z) | ManyAny | Eol.

Definition atom (c : Z) : elem := if c =? DOT then Any else Lit c.

Fixpoint elems (re : list Z) : list elem :=
  match re with
  | [] => []
  | c :: re' =>
      match re' with
      | c1 :: re'' => if c1 =? STAR then (if c =? DOT then ManyAny else Many c) :: elems re'' else atom c :: elems re'
      | [] => if c =? DOLLAR then [Eol] else [atom c]
      end
  end.

(** The elements match [s], when [rest] follows it on the line. *)
Inductive means : list elem -> list Z -> list Z -> Prop :=
  | means_nil rest : means [] [] rest
  | means_lit c es s rest : means es s rest -> means (Lit c :: es) (c :: s) rest
  | means_any t es s rest : means es s rest -> means (Any :: es) (t :: s) rest
  | means_many c s1 es s rest : Forall (fun t => t = c) s1 -> means es s rest -> means (Many c :: es) (s1 ++ s) rest
  | means_manyany s1 es s rest : means es s rest -> means (ManyAny :: es) (s1 ++ s) rest
  | means_eol : means [Eol] [] [].

(** A pattern matches a line: at its beginning after [^], anywhere
    otherwise. *)
Definition pattern_means (re text : list Z) : Prop :=
  match re with
  | c :: re' =>
      if c =? CARET then exists s rest, text = s ++ rest /\ means (elems re') s rest
      else exists s0 s rest, text = s0 ++ s ++ rest /\ means (elems re) s rest
  | [] => exists s0 s rest, text = s0 ++ s ++ rest /\ means (elems re) s rest
  end.

Lemma matchstar_spec mh c text :
  matchstar mh c text = true <-> exists s1 s2, text = s1 ++ s2 /\ Forall (fun t => t = c \/ c = DOT) s1 /\ mh s2 = true.
Proof.
  induction text as [|t text IH]; cbn [matchstar]; rewrite orb_true_iff.
  - split; [intros [Hm|[=]]; by exists [], []|]. intros (s1 & s2 & E & _ & Hm). symmetry in E. apply app_eq_nil in E as [-> ->]. by left.
  - rewrite andb_true_iff, orb_true_iff, !Z.eqb_eq, IH. split.
    + intros [Hm|[Ht (s1 & s2 & -> & Hs & Hm)]]; [by exists [], (t :: text)|]. exists (t :: s1), s2. split; [done|]. split; [by constructor|done].
    + intros (s1 & s2 & E & Hs & Hm). destruct s1 as [|t' s1]; simpl in E; [left; by rewrite E|].
      injection E as <- ->. apply Forall_cons in Hs as [? ?]. right. split; [done|]. by exists s1, s2.
Qed.

Lemma matchhere_step c re' text :
  (forall re'', re' <> STAR :: re'') -> (c = DOLLAR -> re' <> []) ->
  matchhere (c :: re') text = match text with [] => false | t :: text' => ((c =? DOT) || (c =? t)) && matchhere re' text' end /\
  elems (c :: re') = atom c :: elems re'.
Proof.
  intros Hs Hd. cbn [matchhere elems]. destruct re' as [|c1 re''].
  - rewrite (proj2 (Z.eqb_neq _ _)) by (intros E; by apply Hd). done.
  - rewrite (proj2 (Z.eqb_neq c1 _)) by (intros ->; by apply (Hs re'')). done.
Qed.

Lemma means_atom c es s rest : means (atom c :: es) s rest <-> exists t s', s = t :: s' /\ (c = DOT \/ c = t) /\ means es s' rest.
Proof.
  unfold atom. destruct (Z.eqb_spec c DOT) as [-> |Hc]; split.
  - inversion 1; subst. eauto 10.
  - intros (t & s' & -> & _ & Hm). by constructor.
  - inversion 1; subst. eauto 10.
  - intros (t & s' & -> & [?| ->] & Hm); [done|]. by constructor.
Qed.

Lemma matchhere_spec re text : matchhere re text = true <-> exists s rest, text = s ++ rest /\ means (elems re) s rest.
Proof.
  revert text. induction re as [re IH] using (induction_ltof1 _ (@length Z)); unfold ltof in IH; intros text.
  destruct re as [|c re'].
  { split; [|done]. intros _. exists [], text. split; [done|constructor]. }
  assert ((exists re'', re' = STAR :: re'') \/ (c = DOLLAR /\ re' = []) \/ (forall re'', re' <> STAR :: re'') /\ (c = DOLLAR -> re' <> [])) as [[re'' ->]|[[-> ->]|[H1 H2]]].
  { destruct re' as [|c1 re'']; [destruct (decide (c = DOLLAR)); [auto|right; right; split; congruence]|].
    destruct (decide (c1 = STAR)) as [-> |]; [left; eauto|right; right]. split; congruence. }
  - cbn [matchhere elems]. change (STAR =? STAR) with true. cbv iota. rewrite matchstar_spec. split.
    + intros (s1 & s2 & -> & Hs & (s & rest & -> & Hm)%IH); [|simpl; lia]. exists (s1 ++ s), rest. rewrite app_assoc. split; [done|].
      destruct (Z.eqb_spec c DOT); [by constructor|]. constructor; [|done]. eapply Forall_impl; [exact Hs|]. by intros t [?|?].
    + intros (s & rest & -> & Hm). destruct (Z.eqb_spec c DOT) as [-> |]; inversion Hm; subst.
      * exists s1, (s0 ++ rest). rewrite app_assoc. split; [done|]. split; [apply Forall_true; by right|]. apply IH; [simpl; lia|]. by exists s0, rest.
      * exists s1, (s0 ++ rest). rewrite app_assoc. split; [done|]. split; [eapply Forall_impl; [eassumption|]; by left|]. apply IH; [simpl; lia|]. by exists s0, rest.
  - change (matchhere [DOLLAR] text) with (match text with [] => true | _ :: _ => false end). change (elems [DOLLAR]) with [Eol]. split.
    + destruct text; [|done]. intros _. exists [], []. split; [done|constructor].
    + intros (s & rest & -> & Hm). by inversion Hm; subst.
  - destruct (matchhere_step c re' text H1 H2) as [-> ->]. split.
    + destruct text as [|t text]; [done|]. rewrite andb_true_iff, orb_true_iff, !Z.eqb_eq. intros [Hc (s & rest & -> & Hm)%IH]; [|simpl; lia].
      exists (t :: s), rest. split; [done|]. apply means_atom. eauto.
    + intros (s & rest & -> & (t & s' & -> & Hc & Hm)%means_atom). cbn. rewrite andb_true_iff, orb_true_iff, !Z.eqb_eq.
      split; [done|]. apply IH; [simpl; lia|]. by exists s', rest.
Qed.

Lemma match_loop_spec re text : match_loop re text = true <-> exists s0 s rest, text = s0 ++ s ++ rest /\ means (elems re) s rest.
Proof.
  induction text as [|t text IH]; cbn [match_loop]; rewrite orb_true_iff, matchhere_spec.
  - split; [|intros (s0 & s & rest & E & Hm)].
    + intros [(s & rest & -> & Hm)|[=]]. by exists [], s, rest.
    + symmetry in E. apply app_eq_nil in E as [-> E]. left. by exists s, rest.
  - rewrite IH. split.
    + intros [(s & rest & -> & Hm)|(s0 & s & rest & -> & Hm)]; [by exists [], s, rest|by exists (t :: s0), s, rest].
    + intros (s0 & s & rest & E & Hm). destruct s0 as [|t' s0]; [left; by exists s, rest|right]. injection E as _ ->. by exists s0, s, rest.
Qed.

(** C35: [match] decides what its pattern means: the line, or the beginning of
    it after [^], contains a string that the elements of the pattern match in
    order, where [.] stands for any character, [c*] for any number of [c] and
    a last [$] for the end of the line. *)
Theorem grep_match_correct re text : grep_match re text = true <-> pattern_means re text.
Proof.
  unfold grep_match, pattern_means. destruct re as [|c re]; [apply match_loop_spec|]. destruct (c =? CARET); [apply matchhere_spec|apply match_loop_spec].
Qed.

(** ** Lines *)

(** The lines of a text that end with a newline, and the bytes after them. *)
Fixpoint lines (text : list Z) : list (list Z) * list Z :=
  match text with
  | [] => ([], [])
  | c :: text' =>
      let '(ls, r) := lines text' in
      if c =? NL then ([] :: ls, r)
      else match ls with [] => ([], c :: r) | l :: ls' => ((c :: l) :: ls', r) end
  end.

(** [grep] can find the end of a line that fits in the buffer and has no NUL
    in it. *)
Definition searchable (l : list Z) : bool :=
  (Z.of_nat (length l) <? BUFSIZE - 1) && forallb (fun x => negb (x =? 0)) l.

(** The lines before the first one that it cannot find the end of. *)
Fixpoint searched (ls : list (list Z)) : list (list Z) :=
  match ls with
  | [] => []
  | l :: ls' => if searchable l then l :: searched ls' else []
  end.

Definition printed (pattern : list Z) (ls : list (list Z)) : list Z :=
  mjoin ((fun l => if grep_match pattern l then l ++ [NL] else []) <$> ls).

(** Bytes with neither a NUL nor the end of a line. *)
Definition plain (p : list Z) : Prop := Forall (fun x => x <> 0 /\ x <> NL) p.

(** Bytes whose first line has a NUL before its end. *)
Definition stuck (p : list Z) : Prop := exists a b, p = a ++ 0 :: b /\ plain a.

(** The text of whole lines. *)
Definition text_of (ls : list (list Z)) : list Z := mjoin ((fun l => l ++ [NL]) <$> ls).

Lemma strchr_cases p :
  (exists l rest, strchr p NL = Some (l, rest) /\ p = l ++ NL :: rest /\ plain l) \/
  (strchr p NL = None /\ (plain p \/ stuck p)).
Proof.
  induction p as [|c p IH]; cbn [strchr]; [right; split; [done|left; constructor]|].
  destruct (Z.eqb_spec c 0) as [-> |H0]; [right; split; [done|right; exists [], p; split; [done|constructor]]|].
  destruct (Z.eqb_spec c NL) as [-> |HN]; [left; exists [], p; split_and!; [done|done|constructor]|].
  destruct IH as [(l & rest & -> & -> & Hl)|[-> [Hp|(a & b & -> & Ha)]]].
  - left. exists (c :: l), rest. split_and!; [done|done|by constructor].
  - right. split; [done|left; by constructor].
  - right. split; [done|right]. exists (c :: a), b. split; [done|by constructor].
Qed.

Lemma stuck_app p q : stuck p -> stuck (p ++ q).
Proof. intros (a & b & -> & Ha). exists a, (b ++ q). by rewrite <- app_assoc. Qed.

Lemma strchr_stuck p : stuck p -> strchr p NL = None.
Proof.
  intros (a & b & -> & Ha). induction Ha as [|c a [H0 HN] _ IH]; [done|]. cbn [strchr app].
  by rewrite (proj2 (Z.eqb_neq c 0)), (proj2 (Z.eqb_neq c NL)), IH by done.
Qed.

Lemma lines_cons_line l rest : plain l -> lines (l ++ NL :: rest) = (l :: (lines rest).1, (lines rest).2).
Proof.
  induction 1 as [|c l [_ HN] _ IH]; cbn [lines app]; [by destruct (lines rest)|].
  rewrite IH. by rewrite (proj2 (Z.eqb_neq c NL)).
Qed.

Lemma lines_text_of ls p : Forall plain ls -> lines (text_of ls ++ p) = (ls ++ (lines p).1, (lines p).2).
Proof.
  induction 1 as [|l ls Hl _ IH]; [change (text_of [] ++ p) with p; by destruct (lines p)|].
  change (text_of (l :: ls)) with ((l ++ [NL]) ++ text_of ls). rewrite <- !app_assoc. cbn [app].
  by rewrite lines_cons_line, IH.
Qed.

(** The first line of a text begins with the bytes before its first newline. *)
Lemma lines_first a q l ls : plain a -> (lines (a ++ q)).1 = l :: ls -> exists l', l = a ++ l' /\ (lines q).1 = l' :: ls.
Proof.
  intros Ha. revert l. induction Ha as [|c a [_ HN] _ IH]; intros l; cbn [lines app]; [by exists l|].
  destruct (lines (a ++ q)) as [ls' r]. rewrite (proj2 (Z.eqb_neq c NL)) by done.
  destruct ls' as [|l1 ls']; cbn [fst] in *; [done|]. intros [= <- <-]. destruct (IH l1 eq_refl) as (l' & -> & E). by exists l'.
Qed.

Lemma searched_stuck p : stuck p -> searched (lines p).1 = [].
Proof.
  intros (a & b & -> & Ha). destruct (lines (a ++ 0 :: b)) as [[|l ls] r] eqn:E; [done|]. cbn [fst].
  destruct (lines_first a (0 :: b) l ls Ha) as (l' & -> & E'); [by rewrite E|]. cbn [lines] in E'.
  destruct (lines b) as [[|l1 ls1] r1]; cbn [fst] in E'; [done|]. injection E' as <- _. cbn [searched]. unfold searchable.
  rewrite forallb_app. cbn. by rewrite !andb_false_r.
Qed.

Lemma searched_full p q : plain p -> Z.of_nat (length p) = BUFSIZE - 1 -> searched (lines (p ++ q)).1 = [].
Proof.
  intros Hp Hlen. destruct (lines (p ++ q)) as [[|l ls] r] eqn:E; [done|]. cbn [fst].
  destruct (lines_first p q l ls Hp) as (l' & -> & _); [by rewrite E|]. cbn [searched]. unfold searchable.
  rewrite length_app, (proj2 (Z.ltb_ge _ _)) by lia. done.
Qed.

Lemma lines_plain p : plain p -> lines p = ([], p).
Proof. induction 1 as [|c p [_ Hc] _ IH]; [done|]. cbn [lines]. rewrite IH. by rewrite (proj2 (Z.eqb_neq _ _)). Qed.

Lemma searched_app ls ls' :
  Forall plain ls -> Forall (fun l => Z.of_nat (length l) < BUFSIZE - 1) ls -> searched (ls ++ ls') = ls ++ searched ls'.
Proof.
  induction 1 as [|l ls Hl _ IH]; [done|]. intros [Hlen Hs]%Forall_cons. cbn [searched app]. unfold searchable.
  rewrite (proj2 (Z.ltb_lt _ _)) by done. assert (forallb (fun x => negb (x =? 0)) l = true) as ->; [|cbn [andb]; by rewrite IH].
  apply forallb_forall. intros x Hx%list_elem_of_In. destruct (Z.eqb_spec x 0); [|done]. by destruct (proj1 (Forall_forall _ _) Hl x Hx).
Qed.

Lemma printed_app pattern ls ls' : printed pattern (ls ++ ls') = printed pattern ls ++ printed pattern ls'.
Proof. unfold printed. rewrite fmap_app. apply join_app. Qed.

(** The inner loop takes whole lines from the buffer. *)
Lemma grep_lines_spec pattern fuel p :
  (length p <= fuel)%nat ->
  exists ls more, grep_lines fuel pattern p = (printed pattern ls, more) /\ p = text_of ls ++ more /\
    Forall plain ls /\ (plain more \/ stuck more).
Proof.
  revert p. induction fuel as [|fuel IH]; intros p Hf.
  { destruct p; [|simpl in Hf; lia]. exists [], []. split_and!; [done|done|done|left; constructor]. }
  cbn [grep_lines]. destruct (strchr_cases p) as [(l & rest & -> & -> & Hl)|[-> Hp]]; [|by exists [], p].
  rewrite length_app in Hf. simpl in Hf. destruct (IH rest) as (ls & more & -> & -> & Hls & Hm); [lia|].
  exists (l :: ls), more. split_and!; [done| |by constructor|done].
  change (text_of (l :: ls)) with ((l ++ [NL]) ++ text_of ls). by rewrite <- !app_assoc.
Qed.

Lemma text_of_length ls : Forall (fun l => (length l < length (text_of ls))%nat) ls.
Proof.
  induction ls as [|l ls IH]; [done|]. change (text_of (l :: ls)) with ((l ++ [NL]) ++ text_of ls).
  rewrite !length_app. constructor; [simpl; lia|]. eapply Forall_impl; [exact IH|]. intros x Hx. cbv beta in *. lia.
Qed.

Lemma grep_loop_spec pattern fuel buf file ks :
  plain buf \/ stuck buf -> Z.of_nat (length buf) <= BUFSIZE - 1 -> (length file < fuel)%nat ->
  grep fuel pattern buf file ks = Some (printed pattern (searched (lines (buf ++ file)).1)).
Proof.
  revert buf file ks. induction fuel as [|fuel IH]; intros buf file ks Hb Hlen Hf; [lia|]. cbn [grep]. unfold file_read.
  set (k := Z.to_nat _). destruct (take k file) as [|x data'] eqn:Ed.
  - f_equal. destruct Hb as [Hb|Hb]; [|by rewrite searched_stuck by by apply stuck_app]. destruct file as [|c file].
    + rewrite app_nil_r. by rewrite lines_plain.
    + destruct k as [|k'] eqn:Ek; [|done]. subst k. rewrite searched_full; [done|done|lia].
  - set (data := x :: data') in *. assert (file = data ++ drop k file) as Efile by (rewrite <- Ed; by rewrite take_drop).
    assert (Z.of_nat (length data) <= BUFSIZE - 1 - Z.of_nat (length buf)) as Hd by (rewrite <- Ed, length_take; unfold k; lia).
    assert (length (drop k file) < length file)%nat as Hdrop by (rewrite Efile at 2; rewrite length_app; unfold data; simpl; lia).
    destruct (grep_lines_spec pattern (length (buf ++ data)) (buf ++ data)) as (ls & more & -> & E & Hls & Hm); [done|].
    pose proof (f_equal length E) as El. rewrite !length_app in El. rewrite IH; [|done|lia|lia]. cbn [mbind option_bind].
    rewrite Efile at 2. rewrite app_assoc, E, <- app_assoc, lines_text_of by done. cbn [fst]. rewrite searched_app, printed_app; [done|done|].
    eapply Forall_impl; [apply text_of_length|]. intros l Hl. cbv beta in Hl. lia.
Qed.

(** C36: [grep] prints the lines that match, in order, however the reads split
    the file: those of the lines ended by a newline that come before the
    first line which has 1023 bytes or more, or a NUL byte in it. At such a
    line it stops: it never finds the end of the line. *)
Theorem grep_prints_matching_lines pattern file ks :
  grep (S (length file)) pattern [] file ks = Some (printed pattern (searched (lines file).1)).
Proof. apply (grep_loop_spec pattern (S (length file)) []); [left; constructor|done|lia]. Qed.

(** Two reads, the first one in the middle of a line: [a*b$] on three lines,
    the last one without a newline. *)
Lemma grep_prints_matching_lines_witness :
  grep 8 [97; 42; 98; 36] [] [99; 10; 97; 98; 10; 98; 98] [2%nat] = Some [97; 98; 10].
Proof. exact (grep_prints_matching_lines [97; 42; 98; 36] [99; 10; 97; 98; 10; 98; 98] [2%nat]). Defined.

(** A NUL in the second line hides the third one, which matches [b]. *)
Lemma grep_stops_at_nul ks : grep 9 [98] [] [98; 10; 97; 0; 98; 10; 98; 10] ks = Some [98; 10].
Proof. apply (grep_loop_spec [98] 9 [] [98; 10; 97; 0; 98; 10; 98; 10]); [left; constructor|done|simpl; lia]. Qed.
