(* ===== verification/Sh.v ===== *)
(** * The shell ([user/sh.c])

    A command line is the list of the bytes before its NUL, and [*ps] the rest
    of the line that is not parsed; the pointer it stands for is the offset
    [es - length rest]. Memory from [malloc] is taken to be there, as the
    code does. [panic] ends the process: the parser returns what is printed. *)

From S2P Require Import Prelude Riscv Monad State Kstring Ulib Uprintf.
#[local] Open Scope Z_scope.

(** ** Commands *)

Definition MAXARGS : nat := 10.

(** A word of the line: where it begins and where it ends. *)
Definition span : Type := nat * nat.

Inductive cmd :=
  | Exec (argv : list span)
  | Redir (c : cmd) (file : span) (mode fd : Z)
  | Pipe (l r : cmd)
  | Lst (l r : cmd)
  | Back (c : cmd).

(** [cmd->argv[argc] = q], for the [execcmd] inside the redirections. *)
Fixpoint add_arg (c : cmd) (a : span) : cmd :=
  match c with
  | Exec argv => Exec (argv ++ [a])
  | Redir c file mode fd => Redir (add_arg c a) file mode fd
  | c => c
  end.

(** ** Tokens *)

Definition ch_pipe : Z := 124.
Definition ch_open : Z := 40.
Definition ch_close : Z := 41.
Definition ch_semi : Z := 59.
Definition ch_amp : Z := 38.
Definition ch_lt : Z := 60.
Definition ch_gt : Z := 62.
Definition tok_append : Z := 43.
Definition tok_word : Z := 97.

Definition whitespace : list Z := [32; 9; 13; 10; 11].
Definition symbols : list Z := [ch_lt; ch_pipe; ch_gt; ch_amp; ch_semi; ch_open; ch_close].

Definition among (c : Z) (l : list Z) : bool := existsb (Z.eqb c) l.
#[global] Arguments among : simpl never.

Fixpoint skip_ws (s : list Z) : list Z :=
  match s with
  | c :: s' => if among c whitespace then skip_ws s' else s
  | [] => []
  end.

Fixpoint skip_word (s : list Z) : list Z :=
  match s with
  | c :: s' => if negb (among c whitespace) && negb (among c symbols) then skip_word s' else s
  | [] => []
  end.

(** The token, where it begins and ends, and the rest of the line. *)
Definition gettoken (s : list Z) : Z * list Z * list Z * list Z :=
  let s := skip_ws s in
  let q := s in
  let '(ret, s) :=
    match s with
    | [] => (0, s)
    | c :: s1 =>
        if among c [ch_pipe; ch_open; ch_close; ch_semi; ch_amp; ch_lt] then (c, s1)
        else if c =? ch_gt then
          match s1 with
          | c1 :: s2 => if c1 =? ch_gt then (tok_append, s2) else (c, s1)
          | [] => (c, s1)
          end
        else (tok_word, skip_word s)
    end in
  let eq := s in
  (ret, q, eq, skip_ws s).

Definition peek (s : list Z) (toks : list Z) : bool * list Z :=
  let s := skip_ws s in
  (match s with c :: _ => among c toks | [] => false end, s).

(** ** The parser *)

(** What [panic] prints. *)
Definition panic_text (s : string) : list Z := default [] (fprintf (str "%s" ++ [10]) [AStr (Some (str s))]).
#[global] Arguments panic_text : simpl never.

(** [Panic out]: the process has printed [out] and called [exit(1)]. *)
Inductive result (A : Type) :=
  | Ok (x : A)
  | Panic (out : list Z)
  | NoFuel.
#[global] Arguments Ok {_} _.
#[global] Arguments Panic {_} _.
#[global] Arguments NoFuel {_}.

#[export] Instance result_bind : MBind result := fun A B f m =>
  match m with
  | Ok x => f x
  | Panic out => Panic out
  | NoFuel => NoFuel
  end.

Section parser.
Context (es : nat).

Definition span_of (q eq : list Z) : span := (es - length q, es - length eq)%nat.

Fixpoint parseredirs (fuel : nat) (c : cmd) (s : list Z) : result (cmd * list Z) :=
  match fuel with
  | O => NoFuel
  | S fuel =>
      let '(b, s) := peek s [ch_lt; ch_gt] in
      if b then
        let '(tok, _, _, s) := gettoken s in
        let '(tok', q, eq, s) := gettoken s in
        if negb (tok' =? tok_word) then Panic (panic_text "missing file for redirection")
        else
          let w := span_of q eq in
          let c :=
            if tok =? ch_lt then Redir c w O_RDONLY 0
            else if tok =? ch_gt then Redir c w (Z.lor (Z.lor O_WRONLY O_CREATE) O_TRUNC) 1
            else if tok =? tok_append then Redir c w (Z.lor O_WRONLY O_CREATE) 1
            else c in
          parseredirs fuel c s
      else Ok (c, s)
  end.

(** The loop of [parseexec]. *)
Fixpoint parseargs (fuel argc : nat) (ret : cmd) (s : list Z) : result (cmd * list Z) :=
  match fuel with
  | O => NoFuel
  | S fuel =>
      let '(b, s) := peek s [ch_pipe; ch_close; ch_amp; ch_semi] in
      if b then Ok (ret, s)
      else
        let '(tok, q, eq, s) := gettoken s in
        if tok =? 0 then Ok (ret, s)
        else if negb (tok =? tok_word) then Panic (panic_text "syntax")
        else
          let ret := add_arg ret (span_of q eq) in
          let argc := S argc in
          if (MAXARGS <=? argc)%nat then Panic (panic_text "too many args")
          else
            '(ret, s) ← parseredirs fuel ret s;
            parseargs fuel argc ret s
  end.

(** The loop of [parseline] over [&]. *)
Fixpoint parseback (fuel : nat) (c : cmd) (s : list Z) : result (cmd * list Z) :=
  match fuel with
  | O => NoFuel
  | S fuel =>
      let '(b, s) := peek s [ch_amp] in
      if b then
        let '(_, _, _, s) := gettoken s in
        parseback fuel (Back c) s
      else Ok (c, s)
  end.

Fixpoint parseline (fuel : nat) (s : list Z) : result (cmd * list Z) :=
  match fuel with
  | O => NoFuel
  | S fuel =>
      '(c, s) ← parsepipe fuel s;
      '(c, s) ← parseback fuel c s;
      let '(b, s) := peek s [ch_semi] in
      if b then
        let '(_, _, _, s) := gettoken s in
        '(c', s) ← parseline fuel s;
        Ok (Lst c c', s)
      else Ok (c, s)
  end
with parsepipe (fuel : nat) (s : list Z) : result (cmd * list Z) :=
  match fuel with
  | O => NoFuel
  | S fuel =>
      '(c, s) ← parseexec fuel s;
      let '(b, s) := peek s [ch_pipe] in
      if b then
        let '(_, _, _, s) := gettoken s in
        '(c', s) ← parsepipe fuel s;
        Ok (Pipe c c', s)
      else Ok (c, s)
  end
with parseexec (fuel : nat) (s : list Z) : result (cmd * list Z) :=
  match fuel with
  | O => NoFuel
  | S fuel =>
      let '(b, s) := peek s [ch_open] in
      if b then parseblock fuel s
      else
        '(ret, s) ← parseredirs fuel (Exec []) s;
        parseargs fuel 0 ret s
  end
with parseblock (fuel : nat) (s : list Z) : result (cmd * list Z) :=
  match fuel with
  | O => NoFuel
  | S fuel =>
      let '(b, s) := peek s [ch_open] in
      if negb b then Panic (panic_text "parseblock")
      else
        let '(_, _, _, s) := gettoken s in
        '(c, s) ← parseline fuel s;
        let '(b, s) := peek s [ch_close] in
        if negb b then Panic (panic_text "syntax - missing )")
        else
          let '(_, _, _, s) := gettoken s in
          parseredirs fuel c s
  end.

End parser.

(** [nulterminate]: the bytes of the buffer after it. *)
Fixpoint nulterminate (c : cmd) (buf : list Z) : list Z :=
  match c with
  | Exec argv => foldl (fun buf a => <[snd a := 0]> buf) buf argv
  | Redir c file _ _ => <[snd file := 0]> (nulterminate c buf)
  | Pipe l r => nulterminate r (nulterminate l buf)
  | Lst l r => nulterminate r (nulterminate l buf)
  | Back c => nulterminate c buf
  end.

(** [parsecmd], on the line [line] and its NUL. *)
Definition parsecmd (fuel : nat) (line : list Z) : result (cmd * list Z) :=
  '(c, s) ← parseline (length line) fuel line;
  let '(_, s) := peek s [] in
  match s with
  | _ :: _ => Panic (default [] (fprintf (str "leftovers: %s" ++ [10]) [AStr (Some s)]) ++ panic_text "syntax")
  | [] => Ok (c, nulterminate c (line ++ [0]))
  end.

(** ** Running a command *)

(** A process, as the system calls it makes: what follows a call depends on
    its result. After [fork] the child goes its own way. [PRead1] is
    [read(0, &c, 1)], and [PStuck] the end of a bound on iterations. *)
Inductive prog :=
  | PExit (code : Z)
  | PExec (path : list Z) (argv : list (list Z)) (failed : prog)
  | PPrint (fd : Z) (out : list Z) (k : prog)
  | PRead1 (k : option Z -> prog)
  | POpen (path : list Z) (mode : Z) (k : Z -> prog)
  | PClose (fd : Z) (k : prog)
  | PDup (fd : Z) (k : prog)
  | PPipe (k : option (Z * Z) -> prog)
  | PChdir (path : list Z) (k : Z -> prog)
  | PFork (child : prog) (parent : Z -> prog)
  | PWait (k : prog)
  | PStuck.

(** [fprintf(2, fmt, arg)], of a line. *)
Definition complain (fmt : string) (arg : list Z) (k : prog) : prog :=
  PPrint 2 (default [] (fprintf (str fmt ++ [10]) [AStr (Some arg)])) k.

Definition panic (msg : string) : prog := PPrint 2 (panic_text msg) (PExit 1).

Definition fork1 (child parent : prog) : prog :=
  PFork child (fun pid => if pid =? -1 then panic "fork" else parent).

(** [runcmd]; [buf] is the line after [nulterminate]. *)
Fixpoint runcmd (buf : list Z) (c : cmd) : prog :=
  let arg (w : span) := cstr_of (drop (fst w) buf) in
  match c with
  | Exec [] => PExit 1
  | Exec (a :: argv) => PExec (arg a) (arg <$> (a :: argv)) (complain "exec %s failed" (arg a) (PExit 0))
  | Redir c file mode fd =>
      PClose fd (POpen (arg file) mode (fun r =>
        if r <? 0 then complain "open %s failed" (arg file) (PExit 1) else runcmd buf c))
  | Lst l r => fork1 (runcmd buf l) (PWait (runcmd buf r))
  | Pipe l r =>
      PPipe (fun p =>
        match p with
        | None => panic "pipe"
        | Some (p0, p1) =>
            fork1 (PClose 1 (PDup p1 (PClose p0 (PClose p1 (runcmd buf l)))))
              (fork1 (PClose 0 (PDup p0 (PClose p0 (PClose p1 (runcmd buf r)))))
                (PClose p0 (PClose p1 (PWait (PWait (PExit 0))))))
        end)
  | Back c => fork1 (runcmd buf c) (PExit 0)
  end.

(** ** The loop over the input *)

(** [gets(buf, max)] on the zeroed buffer, with [n] more bytes that fit;
    [line] is what is in the buffer. *)
Fixpoint gets (n : nat) (line : list Z) (k : list Z -> prog) : prog :=
  match n with
  | O => k line
  | S n =>
      PRead1 (fun r =>
        match r with
        | None => k line
        | Some c => if (c =? 10) || (c =? 13) then k (line ++ [c]) else gets n (line ++ [c]) k
        end)
  end.

(** [sizeof(buf)]. *)
Definition BUFLEN : nat := 100.

(** [getcmd]; [eof] is what follows a result of -1. The bytes after the line
    are 0. *)
Definition getcmd (eof : prog) (k : list Z -> prog) : prog :=
  PPrint 2 (default [] (fprintf (str "$ ") [])) (gets (BUFLEN - 1) [] (fun line =>
    let buf := line ++ replicate (BUFLEN - length line) 0 in
    if default 0 (head buf) =? 0 then eof else k buf)).

(** The line begins with [cd ]. *)
Definition is_cd (buf : list Z) : bool := bool_decide (take 3 buf = str "cd ").

(** The child of the loop; the bound is the one that is enough for every line
    of the buffer. *)
Definition run_line (buf : list Z) : prog :=
  match parsecmd (4 * BUFLEN + 5) (cstr_of buf) with
  | Ok (c, buf) => runcmd buf c
  | Panic out => PPrint 2 out (PExit 1)
  | NoFuel => PStuck
  end.

Fixpoint main_loop (fuel : nat) : prog :=
  match fuel with
  | O => PStuck
  | S fuel =>
      getcmd (PExit 0) (fun buf =>
        if is_cd buf then
          let buf := <[(length (cstr_of buf) - 1)%nat := 0]> buf in
          let dir := cstr_of (drop 3 buf) in
          PChdir dir (fun r => if r <? 0 then complain "cannot cd %s" dir (main_loop fuel) else main_loop fuel)
        else fork1 (run_line buf) (PWait (main_loop fuel)))
  end.

(** The loop that opens the console until three descriptors are open. *)
Fixpoint open_console (fuel : nat) (k : prog) : prog :=
  match fuel with
  | O => PStuck
  | S fuel =>
      POpen (str "console") O_RDWR (fun fd =>
        if fd <? 0 then k
        else if 3 <=? fd then PClose fd k
        else open_console fuel k)
  end.

Definition main (fuel : nat) : prog := open_console 4 (main_loop fuel).
