(* ===== verification/ShProps.v ===== *)
(** * The shell's parser and its grammar

    The parser is compared with a grammar over the tokens of the line: it
    accepts exactly the lines of the grammar, with the command that the
    syntax tree stands for. *)

From S2P Require Import Prelude Riscv Monad State Kstring Ulib Uprintf Sh.
#[local] Open Scope Z_scope.

(** ** The tokens of a line *)

Inductive token := TSym (c : Z) | TWord (w : span).

Section tokens.
Context (es : nat).

Fixpoint toks (fuel : nat) (s : list Z) : list token :=
  match fuel with
  | O => []
  | S fuel =>
      let '(ret, q, eq, s') := gettoken s in
      if ret =? 0 then []
      else (if ret =? tok_word then TWord (span_of es q eq) else TSym ret) :: toks fuel s'
  end.

Definition tokens (s : list Z) : list token := toks (S (length s)) s.

Lemma skip_ws_length s : (length (skip_ws s) <= length s)%nat.
Proof. induction s as [|c s IH]; simpl; [done|]. destruct (among c whitespace); simpl; lia. Qed.

Lemma skip_word_length s : (length (skip_word s) <= length s)%nat.
Proof. induction s as [|c s IH]; simpl; [done|]. destruct (_ && _); simpl; lia. Qed.

Lemma skip_ws_idem s : skip_ws (skip_ws s) = skip_ws s.
Proof. induction s as [|c s IH]; simpl; [done|]. destruct (among c whitespace) eqn:E; [done|]. simpl. by rewrite E. Qed.

Lemma skip_ws_head s c s' : skip_ws s = c :: s' -> among c whitespace = false.
Proof. induction s as [|x s IH]; simpl; [done|]. destruct (among x whitespace) eqn:E; [done|]. by intros [= <- _]. Qed.

(** The cases of [gettoken]: the end of the line, a symbol, a word. *)
Lemma gettoken_cases s :
  let '(ret, q, eq, s') := gettoken s in
  q = skip_ws s /\ s' = skip_ws eq /\
  ((ret = 0 /\ q = [] /\ eq = []) \/
   (exists c s1, q = c :: s1 /\ among c symbols = true /\
      (ret = c /\ eq = s1 \/ ret = tok_append /\ c = ch_gt /\ exists s2, s1 = ch_gt :: s2 /\ eq = s2)) \/
   (exists c s1, q = c :: s1 /\ among c symbols = false /\ among c whitespace = false /\ ret = tok_word /\ eq = skip_word (c :: s1))).
Proof.
  unfold gettoken. destruct (skip_ws s) as [|c s1] eqn:E; [split_and!; [done|done|]; by left|].
  destruct (among c [ch_pipe; ch_open; ch_close; ch_semi; ch_amp; ch_lt]) eqn:Ec.
  { split_and!; [done|done|]. right. left. exists c, s1. split; [done|]. split; [|by left].
    revert Ec. unfold among, symbols. cbn [existsb]. rewrite !orb_true_iff. tauto. }
  destruct (Z.eqb_spec c ch_gt) as [-> |Hne].
  - destruct s1 as [|c1 s2]; [|destruct (Z.eqb_spec c1 ch_gt) as [-> |]]; (split_and!; [done|done|]; right; left).
    + exists ch_gt, []. split; [done|]. split; [done|]. by left.
    + exists ch_gt, (ch_gt :: s2). split; [done|]. split; [done|]. right. split; [done|]. split; [done|]. by exists s2.
    + exists ch_gt, (c1 :: s2). split; [done|]. split; [done|]. by left.
  - split_and!; [done|done|]. right. right. exists c, s1. split_and!; [done| |by eapply skip_ws_head|done|done].
    revert Ec. unfold among, symbols. cbn [existsb]. rewrite !orb_false_iff. rewrite (proj2 (Z.eqb_neq c ch_gt) Hne). tauto.
Qed.

Lemma gettoken_progress s ret q eq s' : gettoken s = (ret, q, eq, s') -> ret <> 0 -> (length s' < length s)%nat.
Proof.
  intros E Hr. pose proof (gettoken_cases s) as Hc. rewrite E in Hc. destruct Hc as (Eq & -> & Hc).
  pose proof (skip_ws_length s) as H1. pose proof (skip_ws_length eq) as H2. rewrite <- Eq in H1.
  destruct Hc as [(? & _)|[(c & s1 & -> & _ & [[_ ->]|(_ & _ & s2 & -> & ->)])|(c & s1 & -> & Hs & Hw & _ & ->)]]; [done|simpl in *; lia|simpl in *; lia|].
  cbn [skip_word] in *. rewrite Hs, Hw in *. cbn [negb andb] in *. pose proof (skip_word_length s1). simpl in *. lia.
Qed.

Lemma toks_fuel fuel fuel' s : (length s < fuel)%nat -> (length s < fuel')%nat -> toks fuel s = toks fuel' s.
Proof.
  revert fuel' s. induction fuel as [|fuel IH]; intros fuel' s H1 H2; [lia|]. destruct fuel' as [|fuel']; [lia|]. cbn [toks].
  destruct (gettoken s) as [[[ret q] eq] s'] eqn:E. destruct (Z.eqb_spec ret 0); [done|]. f_equal.
  pose proof (gettoken_progress _ _ _ _ _ E ltac:(done)). apply IH; lia.
Qed.

Lemma tokens_step s :
  tokens s = let '(ret, q, eq, s') := gettoken s in
             if ret =? 0 then [] else (if ret =? tok_word then TWord (span_of es q eq) else TSym ret) :: tokens s'.
Proof.
  unfold tokens at 1. cbn [toks]. destruct (gettoken s) as [[[ret q] eq] s'] eqn:E. destruct (Z.eqb_spec ret 0); [done|]. f_equal.
  pose proof (gettoken_progress _ _ _ _ _ E ltac:(done)). apply toks_fuel; lia.
Qed.

Lemma gettoken_skip_ws s : gettoken (skip_ws s) = gettoken s.
Proof. unfold gettoken. by rewrite skip_ws_idem. Qed.

Lemma tokens_skip_ws s : tokens (skip_ws s) = tokens s.
Proof. rewrite !tokens_step. by rewrite gettoken_skip_ws. Qed.

(** [peek] on the tokens. *)
Definition hd_in (set : list Z) (T : list token) : bool :=
  match T with
  | TSym c :: _ => among (if c =? tok_append then ch_gt else c) set
  | _ => false
  end.

Lemma mem_In c l : among c l = true <-> c ∈ l.
Proof.
  unfold among. rewrite existsb_exists. rewrite list_elem_of_In. split; [|intros ?; exists c; by rewrite Z.eqb_refl].
  by intros (x & ? & ->%Z.eqb_eq).
Qed.

Lemma symbols_codes c : among c symbols = true -> c <> 0 /\ c <> tok_word /\ c <> tok_append.
Proof. rewrite mem_In. unfold symbols. rewrite !elem_of_cons. intros Hc. unfold tok_word, tok_append. repeat (destruct Hc as [-> |Hc]; [done|]). by apply not_elem_of_nil in Hc. Qed.

Lemma peek_spec s set :
  forallb (fun c => among c symbols) set = true ->
  exists s1, peek s set = (hd_in set (tokens s), s1) /\ tokens s1 = tokens s.
Proof.
  intros Hset'. assert (forall c, among c set = true -> among c symbols = true) as Hset.
  { intros c Hc. rewrite forallb_forall in Hset'. apply Hset'. apply mem_In in Hc. by apply list_elem_of_In. }
  exists (skip_ws s). rewrite tokens_skip_ws. split; [|done]. unfold peek. f_equal. rewrite tokens_step.
  pose proof (gettoken_cases s) as Hc. destruct (gettoken s) as [[[ret q] eq] s']. destruct Hc as (<- & _ & Hc).
  destruct Hc as [(-> & -> & _)|[(c & s1 & -> & Hs & Hr)|(c & s1 & -> & Hs & _ & -> & _)]].
  - done.
  - destruct (symbols_codes c Hs) as (? & ? & ?). destruct Hr as [[-> _]|(-> & -> & _)]; [|done].
    rewrite (proj2 (Z.eqb_neq c 0)), (proj2 (Z.eqb_neq c tok_word)) by done. cbn [hd_in]. by rewrite (proj2 (Z.eqb_neq c tok_append)).
  - cbn. destruct (among c set) eqn:E; [|done]. apply Hset in E. congruence.
Qed.

(** [gettoken] on the tokens. *)
Lemma gettoken_sym s c T : tokens s = TSym c :: T -> exists q eq s', gettoken s = (c, q, eq, s') /\ tokens s' = T /\ c <> 0 /\ c <> tok_word.
Proof.
  rewrite tokens_step. destruct (gettoken s) as [[[ret q] eq] s']. destruct (Z.eqb_spec ret 0); [done|].
  destruct (Z.eqb_spec ret tok_word); [done|]. intros [= -> <-]. by exists q, eq, s'.
Qed.

Lemma gettoken_word s w T : tokens s = TWord w :: T -> exists q eq s', gettoken s = (tok_word, q, eq, s') /\ span_of es q eq = w /\ tokens s' = T.
Proof.
  rewrite tokens_step. destruct (gettoken s) as [[[ret q] eq] s']. destruct (Z.eqb_spec ret 0); [done|].
  destruct (Z.eqb_spec ret tok_word) as [-> |]; [|done]. intros [= <- <-]. by exists q, eq, s'.
Qed.

Lemma gettoken_end s : tokens s = [] -> exists q eq s', gettoken s = (0, q, eq, s') /\ tokens s' = [].
Proof.
  rewrite tokens_step. pose proof (gettoken_cases s) as Hc. destruct (gettoken s) as [[[ret q] eq] s']. destruct Hc as (_ & -> & Hc).
  destruct (Z.eqb_spec ret 0) as [-> |]; [|done]. intros _. exists q, eq, (skip_ws eq). split; [done|].
  destruct Hc as [(_ & _ & ->)|[(c & s1 & _ & Hs & Hr)|(c & s1 & _ & _ & _ & [=] & _)]]; [done|].
  destruct (symbols_codes c Hs) as (? & _). destruct Hr as [[<- _]|([=] & _)]. done.
Qed.

End tokens.
#[local] Arguments tokens : simpl never.

(** ** The grammar *)

Record redir := mkredir { r_kind : Z; r_file : span }.

Inductive line :=
  | LEnd (p : pipeline) (bg : nat)
  | LSeq (p : pipeline) (bg : nat) (l : line)
with pipeline :=
  | PEnd (e : simple)
  | PSeq (e : simple) (p : pipeline)
with simple :=
  | Block (l : line) (rs : list redir)
  | Simple (rs : list redir) (args : list (span * list redir)).

Definition redirs_toks (rs : list redir) : list token := mjoin ((fun r => [TSym (r_kind r); TWord (r_file r)]) <$> rs).
Definition args_toks (args : list (span * list redir)) : list token := mjoin ((fun a => TWord a.1 :: redirs_toks a.2) <$> args).

Fixpoint line_toks (l : line) : list token :=
  match l with
  | LEnd p bg => pipe_toks p ++ replicate bg (TSym ch_amp)
  | LSeq p bg l => pipe_toks p ++ replicate bg (TSym ch_amp) ++ TSym ch_semi :: line_toks l
  end
with pipe_toks (p : pipeline) : list token :=
  match p with
  | PEnd e => simple_toks e
  | PSeq e p => simple_toks e ++ TSym ch_pipe :: pipe_toks p
  end
with simple_toks (e : simple) : list token :=
  match e with
  | Block l rs => TSym ch_open :: line_toks l ++ TSym ch_close :: redirs_toks rs
  | Simple rs args => redirs_toks rs ++ args_toks args
  end.

(** The command of a syntax tree. *)
Definition redir_cmd (c : cmd) (r : redir) : cmd :=
  if r_kind r =? ch_lt then Redir c (r_file r) O_RDONLY 0
  else if r_kind r =? ch_gt then Redir c (r_file r) (Z.lor (Z.lor O_WRONLY O_CREATE) O_TRUNC) 1
  else Redir c (r_file r) (Z.lor O_WRONLY O_CREATE) 1.

Definition redirs_cmd (c : cmd) (rs : list redir) : cmd := foldl redir_cmd c rs.
Definition args_cmd (c : cmd) (args : list (span * list redir)) : cmd := foldl (fun c a => redirs_cmd (add_arg c a.1) a.2) c args.

Fixpoint line_cmd (l : line) : cmd :=
  match l with
  | LEnd p bg => Nat.iter bg Back (pipe_cmd p)
  | LSeq p bg l => Lst (Nat.iter bg Back (pipe_cmd p)) (line_cmd l)
  end
with pipe_cmd (p : pipeline) : cmd :=
  match p with
  | PEnd e => simple_cmd e
  | PSeq e p => Pipe (simple_cmd e) (pipe_cmd p)
  end
with simple_cmd (e : simple) : cmd :=
  match e with
  | Block l rs => redirs_cmd (line_cmd l) rs
  | Simple rs args => args_cmd (redirs_cmd (Exec []) rs) args
  end.

(** The redirections are [<], [>] and [>>], and a command has fewer than ten
    words. *)
Definition redirs_wf (rs : list redir) : Prop := Forall (fun r => among (r_kind r) [ch_lt; ch_gt; tok_append] = true) rs.

Fixpoint line_wf (l : line) : Prop :=
  match l with
  | LEnd p _ => pipe_wf p
  | LSeq p _ l => pipe_wf p /\ line_wf l
  end
with pipe_wf (p : pipeline) : Prop :=
  match p with
  | PEnd e => simple_wf e
  | PSeq e p => simple_wf e /\ pipe_wf p
  end
with simple_wf (e : simple) : Prop :=
  match e with
  | Block l rs => line_wf l /\ redirs_wf rs
  | Simple rs args => redirs_wf rs /\ Forall (fun a => redirs_wf a.2) args /\ (length args < MAXARGS)%nat
  end.

(** ** The parser follows the grammar *)

Section sound.
Context (es : nat).

Lemma redirs_toks_cons r rs : redirs_toks (r :: rs) = TSym (r_kind r) :: TWord (r_file r) :: redirs_toks rs.
Proof. done. Qed.

Lemma args_toks_cons a args : args_toks (a :: args) = TWord a.1 :: redirs_toks a.2 ++ args_toks args.
Proof. done. Qed.

(** What is in front of the tokens when [peek] says so. *)
Lemma hd_in_sym set T : hd_in set T = true -> exists c T', T = TSym c :: T' /\ among (if c =? tok_append then ch_gt else c) set = true.
Proof. destruct T as [|[c|w] T]; [done| |done]. cbn. eauto. Qed.

Lemma hd_in_one c T : c <> ch_gt -> hd_in [c] T = true -> exists T', T = TSym c :: T'.
Proof.
  intros Hc (c' & T' & -> & Hm)%hd_in_sym. exists T'. apply mem_In, list_elem_of_singleton in Hm.
  destruct (Z.eqb_spec c' tok_append); congruence.
Qed.

Lemma parseredirs_sound fuel c s c' s' :
  parseredirs es fuel c s = Ok (c', s') ->
  exists rs, redirs_wf rs /\ tokens es s = redirs_toks rs ++ tokens es s' /\ c' = redirs_cmd c rs.
Proof.
  revert c s. induction fuel as [|fuel IH]; intros c s; [done|]. cbn [parseredirs].
  destruct (peek_spec es s [ch_lt; ch_gt] eq_refl) as (s1 & -> & Hs1). destruct (hd_in _ (tokens es s)) eqn:Eh.
  2: { intros [= <- <-]. exists []. split; [constructor|]. by rewrite Hs1. }
  apply hd_in_sym in Eh as (k & T & Et & Hk). rewrite Et in Hs1. apply gettoken_sym in Hs1 as (q & eq & s2 & -> & Hs2 & _).
  destruct (gettoken s2) as [[[tok' q'] eq'] s3] eqn:Eg. destruct (Z.eqb_spec tok' tok_word) as [-> |]; [|done]. cbn [negb].
  intros (rs & Hwf & Hs3 & ->)%IH. set (r := mkredir k (span_of es q' eq')).
  assert (among k [ch_lt; ch_gt; tok_append] = true) as Hk'.
  { revert Hk. rewrite !mem_In, !elem_of_cons. destruct (Z.eqb_spec k tok_append); [tauto|]. intros [?|[?|Hx]]; [tauto|tauto|by apply not_elem_of_nil in Hx]. }
  exists (r :: rs). split; [by constructor|]. split.
  - rewrite redirs_toks_cons, Et. rewrite <- Hs2, (tokens_step es s2), Eg, Hs3. done.
  - cbn. f_equal. unfold redir_cmd. cbn. destruct (Z.eqb_spec k ch_lt); [done|]. destruct (Z.eqb_spec k ch_gt); [done|].
    apply mem_In in Hk'. rewrite !elem_of_cons in Hk'. destruct Hk' as [?|[?|[-> |Hx]]]; [done|done|done|by apply not_elem_of_nil in Hx].
Qed.

Lemma parseargs_sound fuel argc c s c' s' :
  parseargs es fuel argc c s = Ok (c', s') -> (argc < MAXARGS)%nat ->
  exists args, Forall (fun a => redirs_wf a.2) args /\ (argc + length args < MAXARGS)%nat /\
    tokens es s = args_toks args ++ tokens es s' /\ c' = args_cmd c args.
Proof.
  revert argc c s. induction fuel as [|fuel IH]; intros argc c s; [done|]. cbn [parseargs].
  destruct (peek_spec es s [ch_pipe; ch_close; ch_amp; ch_semi] eq_refl) as (s1 & -> & Hs1). destruct (hd_in _ _).
  { intros [= <- <-] Ha. exists []. rewrite Hs1, Nat.add_0_r. done. }
  destruct (gettoken s1) as [[[tok q] eq] s2] eqn:Eg. intros Hrun Ha. rewrite <- Hs1, (tokens_step es s1), Eg. destruct (Z.eqb_spec tok 0) as [-> |].
  { injection Hrun as <- <-. exists []. rewrite Nat.add_0_r. split; [done|]. split; [done|]. split; [|done].
    destruct (gettoken_end es s1) as (? & ? & ? & E' & Hx); [by rewrite tokens_step, Eg|]. rewrite Eg in E'. injection E' as <- <- <-. by rewrite Hx. }
  destruct (Z.eqb_spec tok tok_word) as [-> |]; [|done]. cbn [negb] in Hrun.
  destruct (Nat.leb_spec MAXARGS (S argc)) as [|Ha']; [done|].
  destruct (parseredirs es fuel (add_arg c (span_of es q eq)) s2) as [[c2 s3]| |] eqn:Er; [|done|done].
  apply parseredirs_sound in Er as (rs & Hwf & Hs2 & ->). apply IH in Hrun as (args & Hargs & Hlen & Hs3 & ->); [|done].
  exists ((span_of es q eq, rs) :: args). split; [by constructor|]. split; [simpl; lia|]. split; [|done].
  rewrite args_toks_cons. cbn. by rewrite Hs2, Hs3, <- app_assoc.
Qed.

Lemma parseback_sound fuel c s c' s' :
  parseback fuel c s = Ok (c', s') -> exists n, tokens es s = replicate n (TSym ch_amp) ++ tokens es s' /\ c' = Nat.iter n Back c.
Proof.
  revert c s. induction fuel as [|fuel IH]; intros c s; [done|]. cbn [parseback].
  destruct (peek_spec es s [ch_amp] eq_refl) as (s1 & -> & Hs1). destruct (hd_in _ (tokens es s)) eqn:Eh.
  2: { intros [= <- <-]. exists O. by rewrite Hs1. }
  apply hd_in_one in Eh as [T Et]; [|done]. rewrite Et in Hs1. apply gettoken_sym in Hs1 as (q & eq & s2 & -> & Hs2 & _).
  intros (n & Hs3 & ->)%IH. exists (S n). rewrite Et. cbn. rewrite <- Hs2, Hs3. split; [done|]. by rewrite <- Nat.iter_succ_r.
Qed.

Lemma parse_sound fuel :
  (forall s c s', parseline es fuel s = Ok (c, s') -> exists l, line_wf l /\ tokens es s = line_toks l ++ tokens es s' /\ c = line_cmd l) /\
  (forall s c s', parsepipe es fuel s = Ok (c, s') -> exists p, pipe_wf p /\ tokens es s = pipe_toks p ++ tokens es s' /\ c = pipe_cmd p) /\
  (forall s c s', parseexec es fuel s = Ok (c, s') -> exists e, simple_wf e /\ tokens es s = simple_toks e ++ tokens es s' /\ c = simple_cmd e) /\
  (forall s c s', parseblock es fuel s = Ok (c, s') -> exists e, simple_wf e /\ tokens es s = simple_toks e ++ tokens es s' /\ c = simple_cmd e).
Proof.
  induction fuel as [|fuel (IHl & IHp & IHe & IHb)]; [done|]. split_and!; intros s c s'.
  - cbn [parseline]. destruct (parsepipe es fuel s) as [[c1 s1]| |] eqn:Ep; [|done|done]. apply IHp in Ep as (p & Hp & Es & ->). cbn [mbind result_bind].
    destruct (parseback fuel (pipe_cmd p) s1) as [[c2 s2]| |] eqn:Eb; [|done|done]. apply parseback_sound in Eb as (n & Es1 & ->). cbn [mbind result_bind].
    destruct (peek_spec es s2 [ch_semi] eq_refl) as (s3 & -> & Hs3). destruct (hd_in _ (tokens es s2)) eqn:Eh.
    + apply hd_in_one in Eh as [T Et]; [|done]. rewrite Et in Hs3. apply gettoken_sym in Hs3 as (q & eq & s4 & -> & Hs4 & _).
      destruct (parseline es fuel s4) as [[c3 s5]| |] eqn:El; [|done|done]. apply IHl in El as (l & Hl & Es4 & ->). intros [= <- <-].
      exists (LSeq p n l). split; [done|]. split; [|done]. cbn. rewrite Es, Es1, Et, <- Hs4, Es4. by rewrite <- !app_assoc.
    + intros [= <- <-]. exists (LEnd p n). split; [done|]. split; [|done]. cbn. by rewrite Es, Es1, Hs3, <- app_assoc.
  - cbn [parsepipe]. destruct (parseexec es fuel s) as [[c1 s1]| |] eqn:Ee; [|done|done]. apply IHe in Ee as (e & He & Es & ->). cbn [mbind result_bind].
    destruct (peek_spec es s1 [ch_pipe] eq_refl) as (s3 & -> & Hs3). destruct (hd_in _ (tokens es s1)) eqn:Eh.
    + apply hd_in_one in Eh as [T Et]; [|done]. rewrite Et in Hs3. apply gettoken_sym in Hs3 as (q & eq & s4 & -> & Hs4 & _).
      destruct (parsepipe es fuel s4) as [[c3 s5]| |] eqn:El; [|done|done]. apply IHp in El as (p & Hp & Es4 & ->). intros [= <- <-].
      exists (PSeq e p). split; [done|]. split; [|done]. cbn. rewrite Es, Et, <- Hs4, Es4. by rewrite <- !app_assoc.
    + intros [= <- <-]. exists (PEnd e). split; [done|]. split; [|done]. cbn. by rewrite Es, Hs3.
  - cbn [parseexec]. destruct (peek_spec es s [ch_open] eq_refl) as (s1 & -> & Hs1). destruct (hd_in _ (tokens es s)).
    + intros (e & He & Es & ->)%IHb. exists e. by rewrite <- Hs1.
    + destruct (parseredirs es fuel (Exec []) s1) as [[c1 s2]| |] eqn:Er; [|done|done]. apply parseredirs_sound in Er as (rs & Hrs & Es1 & ->).
      intros Ha. apply parseargs_sound in Ha as (args & Hargs & Hlen & Es2 & ->); [|unfold MAXARGS; lia]. exists (Simple rs args).
      split; [done|]. split; [|done]. cbn. by rewrite <- Hs1, Es1, Es2, <- app_assoc.
  - cbn [parseblock]. destruct (peek_spec es s [ch_open] eq_refl) as (s1 & -> & Hs1). destruct (hd_in _ (tokens es s)) eqn:Eh; [|done]. cbn [negb].
    apply hd_in_one in Eh as [T Et]; [|done]. rewrite Et in Hs1. apply gettoken_sym in Hs1 as (q & eq & s2 & -> & Hs2 & _).
    destruct (parseline es fuel s2) as [[c1 s3]| |] eqn:El; [|done|done]. apply IHl in El as (l & Hl & Es2 & ->). cbn [mbind result_bind].
    destruct (peek_spec es s3 [ch_close] eq_refl) as (s4 & -> & Hs4). destruct (hd_in _ (tokens es s3)) eqn:Eh; [|done]. cbn [negb].
    apply hd_in_one in Eh as [T' Et']; [|done]. rewrite Et' in Hs4. apply gettoken_sym in Hs4 as (q' & eq' & s5 & -> & Hs5 & _).
    intros (rs & Hrs & Es5 & ->)%parseredirs_sound. exists (Block l rs). split; [done|]. split; [|done].
    cbn. rewrite Et, <- Hs2, Es2, Et', <- Hs5, Es5. by rewrite <- app_assoc.
Qed.

End sound.

(** ** Every line of the grammar is accepted *)

Scheme line_mut := Induction for line Sort Prop
  with pipeline_mut := Induction for pipeline Sort Prop
  with simple_mut := Induction for simple Sort Prop.
Combined Scheme syntax_ind from line_mut, pipeline_mut, simple_mut.

(** What may follow a line, a pipeline, a command. *)
Definition follows (set : list Z) (T : list token) : Prop := T = [] \/ exists c T', T = TSym c :: T' /\ c ∈ set.

Definition after_line : list Z := [ch_close].
Definition after_pipe : list Z := [ch_semi; ch_amp; ch_close].
Definition after_simple : list Z := [ch_pipe; ch_semi; ch_amp; ch_close].

Lemma follows_weaken set set' T : (forall c, c ∈ set -> c ∈ set') -> follows set T -> follows set' T.
Proof. intros Hs [?|(c & T' & ? & ?)]; [by left|right; eauto]. Qed.

Lemma follows_not set T l : follows set T -> (forall c, c ∈ set -> among (if c =? tok_append then ch_gt else c) l = false) -> hd_in l T = false.
Proof. intros [-> |(c & T' & -> & Hc)] Hl; [done|]. by apply Hl. Qed.

Section complete.
Context (es : nat).

(** [follows_not] for the sets above. *)
Ltac not_in :=
  let k := fresh "k" in let Hk := fresh "Hk" in
  intros k Hk; rewrite ?elem_of_cons in Hk; repeat (destruct Hk as [-> |Hk]; [done|]); by apply not_elem_of_nil in Hk.

Lemma parseredirs_complete rs : forall fuel c s T,
  redirs_wf rs -> tokens es s = redirs_toks rs ++ T -> hd_in [ch_lt; ch_gt] T = false -> (length (redirs_toks rs) < fuel)%nat ->
  exists s', parseredirs es fuel c s = Ok (redirs_cmd c rs, s') /\ tokens es s' = T.
Proof.
  induction rs as [|r rs IH]; intros fuel c s T Hwf Es HT Hf; (destruct fuel as [|fuel]; [lia|]); cbn [parseredirs];
    destruct (peek_spec es s [ch_lt; ch_gt] eq_refl) as (s1 & -> & Hs1); rewrite Es in *.
  - cbn [redirs_toks fmap list_fmap mjoin list_join app] in *. rewrite HT. eauto.
  - rewrite redirs_toks_cons in *. cbn [app hd_in length] in *. apply Forall_cons in Hwf as [Hk Hwf].
    assert (among (if r_kind r =? tok_append then ch_gt else r_kind r) [ch_lt; ch_gt] = true) as ->.
    { rewrite mem_In in *. rewrite !elem_of_cons in *. destruct (Z.eqb_spec (r_kind r) tok_append); tauto. }
    apply gettoken_sym in Hs1 as (q & eq & s2 & -> & Hs2 & _). apply gettoken_word in Hs2 as (q' & eq' & s3 & -> & Ew & Hs3). cbn [negb Z.eqb tok_word Pos.eqb].
    rewrite Ew. destruct (IH fuel (redir_cmd c r) s3 T Hwf Hs3 HT ltac:(lia)) as (s' & Hrun & Hs'). exists s'. split; [|done].
    change (redirs_cmd c (r :: rs)) with (redirs_cmd (redir_cmd c r) rs). rewrite <- Hrun. f_equal. unfold redir_cmd. destruct (Z.eqb_spec (r_kind r) ch_lt); [done|]. destruct (Z.eqb_spec (r_kind r) ch_gt); [done|].
    apply mem_In in Hk. rewrite !elem_of_cons in Hk. destruct Hk as [?|[?|[-> |Hx]]]; [done|done|done|by apply not_elem_of_nil in Hx].
Qed.

Lemma args_hd args T : hd_in [ch_lt; ch_gt] T = false -> hd_in [ch_lt; ch_gt] (args_toks args ++ T) = false.
Proof. by destruct args. Qed.

Lemma parseargs_complete args : forall fuel argc c s T,
  Forall (fun a => redirs_wf a.2) args -> (argc + length args < MAXARGS)%nat -> tokens es s = args_toks args ++ T ->
  follows after_simple T -> (length (args_toks args) + 1 < fuel)%nat ->
  exists s', parseargs es fuel argc c s = Ok (args_cmd c args, s') /\ tokens es s' = T.
Proof.
  induction args as [|a args IH]; intros fuel argc c s T Hwf Hlen Es HT Hf; (destruct fuel as [|fuel]; [lia|]); cbn [parseargs];
    destruct (peek_spec es s [ch_pipe; ch_close; ch_amp; ch_semi] eq_refl) as (s1 & -> & Hs1); rewrite Es in *.
  - cbn [args_toks fmap list_fmap mjoin list_join app] in *. destruct HT as [-> |(k & T' & -> & Hk)].
    + cbn [hd_in]. apply gettoken_end in Hs1 as (q & eq & s2 & -> & Hs2). cbn [Z.eqb]. eauto.
    + assert (hd_in [ch_pipe; ch_close; ch_amp; ch_semi] (TSym k :: T') = true) as ->; [|eauto].
      unfold after_simple in Hk. rewrite !elem_of_cons in Hk. repeat (destruct Hk as [-> |Hk]; [done|]). by apply not_elem_of_nil in Hk.
  - rewrite args_toks_cons in *. cbn [app hd_in length] in *. apply Forall_cons in Hwf as [Ha Hwf].
    apply gettoken_word in Hs1 as (q & eq & s2 & -> & Ew & Hs2). rewrite Ew. change (tok_word =? 0) with false. cbn [negb Z.eqb tok_word Pos.eqb].
    rewrite (proj2 (Nat.leb_gt _ _)) by lia. rewrite <- app_assoc in Hs2. rewrite length_app in Hf.
    destruct (parseredirs_complete a.2 fuel (add_arg c a.1) s2 _ Ha Hs2) as (s3 & -> & Hs3); [|lia|].
    { apply args_hd. apply (follows_not after_simple); [done|]. unfold after_simple. not_in. }
    cbn [mbind result_bind]. destruct (IH fuel (S argc) (redirs_cmd (add_arg c a.1) a.2) s3 T) as (s' & Hrun & Hs'); [done|lia|done|done|lia|eauto].
Qed.

Lemma parseback_complete n : forall fuel c s T,
  tokens es s = replicate n (TSym ch_amp) ++ T -> hd_in [ch_amp] T = false -> (n < fuel)%nat ->
  exists s', parseback fuel c s = Ok (Nat.iter n Back c, s') /\ tokens es s' = T.
Proof.
  induction n as [|n IH]; intros fuel c s T Es HT Hf; (destruct fuel as [|fuel]; [lia|]); cbn [parseback];
    destruct (peek_spec es s [ch_amp] eq_refl) as (s1 & -> & Hs1); rewrite Es in *.
  - cbn [replicate app] in *. rewrite HT. eauto.
  - cbn [replicate app] in *. change (hd_in [ch_amp] _) with true. apply gettoken_sym in Hs1 as (q & eq & s2 & -> & Hs2 & _).
    destruct (IH fuel (Back c) s2 T Hs2 HT ltac:(lia)) as (s' & -> & Hs'). exists s'. split; [|done]. by rewrite Nat.iter_succ_r.
Qed.


(** The tokens of a command in front of [T] do not begin with [(], unless it
    is a block. *)
Lemma simple_hd rs args T : redirs_wf rs -> follows after_simple T -> hd_in [ch_open] (redirs_toks rs ++ args_toks args ++ T) = false.
Proof.
  intros Hrs HT. destruct Hrs as [|r rs Hr _].
  - destruct args; [|done]. apply (follows_not after_simple); [done|]. unfold after_simple. not_in.
  - rewrite redirs_toks_cons. cbn. rewrite mem_In, !elem_of_cons in Hr. destruct Hr as [-> |[-> |[-> |Hx]]]; [done|done|done|by apply not_elem_of_nil in Hx].
Qed.

Lemma follows_back bg T : follows after_pipe T -> follows after_pipe (replicate bg (TSym ch_amp) ++ T).
Proof. destruct bg as [|bg]; [done|]. intros _. right. exists ch_amp, (replicate bg (TSym ch_amp) ++ T). split; [done|]. apply mem_In. done. Qed.

Lemma follows_sym set c T : among c set = true -> follows set (TSym c :: T).
Proof. intros Hc. right. exists c, T. split; [done|]. by apply mem_In. Qed.

(** The part of [parseline] after its pipeline. *)
Lemma parse_complete_back fuel c s bg T :
  tokens es s = replicate bg (TSym ch_amp) ++ T -> hd_in [ch_amp] T = false -> (bg < fuel)%nat ->
  exists s1, parseback fuel c s = Ok (Nat.iter bg Back c, s1) /\
    exists s2, peek s1 [ch_semi] = (hd_in [ch_semi] T, s2) /\ tokens es s2 = T.
Proof.
  intros Es HT Hf. destruct (parseback_complete bg fuel c s T Es HT Hf) as (s1 & Hrun & Hs1). exists s1. split; [done|].
  destruct (peek_spec es s1 [ch_semi] eq_refl) as (s2 & Hp & Hs2). rewrite Hs1 in *. by exists s2.
Qed.

Lemma parse_complete :
  (forall l, line_wf l -> forall fuel s T, tokens es s = line_toks l ++ T -> follows after_line T -> (4 * length (line_toks l) + 5 <= fuel)%nat ->
     exists s', parseline es fuel s = Ok (line_cmd l, s') /\ tokens es s' = T) /\
  (forall p, pipe_wf p -> forall fuel s T, tokens es s = pipe_toks p ++ T -> follows after_pipe T -> (4 * length (pipe_toks p) + 4 <= fuel)%nat ->
     exists s', parsepipe es fuel s = Ok (pipe_cmd p, s') /\ tokens es s' = T) /\
  (forall e, simple_wf e -> forall fuel s T, tokens es s = simple_toks e ++ T -> follows after_simple T -> (4 * length (simple_toks e) + 3 <= fuel)%nat ->
     exists s', parseexec es fuel s = Ok (simple_cmd e, s') /\ tokens es s' = T).
Proof.
  apply syntax_ind.
  - intros p IHp bg Hwf fuel s T Es HT Hf. destruct fuel as [|fuel]; [lia|]. cbn [parseline line_toks line_cmd line_wf] in *.
    rewrite <- app_assoc in Es. rewrite length_app, length_replicate in Hf.
    assert (follows after_pipe T) as HT' by (eapply follows_weaken; [|exact HT]; unfold after_line, after_pipe; set_solver).
    destruct (IHp Hwf fuel s _ Es (follows_back bg T HT')) as (s1 & -> & Hs1); [lia|]. cbn [mbind result_bind].
    destruct (parse_complete_back fuel (pipe_cmd p) s1 bg T Hs1) as (s2 & -> & s3 & Hp & Hs3); [|lia|].
    { apply (follows_not after_line); [done|]. unfold after_line. not_in. }
    cbn [mbind result_bind]. rewrite Hp. assert (hd_in [ch_semi] T = false) as ->; [|eauto]. apply (follows_not after_line); [done|]. unfold after_line. not_in.
  - intros p IHp bg l IHl [Hwf Hwf'] fuel s T Es HT Hf. destruct fuel as [|fuel]; [lia|]. cbn [parseline line_toks line_cmd] in *.
    rewrite <- !app_assoc in Es. rewrite !length_app, length_replicate in Hf. cbn [length app] in *.
    destruct (IHp Hwf fuel s _ Es) as (s1 & -> & Hs1); [by apply follows_back, follows_sym|lia|]. cbn [mbind result_bind].
    destruct (parse_complete_back fuel (pipe_cmd p) s1 bg _ Hs1) as (s2 & -> & s3 & Hp & Hs3); [done|lia|].
    cbn [mbind result_bind]. rewrite Hp. change (hd_in [ch_semi] _) with true. apply gettoken_sym in Hs3 as (q & eq & s4 & -> & Hs4 & _).
    destruct (IHl Hwf' fuel s4 T Hs4 HT) as (s5 & -> & Hs5); [lia|]. cbn [mbind result_bind]. eauto.
  - intros e IHe Hwf fuel s T Es HT Hf. destruct fuel as [|fuel]; [lia|]. cbn [parsepipe pipe_toks pipe_cmd pipe_wf] in *.
    destruct (IHe Hwf fuel s T Es) as (s1 & -> & Hs1); [|lia|]. { eapply follows_weaken; [|exact HT]. unfold after_pipe, after_simple. set_solver. }
    cbn [mbind result_bind]. destruct (peek_spec es s1 [ch_pipe] eq_refl) as (s2 & -> & Hs2). rewrite Hs1 in *.
    assert (hd_in [ch_pipe] T = false) as ->; [|eauto]. apply (follows_not after_pipe); [done|]. unfold after_pipe. not_in.
  - intros e IHe p IHp [Hwf Hwf'] fuel s T Es HT Hf. destruct fuel as [|fuel]; [lia|]. cbn [parsepipe pipe_toks pipe_cmd] in *.
    rewrite <- app_assoc in Es. rewrite length_app in Hf. cbn [length app] in *.
    destruct (IHe Hwf fuel s _ Es) as (s1 & -> & Hs1); [by apply follows_sym|lia|]. cbn [mbind result_bind].
    destruct (peek_spec es s1 [ch_pipe] eq_refl) as (s2 & -> & Hs2). rewrite Hs1 in *. change (hd_in [ch_pipe] _) with true.
    apply gettoken_sym in Hs2 as (q & eq & s4 & -> & Hs4 & _). destruct (IHp Hwf' fuel s4 T Hs4 HT) as (s5 & -> & Hs5); [lia|]. cbn [mbind result_bind]. eauto.
  - intros l IHl rs [Hwf Hrs] fuel s T Es HT Hf. destruct fuel as [|fuel]; [lia|]. cbn [parseexec simple_toks simple_cmd] in *.
    cbn [app length] in *. rewrite <- app_assoc in Es. rewrite length_app in Hf. cbn [app length] in *.
    destruct (peek_spec es s [ch_open] eq_refl) as (s1 & -> & Hs1). rewrite Es in *. change (hd_in [ch_open] _) with true.
    destruct fuel as [|fuel]; [lia|]. cbn [parseblock]. destruct (peek_spec es s1 [ch_open] eq_refl) as (s2 & -> & Hs2). rewrite Hs1 in *.
    change (hd_in [ch_open] _) with true. cbn [negb]. apply gettoken_sym in Hs2 as (q & eq & s3 & -> & Hs3 & _).
    destruct (IHl Hwf fuel s3 _ Hs3) as (s4 & -> & Hs4); [by apply follows_sym|lia|]. cbn [mbind result_bind].
    destruct (peek_spec es s4 [ch_close] eq_refl) as (s5 & -> & Hs5). rewrite Hs4 in *. change (hd_in [ch_close] _) with true. cbn [negb].
    apply gettoken_sym in Hs5 as (q' & eq' & s6 & -> & Hs6 & _). apply parseredirs_complete; [done|done| |lia].
    apply (follows_not after_simple); [done|]. unfold after_simple. not_in.
  - intros rs args (Hrs & Hargs & Hlen) fuel s T Es HT Hf. destruct fuel as [|fuel]; [lia|]. cbn [parseexec simple_toks simple_cmd] in *.
    rewrite <- app_assoc in Es. rewrite length_app in Hf. destruct (peek_spec es s [ch_open] eq_refl) as (s1 & -> & Hs1). rewrite Es in *. rewrite simple_hd by done.
    destruct (parseredirs_complete rs fuel (Exec []) s1 _ Hrs Hs1) as (s2 & -> & Hs2); [|lia|].
    { apply args_hd. apply (follows_not after_simple); [done|]. unfold after_simple. not_in. }
    cbn [mbind result_bind]. apply parseargs_complete; [done|simpl; lia|done|done|lia].
Qed.

End complete.

(** ** The parser ends *)

Section total.
Context (es : nat).

Lemma parseredirs_total fuel : forall c s, (length (tokens es s) < fuel)%nat -> parseredirs es fuel c s <> NoFuel.
Proof.
  induction fuel as [|fuel IH]; intros c s Hf; [lia|]. cbn [parseredirs].
  destruct (peek_spec es s [ch_lt; ch_gt] eq_refl) as (s1 & -> & Hs1). destruct (hd_in _ (tokens es s)) eqn:Eh; [|done].
  apply hd_in_sym in Eh as (k & T & Et & _). rewrite Et in *. apply gettoken_sym in Hs1 as (q & eq & s2 & -> & Hs2 & _).
  pose proof (tokens_step es s2) as Hst. destruct (gettoken s2) as [[[tok' q'] eq'] s3]. destruct (Z.eqb_spec tok' tok_word) as [-> |]; [|done].
  cbn [negb]. apply IH. change (tok_word =? 0) with false in Hst. cbn [length] in Hf. rewrite <- Hs2, Hst in Hf. cbn [length] in Hf. lia.
Qed.

Lemma parseargs_total fuel : forall argc c s, (length (tokens es s) < fuel)%nat -> (argc < MAXARGS)%nat -> parseargs es fuel argc c s <> NoFuel.
Proof.
  induction fuel as [|fuel IH]; intros argc c s Hf Ha; [lia|]. cbn [parseargs].
  destruct (peek_spec es s [ch_pipe; ch_close; ch_amp; ch_semi] eq_refl) as (s1 & -> & Hs1). destruct (hd_in _ _); [done|].
  pose proof (tokens_step es s1) as Hst. destruct (gettoken s1) as [[[tok q] eq] s2]. destruct (Z.eqb_spec tok 0); [done|].
  destruct (Z.eqb_spec tok tok_word) as [-> |]; [|done]. cbn [negb]. destruct (Nat.leb_spec MAXARGS (S argc)); [done|].
  rewrite <- Hs1, Hst in Hf. cbn [length] in Hf. pose proof (parseredirs_total fuel (add_arg c (span_of es q eq)) s2 ltac:(lia)) as Hr.
  destruct (parseredirs es fuel (add_arg c (span_of es q eq)) s2) as [[c2 s3]| |] eqn:Er; [|done|done].
  apply parseredirs_sound in Er as (rs & _ & Es & _). rewrite Es, length_app in Hf. apply IH; (done || lia).
Qed.

Lemma parseback_total fuel : forall c s, (length (tokens es s) < fuel)%nat -> parseback fuel c s <> NoFuel.
Proof.
  induction fuel as [|fuel IH]; intros c s Hf; [lia|]. cbn [parseback].
  destruct (peek_spec es s [ch_amp] eq_refl) as (s1 & -> & Hs1). destruct (hd_in _ (tokens es s)) eqn:Eh; [|done].
  apply hd_in_one in Eh as [T Et]; [|done]. rewrite Et in *. apply gettoken_sym in Hs1 as (q & eq & s2 & -> & Hs2 & _). apply IH. rewrite Hs2. simpl in Hf. lia.
Qed.

Lemma parse_total fuel :
  (forall s, (4 * length (tokens es s) + 5 <= fuel)%nat -> parseline es fuel s <> NoFuel) /\
  (forall s, (4 * length (tokens es s) + 4 <= fuel)%nat -> parsepipe es fuel s <> NoFuel) /\
  (forall s, (4 * length (tokens es s) + 3 <= fuel)%nat -> parseexec es fuel s <> NoFuel) /\
  (forall s, (4 * length (tokens es s) + 2 <= fuel)%nat -> parseblock es fuel s <> NoFuel).
Proof.
  induction fuel as [|fuel (IHl & IHp & IHe & IHb)]; [split_and!; intros; lia|]. split_and!; intros s Hf.
  - cbn [parseline]. pose proof (IHp s ltac:(lia)) as Hp. destruct (parsepipe es fuel s) as [[c1 s1]| |] eqn:Ep; [|done|done].
    apply parse_sound in Ep as (p & _ & Es & _). rewrite Es, length_app in Hf. cbn [mbind result_bind].
    pose proof (parseback_total fuel c1 s1 ltac:(lia)) as Hb. destruct (parseback fuel c1 s1) as [[c2 s2]| |] eqn:Eb; [|done|done].
    apply (parseback_sound es) in Eb as (n & Es1 & _). rewrite Es1, length_app in Hf. cbn [mbind result_bind].
    destruct (peek_spec es s2 [ch_semi] eq_refl) as (s3 & -> & Hs3). destruct (hd_in _ (tokens es s2)) eqn:Eh; [|done].
    apply hd_in_one in Eh as [T Et]; [|done]. rewrite Et in *. apply gettoken_sym in Hs3 as (q & eq & s4 & -> & Hs4 & _). simpl in Hf.
    pose proof (IHl s4 ltac:(rewrite Hs4; lia)) as Hl. by destruct (parseline es fuel s4) as [[c3 s5]| |].
  - cbn [parsepipe]. pose proof (IHe s ltac:(lia)) as He. destruct (parseexec es fuel s) as [[c1 s1]| |] eqn:Ee; [|done|done].
    apply parse_sound in Ee as (e & _ & Es & _). rewrite Es, length_app in Hf. cbn [mbind result_bind].
    destruct (peek_spec es s1 [ch_pipe] eq_refl) as (s3 & -> & Hs3). destruct (hd_in _ (tokens es s1)) eqn:Eh; [|done].
    apply hd_in_one in Eh as [T Et]; [|done]. rewrite Et in *. apply gettoken_sym in Hs3 as (q & eq & s4 & -> & Hs4 & _). simpl in Hf.
    pose proof (IHp s4 ltac:(rewrite Hs4; lia)) as Hl. by destruct (parsepipe es fuel s4) as [[c3 s5]| |].
  - cbn [parseexec]. destruct (peek_spec es s [ch_open] eq_refl) as (s1 & -> & Hs1). destruct (hd_in _ _); [apply IHb; rewrite Hs1; lia|].
    pose proof (parseredirs_total fuel (Exec []) s1 ltac:(rewrite Hs1; lia)) as Hr.
    destruct (parseredirs es fuel (Exec []) s1) as [[c1 s2]| |] eqn:Er; [|done|done]. apply parseredirs_sound in Er as (rs & _ & Es & _).
    rewrite <- Hs1, Es, length_app in Hf. apply parseargs_total; [lia|unfold MAXARGS; lia].
  - cbn [parseblock]. destruct (peek_spec es s [ch_open] eq_refl) as (s1 & -> & Hs1). destruct (hd_in _ (tokens es s)) eqn:Eh; [|done]. cbn [negb].
    apply hd_in_one in Eh as [T Et]; [|done]. rewrite Et in *. apply gettoken_sym in Hs1 as (q & eq & s2 & -> & Hs2 & _). simpl in Hf.
    pose proof (IHl s2 ltac:(rewrite Hs2; lia)) as Hl. destruct (parseline es fuel s2) as [[c1 s3]| |] eqn:El; [|done|done].
    apply parse_sound in El as (l & _ & Es2 & _). rewrite <- Hs2, Es2, length_app in Hf. cbn [mbind result_bind].
    destruct (peek_spec es s3 [ch_close] eq_refl) as (s4 & -> & Hs4). destruct (hd_in _ (tokens es s3)) eqn:Eh; [|done]. cbn [negb].
    apply hd_in_one in Eh as [T' Et']; [|done]. rewrite Et' in *. apply gettoken_sym in Hs4 as (q' & eq' & s5 & -> & Hs5 & _). simpl in Hf.
    apply parseredirs_total. rewrite Hs5. lia.
Qed.

End total.

Lemma toks_length es fuel s : (length s < fuel)%nat -> (length (toks es fuel s) <= length s)%nat.
Proof.
  revert s. induction fuel as [|fuel IH]; intros s Hf; [lia|]. cbn [toks]. destruct (gettoken s) as [[[ret q] eq] s'] eqn:E. destruct (Z.eqb_spec ret 0); [simpl; lia|].
  pose proof (gettoken_progress _ _ _ _ _ E ltac:(done)). cbn [length]. specialize (IH s'). lia.
Qed.

Lemma parsecmd_total line fuel : (4 * length line + 5 <= fuel)%nat -> parsecmd fuel line <> NoFuel.
Proof.
  intros Hf. pose proof (toks_length (length line) (S (length line)) line ltac:(lia)) as HT.
  unfold parsecmd. pose proof (proj1 (parse_total (length line) fuel) line) as Htot.
  destruct (parseline (length line) fuel line) as [[c s]|msg|]; [|done|].
  - cbn [mbind result_bind]. by destruct (peek s []) as [b [|x s']].
  - intros _. apply Htot; [|done]. unfold tokens. lia.
Qed.

(** C34: The shell's parser decides its grammar. On every command line it
    ends; it returns the command of a syntax tree whose tokens are those of
    the line when there is one, and otherwise ends the process with a
    message. (The grammar has lists with [;], background commands with [&],
    pipelines, blocks in parentheses, the three redirections, and commands of
    up to nine words.) *)
Theorem parsecmd_decides_grammar line fuel :
  (4 * length line + 5 <= fuel)%nat ->
  let T := tokens (length line) line in
  (exists l, line_wf l /\ T = line_toks l /\ parsecmd fuel line = Ok (line_cmd l, nulterminate (line_cmd l) (line ++ [0]))) \/
  (~ (exists l, line_wf l /\ T = line_toks l) /\ exists msg, parsecmd fuel line = Panic msg).
Proof.
  intros Hf T. set (es := length line) in *. assert (length T <= es)%nat as HT by (apply toks_length; lia).
  unfold parsecmd. fold es. pose proof (proj1 (parse_total es fuel) line ltac:(fold T; lia)) as Htot.
  assert (forall l, line_wf l -> T = line_toks l -> exists s', parseline es fuel line = Ok (line_cmd l, s') /\ tokens es s' = []) as Hcomp.
  { intros l Hl El. apply (proj1 (parse_complete es) l Hl fuel line []); [rewrite app_nil_r; exact El|by left|]. rewrite <- El. lia. }
  destruct (parseline es fuel line) as [[c s]|msg|] eqn:Ep; [|right|done].
  - apply parse_sound in Ep as (l & Hl & Es & ->). fold T in Es. cbn [mbind result_bind].
    unfold peek. destruct (skip_ws s) as [|x s'] eqn:Ews.
    + left. exists l. split; [done|]. split; [|done]. rewrite Es, <- tokens_skip_ws, Ews. apply app_nil_r.
    + right. split; [|by eexists]. intros (l' & Hl' & El'). destruct (Hcomp l' Hl' El') as (s2 & [= _ <-] & Hs2).
      rewrite <- tokens_skip_ws, Ews, tokens_step in Hs2. pose proof (gettoken_cases (x :: s')) as Hc. destruct (gettoken (x :: s')) as [[[ret q] eq] s2].
      destruct Hc as (Hq & _ & Hc). assert (among x whitespace = false) as Hx by (by eapply skip_ws_head).
      cbn [skip_ws] in Hq. rewrite Hx in Hq. destruct Hc as [(-> & -> & _)|[(k & s3 & -> & Hk & Hr)|(k & s3 & _ & _ & _ & -> & _)]]; [done| |done].
      destruct (symbols_codes k Hk) as (? & ? & ?). destruct Hr as [[-> _]|(-> & _)]; [|done].
      by rewrite (proj2 (Z.eqb_neq k 0)) in Hs2.
  - split; [|by eexists]. intros (l & Hl & El). destruct (Hcomp l Hl El) as (s' & [=] & _).
Qed.

(** [ls; (cat < a | wc) & ]: a list, a block, a redirection and a pipeline. *)
Definition demo_line : list Z := [108; 115; 59; 40; 99; 97; 116; 60; 97; 124; 119; 99; 41; 38].

Lemma parsecmd_decides_grammar_witness :
  exists c buf, parsecmd 100 demo_line = Ok (c, buf) /\
    c = Lst (Exec [(0, 2)%nat]) (Back (Pipe (Redir (Exec [(4, 7)%nat]) (8, 9)%nat 0 0) (Exec [(10, 12)%nat]))).
Proof.
  assert (match parsecmd 100 demo_line with Ok (c, _) => c | _ => Exec [] end =
    Lst (Exec [(0, 2)%nat]) (Back (Pipe (Redir (Exec [(4, 7)%nat]) (8, 9)%nat 0 0) (Exec [(10, 12)%nat])))) as Hc by (vm_compute; reflexivity).
  destruct (parsecmd_decides_grammar demo_line 100) as [(l & _ & _ & E)|[_ [msg E]]].
  - simpl. lia.
  - exists (line_cmd l), (nulterminate (line_cmd l) (demo_line ++ [0])). split; [exact E|]. by rewrite E in Hc.
  - rewrite E in Hc. discriminate Hc.
Defined.

(** ** The words of a command *)

Fixpoint words (c : cmd) : list span :=
  match c with
  | Exec argv => argv
  | Redir c file _ _ => words c ++ [file]
  | Pipe l r => words l ++ words r
  | Lst l r => words l ++ words r
  | Back c => words c
  end.

Definition wordchar (c : Z) : bool := negb (among c whitespace) && negb (among c symbols).

(** The bytes from [q] to [eq] are a word of the line. *)
Definition word_at (line : list Z) (w : span) : Prop :=
  (w.1 < w.2 <= length line)%nat /\
  (forall i, (w.1 <= i < w.2)%nat -> exists c, line !! i = Some c /\ wordchar c = true) /\
  (forall c, line !! w.2 = Some c -> wordchar c = false).

Lemma skip_word_spec s :
  exists w, s = w ++ skip_word s /\ Forall (fun c => wordchar c = true) w /\ (forall c s', skip_word s = c :: s' -> wordchar c = false).
Proof.
  induction s as [|c s (w & E & Hw & Hn)]; [by exists []|]. cbn [skip_word]. fold (wordchar c). destruct (wordchar c) eqn:Ec.
  - exists (c :: w). split; [cbn; by rewrite <- E|]. split; [by constructor|done].
  - exists []. split; [done|]. split; [done|]. by intros c' s' [= <- _].
Qed.

Lemma skip_ws_suffix s : skip_ws s `suffix_of` s.
Proof. induction s as [|c s IH]; [done|]. cbn [skip_ws]. destruct (among c whitespace); [by apply suffix_cons_r|done]. Qed.

Lemma tokens_words line fuel s w : s `suffix_of` line -> TWord w ∈ toks (length line) fuel s -> word_at line w.
Proof.
  revert s. induction fuel as [|fuel IH]; intros s Hs Hw; [by apply not_elem_of_nil in Hw|]. cbn [toks] in Hw.
  pose proof (gettoken_cases s) as Hc. destruct (gettoken s) as [[[ret q] eq] s']. destruct Hc as (Eq & -> & Hc).
  destruct (Z.eqb_spec ret 0); [by apply not_elem_of_nil in Hw|].
  assert (q `suffix_of` line) as Hq by (rewrite Eq; etrans; [apply skip_ws_suffix|done]).
  assert (eq `suffix_of` q) as Heq.
  { destruct Hc as [(_ & -> & ->)|[(c & s1 & -> & _ & [[_ ->]|(_ & _ & s2 & -> & ->)])|(c & s1 & -> & _ & _ & _ & ->)]];
      [done|by apply suffix_cons_r|by do 2 apply suffix_cons_r|]. destruct (skip_word_spec (c :: s1)) as (w' & E & _). by exists w'. }
  apply elem_of_cons in Hw as [Hw|Hw].
  2: { apply (IH (skip_ws eq)); [|done]. etrans; [apply skip_ws_suffix|]. by etrans. }
  destruct (Z.eqb_spec ret tok_word) as [-> |]; [|done]. injection Hw as ->.
  destruct Hc as [(? & _)|[(c & s1 & _ & Hk & Hr)|(c & s1 & -> & Hc1 & Hc2 & _ & ->)]]; [done| |].
  { destruct (symbols_codes c Hk) as (_ & ? & _). destruct Hr as [[? _]|(? & _)]; [congruence|done]. }
  destruct Hq as [pre ->]. destruct (skip_word_spec (c :: s1)) as (w & E & Hw & Hn). unfold span_of.
  assert (0 < length w)%nat as Hw0.
  { destruct w; [|simpl; lia]. exfalso. cbn [skip_word] in E. rewrite Hc1, Hc2 in E. cbn [negb andb app] in E.
    apply (f_equal length) in E. simpl in E. pose proof (skip_word_length s1). lia. }
  set (eq := skip_word (c :: s1)) in *. rewrite E, !length_app. unfold word_at. cbn [fst snd].
  replace (length pre + (length w + length eq) - (length w + length eq))%nat with (length pre) by lia.
  replace (length pre + (length w + length eq) - length eq)%nat with (length pre + length w)%nat by lia.
  split; [rewrite !length_app; lia|]. split.
  - intros i Hi. rewrite lookup_app_r, lookup_app_l by lia. destruct (lookup_lt_is_Some_2 w (i - length pre)) as [x Hx]; [lia|].
    exists x. split; [done|]. by apply (Forall_lookup_1 _ _ _ _ Hw Hx).
  - intros x. rewrite !lookup_app_r by lia. replace (length pre + length w - length pre - length w)%nat with O by lia.
    destruct eq as [|y eq]; [done|]. intros [= ->]. by eapply Hn.
Qed.

(** The words of the command are tokens. *)
Lemma words_add_arg c a w : w ∈ words (add_arg c a) -> w ∈ words c \/ w = a.
Proof. induction c; cbn; rewrite ?elem_of_app, ?list_elem_of_singleton; tauto. Qed.

Lemma words_redirs rs : forall c w, w ∈ words (redirs_cmd c rs) -> w ∈ words c \/ TWord w ∈ redirs_toks rs.
Proof.
  induction rs as [|r rs IH]; intros c w; [by left|]. intros [Hw|Hw]%(IH (redir_cmd c r)); rewrite redirs_toks_cons, !elem_of_cons; [|tauto].
  unfold redir_cmd in Hw. destruct (_ =? _); [|destruct (_ =? _)]; cbn in Hw; rewrite elem_of_app, list_elem_of_singleton in Hw; destruct Hw as [?| ->]; tauto.
Qed.

Lemma words_args args : forall c w, w ∈ words (args_cmd c args) -> w ∈ words c \/ TWord w ∈ args_toks args.
Proof.
  induction args as [|a args IH]; intros c w; [by left|]. intros [Hw|Hw]%(IH (redirs_cmd (add_arg c a.1) a.2)); rewrite args_toks_cons, elem_of_cons, elem_of_app; [|tauto].
  apply words_redirs in Hw as [[?| ->]%words_add_arg|?]; tauto.
Qed.

Lemma words_iter n c : words (Nat.iter n Back c) = words c.
Proof. by induction n. Qed.

Lemma words_tokens :
  (forall l w, w ∈ words (line_cmd l) -> TWord w ∈ line_toks l) /\
  (forall p w, w ∈ words (pipe_cmd p) -> TWord w ∈ pipe_toks p) /\
  (forall e w, w ∈ words (simple_cmd e) -> TWord w ∈ simple_toks e).
Proof.
  apply syntax_ind; cbn.
  - intros p IH bg w. rewrite words_iter, elem_of_app. auto.
  - intros p IHp bg l IHl w. rewrite words_iter, !elem_of_app, elem_of_cons. intros [?|?]; auto.
  - auto.
  - intros e IHe p IHp w. rewrite !elem_of_app, elem_of_cons. intros [?|?]; auto.
  - intros l IHl rs w Hw. rewrite elem_of_cons, elem_of_app, elem_of_cons. apply words_redirs in Hw as [?|?]; auto.
  - intros rs args w Hw. rewrite elem_of_app. apply words_args in Hw as [[Hx|?]%words_redirs|?]; auto. by apply not_elem_of_nil in Hx.
Qed.

(** ** Ending the words with NUL *)

Lemma argv_ends (argv : list span) : forall (buf : list Z) i,
  foldl (fun buf (a : span) => <[snd a := 0]> buf) buf argv !! i = if decide (i ∈ argv.*2 /\ (i < length buf)%nat) then Some 0 else buf !! i.
Proof.
  induction argv as [|a argv IH]; intros buf i; cbn [foldl fmap list_fmap].
  - rewrite decide_False; [done|]. intros [Hi _]. by apply not_elem_of_nil in Hi.
  - rewrite IH, length_insert. destruct (decide (i ∈ argv.*2 /\ (i < length buf)%nat)) as [[? ?]|Hn].
    + rewrite decide_True; [done|]. split; [by apply list_elem_of_further|done].
    + destruct (decide (i = a.2)) as [-> |Hne].
      * destruct (decide (a.2 < length buf)%nat); [rewrite list_lookup_insert_eq by done; rewrite decide_True; [done|]; split; [apply list_elem_of_here|done]|].
        rewrite list_insert_ge by lia. by rewrite decide_False by tauto.
      * rewrite list_lookup_insert_ne by done. rewrite decide_False; [done|]. rewrite elem_of_cons. tauto.
Qed.

Lemma nulterminate_length c buf : length (nulterminate c buf) = length buf.
Proof.
  revert buf. induction c as [argv|c IH f m fd|l IHl r IHr|l IHl r IHr|c IH]; intros buf; cbn [nulterminate]; rewrite ?length_insert; rewrite ?IHr, ?IHl, ?IH; try done.
  revert buf. induction argv as [|a argv IH]; intros buf; cbn [foldl]; [done|]. by rewrite IH, length_insert.
Qed.

Lemma nulterminate_lookup c buf i :
  nulterminate c buf !! i = if decide (i ∈ (words c).*2 /\ (i < length buf)%nat) then Some 0 else buf !! i.
Proof.
  revert buf. induction c as [argv|c IH f m fd|l IHl r IHr|l IHl r IHr|c IH]; intros buf; cbn [nulterminate words].
  - apply argv_ends.
  - rewrite fmap_app. cbn [fmap list_fmap]. destruct (decide (i = f.2)) as [-> |Hne].
    + destruct (decide (f.2 < length buf)%nat) as [Hlt|Hge].
      * rewrite list_lookup_insert_eq by (by rewrite nulterminate_length). rewrite decide_True; [done|]. split; [|done]. apply elem_of_app. right. apply list_elem_of_here.
      * rewrite list_insert_ge by (rewrite nulterminate_length; lia). rewrite IH, !decide_False by tauto. done.
    + rewrite list_lookup_insert_ne, IH by done. apply decide_ext. rewrite elem_of_app, list_elem_of_singleton. tauto.
  - rewrite IHr, IHl, nulterminate_length, fmap_app. repeat case_decide; try done; rewrite elem_of_app in *; tauto.
  - rewrite IHr, IHl, nulterminate_length, fmap_app. repeat case_decide; try done; rewrite elem_of_app in *; tauto.
  - apply IH.
Qed.

Lemma cstr_take n l : (forall i c, (i < n)%nat -> l !! i = Some c -> c <> 0) -> l !! n = Some 0 -> cstr_of l = take n l.
Proof.
  revert l. induction n as [|n IH]; intros l Hne Hn; destruct l as [|c l]; try done.
  - injection Hn as ->. done.
  - cbn. rewrite (proj2 (Z.eqb_neq c 0)) by (by apply (Hne O c); [lia|]). f_equal. apply IH; [|done]. intros i x Hi Hx. apply (Hne (S i) x); [lia|done].
Qed.

(** The words of a parsed command are C strings. After [parsecmd] every
    argument and every file name of the command begins in the buffer a string
    that is the word of the line, to its end: the NULs that [nulterminate]
    writes are after the words and never inside another one. *)
Theorem parsecmd_words_terminated line fuel c buf w :
  Forall (fun x => x <> 0) line -> parsecmd fuel line = Ok (c, buf) -> w ∈ words c ->
  word_at line w /\ cstr_of (drop w.1 buf) = take (w.2 - w.1) (drop w.1 line).
Proof.
  intros Hline Hrun Hw. unfold parsecmd in Hrun. destruct (parseline (length line) fuel line) as [[c' s]| |] eqn:Ep; [|done|done].
  cbn [mbind result_bind] in Hrun. destruct (peek s []) as [b s2]. destruct s2; [|done]. injection Hrun as -> <-.
  apply parse_sound in Ep as (l & _ & Es & ->).
  assert (forall w, w ∈ words (line_cmd l) -> word_at line w) as Hall.
  { intros w' Hw'%words_tokens. apply (tokens_words line (S (length line)) line); [done|]. fold (tokens (length line) line). rewrite Es. apply elem_of_app. by left. }
  pose proof (Hall w Hw) as Hwa. split; [done|]. destruct Hwa as (Hr & Hin & _). set (n := (w.2 - w.1)%nat).
  assert (forall i, (i < n)%nat -> nulterminate (line_cmd l) (line ++ [0]) !! (w.1 + i)%nat = line !! (w.1 + i)%nat) as Hkeep.
  { intros i Hi. rewrite nulterminate_lookup, decide_False; [rewrite lookup_app_l by (unfold n in *; lia); done|].
    intros [(w' & E & Hw')%list_elem_of_fmap _]. destruct (Hall w' Hw') as (_ & _ & Hend). destruct (Hin (w.1 + i)%nat) as (x & Hx & Hxw); [unfold n in *; lia|].
    rewrite E in Hx. rewrite (Hend x Hx) in Hxw. done. }
  rewrite (cstr_take n).
  - apply list_eq. intros i. destruct (decide (i < n)%nat); [|by rewrite !lookup_take_ge by lia].
    rewrite !lookup_take_lt, !lookup_drop by done. by apply Hkeep.
  - intros i x Hi Hx. rewrite lookup_drop, Hkeep in Hx by done. by apply (Forall_lookup_1 _ _ _ _ Hline Hx).
  - rewrite lookup_drop, nulterminate_lookup, decide_True; [done|]. replace (w.1 + n)%nat with w.2 by (unfold n; lia).
    split; [by apply (list_elem_of_fmap_2 snd)|]. rewrite length_app. simpl. lia.
Qed.

Lemma parsecmd_words_terminated_witness :
  exists c buf, parsecmd 100 demo_line = Ok (c, buf) /\ cstr_of (drop 4 buf) = [99; 97; 116].
Proof.
  assert (match parsecmd 100 demo_line with Ok (c, _) => c | _ => Exec [] end =
    Lst (Exec [(0, 2)%nat]) (Back (Pipe (Redir (Exec [(4, 7)%nat]) (8, 9)%nat 0 0) (Exec [(10, 12)%nat])))) as Hc by (vm_compute; reflexivity).
  destruct (parsecmd 100 demo_line) as [[c buf]| |] eqn:E; [|discriminate Hc|discriminate Hc]. subst c.
  eexists _, buf. split; [reflexivity|].
  refine (proj2 (parsecmd_words_terminated demo_line 100 _ buf (4, 7)%nat _ E _)).
  - by repeat constructor.
  - apply (bool_decide_unpack _). vm_compute. done.
Defined.
