(* ===== verification/ShRun.v ===== *)
(** * The shell connects its programs

    The system calls of a shell process, run on a table of file descriptors
    in which [open], [dup] and [pipe] take the lowest free descriptors as
    [fdalloc] does, and the programs that end up running with the descriptors
    each of them has. *)

From S2P Require Import Prelude Riscv Monad State Kstring Ulib Uprintf Sh ShProps.
#[local] Open Scope Z_scope.

(** Pipes have names of their own. *)
Inductive desc := Tty | FileD (path : list Z) (mode : Z) | PipeR (id : list nat) | PipeW (id : list nat).

Notation table := (list (option desc)).

(** What the processes of the shell do in the end: become a program with a
    table of descriptors, change the directory, or exit; [pi] names the
    process. [Stuck] is a process that has come to the end of a bound on
    iterations, in the model only. *)
Inductive event :=
  | Run (argv : list (list Z)) (t : table)
  | Cd (dir : list Z)
  | Exited (pi : list nat) (status : Z)
  | Stuck.

(** What [exec], [open] and [chdir] find: the programs, the files that can be
    opened with a mode, and the directories. *)
Record world := { w_exec : list Z -> bool; w_open : list Z -> Z -> bool; w_chdir : list Z -> bool }.

(** The lowest free descriptor. *)
Fixpoint lowest (t : table) : option nat :=
  match t with
  | [] => None
  | None :: _ => Some O
  | Some _ :: t' => S <$> lowest t'
  end.

Definition fd_set (fd : Z) (d : option desc) (t : table) : table := <[Z.to_nat fd := d]> t.

Section run.
Context (W : world).

(** What a process and its children do, each with its descriptors. [exec],
    [open] and [chdir] succeed as the world [W] says, and [open], [dup] and
    [pipe] when descriptors are free; [fork], [wait] and [close] succeed. [pi]
    and [n] name the processes and the pipes they make. The input [inp] is
    for the process itself: its children read none of it. *)
Fixpoint programs (p : prog) (t : table) (pi : list nat) (n : nat) (inp : input) : list event :=
  match p with
  | PExit status => [Exited pi status]
  | PExec path argv failed => if w_exec W path then [Run argv t] else programs failed t pi n inp
  | PPrint _ _ k => programs k t pi n inp
  | PRead1 k => let '(r, inp) := read1 inp in programs (k r) t pi n inp
  | POpen path mode k =>
      match lowest t, w_open W path mode with
      | Some i, true => programs (k (Z.of_nat i)) (<[i := Some (FileD path mode)]> t) pi n inp
      | _, _ => programs (k (-1)) t pi n inp
      end
  | PClose fd k => programs k (fd_set fd None t) pi n inp
  | PDup fd k =>
      match lowest t with
      | Some i => programs k (<[i := mjoin (t !! Z.to_nat fd)]> t) pi n inp
      | None => programs k t pi n inp
      end
  | PPipe k =>
      let id := n :: pi in
      match lowest t with
      | None => programs (k None) t pi (S n) inp
      | Some i =>
          let t1 := <[i := Some (PipeR id)]> t in
          match lowest t1 with
          | None => programs (k None) t pi (S n) inp
          | Some j => programs (k (Some (Z.of_nat i, Z.of_nat j))) (<[j := Some (PipeW id)]> t1) pi (S n) inp
          end
      end
  | PChdir dir k => if w_chdir W dir then Cd dir :: programs (k 0) t pi n inp else programs (k (-1)) t pi n inp
  | PFork child parent => programs child t (n :: pi) 0 [] ++ programs (parent 1) t pi (S n) inp
  | PWait k => programs k t pi n inp
  | PStuck => [Stuck]
  end.

(** What a command means: the programs it runs, with their descriptors, and
    the status of the processes that exit: 1 for an empty command and a file
    that cannot be opened, 0 for a program that is not found and for the
    process that has started a pipeline or a background command. *)
Fixpoint meaning (buf : list Z) (c : cmd) (t : table) (pi : list nat) (n : nat) : list event :=
  let arg (a : span) := cstr_of (drop (fst a) buf) in
  match c with
  | Exec [] => [Exited pi 1]
  | Exec (a :: argv) => if w_exec W (arg a) then [Run (arg <$> (a :: argv)) t] else [Exited pi 0]
  | Redir c file mode fd =>
      if w_open W (arg file) mode then meaning buf c (<[Z.to_nat fd := Some (FileD (arg file) mode)]> t) pi n
      else [Exited pi 1]
  | Pipe l r =>
      meaning buf l (<[1%nat := Some (PipeW (n :: pi))]> t) (S n :: pi) 0 ++
      meaning buf r (<[0%nat := Some (PipeR (n :: pi))]> t) (S (S n) :: pi) 0 ++ [Exited pi 0]
  | Lst l r => meaning buf l t (n :: pi) 0 ++ meaning buf r t pi (S n)
  | Back c => meaning buf c t (n :: pi) 0 ++ [Exited pi 0]
  end.

(** The redirections the parser makes are of the standard input and output. *)
Fixpoint std_redirs (c : cmd) : Prop :=
  match c with
  | Exec _ => True
  | Redir c _ _ fd => (fd = 0 \/ fd = 1) /\ std_redirs c
  | Pipe l r | Lst l r => std_redirs l /\ std_redirs r
  | Back c => std_redirs c
  end.

(** Descriptors 0, 1 and 2 are open, and two of the others are free. *)
Record std_table (t : table) : Prop := {
  sd_0 : exists d, t !! 0%nat = Some (Some d);
  sd_1 : exists d, t !! 1%nat = Some (Some d);
  sd_2 : exists d, t !! 2%nat = Some (Some d);
  sd_free : exists i j, (i < j)%nat /\ t !! i = Some None /\ t !! j = Some None
}.

(** ** The lowest free descriptor *)

Lemma lowest_spec t i : lowest t = Some i <-> t !! i = Some None /\ forall j, (j < i)%nat -> exists d, t !! j = Some (Some d).
Proof.
  revert i. induction t as [|[d|] t IH]; intros i; cbn [lowest]; [split; [done|]; intros [[=] _]| |].
  - split.
    + destruct (lowest t) as [k|] eqn:E; [|done]. intros [= <-]. destruct (proj1 (IH k) eq_refl) as [Hk Hlt]. split; [done|].
      intros [|j] Hj; [by exists d|]. apply Hlt. lia.
    + intros [Hi Hlt]. destruct i as [|i]; [done|]. rewrite (proj2 (IH i)); [done|]. split; [done|]. intros j Hj. apply (Hlt (S j)). lia.
  - split.
    + intros [= <-]. split; [done|]. lia.
    + intros [Hi Hlt]. destruct i as [|i]; [done|]. destruct (Hlt O ltac:(lia)) as [d [=]].
Qed.

Lemma lowest_exists t i : t !! i = Some None -> exists k, lowest t = Some k /\ (k <= i)%nat.
Proof.
  revert i. induction t as [|[d|] t IH]; intros i Hi; [done| |exists O; split; [done|lia]]. destruct i as [|i]; [done|].
  destruct (IH i Hi) as (k & E & Hk). exists (S k). cbn. rewrite E. split; [done|lia].
Qed.

(** Closing 0 or 1 makes it the lowest. *)
Lemma lowest_closed t fd : std_table t -> (fd < 3)%nat -> lowest (<[fd := None]> t) = Some fd.
Proof.
  intros [[d0 H0] [d1 H1] [d2 H2] _] Hfd. apply lowest_spec. assert (fd < length t)%nat by (apply lookup_lt_Some in H2; lia).
  split; [by apply list_lookup_insert_eq|]. intros j Hj. rewrite list_lookup_insert_ne by lia.
  destruct fd as [|[|[|fd]]]; [lia| | |lia]; destruct j as [|[|j]]; (lia || eauto).
Qed.

(** Changing an open descriptor keeps the table standard. *)
Lemma std_table_set t fd d : std_table t -> (fd < 3)%nat -> std_table (<[fd := Some d]> t).
Proof.
  intros [[d0 H0] [d1 H1] [d2 H2] (i & j & Hij & Hi & Hj)] Hfd. assert (fd < length t)%nat by (apply lookup_lt_Some in H2; lia).
  assert (forall k, t !! k = Some None -> k <> fd) as Hne by (intros k Hk ->; destruct fd as [|[|[|fd]]]; (congruence || lia)).
  assert (forall k x, t !! k = Some (Some x) -> exists y, <[fd := Some d]> t !! k = Some (Some y)) as Hop.
  { intros k x Hk. destruct (decide (k = fd)) as [-> |]; [rewrite list_lookup_insert_eq by done; eauto|rewrite list_lookup_insert_ne by done; eauto]. }
  split; [by eapply Hop|by eapply Hop|by eapply Hop|]. exists i, j. split; [done|].
  pose proof (Hne i Hi). pose proof (Hne j Hj). by rewrite !list_lookup_insert_ne by congruence.
Qed.

(** The two descriptors of a new pipe are free ones above the standard ones. *)
Lemma pipe_descriptors t r :
  std_table t -> exists i j, lowest t = Some i /\ lowest (<[i := Some r]> t) = Some j /\ (3 <= i)%nat /\ (3 <= j)%nat /\ i <> j /\
    t !! i = Some None /\ t !! j = Some None.
Proof.
  intros [[d0 H0] [d1 H1] [d2 H2] (x & y & Hxy & Hx & Hy)].
  assert (forall k, t !! k = Some None -> (3 <= k)%nat) as H3 by (intros [|[|[|k]]] Hk; (congruence || lia)).
  destruct (lowest_exists t x Hx) as (i & Ei & Hi). pose proof Ei as [Hti _]%lowest_spec.
  assert (<[i := Some r]> t !! y = Some None) as Hy' by (rewrite list_lookup_insert_ne by lia; done).
  destruct (lowest_exists _ y Hy') as (j & Ej & Hj). pose proof Ej as [Htj _]%lowest_spec.
  assert (i <> j) as Hne. { intros <-. rewrite list_lookup_insert_eq in Htj by (by apply lookup_lt_Some in Hti). done. }
  rewrite list_lookup_insert_ne in Htj by done. exists i, j. split_and!; eauto.
Qed.

(** The descriptors of a child at an end of the pipe. *)
Lemma pipe_child t i j r w fd d :
  std_table t -> (fd < 2)%nat -> (3 <= i)%nat -> (3 <= j)%nat -> i <> j -> t !! i = Some None -> t !! j = Some None ->
  let t2 := <[j := Some w]> (<[i := Some r]> t) in
  (d = Z.of_nat i /\ fd = 0%nat \/ d = Z.of_nat j /\ fd = 1%nat) ->
  lowest (fd_set (Z.of_nat fd) None t2) = Some fd /\
  fd_set (Z.of_nat j) None (fd_set (Z.of_nat i) None (<[fd := mjoin (fd_set (Z.of_nat fd) None t2 !! Z.to_nat d)]> (fd_set (Z.of_nat fd) None t2))) =
  <[fd := Some (if decide (fd = 0%nat) then r else w)]> t.
Proof.
  intros Hstd Hfd Hi3 Hj3 Hij Hi Hj t2 Hd. unfold fd_set. rewrite !Nat2Z.id.
  pose proof (lookup_lt_Some _ _ _ Hi) as Li. pose proof (lookup_lt_Some _ _ _ Hj) as Lj. split.
  - unfold t2. rewrite (list_insert_insert_ne _ fd j), (list_insert_insert_ne _ fd i) by lia.
    apply lowest_spec. pose proof (lowest_closed t fd Hstd ltac:(lia)) as [Hl Hlt]%lowest_spec.
    split; [by rewrite !list_lookup_insert_ne by lia|]. intros k Hk. do 2 rewrite list_lookup_insert_ne by lia. by apply Hlt.
  - assert (mjoin (<[fd := None]> t2 !! Z.to_nat d) = Some (if decide (fd = 0%nat) then r else w)) as ->.
    { unfold t2. destruct Hd as [[-> ->]|[-> ->]]; rewrite Nat2Z.id; rewrite list_lookup_insert_ne by lia; cbn.
      - rewrite list_lookup_insert_ne by done. by rewrite list_lookup_insert_eq.
      - rewrite list_lookup_insert_eq; [done|]. by rewrite length_insert. }
    apply list_eq. intros k. unfold t2.
    destruct (decide (k = j)) as [-> |]; [rewrite list_lookup_insert_eq by (by rewrite !length_insert); rewrite list_lookup_insert_ne by lia; done|].
    rewrite list_lookup_insert_ne by done.
    destruct (decide (k = i)) as [-> |]; [rewrite list_lookup_insert_eq by (by rewrite !length_insert); rewrite list_lookup_insert_ne by lia; done|].
    rewrite list_lookup_insert_ne by done.
    destruct (decide (k = fd)) as [-> |]; [by rewrite !list_lookup_insert_eq by (rewrite ?length_insert; lia)|].
    by rewrite !list_lookup_insert_ne by done.
Qed.

(** ** runcmd *)

Lemma runcmd_programs buf c : forall t pi n inp,
  std_redirs c -> std_table t -> programs (runcmd buf c) t pi n inp = meaning buf c t pi n.
Proof.
  induction c as [[|a argv]|c IH file mode fd|l IHl r IHr|l IHl r IHr|c IH]; intros t pi n inp Hc Ht.
  - done.
  - cbn [runcmd programs meaning complain]. done.
  - destruct Hc as [Hfd Hc]. cbn [runcmd programs meaning]. assert (Z.to_nat fd < 3)%nat as H3 by lia. unfold fd_set.
    rewrite lowest_closed by done. destruct (w_open W _ mode); [|done]. rewrite (proj2 (Z.ltb_ge _ _)) by lia. rewrite list_insert_insert_eq. apply IH; [done|]. by apply std_table_set.
  - destruct Hc as [Hl Hr]. cbn [runcmd programs meaning].
    destruct (pipe_descriptors t (PipeR (n :: pi)) Ht) as (i & j & -> & -> & Hi3 & Hj3 & Hij & Hi & Hj).
    unfold fork1. cbn [programs]. change (1 =? -1) with false. cbn [programs app].
    destruct (pipe_child t i j (PipeR (n :: pi)) (PipeW (n :: pi)) 1 (Z.of_nat j) Ht) as [El Et]; [lia|lia|lia|done|done|done|by right|].
    change (Z.of_nat 1) with 1 in *. rewrite El, Et. cbn [decide].
    destruct (pipe_child t i j (PipeR (n :: pi)) (PipeW (n :: pi)) 0 (Z.of_nat i) Ht) as [El' Et']; [lia|lia|lia|done|done|done|by left|].
    change (Z.of_nat 0) with 0 in *. rewrite El', Et'. f_equal; [apply IHl|f_equal; apply IHr]; try done; apply std_table_set; (done || lia).
  - destruct Hc as [Hl Hr]. cbn [runcmd programs meaning]. unfold fork1. cbn [programs]. change (1 =? -1) with false. cbn [programs].
    rewrite IHl, IHr by done. done.
  - cbn [runcmd programs meaning]. unfold fork1. cbn [programs]. change (1 =? -1) with false. cbn [programs]. by rewrite IH by done.
Qed.

(** The parser makes redirections of 0 and 1 only. *)
Lemma std_redirs_redirs rs : forall c, std_redirs c -> std_redirs (redirs_cmd c rs).
Proof.
  induction rs as [|r rs IH]; intros c Hc; [done|]. apply IH. unfold redir_cmd. destruct (_ =? _); [|destruct (_ =? _)]; cbn; auto.
Qed.

Lemma std_redirs_add_arg c a : std_redirs c -> std_redirs (add_arg c a).
Proof. induction c; cbn; tauto. Qed.

Lemma std_redirs_args args : forall c, std_redirs c -> std_redirs (args_cmd c args).
Proof. induction args as [|a args IH]; intros c Hc; [done|]. apply IH, std_redirs_redirs. by apply std_redirs_add_arg. Qed.

Lemma std_redirs_iter n c : std_redirs c -> std_redirs (Nat.iter n Back c).
Proof. by induction n. Qed.

Lemma std_redirs_syntax : (forall l, std_redirs (line_cmd l)) /\ (forall p, std_redirs (pipe_cmd p)) /\ (forall e, std_redirs (simple_cmd e)).
Proof.
  apply syntax_ind; cbn; intros; try split; auto using std_redirs_iter, std_redirs_redirs.
  by apply std_redirs_args, std_redirs_redirs.
Qed.

Lemma parsecmd_std_redirs fuel line c buf : parsecmd fuel line = Ok (c, buf) -> std_redirs c.
Proof.
  intros Hrun. unfold parsecmd in Hrun. destruct (parseline (length line) fuel line) as [[c' s]| |] eqn:Ep; [|done|done].
  cbn [mbind result_bind] in Hrun. destruct (peek s []) as [b s2]. destruct s2; [|done]. injection Hrun as -> _.
  apply parse_sound in Ep as (l & _ & _ & ->). apply std_redirs_syntax.
Qed.

(** The shell connects the programs of a command as it is written. For
    every line that parses, and descriptors 0, 1 and 2 open, the processes
    that [runcmd] starts run exactly the programs of the command, in order,
    with the shell's descriptors except that a redirection replaces 0 or 1 by
    the file, the left side of a pipe has its write end as 1 and the right
    side its read end as 0. What cannot be run or opened stops the process
    that needs it and no other. No program has another descriptor of a pipe, so
    that a reader sees the end of file when the writers have ended. *)
Theorem runcmd_connects_programs line fuel c buf t pi n inp :
  parsecmd fuel line = Ok (c, buf) -> std_table t -> programs (runcmd buf c) t pi n inp = meaning buf c t pi n.
Proof. intros Hrun%parsecmd_std_redirs Ht. by apply runcmd_programs. Qed.

End run.

(** A world where every name is found, but no directory [x]. *)
Definition demo_world : world :=
  {| w_exec := fun _ => true; w_open := fun _ _ => true; w_chdir := fun d => negb (bool_decide (d = str "x")) |}.

(** [ls; (cat < a | wc) &], in a shell with four free descriptors. *)
Lemma runcmd_connects_programs_witness :
  exists c buf, parsecmd 100 demo_line = Ok (c, buf) /\
    programs demo_world (runcmd buf c) [Some Tty; Some Tty; Some Tty; None; None; None; None] [] 0 [] =
    [Run [[108; 115]] [Some Tty; Some Tty; Some Tty; None; None; None; None];
     Run [[99; 97; 116]] [Some (FileD [97] 0); Some (PipeW [0; 1]%nat); Some Tty; None; None; None; None];
     Run [[119; 99]] [Some (PipeR [0; 1]%nat); Some Tty; Some Tty; None; None; None; None]; Exited [1]%nat 0; Exited [] 0].
Proof.
  assert (match parsecmd 100 demo_line with
    | Ok (c, buf) => meaning demo_world buf c [Some Tty; Some Tty; Some Tty; None; None; None; None] [] 0 | _ => [] end =
    [Run [[108; 115]] [Some Tty; Some Tty; Some Tty; None; None; None; None];
     Run [[99; 97; 116]] [Some (FileD [97] 0); Some (PipeW [0; 1]%nat); Some Tty; None; None; None; None];
     Run [[119; 99]] [Some (PipeR [0; 1]%nat); Some Tty; Some Tty; None; None; None; None]; Exited [1]%nat 0; Exited [] 0]) as Hm by (vm_compute; reflexivity).
  destruct (parsecmd 100 demo_line) as [[c buf]| |] eqn:E; [|discriminate Hm|discriminate Hm].
  exists c, buf. split; [reflexivity|]. rewrite (runcmd_connects_programs demo_world demo_line 100 c buf _ [] 0 [] E); [exact Hm|].
  split; [by exists Tty|by exists Tty|by exists Tty|]. exists 3%nat, 4%nat. split; [lia|done].
Defined.
