(* ===== verification/ShMain.v ===== *)
(** * The shell runs the lines of its input

    The loop of the shell's [main], from the bytes it reads to the programs
    that run, composed of [getcmd], [parsecmd] and [runcmd]. *)

From S2P Require Import Prelude Riscv Monad State Kstring Ulib Uprintf Sh ShProps ShRun.
#[local] Open Scope Z_scope.

(** A line that fits in the buffer with its end and the NUL. *)
Definition fits (l : list Z) : Prop := (length l + 2 <= BUFLEN)%nat /\ Forall (fun c => c <> 0 /\ c <> 10 /\ c <> 13) l.

(** The input of someone who types the lines and then ends the input. *)
Definition typed (ls : list (list Z)) : input := mjoin ((fun l => Some <$> (l ++ [10])) <$> ls).

Section main.
Context (W : world).

(** What the shell does for a session, one line after the other: it exits
    with status 0 at the end of the input. *)
Fixpoint session (ls : list (list Z)) (t : table) (pi : list nat) (n : nat) : list event :=
  match ls with
  | [] => [Exited pi 0]
  | l :: ls =>
      if is_cd l then (if w_chdir W (drop 3 l) then [Cd (drop 3 l)] else []) ++ session ls t pi n
      else
        match parsecmd (4 * BUFLEN + 5) (l ++ [10]) with
        | Ok (c, buf) => meaning W buf c t (n :: pi) 0
        | _ => [Exited (n :: pi) 1]
        end ++ session ls t pi (S n)
  end.

#[local] Arguments BUFLEN : simpl never.

Lemma programs_gets k t pi i n : forall inp acc l inp', line_of n inp = (l, inp') ->
  programs W (gets n acc k) t pi i inp = programs W (k (acc ++ l)) t pi i inp'.
Proof.
  induction n as [|n IH]; intros inp acc l inp' Hl; cbn [line_of gets] in *.
  - injection Hl as <- <-. by rewrite app_nil_r.
  - cbn [programs]. destruct inp as [|[c|] inp]; cbn [read1].
    + injection Hl as <- <-. by rewrite app_nil_r.
    + destruct ((c =? 10) || (c =? 13)); [by injection Hl as <- <-|].
      destruct (line_of n inp) as [l1 inp1] eqn:E. injection Hl as <- <-. rewrite (IH _ _ _ _ E). by rewrite <- app_assoc.
    + injection Hl as <- <-. by rewrite app_nil_r.
Qed.

Lemma line_of_typed l : forall n rest, (length l < n)%nat -> Forall (fun c => c <> 0 /\ c <> 10 /\ c <> 13) l ->
  line_of n ((Some <$> (l ++ [10])) ++ rest) = (l ++ [10], rest).
Proof.
  induction l as [|c l IH]; intros n rest Hn Hl; (destruct n as [|n]; [simpl in Hn; lia|]); [done|].
  apply Forall_cons in Hl as [(_ & H1 & H2) Hl]. cbn. rewrite (proj2 (Z.eqb_neq c 10)), (proj2 (Z.eqb_neq c 13)) by done. cbn [orb].
  change (list_fmap _ _ Some (l ++ [10])) with (Some <$> (l ++ [10])). rewrite IH; [done|simpl in Hn; lia|done].
Qed.

Lemma cstr_of_padded l n : Forall (fun c => c <> 0) l -> cstr_of (l ++ replicate n 0) = l.
Proof.
  induction 1 as [|c l Hc _ IH]; [by destruct n|]. cbn. by rewrite (proj2 (Z.eqb_neq c 0)), IH by done.
Qed.

Lemma is_cd_line l z : is_cd ((l ++ [10]) ++ z) = is_cd l.
Proof.
  unfold is_cd. apply bool_decide_ext. destruct l as [|a [|b [|c l]]]; cbn; [..|done];
    (split; [by intros [=]|by intros [=]]).
Qed.

Lemma cd_take l : is_cd l = true -> exists d, l = str "cd " ++ d.
Proof. intros H%bool_decide_eq_true. exists (drop 3 l). by rewrite <- H, take_drop. Qed.

Lemma programs_getcmd eof k t pi n l rest :
  fits l -> programs W (getcmd eof k) t pi n ((Some <$> (l ++ [10])) ++ rest) =
    programs W (k ((l ++ [10]) ++ replicate (BUFLEN - length (l ++ [10])) 0)) t pi n rest.
Proof.
  intros [Hlen Hl]. unfold getcmd. generalize (default [] (fprintf (str "$ ") [])). intros out.
  assert (exists N, (length l < N)%nat /\ (BUFLEN - 1)%nat = N) as (N & HN & ->) by (exists (BUFLEN - 1)%nat; split; [lia|done]).
  transitivity (programs W (gets N [] (fun line =>
    let buf := line ++ replicate (BUFLEN - length line) 0 in if default 0 (head buf) =? 0 then eof else k buf)) t pi n ((Some <$> (l ++ [10])) ++ rest)); [done|].
  rewrite (programs_gets _ _ _ _ _ _ _ (l ++ [10]) rest) by (by apply line_of_typed). cbn [app]. cbv zeta.
  destruct l as [|c l]; [done|]. cbn [app head default]. apply Forall_cons in Hl as [[Hc _] _]. by rewrite (proj2 (Z.eqb_neq _ 0)) by exact Hc.
Qed.

Lemma run_line_programs buf t pi :
  std_table t -> (length (cstr_of buf) <= BUFLEN)%nat ->
  programs W (run_line buf) t pi 0 [] =
    match parsecmd (4 * BUFLEN + 5) (cstr_of buf) with
    | Ok (c, buf) => meaning W buf c t pi 0
    | _ => [Exited pi 1]
    end.
Proof.
  intros Ht Hlen. unfold run_line. pose proof (parsecmd_total (cstr_of buf) (4 * BUFLEN + 5) ltac:(lia)) as Htot.
  destruct (parsecmd _ (cstr_of buf)) as [[c buf']|out|] eqn:E; [|done..].
  apply runcmd_programs; [|done]. by eapply parsecmd_std_redirs.
Qed.

(** The name after [cd], with the end of the line cut off. *)
Lemma cd_name l n :
  is_cd l = true -> Forall (fun c => c <> 0) l ->
  cstr_of (drop 3 (<[Nat.sub (length (l ++ [10])) 1 := 0]> ((l ++ [10]) ++ replicate n 0))) = drop 3 l.
Proof.
  intros [d ->]%cd_take H0. rewrite length_app, Nat.add_sub, <- app_assoc, insert_app_r_alt, Nat.sub_diag by done.
  apply Forall_app in H0 as [_ H0]. exact (cstr_of_padded d (S n) H0).
Qed.

Lemma programs_chdir dir fmt k t pi n inp :
  programs W (PChdir dir (fun r => if r <? 0 then complain fmt dir k else k)) t pi n inp =
    (if w_chdir W dir then [Cd dir] else []) ++ programs W k t pi n inp.
Proof. cbn [programs]. by destruct (w_chdir W dir). Qed.

Lemma programs_fork_wait child k t pi n inp :
  programs W (fork1 child (PWait k)) t pi n inp = programs W child t (n :: pi) 0 [] ++ programs W k t pi (S n) inp.
Proof. reflexivity. Qed.

Lemma main_loop_S fuel :
  main_loop (S fuel) = getcmd (PExit 0) (fun buf =>
    if is_cd buf then
      let buf := <[Nat.sub (length (cstr_of buf)) 1 := 0]> buf in
      let dir := cstr_of (drop 3 buf) in
      PChdir dir (fun r => if r <? 0 then complain "cannot cd %s" dir (main_loop fuel) else main_loop fuel)
    else fork1 (run_line buf) (PWait (main_loop fuel))).
Proof. reflexivity. Qed.

(** One round of the loop. *)
Lemma programs_round fuel t pi n l rest :
  fits l -> std_table t ->
  programs W (main_loop (S fuel)) t pi n ((Some <$> (l ++ [10])) ++ rest) =
    if is_cd l then (if w_chdir W (drop 3 l) then [Cd (drop 3 l)] else []) ++ programs W (main_loop fuel) t pi n rest
    else match parsecmd (4 * BUFLEN + 5) (l ++ [10]) with
         | Ok (c, buf) => meaning W buf c t (n :: pi) 0
         | _ => [Exited (n :: pi) 1]
         end ++ programs W (main_loop fuel) t pi (S n) rest.
Proof.
  intros Hfit Ht. rewrite main_loop_S, programs_getcmd by done. destruct Hfit as [Hlen Hl].
  assert (Forall (fun c => c <> 0) l) as H0 by (eapply Forall_impl; [exact Hl|]; simpl; tauto).
  assert (Forall (fun c => c <> 0) (l ++ [10])) as H1 by (apply Forall_app; split; [done|by apply Forall_singleton]).
  rewrite is_cd_line. destruct (is_cd l) eqn:Ecd.
  - cbv zeta. rewrite cstr_of_padded, cd_name by done. apply programs_chdir.
  - rewrite programs_fork_wait, run_line_programs, cstr_of_padded by (rewrite ?cstr_of_padded, ?length_app by done; simpl; (done || lia)). done.
Qed.

Lemma programs_session ls : forall fuel t pi n, (length ls < fuel)%nat -> Forall fits ls -> std_table t ->
  programs W (main_loop fuel) t pi n (typed ls) = session ls t pi n.
Proof.
  induction ls as [|l ls IH]; intros fuel t pi n Hf Hls Ht; (destruct fuel as [|fuel]; [simpl in Hf; lia|]).
  - rewrite main_loop_S. unfold getcmd. cbn [programs]. by rewrite (programs_gets _ _ _ _ _ _ _ [] []).
  - apply Forall_cons in Hls as [Hl Hls]. change (typed (l :: ls)) with ((Some <$> (l ++ [10])) ++ typed ls).
    rewrite programs_round by done. cbn [session length] in *. rewrite !IH by (done || lia). done.
Qed.

Lemma meaning_not_stuck buf c : forall t pi n, Stuck ∉ meaning W buf c t pi n.
Proof.
  induction c as [[|a argv]|c IH file mode fd|l IHl r IHr|l IHl r IHr|c IH]; intros t pi n; cbn [meaning];
    repeat case_match; rewrite ?elem_of_app, ?list_elem_of_singleton; set_solver.
Qed.

Lemma session_not_stuck ls : forall t pi n, Stuck ∉ session ls t pi n.
Proof.
  induction ls as [|l ls IH]; intros t pi n; cbn [session]; [by rewrite list_elem_of_singleton|].
  pose proof meaning_not_stuck as Hm. repeat case_match; rewrite ?elem_of_app, ?list_elem_of_singleton; set_solver.
Qed.

Lemma session_ends ls : forall t pi n, last (session ls t pi n) = Some (Exited pi 0).
Proof.
  induction ls as [|l ls IH]; intros t pi n; cbn [session]; [done|]. destruct (is_cd l); by rewrite last_app, IH.
Qed.

(** C33: The shell runs what is typed. Started with descriptors 0, 1 and 2
    open, and given any lines that fit in its buffer, it exits with status 0
    at the end of the input and has run, line after line, exactly the programs
    that the command of the line stands for, with the descriptors they ask
    for; a line [cd dir] changes the directory of the shell itself to [dir]
    when there is one; a line that does not parse, a program that is not found
    and a file that cannot be opened end the process that runs the line, with
    the status given, and stop nothing else. No process runs out of the bounds
    of the model. ([fork], [pipe] and [wait] succeed.) *)
Theorem sh_runs_typed_lines ls fuel t pi n :
  (length ls < fuel)%nat -> Forall fits ls -> std_table t ->
  programs W (main fuel) t pi n (typed ls) = session ls t pi n /\ Stuck ∉ session ls t pi n /\
  last (session ls t pi n) = Some (Exited pi 0).
Proof.
  intros Hf Hls Ht. split; [|by split; [apply session_not_stuck|apply session_ends]]. unfold main. cbn [open_console programs].
  destruct (pipe_descriptors t Tty Ht) as (i & j & Hi & _ & Hi3 & _ & _ & Hti & _). rewrite Hi.
  destruct (w_open W _ _); [|by apply programs_session].
  rewrite (proj2 (Z.ltb_ge (Z.of_nat i) 0)), (proj2 (Z.leb_le 3 (Z.of_nat i))) by lia. cbn [programs].
  unfold fd_set. rewrite Nat2Z.id, list_insert_insert_eq, list_insert_id by done. by apply programs_session.
Qed.

End main.

(** [cd /], [cd x], [ls>a], [)] and [echo|wc]. *)
Lemma sh_runs_typed_lines_witness :
  programs demo_world (main 10) [Some Tty; Some Tty; Some Tty; None; None] [] 0
    (typed [str "cd /"; str "cd x"; str "ls>a"; str ")"; str "echo|wc"]) =
  [Cd (str "/"); Run [str "ls"] [Some Tty; Some (FileD (str "a") 0x601); Some Tty; None; None]; Exited [1]%nat 1;
   Run [str "echo"] [Some Tty; Some (PipeW [0; 2]%nat); Some Tty; None; None];
   Run [str "wc"] [Some (PipeR [0; 2]%nat); Some Tty; Some Tty; None; None]; Exited [2]%nat 0; Exited [] 0].
Proof.
  destruct (sh_runs_typed_lines demo_world [str "cd /"; str "cd x"; str "ls>a"; str ")"; str "echo|wc"] 10 [Some Tty; Some Tty; Some Tty; None; None] [] 0) as [E _].
  - simpl. lia.
  - repeat (apply Forall_cons; split; [split; [vm_compute; lia|apply (bool_decide_unpack _); vm_compute; exact I]|]). constructor.
  - split; [by exists Tty|by exists Tty|by exists Tty|]. exists 3%nat, 4%nat. split; [lia|done].
  - rewrite E. vm_compute. reflexivity.
Defined.

(** The last byte of a [cd] line is removed even when it is not the end of
    the line: at the end of an input without a newline the name loses its
    last letter. *)
Lemma cd_without_newline_loses_letter t pi n :
  programs demo_world (main_loop 2) t pi n (Some <$> str "cd ab") = [Cd (str "a"); Exited pi 0].
Proof. reflexivity. Qed.
