(* ===== verification/Mkfs.v ===== *)
(** * mkfs: building the first file system ([mkfs/mkfs.c])

    The host program that writes the disk image. The image is the list of its
    blocks, as long as the file has grown; [struct dinode] and [struct dirent]
    are the bytes they have on the disk. The host is little-endian. [Panic] is
    a call of [die] or an assertion that fails; what is printed for the user
    is left out. Seeking and writing the image do not fail. *)

From S2P Require Import Prelude Riscv Monad State Kstring Bytes Printf Kalloc Vm Proc Sleeplock Bio Log Fs Dir.
#[local] Open Scope Z_scope.

Definition FSSIZE : Z := 1000.
Definition NINODES : Z := 200.

Definition nbitmap : Z := FSSIZE / (BSIZE * 8) + 1.
Definition ninodeblocks : Z := NINODES / IPB + 1.
Definition nlog : Z := LOGSIZE.
Definition nmeta : Z := 2 + nlog + ninodeblocks + nbitmap.
Definition nblocks : Z := FSSIZE - nmeta.

Definition xshort (x : Z) : Z := little_endian_to_Z 8 [u8 x; u8 (Z.shiftr x 8)].
Definition xint (x : Z) : Z :=
  little_endian_to_Z 8 [u8 x; u8 (Z.shiftr x 8); u8 (Z.shiftr x 16); u8 (Z.shiftr x 24)].

Definition sb : superblock :=
  mksuperblock FSMAGIC (xint FSSIZE) (xint nblocks) (xint NINODES) (xint nlog) (xint 2)
    (xint (2 + nlog)) (xint (2 + nlog + ninodeblocks)).

(** The bytes of [sb]. *)
Definition sb_bytes (s : superblock) : list Z :=
  [sb_magic s; sb_size s; sb_nblocks s; sb_ninodes s; sb_nlog s; sb_logstart s; sb_inodestart s; sb_bmapstart s]
  ≫= Z_to_little_endian 4 8.

(** The file [fsfd] and the counters. *)
Record mkfs := mkmkfs { fsimg : list (list Z); freeinode : Z; freeblock : Z }.

Definition set_fsimg (x : list (list Z)) (s : mkfs) : mkfs := mkmkfs x (freeinode s) (freeblock s).
Definition set_freeinode (x : Z) (s : mkfs) : mkfs := mkmkfs (fsimg s) x (freeblock s).
Definition set_freeblock (x : Z) (s : mkfs) : mkfs := mkmkfs (fsimg s) (freeinode s) x.

Definition zeroes : list Z := replicate (Z.to_nat BSIZE) 0.

(** Where [lseek(fsfd, sec * BSIZE, 0)] goes, in blocks. *)
Definition sector (sec : Z) : nat := Z.to_nat (u32 (sec * BSIZE) / BSIZE).

(** Writing past the end of the file leaves zeros before the block. *)
Definition wsect (sec : Z) (buf : list Z) : M mkfs unit :=
  modify (fun s =>
    let img := fsimg s in
    let i := sector sec in
    set_fsimg (if (i <? length img)%nat then <[i := buf]> img
               else img ++ replicate (i - length img)%nat zeroes ++ [buf]) s).

Definition rsect (sec : Z) : M mkfs (list Z) :=
  img ← gets fsimg;
  match img !! sector sec with
  | Some buf => mret buf
  | None => panic "read"
  end.

Definition winode (inum : Z) (ip : list Z) : M mkfs unit :=
  let bn := IBLOCK inum sb in
  buf ← rsect bn;
  wsect bn (splice ((inum mod IPB) * sizeof_dinode) ip buf).

Definition rinode (inum : Z) : M mkfs (list Z) :=
  let bn := IBLOCK inum sb in
  buf ← rsect bn;
  mret (slice ((inum mod IPB) * sizeof_dinode) sizeof_dinode buf).

Definition mk_ialloc (type : Z) : M mkfs Z :=
  inum ← gets freeinode;
  modify (set_freeinode (u32 (inum + 1)));;
  let din := replicate (Z.to_nat sizeof_dinode) 0 in
  let din := wr 2 0 (xshort type) din in
  let din := wr 2 6 (xshort 1) din in
  let din := wr 4 8 (xint 0) din in
  winode inum din;;
  mret inum.

(** The loop of [balloc] over the bits. *)
Definition mk_bitmap (used : Z) : list Z :=
  foldl (fun buf i => wr 1 (i / 8) (Z.lor (rd 1 (i / 8) buf) (Z.shiftl 1 (i mod 8))) buf) zeroes (seqZ 0 used).

Definition mk_balloc (used : Z) : M mkfs unit :=
  if negb (used <? BSIZE * 8) then panic "used < BSIZE*8"
  else wsect (sb_bmapstart sb) (mk_bitmap used).

(** [freeblock++]. *)
Definition newblock : M mkfs Z :=
  x ← gets freeblock;
  modify (set_freeblock (u32 (x + 1)));;
  mret x.

(** The block of the file for [fbn], allocated when it is not there: [x] and
    the inode. *)
Definition iappend_block (fbn : Z) (din : list Z) : M mkfs (Z * list Z) :=
  if fbn <? NDIRECT then
    let a := 12 + 4 * fbn in
    din ← (if xint (rd 4 a din) =? 0 then x ← newblock; mret (wr 4 a (xint x) din) else mret din);
    mret (xint (rd 4 a din), din)
  else
    let a := 12 + 4 * NDIRECT in
    din ← (if xint (rd 4 a din) =? 0 then x ← newblock; mret (wr 4 a (xint x) din) else mret din);
    indirect ← rsect (xint (rd 4 a din));
    let e := 4 * (fbn - NDIRECT) in
    indirect ← (if rd 4 e indirect =? 0 then
                  x ← newblock;
                  let indirect := wr 4 e (xint x) indirect in
                  wsect (xint (rd 4 a din)) indirect;;
                  mret indirect
                else mret indirect);
    mret (xint (rd 4 e indirect), din).

(** The loop of [iappend] over the bytes [p] that are left; every round takes
    at least one of them. *)
Fixpoint iappend_loop (fuel : nat) (din : list Z) (off : Z) (p : list Z) : M mkfs (list Z * Z) :=
  match p with
  | [] => mret (din, off)
  | _ :: _ =>
      match fuel with
      | O => out_of_fuel
      | S fuel =>
          let fbn := off / BSIZE in
          if negb (fbn <? MAXFILE) then panic "fbn < MAXFILE"
          else
            '(x, din) ← iappend_block fbn din;
            let n1 := Z.min (Z.of_nat (length p)) ((fbn + 1) * BSIZE - off) in
            buf ← rsect x;
            wsect x (splice (off - fbn * BSIZE) (take (Z.to_nat n1) p) buf);;
            iappend_loop fuel din (u32 (off + n1)) (drop (Z.to_nat n1) p)
      end
  end.

Definition iappend (inum : Z) (p : list Z) : M mkfs unit :=
  din ← rinode inum;
  '(din, off) ← iappend_loop (length p) din (xint (rd 4 8 din)) p;
  winode inum (wr 4 8 (xint off) din).

(** A zeroed [struct dirent] with its two fields set; [name] is the bytes that
    [strcpy] or [strncpy] writes. *)
Definition mk_dirent (inum : Z) (name : list Z) : list Z :=
  splice 2 name (wr 2 0 (xshort inum) (replicate (Z.to_nat sizeof_dirent) 0)).

(** A file of the command line: its path, and the results of [open] and of
    the calls of [read] that follow. *)
Record hostfile := mkhostfile { hf_path : list Z; hf_reads : option (list (list Z)) }.

Fixpoint copy_reads (inum : Z) (reads : list (list Z)) : M mkfs unit :=
  match reads with
  | [] | [] :: _ => mret ()
  | buf :: reads => iappend inum buf;; copy_reads inum reads
  end.

(** The name without [user/]. *)
Definition strip_user (path : list Z) : list Z :=
  if bool_decide (take 5 path = str "user/") then drop 5 path else path.

(** The name without the leading [_]. *)
Definition strip_underscore (name : list Z) : list Z :=
  match name with
  | c :: name' => if c =? 95 then name' else name
  | [] => name
  end.

Definition add_file (rootino : Z) (f : hostfile) : M mkfs unit :=
  let shortname := strip_user (hf_path f) in
  if existsb (Z.eqb 47) shortname then panic "index(shortname, '/') == 0"
  else
    match hf_reads f with
    | None => panic "open"
    | Some reads =>
        let shortname := strip_underscore shortname in
        inum ← mk_ialloc T_FILE;
        iappend rootino (mk_dirent inum (strncpy_list (Z.to_nat DIRSIZ) shortname));;
        copy_reads inum reads
    end.

Fixpoint add_files (rootino : Z) (fs : list hostfile) : M mkfs unit :=
  match fs with
  | [] => mret ()
  | f :: fs => add_file rootino f;; add_files rootino fs
  end.

(** [for(i = 0; i < FSSIZE; i++) wsect(i, zeroes)]. *)
Fixpoint wzeroes (i : Z) (n : nat) : M mkfs unit :=
  match n with
  | O => mret ()
  | S n => wsect i zeroes;; wzeroes (i + 1) n
  end.

Definition fix_root_size (rootino : Z) : M mkfs unit :=
  din ← rinode rootino;
  let off := xint (rd 4 8 din) in
  let off := u32 ((off / BSIZE + 1) * BSIZE) in
  winode rootino (wr 4 8 (xint off) din).

Definition mkfs_main (fs : list hostfile) : M mkfs unit :=
  modify (set_freeblock nmeta);;
  wzeroes 0 (Z.to_nat FSSIZE);;
  wsect 1 (splice 0 (sb_bytes sb) zeroes);;
  rootino ← mk_ialloc T_DIR;
  if negb (rootino =? ROOTINO) then panic "rootino == ROOTINO"
  else
    iappend rootino (mk_dirent rootino (str "." ++ [0]));;
    iappend rootino (mk_dirent rootino (str ".." ++ [0]));;
    add_files rootino fs;;
    fix_root_size rootino;;
    used ← gets freeblock;
    mk_balloc used.

(** The image file as [open] with [O_TRUNC] leaves it. *)
Definition mkfs0 : mkfs := mkmkfs [] 1 0.
