(* ===== verification/MkfsProps.v ===== *)
(** * What mkfs builds is what the kernel reads

    Every file of the image as the bytes of its blocks, the invariant that
    [iappend] keeps, and the kernel's view of the finished image: [ilock]'s
    fields of the inode, [bmap]'s blocks and [readi]'s content. *)

From S2P Require Import Prelude Riscv Monad State Kstring Bytes Printf Kalloc Vm VmInv VmMap Uspace VmFree VmCopy VmProps Proc ProcInv Sleeplock Umem Dlist Bio BioInv BioSpec BioClient Log LogInv LogProps Fs Dir DirProps FsTx FsProps FsRead Mkfs.
#[local] Open Scope Z_scope.

(** ** Blocks of the image *)

Definition blk (s : mkfs) (b : Z) : list Z := default [] (fsimg s !! Z.to_nat b).

Definition on_disk (b : Z) : Prop := 0 <= b < FSSIZE.

Record img_ok (s : mkfs) : Prop := {
  io_len : length (fsimg s) = Z.to_nat FSSIZE;
  io_blk : forall b, on_disk b -> is_block (blk s b)
}.

Definition put_blk (b : Z) (d : list Z) (s : mkfs) : mkfs := set_fsimg (<[Z.to_nat b := d]> (fsimg s)) s.

Lemma sector_eq b : on_disk b -> sector b = Z.to_nat b.
Proof.
  unfold on_disk, FSSIZE, sector, BSIZE. intros Hb. rewrite u32_small by lia. by rewrite Z.div_mul.
Qed.

Lemma rsect_eq s b : img_ok s -> on_disk b -> rsect b s = Ret (blk s b) s.
Proof.
  intros [Hl _] Hb. unfold rsect, blk, mbind, M_bind, gets. cbn [obind]. rewrite sector_eq by done.
  destruct (lookup_lt_is_Some_2 (fsimg s) (Z.to_nat b)) as [d ->]; [rewrite Hl; unfold on_disk in Hb; lia|done].
Qed.

Lemma wsect_eq s b d : img_ok s -> on_disk b -> wsect b d s = Ret () (put_blk b d s).
Proof.
  intros [Hl _] Hb. unfold wsect, modify, put_blk. rewrite sector_eq by done.
  rewrite (proj2 (Nat.ltb_lt _ _)); [done|]. rewrite Hl. unfold on_disk in Hb. lia.
Qed.

Lemma blk_put s b d b' :
  img_ok s -> on_disk b -> 0 <= b' -> blk (put_blk b d s) b' = if decide (b' = b) then d else blk s b'.
Proof.
  intros [Hl _] Hb Hb'. unfold blk, put_blk. cbn [fsimg set_fsimg]. unfold on_disk in Hb. case_decide as E.
  - subst. by rewrite list_lookup_insert_eq by (rewrite Hl; lia).
  - rewrite list_lookup_insert_ne by lia. done.
Qed.

Lemma img_ok_put s b d : img_ok s -> on_disk b -> is_block d -> img_ok (put_blk b d s).
Proof.
  intros Hs Hb Hd. split.
  - cbn [put_blk fsimg set_fsimg]. rewrite length_insert. apply Hs.
  - intros b' Hb'. rewrite blk_put by (done || unfold on_disk in *; lia). case_decide; [done|by apply Hs].
Qed.

Lemma blk_freeinode n s b : blk (set_freeinode n s) b = blk s b.
Proof. done. Qed.

Lemma blk_freeblock n s b : blk (set_freeblock n s) b = blk s b.
Proof. done. Qed.

(** ** Bytes *)

Lemma lor_byte a b : 0 <= a < 256 -> Z.lor a (Z.shiftl b 8) = a + 256 * b.
Proof. intros Ha. rewrite Z.shiftl_mul_pow2, Z.lor_comm, lor_low_add by lia. lia. Qed.

Lemma xint_eq x : xint x = u32 x.
Proof.
  unfold xint. rewrite !Z.shiftr_div_pow2 by lia. cbn [little_endian_to_Z].
  rewrite !lor_byte by apply u8_bound. unfold u8, u32. dlia.
Qed.

Lemma xshort_eq x : xshort x = u16 x.
Proof.
  unfold xshort. rewrite Z.shiftr_div_pow2 by lia. cbn [little_endian_to_Z].
  rewrite !lor_byte by apply u8_bound. unfold u8, u16. dlia.
Qed.

Definition bytes (l : list Z) : Prop := Forall (fun b => 0 <= b < 256) l.

Lemma bytes_le n v : 0 <= n -> bytes (Z_to_little_endian n 8 v).
Proof. intros Hn. apply (Z_to_little_endian_bound n 8 v); lia. Qed.

Lemma bytes_splice off bs d : bytes bs -> bytes d -> bytes (splice off bs d).
Proof.
  intros Hb Hd. unfold bytes, splice in *. rewrite !Forall_app. split_and!; [by apply Forall_take|done|by apply Forall_drop].
Qed.

Lemma bytes_wr n off v d : 0 <= n -> bytes d -> bytes (wr n off v d).
Proof. intros Hn. by apply bytes_splice, bytes_le. Qed.

Lemma bytes_slice off n d : bytes d -> bytes (slice off n d).
Proof. intros Hd. by apply Forall_take, Forall_drop. Qed.

Lemma bytes_zero n : bytes (replicate n 0).
Proof. apply Forall_replicate. lia. Qed.

Lemma rd_bound n off d : 0 <= n -> bytes d -> 0 <= rd n off d < 2 ^ (8 * n).
Proof.
  intros Hn Hd. unfold rd. pose proof (little_endian_to_Z_bound 8 (slice off n d) ltac:(lia) (bytes_slice _ _ _ Hd)) as [H1 H2].
  split; [done|]. eapply Z.lt_le_trans; [exact H2|]. apply Z.pow_le_mono_r; [lia|].
  unfold slice. rewrite length_take. lia.
Qed.

Lemma rd_zero n off k : rd n off (replicate k 0) = 0.
Proof.
  unfold rd, slice. rewrite drop_replicate, take_replicate. induction (Z.to_nat n `min` (k - Z.to_nat off))%nat as [|j IH]; [done|].
  cbn [replicate little_endian_to_Z]. by rewrite IH.
Qed.

Lemma is_block_splice off bs d :
  is_block d -> bytes bs -> 0 <= off -> off + Z.of_nat (length bs) <= BSIZE -> is_block (splice off bs d).
Proof.
  intros [Hl Hb] Hbs Ho Hle. split; [|by apply bytes_splice]. rewrite length_splice; [done|done|]. rewrite Hl. unfold BSIZE in *. lia.
Qed.

Lemma is_block_wr4 off v d : is_block d -> 0 <= off -> off + 4 <= BSIZE -> is_block (wr 4 off v d).
Proof. intros Hd Ho Hle. apply is_block_splice; [done|by apply bytes_le|done|]. rewrite length_le; lia. Qed.

Lemma zeroes_block : is_block zeroes.
Proof. apply is_block_zero. Qed.

Lemma take8_wr off v d : 8 <= off -> off + 4 <= Z.of_nat (length d) -> take 8 (wr 4 off v d) = take 8 d.
Proof.
  intros Ho Hl. unfold wr, splice. rewrite take_app_le, take_take by (rewrite length_take; lia). f_equal. lia.
Qed.

(** ** A file

    [di] is the dinode, [blocks] the blocks of the data, [ind] the indirect
    block or 0, [data] the bytes of the file. *)
Record file_ok (V : Z -> list Z) (di blocks : list Z) (ind : Z) (data : list Z) : Prop := {
  fo_di : length di = 64%nat;
  fo_bytes : bytes di;
  fo_addr : forall k, 0 <= k < 12 -> rd 4 (12 + 4 * k) di = default 0 (blocks !! Z.to_nat k);
  fo_ind : rd 4 60 di = ind;
  fo_ind0 : ind = 0 <-> (length blocks <= 12)%nat;
  fo_inds : forall k, 12 <= k < 268 -> ind <> 0 -> rd 4 (4 * (k - 12)) (V ind) = default 0 (blocks !! Z.to_nat k);
  fo_max : (length blocks <= 268)%nat;
  fo_fit : (length data <= 1024 * length blocks)%nat;
  fo_data : mjoin (V <$> blocks) = data ++ replicate (1024 * length blocks - length data) 0
}.

Definition owned (blocks : list Z) (ind : Z) : list Z := (if decide (ind = 0) then [] else [ind]) ++ blocks.

Lemma elem_of_owned b blocks ind : b ∈ owned blocks ind <-> (b = ind /\ ind <> 0) \/ b ∈ blocks.
Proof. unfold owned. case_decide; rewrite elem_of_app, ?elem_of_cons, ?elem_of_nil; naive_solver. Qed.

Lemma mjoin_ext (V V' : Z -> list Z) (l : list Z) : (forall b, b ∈ l -> V' b = V b) -> mjoin (V' <$> l) = mjoin (V <$> l).
Proof.
  intros H. f_equal. apply list_fmap_ext. intros i b Hi. apply H. by eapply list_elem_of_lookup_2.
Qed.

Lemma file_ok_ext V V' di blocks ind data :
  file_ok V di blocks ind data -> (forall b, b ∈ owned blocks ind -> V' b = V b) -> file_ok V' di blocks ind data.
Proof.
  intros [H1 H2 H3 H4 H5 H6 H7 H8 H9] He. split; try done.
  - intros k Hk Hi. rewrite He; [by apply H6|]. apply elem_of_owned. by left.
  - rewrite (mjoin_ext V); [done|]. intros b Hb. apply He, elem_of_owned. by right.
Qed.

(** The same file with other fields of the dinode. *)
Lemma file_ok_di V di di' blocks ind data :
  file_ok V di blocks ind data -> length di' = 64%nat -> bytes di' ->
  (forall k, 0 <= k <= 12 -> rd 4 (12 + 4 * k) di' = rd 4 (12 + 4 * k) di) -> file_ok V di' blocks ind data.
Proof.
  intros [H1 H2 H3 H4 H5 H6 H7 H8 H9] Hl Hb Hk. split; try done.
  - intros k Hk'. rewrite Hk by lia. by apply H3.
  - etransitivity; [exact (Hk 12 ltac:(lia))|exact H4].
Qed.

(** An empty file. *)
Lemma file_ok_empty V di :
  length di = 64%nat -> bytes di -> (forall k, 0 <= k <= 12 -> rd 4 (12 + 4 * k) di = 0) -> file_ok V di [] 0 [].
Proof.
  intros Hl Hb Hz. split; try done.
  - intros k Hk. by apply Hz; lia.
  - exact (Hz 12 ltac:(lia)).
  - simpl. lia.
  - simpl. lia.
Qed.

(** A new block of zeros at the end of the file. *)
Lemma grow_data (V V' : Z -> list Z) (blocks data : list Z) x :
  mjoin (V <$> blocks) = data ++ replicate (1024 * length blocks - length data) 0 -> (length data <= 1024 * length blocks)%nat ->
  (forall b, b ∈ blocks -> V' b = V b) -> V' x = zeroes ->
  mjoin (V' <$> (blocks ++ [x])) = data ++ replicate (1024 * length (blocks ++ [x]) - length data) 0.
Proof.
  intros Hd Hf He Hx. rewrite fmap_app, join_app, (mjoin_ext V V') by done. cbn. rewrite Hd, Hx, app_nil_r, <- app_assoc. f_equal.
  change zeroes with (replicate 1024 0). rewrite <- replicate_add. f_equal. rewrite length_app. simpl length. lia.
Qed.

Lemma file_ok_push_direct V di blocks data x :
  file_ok V di blocks 0 data -> (length blocks < 12)%nat -> 0 < x < 2 ^ 32 -> V x = zeroes ->
  file_ok V (wr 4 (12 + 4 * Z.of_nat (length blocks)) x di) (blocks ++ [x]) 0 data.
Proof.
  intros [H1 H2 H3 H4 H5 H6 H7 H8 H9] Hn Hx Hz. set (n := length blocks) in *.
  assert (forall k, 0 <= k <= 12 -> rd 4 (12 + 4 * k) (wr 4 (12 + 4 * Z.of_nat n) x di) = if decide (k = Z.of_nat n) then x else rd 4 (12 + 4 * k) di) as Hrd.
  { intros k Hk. case_decide as E; [subst k; apply rd_wr_eq; lia|apply rd_wr_ne; lia]. }
  split.
  - rewrite length_wr; lia.
  - by apply bytes_wr.
  - intros k Hk. rewrite Hrd by lia. case_decide as E.
    + subst k. rewrite Nat2Z.id, lookup_app_r, Nat.sub_diag by lia. done.
    + rewrite H3 by done. destruct (decide (k < Z.of_nat n)); [rewrite lookup_app_l by lia; done|].
      rewrite (lookup_ge_None_2 blocks) by lia. rewrite lookup_ge_None_2; [done|]. rewrite length_app. simpl. lia.
  - pose proof (Hrd 12 ltac:(lia)) as E. rewrite decide_False in E by lia. by etransitivity; [exact E|].
  - rewrite length_app. simpl. split; [lia|done].
  - done.
  - rewrite length_app. simpl. lia.
  - rewrite length_app. simpl. lia.
  - by apply (grow_data V).
Qed.

Lemma file_ok_push_indirect V V' di di' blocks ind ind' data x :
  file_ok V di blocks ind data -> (12 <= length blocks < 268)%nat -> 0 < x < 2 ^ 32 -> V' x = zeroes ->
  ind' <> 0 -> (forall b, b ∈ blocks -> V' b = V b) ->
  length di' = 64%nat -> bytes di' -> (forall k, 0 <= k < 12 -> rd 4 (12 + 4 * k) di' = rd 4 (12 + 4 * k) di) -> rd 4 60 di' = ind' ->
  (forall k, 12 <= k < 268 -> rd 4 (4 * (k - 12)) (V' ind') = if decide (k = Z.of_nat (length blocks)) then x else default 0 (blocks !! Z.to_nat k)) ->
  file_ok V' di' (blocks ++ [x]) ind' data.
Proof.
  intros [H1 H2 H3 H4 H5 H6 H7 H8 H9] Hn Hx Hz Hi He Hl Hb Hk Hk12 Hent. split; try done.
  - intros k Hk'. rewrite Hk, H3 by lia. rewrite lookup_app_l by lia. done.
  - rewrite length_app. simpl. split; [done|lia].
  - intros k Hk' _. rewrite Hent by done. case_decide as E.
    + subst k. rewrite Nat2Z.id, lookup_app_r, Nat.sub_diag by lia. done.
    + destruct (decide (k < Z.of_nat (length blocks))); [rewrite lookup_app_l by lia; done|].
      rewrite (lookup_ge_None_2 blocks) by lia. rewrite lookup_ge_None_2; [done|]. rewrite length_app. simpl. lia.
  - rewrite length_app. simpl. lia.
  - rewrite length_app. simpl. lia.
  - by apply (grow_data V).
Qed.

(** ** A file of the image *)

(** The blocks from [freeblock] on are unused. *)
Record room_ok (s : mkfs) : Prop := {
  ro_img : img_ok s;
  ro_free : nmeta <= freeblock s <= FSSIZE;
  ro_zero : forall b, freeblock s <= b < FSSIZE -> blk s b = zeroes
}.

Definition own_ok (s : mkfs) (l : list Z) : Prop := NoDup l /\ Forall (fun b => nmeta <= b < freeblock s) l.

(** [hd] is the head of the dinode: type, device and link count. *)
Record holds (s : mkfs) (hd di blocks : list Z) (ind : Z) (data : list Z) : Prop := {
  h_room : room_ok s;
  h_head : take 8 di = hd;
  h_file : file_ok (blk s) di blocks ind data;
  h_own : own_ok s (owned blocks ind)
}.

(** From [s] to [s'] only the blocks [l] were written, and those that are new
    come from the unused ones. *)
Record grows (s s' : mkfs) (l0 l : list Z) : Prop := {
  gr_inode : freeinode s' = freeinode s;
  gr_free : freeblock s <= freeblock s';
  gr_frame : forall b, 0 <= b -> b ∉ l -> blk s' b = blk s b;
  gr_new : forall b, b ∈ l -> b ∈ l0 \/ freeblock s <= b;
  gr_old : forall b, b ∈ l0 -> b ∈ l
}.

Lemma grows_refl s l : grows s s l l.
Proof. split; (done || lia || auto). Qed.

Lemma grows_trans s1 s2 s3 l1 l2 l3 : grows s1 s2 l1 l2 -> grows s2 s3 l2 l3 -> grows s1 s3 l1 l3.
Proof.
  intros [A1 A2 A3 A4 A5] [B1 B2 B3 B4 B5]. split; [congruence|lia| | |auto].
  - intros b Hb Hn. rewrite B3, A3 by auto. done.
  - intros b [[?|?]%A4|?]%B4; [by left|by right|right; lia].
Qed.

Definition nblk (n : Z) : Z := (n + 1023) / 1024.

(** Blocks that a file of [n] blocks takes. *)
Definition cost (n : Z) : Z := n + (if 12 <? n then 1 else 0).

Lemma room_own s b : room_ok s -> nmeta <= b < freeblock s -> on_disk b /\ 0 < b < 2 ^ 32.
Proof. intros [_ Hf _] Hb. unfold on_disk. change nmeta with 46 in *. unfold FSSIZE in *. lia. Qed.

Lemma newblock_run s : room_ok s -> freeblock s < FSSIZE -> newblock s = Ret (freeblock s) (set_freeblock (freeblock s + 1) s).
Proof.
  intros [_ Hf _] Hlt. unfold newblock. kpure. kpure. rewrite u32_small; [done|]. change nmeta with 46 in Hf. unfold FSSIZE in *. lia.
Qed.

Lemma room_new s : room_ok s -> freeblock s < FSSIZE -> room_ok (set_freeblock (freeblock s + 1) s).
Proof.
  intros [Hi Hf Hz] Hlt. split; [|cbn; lia|cbn; intros b Hb; apply Hz; lia]. destruct Hi as [H1 H2]. split; [done|]. exact H2.
Qed.

Lemma room_put s b d : room_ok s -> is_block d -> nmeta <= b < freeblock s -> room_ok (put_blk b d s).
Proof.
  intros Hr Hd Hb. destruct (room_own s b Hr Hb) as [Hon _]. destruct Hr as [Hi Hf Hz]. split; [by apply img_ok_put|done|].
  intros b' Hb'. cbn [put_blk set_fsimg freeblock] in Hb'. change nmeta with 46 in *. rewrite blk_put by (done || lia). rewrite decide_False by lia. by apply Hz.
Qed.

Lemma xint_small x : 0 <= x < 2 ^ 32 -> xint x = x.
Proof. intros Hx. rewrite xint_eq. by apply u32_small. Qed.

Lemma xint_rd a d : bytes d -> xint (rd 4 a d) = rd 4 a d.
Proof. intros Hd. apply xint_small. by apply (rd_bound 4). Qed.

Lemma own_ok_app s s' l x :
  own_ok s l -> freeblock s <= x < freeblock s' -> nmeta <= x -> own_ok s' (l ++ [x]).
Proof.
  intros [Hn Hl] Hx Hm. rewrite Forall_forall in Hl. split.
  - apply NoDup_app. split; [done|]. split; [|apply NoDup_singleton]. intros b Hb ->%list_elem_of_singleton. apply Hl in Hb. lia.
  - apply Forall_app. split; [|by apply Forall_singleton; lia]. apply Forall_forall. intros b Hb. apply Hl in Hb. lia.
Qed.

(** The three ways to get a block. *)
Lemma iappend_block_there s hd di blocks ind data fbn x :
  holds s hd di blocks ind data -> 0 <= fbn -> blocks !! Z.to_nat fbn = Some x -> iappend_block fbn di s = Ret (x, di) s.
Proof.
  intros [Hr Hhd [H1 H2 H3 H4 H5 H6 H7 H8 H9] [Hn Hl]] Hf Hx. rewrite Forall_forall in Hl.
  assert (0 < x < 2 ^ 32) as Hxr by (apply (room_own s); [done|]; apply Hl, elem_of_owned; right; by eapply list_elem_of_lookup_2).
  pose proof (lookup_lt_Some _ _ _ Hx) as Hlt. unfold iappend_block. change NDIRECT with 12. destruct (Z.ltb_spec fbn 12).
  - cbv zeta. rewrite xint_rd, H3, Hx by (done || lia). cbn [default from_option id]. rewrite (proj2 (Z.eqb_neq x 0)) by lia. kpure.
    by rewrite xint_rd, H3, Hx by (done || lia).
  - assert (ind <> 0) as Hi0 by (intros E; apply H5 in E; lia). change (12 + 4 * 12) with 60. cbv zeta.
    rewrite xint_rd, H4 by done. rewrite (proj2 (Z.eqb_neq ind 0)) by done. kpure. rewrite xint_rd, H4 by done.
    erewrite bind_eq by (apply rsect_eq; [apply Hr|]; apply (room_own s ind Hr), Hl, elem_of_owned; by left). cbv beta.
    rewrite H6, Hx by lia. cbn [default from_option id]. rewrite (proj2 (Z.eqb_neq x 0)) by lia. kpure. rewrite H6, Hx by lia.
    cbn [default from_option id]. by rewrite xint_small by lia.
Qed.

Lemma iappend_block_direct s hd di blocks data :
  holds s hd di blocks 0 data -> (length blocks < 12)%nat -> freeblock s < FSSIZE ->
  let x := freeblock s in
  exists di' s', iappend_block (Z.of_nat (length blocks)) di s = Ret (x, di') s' /\ holds s' hd di' (blocks ++ [x]) 0 data /\
    freeblock s' = x + 1 /\ grows s s' (owned blocks 0) (owned (blocks ++ [x]) 0).
Proof.
  intros [Hr Hhd Hfile Hown] Hlt Hfree x. pose proof Hfile as [H1 H2 H3 H4 H5 H6 H7 H8 H9].
  assert (0 < x < 2 ^ 32 /\ nmeta <= x) as [Hx Hxm] by (destruct Hr as [_ Hf _]; change nmeta with 46 in *; unfold FSSIZE, x in *; lia).
  eexists _, (set_freeblock (x + 1) s). split_and!.
  - unfold iappend_block. change NDIRECT with 12. rewrite (proj2 (Z.ltb_lt _ _)) by lia. cbv zeta.
    rewrite xint_rd, H3, lookup_ge_None_2 by (done || lia). cbn [default from_option]. rewrite Z.eqb_refl.
    erewrite bind_eq; [|erewrite bind_eq by (by apply newblock_run); reflexivity]. cbv beta.
    rewrite (xint_small (freeblock s)) by (fold x; lia). rewrite rd_wr_eq by (rewrite ?H1; fold x; lia). by rewrite xint_small by (fold x; lia).
  - split; [by apply room_new|by rewrite take8_wr by lia| |].
    + apply file_ok_push_direct; [done|done|lia|]. apply Hr. unfold x. lia.
    + unfold owned in *. cbn. apply (own_ok_app s); [done|cbn; lia|done].
  - done.
  - split; [done|cbn; lia|done| |]; intros b; rewrite !elem_of_owned, ?elem_of_app, ?list_elem_of_singleton.
    + intros [[? ?]|[?| ->]]; [done|tauto|right; unfold x; lia].
    + tauto.
Qed.

(** The indirect block, allocated when there is none. *)
Lemma get_indirect s hd di blocks ind data :
  holds s hd di blocks ind data -> (12 <= length blocks)%nat -> freeblock s + (if decide (ind = 0) then 1 else 0) <= FSSIZE ->
  exists di1 ind1 s1,
    (if xint (rd 4 60 di) =? 0 then x ← newblock; mret (wr 4 60 (xint x) di) else mret di) s = Ret di1 s1 /\
    freeblock s1 = freeblock s + (if decide (ind = 0) then 1 else 0) /\ freeinode s1 = freeinode s /\ fsimg s1 = fsimg s /\
    room_ok s1 /\ take 8 di1 = hd /\ length di1 = 64%nat /\ bytes di1 /\ rd 4 60 di1 = ind1 /\ ind1 <> 0 /\
    (forall k, 0 <= k < 12 -> rd 4 (12 + 4 * k) di1 = rd 4 (12 + 4 * k) di) /\
    (forall k, 12 <= k < 268 -> rd 4 (4 * (k - 12)) (blk s1 ind1) = default 0 (blocks !! Z.to_nat k)) /\
    own_ok s1 (ind1 :: blocks) /\ (ind1 = ind \/ ind = 0 /\ ind1 = freeblock s).
Proof.
  intros [Hr Hhd [H1 H2 H3 H4 H5 H6 H7 H8 H9] [Hn Hl]] Hlen Hroom. rewrite xint_rd, H4 by done. unfold owned in *.
  destruct (decide (ind = 0)) as [E|E].
  - assert (nmeta <= freeblock s < FSSIZE) as Hfr by (pose proof (ro_free s Hr); lia).
    assert (0 < freeblock s < 2 ^ 32) as Hx by (change nmeta with 46 in Hfr; unfold FSSIZE in *; lia).
    rewrite (proj2 (Z.eqb_eq _ _)) by done. erewrite bind_eq by (apply newblock_run; [done|lia]). cbv beta. rewrite xint_small by lia.
    eexists _, (freeblock s), _. split; [reflexivity|]. split_and!; try done.
    + by apply room_new; [|lia].
    + by rewrite take8_wr by lia.
    + rewrite length_wr; lia.
    + by apply bytes_wr.
    + apply rd_wr_eq; lia.
    + lia.
    + intros k Hk. apply rd_wr_ne; lia.
    + intros k Hk. rewrite blk_freeblock, (ro_zero s Hr) by lia. rewrite lookup_ge_None_2 by (apply H5 in E; lia). apply rd_zero.
    + cbn in Hn, Hl. split.
      * apply NoDup_cons. split; [|done]. rewrite Forall_forall in Hl. intros Hb%Hl. lia.
      * apply Forall_cons. cbn. split; [lia|]. eapply Forall_impl; [exact Hl|]. cbn. lia.
    + by right.
  - rewrite (proj2 (Z.eqb_neq _ _)) by done. eexists _, ind, _. split; [reflexivity|]. split_and!; try done; [lia|by intros; apply H6|by left].
Qed.

Lemma iappend_block_indirect s hd di blocks ind data :
  holds s hd di blocks ind data -> (12 <= length blocks < 268)%nat -> freeblock s + (if decide (ind = 0) then 1 else 0) + 1 <= FSSIZE ->
  exists x di' ind' s', iappend_block (Z.of_nat (length blocks)) di s = Ret (x, di') s' /\ holds s' hd di' (blocks ++ [x]) ind' data /\
    freeblock s' = freeblock s + (if decide (ind = 0) then 1 else 0) + 1 /\ grows s s' (owned blocks ind) (owned (blocks ++ [x]) ind').
Proof.
  intros Hh Hlen Hroom. destruct (get_indirect s hd di blocks ind data Hh ltac:(lia) ltac:(lia)) as
    (di1 & ind1 & s1 & Hrun1 & Hfb1 & Hfi1 & Himg & Hr1 & Hhd1 & Hdl & Hdb & Hd60 & Hi1 & Hda & Hent & Hown1 & Hsrc).
  destruct Hh as [_ _ Hfile _]. pose proof (ro_img _ Hr1) as Hi. set (x := freeblock s1). set (n := Z.of_nat (length blocks)).
  assert (forall b, blk s1 b = blk s b) as Hblk by (intros b; unfold blk; by rewrite Himg).
  destruct Hown1 as [[Hnin Hnd]%NoDup_cons [Hir Hbr]%Forall_cons]. destruct (room_own s1 ind1 Hr1 Hir) as [Hion Hi32].
  assert (nmeta <= x < FSSIZE) as Hx by (pose proof (ro_free s1 Hr1); unfold x; lia).
  assert (0 < x < 2 ^ 32) as Hx32 by (change nmeta with 46 in Hx; unfold FSSIZE in Hx; lia).
  set (iblk := wr 4 (4 * (n - 12)) x (blk s1 ind1)).
  assert (is_block iblk) as Hib by (apply is_block_wr4; [by apply Hi|unfold BSIZE, n; lia..]).
  set (s2 := set_freeblock (x + 1) s1). assert (room_ok s2) as Hr2 by (apply room_new; [done|unfold x in Hx; lia]).
  assert (img_ok s2) as Hi2 by apply Hr2.
  assert (forall b, 0 <= b -> blk (put_blk ind1 iblk s2) b = if decide (b = ind1) then iblk else blk s1 b) as Hput by (intros b Hb; by rewrite blk_put).
  exists x, di1, ind1, (put_blk ind1 iblk s2). split_and!.
  - unfold iappend_block. change NDIRECT with 12. fold n. rewrite (proj2 (Z.ltb_ge n 12)) by (unfold n; lia). change (12 + 4 * 12) with 60. cbv zeta.
    erewrite bind_eq by exact Hrun1. cbv beta. rewrite !xint_rd, Hd60 by done. erewrite bind_eq by (by apply rsect_eq). cbv beta.
    rewrite (Hent n), lookup_ge_None_2 by (unfold n; lia). cbn [default from_option]. rewrite Z.eqb_refl.
    erewrite bind_eq; [|erewrite bind_eq by (apply newblock_run; [done|unfold x in Hx; lia]); cbv beta zeta; fold x s2; rewrite xint_small by lia; fold iblk;
      erewrite bind_eq by (by apply wsect_eq); reflexivity]. cbv beta. unfold iblk at 1.
    rewrite rd_wr_eq by (rewrite ?(proj1 (io_blk _ Hi ind1 Hion)); unfold BSIZE, n; lia). by rewrite xint_small by lia.
  - split; [apply room_put; [done|done|cbn; fold x in Hir; lia]|done| |].
    + eapply (file_ok_push_indirect (blk s)); try done.
      * rewrite Hput, decide_False by (fold x in Hir; lia). apply Hr1. unfold x in *. lia.
      * intros b Hb. rewrite Forall_forall in Hbr. pose proof (Hbr b Hb) as Hb'. change nmeta with 46 in Hb'. rewrite Hput, decide_False; [apply Hblk| |lia]. by intros ->.
      * intros k Hk. rewrite Hput, decide_True by (done || lia). unfold iblk. fold n. destruct (decide (k = n)) as [E|E].
        { subst k. apply rd_wr_eq; rewrite ?(proj1 (io_blk _ Hi ind1 Hion)); unfold BSIZE, n; lia. }
        rewrite rd_wr_ne by (rewrite ?(proj1 (io_blk _ Hi ind1 Hion)); unfold BSIZE, n in *; lia). by apply Hent.
    + unfold owned. rewrite decide_False by done. apply (own_ok_app s1 (put_blk ind1 iblk s2) (ind1 :: blocks)).
      * split; [by apply NoDup_cons|by apply Forall_cons].
      * cbn. fold x. lia.
      * lia.
  - cbn. unfold x. lia.
  - split.
    + exact Hfi1.
    + cbn. unfold x. case_decide; lia.
    + intros b Hb Hn. rewrite elem_of_owned in Hn. rewrite Hput, decide_False by (done || tauto). apply Hblk.
    + intros b. rewrite !elem_of_owned, elem_of_app, list_elem_of_singleton. intros [[-> _]|[?| ->]]; [|tauto|right; unfold x; case_decide; lia].
      destruct Hsrc as [-> |[_ ->]]; [left; left; done|right; lia].
    + intros b. rewrite !elem_of_owned, elem_of_app. intros [[-> ?]|?]; [|tauto]. destruct Hsrc as [-> |[? _]]; [by left|done].
Qed.

Lemma cost_mono n m : n <= m -> cost n <= cost m.
Proof. intros H. unfold cost. destruct (Z.ltb_spec 12 n), (Z.ltb_spec 12 m); lia. Qed.

Lemma iappend_block_run s hd di blocks ind data fbn :
  holds s hd di blocks ind data -> Z.of_nat (length blocks) = nblk (Z.of_nat (length data)) ->
  fbn = Z.of_nat (length data) / 1024 -> fbn < 268 ->
  freeblock s + cost (fbn + 1) - cost (Z.of_nat (length blocks)) <= FSSIZE ->
  exists x di' blocks' ind' s', iappend_block fbn di s = Ret (x, di') s' /\ holds s' hd di' blocks' ind' data /\
    Z.of_nat (length blocks') = fbn + 1 /\ blocks' !! Z.to_nat fbn = Some x /\
    freeblock s' = freeblock s + cost (fbn + 1) - cost (Z.of_nat (length blocks)) /\ grows s s' (owned blocks ind) (owned blocks' ind').
Proof.
  intros Hh Hlen Hfbn Hmax Hroom. unfold nblk in Hlen. assert (0 <= fbn) by dlia.
  assert (Z.of_nat (length blocks) = fbn + 1 \/ Z.of_nat (length blocks) = fbn) as [El|El] by dlia.
  - destruct (lookup_lt_is_Some_2 blocks (Z.to_nat fbn)) as [x Hx]; [lia|]. exists x, di, blocks, ind, s.
    split_and!; try done; [|rewrite El; lia|apply grows_refl]. apply (iappend_block_there s hd di blocks ind data); [done|dlia|done].
  - pose proof (fo_ind0 _ _ _ _ _ (h_file _ _ _ _ _ _ Hh)) as H0.
    assert (Z.to_nat fbn = length blocks) as En by lia. rewrite <- El in *. unfold cost in *.
    destruct (decide (length blocks < 12)%nat) as [Hd|Hd].
    + assert (ind = 0) as -> by (apply H0; lia). rewrite !(proj2 (Z.ltb_ge 12 _)) in * by lia.
      destruct (iappend_block_direct s hd di blocks data Hh Hd ltac:(lia)) as (di' & s' & Hrun & Hh' & Hfb & Hg).
      exists (freeblock s), di', (blocks ++ [freeblock s]), 0, s'. split_and!; try done; [rewrite length_app; simpl; lia| |lia].
      rewrite Nat2Z.id, lookup_app_r, Nat.sub_diag by lia. done.
    + rewrite (proj2 (Z.ltb_lt 12 (Z.of_nat (length blocks) + 1))) in * by lia.
      assert ((if decide (ind = 0) then 1 else 0) = 1 - (if 12 <? Z.of_nat (length blocks) then 1 else 0)) as Ec.
      { destruct (decide (ind = 0)) as [E|E]; [apply H0 in E; rewrite (proj2 (Z.ltb_ge 12 _)) by lia; lia|].
        rewrite (proj2 (Z.ltb_lt 12 _)); [lia|]. destruct (decide (length blocks <= 12)%nat) as [E'|]; [by apply H0 in E'|lia]. }
      destruct (iappend_block_indirect s hd di blocks ind data Hh ltac:(lia) ltac:(lia)) as (x & di' & ind' & s' & Hrun & Hh' & Hfb & Hg).
      exists x, di', (blocks ++ [x]), ind', s'. split_and!; try done; [rewrite length_app; simpl; lia| |lia].
      rewrite Nat2Z.id, lookup_app_r, Nat.sub_diag by lia. done.
Qed.

(** ** Writing in a block of the file *)

Lemma mjoin_put (V V' : Z -> list Z) (l : list Z) o c : forall n x,
  NoDup l -> l !! n = Some x -> (forall b, b ∈ l -> length (V b) = 1024%nat) -> (o + length c <= 1024)%nat ->
  (forall b, b ∈ l -> V' b = if decide (b = x) then splice (Z.of_nat o) c (V x) else V b) ->
  mjoin (V' <$> l) = splice (Z.of_nat (1024 * n + o)) c (mjoin (V <$> l)).
Proof.
  induction l as [|b l IH]; intros n x Hnd Hn Hlen Ho HV; [done|]. apply NoDup_cons in Hnd as [Hb Hnd].
  assert (length (V b) = 1024%nat) as Lb by apply Hlen, list_elem_of_here.
  rewrite !fmap_cons. cbn [mjoin list_join]. destruct n as [|n].
  - injection Hn as ->. rewrite HV, decide_True by (done || apply list_elem_of_here).
    rewrite (mjoin_ext V V') by (intros y Hy; rewrite HV by (by apply list_elem_of_further); rewrite decide_False; [done|by intros ->]).
    unfold splice. rewrite !Nat2Z.id. rewrite Nat.mul_0_r, Nat.add_0_l. rewrite take_app_le, drop_app_le by lia. by rewrite <- !app_assoc.
  - rewrite HV, decide_False; [|intros ->; apply Hb; by eapply list_elem_of_lookup_2|apply list_elem_of_here].
    change (mjoin (V' <$> l)) with (mjoin (V' <$> l)). rewrite (IH n x); try done.
    2: { intros y Hy. by apply Hlen, list_elem_of_further. }
    2: { intros y Hy. by apply HV, list_elem_of_further. }
    unfold splice. rewrite !Nat2Z.id. replace (1024 * S n + o)%nat with (length (V b) + (1024 * n + o))%nat by lia.
    replace (length (V b) + (1024 * n + o) + length c)%nat with (length (V b) + (1024 * n + o + length c))%nat by lia.
    rewrite take_app_add, drop_app_add. by rewrite <- app_assoc.
Qed.

Lemma splice_end (data c : list Z) r : (length c <= r)%nat ->
  splice (Z.of_nat (length data)) c (data ++ replicate r 0) = (data ++ c) ++ replicate (r - length c) 0.
Proof.
  intros Hc. unfold splice. rewrite Nat2Z.id, take_app_length, drop_app_add, drop_replicate. by rewrite <- app_assoc.
Qed.

Lemma holds_write s hd di blocks ind data fbn x c :
  holds s hd di blocks ind data -> blocks !! Z.to_nat fbn = Some x -> fbn = Z.of_nat (length data) / 1024 ->
  Z.of_nat (length blocks) = fbn + 1 -> Z.of_nat (length data) - fbn * 1024 + Z.of_nat (length c) <= 1024 -> bytes c ->
  let s' := put_blk x (splice (Z.of_nat (length data) - fbn * 1024) c (blk s x)) s in
  on_disk x /\ holds s' hd di blocks ind (data ++ c) /\ grows s s' (owned blocks ind) (owned blocks ind).
Proof.
  intros [Hr Hhd Hfile [Hnd Hl]] Hx Hfbn Hlen Hc Hb s'. pose proof Hfile as [H1 H2 H3 H4 H5 H6 H7 H8 H9]. rewrite Forall_forall in Hl.
  set (o := Z.of_nat (length data) - fbn * 1024) in *. assert (0 <= o < 1024 /\ 0 <= fbn) as [Ho Hf0] by (unfold o; dlia).
  assert (x ∈ blocks) as Hxin by (by eapply list_elem_of_lookup_2).
  assert (nmeta <= x < freeblock s) as Hxr by (apply Hl, elem_of_owned; by right). destruct (room_own s x Hr Hxr) as [Hxd _].
  pose proof (ro_img s Hr) as Hi. assert (is_block (blk s x)) as Hxb by (by apply Hi).
  assert (is_block (splice o c (blk s x))) as Hsb by (apply is_block_splice; [done|done|lia|unfold BSIZE; lia]).
  assert (forall b, 0 <= b -> blk s' b = if decide (b = x) then splice o c (blk s x) else blk s b) as Hput by (intros b Hb0; unfold s'; by rewrite blk_put).
  assert (forall b, b ∈ owned blocks ind -> 0 <= b /\ length (blk s b) = 1024%nat) as Hown.
  { intros b Hbo. apply Hl in Hbo. destruct (room_own s b Hr Hbo) as [Hon ?]. split; [lia|]. apply Hi in Hon as [Hbl _]. exact Hbl. }
  split; [done|]. split.
  - split; [by apply room_put|done| |split; [done|by apply Forall_forall]]. split; try done.
    + intros k Hk Hi0. assert (ind ∈ owned blocks ind) as Hio by (apply elem_of_owned; by left). rewrite Hput by (by apply Hown).
      rewrite decide_False; [by apply H6|]. intros ->. unfold owned in Hnd. rewrite decide_False in Hnd by done. by apply NoDup_cons in Hnd as [? _].
    + rewrite length_app. unfold o in *. lia.
    + rewrite (mjoin_put (blk s) (blk s') blocks (Z.to_nat o) c (Z.to_nat fbn) x); try done.
      * rewrite H9. replace (Z.of_nat (1024 * Z.to_nat fbn + Z.to_nat o)) with (Z.of_nat (length data)) by (unfold o; lia).
        rewrite splice_end by (unfold o in *; lia). rewrite length_app. f_equal. f_equal. lia.
      * unfold owned in Hnd. by apply NoDup_app in Hnd as (_ & _ & ?).
      * intros b Hb'. apply Hown, elem_of_owned. by right.
      * lia.
      * intros b Hb'. rewrite Z2Nat.id by lia. apply Hput. apply Hown, elem_of_owned. by right.
  - split; [done|cbn; lia| |auto|auto]. intros b Hb0 Hn. rewrite Hput by done. rewrite decide_False; [done|]. intros ->. apply Hn, elem_of_owned. by right.
Qed.

(** ** iappend *)

Lemma iappend_loop_run fuel : forall s hd di blocks ind data p,
  holds s hd di blocks ind data -> Z.of_nat (length blocks) = nblk (Z.of_nat (length data)) -> (length p <= fuel)%nat -> bytes p ->
  let m := Z.of_nat (length data) + Z.of_nat (length p) in
  m <= 268 * 1024 -> freeblock s + cost (nblk m) - cost (Z.of_nat (length blocks)) <= FSSIZE ->
  exists di' blocks' ind' s', iappend_loop fuel di (Z.of_nat (length data)) p s = Ret (di', m) s' /\ holds s' hd di' blocks' ind' (data ++ p) /\
    Z.of_nat (length blocks') = nblk m /\ freeblock s' = freeblock s + cost (nblk m) - cost (Z.of_nat (length blocks)) /\
    grows s s' (owned blocks ind) (owned blocks' ind').
Proof.
  induction fuel as [|fuel IH]; intros s hd di blocks ind data p Hh Hlen Hfuel Hp m Hm Hroom; (destruct p as [|c0 p0];
    [exists di, blocks, ind, s; unfold m; simpl length; rewrite Z.add_0_r, app_nil_r, <- Hlen; cbn [iappend_loop]; split_and!; (done || lia || apply grows_refl)|]).
  { simpl in Hfuel. lia. }
  set (p := c0 :: p0) in *. set (off := Z.of_nat (length data)) in *. set (fbn := off / 1024).
  assert (0 < Z.of_nat (length p)) as Hp0 by (unfold p; simpl length; lia). assert (off < 268 * 1024) by (unfold m in *; lia).
  assert (fbn < 268) as Hf by (unfold fbn; dlia).
  set (n1 := Z.min (Z.of_nat (length p)) ((fbn + 1) * 1024 - off)).
  assert (0 < n1 <= Z.of_nat (length p) /\ off - fbn * 1024 + n1 <= 1024) as [Hn1 Hfit] by (unfold n1, fbn; dlia).
  assert (fbn + 1 <= nblk m) as Hfm by (unfold nblk, m, fbn; dlia). pose proof (cost_mono _ _ Hfm).
  destruct (iappend_block_run s hd di blocks ind data fbn Hh Hlen eq_refl Hf ltac:(lia)) as (x & di1 & b1 & i1 & s1 & Hrun1 & Hh1 & Hl1 & Hx & Hfb1 & Hg1).
  set (c := take (Z.to_nat n1) p). assert (Z.of_nat (length c) = n1) as Hcl by (unfold c; rewrite length_take; lia).
  destruct (holds_write s1 hd di1 b1 i1 data fbn x c Hh1 Hx eq_refl Hl1 ltac:(fold off; lia) ltac:(by apply Forall_take)) as (Hxd & Hh2 & Hg2).
  fold off in Hh2, Hg2. set (s2 := put_blk x _ s1) in *.
  assert (Z.of_nat (length (data ++ c)) = off + n1) as El2 by (rewrite length_app; lia).
  assert (off + n1 + Z.of_nat (length (drop (Z.to_nat n1) p)) = m) as Em by (rewrite length_drop; unfold m; lia).
  destruct (IH s2 hd di1 b1 i1 (data ++ c) (drop (Z.to_nat n1) p)) as (di3 & b3 & i3 & s3 & Hrun3 & Hh3 & Hl3 & Hfb3 & Hg3); rewrite ?El2, ?Em; try done.
  - rewrite Hl1. unfold nblk, n1, fbn. dlia.
  - rewrite length_drop. lia.
  - by apply Forall_drop.
  - cbn [s2 put_blk set_fsimg freeblock]. rewrite Hl1. lia.
  - rewrite El2, Em in *. exists di3, b3, i3, s3. split_and!; try done.
    + unfold p at 1. cbn [iappend_loop]. change BSIZE with 1024. fold fbn. change MAXFILE with 268. rewrite (proj2 (Z.ltb_lt fbn 268)) by done. cbn [negb].
      erewrite bind_eq by exact Hrun1. cbv beta iota zeta. fold p. fold n1.
      erewrite bind_eq by (apply rsect_eq; [apply Hh1|done]). cbv beta. fold c. erewrite bind_eq by (apply wsect_eq; [apply Hh1|done]). cbv beta.
      fold s2. rewrite u32_small by lia. exact Hrun3.
    + rewrite <- app_assoc in Hh3. unfold c in Hh3. by rewrite take_drop in Hh3.
    + rewrite Hfb3. cbn [s2 put_blk set_fsimg freeblock]. rewrite Hl1, Hfb1. lia.
    + eapply grows_trans; [exact Hg1|]. eapply grows_trans; [exact Hg2|exact Hg3].
Qed.

(** ** Inodes *)

Definition iblock (inum : Z) : Z := inum / 16 + 32.
Definition islot (inum : Z) : Z := inum mod 16 * 64.

Definition inum_ok (inum : Z) : Prop := 0 < inum < 208.

Lemma IBLOCK_sb inum : inum_ok inum -> IBLOCK inum sb = iblock inum.
Proof.
  intros Hi. unfold inum_ok in Hi. unfold IBLOCK, iblock. change IPB with 16. change (sb_inodestart sb) with 32.
  rewrite u32_small; [done|dlia].
Qed.

Lemma iblock_range inum : inum_ok inum -> 32 <= iblock inum < 45 /\ on_disk (iblock inum) /\ 0 <= islot inum /\ islot inum + 64 <= 1024.
Proof. unfold inum_ok, iblock, islot, on_disk, FSSIZE. intros Hi. dlia. Qed.

Definition dinode_at (s : mkfs) (inum : Z) : list Z := slice (islot inum) 64 (blk s (iblock inum)).

Definition put_inode (inum : Z) (di : list Z) (s : mkfs) : mkfs := put_blk (iblock inum) (splice (islot inum) di (blk s (iblock inum))) s.

Lemma rinode_eq s inum : img_ok s -> inum_ok inum -> rinode inum s = Ret (dinode_at s inum) s.
Proof.
  intros Hs Hi. unfold rinode. cbv zeta. rewrite IBLOCK_sb by done. erewrite bind_eq by (apply rsect_eq; [done|by apply iblock_range]). done.
Qed.

Lemma winode_eq s inum di : img_ok s -> inum_ok inum -> winode inum di s = Ret () (put_inode inum di s).
Proof.
  intros Hs Hi. unfold winode. cbv zeta. rewrite IBLOCK_sb by done. erewrite bind_eq by (apply rsect_eq; [done|by apply iblock_range]). cbv beta.
  apply wsect_eq; [done|by apply iblock_range].
Qed.

Lemma put_inode_blk s inum di b : img_ok s -> inum_ok inum -> 0 <= b -> b <> iblock inum -> blk (put_inode inum di s) b = blk s b.
Proof. intros Hs Hi Hb Hne. unfold put_inode. rewrite blk_put by (done || by apply iblock_range). by rewrite decide_False. Qed.

Lemma dinode_put s inum di inum' :
  img_ok s -> inum_ok inum -> inum_ok inum' -> length di = 64%nat ->
  dinode_at (put_inode inum di s) inum' = if decide (inum' = inum) then di else dinode_at s inum'.
Proof.
  intros Hs Hi Hi' Hdi. destruct (iblock_range inum Hi) as (B1 & B2 & B3 & B4). destruct (iblock_range inum' Hi') as (C1 & C2 & C3 & C4).
  destruct (io_blk s Hs _ B2) as [Hlen _]. change (Z.to_nat BSIZE) with 1024%nat in Hlen. unfold dinode_at, put_inode. rewrite blk_put by (done || lia).
  destruct (decide (inum' = inum)) as [-> |Hne].
  - rewrite decide_True by done. replace 64 with (Z.of_nat (length di)) by lia. apply slice_splice_eq; lia.
  - case_decide as E; [|done]. rewrite E. apply slice_splice_ne; try lia. unfold iblock, islot in *. dlia.
Qed.

Lemma room_put_inode s inum di : room_ok s -> inum_ok inum -> length di = 64%nat -> bytes di -> room_ok (put_inode inum di s).
Proof.
  intros [Hs Hf Hz] Hi Hl Hb. destruct (iblock_range inum Hi) as (B1 & B2 & B3 & B4). split.
  - apply img_ok_put; [done|done|]. apply is_block_splice; [by apply Hs|done|done|unfold BSIZE; lia].
  - done.
  - intros b Hb'. change nmeta with 46 in Hf. cbn [put_inode put_blk set_fsimg freeblock] in *. rewrite put_inode_blk by (done || lia). by apply Hz.
Qed.

(** ** The files of the image *)

Record mfile := mkmfile { f_type : Z; f_data : list Z; f_blocks : list Z; f_ind : Z }.

Definition f_own (f : mfile) : list Z := owned (f_blocks f) (f_ind f).
Definition f_nblk (f : mfile) : Z := nblk (Z.of_nat (length (f_data f))).

(** The head of the dinode that [ialloc] writes. *)
Definition head_of (type : Z) : list Z := Z_to_little_endian 2 8 (u16 type) ++ [0; 0; 0; 0; 1; 0].

Record stored (s : mkfs) (inum : Z) (f : mfile) : Prop := {
  st_holds : holds s (head_of (f_type f)) (dinode_at s inum) (f_blocks f) (f_ind f) (f_data f);
  st_size : rd 4 8 (dinode_at s inum) = Z.of_nat (length (f_data f));
  st_blocks : Z.of_nat (length (f_blocks f)) = f_nblk f
}.

Definition total (F : list mfile) : Z := foldr (fun f n => cost (f_nblk f) + n) 0 F.

Record mkinv (s : mkfs) (F : list mfile) : Prop := {
  mi_room : room_ok s;
  mi_sb : blk s 1 = splice 0 (sb_bytes sb) zeroes;
  mi_inode : freeinode s = 1 + Z.of_nat (length F);
  mi_max : Z.of_nat (length F) < 208;
  mi_file : forall j f, F !! j = Some f -> stored s (1 + Z.of_nat j) f;
  mi_disj : forall i j f g b, i <> j -> F !! i = Some f -> F !! j = Some g -> b ∈ f_own f -> b ∉ f_own g;
  mi_free : freeblock s = nmeta + total F
}.

Lemma mi_inum s F j f : mkinv s F -> F !! j = Some f -> inum_ok (1 + Z.of_nat j).
Proof. intros [_ _ _ Hm _ _ _] Hj%lookup_lt_Some. unfold inum_ok. lia. Qed.

Lemma stored_ext s s' inum f :
  stored s inum f -> room_ok s' -> freeblock s <= freeblock s' -> dinode_at s' inum = dinode_at s inum ->
  (forall b, b ∈ f_own f -> blk s' b = blk s b) -> stored s' inum f.
Proof.
  intros [[Hr Hhd Hf [Hnd Hl]] Hsz Hnb] Hr' Hfb Hd Hb. split; rewrite ?Hd; try done. split; [done|done|by eapply file_ok_ext|].
  split; [done|]. eapply Forall_impl; [exact Hl|]. cbn. lia.
Qed.

Lemma total_insert F j f f' : F !! j = Some f -> total (<[j := f']> F) = total F - cost (f_nblk f) + cost (f_nblk f').
Proof.
  revert j. induction F as [|g F IH]; intros [|j] Hj; try done.
  - injection Hj as ->. cbn. lia.
  - change (total (<[S j := f']> (g :: F))) with (cost (f_nblk g) + total (<[j := f']> F)). rewrite (IH j Hj). cbn [total foldr]. unfold total. lia.
Qed.

Lemma files_total_app F f : total (F ++ [f]) = total F + cost (f_nblk f).
Proof. unfold total. rewrite foldr_app. cbn. induction F as [|g F IH]; cbn; lia. Qed.

(** The invariant after file [j] has become [f'], with [grows] from [s] to
    [s1] and its dinode written last. *)
Lemma mkinv_update s s1 F j f f' di :
  mkinv s F -> F !! j = Some f -> grows s s1 (f_own f) (f_own f') ->
  holds s1 (head_of (f_type f')) di (f_blocks f') (f_ind f') (f_data f') -> rd 4 8 di = Z.of_nat (length (f_data f')) ->
  Z.of_nat (length (f_blocks f')) = f_nblk f' -> freeblock s1 = freeblock s - cost (f_nblk f) + cost (f_nblk f') ->
  mkinv (put_inode (1 + Z.of_nat j) di s1) (<[j := f']> F).
Proof.
  intros Hinv Hj Hg Hh Hsz Hnb Hfb. pose proof (mi_inum s F j f Hinv Hj) as Hin. destruct Hinv as [Hr Hsb Hfi Hmax Hfile Hdisj Hfree].
  pose proof Hh as [Hr1 Hhd1 Hf1 [Hnd1 Hl1]]. pose proof (fo_di _ _ _ _ _ Hf1) as Hdl. pose proof (fo_bytes _ _ _ _ _ Hf1) as Hdb.
  pose proof (ro_img _ Hr1) as Hi1. destruct (iblock_range _ Hin) as (B1 & _). rewrite Forall_forall in Hl1. destruct Hg as [G1 G2 G3 G4 G5].
  assert (forall b, b < 46 -> b ∉ f_own f') as Hlow by (intros b Hb Hin'%Hl1; change nmeta with 46 in Hin'; lia).
  set (s2 := put_inode _ di s1). assert (room_ok s2) as Hr2 by (by apply room_put_inode).
  assert (forall i g, i <> j -> F !! i = Some g -> forall b, b ∈ f_own g -> nmeta <= b < freeblock s /\ b ∉ f_own f') as Hoth.
  { intros i g Hne Hg' b Hb. destruct (Hfile i g Hg') as [[_ _ _ [_ Hl]] _ _]. rewrite Forall_forall in Hl. pose proof (Hl b Hb). split; [done|].
    intros [Hb'|Hb']%G4; [by eapply (Hdisj i j g f b)|lia]. }
  split.
  - done.
  - unfold s2. rewrite put_inode_blk by (done || lia). rewrite G3 by (lia || by apply Hlow). done.
  - unfold s2. cbn [put_inode put_blk set_fsimg freeinode]. rewrite G1, length_insert. done.
  - by rewrite length_insert.
  - intros i g Hig. destruct (decide (i = j)) as [-> |Hne].
    + rewrite list_lookup_insert_eq in Hig by (by eapply lookup_lt_Some). injection Hig as <-.
      assert (dinode_at s2 (1 + Z.of_nat j) = di) as Ed by (unfold s2; rewrite dinode_put by done; by rewrite decide_True).
      split; rewrite ?Ed; [|done|done]. split; [done|done| |split; [done|by apply Forall_forall]].
      apply (file_ok_ext _ _ _ _ _ _ Hf1). intros b Hb%Hl1. change nmeta with 46 in Hb. apply put_inode_blk; (done || lia).
    + rewrite list_lookup_insert_ne in Hig by done. assert (inum_ok (1 + Z.of_nat i)) as Hini by (unfold inum_ok; apply lookup_lt_Some in Hig; lia).
      apply (stored_ext s); [by apply Hfile|done|cbn; lia| |].
      * unfold s2. rewrite dinode_put by done. rewrite decide_False by lia. unfold dinode_at. destruct (iblock_range _ Hini) as (C1 & _).
        by rewrite G3 by (lia || apply Hlow; lia).
      * intros b Hb. destruct (Hoth i g Hne Hig b Hb) as [Hr' Hn]. change nmeta with 46 in Hr'. unfold s2. rewrite put_inode_blk by (done || lia). apply G3; [lia|done].
  - intros i i' g g' b Hne Hi Hi' Hb. destruct (decide (i = j)) as [-> |Hij], (decide (i' = j)) as [-> |Hij']; [done| | |].
    + rewrite list_lookup_insert_eq in Hi by (by eapply lookup_lt_Some). injection Hi as <-. rewrite list_lookup_insert_ne in Hi' by done.
      intros Hb'. by destruct (Hoth i' g' Hij' Hi' b Hb').
    + rewrite list_lookup_insert_eq in Hi' by (by eapply lookup_lt_Some). injection Hi' as <-. rewrite list_lookup_insert_ne in Hi by done.
      by apply (Hoth i g).
    + rewrite list_lookup_insert_ne in Hi, Hi' by done. exact (Hdisj i i' g g' b Hne Hi Hi' Hb).
  - unfold s2. cbn [put_inode put_blk set_fsimg freeblock]. rewrite (total_insert F j f) by done. lia.
Qed.

Lemma iappend_run s F j f p :
  mkinv s F -> F !! j = Some f -> bytes p ->
  let m := Z.of_nat (length (f_data f)) + Z.of_nat (length p) in
  m <= 268 * 1024 -> freeblock s + cost (nblk m) - cost (f_nblk f) <= FSSIZE ->
  exists f' s', iappend (1 + Z.of_nat j) p s = Ret () s' /\ mkinv s' (<[j := f']> F) /\ f_type f' = f_type f /\ f_data f' = f_data f ++ p.
Proof.
  intros Hinv Hj Hp m Hm Hroom. pose proof (mi_inum s F j f Hinv Hj) as Hin. destruct (mi_file s F Hinv j f Hj) as [Hh Hsz Hnb].
  pose proof (ro_img _ (mi_room _ _ Hinv)) as Hi. pose proof (h_file _ _ _ _ _ _ Hh) as Hf. rewrite <- Hnb in Hroom.
  destruct (iappend_loop_run (length p) s _ _ _ _ _ p Hh Hnb ltac:(lia) Hp Hm Hroom) as (di1 & b1 & i1 & s1 & Hrun & Hh1 & Hl1 & Hfb1 & Hg).
  fold m in Hrun, Hl1, Hfb1. pose proof Hh1 as [Hr1 Hhd1 Hf1 Hown1]. pose proof (fo_di _ _ _ _ _ Hf1) as Hdl. pose proof (fo_bytes _ _ _ _ _ Hf1) as Hdb.
  set (f' := mkmfile (f_type f) (f_data f ++ p) b1 i1). set (di := wr 4 8 m di1).
  assert (0 <= m < 2 ^ 32) as Hm32 by (unfold m in *; lia).
  assert (Z.of_nat (length (f_data f')) = m) as Em by (cbn [f' f_data]; rewrite length_app; unfold m; lia).
  exists f', (put_inode (1 + Z.of_nat j) di s1). split_and!; [| |done|done].
  - unfold iappend. erewrite bind_eq by (by apply rinode_eq). cbv beta. rewrite xint_rd by apply Hf. rewrite Hsz.
    erewrite bind_eq by exact Hrun. cbv beta iota. rewrite xint_small by done. fold di. apply winode_eq; [apply Hr1|done].
  - apply (mkinv_update s s1 F j f f' di); try done; cbn [f' f_type f_blocks f_ind f_data].
    + split; [done|by unfold di; rewrite take8_wr by lia| |done]. apply (file_ok_di _ di1); [done|unfold di; rewrite length_wr; lia|by apply bytes_wr|].
      intros k Hk. unfold di. apply rd_wr_ne; lia.
    + unfold di. rewrite rd_wr_eq by lia. by rewrite <- Em.
    + unfold f_nblk. rewrite Em. done.
    + unfold f_nblk at 2. rewrite Em. rewrite <- Hnb. lia.
Qed.

(** ** ialloc *)

(** The dinode that [ialloc] writes. *)
Definition new_dinode (type : Z) : list Z :=
  wr 4 8 (xint 0) (wr 2 6 (xshort 1) (wr 2 0 (xshort type) (replicate 64 0))).

Lemma new_dinode_ok type :
  type = T_DIR \/ type = T_FILE ->
  length (new_dinode type) = 64%nat /\ bytes (new_dinode type) /\ take 8 (new_dinode type) = head_of type /\ rd 4 8 (new_dinode type) = 0 /\
  forall k, 0 <= k <= 12 -> rd 4 (12 + 4 * k) (new_dinode type) = 0.
Proof.
  intros Ht. assert (length (replicate 64 0) = 64%nat) as L0 by apply length_replicate. unfold new_dinode.
  set (d1 := wr 2 0 _ _). assert (length d1 = 64%nat) as L1 by (unfold d1; rewrite length_wr; lia).
  set (d2 := wr 2 6 _ _). assert (length d2 = 64%nat) as L2 by (unfold d2; rewrite length_wr; lia). split_and!.
  - rewrite length_wr; lia.
  - do 3 (apply bytes_wr; [done|]). apply bytes_zero.
  - destruct Ht as [-> | ->]; vm_compute; reflexivity.
  - apply (rd_wr_eq 4 8 0); lia.
  - intros k Hk. rewrite rd_wr_ne by lia. unfold d2. rewrite rd_wr_ne by lia. unfold d1. rewrite rd_wr_ne by lia. apply rd_zero.
Qed.

Lemma lookup_snoc_inv {A} (l : list A) x j y : (l ++ [x]) !! j = Some y -> l !! j = Some y \/ j = length l /\ y = x.
Proof. intros H. apply lookup_app_Some in H as [?|[Hl Hj]]; [by left|right]. apply list_lookup_singleton_Some in Hj as [? ->]. split; [lia|done]. Qed.

Lemma ialloc_run s F type :
  mkinv s F -> Z.of_nat (length F) < 207 -> type = T_DIR \/ type = T_FILE ->
  exists s', mk_ialloc type s = Ret (1 + Z.of_nat (length F)) s' /\ mkinv s' (F ++ [mkmfile type [] [] 0]).
Proof.
  intros [Hr Hsb Hfi Hmax Hfile Hdisj Hfree] Hlt Ht. set (inum := 1 + Z.of_nat (length F)) in *.
  assert (inum_ok inum) as Hin by (unfold inum_ok, inum; lia). destruct (iblock_range _ Hin) as (B1 & _).
  destruct (new_dinode_ok type Ht) as (Dl & Db & Dh & Ds & Dk). set (s1 := set_freeinode (inum + 1) s).
  assert (room_ok s1) as Hr1 by (destruct Hr as [[I1 I2] R2 R3]; split; [by split|done|done]). set (di := new_dinode type) in *.
  assert (room_ok (put_inode inum di s1)) as Hr2 by (by apply room_put_inode).
  exists (put_inode inum di s1). split.
  - unfold mk_ialloc. kpure. kpure. rewrite Hfi, u32_small by (unfold inum; lia). fold s1. cbv zeta. change (Z.to_nat sizeof_dinode) with 64%nat.
    erewrite bind_eq by (apply winode_eq; [apply Hr1|done]). reflexivity.
  - split.
    + done.
    + rewrite put_inode_blk by (try apply Hr1; done || lia). done.
    + cbn [put_inode put_blk set_fsimg s1 set_freeinode freeinode]. rewrite length_app. cbn [length]. unfold inum. lia.
    + rewrite length_app. cbn [length]. lia.
    + intros j f [Hj|[-> ->]]%lookup_snoc_inv.
      * assert (j < length F)%nat as Hjl by (by eapply lookup_lt_Some). assert (inum_ok (1 + Z.of_nat j)) as Hij by (unfold inum_ok; lia).
        apply (stored_ext s); [by apply Hfile|done|cbn; lia| |].
        -- rewrite dinode_put by (try apply Hr1; done). rewrite decide_False by (unfold inum; lia). done.
        -- intros b Hb. destruct (Hfile j f Hj) as [[_ _ _ [_ Hl]] _ _]. rewrite Forall_forall in Hl. apply Hl in Hb. change nmeta with 46 in Hb.
           rewrite put_inode_blk by (try apply Hr1; done || lia). done.
      * fold inum. assert (dinode_at (put_inode inum di s1) inum = di) as Ed by (rewrite dinode_put by (try apply Hr1; done); by rewrite decide_True).
        split; rewrite ?Ed; [|done|done]. split; [done|done|by apply file_ok_empty|]. split; [apply NoDup_nil_2|constructor].
    + intros i j f g b Hne [Hi|[-> ->]]%lookup_snoc_inv [Hj|[-> ->]]%lookup_snoc_inv Hb.
      * by eapply Hdisj.
      * apply not_elem_of_nil.
      * by apply not_elem_of_nil in Hb.
      * done.
    + cbn [put_inode put_blk set_fsimg s1 set_freeinode freeblock]. rewrite files_total_app. change (cost (f_nblk (mkmfile type [] [] 0))) with 0. lia.
Qed.

(** ** The files of the command line *)

(** The bytes that the calls of [read] return. *)
Fixpoint reads_data (reads : list (list Z)) : list Z :=
  match reads with
  | [] | [] :: _ => []
  | buf :: reads => buf ++ reads_data reads
  end.

Definition hf_data (f : hostfile) : list Z := default [] (reads_data <$> hf_reads f).

Definition hf_name (f : hostfile) : list Z := strip_underscore (strip_user (hf_path f)).

(** A file that can be added: it can be opened and read, its name has no
    slash, it is not larger than a file can be. *)
Record hf_ok (f : hostfile) : Prop := {
  hk_open : is_Some (hf_reads f);
  hk_bytes : bytes (hf_data f);
  hk_slash : existsb (Z.eqb 47) (strip_user (hf_path f)) = false;
  hk_name : bytes (hf_name f);
  hk_size : Z.of_nat (length (hf_data f)) <= 268 * 1024
}.

Definition entry_of (inum : Z) (f : hostfile) : list Z := mk_dirent inum (strncpy_list 14 (hf_name f)).

Fixpoint entries (inum : Z) (fs : list hostfile) : list Z :=
  match fs with
  | [] => []
  | f :: fs => entry_of inum f ++ entries (inum + 1) fs
  end.

Lemma bytes_strncpy n : forall t, bytes t -> bytes (strncpy_list n t).
Proof.
  induction n as [|n IH]; intros t Ht; [constructor|]. cbn [strncpy_list].
  destruct t as [|a t]; cbn [head default from_option tail]; [apply (bytes_zero (S n))|].
  apply Forall_cons in Ht as [Ha Ht]. destruct (_ =? 0); [apply (bytes_zero (S n))|]. constructor; [done|by apply IH].
Qed.

Lemma dirent_ok inum name :
  bytes name -> (length name <= 14)%nat -> bytes (mk_dirent inum name) /\ length (mk_dirent inum name) = 16%nat.
Proof.
  intros Hb Hl. unfold mk_dirent. change (Z.to_nat sizeof_dirent) with 16%nat. assert (length (replicate 16 0) = 16%nat) as L0 by apply length_replicate.
  assert (length (wr 2 0 (xshort inum) (replicate 16 0)) = 16%nat) as L1 by (rewrite length_wr; lia). split.
  - apply bytes_splice; [done|]. apply bytes_wr; [done|apply bytes_zero].
  - rewrite length_splice; lia.
Qed.

Lemma entry_ok inum f : hf_ok f -> bytes (entry_of inum f) /\ length (entry_of inum f) = 16%nat.
Proof.
  intros Hf. unfold entry_of. destruct (DirProps.strncpy_list_cstring 14 (hf_name f)) as [_ Hl].
  apply dirent_ok; [apply bytes_strncpy, Hf|]. by rewrite Hl.
Qed.

Lemma length_entries fs : forall inum, Forall hf_ok fs -> Z.of_nat (length (entries inum fs)) = 16 * Z.of_nat (length fs).
Proof.
  induction fs as [|f fs IH]; intros inum Hfs; [done|]. apply Forall_cons in Hfs as [Hf Hfs]. cbn [entries length]. rewrite length_app.
  destruct (entry_ok inum f Hf) as [_ ->]. rewrite Nat2Z.inj_add, IH by done. lia.
Qed.

Lemma nblk_mono n m : n <= m -> nblk n <= nblk m.
Proof. intros H. unfold nblk. by apply Z.div_le_mono; lia. Qed.

Lemma copy_reads_run reads : forall s F j f,
  mkinv s F -> F !! j = Some f -> bytes (reads_data reads) ->
  let m := Z.of_nat (length (f_data f)) + Z.of_nat (length (reads_data reads)) in
  m <= 268 * 1024 -> freeblock s + cost (nblk m) - cost (f_nblk f) <= FSSIZE ->
  exists f' s', copy_reads (1 + Z.of_nat j) reads s = Ret () s' /\ mkinv s' (<[j := f']> F) /\ f_type f' = f_type f /\ f_data f' = f_data f ++ reads_data reads.
Proof.
  induction reads as [|c reads IH]; intros s F j f Hinv Hj Hb m Hm Hroom.
  { exists f, s. rewrite list_insert_id, app_nil_r by done. done. }
  destruct c as [|x c]; [exists f, s; rewrite list_insert_id, app_nil_r by done; done|]. set (buf := x :: c) in *.
  assert (reads_data (buf :: reads) = buf ++ reads_data reads) as Er by done. unfold m in Hm, Hroom. clear m.
  rewrite Er in *. apply Forall_app in Hb as [Hb1 Hb2]. rewrite length_app in Hm, Hroom.
  set (m := Z.of_nat (length (f_data f)) + Z.of_nat (length buf + length (reads_data reads))) in *.
  assert (nblk (Z.of_nat (length (f_data f)) + Z.of_nat (length buf)) <= nblk m) as Hle by (apply nblk_mono; unfold m; lia).
  pose proof (cost_mono _ _ Hle). destruct (iappend_run s F j f buf Hinv Hj Hb1) as (f1 & s1 & Hrun1 & Hinv1 & Ht1 & Hd1); [unfold m in *; lia|lia|].
  assert (f_nblk f1 = nblk (Z.of_nat (length (f_data f)) + Z.of_nat (length buf))) as En by (unfold f_nblk; rewrite Hd1, length_app; f_equal; lia).
  assert (Z.of_nat (length (f_data f1)) + Z.of_nat (length (reads_data reads)) = m) as Em by (rewrite Hd1, length_app; unfold m; lia).
  destruct (IH s1 (<[j := f1]> F) j f1) as (f2 & s2 & Hrun2 & Hinv2 & Ht2 & Hd2); [done|by apply list_lookup_insert_eq, (lookup_lt_Some _ _ _ Hj)|done|lia| |].
  { rewrite Em, (mi_free _ _ Hinv1), (total_insert F j f) by done. rewrite (mi_free _ _ Hinv) in Hroom. lia. }
  exists f2, s2. split_and!; [| |congruence|].
  - change (copy_reads (1 + Z.of_nat j) (buf :: reads)) with (iappend (1 + Z.of_nat j) buf;; copy_reads (1 + Z.of_nat j) reads).
    by rewrite (bind_eq _ _ _ _ _ Hrun1).
  - by rewrite list_insert_insert_eq in Hinv2.
  - rewrite Hd2, Hd1. by rewrite <- app_assoc.
Qed.

Definition rlen (f : mfile) : Z := Z.of_nat (length (f_data f)).

Lemma add_file_run s root G f :
  mkinv s (root :: G) -> hf_ok f -> Z.of_nat (length G) < 206 -> rlen root + 16 <= 268 * 1024 ->
  freeblock s + cost (nblk (rlen root + 16)) - cost (nblk (rlen root)) + cost (nblk (Z.of_nat (length (hf_data f)))) <= FSSIZE ->
  exists root' nf s', add_file ROOTINO f s = Ret () s' /\ mkinv s' (root' :: G ++ [nf]) /\
    f_type root' = f_type root /\ f_data root' = f_data root ++ entry_of (2 + Z.of_nat (length G)) f /\ f_type nf = T_FILE /\ f_data nf = hf_data f.
Proof.
  intros Hinv Hf HG Hr Hroom. destruct (hk_open f Hf) as [reads Hreads]. set (new := mkmfile T_FILE [] [] 0). set (n := length G) in *.
  destruct (ialloc_run s (root :: G) T_FILE Hinv) as (s1 & Hrun1 & Hinv1); [cbn [length]; fold n; lia|by right|]. fold new in Hinv1. cbn [length] in Hrun1. fold n in Hrun1.
  assert (freeblock s1 = freeblock s) as Hfb1.
  { rewrite (mi_free _ _ Hinv1), (mi_free _ _ Hinv), files_total_app. change (cost (f_nblk new)) with 0. lia. }
  set (inum := 2 + Z.of_nat n). replace (1 + Z.of_nat (S n)) with inum in Hrun1 by (unfold inum; lia).
  destruct (entry_ok inum f Hf) as [Hent Hel].
  assert (0 <= cost (nblk (Z.of_nat (length (hf_data f))))) as Hc0 by (pose proof (cost_mono 0 (nblk (Z.of_nat (length (hf_data f)))) ltac:(unfold nblk; dlia)); change (cost 0) with 0 in *; lia).
  assert (((root :: G) ++ [new]) !! 0%nat = Some root) as H0 by done.
  destruct (iappend_run s1 _ 0 root (entry_of inum f) Hinv1 H0 Hent) as (root' & s2 & Hrun2 & Hinv2 & Ht2 & Hd2); rewrite ?Hel; fold (rlen root); change (Z.of_nat 16) with 16; [done|rewrite Hfb1; unfold f_nblk; fold (rlen root); lia|].
  change (<[0%nat := root']> ((root :: G) ++ [new])) with (root' :: G ++ [new]) in Hinv2.
  assert ((root' :: G ++ [new]) !! S n = Some new) as Hn by (change ((G ++ [new]) !! n = Some new); unfold n; by rewrite lookup_app_r, Nat.sub_diag by lia).
  assert (hf_data f = reads_data reads) as Ed by (unfold hf_data; by rewrite Hreads). rewrite Ed in *.
  destruct (copy_reads_run reads s2 _ (S n) new Hinv2 Hn) as (nf & s3 & Hrun3 & Hinv3 & Ht3 & Hd3).
  { pose proof (hk_bytes f Hf) as Hb. by rewrite Ed in Hb. }
  { cbn [new f_data length]. pose proof (hk_size f Hf) as Hs. rewrite Ed in Hs. lia. }
  { cbn [new f_data length]. change (cost (f_nblk new)) with 0. rewrite Z.add_0_l. rewrite (mi_free _ _ Hinv2).
    change (total (root' :: G ++ [new])) with (cost (f_nblk root') + total (G ++ [new])). rewrite files_total_app. change (cost (f_nblk new)) with 0.
    rewrite (mi_free _ _ Hinv) in Hroom. change (total (root :: G)) with (cost (f_nblk root) + total G) in Hroom. unfold f_nblk in *. rewrite Hd2, length_app, Hel.
    fold (rlen root) in *. replace (Z.of_nat (length (f_data root) + 16)) with (rlen root + 16) by (unfold rlen; lia). lia. }
  exists root', nf, s3. split_and!; [| |done|done|done|done].
  - unfold add_file. cbv zeta. rewrite (hk_slash f Hf), Hreads. erewrite bind_eq by exact Hrun1. cbv beta.
    change (Z.to_nat DIRSIZ) with 14%nat. fold (hf_name f) (entry_of inum f). change ROOTINO with (1 + Z.of_nat 0). erewrite bind_eq by exact Hrun2. cbv beta.
    replace inum with (1 + Z.of_nat (S n)) by (unfold inum; lia). exact Hrun3.
  - change (<[S n := nf]> (root' :: G ++ [new])) with (root' :: <[n := nf]> (G ++ [new])) in Hinv3.
    rewrite insert_app_r_alt in Hinv3 by (unfold n; lia). unfold n in Hinv3. by rewrite Nat.sub_diag in Hinv3.
Qed.

Definition total_data (fs : list hostfile) : Z := foldr (fun f n => cost (nblk (Z.of_nat (length (hf_data f)))) + n) 0 fs.

Lemma cost_nblk_pos n : 0 <= n -> 0 <= cost (nblk n).
Proof. intros H. pose proof (cost_mono 0 (nblk n) ltac:(unfold nblk; dlia)) as Hc. by change (cost 0) with 0 in Hc. Qed.

Lemma total_data_pos fs : 0 <= total_data fs.
Proof. induction fs as [|f fs IH]; [done|]. cbn. pose proof (cost_nblk_pos (Z.of_nat (length (hf_data f))) ltac:(lia)). unfold total_data in IH. lia. Qed.

Lemma add_files_run fs : forall s root G,
  mkinv s (root :: G) -> Forall hf_ok fs -> Z.of_nat (length G) + Z.of_nat (length fs) <= 206 -> rlen root + 16 * Z.of_nat (length fs) <= 268 * 1024 ->
  freeblock s + cost (nblk (rlen root + 16 * Z.of_nat (length fs))) - cost (nblk (rlen root)) + total_data fs <= FSSIZE ->
  exists root' nfs s', add_files ROOTINO fs s = Ret () s' /\ mkinv s' (root' :: G ++ nfs) /\ f_type root' = f_type root /\
    f_data root' = f_data root ++ entries (2 + Z.of_nat (length G)) fs /\ Forall2 (fun f nf => f_type nf = T_FILE /\ f_data nf = hf_data f) fs nfs.
Proof.
  induction fs as [|f fs IH]; intros s root G Hinv Hfs HG Hr Hroom.
  { exists root, [], s. rewrite !app_nil_r. by split_and!. }
  apply Forall_cons in Hfs as [Hf Hfs]. cbn [length] in *. change (total_data (f :: fs)) with (cost (nblk (Z.of_nat (length (hf_data f)))) + total_data fs) in Hroom.
  pose proof (total_data_pos fs). assert (nblk (rlen root + 16) <= nblk (rlen root + 16 * Z.of_nat (S (length fs)))) as Hle by (apply nblk_mono; lia).
  pose proof (cost_mono _ _ Hle).
  destruct (add_file_run s root G f Hinv Hf) as (r1 & nf & s1 & Hrun1 & Hinv1 & Ht1 & Hd1 & Htn & Hdn); [lia|lia|lia|].
  destruct (entry_ok (2 + Z.of_nat (length G)) f Hf) as [_ Hel].
  assert (rlen r1 = rlen root + 16) as Er by (unfold rlen; rewrite Hd1, length_app, Hel; lia).
  assert (freeblock s1 = freeblock s + cost (nblk (rlen root + 16)) - cost (nblk (rlen root)) + cost (nblk (Z.of_nat (length (hf_data f))))) as Efb.
  { rewrite (mi_free _ _ Hinv1), (mi_free _ _ Hinv). change (total (r1 :: G ++ [nf])) with (cost (f_nblk r1) + total (G ++ [nf])).
    change (total (root :: G)) with (cost (f_nblk root) + total G). rewrite files_total_app. unfold f_nblk. fold (rlen r1) (rlen root). rewrite Er, Hdn. lia. }
  destruct (IH s1 r1 (G ++ [nf]) Hinv1 Hfs) as (r2 & nfs & s2 & Hrun2 & Hinv2 & Ht2 & Hd2 & Hall); rewrite ?length_app; cbn [length]; rewrite ?Er; [lia|lia| |].
  { replace (rlen root + 16 + 16 * Z.of_nat (length fs)) with (rlen root + 16 * Z.of_nat (S (length fs))) by lia. lia. }
  exists r2, (nf :: nfs), s2. split_and!.
  - cbn [add_files]. by rewrite (bind_eq _ _ _ _ _ Hrun1).
  - by rewrite <- app_assoc in Hinv2.
  - congruence.
  - rewrite Hd2, Hd1, length_app, <- app_assoc. cbn [entries length]. do 3 f_equal. lia.
  - by constructor.
Qed.

(** ** The beginning and the end of main *)

Lemma wzeroes_run n : forall s, Z.of_nat (length (fsimg s)) + Z.of_nat n <= FSSIZE ->
  wzeroes (Z.of_nat (length (fsimg s))) n s = Ret () (set_fsimg (fsimg s ++ replicate n zeroes) s).
Proof.
  induction n as [|n IH]; intros s Hs; cbn [wzeroes].
  - rewrite app_nil_r. by destruct s.
  - set (i := length (fsimg s)) in *. set (s1 := set_fsimg (fsimg s ++ [zeroes]) s).
    assert (wsect (Z.of_nat i) zeroes s = Ret () s1) as E.
    { unfold wsect, modify. rewrite sector_eq by (unfold on_disk; lia). rewrite Nat2Z.id. fold i. rewrite Nat.ltb_irrefl, Nat.sub_diag. done. }
    rewrite (bind_eq _ _ _ _ _ E). assert (length (fsimg s1) = S i) as El by (cbn [s1 set_fsimg fsimg]; rewrite length_app; simpl; lia).
    replace (Z.of_nat i + 1) with (Z.of_nat (length (fsimg s1))) by lia. rewrite IH by lia. cbn [s1 set_fsimg fsimg]. by rewrite <- app_assoc.
Qed.

Lemma sb_block_ok : is_block (splice 0 (sb_bytes sb) zeroes).
Proof.
  apply is_block_splice; [apply zeroes_block| |done|vm_compute; discriminate]. unfold sb_bytes, bytes. apply Forall_bind, Forall_forall. intros v _. by apply bytes_le.
Qed.

(** After the zeros and the superblock. *)
Definition mkfs1 : mkfs := mkmkfs (<[1%nat := splice 0 (sb_bytes sb) zeroes]> (replicate 1000 zeroes)) 1 nmeta.

Lemma blk_mkfs1 b : 0 <= b < FSSIZE -> b <> 1 -> blk mkfs1 b = zeroes.
Proof.
  intros Hb Hn. unfold blk, mkfs1. cbn [fsimg]. rewrite list_lookup_insert_ne by lia. unfold FSSIZE in Hb. by rewrite lookup_replicate_2 by lia.
Qed.

Lemma mkinv_start : mkinv mkfs1 [].
Proof.
  assert (blk mkfs1 1 = splice 0 (sb_bytes sb) zeroes) as E1.
  { unfold blk, mkfs1. cbn [fsimg]. by rewrite list_lookup_insert_eq by (rewrite length_replicate; lia). }
  split; try done.
  - split; [split| |].
    + unfold mkfs1. cbn [fsimg]. by rewrite length_insert, length_replicate.
    + intros b Hb. destruct (decide (b = 1)) as [-> |]; [rewrite E1; apply sb_block_ok|]. rewrite blk_mkfs1 by done. apply zeroes_block.
    + vm_compute. split; congruence.
    + intros b Hb. change (freeblock mkfs1) with 46 in Hb. apply blk_mkfs1; lia.
Qed.

Lemma start_run {A} (rest : M mkfs A) :
  (modify (set_freeblock nmeta);; wzeroes 0 (Z.to_nat FSSIZE);; wsect 1 (splice 0 (sb_bytes sb) zeroes);; rest) mkfs0 = rest mkfs1.
Proof.
  kpure. set (s := set_freeblock nmeta mkfs0). pose proof (wzeroes_run 1000 s) as E. change (Z.of_nat (length (fsimg s))) with 0 in E.
  change (fsimg s ++ replicate 1000 zeroes) with (replicate 1000 zeroes) in E. rewrite (bind_eq _ _ _ _ _ (E ltac:(done))).
  assert (wsect 1 (splice 0 (sb_bytes sb) zeroes) (set_fsimg (replicate 1000 zeroes) s) = Ret () mkfs1) as E1; [|by rewrite (bind_eq _ _ _ _ _ E1)].
  unfold wsect, modify. cbv zeta. change (sector 1) with 1%nat. cbn [set_fsimg fsimg]. rewrite length_replicate. reflexivity.
Qed.

(** The size of the root directory goes up to the end of its last block. *)
Lemma fix_root_run s root G :
  mkinv s (root :: G) -> rlen root mod 1024 <> 0 -> rlen root <= 268 * 1024 ->
  exists root' s', fix_root_size ROOTINO s = Ret () s' /\ mkinv s' (root' :: G) /\ f_type root' = f_type root /\
    f_data root' = f_data root ++ replicate (Z.to_nat (1024 * nblk (rlen root) - rlen root)) 0.
Proof.
  intros Hinv Hmod Hmax. assert ((root :: G) !! 0%nat = Some root) as H0 by done. pose proof (mi_inum _ _ _ _ Hinv H0) as Hin.
  destruct (mi_file _ _ Hinv 0%nat root H0) as [Hh Hsz Hnb]. change (1 + Z.of_nat 0) with ROOTINO in *. pose proof Hh as [Hr Hhd [D1 D2 D3 D4 D5 D6 D7 D8 D9] Hown].
  set (nb := nblk (rlen root)) in *. assert (nb = rlen root / 1024 + 1 /\ 0 <= rlen root) as [Enb Hr0] by (unfold nb, nblk, rlen in *; dlia).
  fold (rlen root) in Hsz. unfold f_nblk in Hnb. fold (rlen root) nb in Hnb.
  set (data := f_data root ++ replicate (Z.to_nat (1024 * nb - rlen root)) 0). set (root' := mkmfile (f_type root) data (f_blocks root) (f_ind root)).
  assert (rlen root' = 1024 * nb) as El by (unfold rlen, root', data; cbn [f_data]; rewrite length_app, length_replicate; fold (rlen root); unfold rlen in *; dlia).
  set (di := wr 4 8 (1024 * nb) (dinode_at s ROOTINO)). assert (0 <= 1024 * nb < 2 ^ 32) as Hb by dlia.
  assert (nblk (1024 * nb) = nb) as Enn by (unfold nblk; dlia).
  exists root', (put_inode ROOTINO di s). split_and!; [| |done|done].
  - unfold fix_root_size. erewrite bind_eq by (apply rinode_eq; [apply Hr|done]). cbv beta zeta. rewrite xint_rd, Hsz by done.
    change BSIZE with 1024. rewrite <- Enb. rewrite u32_small, xint_small by lia. rewrite (Z.mul_comm nb). apply winode_eq; [apply Hr|done].
  - apply (mkinv_update s s (root :: G) 0 root root' di Hinv H0).
    + apply grows_refl.
    + split; [done|unfold di; rewrite take8_wr by lia; exact Hhd| |done].
      apply (file_ok_di _ (dinode_at s ROOTINO)); [|unfold di; rewrite length_wr; lia|by apply bytes_wr|intros k Hk; unfold di; apply rd_wr_ne; lia].
      cbn [root' f_blocks f_ind f_data]. assert (length data = (1024 * length (f_blocks root))%nat) as Ld by (unfold rlen, root' in El; cbn [f_data] in El; lia).
      split; try done; [lia|]. rewrite D9, Ld, Nat.sub_diag. cbn [replicate]. rewrite app_nil_r. unfold data. do 2 f_equal. unfold rlen in *. lia.
    + unfold di. rewrite rd_wr_eq by lia. exact (eq_sym El).
    + unfold f_nblk. fold (rlen root'). rewrite El, Enn. exact Hnb.
    + unfold f_nblk. fold (rlen root') (rlen root). rewrite El, Enn. fold nb. lia.
Qed.

Lemma mk_bitmap_bits n b : 0 <= n < 8192 -> 0 <= b < 8192 -> is_block (mk_bitmap n) /\ bm_bit (mk_bitmap n) b = (b <? n).
Proof.
  intros Hn Hb. unfold mk_bitmap. rewrite <- (Z2Nat.id n) by lia. assert (Z.of_nat (Z.to_nat n) <= 8192) as Hle by lia. revert Hle.
  generalize (Z.to_nat n). clear n Hn. intros n. induction n as [|n IH]; intros Hn.
  - change (foldl _ zeroes (seqZ 0 (Z.of_nat 0))) with zeroes. split; [apply zeroes_block|].
    rewrite (proj2 (Z.ltb_ge b _)) by lia. unfold bm_bit, byte_at, zeroes. rewrite rd_zero. apply Z.bits_0.
  - rewrite Nat2Z.inj_succ, <- Z.add_1_r, seqZ_app, foldl_app by lia. destruct IH as [IH1 IH2]; [lia|]. set (d := foldl _ zeroes (seqZ 0 (Z.of_nat n))) in *.
    change (foldl _ d (seqZ (0 + Z.of_nat n) 1)) with (bm_set (Z.of_nat n) d). split.
    + apply is_block_wr; [done|]. unfold BSIZE. dlia.
    + rewrite bm_bit_set by (done || unfold BPB, BSIZE; lia). case_decide as E; [subst; symmetry; apply Z.ltb_lt; lia|]. rewrite IH2.
      destruct (Z.ltb_spec b (Z.of_nat n)), (Z.ltb_spec b (Z.of_nat n + 1)); (done || lia).
Qed.

(** Writing the free map changes no file. *)
Lemma mk_balloc_run s F :
  mkinv s F -> exists s', mk_balloc (freeblock s) s = Ret () s' /\ mkinv s' F /\ freeblock s' = freeblock s /\
    forall b, on_disk b -> in_use sb (blk s') b = (b <? freeblock s).
Proof.
  intros [Hr Hsb Hfi Hmax Hfile Hdisj Hfree]. pose proof (ro_free s Hr) as Hf. change nmeta with 46 in Hf. unfold FSSIZE in Hf.
  pose proof (ro_img s Hr) as Hi. set (d := mk_bitmap (freeblock s)). assert (is_block d) as Hd by (by apply (mk_bitmap_bits _ 0); lia).
  set (s' := put_blk 45 d s). assert (on_disk 45) as H45 by (unfold on_disk, FSSIZE; lia).
  assert (forall b, 0 <= b -> b <> 45 -> blk s' b = blk s b) as Hblk by (intros b Hb Hn; unfold s'; rewrite blk_put by done; by rewrite decide_False).
  assert (room_ok s') as Hr'.
  { split; [by apply img_ok_put|exact (ro_free s Hr)|]. intros b Hb. rewrite Hblk by (cbn in Hb; lia). by apply (ro_zero s Hr). }
  exists s'. split_and!.
  - unfold mk_balloc. rewrite (proj2 (Z.ltb_lt (freeblock s) (BSIZE * 8))) by (unfold BSIZE; lia). cbn [negb]. by apply wsect_eq.
  - split; try done; [by rewrite Hblk by lia|]. intros j f Hj. pose proof (Hfile j f Hj) as Hs.
    assert (inum_ok (1 + Z.of_nat j)) as Hin by (unfold inum_ok; apply lookup_lt_Some in Hj; lia). destruct (iblock_range _ Hin) as (B & _).
    apply (stored_ext s); [done|done|cbn; lia|unfold dinode_at; by rewrite Hblk by lia|].
    intros b Hb. destruct Hs as [[_ _ _ [_ Hl]] _ _]. rewrite Forall_forall in Hl. apply Hl in Hb. change nmeta with 46 in Hb. apply Hblk; lia.
  - done.
  - intros b Hb. unfold on_disk, FSSIZE in Hb. unfold in_use, BBLOCK. change (sb_bmapstart sb) with 45. change BPB with 8192.
    rewrite Z.div_small, Z.mod_small, u32_small by lia. unfold s'. rewrite blk_put, decide_True by (done || lia). apply mk_bitmap_bits; lia.
Qed.
