(* ===== verification/MkfsBoot.v ===== *)
(** * The kernel's view of a new disk

    The image of [mkfs] read with the kernel's own definitions: [readsb] for
    the superblock, [ilock] for an inode, [bmap] and [readi] for the content
    of a file and the bits of [balloc] for the free blocks. *)

From S2P Require Import Prelude Riscv Monad State Kstring Bytes Printf Kalloc Vm VmInv VmMap Uspace VmFree VmCopy VmProps Proc ProcInv Sleeplock Umem Dlist Bio BioInv BioSpec BioClient Log LogInv LogProps Fs Dir DirProps FsTx FsProps FsRead Mkfs MkfsProps.
#[local] Open Scope Z_scope.

(** What [ilock] puts in the in-memory inode [ip] for inode [inum]. *)
Definition kinode (V : Z -> list Z) (sb : superblock) (ip : inode) (inum : Z) : inode :=
  get_dinode (di_off inum) (V (IBLOCK inum sb)) ip.

(** Through inode [i] the kernel reads [data], from allocated blocks below
    [used]. *)
Record reads_as (V : Z -> list Z) (used : Z) (i : inode) (data : list Z) : Prop := {
  ra_size : i_size i = Z.of_nat (length data);
  ra_mapped : forall o, 0 <= o < i_size i -> mapped i V (o / BSIZE) /\ nmeta <= baddr i V (o / BSIZE) < used;
  ra_content : content i V 0 (i_size i) = data
}.

(** A place of inode [i] for a block: a block of the content, or the block of
    indirect addresses of a file that has more than the direct ones. *)
Inductive place := DataBlock (bn : Z) | IndirectBlock.

Definition block_at (V : Z -> list Z) (i : inode) (x : place) (b : Z) : Prop :=
  match x with
  | DataBlock bn => 0 <= bn /\ bn * BSIZE < i_size i /\ baddr i V bn = b
  | IndirectBlock => NDIRECT * BSIZE < i_size i /\ addr_at NDIRECT i = b
  end.

Lemma slice_slice o a n d :
  0 <= o -> 0 <= a -> 0 <= n -> a + n <= 64 -> slice a n (slice o 64 d) = slice (o + a) n d.
Proof.
  intros Ho Ha Hn Hle. unfold slice. rewrite !take_drop_commute, take_take, drop_drop. f_equal; [lia|]. f_equal. lia.
Qed.

Section view.
Context (s : mkfs) (inum : Z) (f : mfile) (ip : inode).
Context (Hin : inum_ok inum) (Hst : stored s inum f).

Let i : inode := kinode (blk s) sb ip inum.

Lemma rd_field n a : 0 <= n -> 0 <= a -> a + n <= 64 -> rd n (di_off inum + a) (blk s (IBLOCK inum sb)) = rd n a (dinode_at s inum).
Proof.
  intros Hn Ha Hle. rewrite IBLOCK_sb by done. unfold rd, dinode_at. rewrite slice_slice by (done || by apply iblock_range). done.
Qed.

Lemma rd_head n a : 0 <= n -> 0 <= a -> a + n <= 8 -> rd n a (dinode_at s inum) = rd n a (head_of (f_type f)).
Proof.
  intros Hn Ha Hle. destruct Hst as [[_ Hhd _ _] _ _]. rewrite <- Hhd. unfold rd, slice. f_equal. rewrite !take_drop_commute, take_take. do 2 f_equal. lia.
Qed.

Lemma view_size : i_size i = Z.of_nat (length (f_data f)).
Proof. unfold i, kinode. cbn. unfold di_size. rewrite rd_field by lia. apply Hst. Qed.

Lemma view_addr k : 0 <= k <= 12 -> addr_at k i = rd 4 (12 + 4 * k) (dinode_at s inum).
Proof.
  intros Hk. unfold addr_at, i, kinode. cbn [get_dinode set_i_addrs i_addrs]. unfold di_addrs. change (NDIRECT + 1) with 13.
  rewrite list_lookup_fmap, lookup_seqZ_lt by lia. cbn. rewrite <- (rd_field 4) by lia. f_equal. lia.
Qed.

Lemma view_baddr bn b : 0 <= bn -> f_blocks f !! Z.to_nat bn = Some b -> baddr i (blk s) bn = b /\ mapped i (blk s) bn.
Proof.
  intros Hbn Hb. destruct Hst as [[Hr _ [D1 D2 D3 D4 D5 D6 D7 D8 D9] [_ Hl]] _ _]. pose proof (lookup_lt_Some _ _ _ Hb) as Hlt. rewrite Forall_forall in Hl.
  assert (0 < b) as Hb0. { destruct (room_own s b Hr) as [_ ?]; [|lia]. apply Hl, elem_of_owned. right. by eapply list_elem_of_lookup_2. }
  assert (addr_at NDIRECT i = f_ind f) as Ei by (rewrite view_addr by (change NDIRECT with 12; lia); exact D4).
  assert (12 <= bn -> f_ind f <> 0) as Hi0 by (intros Hge E; apply D5 in E; lia).
  assert (baddr i (blk s) bn = b) as E.
  { unfold baddr. rewrite Ei. change NDIRECT with 12. destruct (Z.ltb_spec bn 12).
    - by rewrite view_addr, D3, Hb by lia.
    - by rewrite D6, Hb by (lia || by apply Hi0). }
  split; [done|]. split; [change MAXFILE with 268; lia|]. rewrite E, Ei. split; [lia|exact Hi0].
Qed.

Lemma lookup_blocks l : forall q (r : nat) b, (forall b, b ∈ l -> length (blk s b) = 1024%nat) -> l !! q = Some b -> (r < 1024)%nat ->
  mjoin (blk s <$> l) !! (1024 * q + r)%nat = blk s b !! r.
Proof.
  induction l as [|b0 l IH]; intros q r b Hl Hq Hr; [done|]. rewrite fmap_cons. cbn [mjoin list_join].
  assert (length (blk s b0) = 1024%nat) as L0 by apply Hl, list_elem_of_here. destruct q as [|q].
  - injection Hq as ->. rewrite Nat.mul_0_r, Nat.add_0_l. by rewrite lookup_app_l by lia.
  - rewrite lookup_app_r by lia. rewrite <- (IH q r b); [|intros; by apply Hl, list_elem_of_further|done|done].
    f_equal. lia.
Qed.

(** The block of an offset in the file. *)
Lemma view_block o : 0 <= o < Z.of_nat (length (f_data f)) -> exists b, f_blocks f !! Z.to_nat (o / 1024) = Some b.
Proof.
  intros Ho. destruct Hst as [_ _ Hnb]. unfold f_nblk, nblk in Hnb. apply lookup_lt_is_Some_2. dlia.
Qed.

(** A block at a place is one of the file's own. *)
Lemma view_block_at x b :
  block_at (blk s) i x b ->
  b ∈ f_own f /\ match x with DataBlock bn => 0 <= bn /\ f_blocks f !! Z.to_nat bn = Some b | IndirectBlock => b = f_ind f /\ f_ind f <> 0 end.
Proof.
  unfold f_own. rewrite elem_of_owned. destruct x as [bn|]; cbn [block_at]; rewrite view_size; change BSIZE with 1024; change NDIRECT with 12.
  - intros (H0 & Hlt & <-). destruct (view_block (bn * 1024)) as [b Hb]; [lia|]. rewrite Z.div_mul in Hb by lia.
    destruct (view_baddr bn b H0 Hb) as [-> _]. split; [right; by eapply list_elem_of_lookup_2|done].
  - intros (Hlt & <-). pose proof Hst as [[_ _ [D1 D2 D3 D4 D5 D6 D7 D8 D9] _] _ Hnb]. rewrite view_addr by lia.
    change (12 + 4 * 12) with 60. rewrite D4. assert (f_ind f <> 0) by (intros E%D5; unfold f_nblk, nblk in Hnb; dlia). auto.
Qed.

(** No block is at two places. *)
Lemma view_places x y b : block_at (blk s) i x b -> block_at (blk s) i y b -> x = y.
Proof.
  intros [_ Hx]%view_block_at [_ Hy]%view_block_at. destruct Hst as [[_ _ _ [Hnd _]] _ _]. unfold owned in Hnd.
  apply NoDup_app in Hnd as (_ & Hdis & Hnd). destruct x as [bn|], y as [bm|]; [| | |done].
  - destruct Hx as [? Hx], Hy as [? Hy]. f_equal. pose proof (NoDup_lookup _ _ _ _ Hnd Hx Hy). lia.
  - destruct Hx as [_ Hx], Hy as [-> Hi]. rewrite decide_False in Hdis by done.
    destruct (Hdis (f_ind f)); [apply list_elem_of_here|by eapply list_elem_of_lookup_2].
  - destruct Hy as [_ Hy], Hx as [-> Hi]. rewrite decide_False in Hdis by done.
    destruct (Hdis (f_ind f)); [apply list_elem_of_here|by eapply list_elem_of_lookup_2].
Qed.

Lemma view_place_range x b : block_at (blk s) i x b -> nmeta <= b < freeblock s.
Proof. intros [Hb _]%view_block_at. destruct Hst as [[_ _ _ [_ Hl]] _ _]. rewrite Forall_forall in Hl. by apply Hl. Qed.

Lemma view_reads : reads_as (blk s) (freeblock s) i (f_data f).
Proof.
  pose proof view_size as Es. pose proof Hst as [[Hr _ [D1 D2 D3 D4 D5 D6 D7 D8 D9] [_ Hl]] _ _]. rewrite Forall_forall in Hl.
  split; [done| |]; change BSIZE with 1024.
  - intros o Ho. rewrite Es in Ho. destruct (view_block o Ho) as [b Hb]. destruct (view_baddr (o / 1024) b ltac:(dlia) Hb) as [-> Hm].
    split; [done|]. apply Hl, elem_of_owned. right. by eapply list_elem_of_lookup_2.
  - apply list_eq. intros k. rewrite Es. destruct (decide (k < length (f_data f))%nat) as [Hk|Hk].
    2: { rewrite !lookup_ge_None_2; [done|lia|]. rewrite length_content. lia. }
    unfold content. rewrite list_lookup_fmap, lookup_seqZ_lt by lia. cbn [fmap option_fmap option_map]. rewrite Z.add_0_l. unfold fbyte. change BSIZE with 1024.
    set (o := Z.of_nat k). destruct (view_block o ltac:(unfold o; lia)) as [b Hb]. destruct (view_baddr (o / 1024) b ltac:(unfold o; dlia) Hb) as [-> _].
    assert (forall b, b ∈ f_blocks f -> length (blk s b) = 1024%nat) as Hbl.
    { intros b' Hb'. destruct (room_own s b' Hr) as [Hon _]; [apply Hl, elem_of_owned; by right|]. by apply (io_blk s (ro_img s Hr)) in Hon as [? _]. }
    pose proof (lookup_blocks (f_blocks f) (Z.to_nat (o / 1024)) (Z.to_nat (o mod 1024)) b Hbl Hb ltac:(unfold o; dlia)) as E.
    replace (1024 * Z.to_nat (o / 1024) + Z.to_nat (o mod 1024))%nat with k in E by (unfold o; dlia).
    rewrite D9, lookup_app_l in E by done. rewrite <- E. destruct (lookup_lt_is_Some_2 _ _ Hk) as [x ->]. done.
Qed.

Lemma view_head : f_type f = T_DIR \/ f_type f = T_FILE -> i_type i = f_type f /\ i_nlink i = 1.
Proof.
  intros Ht. unfold i, kinode. cbn [get_dinode set_i_addrs set_i_size set_i_nlink set_i_minor set_i_major set_i_type i_type i_nlink]. unfold di_type, di_nlink, rd16s.
  rewrite <- (Z.add_0_r (di_off inum)) at 1. rewrite !rd_field, !rd_head by lia. destruct Ht as [-> | ->]; split; vm_compute; reflexivity.
Qed.

End view.

(** ** The whole image *)

Definition dots : list Z := mk_dirent ROOTINO (str "." ++ [0]) ++ mk_dirent ROOTINO (str ".." ++ [0]).

(** The root directory, to the end of its last block. *)
Definition root_dir (fs : list hostfile) : list Z :=
  let d := dots ++ entries 2 fs in
  d ++ replicate (Z.to_nat (1024 * nblk (Z.of_nat (length d)) - Z.of_nat (length d))) 0.

(** The files that fit on the disk: with the root directory they need no more
    than the data blocks. *)
Definition fits_disk (fs : list hostfile) : Prop :=
  Z.of_nat (length fs) <= NINODES - 2 /\ cost (nblk (16 * (2 + Z.of_nat (length fs)))) + total_data fs <= nblocks.

(** The root directory with its first two entries. *)
Lemma root_run :
  exists root s, (forall A (rest : Z -> M mkfs A), (rootino ← mk_ialloc T_DIR;
      if negb (rootino =? ROOTINO) then panic "rootino == ROOTINO"
      else iappend rootino (mk_dirent rootino (str "." ++ [0]));; iappend rootino (mk_dirent rootino (str ".." ++ [0]));; rest rootino) mkfs1 = rest ROOTINO s) /\
    mkinv s [root] /\ f_type root = T_DIR /\ f_data root = dots.
Proof.
  destruct (ialloc_run mkfs1 [] T_DIR mkinv_start) as (s1 & Hrun1 & Hinv1); [done|by left|]. cbn [app] in Hinv1.
  destruct (dirent_ok ROOTINO (str "." ++ [0])) as [Hb1 Hl1]; [apply (bool_decide_unpack _); vm_compute; exact I|simpl; lia|].
  destruct (dirent_ok ROOTINO (str ".." ++ [0])) as [Hb2 Hl2]; [apply (bool_decide_unpack _); vm_compute; exact I|simpl; lia|].
  set (r0 := mkmfile T_DIR [] [] 0) in *. assert ([r0] !! 0%nat = Some r0) as H0 by done.
  destruct (iappend_run s1 [r0] 0 r0 _ Hinv1 H0 Hb1) as (r1 & s2 & Hrun2 & Hinv2 & Ht2 & Hd2); [rewrite Hl1; vm_compute; congruence| |].
  { rewrite Hl1, (mi_free _ _ Hinv1). vm_compute. congruence. }
  change (<[0%nat := r1]> [r0]) with [r1] in Hinv2. assert ([r1] !! 0%nat = Some r1) as H1 by done. cbn [r0 f_data app] in Hd2.
  destruct (iappend_run s2 [r1] 0 r1 _ Hinv2 H1 Hb2) as (r2 & s3 & Hrun3 & Hinv3 & Ht3 & Hd3); [rewrite Hd2, Hl1, Hl2; vm_compute; congruence| |].
  { rewrite (mi_free _ _ Hinv2). unfold total, f_nblk. cbn [foldr]. rewrite Hd2, Hl1, Hl2. vm_compute. congruence. }
  exists r2, s3. split_and!; [|exact Hinv3|rewrite Ht3, Ht2; done|rewrite Hd3, Hd2; done].
  intros A rest. erewrite bind_eq by exact Hrun1. cbv beta. change (negb (_ =? ROOTINO)) with false. cbv iota. change (1 + Z.of_nat (length [])) with ROOTINO.
  change (1 + Z.of_nat 0) with ROOTINO in Hrun2, Hrun3. by rewrite (bind_eq _ _ _ _ _ Hrun2), (bind_eq _ _ _ _ _ Hrun3).
Qed.

Lemma mkfs_run fs :
  Forall hf_ok fs -> fits_disk fs -> (2 + Z.of_nat (length fs)) mod 64 <> 0 ->
  exists root nfs s, mkfs_main fs mkfs0 = Ret () s /\ mkinv s (root :: nfs) /\ f_type root = T_DIR /\ f_data root = root_dir fs /\
    Forall2 (fun f nf => f_type nf = T_FILE /\ f_data nf = hf_data f) fs nfs /\
    forall b, on_disk b -> in_use sb (blk s) b = (b <? freeblock s).
Proof.
  intros Hfs [Hn Hfit] Hmod. change (NINODES - 2) with 198 in Hn. change nblocks with 954 in Hfit.
  destruct root_run as (r1 & s1 & Hrun1 & Hinv1 & Ht1 & Hd1). assert (rlen r1 = 32) as Hr1 by (unfold rlen; by rewrite Hd1).
  destruct (add_files_run fs s1 r1 [] Hinv1 Hfs) as (r2 & nfs & s2 & Hrun2 & Hinv2 & Ht2 & Hd2 & Hall); [cbn [length]; lia|lia| |].
  { rewrite (mi_free _ _ Hinv1). unfold total, f_nblk. cbn [foldr]. fold (rlen r1). rewrite Hr1.
    replace (32 + 16 * Z.of_nat (length fs)) with (16 * (2 + Z.of_nat (length fs))) by lia. change nmeta with 46. unfold FSSIZE. lia. }
  cbn [app length] in Hinv2, Hd2. change (2 + Z.of_nat 0) with 2 in Hd2.
  assert (rlen r2 = 16 * (2 + Z.of_nat (length fs))) as Hr2 by (unfold rlen; rewrite Hd2, length_app, Nat2Z.inj_add, length_entries by done; fold (rlen r1); lia).
  destruct (fix_root_run s2 r2 nfs Hinv2) as (r3 & s3 & Hrun3 & Hinv3 & Ht3 & Hd3); [rewrite Hr2; dlia|lia|].
  destruct (mk_balloc_run s3 _ Hinv3) as (s4 & Hrun4 & Hinv4 & Hfb & Hbits).
  exists r3, nfs, s4. split; [|split; [exact Hinv4|split; [congruence|split; [|split; [exact Hall|intros b Hb; rewrite Hfb; by apply Hbits]]]]].
  - unfold mkfs_main. rewrite start_run, Hrun1. rewrite (bind_eq _ _ _ _ _ Hrun2), (bind_eq _ _ _ _ _ Hrun3). kpure. exact Hrun4.
  - rewrite Hd3, Hd2, Hd1. unfold root_dir. cbv zeta. rewrite <- Hd1, <- Hd2. done.
Qed.

(** The superblock as [readsb] reads it. *)
Definition new_sb : superblock := mksuperblock FSMAGIC 1000 954 200 30 2 32 45.

Lemma readsb_new : sb_of_bytes (splice 0 (sb_bytes sb) zeroes) = new_sb /\ sb = new_sb.
Proof. split; vm_compute; reflexivity. Qed.

(** C13: The kernel reads what mkfs wrote. For files that fit on the disk,
    [mkfs] ends without an error, and on its image the kernel finds: the
    superblock; every file, with its type, one link, its size, blocks that
    are allocated and in range, and through [bmap] exactly the bytes that
    were read from the host; the root directory with [.], [..] and the names
    of the files and then free entries; in the free map exactly the blocks
    below the first unused one, among them every block of a file; and no block
    in two places, whether it holds the content of a file or the addresses of
    its blocks. (The number of entries of the root directory must not be a
    multiple of 64: then its last block has no address.) *)
Theorem kernel_reads_mkfs_image fs ip :
  Forall hf_ok fs -> fits_disk fs -> (2 + Z.of_nat (length fs)) mod 64 <> 0 ->
  exists s, mkfs_main fs mkfs0 = Ret () s /\
    let V := blk s in
    let sbk := sb_of_bytes (V 1) in
    sbk = new_sb /\
    (forall b, 0 <= b < 1000 -> in_use sbk V b = (b <? freeblock s)) /\
    (let root := kinode V sbk ip ROOTINO in i_type root = T_DIR /\ i_nlink root = 1 /\ reads_as V (freeblock s) root (root_dir fs)) /\
    (forall j f, fs !! j = Some f ->
       let i := kinode V sbk ip (2 + Z.of_nat j) in i_type i = T_FILE /\ i_nlink i = 1 /\ reads_as V (freeblock s) i (hf_data f)) /\
    (forall n x b, 0 < n <= 1 + Z.of_nat (length fs) -> block_at V (kinode V sbk ip n) x b -> nmeta <= b < freeblock s) /\
    (forall n m x y b, 0 < n <= 1 + Z.of_nat (length fs) -> 0 < m <= 1 + Z.of_nat (length fs) ->
       block_at V (kinode V sbk ip n) x b -> block_at V (kinode V sbk ip m) y b -> n = m /\ x = y).
Proof.
  intros Hfs Hfit Hmod. destruct (mkfs_run fs Hfs Hfit Hmod) as (root & nfs & s & Hrun & Hinv & Htr & Hdr & Hall & Hbits).
  exists s. split; [exact Hrun|]. clear Hrun. cbv zeta. rewrite (mi_sb _ _ Hinv), (proj1 readsb_new), <- (proj2 readsb_new).
  pose proof (Forall2_length _ _ _ Hall) as Hlen. split; [done|]. split; [done|].
  assert (forall j f, (root :: nfs) !! j = Some f -> inum_ok (1 + Z.of_nat j) /\ stored s (1 + Z.of_nat j) f) as Hst
    by (intros j f Hj; split; [by eapply mi_inum|by eapply mi_file]).
  assert (forall n, 0 < n <= 1 + Z.of_nat (length fs) -> exists f, (root :: nfs) !! Z.to_nat (n - 1) = Some f /\ inum_ok n /\ stored s n f) as Hfile.
  { intros n Hn. destruct (lookup_lt_is_Some_2 (root :: nfs) (Z.to_nat (n - 1))) as [f Hf]; [cbn [length]; lia|]. exists f. split; [done|].
    assert (1 + Z.of_nat (Z.to_nat (n - 1)) = n) as En by lia. pose proof (Hst _ f Hf) as Hx. rewrite En in Hx. exact Hx. }
  split; [|split; [|split]].
  - destruct (Hst 0%nat root eq_refl) as [Hi Hs]. change (1 + Z.of_nat 0) with ROOTINO in *. rewrite <- Htr, <- Hdr.
    destruct (view_head s ROOTINO root ip Hi Hs) as [? ?]; [by left|]. split_and!; [done|done|by apply view_reads].
  - intros j f Hj. destruct (Forall2_lookup_l _ _ _ _ _ Hall Hj) as (nf & Hnf & Ht & Hd). destruct (Hst (S j) nf Hnf) as [Hi Hs].
    replace (1 + Z.of_nat (S j)) with (2 + Z.of_nat j) in * by lia. rewrite <- Ht, <- Hd.
    destruct (view_head s _ nf ip Hi Hs) as [? ?]; [by right|]. split_and!; [done|done|by apply view_reads].
  - intros n x b Hn Hb. destruct (Hfile n Hn) as (f & Hf & Hif & Hsf). by apply (view_place_range s n f ip Hif Hsf x).
  - intros n m x y b Hn Hm Hx Hy. destruct (Hfile n Hn) as (f & Hf & Hif & Hsf), (Hfile m Hm) as (g & Hg & Hig & Hsg).
    destruct (decide (n = m)) as [-> |Hne]; [split; [done|by eapply (view_places s m f ip Hif Hsf)]|].
    destruct (mi_disj _ _ Hinv (Z.to_nat (n - 1)) (Z.to_nat (m - 1)) f g b ltac:(lia) Hf Hg);
      [by apply (view_block_at s n f ip Hif Hsf x)|by apply (view_block_at s m g ip Hig Hsg y)].
Qed.

(** Two files: [user/_cat], read in two parts of 1024 and 300 bytes, and an
    empty [README]. *)
Definition demo_files : list hostfile :=
  [mkhostfile (str "user/_cat") (Some [replicate 1024 7; replicate 300 9; []]); mkhostfile (str "README") (Some [])].

Lemma kernel_reads_mkfs_image_witness :
  exists s, mkfs_main demo_files mkfs0 = Ret () s /\
    content (kinode (blk s) new_sb inode0 2) (blk s) 0 1324 = replicate 1024 7 ++ replicate 300 9 /\
    strncpy_list 14 (hf_name (mkhostfile (str "user/_cat") None)) = str "cat" ++ replicate 11 0.
Proof.
  destruct (kernel_reads_mkfs_image demo_files inode0) as (s & Hrun & Hsb & _ & _ & Hf & _ & _).
  - apply Forall_cons. split; [|apply Forall_singleton]; (split; [by eexists|apply (bool_decide_unpack _); vm_compute; exact I|reflexivity|apply (bool_decide_unpack _); vm_compute; exact I|vm_compute; congruence]).
  - split; vm_compute; congruence.
  - vm_compute. congruence.
  - exists s. split; [exact Hrun|]. rewrite Hsb in Hf. destruct (Hf 0%nat _ eq_refl) as (_ & _ & [Hs _ Hc]). change (2 + Z.of_nat 0) with 2 in *.
    rewrite Hs in Hc. split; [exact Hc|vm_compute; reflexivity].
Defined.

(** ** A root directory that ends at the end of a block

    With 62 files, or 64 more, [fix_root_size] adds a block to the size that
    was never allocated: reading the directory to its end makes [bmap]
    allocate a block, outside of a transaction. *)
Theorem full_root_gets_unallocated_block s root G ip :
  mkinv s (root :: G) -> 0 < rlen root <= 11 * 1024 -> rlen root mod 1024 = 0 ->
  exists s', fix_root_size ROOTINO s = Ret () s' /\
    let i := kinode (blk s') sb ip ROOTINO in i_size i = rlen root + 1024 /\ ~ mapped i (blk s') (rlen root / BSIZE).
Proof.
  intros Hinv Hr Hmod. assert ((root :: G) !! 0%nat = Some root) as H0 by done. pose proof (mi_inum _ _ _ _ Hinv H0) as Hin.
  destruct (mi_file _ _ Hinv 0%nat root H0) as [[Hroom _ [D1 D2 D3 D4 D5 D6 D7 D8 D9] _] Hsz Hnb]. change (1 + Z.of_nat 0) with ROOTINO in *.
  fold (rlen root) in Hsz. unfold f_nblk in Hnb. fold (rlen root) in Hnb. set (n := rlen root / 1024).
  assert (rlen root = 1024 * n /\ nblk (rlen root) = n /\ 0 < n <= 11) as (En & Enb & Hn) by (unfold n, nblk; dlia).
  set (di := wr 4 8 (rlen root + 1024) (dinode_at s ROOTINO)). set (s' := put_inode ROOTINO di s).
  assert (length di = 64%nat) as Hdl by (unfold di; rewrite length_wr; lia).
  assert (dinode_at s' ROOTINO = di) as Ed by (unfold s'; rewrite dinode_put by (try apply Hroom; done); by rewrite decide_True).
  exists s'. split; [|split].
  - unfold fix_root_size. erewrite bind_eq by (apply rinode_eq; [apply Hroom|done]). cbv beta zeta. rewrite xint_rd, Hsz by done. change BSIZE with 1024. fold n.
    replace ((n + 1) * 1024) with (rlen root + 1024) by lia. rewrite u32_small, xint_small by lia. apply winode_eq; [apply Hroom|done].
  - cbn [kinode get_dinode set_i_addrs set_i_size i_size]. unfold di_size. rewrite rd_field, Ed by (done || lia). apply rd_wr_eq; lia.
  - change BSIZE with 1024. fold n. intros (_ & Hne & _). apply Hne. unfold baddr. change NDIRECT with 12. rewrite (proj2 (Z.ltb_lt n 12)) by lia.
    rewrite view_addr, Ed by (done || lia). unfold di. rewrite rd_wr_ne by lia. rewrite D3, lookup_ge_None_2 by lia. done.
Qed.
